(* ===== verification/_CoqProject ===== *)
-Q . S2P
Prelude.v
RustStr.v
FileNames.v
Json.v
Errors.v
Frames.v
Redis.v
GatewayState.v
ConnectionManager.v
Presence.v
Huddle.v
EventConsumer.v
Publisher.v
Replay.v
WsHandler.v
Rank.v
Ranges.v
Lists.v
ListForms.v
Validation.v
ListViews.v
ListStore.v
LaterStore.v
MessageStore.v
PollStore.v
NoticeStore.v
ListInvariant.v
Mentions.v
ApiState.v
Sealed.v
SessionKeys.v
AuthStore.v
Outbox.v
AuditLog.v
Tables.v
Authz.v
Membership.v
ApiLaws.v
Mail.v
Sessions.v
SignIn.v
SignInRoutes.v
SessionLaws.v
SignInLaws.v
LoginLaws.v
Messaging.v
Files.v
Threads.v
MessageRoutes.v
Notices.v
NoticeLaws.v
Scheduled.v
Polls.v
MessageLaws.v
MessageReads.v
SendLaws.v
MentionLaws.v
PollLaws.v
ScheduledLaws.v
Conversations.v
Retention.v
RetentionLaws.v
ConversationLaws.v
LaterSync.v
ListService.v
Later.v
MembershipLaws.v
ListTx.v
ListLaws.v
LaterLaws.v
ListOrder.v
ListConvert.v
EndToEnd.v
