(* ===== verification/Prelude.v ===== *)
(** * Verification of the chat-systems backend

    This is the root of the development, and its documentation.

    ** The program

    The backend is two Rust services over one Postgres and one Redis.  The API
    ([src/backend/api]) changes the tables and stages an event for each change
    in an outbox; the realtime gateway ([src/backend/realtime]) holds the
    sockets, reads the events from Redis and turns them into frames for the
    sockets that may see them.  A socket that was away asks the gateway to
    replay what the log of its workspace holds after the last event it saw.

    ** The parts, their files and their sources

    Language and services:
    - [Prelude]: results, machine integers, lists, automation;
    - [RustStr]: text, bytes, [Uuid] and the string methods of the language;
    - [Json]: [serde_json::Value]; [Errors]: [shared/common/src/errors.rs];
    - [Redis]: the commands used, as an interface with laws and an instance.

    The gateway ([realtime/src], [shared/events/src]):
    - [Frames]: the frames and the event envelope;
    - [GatewayState]: the state of a process, the schedule of its calls;
    - [ConnectionManager]: the registry, the fan-out, backpressure, revocation
      ([connection_manager.rs]); [Presence], [Huddle]: the rest of that file;
    - [EventConsumer]: from events to frames ([event_consumer.rs]);
    - [Replay]: [replay.rs]; [WsHandler]: one socket ([ws_handler.rs]).

    The API ([api/src]):
    - [Publisher], [Outbox]: [messaging/publisher.rs], [messaging/outbox.rs];
    - [ApiState], [ApiLaws]: calls of a handler, and reasoning about them;
    - [AuditLog]: [audit.rs]; [Tables]: rows of people, workspaces and
      channels with their queries; [Authz]: [authz.rs];
    - [Validation]: [shared/common/src/validation.rs];
    - [Membership], [MembershipLaws]: invites, joining, leaving, roles
      ([workspace/{service,membership,routes,repo}.rs]);
    - [MessageStore], [Messaging]: the tables of messages and the statements
      over them ([messaging/repo.rs], parts of [files/repo.rs],
      [threads/repo.rs] and [notifications/repo.rs]);
    - [Mentions], [MessageRoutes]: [messaging/routes.rs], the reading of
      mentions and the handlers; [Threads]: [threads/];
    - [MessageLaws], [MessageReads], [SendLaws], [MentionLaws]: theorems about
      messages;
    - [Files]: [files/service.rs] and the endpoints of a file; [FileNames]:
      [files/names.rs]; [Ranges]: [files/ranges.rs];
    - [Rank], [Lists], [ListForms], [ListViews], [ListStore], [ListService]:
      the files of [lists/]; [ListInvariant], [ListTx], [ListLaws],
      [ListOrder], [ListConvert]: their theorems;
    - [LaterStore], [LaterSync], [Later], [LaterLaws]: [later/];
    - [PollStore], [Polls], [PollLaws]: [polls/];
    - [NoticeStore], [Notices], [NoticeLaws]: [notifications/] and [push/];
      [Mail]: [email/outbox.rs];
    - [Scheduled], [ScheduledLaws]: [scheduled/]; [Conversations],
      [ConversationLaws]: [conversations/];
    - [Retention], [RetentionLaws]: [retention/];
    - [Sealed]: [sealed/]; [SessionKeys]:
      [shared/common/src/session_keys.rs] and the claims of [middleware.rs];
    - [AuthStore]: the rows of sign-in; [Sessions]: [sessions.rs],
      [middleware.rs], [rate_limit.rs] and [auth/service/tokens.rs]; [SignIn]:
      [auth/service/], [auth/totp.rs] and the links of invitations;
      [SignInRoutes]: [auth/{routes,email_code_routes,totp_routes}.rs], their
      repositories and parts of [admin/routes.rs]; [SessionLaws],
      [SignInLaws], [LoginLaws]: theorems about them.

    Both: [EndToEnd].

    ** How state and effects correspond

    A table is a map from its primary key ([Tables], [MessageStore],
    [ListStore], [LaterStore], [PollStore], [NoticeStore], [AuthStore]), or the list of its rows where their order is read
    ([Outbox.Db]).  A statement is a function of the tables; a transaction is
    a function of the tables that takes effect as a whole at its commit
    or not at all.  A handler is a computation in [Svc]
    ([ApiState]) or [M] ([GatewayState]): before each call to a service the
    schedule lets other processes change the shared state and decides whether
    the call is carried out, refused, or carried out with its reply lost.  The
    theorems quantify over the schedule, so over the interleavings of calls and
    the patterns of failure.  What the others are relied upon to do is stated
    as the relation of a rely-guarantee argument ([follows]), and each handler
    is shown to keep to it.  In the gateway a handler of one socket changes the
    registry between its calls; [ConnectionManager] also splits the two
    operations that hold a lock in parts into the steps between.

    Errors are [Err] of an [AppError] ([Errors]); a handler that gives up
    returns it, and the state is what the calls before left.  Panics do not
    occur in what is modelled; the arithmetic that could wrap is written with
    its width ([usize_sub], [u64_saturating_add], [Rank], [Ranges]).

    ** What the theorems show

    - The gateway.  A socket subscribes only to what a state of the database
      granted ([WsHandler]); a broadcast reaches exactly those it should, a
      socket sees the messages in order, one that is too slow is dropped, and
      a revoked session closes ([ConnectionManager]); no subscription outlives
      membership ([EventConsumer]); a closed socket leaves nothing
      ([WsHandler]); a replay misses nothing and touches no other socket
      ([Replay]); huddles keep their limit, and signalling is between members.
    - The outbox loses no event, whatever fails ([Outbox]); together with the
      gateway: [EndToEnd].
    - Access.  The checks answer what the tables allow, or report the failure
      ([Authz]); invites admit no more than their limit, roles respect ranks,
      leaving takes the places somebody has and nothing of others', and coming
      back restores conversations ([MembershipLaws]).
    - Lists.  The tables keep their invariant under every request
      ([ListLaws]): typed cells, ordered ranks, fitting views, limits; items
      land where they are put ([ListOrder]), a change of a column destroys what
      was agreed to and carries over the rest ([ListConvert]), and exports read
      back ([Lists]).
    - Later.  Due dates settle, reminders are claimed once ([LaterLaws]).
    - Messages.  Counters of replies and of what is unread follow the
      messages, transaction by transaction, unless one message is deleted twice
      at once, and the reconciler restores them in the channels written to
      lately ([MessageLaws]); pages cover a channel, edits keep what they
      replace ([MessageReads]); a send that is refused with every call answered
      leaves nothing, a repeated one changes nothing, threads stay one level
      deep under every interleaving ([SendLaws]); a message reaches whom it
      names ([MentionLaws]); the badge of threads counts its page ([Threads]).
    - Polls show the tally of their votes and closed ones take none, under
      every interleaving ([PollLaws]).
    - Notifications and mail.  Everybody is told of a message at most once; a
      message delivered again adds no row, and no mail while the first waits
      and no pause has ended; digests take what waited ([NoticeLaws]); a mail marked as sent was taken by the server ([Mail]).
    - Scheduled messages are handed out once, and a delivery whose calls are
      answered is decided ([ScheduledLaws]); a conversation is with whom was named
      ([ConversationLaws]).
    - Retention.  A pass that nothing interferes with ends, removes what a dry
      run counts and nothing else, and leaves nothing to count, where its
      batches are enough ([RetentionLaws]).
    - Stored secrets keep their text when they are sealed again, among passes
      of other rings that keep it too; nothing stored anew is overwritten where
      all begin with one key ([Sealed]).
    - Sign-in.  It needs every factor, and asking for a way in tells nothing
      ([LoginLaws]); a recovery code is used once, and so is a code of an
      authenticator until its enrolment is started, confirmed or taken off; an
      emailed code takes five guesses ([SignInLaws]); who was signed out by a
      revocation that succeeded stays out ([SessionLaws]), and sessions outlive
      a rotation of the keys ([SessionKeys]).
    - Mentions.  The scan ends and reads what was written ([Mentions]).
    - Files.  Names are safe segments and well-formed headers ([FileNames]);
      a range lies in its object ([Ranges]).

    Where the code does something else than a comment or a document says, or
    than it means to, the theorem proves what it does.

    ** Fuel and bounds

    Loops over data are structural recursion.  The scans over text recurse on
    fuel that starts at the length of the text, and each round consumes a
    character ([mention_scans_end] for mentions; [Ranges] and [Json] recurse
    on the text).  [midpoint] recurses on fuel that starts above the
    lengths of both ranks, and [midpoint_total] shows that it
    returns.  The socket loop runs over the list of the events it observes, so
    that a run is as long as that list.  A reader who pages through a channel
    ([pages]) has as much fuel as there are messages, and
    [pages_cover_the_channel] shows that it is enough; the sweep of drafts
    ([sweep_expired_drafts]) takes its number of rounds.  A pass of retention
    has the 200 batches of the code, of 500 threads each, and
    [a_pass_removes_what_was_counted] says when they are enough; the lookup of
    a revocation has its two attempts.  No theorem is of the form "if it
    returns".

    ** Interfaces

    What is not in the repository is a class whose laws are its documented
    behaviour, with a concrete instance on which the witnesses run: Redis
    ([RedisLaws]), the object store (the keys it has, [objects]), the text of
    identifiers ([UuidText], [UuidPlain]), the JSON
    of a frame ([FrameSerde]), case and letters of Unicode ([CaseFolding],
    [Alphanumeric], [Normalization]), floating point text ([FloatText]), calendar dates
    ([CalendarDate]), the casts and time zones of Postgres ([PgText]), the
    cipher, the hash and base64 of stored secrets ([Sealing]), signed tokens
    ([Jwt]), the text of a mark ([MarkText]), Argon2 ([Passwords]) and the codes
    of an authenticator ([Totp]).

    ** Not modelled

    - Two handlers of one gateway process interleave between their calls only
      through the services; the exception is the race in the registry.
    - An iteration of the socket loop reads one instant, a handler of the API
      one clock.
    - Inside a transaction other transactions are not seen; a query a handler
      makes outside of it while it is open sees the state of its commit, and
      isolation weaker than that is not modelled.
    - The order in which the database evaluates the casts of a statement.
    - What a mail server and a push service answer is an argument; metrics and
      logs are outputs nothing reads back.
    - Columns nothing modelled decides by: pictures, biographies, titles.
    - What is drawn at random (identifiers, salts, nonces, codes) is an
      argument, as is the time; cookies are the tokens they carry.
    - Streams of uploads and downloads, thumbnails, link previews and search.
    - Parts of the repository with no file here: passkeys, single sign-on and
      the first set-up, workflows, hooks, bots and integrations, imports and
      exports, the sidebar, analytics and directory synchronisation, the
      desktop shell and the web client.  The manifest lists them one by one. *)

From stdpp Require Export base tactics option list gmap.
From Stdlib Require Export ZArith Lia.

Declare Scope chat_scope.
Delimit Scope chat_scope with chat.
#[global] Open Scope Z_scope.

(** ** Rust's [Result] *)

Inductive result (E A : Type) : Type :=
| Ok (a : A)
| Err (e : E).
Arguments Ok {E A} a.
Arguments Err {E A} e.

#[export] Instance result_ret E : MRet (result E) := fun A a => Ok a.
#[export] Instance result_bind E : MBind (result E) :=
  fun A B f r => match r with Ok a => f a | Err e => Err e end.
#[export] Instance result_fmap E : FMap (result E) :=
  fun A B f r => match r with Ok a => Ok (f a) | Err e => Err e end.

(** [Option::ok_or] *)
Definition ok_or {E A} (e : E) (o : option A) : result E A :=
  match o with Some a => Ok a | None => Err e end.

(** [Result::ok] *)
Definition result_ok {E A} (r : result E A) : option A :=
  match r with Ok a => Some a | Err _ => None end.

Definition is_ok {E A} (r : result E A) : bool :=
  match r with Ok _ => true | Err _ => false end.

Lemma bind_Ok {E A B} (r : result E A) (f : A -> result E B) b :
  r ≫= f = Ok b <-> exists a, r = Ok a /\ f a = Ok b.
Proof.
  destruct r; cbn; split; try naive_solver.
Qed.

Lemma ok_or_Ok {E A} (e : E) (o : option A) a : ok_or e o = Ok a <-> o = Some a.
Proof. destruct o; cbn; split; congruence. Qed.

(** Splits [if b then Err e else k = Ok a] into the guard and the rest. *)
Lemma guard_Ok {E A} (b : bool) (e : E) (k : result E A) a :
  (if b then Err e else k) = Ok a <-> b = false /\ k = Ok a.
Proof. destruct b; split; naive_solver. Qed.

(** ** Automation *)

Create HintDb chat discriminated.
Create Rewrite HintDb chat_rw.
#[export] Hint Rewrite @bind_Ok @ok_or_Ok @guard_Ok : chat_rw.

(** Opens every conjunction, existential and successful result in the context. *)
Ltac inv_ok :=
  repeat match goal with
  | H : _ /\ _ |- _ => destruct H
  | H : exists _, _ |- _ => destruct H
  | H : Ok _ = Ok _ |- _ => injection H as H; subst
  | H : Err _ = Err _ |- _ => injection H as H; subst
  | H : Ok _ = Err _ |- _ => discriminate H
  | H : Err _ = Ok _ |- _ => discriminate H
  | H : Some _ = Some _ |- _ => injection H as H; subst
  | H : (_ ≫= _) = Ok _ |- _ => apply bind_Ok in H
  | H : ok_or _ _ = Ok _ |- _ => apply ok_or_Ok in H
  | H : (if _ then Err _ else _) = Ok _ |- _ => apply guard_Ok in H
  end.

(** Splits every boolean connective of the context into propositions. *)
Ltac bool_hyps :=
  repeat match goal with
  | H : (_ && _)%bool = true |- _ => apply andb_true_iff in H; destruct H
  | H : (_ || _)%bool = false |- _ => apply orb_false_iff in H; destruct H
  | H : negb _ = true |- _ => apply negb_true_iff in H
  | H : negb _ = false |- _ => apply negb_false_iff in H
  | H : (_ && _)%bool = false |- _ => apply andb_false_iff in H
  | H : (_ || _)%bool = true |- _ => apply orb_true_iff in H
  | H : Z.ltb _ _ = true |- _ => apply Z.ltb_lt in H
  | H : Z.ltb _ _ = false |- _ => apply Z.ltb_ge in H
  | H : Z.leb _ _ = true |- _ => apply Z.leb_le in H
  | H : Z.leb _ _ = false |- _ => apply Z.leb_gt in H
  | H : Z.eqb _ _ = true |- _ => apply Z.eqb_eq in H
  | H : Z.eqb _ _ = false |- _ => apply Z.eqb_neq in H
  | H : bool_decide _ = true |- _ => apply bool_decide_eq_true in H
  | H : bool_decide _ = false |- _ => apply bool_decide_eq_false in H
  end.

(** ** Machine integers *)

Definition U64_MAX : Z := 2 ^ 64 - 1.
Definition is_u64 (z : Z) : Prop := 0 <= z <= U64_MAX.

(** Times are in microseconds, as the database keeps them. *)
Definition SECOND : Z := 1000000.

(** [usize] subtraction as a release build computes it (wrapping). *)
Definition usize_sub (a b : Z) : Z := (a - b) mod 2 ^ 64.

(** [u64::saturating_add], [u64::saturating_sub] *)
Definition u64_saturating_add (a b : Z) : Z := Z.min (a + b) U64_MAX.
Definition u64_saturating_sub (a b : Z) : Z := Z.max (a - b) 0.

Lemma usize_sub_small a b : 0 <= b <= a -> a <= U64_MAX -> usize_sub a b = a - b.
Proof. unfold usize_sub, U64_MAX. intros. apply Z.mod_small. lia. Qed.

(** ** Lists *)

(** [Iterator::position] *)
Fixpoint position {A} (p : A -> bool) (l : list A) : option nat :=
  match l with
  | [] => None
  | x :: l => if p x then Some O else S <$> position p l
  end.

(** [Iterator::take_while] *)
Fixpoint take_while {A} (p : A -> bool) (l : list A) : list A :=
  match l with
  | [] => []
  | x :: l => if p x then x :: take_while p l else []
  end.

(** [Iterator::skip_while] *)
Fixpoint skip_while {A} (p : A -> bool) (l : list A) : list A :=
  match l with
  | [] => []
  | x :: l' => if p x then skip_while p l' else l
  end.

(** [Vec::dedup] *)
Fixpoint dedup {A} `{EqDecision A} (l : list A) : list A :=
  match l with
  | x :: ((y :: _) as rest) => if bool_decide (x = y) then dedup rest else x :: dedup rest
  | _ => l
  end.

Lemma filter_all {A} (P : A -> Prop) `{!forall x, Decision (P x)} (l : list A) : (forall x, x ∈ l -> P x) -> filter P l = l.
Proof.
  intros Hl. induction l as [|x l IH]; [done|]. rewrite filter_cons_True by (apply Hl; left).
  f_equal. apply IH. intros y Hy. apply Hl. by right.
Qed.

Lemma take_skip_while {A} (p : A -> bool) l : take_while p l ++ skip_while p l = l.
Proof. induction l as [|x l IH]; cbn; [done|]. destruct (p x); cbn; congruence. Qed.

Lemma take_while_Forall {A} (p : A -> bool) l : Forall (fun x => p x = true) (take_while p l).
Proof. induction l as [|x l IH]; cbn; [constructor|]. destruct (p x) eqn:?; auto. Qed.

Lemma skip_while_head {A} (p : A -> bool) l x r : skip_while p l = x :: r -> p x = false.
Proof.
  induction l as [|y l IH]; cbn; [done|].
  destruct (p y) eqn:?; [auto|]. intros [= -> ->]. done.
Qed.

Lemma take_while_length {A} (p : A -> bool) l :
  (length (take_while p l) <= length l)%nat.
Proof. induction l as [|x l IH]; cbn; [lia|]. destruct (p x); cbn; lia. Qed.

Lemma skip_while_idemp {A} (p : A -> bool) l : skip_while p (skip_while p l) = skip_while p l.
Proof. induction l as [|x l IH]; cbn; [done|]. destruct (p x) eqn:E; [done|]. cbn. by rewrite E. Qed.

#[export] Hint Resolve take_while_Forall : chat.

(** The results of [f] over a list one after another, or its first error. *)
Fixpoint collect {E A B} (f : A -> result E (list B)) (l : list A) : result E (list B) :=
  match l with
  | [] => Ok []
  | x :: l => match f x with
              | Ok bs => match collect f l with Ok rest => Ok (bs ++ rest) | Err e => Err e end
              | Err e => Err e
              end
  end.

Lemma elem_of_collect {E A B} (f : A -> result E (list B)) l bs b :
  collect f l = Ok bs -> b ∈ bs <-> exists x xs, x ∈ l /\ f x = Ok xs /\ b ∈ xs.
Proof.
  revert bs. induction l as [|y l IH]; intros bs; cbn.
  - intros [= <-]. split; [intros Hb|intros (x & xs & Hb & _)]; by apply not_elem_of_nil in Hb.
  - destruct (f y) as [ys|] eqn:Ey; [|intros [=]]. destruct (collect f l) as [rest|] eqn:El; [|intros [=]]. intros [= <-].
    rewrite elem_of_app, (IH rest eq_refl). split.
    + intros [Hb|(x & xs & ? & ? & ?)]; [exists y, ys|exists x, xs]; split_and!; auto; by constructor.
    + intros (x & xs & [->|Hx]%elem_of_cons & Hf & Hb); [left; congruence|right; eauto].
Qed.

Lemma collect_Ok {E A B} (f : A -> result E (list B)) l : (forall x, x ∈ l -> exists bs, f x = Ok bs) -> exists bs, collect f l = Ok bs.
Proof.
  induction l as [|y l IH]; cbn; intros Hf; [by eexists|].
  destruct (Hf y) as [ys ->]; [left|]. destruct IH as [rest ->]; [intros x Hx; apply Hf; by right|]. by eexists.
Qed.

(** An error of one element is the error of all. *)
Lemma collect_Err {E A B} (f : A -> result E (list B)) l x e : x ∈ l -> f x = Err e -> exists e', collect f l = Err e'.
Proof.
  intros Hx Hf. induction l as [|y l IH]; cbn; [by apply not_elem_of_nil in Hx|].
  apply elem_of_cons in Hx as [<-|Hx]; [rewrite Hf; by eexists|].
  destruct (f y); [|by eexists]. destruct IH as [e' ->]; [done|]. by eexists.
Qed.
