(* ===== verification/RustStr.v ===== *)
(** * Rust text: characters, strings, bytes and identifiers

    A Rust [str] is a sequence of Unicode scalar values; [str] below is that
    sequence, each value a [Z].  [str::len] counts UTF-8 bytes, which
    [len_utf8] gives per character, and [as_bytes] is the encoding itself.
    The file holds the standard-library operations the sources call on text,
    and the [Uuid] type with the interface of its textual form. *)

From stdpp Require Import base tactics option list gmap.
From Stdlib Require Import ZArith Lia String Ascii.
From S2P Require Import Prelude.

Abbreviation char := Z (only parsing).
Abbreviation str := (list Z) (only parsing).
Abbreviation bytes := (list Z) (only parsing).

(** An ASCII literal of the source. *)
Definition lit (s : string) : str :=
  (fun a => Z.of_nat (nat_of_ascii a)) <$> list_ascii_of_string s.
#[global] Arguments lit : simpl never.
Notation "$ s" := (lit s%string) (at level 1, s at level 0, format "$ s").

Definition ch (a : ascii) : char := Z.of_nat (nat_of_ascii a).

Definition str_eqb (a b : str) : bool := bool_decide (a = b).

(** ** Characters *)

(** [char::is_whitespace]: the Unicode property White_Space. *)
Definition is_whitespace (c : char) : bool :=
  ((9 <=? c) && (c <=? 13)) || (c =? 32) || (c =? 133) || (c =? 160) || (c =? 5760)
  || ((8192 <=? c) && (c <=? 8202)) || (c =? 8232) || (c =? 8233) || (c =? 8239)
  || (c =? 8287) || (c =? 12288).

(** [char::is_control]: the general category Cc. *)
Definition is_control (c : char) : bool :=
  ((0 <=? c) && (c <=? 31)) || ((127 <=? c) && (c <=? 159)).

Definition is_ascii_digit (c : char) : bool := (48 <=? c) && (c <=? 57).
Definition is_ascii_lowercase (c : char) : bool := (97 <=? c) && (c <=? 122).
Definition is_ascii_uppercase (c : char) : bool := (65 <=? c) && (c <=? 90).
Definition is_ascii_alphabetic (c : char) : bool := is_ascii_lowercase c || is_ascii_uppercase c.
Definition is_ascii_alphanumeric (c : char) : bool := is_ascii_alphabetic c || is_ascii_digit c.
Definition is_ascii_hexdigit (c : char) : bool :=
  is_ascii_digit c || ((97 <=? c) && (c <=? 102)) || ((65 <=? c) && (c <=? 70)).
Definition to_ascii_uppercase (s : str) : str :=
  (fun c => if is_ascii_lowercase c then c - 32 else c) <$> s.

(** ** UTF-8 *)

Definition len_utf8 (c : char) : Z :=
  if c <? 128 then 1 else if c <? 2048 then 2 else if c <? 65536 then 3 else 4.

(** [str::len] *)
Definition str_len (s : str) : Z := foldr (fun c n => len_utf8 c + n) 0 s.

(** [str::chars().count()] *)
Definition chars_count (s : str) : Z := Z.of_nat (length s).

Definition encode_utf8 (c : char) : bytes :=
  if c <? 128 then [c]
  else if c <? 2048 then [192 + c / 64; 128 + c mod 64]
  else if c <? 65536 then [224 + c / 4096; 128 + (c / 64) mod 64; 128 + c mod 64]
  else [240 + c / 262144; 128 + (c / 4096) mod 64; 128 + (c / 64) mod 64; 128 + c mod 64].

Definition as_bytes (s : str) : bytes := s ≫= encode_utf8.

Definition is_cont (b : Z) : bool := (128 <=? b) && (b <=? 191).

Definition second_ok (b1 b2 : Z) : bool :=
  if b1 =? 224 then (160 <=? b2) && (b2 <=? 191)
  else if b1 =? 237 then (128 <=? b2) && (b2 <=? 159)
  else if b1 =? 240 then (144 <=? b2) && (b2 <=? 191)
  else if b1 =? 244 then (128 <=? b2) && (b2 <=? 143)
  else is_cont b2.

(** U+FFFD, the replacement character. *)
Definition replacement : bytes := [239; 191; 189].

(** [String::from_utf8_lossy]: every maximal ill-formed prefix becomes U+FFFD. *)
Fixpoint from_utf8_lossy (bs : bytes) : bytes :=
  match bs with
  | [] => []
  | b :: r =>
      if b <? 128 then b :: from_utf8_lossy r
      else if (194 <=? b) && (b <=? 223) then
        match r with
        | b2 :: r2 => if is_cont b2 then b :: b2 :: from_utf8_lossy r2
                      else replacement ++ from_utf8_lossy r
        | [] => replacement
        end
      else if (224 <=? b) && (b <=? 239) then
        match r with
        | b2 :: r2 =>
            if second_ok b b2 then
              match r2 with
              | b3 :: r3 => if is_cont b3 then b :: b2 :: b3 :: from_utf8_lossy r3
                            else replacement ++ from_utf8_lossy r2
              | [] => replacement
              end
            else replacement ++ from_utf8_lossy r
        | [] => replacement
        end
      else if (240 <=? b) && (b <=? 244) then
        match r with
        | b2 :: r2 =>
            if second_ok b b2 then
              match r2 with
              | b3 :: r3 =>
                  if is_cont b3 then
                    match r3 with
                    | b4 :: r4 => if is_cont b4 then b :: b2 :: b3 :: b4 :: from_utf8_lossy r4
                                  else replacement ++ from_utf8_lossy r3
                    | [] => replacement
                    end
                  else replacement ++ from_utf8_lossy r2
              | [] => replacement
              end
            else replacement ++ from_utf8_lossy r
        | [] => replacement
        end
      else replacement ++ from_utf8_lossy r
  end.

(** A value of [char]: no surrogate. *)
Definition is_char (c : char) : Prop := 0 <= c < 55296 \/ 57344 <= c < 1114112.

(** [String::from_utf8] *)
Fixpoint from_utf8 (bs : bytes) : option str :=
  match bs with
  | [] => Some []
  | b :: r =>
      if b <? 128 then cons b <$> from_utf8 r
      else if (194 <=? b) && (b <=? 223) then
        match r with
        | b2 :: r => if is_cont b2 then cons ((b - 192) * 64 + (b2 - 128)) <$> from_utf8 r else None
        | _ => None
        end
      else if (224 <=? b) && (b <=? 239) then
        match r with
        | b2 :: b3 :: r =>
            if second_ok b b2 && is_cont b3 then cons ((b - 224) * 4096 + (b2 - 128) * 64 + (b3 - 128)) <$> from_utf8 r
            else None
        | _ => None
        end
      else if (240 <=? b) && (b <=? 244) then
        match r with
        | b2 :: b3 :: b4 :: r =>
            if second_ok b b2 && is_cont b3 && is_cont b4 then
              cons ((b - 240) * 262144 + (b2 - 128) * 4096 + (b3 - 128) * 64 + (b4 - 128)) <$> from_utf8 r
            else None
        | _ => None
        end
      else None
  end.

(** What text encodes to reads back. *)
Lemma from_utf8_encode c r : is_char c -> from_utf8 (encode_utf8 c ++ r) = cons c <$> from_utf8 r.
Proof.
  intros Hc. unfold is_char, encode_utf8 in *.
  pose proof (Z.div_mod c 64 ltac:(done)) as D0. pose proof (Z.mod_pos_bound c 64 ltac:(done)) as B0.
  pose proof (Z.div_mod (c / 64) 64 ltac:(done)) as D1. pose proof (Z.mod_pos_bound (c / 64) 64 ltac:(done)) as B1.
  pose proof (Z.div_mod (c / 4096) 64 ltac:(done)) as D2. pose proof (Z.mod_pos_bound (c / 4096) 64 ltac:(done)) as B2.
  assert (E1 : c / 4096 = c / 64 / 64) by (rewrite Z.div_div; done).
  assert (E2 : c / 262144 = c / 4096 / 64) by (rewrite Z.div_div; done).
  rewrite <-E1 in D1. rewrite <-E2 in D2. clear E1 E2.
  set (q1 := c / 64) in *. set (q2 := c / 4096) in *. set (q3 := c / 262144) in *.
  set (m0 := c mod 64) in *. set (m1 := q1 mod 64) in *. set (m2 := q2 mod 64) in *. clearbody q1 q2 q3 m0 m1 m2.
  assert (Hn : forall x, x = c -> cons x <$> from_utf8 r = cons c <$> from_utf8 r) by (by intros ? ->).
  assert (Hlt : forall a b, a < b -> (a <? b) = true) by (intros; by apply Z.ltb_lt).
  assert (Hge : forall a b, b <= a -> (a <? b) = false) by (intros; by apply Z.ltb_ge).
  destruct (Z.ltb_spec c 128); [|destruct (Z.ltb_spec c 2048); [|destruct (Z.ltb_spec c 65536)]]; cbn [app from_utf8].
  - by rewrite Hlt.
  - rewrite (Hge (192 + q1)) by lia. assert ((194 <=? 192 + q1) && (192 + q1 <=? 223) = true) as -> by lia.
    assert (is_cont (128 + m0) = true) as -> by (unfold is_cont; lia). apply Hn. lia.
  - rewrite (Hge (224 + q2)) by lia. assert ((194 <=? 224 + q2) && (224 + q2 <=? 223) = false) as -> by lia.
    assert ((224 <=? 224 + q2) && (224 + q2 <=? 239) = true) as -> by lia.
    assert (second_ok (224 + q2) (128 + m1) && is_cont (128 + m0) = true) as ->; [|apply Hn; lia].
    unfold second_ok, is_cont. destruct (Z.eqb_spec (224 + q2) 224), (Z.eqb_spec (224 + q2) 237), (Z.eqb_spec (224 + q2) 240), (Z.eqb_spec (224 + q2) 244); lia.
  - rewrite (Hge (240 + q3)) by lia. assert ((194 <=? 240 + q3) && (240 + q3 <=? 223) = false) as -> by lia.
    assert ((224 <=? 240 + q3) && (240 + q3 <=? 239) = false) as -> by lia.
    assert ((240 <=? 240 + q3) && (240 + q3 <=? 244) = true) as -> by lia.
    assert (second_ok (240 + q3) (128 + m2) && is_cont (128 + m1) && is_cont (128 + m0) = true) as ->; [|apply Hn; lia].
    unfold second_ok, is_cont. destruct (Z.eqb_spec (240 + q3) 224), (Z.eqb_spec (240 + q3) 237), (Z.eqb_spec (240 + q3) 240), (Z.eqb_spec (240 + q3) 244); lia.
Qed.
Lemma from_utf8_as_bytes s : Forall is_char s -> from_utf8 (as_bytes s) = Some s.
Proof.
  induction 1 as [|c s Hc _ IH]; [done|]. change (as_bytes (c :: s)) with (encode_utf8 c ++ as_bytes s).
  by rewrite from_utf8_encode, IH.
Qed.

(** What is read back is text. *)
Lemma from_utf8_chars bs s : Forall (fun b => 0 <= b < 256) bs -> from_utf8 bs = Some s -> Forall is_char s.
Proof.
  remember (length bs) as n eqn:Hn. assert (Hle : (length bs <= n)%nat) by lia. clear Hn. revert bs s Hle.
  induction n as [|n IH]; intros [|b r] s Hle Hb E; cbn in Hle; try lia; try (injection E as <-; constructor).
  apply Forall_cons in Hb as [H1 Hb]. cbn [from_utf8] in E.
  destruct (Z.ltb_spec b 128).
  { apply fmap_Some in E as (t & E & ->). constructor; [left; lia|]. eapply IH; [|exact Hb|exact E]. lia. }
  destruct ((194 <=? b) && (b <=? 223)) eqn:E2.
  { destruct r as [|b2 r]; [done|]. destruct (is_cont b2) eqn:C2; [|done]. apply Forall_cons in Hb as [H2 Hb].
    apply fmap_Some in E as (t & E & ->). unfold is_cont in C2. constructor; [left; lia|].
    eapply IH; [|exact Hb|exact E]. cbn in Hle. lia. }
  destruct ((224 <=? b) && (b <=? 239)) eqn:E3.
  { destruct r as [|b2 [|b3 r]]; [done..|]. destruct (second_ok b b2 && is_cont b3) eqn:C2; [|done].
    apply Forall_cons in Hb as [H2 Hb]. apply Forall_cons in Hb as [H3 Hb].
    apply fmap_Some in E as (t & E & ->). constructor; [|eapply IH; [|exact Hb|exact E]; cbn in Hle; lia].
    unfold second_ok, is_cont, is_char in *. destruct (Z.eqb_spec b 224), (Z.eqb_spec b 237), (Z.eqb_spec b 240), (Z.eqb_spec b 244); lia. }
  destruct ((240 <=? b) && (b <=? 244)) eqn:E4; [|done].
  destruct r as [|b2 [|b3 [|b4 r]]]; [done..|]. destruct (second_ok b b2 && is_cont b3 && is_cont b4) eqn:C2; [|done].
  apply Forall_cons in Hb as [H2 Hb]. apply Forall_cons in Hb as [H3 Hb]. apply Forall_cons in Hb as [H4 Hb].
  apply fmap_Some in E as (t & E & ->). constructor; [|eapply IH; [|exact Hb|exact E]; cbn in Hle; lia].
  unfold second_ok, is_cont, is_char in *. destruct (Z.eqb_spec b 224), (Z.eqb_spec b 237), (Z.eqb_spec b 240), (Z.eqb_spec b 244); lia.
Qed.

Lemma from_utf8_lossy_ascii bs :
  Forall (fun b => b < 128) bs -> from_utf8_lossy bs = bs.
Proof.
  induction 1 as [|b bs Hb _ IH]; cbn; [done|].
  rewrite (proj2 (Z.ltb_lt b 128) Hb), IH. done.
Qed.

(** ** Strings *)

Definition trim_start (s : str) : str := skip_while is_whitespace s.
Definition trim_end (s : str) : str := reverse (skip_while is_whitespace (reverse s)).
Definition trim (s : str) : str := trim_end (trim_start s).

Fixpoint strip_prefix (p s : str) : option str :=
  match p, s with
  | [], _ => Some s
  | a :: p, b :: s => if a =? b then strip_prefix p s else None
  | _ :: _, [] => None
  end.

Definition strip_suffix (p s : str) : option str :=
  reverse <$> strip_prefix (reverse p) (reverse s).

Definition starts_with (p s : str) : bool := bool_decide (is_Some (strip_prefix p s)).
Definition ends_with (p s : str) : bool := bool_decide (is_Some (strip_suffix p s)).
Definition str_contains (c : char) (s : str) : bool := existsb (Z.eqb c) s.

(** [str::split_once] on one character: what precedes its first occurrence,
    and what follows it. *)
Fixpoint split_once (c : char) (s : str) : option (str * str) :=
  match s with
  | [] => None
  | x :: s => if x =? c then Some ([], s)
              else '(a, b) ← split_once c s; Some (x :: a, b)
  end.

(** [str::split] on one character. *)
Fixpoint split_on (c : char) (s : str) : list str :=
  match s with
  | [] => [[]]
  | x :: s =>
      if x =? c then [] :: split_on c s
      else match split_on c s with [] => [[x]] | part :: parts => (x :: part) :: parts end
  end.

(** [str::parse::<u64>]: an optional [+], at least one digit, no overflow. *)
Definition digits_value (s : str) : Z := foldl (fun n c => n * 10 + (c - 48)) 0 s.

Definition parse_u64 (s : str) : option Z :=
  let ds := match s with c :: r => if c =? 43 then r else s | [] => s end in
  if bool_decide (ds = []) then None
  else if forallb is_ascii_digit ds then
    let n := digits_value ds in if n <=? U64_MAX then Some n else None
  else None.

(** ** Facts *)

Lemma strip_prefix_Some p s r : strip_prefix p s = Some r <-> s = p ++ r.
Proof.
  revert s. induction p as [|a p IH]; intros s; cbn.
  - split; [intros [= ->]|intros ->]; done.
  - destruct s as [|b s]; [split; [done|intros [=]]|].
    destruct (Z.eqb_spec a b) as [->|Hne].
    + rewrite IH. split; [intros ->; done|intros [= ->]; done].
    + split; [done|]. intros [= ? ?]. congruence.
Qed.

Lemma starts_with_spec p s : starts_with p s = true <-> exists r, s = p ++ r.
Proof.
  unfold starts_with. rewrite bool_decide_eq_true. split.
  - intros [r Hr]. exists r. by apply strip_prefix_Some.
  - intros [r Hr]. exists r. by apply strip_prefix_Some.
Qed.

Lemma strip_suffix_Some p s r : strip_suffix p s = Some r <-> s = r ++ p.
Proof.
  unfold strip_suffix. rewrite fmap_Some. split.
  - intros (x & Hx & ->). apply strip_prefix_Some in Hx.
    by rewrite <-(reverse_involutive s), Hx, reverse_app, reverse_involutive.
  - intros ->. exists (reverse r). rewrite reverse_involutive. split; [|done].
    by rewrite strip_prefix_Some, reverse_app.
Qed.

Lemma ends_with_spec p s : ends_with p s = true <-> exists r, s = r ++ p.
Proof.
  unfold ends_with. rewrite bool_decide_eq_true. split.
  - intros [r Hr]. exists r. by apply strip_suffix_Some.
  - intros [r Hr]. exists r. by apply strip_suffix_Some.
Qed.

Lemma str_contains_spec c s : str_contains c s = true <-> c ∈ s.
Proof.
  unfold str_contains. rewrite existsb_exists. setoid_rewrite Z.eqb_eq.
  rewrite list_elem_of_In. split; [intros (x & ? & ->); done|eauto].
Qed.

Lemma split_once_Some c s a b :
  split_once c s = Some (a, b) <-> s = a ++ c :: b /\ c ∉ a.
Proof.
  revert a. induction s as [|x s IH]; intros a; cbn.
  - split; [done|]. intros [H _]. destruct a; done.
  - destruct (Z.eqb_spec x c) as [->|Hne].
    + split; [intros [= <- <-]; split; [done|set_solver]|].
      intros [H Hc]. destruct a as [|y a]; [by injection H as ->|].
      injection H as -> _. set_solver.
    + destruct (split_once c s) as [[a' b']|] eqn:E; cbn; split.
      * intros [= <- <-]. destruct (proj1 (IH a')) as [-> Hc]; [done|].
        split; [done|]. set_solver.
      * intros [H Hc]. destruct a as [|y a]; [injection H as ->; done|].
        injection H as -> H. assert (Some (a', b') = Some (a, b)) as [= -> ->]; [|done].
        apply IH. set_solver.
      * done.
      * intros [H Hc]. destruct a as [|y a]; [injection H as ->; done|].
        injection H as -> H. assert (None = Some (a, b)); [|done].
        apply IH. set_solver.
Qed.

Lemma split_once_None c s : split_once c s = None <-> c ∉ s.
Proof.
  split.
  - intros H Hc. apply list_elem_of_split in Hc as (a & b & ->).
    revert H. induction a as [|x a IH]; cbn.
    + rewrite Z.eqb_refl. done.
    + destruct (x =? c); [done|]. destruct (split_once c (a ++ c :: b)) as [[? ?]|]; done.
  - intros H. destruct (split_once c s) as [[a b]|] eqn:E; [|done].
    apply split_once_Some in E as [-> _]. set_solver.
Qed.

Lemma str_len_app a b : str_len (a ++ b) = str_len a + str_len b.
Proof. induction a as [|x a IH]; cbn; [done|]. fold str_len. unfold str_len in *. lia. Qed.

Lemma len_utf8_pos c : 1 <= len_utf8 c <= 4.
Proof. unfold len_utf8. repeat case_match; lia. Qed.

(** A string has at most as many characters as bytes, and at least a quarter. *)
Lemma chars_count_le_len s : chars_count s <= str_len s <= 4 * chars_count s.
Proof.
  unfold chars_count. induction s as [|c s IH]; cbn; [lia|].
  fold str_len. pose proof (len_utf8_pos c). unfold str_len in IH. lia.
Qed.

Lemma str_len_as_bytes s : str_len s = Z.of_nat (length (as_bytes s)).
Proof.
  induction s as [|c s IH]; cbn; [done|].
  rewrite length_app, Nat2Z.inj_add. unfold str_len, as_bytes in IH. rewrite <-IH.
  f_equal. unfold len_utf8, encode_utf8. repeat case_match; done.
Qed.

Lemma trim_end_snoc s c :
  trim_end (s ++ [c]) = if is_whitespace c then trim_end s else s ++ [c].
Proof.
  unfold trim_end. rewrite reverse_snoc. cbn [skip_while].
  destruct (is_whitespace c); [done|].
  by rewrite reverse_cons, reverse_involutive.
Qed.

Lemma trim_end_prefix s : exists w, s = trim_end s ++ w /\ Forall (fun c => is_whitespace c = true) w.
Proof.
  unfold trim_end. exists (reverse (take_while is_whitespace (reverse s))). split.
  - rewrite <-reverse_app, take_skip_while, reverse_involutive. done.
  - apply Forall_reverse, take_while_Forall.
Qed.

Lemma trim_start_suffix s :
  exists w, s = w ++ trim_start s /\ Forall (fun c => is_whitespace c = true) w.
Proof.
  exists (take_while is_whitespace s). split; [|apply take_while_Forall].
  unfold trim_start. by rewrite take_skip_while.
Qed.

(** The trimmed text is a contiguous part of the text, with only whitespace around it. *)
Lemma trim_split s :
  exists w1 w2, s = w1 ++ trim s ++ w2 /\
    Forall (fun c => is_whitespace c = true) (w1 ++ w2).
Proof.
  destruct (trim_start_suffix s) as (w1 & E1 & H1).
  destruct (trim_end_prefix (trim_start s)) as (w2 & E2 & H2).
  exists w1, w2. unfold trim. rewrite <-E2. split; [done|]. by apply Forall_app.
Qed.

Lemma trim_end_idemp s : trim_end (trim_end s) = trim_end s.
Proof. unfold trim_end. by rewrite reverse_involutive, skip_while_idemp. Qed.

Lemma trim_end_head c s : is_whitespace c = false -> exists r, trim_end (c :: s) = c :: r.
Proof.
  intros Hc. destruct (trim_end_prefix (c :: s)) as (w & E & Hw).
  destruct (trim_end (c :: s)) as [|d r]; cbn in E; [|injection E as -> _; eauto].
  subst. apply Forall_inv in Hw. congruence.
Qed.

Lemma trim_idemp s : trim (trim s) = trim s.
Proof.
  unfold trim, trim_start. set (u := skip_while is_whitespace s).
  assert (Hu : skip_while is_whitespace (trim_end u) = trim_end u); [|by rewrite Hu, trim_end_idemp].
  destruct u as [|c u'] eqn:E; [done|]. apply skip_while_head in E.
  destruct (trim_end_head c u' E) as [r ->]. cbn. by rewrite E.
Qed.

Lemma trim_fixed l : Forall (fun c => is_whitespace c = false) l -> trim l = l.
Proof.
  intros Hl. unfold trim, trim_start. destruct l as [|c l]; [done|].
  assert (skip_while is_whitespace (c :: l) = c :: l) as -> by (cbn; by rewrite (Forall_inv Hl)).
  unfold trim_end. apply Forall_reverse in Hl.
  destruct (reverse (c :: l)) as [|d r] eqn:E; [by destruct (app_cons_not_nil _ _ _ (eq_sym (eq_trans (eq_sym (reverse_cons l c)) E)))|].
  cbn. rewrite (Forall_inv Hl), <-E. apply reverse_involutive.
Qed.

Lemma trim_nil : trim [] = [].
Proof. done. Qed.

(** ** Identifiers

    [uuid::Uuid] is a 128-bit value; its textual form is the [uuid] crate's. *)

Abbreviation Uuid := N (only parsing).

Class UuidText := {
  uuid_parse : str -> option Uuid;
  uuid_to_string : Uuid -> str;
}.

(** Documented behaviour of the crate: what it displays it parses back. *)
Class UuidTextLaws (U : UuidText) := {
  uuid_parse_to_string : forall u, uuid_parse (uuid_to_string u) = Some u;
}.

Lemma uuid_to_string_inj `{UuidTextLaws} u v :
  uuid_to_string u = uuid_to_string v -> u = v.
Proof.
  intros E. pose proof (uuid_parse_to_string u) as Hu.
  rewrite E, uuid_parse_to_string in Hu. congruence.
Qed.
