(* ===== verification/FileNames.v ===== *)
(** * The names of files ([backend/api/src/files/names.rs])

    What a file is called on the page, in the object store and in the header of
    a download. *)

From stdpp Require Import base tactics option numbers list.
From Stdlib Require Import ZArith Lia String Ascii.
From S2P Require Import Prelude RustStr.

(** Canonical composition, of the [unicode_normalization] crate. *)
Class Normalization := { nfc : str -> str }.
(** No character composes to a separator of paths. *)
Class NormalizationLaws (N : Normalization) := {
  nfc_separator : forall s c, c ∈ nfc s -> c = 47 \/ c = 92 -> c ∈ s;
}.

Definition DISPLAY_MAX_CHARS : nat := 200.
Definition STORAGE_MAX_CHARS : nat := 100.
#[global] Arguments DISPLAY_MAX_CHARS : simpl never.
#[global] Arguments STORAGE_MAX_CHARS : simpl never.
Definition FALLBACK : str := $"file".

Section names.
Implicit Types (s name : str) (c : char).

(** [rsplit(p).next()]: what follows the last character in [p]. *)
Definition after_last (p : char -> bool) s : str := reverse (take_while (fun c => negb (p c)) (reverse s)).

(** [rsplit_once] *)
Definition rsplit_once c s : option (str * str) :=
  '(a, b) ← split_once c (reverse s); Some (reverse b, reverse a).

Definition trim_matches (p : char -> bool) s : str := reverse (skip_while p (reverse (skip_while p s))).

Definition shorten name (max_chars : nat) : str :=
  if Nat.leb (length name) max_chars then name
  else
    let extension := e ← snd <$> rsplit_once 46 name; if negb (bool_decide (e = [])) && Nat.leb (length e) 10 then Some e else None in
    match extension with
    | Some ext => trim_end (take (max_chars - length ext - 1) name) ++ $"." ++ ext
    | None => take max_chars name
    end.

Definition is_separator c : bool := (c =? 47) || (c =? 92).

Definition display_name `{Normalization} (raw : str) : str :=
  let basename := after_last is_separator raw in
  let cleaned := (fun c => if is_whitespace c then 32 else c) <$>
    filter (fun c => is_control c = false) ((fun c => if c =? 9 then 32 else c) <$> nfc basename) in
  let trimmed := trim_start (skip_while (Z.eqb 46) (trim cleaned)) in
  if bool_decide (trimmed = []) then FALLBACK else shorten trimmed DISPLAY_MAX_CHARS.

(** A character and the slug written so far. *)
Definition slug_char (slug : str) c : str :=
  if is_ascii_alphanumeric c || (c =? 45) || (c =? 95) then slug ++ [c]
  else if c =? 46 then (if ends_with ($".") slug then slug else slug ++ $".")
  else if ends_with ($"_") slug then slug else slug ++ $"_".
Definition ascii_slug (value : str) : str :=
  trim_matches (fun c => (c =? 46) || (c =? 95)) (foldl slug_char [] value).

Definition storage_name (display : str) : str :=
  let '(stem, extension) :=
    match rsplit_once 46 display with
    | Some (stem, ext) =>
        if negb (bool_decide (ext = [])) && (str_len ext <=? 10) && forallb is_ascii_alphanumeric ext then (stem, Some ext)
        else (display, None)
    | None => (display, None)
    end in
  let slug := ascii_slug stem in
  let stem := if bool_decide (slug = []) then FALLBACK else slug in
  match extension with
  | Some ext => take (STORAGE_MAX_CHARS - Z.to_nat (str_len ext) - 1) stem ++ $"." ++ ext
  | None => take STORAGE_MAX_CHARS stem
  end.

(** [byte as char], [%{byte:02X}] *)
Definition attr_char (b : Z) : bool := is_ascii_alphanumeric b || existsb (Z.eqb b) ($"!#$&+-.^_`|~").
Definition hex_digit (n : Z) : char := if n <? 10 then 48 + n else 55 + n.
Definition percent_byte (b : Z) : str := if attr_char b then [b] else [37; hex_digit (b / 16); hex_digit (b mod 16)].
Definition percent_encode (value : str) : str := as_bytes value ≫= percent_byte.

Definition header_char c : char :=
  if (c =? 34) || (c =? 92) then 95 else if (0 <=? c) && (c <? 128) && negb (is_control c) then c else 95.
Definition quote : char := 34.
Definition content_disposition (display : str) : str :=
  $"attachment; filename=" ++ [quote] ++ (header_char <$> display) ++ [quote] ++ $"; filename*=UTF-8''" ++ percent_encode display.
End names.

Example storage_names :
  storage_name ($"report..final.pdf") = $"report.final.pdf" /\ storage_name ($"!!!") = $"file" /\
  storage_name ($"a/b\c.png") = $"a_b_c.png" /\ storage_name ([73; 122; 118; 101; 353; 116; 97; 106] ++ $" o radu.pdf") = $"Izve_taj_o_radu.pdf".
Proof. repeat split; vm_compute; reflexivity. Qed.
Example dispositions :
  content_disposition ($"say " ++ [quote] ++ $"hi" ++ [quote] ++ $".txt") =
    $"attachment; filename=" ++ [quote] ++ $"say _hi_.txt" ++ [quote] ++ $"; filename*=UTF-8''say%20%22hi%22.txt" /\
  content_disposition ([73; 122; 118; 101; 353; 116; 97; 106] ++ $" o radu.pdf") =
    $"attachment; filename=" ++ [quote] ++ $"Izve_taj o radu.pdf" ++ [quote] ++ $"; filename*=UTF-8''Izve%C5%A1taj%20o%20radu.pdf".
Proof. repeat split; vm_compute; reflexivity. Qed.

(** ** Facts *)

Section facts.
Implicit Types (s name : str) (c : char).

Lemma skip_while_Forall {A} (P : A -> Prop) p (l : list A) : Forall P l -> Forall P (skip_while p l).
Proof. intros Hl. rewrite <-(take_skip_while p l) in Hl. by apply Forall_app in Hl as [_ ?]. Qed.

Lemma skip_while_last {A} p (l : list A) x : p x = false -> exists l', skip_while p (l ++ [x]) = l' ++ [x].
Proof.
  intros Hx. induction l as [|y l IH]; cbn; [rewrite Hx; by exists []|]. destruct (p y); [done|by exists (y :: l)].
Qed.

Lemma trim_matches_Forall (P : char -> Prop) p s : Forall P s -> Forall P (trim_matches p s).
Proof. intros Hs. unfold trim_matches. by apply Forall_reverse, skip_while_Forall, Forall_reverse, skip_while_Forall. Qed.

(** What is left begins with something kept. *)
Lemma trim_matches_head p s : trim_matches p s = [] \/ exists c r, trim_matches p s = c :: r /\ p c = false.
Proof.
  unfold trim_matches. destruct (skip_while p s) as [|c r] eqn:E; [by left|]. right. apply skip_while_head in E.
  rewrite reverse_cons. destruct (skip_while_last p (reverse r) c E) as [l ->]. exists c, (reverse l). by rewrite reverse_snoc.
Qed.

Lemma rsplit_once_Some c s a b : rsplit_once c s = Some (a, b) -> s = a ++ c :: b.
Proof.
  unfold rsplit_once. destruct (split_once c (reverse s)) as [[x y]|] eqn:E; [|done]. cbn. intros [= <- <-].
  apply split_once_Some in E as [E _]. rewrite <-(reverse_involutive s), E, reverse_app, reverse_cons. by rewrite <-app_assoc.
Qed.

(** *** Storage names *)

Definition segment_char c : bool := is_ascii_alphanumeric c || (c =? 45) || (c =? 95) || (c =? 46).

Lemma slug_char_Forall slug c : Forall (fun c => segment_char c = true) slug -> Forall (fun c => segment_char c = true) (slug_char slug c).
Proof.
  intros Hs. unfold slug_char. destruct (is_ascii_alphanumeric c || (c =? 45) || (c =? 95)) eqn:Ec.
  - apply Forall_app. split; [done|]. constructor; [|done]. unfold segment_char. by rewrite Ec.
  - repeat case_match; try done; apply Forall_app; (split; [done|]); by constructor.
Qed.
Lemma ascii_slug_Forall value : Forall (fun c => segment_char c = true) (ascii_slug value).
Proof.
  apply trim_matches_Forall. assert (H : Forall (fun c => segment_char c = true) ([] : str)) by constructor. revert H.
  generalize ([] : str). induction value as [|c value IH]; intros slug Hs; cbn; [done|]. by apply IH, slug_char_Forall.
Qed.

(** A storage name is one safe segment of a key: between one and a hundred
    characters, each an ASCII letter or digit, a dot, a hyphen or an
    underscore, and never a name of a directory, whatever the file is
    called. *)
Theorem storage_name_is_one_segment (display : str) :
  let name := storage_name display in
  Forall (fun c => segment_char c = true) name /\ (1 <= length name <= 100)%nat /\ head name <> Some 46.
Proof.
  cbv zeta. unfold storage_name.
  assert (Hstem : forall s, let stem := if bool_decide (ascii_slug s = []) then FALLBACK else ascii_slug s in
    Forall (fun c => segment_char c = true) stem /\ exists c r, stem = c :: r /\ c <> 46).
  { intros s. cbv zeta. case_bool_decide as Hs; [split; [by repeat constructor|exists 102, ($"ile"); split; [reflexivity|lia]]|]. split; [apply ascii_slug_Forall|].
    destruct (trim_matches_head (fun c => (c =? 46) || (c =? 95)) (foldl slug_char [] s)) as [|(c & r & E & Hc)]; [done|].
    exists c, r. split; [exact E|]. intros ->. done. }
  assert (Htake : forall n s, (1 <= n <= 100)%nat -> let stem := if bool_decide (ascii_slug s = []) then FALLBACK else ascii_slug s in
    Forall (fun c => segment_char c = true) (take n stem) /\ (1 <= length (take n stem) <= n)%nat /\ head (take n stem) <> Some 46).
  { intros n s Hn. cbv zeta. destruct (Hstem s) as (Hf & c & r & E & Hc). cbv zeta in *. rewrite E in *. split; [by apply Forall_take|].
    destruct n as [|n]; [lia|]. cbn [take head length]. rewrite length_take. split; [lia|congruence]. }
  destruct (rsplit_once 46 display) as [[stem ext]|].
  - destruct (_ && _) eqn:E; [|apply Htake; done || (unfold STORAGE_MAX_CHARS; lia)].
    apply andb_true_iff in E as [[_ Hlen%Z.leb_le]%andb_true_iff Hext]. rewrite forallb_forall in Hext.
    pose proof (chars_count_le_len ext) as Hcount. unfold chars_count in Hcount.
    set (n := (STORAGE_MAX_CHARS - Z.to_nat (str_len ext) - 1)%nat). assert (Hn : (1 <= n <= 100)%nat) by (subst n; unfold STORAGE_MAX_CHARS; lia).
    destruct (Htake n stem Hn) as (Hf & Hl & Hh). cbv zeta in *. split_and!.
    + apply Forall_app. split; [done|]. constructor; [done|]. apply Forall_forall. intros c Hc%list_elem_of_In. unfold segment_char.
      by rewrite (Hext c Hc).
    + rewrite length_app. lia.
    + rewrite !length_app. change (length ($".")) with 1%nat. subst n. unfold STORAGE_MAX_CHARS in *. lia.
    + destruct (take n _); [cbn in Hl; lia|done].
  - apply Htake. unfold STORAGE_MAX_CHARS. lia.
Qed.
(** *** Headers *)

Definition hex_value c : option Z :=
  if is_ascii_digit c then Some (c - 48) else if (65 <=? c) && (c <=? 70) then Some (c - 55) else None.
(** What a reader of [filename*] does. *)
Fixpoint percent_decode (s : str) : option bytes :=
  match s with
  | 37 :: a :: b :: rest => x ← hex_value a; y ← hex_value b; (x * 16 + y ::.) <$> percent_decode rest
  | c :: rest => if attr_char c then (c ::.) <$> percent_decode rest else None
  | [] => Some []
  end.

Lemma byte_digits b : 0 <= b < 256 -> 0 <= b / 16 < 16 /\ 0 <= b mod 16 < 16.
Proof. intros Hb. split; [|apply Z.mod_pos_bound; lia]. split; [apply Z.div_pos; lia|apply Z.div_lt_upper_bound; lia]. Qed.
Lemma hex_value_digit n : 0 <= n < 16 -> hex_value (hex_digit n) = Some n.
Proof.
  intros Hn. unfold hex_digit, hex_value, is_ascii_digit. destruct (Z.ltb_spec n 10).
  - rewrite (proj2 (andb_true_iff _ _)) by (split; apply Z.leb_le; lia). f_equal. lia.
  - rewrite (proj2 (andb_false_iff (48 <=? 55 + n) _)) by (right; apply Z.leb_gt; lia).
    rewrite (proj2 (andb_true_iff _ _)) by (split; apply Z.leb_le; lia). f_equal. lia.
Qed.
Lemma percent_decode_byte b rest : 0 <= b < 256 -> percent_decode (percent_byte b ++ rest) = (b ::.) <$> percent_decode rest.
Proof.
  intros Hb. unfold percent_byte. destruct (attr_char b) eqn:Ea.
  - cbn [app]. assert (b <> 37) by (intros ->; discriminate Ea). cbn [percent_decode].
    assert (forall X, (match b with 37 => X | _ => if attr_char b then (b ::.) <$> percent_decode rest else None end : option bytes) =
      (b ::.) <$> percent_decode rest).
    { intros X. rewrite Ea. by repeat case_match. }
    by rewrite Ea; repeat case_match.
  - cbn [app percent_decode]. destruct (byte_digits b Hb) as [H1 H2]. rewrite !hex_value_digit by done. cbn.
    by rewrite (Z.mul_comm (b / 16)), <-Z.div_mod by lia.
Qed.

Definition scalar c : Prop := 0 <= c < 1114112.
#[local] Ltac each_lia := repeat first [apply Forall_cons_2; [lia|] | apply Forall_nil_2].
Lemma encode_utf8_bytes c : scalar c -> Forall (fun b => 0 <= b < 256) (encode_utf8 c).
Proof.
  intros Hc. unfold scalar in Hc. unfold encode_utf8.
  assert (Hdiv : forall a k, 0 < k -> 0 <= a < 128 * k -> 0 <= a / k < 128) by
    (intros a k Hk Ha; split; [apply Z.div_pos; lia|apply Z.div_lt_upper_bound; lia]).
  assert (Hmod : forall a, 0 <= a mod 64 < 64) by (intros a; apply Z.mod_pos_bound; lia).
  pose proof (Hmod c). pose proof (Hmod (c / 64)). pose proof (Hmod (c / 4096)).
  destruct (Z.ltb_spec c 128); [each_lia|].
  destruct (Z.ltb_spec c 2048).
  { assert (0 <= c / 64 < 32) by (split; [apply Z.div_pos; lia|apply Z.div_lt_upper_bound; lia]). each_lia. }
  destruct (Z.ltb_spec c 65536).
  { assert (0 <= c / 4096 < 16) by (split; [apply Z.div_pos; lia|apply Z.div_lt_upper_bound; lia]). each_lia. }
  assert (0 <= c / 262144 < 5) by (split; [apply Z.div_pos; lia|apply Z.div_lt_upper_bound; lia]). each_lia.
Qed.
Lemma as_bytes_bytes s : Forall scalar s -> Forall (fun b => 0 <= b < 256) (as_bytes s).
Proof.
  intros Hs. apply Forall_bind. eapply Forall_impl; [exact Hs|]. apply encode_utf8_bytes.
Qed.

Definition printable c : bool := (32 <=? c) && (c <? 127).
Lemma percent_byte_plain b : 0 <= b < 256 -> Forall (fun c => printable c = true /\ c <> quote) (percent_byte b).
Proof.
  intros Hb. unfold percent_byte. destruct (attr_char b) eqn:Ea.
  - constructor; [|done]. unfold attr_char in Ea. apply orb_true_iff in Ea as [Ea|Ea].
    + unfold is_ascii_alphanumeric, is_ascii_alphabetic, is_ascii_lowercase, is_ascii_uppercase, is_ascii_digit in Ea.
      rewrite !orb_true_iff, !andb_true_iff, !Z.leb_le in Ea. unfold printable, quote. rewrite andb_true_iff, Z.leb_le, Z.ltb_lt. lia.
    + apply existsb_exists in Ea as (x & Hx%list_elem_of_In & <-%Z.eqb_eq).
      assert (Hall : Forall (fun c => printable c = true /\ c <> quote) ($"!#$&+-.^_`|~")) by (repeat constructor; discriminate).
      rewrite Forall_forall in Hall. auto.
  - destruct (byte_digits b Hb) as [H1 H2].
    assert (Hd : forall n, 0 <= n < 16 -> printable (hex_digit n) = true /\ hex_digit n <> quote).
    { intros n Hn. unfold hex_digit, printable, quote. rewrite andb_true_iff, Z.leb_le, Z.ltb_lt. destruct (Z.ltb_spec n 10); lia. }
    repeat constructor; try (apply Hd; done). discriminate.
Qed.
Lemma header_char_plain c : printable (header_char c) = true /\ header_char c <> quote /\ header_char c <> 92.
Proof.
  unfold header_char. destruct ((c =? 34) || (c =? 92)) eqn:E1; [by split_and!|].
  destruct ((0 <=? c) && (c <? 128) && negb (is_control c)) eqn:E2; [|by split_and!].
  apply orb_false_iff in E1 as [?%Z.eqb_neq ?%Z.eqb_neq]. unfold is_control in E2.
  rewrite !andb_true_iff, negb_true_iff, orb_false_iff, !andb_false_iff, Z.leb_le, Z.ltb_lt, !Z.leb_gt in E2.
  unfold printable, quote. rewrite andb_true_iff, Z.leb_le, Z.ltb_lt. lia.
Qed.

(** The header of a download is well formed, whatever the file is called.
    It holds printable ASCII only, so no name ends it or adds another; the
    first name stands between the only two quotes, with nothing escaped in it;
    and decoding the second gives the bytes of the name back. *)
Theorem dispositions_are_well_formed (display : str) :
  Forall scalar display ->
  Forall (fun c => printable c = true) (content_disposition display) /\
  percent_decode (percent_encode display) = Some (as_bytes display) /\
  exists plain rest, content_disposition display = $"attachment; filename=" ++ [quote] ++ plain ++ [quote] ++ rest /\
    (quote ∉ plain) /\ (92 ∉ plain) /\ (quote ∉ rest) /\ length plain = length display.
Proof.
  intros Hs. pose proof (as_bytes_bytes _ Hs) as Hb.
  assert (Hp : Forall (fun c => printable c = true /\ c <> quote) (percent_encode display)).
  { apply Forall_bind. eapply Forall_impl; [exact Hb|]. apply percent_byte_plain. }
  split_and!.
  - unfold content_disposition. repeat (apply Forall_app; split); try by repeat constructor.
    + apply Forall_fmap, Forall_forall. intros c _. apply header_char_plain.
    + eapply Forall_impl; [exact Hp|]. by intros c [? _].
  - unfold percent_encode. induction Hb as [|b bs Hb0 _ IH]; [done|].
    change (percent_decode (percent_byte b ++ (bs ≫= percent_byte)) = Some (b :: bs)). by rewrite percent_decode_byte, IH.
  - exists (header_char <$> display), ($"; filename*=UTF-8''" ++ percent_encode display). split; [done|].
    assert (Hh : Forall (fun c => c <> quote /\ c <> 92) (header_char <$> display)).
    { apply Forall_fmap, Forall_forall. intros c _. apply header_char_plain. }
    rewrite Forall_forall in Hh. split_and!; [naive_solver..| |by rewrite length_fmap].
    intros [Hin|Hin]%elem_of_app; [by apply str_contains_spec in Hin|].
    rewrite Forall_forall in Hp. naive_solver.
Qed.
(** *** Display names *)

Definition shown c : Prop := is_separator c = false /\ is_control c = false.

Lemma trim_end_Forall (P : char -> Prop) s : Forall P s -> Forall P (trim_end s).
Proof. intros Hs. unfold trim_end. by apply Forall_reverse, skip_while_Forall, Forall_reverse. Qed.
Lemma trim_end_length s : (length (trim_end s) <= length s)%nat.
Proof. destruct (trim_end_prefix s) as (w & E & _). rewrite E at 2. rewrite length_app. lia. Qed.

Lemma shorten_short name n : (12 <= n)%nat -> (length (shorten name n) <= n)%nat.
Proof.
  intros Hn. unfold shorten. destruct (Nat.leb_spec (length name) n); [done|].
  destruct (rsplit_once 46 name) as [[a ext]|]; cbn; [|rewrite length_take; lia].
  destruct (negb _ && _) eqn:E; [|rewrite length_take; lia]. apply andb_true_iff in E as [_ E%Nat.leb_le].
  rewrite !length_app. change (length ($".")) with 1%nat. pose proof (trim_end_length (take (n - length ext - 1) name)) as Ht.
  rewrite length_take in Ht. lia.
Qed.
Lemma shorten_Forall (P : char -> Prop) name n : P 46 -> Forall P name -> Forall P (shorten name n).
Proof.
  intros Hdot Hs. unfold shorten. destruct (Nat.leb _ _); [done|].
  destruct (rsplit_once 46 name) as [[a ext]|] eqn:Er; cbn; [|by apply Forall_take].
  destruct (negb _ && _); [|by apply Forall_take]. apply rsplit_once_Some in Er. rewrite Er, Forall_app, Forall_cons in Hs.
  repeat (apply Forall_app; split); [apply trim_end_Forall, Forall_take; rewrite Er, Forall_app, Forall_cons; tauto|by constructor|tauto].
Qed.
Lemma shorten_some name n : name <> [] -> n <> 0%nat -> shorten name n <> [].
Proof.
  intros Hs Hn. unfold shorten. destruct (Nat.leb _ _); [done|].
  match goal with |- (match ?o with _ => _ end) <> _ => destruct o end; [by destruct (trim_end _)|].
  by destruct name, n.
Qed.

(** A display name can be shown: between one and two hundred characters,
    none of them a control character or a separator of paths, whatever name
    came with the file. *)
Theorem display_names_can_be_shown `{NormalizationLaws} (raw : str) :
  Forall shown (display_name raw) /\ (1 <= length (display_name raw) <= 200)%nat.
Proof.
  unfold display_name. set (base := after_last is_separator raw).
  assert (Hbase : forall c, c ∈ nfc base -> is_separator c = false).
  { intros c Hc. destruct (is_separator c) eqn:Es; [|done]. assert (Hin : c ∈ base).
    { apply nfc_separator; [done|]. unfold is_separator in Es. rewrite orb_true_iff, !Z.eqb_eq in Es. done. }
    pose proof (take_while_Forall (fun c => negb (is_separator c)) (reverse raw)) as Hf. apply Forall_reverse in Hf.
    rewrite Forall_forall in Hf. specialize (Hf c Hin). cbn in Hf. by rewrite Es in Hf. }
  set (cleaned := (fun c => if is_whitespace c then 32 else c) <$> _).
  assert (Hc : Forall shown cleaned).
  { apply Forall_fmap, Forall_forall. intros c [Hctl (c0 & -> & Hc0)%list_elem_of_fmap]%list_elem_of_filter. cbn.
    destruct (is_whitespace _); [done|]. split; [|done]. destruct (c0 =? 9); [done|auto]. }
  set (trimmed := trim_start _). assert (Ht : Forall shown trimmed).
  { subst trimmed. unfold trim_start, trim. apply skip_while_Forall, skip_while_Forall, trim_end_Forall. unfold trim_start. by apply skip_while_Forall. }
  case_bool_decide as E.
  { change FALLBACK with ([102; 105; 108; 101] : str). split; [|cbn; lia]. repeat (apply Forall_cons_2; [done|]). apply Forall_nil_2. }
  split.
  - by apply shorten_Forall.
  - pose proof (shorten_short trimmed DISPLAY_MAX_CHARS ltac:(unfold DISPLAY_MAX_CHARS; lia)) as Hl.
    pose proof (shorten_some trimmed DISPLAY_MAX_CHARS E ltac:(done)) as Hne.
    destruct (shorten trimmed DISPLAY_MAX_CHARS); [done|]. unfold DISPLAY_MAX_CHARS in Hl. cbn [length] in *. lia.
Qed.
End facts.

(** ** Names as they come *)

#[local] Instance composed : Normalization := {| nfc := fun s => s |}.
#[local] Instance composed_laws : NormalizationLaws composed.
Proof. by split. Qed.

(** A dot behind a dot and a space stays in front. *)
Example a_leading_dot_stays : display_name ($". .hidden") = $".hidden" /\ display_name ($". ..") = $"..".
Proof. split; vm_compute; reflexivity. Qed.

Lemma display_names_witness :
  display_name ($"../../etc/passwd") = $"passwd" /\ Forall shown (display_name ($"../../etc/passwd")) /\
  (1 <= length (display_name ($"../../etc/passwd")) <= 200)%nat.
Proof. split; [vm_compute; reflexivity|]. exact (display_names_can_be_shown ($"../../etc/passwd")). Defined.

Lemma dispositions_witness :
  Forall scalar ([353] ++ $".pdf") /\ percent_encode ([353] ++ $".pdf") = $"%C5%A1.pdf" /\
  percent_decode ($"%C5%A1.pdf") = Some (as_bytes ([353] ++ $".pdf")).
Proof.
  assert (Hs : Forall scalar ([353] ++ $".pdf")) by (change ($".pdf") with ([46; 112; 100; 102] : str); cbn [app]; repeat (apply Forall_cons_2; [unfold scalar; lia|]); apply Forall_nil_2).
  split; [exact Hs|]. split; [vm_compute; reflexivity|].
  exact (proj1 (proj2 (dispositions_are_well_formed ([353] ++ $".pdf") Hs))).
Defined.
