(* ===== verification/Json.v ===== *)
(** * JSON values as the sources use them

    [serde_json::Value] and the accessors the sources call on it, and the
    interface of what the serialisation library does: reading and printing
    JSON text.  A map is an association list whose keys are distinct; [get]
    finds a key, [obj_insert] replaces its value or adds it. *)

From stdpp Require Import base tactics option list gmap.
From Stdlib Require Import ZArith Lia String Ascii SpecFloat.
From S2P Require Import Prelude RustStr.

(** [serde_json::Number]: a [u64], a negative [i64] or a finite [f64]. *)
Inductive number :=
| PosInt (n : Z)
| NegInt (n : Z)
| Float (f : spec_float).

#[warnings="-register-all"]
Inductive json :=
| JNull
| JBool (b : bool)
| JNumber (n : number)
| JString (s : str)
| JArray (l : list json)
| JObject (m : list (str * json)).

Definition I64_MAX : Z := 2 ^ 63 - 1.
Definition I32_MIN : Z := - 2 ^ 31.
Definition I32_MAX : Z := 2 ^ 31 - 1.

Fixpoint assoc {A} (k : str) (m : list (str * A)) : option A :=
  match m with
  | [] => None
  | (k', v) :: m => if str_eqb k k' then Some v else assoc k m
  end.

Fixpoint assoc_insert {A} (k : str) (v : A) (m : list (str * A)) : list (str * A) :=
  match m with
  | [] => [(k, v)]
  | (k', v') :: m => if str_eqb k k' then (k, v) :: m else (k', v') :: assoc_insert k v m
  end.

(** [value.get(key)] *)
Definition get (k : str) (v : json) : option json :=
  match v with JObject m => assoc k m | _ => None end.

Definition as_str (v : json) : option str := match v with JString s => Some s | _ => None end.
Definition as_bool (v : json) : option bool := match v with JBool b => Some b | _ => None end.
Definition as_array (v : json) : option (list json) :=
  match v with JArray l => Some l | _ => None end.
Definition as_i64 (v : json) : option Z :=
  match v with
  | JNumber (PosInt n) => if n <=? I64_MAX then Some n else None
  | JNumber (NegInt n) => Some n
  | _ => None
  end.
Definition is_null (v : json) : bool := match v with JNull => true | _ => false end.

(** [i32::try_from] *)
Definition i32_try_from (n : Z) : option Z :=
  if (I32_MIN <=? n) && (n <=? I32_MAX) then Some n else None.

(** [if let Some(obj) = value.as_object_mut() { obj.insert(k, v); }] *)
Definition obj_insert (k : str) (v : json) (o : json) : json :=
  match o with JObject m => JObject (assoc_insert k v m) | _ => o end.

(** Text to value and back, by [serde_json]. *)
Class JsonText := {
  json_from_str : str -> option json;
  json_to_string : json -> str;
}.

(** [==] on values: numbers of the same kind compare by value, maps by their
    keys. *)
Definition number_eqb (a b : number) : bool :=
  match a, b with
  | PosInt x, PosInt y | NegInt x, NegInt y => x =? y
  | Float x, Float y => SFeqb x y
  | _, _ => false
  end.

Fixpoint json_eqb (a b : json) {struct a} : bool :=
  match a, b with
  | JNull, JNull => true
  | JBool x, JBool y => Bool.eqb x y
  | JNumber x, JNumber y => number_eqb x y
  | JString x, JString y => str_eqb x y
  | JArray x, JArray y =>
      (fix same (x y : list json) : bool :=
         match x, y with
         | [], [] => true
         | u :: x, v :: y => json_eqb u v && same x y
         | _, _ => false
         end) x y
  | JObject x, JObject y =>
      (length x =? length y)%nat &&
      (fix same (x : list (str * json)) : bool :=
         match x with
         | [] => true
         | (k, u) :: x => match assoc k y with Some v => json_eqb u v | None => false end && same x
         end) x
  | _, _ => false
  end.

(** [map.remove(key)] *)
Definition assoc_remove {A} (k : str) (m : list (str * A)) : list (str * A) := filter (fun p => p.1 <> k) m.

Lemma assoc_insert_eq {A} k (v : A) m : assoc k (assoc_insert k v m) = Some v.
Proof.
  induction m as [|[k' v'] m IH]; cbn; unfold str_eqb in *.
  - by rewrite bool_decide_eq_true_2.
  - destruct (bool_decide (k = k')) eqn:E; cbn.
    + unfold str_eqb. by rewrite bool_decide_eq_true_2.
    + unfold str_eqb. by rewrite E.
Qed.

Lemma assoc_insert_ne {A} k k' (v : A) m : k <> k' -> assoc k (assoc_insert k' v m) = assoc k m.
Proof.
  intros Hne. induction m as [|[k2 v2] m IH]; cbn; unfold str_eqb in *.
  - by rewrite bool_decide_eq_false_2.
  - destruct (bool_decide (k' = k2)) eqn:E; cbn; unfold str_eqb.
    + apply bool_decide_eq_true in E as <-. by rewrite !(bool_decide_eq_false_2 (k = k')).
    + by rewrite IH.
Qed.

Lemma elem_of_assoc_insert {A} k (v : A) m p : p ∈ assoc_insert k v m -> p = (k, v) \/ p ∈ m.
Proof.
  induction m as [|[k' v'] m IH]; cbn; [intros ->%list_elem_of_singleton; by left|].
  destruct (str_eqb k k'); intros [->|Hp]%elem_of_cons; [by left|right; by right|right; by left|].
  destruct (IH Hp) as [->|?]; [by left|right; by right].
Qed.
Lemma elem_of_assoc_insert_old {A} k (v : A) m p : p ∈ m -> p.1 <> k -> p ∈ assoc_insert k v m.
Proof.
  intros Hp Hk. induction m as [|[k' v'] m IH]; cbn; [by apply not_elem_of_nil in Hp|]. unfold str_eqb.
  apply elem_of_cons in Hp as [->|Hp].
  - rewrite bool_decide_eq_false_2 by (intros ->; by apply Hk). left.
  - case_bool_decide; right; [done|by apply IH].
Qed.

Lemma assoc_In {A} k (m : list (str * A)) v : assoc k m = Some v -> In (k, v) m.
Proof.
  induction m as [|[k' v'] m IH]; cbn; [done|]. unfold str_eqb.
  case_bool_decide as E; [intros [= ->]; subst; by left|intros H; right; auto].
Qed.

(** Reading an identifier out of a JSON object, as every handler does:
    [v.get(key).and_then(as_str).and_then(parse::<Uuid>)]. *)
Definition get_uuid `{UuidText} (k : str) (v : json) : option Uuid :=
  (get k v ≫= as_str) ≫= uuid_parse.

Definition get_str (k : str) (v : json) : option str := get k v ≫= as_str.
Definition get_bool (k : str) (v : json) : option bool := get k v ≫= as_bool.
Definition get_i64 (k : str) (v : json) : option Z := get k v ≫= as_i64.

Lemma assoc_remove_eq {A} k (m : list (str * A)) : assoc k (assoc_remove k m) = None.
Proof.
  induction m as [|[k' v] m IH]; [done|]. unfold assoc_remove in *. rewrite filter_cons. case_decide; cbn; [|done].
  unfold str_eqb. by rewrite bool_decide_eq_false_2 by done.
Qed.

Lemma assoc_remove_ne {A} k k' (m : list (str * A)) : k <> k' -> assoc k (assoc_remove k' m) = assoc k m.
Proof.
  intros Hne. induction m as [|[k2 v] m IH]; [done|]. unfold assoc_remove in *. rewrite filter_cons. cbn in *.
  case_decide; cbn; unfold str_eqb in *; [by rewrite IH|]. rewrite IH. case_bool_decide; [|done]. subst. by destruct Hne.
Qed.

Lemma json_eqb_str s a : json_eqb (JString s) a = true <-> a = JString s.
Proof.
  destruct a; cbn; try done. unfold str_eqb. rewrite bool_decide_eq_true. split; congruence.
Qed.

Lemma json_eqb_strings (l : list str) a : json_eqb (JArray (JString <$> l)) a = true -> a = JArray (JString <$> l).
Proof.
  destruct a as [| | | |m|]; try done. revert m. induction l as [|s l IH]; intros [|v m]; try done.
  intros [Hv Hl]%andb_true_iff. destruct v; try done. cbn in Hv. unfold str_eqb in Hv.
  apply bool_decide_eq_true in Hv as ->. by injection (IH m Hl) as ->.
Qed.
