(* ===== verification/Errors.v ===== *)
(** * Errors ([backend/shared/common/src/errors.rs])

    The one error type of the backend and what a client is shown of it. *)

From stdpp Require Import base tactics option list gmap.
From Stdlib Require Import ZArith Lia String Ascii.
From S2P Require Import Prelude RustStr.

Inductive AppError :=
| Unauthorized (msg : str)
| Forbidden (msg : str)
| NotFound (msg : str)
| BadRequest (msg : str)
| Validation (msg : str)
| Conflict (msg : str)
| Internal (msg : str)
| Database (msg : str)
| TooManyRequests (message : str) (retry_after_secs : Z)
| ServiceUnavailable (msg : str).

Abbreviation AppResult := (result AppError).

(** The HTTP answer: its status, the [error] field of its body and the
    [Retry-After] header. *)
Record Response := { status : Z; error : str; retry_after : option Z }.

Definition into_response (e : AppError) : Response :=
  let '(status, message) :=
    match e with
    | Unauthorized msg => (401, msg)
    | Forbidden msg => (403, msg)
    | NotFound msg => (404, msg)
    | BadRequest msg => (400, msg)
    | Validation msg => (422, msg)
    | Conflict msg => (409, msg)
    | Internal _ => (500, $"internal server error")
    | Database _ => (500, $"internal server error")
    | TooManyRequests message _ => (429, message)
    | ServiceUnavailable msg => (503, msg)
    end in
  {| status := status; error := message;
     retry_after := match e with TooManyRequests _ secs => Some secs | _ => None end |}.

(** Whether the server, not the client, is at fault. *)
Definition is_server_error (e : AppError) : bool :=
  match e with Internal _ | Database _ => true | _ => false end.

(** An internal or database error never shows its text to the client: two such
    errors with different messages get the same response, and every other
    error is a client-visible one whose own message is the body. *)
Theorem server_errors_opaque e :
  (is_server_error e = true -> into_response e = into_response (Internal [])) /\
  (is_server_error e = false -> status (into_response e) <> 500 /\
     match e with
     | Unauthorized m | Forbidden m | NotFound m | BadRequest m | Validation m
     | Conflict m | TooManyRequests m _ | ServiceUnavailable m => error (into_response e) = m
     | _ => False
     end).
Proof. destruct e; cbn; (split; [done|]); intros ?; try done; (split; [lia|done]). Qed.

Lemma server_errors_opaque_witness :
  into_response (Database ($"secret_table")) = into_response (Internal []).
Proof. apply (server_errors_opaque (Database ($"secret_table"))). reflexivity. Defined.
