(* ===== verification/Frames.v ===== *)
(** * Wire frames ([backend/shared/events/src/frames.rs], [lib.rs])

    Every frame the gateway sends to a client, the presence and transport
    values they carry, and the envelope of a published event.  How serde maps
    a frame to JSON and back is the interface [FrameSerde]. *)

From stdpp Require Import base tactics option list gmap.
From Stdlib Require Import ZArith Lia String Ascii.
From S2P Require Import Prelude RustStr Json.

Inductive Presence := Online | Away | Offline.
#[export] Instance Presence_eq_dec : EqDecision Presence.
Proof. solve_decision. Defined.

Definition presence_as_str (p : Presence) : str :=
  match p with
  | Online => $"online"
  | Away => $"away"
  | Offline => $"offline"
  end.

Definition presence_parse (value : str) : option Presence :=
  if str_eqb value ($"online") then Some Online
  else if str_eqb value ($"away") then Some Away
  else if str_eqb value ($"offline") then Some Offline
  else None.

Lemma presence_parse_as_str p : presence_parse (presence_as_str p) = Some p.
Proof. by destruct p. Qed.

Inductive HuddleTransport := Mesh | Sfu.
#[export] Instance HuddleTransport_eq_dec : EqDecision HuddleTransport.
Proof. solve_decision. Defined.

Record PresenceEntry := { entry_user_id : Uuid; entry_status : Presence }.

Inductive ServerFrame :=
| FHello (user_id connection_id : Uuid)
| FPong
| FSyncComplete (workspace_id : Uuid) (replayed : Z) (last_event_id : option str)
| FSyncRefetchRequired (workspace_id : Uuid)
| FPresenceBatch (users : list PresenceEntry)
| FPresenceChanged (user_id : Uuid) (status : Presence)
| FTypingIndicator (channel_id user_id : Uuid) (is_typing : bool)
| FMessageNew (message : json) (mentioned_user_ids : list Uuid)
| FMessageUpdated (message : json)
| FMessageDeleted (message_id channel_id : Uuid)
| FMessagePinned (message_id channel_id : Uuid) (pinned : bool)
| FReactionAdded (message_id : Uuid) (reaction : json)
| FReactionRemoved (message_id channel_id user_id : Uuid) (emoji : str)
| FWorkspaceDeleted (workspace_id : Uuid) (delete_type : str)
| FWorkspaceRestored (workspace_id : Uuid)
| FWorkspaceEmojiChanged (workspace_id : Uuid)
| FNotification (workspace_id channel_id message_id thread_parent_id list_id item_id : option Uuid)
    (title : str) (body kind : option str)
| FConversationCreated (id workspace_id : Uuid) (kind : str) (created_by : option Uuid)
    (last_message_at created_at : Z) (conversation_id : Uuid) (participant_ids : list Uuid)
| FHuddleMemberJoined (huddle_id user_id : Uuid)
| FHuddleMemberLeft (huddle_id user_id : Uuid)
| FHuddleMembers (huddle_id : Uuid) (user_ids : list Uuid) (transport : HuddleTransport)
| FHuddleTransport (huddle_id : Uuid) (transport : HuddleTransport)
| FHuddleFull (huddle_id : Uuid) (limit : Z)
| FHuddleMute (huddle_id user_id : Uuid) (audio_muted : bool)
| FHuddleCamera (huddle_id user_id : Uuid) (camera_on : bool)
| FHuddleScreenshare (huddle_id user_id : Uuid) (sharing : bool)
| FHuddleReaction (huddle_id user_id : Uuid) (emoji : str)
| FHuddleHand (huddle_id user_id : Uuid) (raised : bool)
| FHuddleOffer (huddle_id from_user_id to_user_id : Uuid) (sdp : json)
| FHuddleAnswer (huddle_id from_user_id to_user_id : Uuid) (sdp : json)
| FHuddleIce (huddle_id from_user_id to_user_id : Uuid) (candidate : json)
| FHuddleRing (huddle_id workspace_id from_user_id to_user_id : Uuid) (channel_id : option Uuid)
| FHuddleStarted (huddle_id workspace_id : Uuid) (channel_id dm_partner_id : option Uuid)
    (initiator_id : Uuid)
| FHuddleEnded (huddle_id workspace_id : Uuid) (channel_id dm_partner_id initiator_id : option Uuid)
| FChannelReadState (channel_id : Uuid) (workspace_id : option Uuid)
    (unread_count mention_count : Z) (last_read_message_id : option Uuid)
| FCommandResponse (channel_id : Uuid) (command response_type text : str)
| FLaterUpdated (workspace_id : Uuid)
| FThreadReadState (root_message_id workspace_id : Uuid) (following : bool) (unread_count : Z)
| FChannelUpdated (channel_id workspace_id : Uuid) (is_archived : bool)
| FChannelAccessRevoked (channel_id : Uuid) (workspace_id : option Uuid)
| FWorkspaceAccessRevoked (workspace_id : Uuid)
| FWorkspaceJoined (workspace_id : Uuid)
| FWorkspaceMembersChanged (workspace_id : Uuid)
| FListUpserted (list_id : Uuid) (channel_id : option Uuid) (list : json)
| FListDeleted (list_id : Uuid) (channel_id : option Uuid)
| FListColumnsChanged (list_id : Uuid) (channel_id : option Uuid) (columns : json)
    (items_rewritten : bool)
| FListViewsChanged (list_id : Uuid) (channel_id : option Uuid) (views : json)
| FListItemUpserted (list_id : Uuid) (channel_id : option Uuid) (item : json)
| FListItemDeleted (list_id : Uuid) (channel_id : option Uuid) (item_id : Uuid)
| FListCommentUpserted (list_id : Uuid) (channel_id : option Uuid) (item_id : Uuid) (comment : json)
| FListCommentDeleted (list_id : Uuid) (channel_id : option Uuid) (item_id comment_id : Uuid).

(** [#[derive(Serialize, Deserialize)]] on [ServerFrame]. *)
Class FrameSerde := {
  frame_to_value : ServerFrame -> json;
  frame_to_string : ServerFrame -> str;
  frame_from_value : json -> option ServerFrame;
}.

(** [ServerFrame::from_event]: the event type is the tag, the payload carries
    the fields. *)
Definition from_event `{FrameSerde} (event_type : str) (payload : json) : option ServerFrame :=
  frame_from_value (obj_insert ($"type") (JString event_type) payload).

(** ** The event envelope ([backend/shared/events/src/lib.rs]) *)

Definition STREAM_MAXLEN : Z := 10000.
Definition STREAM_INDEX_KEY : str := $"stream:index".

Definition workspace_stream `{UuidText} (workspace_id : Uuid) : str :=
  $"stream:ws:" ++ uuid_to_string workspace_id.

Record Event := {
  event_id : Uuid;
  event_type : str;
  payload : json;
  timestamp : Z;
  stream_id : option str;
}.

Class EventSerde := {
  event_to_string : Event -> str;
  event_from_str : str -> option Event;
}.
