(* ===== verification/Redis.v ===== *)
(** * The Redis interface

    Redis is a service outside the repository.  The gateway and the API reach
    it through the commands below; [Redis] is their interface over an abstract
    store, [RedisLaws] the documented behaviour the proofs rely on, and
    [Store] a concrete store that has it, which the witnesses run on. *)

From stdpp Require Import base tactics option list gmap.
From Stdlib Require Import ZArith Lia String Ascii.
From S2P Require Import Prelude RustStr.

(** An entry of a stream: its id and its [event] field read as a string. *)
Record StreamEntry := { entry_id : str; entry_event : option str }.

Inductive XStart := XMin | XAfter (id : str).

Class Redis (R : Type) := {
  sadd : str -> str -> R -> R;
  srem : str -> str -> R -> R * Z;
  smembers : str -> R -> list str;
  sismember : str -> str -> R -> bool;
  scard : str -> R -> Z;
  key_exists : str -> R -> bool;
  expire : str -> Z -> R -> R;
  redis_get : str -> R -> option str;
  set_ex : str -> str -> Z -> R -> R;
  set_nx_ex : str -> str -> Z -> R -> R;
  mget_i64 : list str -> R -> option (list (option Z));
  hset : str -> str -> Z -> R -> R;
  hdel : str -> str -> R -> R;
  zadd : str -> str -> Z -> R -> R;
  zrem : str -> str -> R -> R;
  zremrangebyscore : str -> Z -> R -> R;
  zrangebyscore : str -> Z -> R -> list str;
  xadd : str -> Z -> str -> R -> R * str;
  xrange : str -> XStart -> nat -> R -> option (list StreamEntry);
  xrevrange : str -> nat -> R -> list StreamEntry;
}.

(** What the commands on sets and strings promise each other. *)
Class RedisLaws (R : Type) `{Redis R} := {
  smembers_NoDup : forall k r, NoDup (smembers k r);
  sismember_spec : forall k m r, sismember k m r = true <-> m ∈ smembers k r;
  scard_spec : forall k r, scard k r = Z.of_nat (length (smembers k r));
  smembers_sadd : forall k m m' r, m' ∈ smembers k (sadd k m r) <-> m' = m \/ m' ∈ smembers k r;
  smembers_sadd_ne : forall k k' m r, k <> k' -> smembers k (sadd k' m r) = smembers k r;
  smembers_srem : forall k m m' r, m' ∈ smembers k (srem k m r).1 <-> m' <> m /\ m' ∈ smembers k r;
  smembers_expire : forall k k' s r, 0 < s -> smembers k (expire k' s r) = smembers k r;
  smembers_set_ex : forall k k' v s r, k <> k' -> smembers k (set_ex k' v s r) = smembers k r;
  redis_get_set_ex : forall k v s r, redis_get k (set_ex k v s r) = Some v;
  key_exists_set_ex : forall k v s r, 0 < s -> key_exists k (set_ex k v s r) = true;
  key_exists_expire : forall k k' s r, 0 < s -> key_exists k (expire k' s r) = key_exists k r;
  key_exists_sadd_ne : forall k k' m r, k <> k' -> key_exists k (sadd k' m r) = key_exists k r;
}.

(** The position a complete stream id stands for: [<millis>-<seq>]. *)
Definition position_of (id : str) : option (Z * Z) :=
  '(ms, seq) ← split_once 45 id; a ← parse_u64 ms; b ← parse_u64 seq; Some (a, b).

Definition position_lt (p q : Z * Z) : bool := (p.1 <? q.1) || ((p.1 =? q.1) && (p.2 <? q.2)).

Definition after (id : str) (e : StreamEntry) : bool :=
  match position_of id, position_of (entry_id e) with
  | Some p, Some q => position_lt p q
  | _, _ => false
  end.

(** What [XRANGE] promises: the log of a stream is ordered by position, a range
    starts at the beginning or after a position, and [COUNT] bounds it. *)
Class StreamLaws (R : Type) `{Redis R} := {
  stream_log : str -> R -> list StreamEntry;
  xrange_min : forall k n r, xrange k XMin n r = Some (take n (stream_log k r));
  xrange_after : forall k id n r, is_Some (position_of id) ->
    xrange k (XAfter id) n r = Some (take n (filter (fun e => after id e) (stream_log k r)));
}.

Lemma position_lt_irrefl p : position_lt p p = false.
Proof. unfold position_lt. rewrite !Z.ltb_irrefl, andb_false_r. done. Qed.

Lemma position_lt_trans p q r : position_lt p q = true -> position_lt q r = true -> position_lt p r = true.
Proof.
  unfold position_lt. rewrite !orb_true_iff, !andb_true_iff, !Z.ltb_lt, !Z.eqb_eq. lia.
Qed.

Lemma position_lt_total p q : position_lt p q = false -> p = q \/ position_lt q p = true.
Proof.
  destruct p as [a b], q as [c d]. unfold position_lt. cbn.
  rewrite orb_false_iff, andb_false_iff, orb_true_iff, andb_true_iff.
  rewrite !Z.ltb_lt, !Z.ltb_ge, Z.eqb_eq, Z.eqb_neq. intros [H1 H2].
  destruct (Z.eq_dec a c); [|right; left; lia]. destruct (Z.eq_dec b d); [left; by subst|right; right; lia].
Qed.

Section laws.
Context `{RedisLaws R}.

Lemma scard_sadd_new k m r :
  m ∉ smembers k r -> scard k (sadd k m r) = scard k r + 1.
Proof.
  intros Hm. rewrite !scard_spec.
  assert (Permutation (smembers k (sadd k m r)) (m :: smembers k r)) as ->; [|cbn; lia].
  apply NoDup_Permutation.
  - apply smembers_NoDup.
  - constructor; [done|apply smembers_NoDup].
  - intros x. rewrite smembers_sadd, elem_of_cons. done.
Qed.

Lemma scard_sadd_old k m r :
  m ∈ smembers k r -> scard k (sadd k m r) = scard k r.
Proof.
  intros Hm. rewrite !scard_spec.
  assert (Permutation (smembers k (sadd k m r)) (smembers k r)) as ->; [|done].
  apply NoDup_Permutation; [apply smembers_NoDup..|].
  intros x. rewrite smembers_sadd. naive_solver.
Qed.

Lemma scard_expire k k' s r : 0 < s -> scard k (expire k' s r) = scard k r.
Proof. intros. by rewrite !scard_spec, smembers_expire. Qed.

Lemma scard_set_ex k k' v s r : k <> k' -> scard k (set_ex k' v s r) = scard k r.
Proof. intros. by rewrite !scard_spec, smembers_set_ex. Qed.
End laws.

(** ** A concrete store *)

Module Store.
Record store := {
  sets : gmap str (gset str);
  strings : gmap str str;
  zsets : gmap str (gmap str Z);
  hashes : gmap str (gmap str Z);
  streams : gmap str (list StreamEntry);
  next_id : nat;
}.

Definition empty : store :=
  {| sets := ∅; strings := ∅; zsets := ∅; hashes := ∅; streams := ∅; next_id := 1 |}.

Definition set_of (k : str) (r : store) : gset str := default ∅ (sets r !! k).
Definition members (k : str) (r : store) : list str := elements (set_of k r).

Definition with_sets f r :=
  {| sets := f (sets r); strings := strings r; zsets := zsets r; hashes := hashes r;
     streams := streams r; next_id := next_id r |}.
Definition with_strings f r :=
  {| sets := sets r; strings := f (strings r); zsets := zsets r; hashes := hashes r;
     streams := streams r; next_id := next_id r |}.
Definition with_zsets f r :=
  {| sets := sets r; strings := strings r; zsets := f (zsets r); hashes := hashes r;
     streams := streams r; next_id := next_id r |}.
Definition with_hashes f r :=
  {| sets := sets r; strings := strings r; zsets := zsets r; hashes := f (hashes r);
     streams := streams r; next_id := next_id r |}.

(** The ids this store hands out: [1-0], [2-0], ... up to nine. *)
Definition fresh_id (n : nat) : str := [48 + Z.of_nat n; 45; 48].

Definition add_member (k m : str) (r : store) : store :=
  with_sets <[k := {[m]} ∪ set_of k r]> r.

Definition remove_member (k m : str) (r : store) : store * Z :=
  (with_sets <[k := set_of k r ∖ {[m]}]> r, if decide (m ∈ set_of k r) then 1 else 0).

Definition append (k body : str) (r : store) : store * str :=
  let id := fresh_id (next_id r) in
  ({| sets := sets r; strings := strings r; zsets := zsets r; hashes := hashes r;
      streams := <[k := default [] (streams r !! k)
                          ++ [{| entry_id := id; entry_event := Some body |}]]> (streams r);
      next_id := S (next_id r) |}, id).

(** A store whose stream [k] also holds [es]. *)
Definition append_entries (k : str) (es : list StreamEntry) (r : store) : store :=
  {| sets := sets r; strings := strings r; zsets := zsets r; hashes := hashes r;
     streams := <[k := default [] (streams r !! k) ++ es]> (streams r); next_id := next_id r |}.

#[global] Instance redis : Redis store := {
  sadd := add_member;
  srem := remove_member;
  smembers := members;
  sismember k m r := bool_decide (m ∈ set_of k r);
  scard k r := Z.of_nat (length (members k r));
  key_exists k r := bool_decide (is_Some (strings r !! k)) || bool_decide (members k r <> []);
  expire _ _ r := r;
  redis_get k r := strings r !! k;
  set_ex k v _ r := with_strings <[k := v]> r;
  set_nx_ex k v _ r := match strings r !! k with
                       | Some _ => r
                       | None => with_strings <[k := v]> r
                       end;
  mget_i64 ks r := Some ((fun k => strings r !! k ≫= parse_u64) <$> ks);
  hset k f v r := with_hashes <[k := <[f := v]> (default ∅ (hashes r !! k))]> r;
  hdel k f r := with_hashes <[k := delete f (default ∅ (hashes r !! k))]> r;
  zadd k m s r := with_zsets <[k := <[m := s]> (default ∅ (zsets r !! k))]> r;
  zrem k m r := with_zsets <[k := delete m (default ∅ (zsets r !! k))]> r;
  zremrangebyscore k hi r :=
    with_zsets <[k := filter (fun p => hi < p.2) (default ∅ (zsets r !! k))]> r;
  zrangebyscore k lo r :=
    fst <$> map_to_list (filter (fun p => lo <= p.2) (default ∅ (zsets r !! k)));
  xadd k _ body r := append k body r;
  xrange k s n r :=
    let l := default [] (streams r !! k) in
    match s with
    | XMin => Some (take n l)
    | XAfter id => match position_of id with
                   | Some _ => Some (take n (filter (fun e => after id e) l))
                   | None => None
                   end
    end;
  xrevrange k n r := take n (reverse (default [] (streams r !! k)));
}.

Lemma set_of_insert k k' x r :
  set_of k (with_sets <[k' := x]> r) = if decide (k = k') then x else set_of k r.
Proof.
  unfold set_of. cbn. case_decide as E; [by rewrite E, lookup_insert_eq|by rewrite lookup_insert_ne].
Qed.

#[global] Instance redis_laws : RedisLaws store.
Proof.
  split; cbn; unfold members, add_member, remove_member; intros; cbn.
  - apply NoDup_elements.
  - by rewrite bool_decide_eq_true, elem_of_elements.
  - done.
  - rewrite set_of_insert, decide_True by done. set_solver.
  - by rewrite set_of_insert, decide_False.
  - rewrite set_of_insert, decide_True by done. set_solver.
  - done.
  - done.
  - apply lookup_insert_eq.
  - rewrite lookup_insert, decide_True by done. by rewrite bool_decide_eq_true_2.
  - done.
  - f_equal. by rewrite set_of_insert, decide_False.
Qed.

#[global] Program Instance stream_laws : StreamLaws store := {
  stream_log k r := default [] (streams r !! k);
}.
Next Obligation. done. Qed.
Next Obligation. intros k id n r [p Hp]. cbn. by rewrite Hp. Qed.
End Store.
