(* ===== verification/GatewayState.v ===== *)
(** * State and effects of the realtime gateway

    One gateway process holds its connections and reaches Redis and Postgres.
    [World] is everything a handler can touch, [M] the state-passing monad the
    handlers are written in.  Every round trip to a service consumes one
    [Tick] of the schedule, which says what other processes did to the service
    before the call and whether the call fails: refused before it had any
    effect, or applied with its reply lost.  A theorem over every schedule is
    a theorem over every interleaving of the round trips and every pattern of
    failures. *)

From stdpp Require Import base tactics option list gmap.
From Stdlib Require Import ZArith Lia String Ascii.
From S2P Require Import Prelude RustStr Json Frames Redis.

(** [axum::extract::ws::Message], the variants the gateway sends. *)
Inductive Message :=
| Text (text : str)
| Ping
| Close (code : Z) (reason : str).

(** The bounded channel between the gateway and a socket's writer task: what is
    waiting, whether the receiver is gone, and what the writer has put on the
    socket so far. *)
Record Chan := { buf : list Message; closed : bool; sink : list Message }.

Record Connection := {
  user_id : Uuid;
  token_jti : option Uuid;
  sender : Uuid;  (** the handle of the channel: [WsSender] *)
  subscribed_workspaces : gset Uuid;
  subscribed_channels : gset Uuid;
  subscribed_huddles : gset Uuid;
}.

Record HuddleSfu := { threshold : Z; max_participants : Z }.

(** The rows of the database the gateway queries. *)
Record HuddleSession := {
  huddle_id : Uuid;
  huddle_workspace : Uuid;
  huddle_channel : option Uuid;
  initiated_by : Uuid;
  dm_partner_id : option Uuid;
  ended_at : option Z;
}.

Record Db := {
  workspace_members : list (Uuid * Uuid);  (** (workspace_id, user_id) *)
  channel_members : list (Uuid * Uuid);    (** (channel_id, user_id) *)
  huddle_sessions : list HuddleSession;
  huddle_invites : list (Uuid * Uuid);     (** (huddle_id, user_id) *)
  manual_away : list Uuid;                 (** users with [manual_away] *)
}.

Inductive fault := Refused | LostReply.

Record Tick (R : Type) := {
  tick_db : Db -> Db;
  tick_redis : R -> R;
  tick_fault : option fault;
}.
Arguments tick_db {R} _ _.
Arguments tick_redis {R} _ _.
Arguments tick_fault {R} _.

Record World (R : Type) := {
  connections : gmap Uuid Connection;
  user_connections : gmap Uuid (gset Uuid);
  sfu : option HuddleSfu;
  chans : gmap Uuid Chan;
  db : Db;
  redis : R;
  now : Z;                        (** seconds since the epoch *)
  rng : list Uuid;                (** the next identifiers [Uuid::new_v4] gives *)
  schedule : list (Tick R);
  published : list (str * str);   (** (redis channel, body), oldest first *)
}.
Arguments connections {R} _.
Arguments user_connections {R} _.
Arguments sfu {R} _.
Arguments chans {R} _.
Arguments db {R} _.
Arguments redis {R} _.
Arguments now {R} _.
Arguments rng {R} _.
Arguments schedule {R} _.
Arguments published {R} _.

Definition M (R A : Type) : Type := World R -> A * World R.

#[export] Instance M_ret R : MRet (M R) := fun A a w => (a, w).
#[export] Instance M_bind R : MBind (M R) := fun A B f m w => let '(a, w') := m w in f a w'.

Section effects.
Context {R : Type}.
Implicit Types (w : World R).

Definition set_connections (f : gmap Uuid Connection -> gmap Uuid Connection) w : World R :=
  {| connections := f (connections w); user_connections := user_connections w; sfu := sfu w;
     chans := chans w; db := db w; redis := redis w; now := now w; rng := rng w;
     schedule := schedule w; published := published w |}.
Definition set_user_connections (f : gmap Uuid (gset Uuid) -> gmap Uuid (gset Uuid)) w : World R :=
  {| connections := connections w; user_connections := f (user_connections w); sfu := sfu w;
     chans := chans w; db := db w; redis := redis w; now := now w; rng := rng w;
     schedule := schedule w; published := published w |}.
Definition set_chans (f : gmap Uuid Chan -> gmap Uuid Chan) w : World R :=
  {| connections := connections w; user_connections := user_connections w; sfu := sfu w;
     chans := f (chans w); db := db w; redis := redis w; now := now w; rng := rng w;
     schedule := schedule w; published := published w |}.
(** Everything outside the process: services, clock, randomness, log. *)
Definition set_outside (d : Db) (r : R) (g : list Uuid) (s : list (Tick R))
    (p : list (str * str)) w : World R :=
  {| connections := connections w; user_connections := user_connections w; sfu := sfu w;
     chans := chans w; db := d; redis := r; now := now w; rng := g;
     schedule := s; published := p |}.

Definition gets {A} (f : World R -> A) : M R A := fun w => (f w, w).
Definition modify (f : World R -> World R) : M R unit := fun w => (tt, f w).

Fixpoint for_each {A} (l : list A) (f : A -> M R unit) : M R unit :=
  match l with
  | [] => mret tt
  | x :: l => _ ← f x; for_each l f
  end.

Lemma bind_fst {A B} (m : M R A) (f : A -> M R B) w : ((m ≫= f) w).1 = (f (m w).1 (m w).2).1.
Proof. unfold mbind, M_bind. by destruct (m w). Qed.
Lemma bind_snd {A B} (m : M R A) (f : A -> M R B) w : ((m ≫= f) w).2 = (f (m w).1 (m w).2).2.
Proof. unfold mbind, M_bind. by destruct (m w). Qed.

(** One round trip: what the others did first, then the call. *)
Definition take_tick w : Db * R * option fault * list (Tick R) :=
  match schedule w with
  | [] => (db w, redis w, None, [])
  | t :: s => (tick_db t (db w), tick_redis t (redis w), tick_fault t, s)
  end.

(** An empty schedule: nothing interferes and nothing fails. *)
Lemma take_tick_nil w : schedule w = [] -> take_tick w = (db w, redis w, None, []).
Proof. unfold take_tick. by intros ->. Qed.

Definition redis_call {A} (op : R -> R * A) : M R (result fault A) := fun w =>
  let '(d, r, f, s) := take_tick w in
  match f with
  | Some Refused => (Err Refused, set_outside d r (rng w) s (published w) w)
  | Some LostReply => (Err LostReply, set_outside d (op r).1 (rng w) s (published w) w)
  | None => let '(r', a) := op r in (Ok a, set_outside d r' (rng w) s (published w) w)
  end.

Definition redis_read {A} (op : R -> A) : M R (result fault A) :=
  redis_call (fun r => (r, op r)).
Definition redis_write (op : R -> R) : M R (result fault unit) :=
  redis_call (fun r => (op r, tt)).

(** [PUBLISH channel body]: the message is out unless the call was refused. *)
Definition redis_publish (channel body : str) : M R (result fault unit) := fun w =>
  let '(d, r, f, s) := take_tick w in
  let out := published w ++ [(channel, body)] in
  match f with
  | Some Refused => (Err Refused, set_outside d r (rng w) s (published w) w)
  | Some LostReply => (Err LostReply, set_outside d r (rng w) s out w)
  | None => (Ok tt, set_outside d r (rng w) s out w)
  end.

(** A read-only query. *)
Definition db_query {A} (q : Db -> A) : M R (result fault A) := fun w =>
  let '(d, r, f, s) := take_tick w in
  (match f with Some e => Err e | None => Ok (q d) end,
   set_outside d r (rng w) s (published w) w).

(** [Uuid::new_v4()] *)
Definition new_v4 : M R Uuid := fun w =>
  match rng w with
  | [] => (0%N, w)
  | u :: g => (u, set_outside (db w) (redis w) g (schedule w) (published w) w)
  end.

(** How the database and the schedule change over one step outside the
    process. *)
Definition outside_step w (d : Db) (s : list (Tick R)) : Prop :=
  (d = db w /\ s = schedule w) \/ exists t, schedule w = t :: s /\ d = tick_db t (db w).

(** ** Relations a computation respects

    A property of a handler is a relation between the world before and the
    world after that every step of the handler respects.  The relations are
    preorders, so a sequence respects what its parts do. *)

Definition respects {A} (Rel : relation (World R)) (m : M R A) : Prop :=
  forall w, Rel w (m w).2.

Section preorder.
Context (Rel : relation (World R)) `{!PreOrder Rel}.

Lemma respects_ret {A} (a : A) : respects Rel (mret a).
Proof. intros w. reflexivity. Qed.

Lemma respects_gets {A} (f : World R -> A) : respects Rel (gets f).
Proof. intros w. reflexivity. Qed.

Lemma respects_bind {A B} (m : M R A) (f : A -> M R B) :
  respects Rel m -> (forall a, respects Rel (f a)) -> respects Rel (m ≫= f).
Proof.
  intros Hm Hf w. unfold mbind, M_bind. specialize (Hm w).
  destruct (m w) as [a w']. transitivity w'; [done|apply Hf].
Qed.

Lemma respects_for_each {A} (l : list A) (f : A -> M R unit) :
  (forall x, x ∈ l -> respects Rel (f x)) -> respects Rel (for_each l f).
Proof.
  induction l as [|x l IH]; intros Hf; cbn; [apply respects_ret|].
  apply respects_bind; [apply Hf; left|]. intros _. apply IH. intros y Hy. apply Hf. by right.
Qed.

(** A relation that every round trip respects, whatever it answers. *)
Context (Hout : forall d r g s p w, outside_step w d s -> Rel w (set_outside d r g s p w)).

Lemma take_tick_step w d r f s : take_tick w = (d, r, f, s) -> outside_step w d s.
Proof.
  unfold take_tick, outside_step. destruct (schedule w) as [|t s'].
  - intros [= <- _ _ <-]. by left.
  - intros [= <- _ _ <-]. right. by exists t.
Qed.

Lemma respects_redis_call {A} (op : R -> R * A) : respects Rel (redis_call op).
Proof.
  intros w. unfold redis_call. destruct (take_tick w) as [[[d r] f] s] eqn:E.
  apply take_tick_step in E. destruct f as [[]|]; [by apply Hout..|].
  destruct (op r). by apply Hout.
Qed.
Lemma respects_redis_publish c b : respects Rel (redis_publish c b).
Proof.
  intros w. unfold redis_publish. destruct (take_tick w) as [[[d r] f] s] eqn:E.
  apply take_tick_step in E. destruct f as [[]|]; by apply Hout.
Qed.
Lemma respects_db_query {A} (q : Db -> A) : respects Rel (db_query q).
Proof.
  intros w. unfold db_query. destruct (take_tick w) as [[[d r] f] s] eqn:E.
  apply take_tick_step in E. by apply Hout.
Qed.
Lemma respects_new_v4 : respects Rel new_v4.
Proof. intros w. unfold new_v4. destruct (rng w); [reflexivity|apply Hout; by left]. Qed.
End preorder.
End effects.

(** A relation that steps outside the process respect. *)
Class Internal {R} (Rel : relation (World R)) := {
  internal_preorder :: PreOrder Rel;
  internal_outside : forall d r g s p w, outside_step w d s -> Rel w (set_outside d r g s p w);
}.

(** Walks a computation, leaving the steps that change the process. *)
Ltac respects_step :=
  match goal with
  | |- respects _ (mbind _ _) => apply respects_bind; [apply _| |intros ?]
  | |- respects _ (mret _) => apply respects_ret, _
  | |- respects _ (gets _) => apply respects_gets, _
  | |- respects _ (redis_call _) => apply respects_redis_call, internal_outside
  | |- respects _ (redis_read _) => apply respects_redis_call, internal_outside
  | |- respects _ (redis_write _) => apply respects_redis_call, internal_outside
  | |- respects _ (redis_publish _ _) => apply respects_redis_publish, internal_outside
  | |- respects _ (db_query _) => apply respects_db_query, internal_outside
  | |- respects _ new_v4 => apply respects_new_v4; [apply _|apply internal_outside]
  | |- respects _ (for_each _ _) => apply respects_for_each; [apply _|intros ? ?]
  | |- respects _ (let '(_, _) := ?x in _) => destruct x
  | |- respects _ (if ?b then _ else _) => destruct b eqn:?
  | |- respects _ (match ?x with _ => _ end) => destruct x eqn:?
  | |- respects _ _ => solve [auto with respects]
  | |- respects _ _ => solve [auto with respects typeclass_instances]
  end.
Create HintDb respects.
Ltac solve_respects := intros; repeat respects_step.
