(* ===== verification/ConnectionManager.v ===== *)
(** * The connection registry ([backend/realtime/src/connection_manager.rs])

    Which sockets are open, whose they are and what they subscribed to, and how
    a message reaches them: the bounded channel to each socket's writer, the
    fan-out through a visibility predicate, backpressure and revocation. *)

From stdpp Require Import base tactics option list gmap.
From Stdlib Require Import ZArith Lia String Ascii.
From S2P Require Import Prelude RustStr Json Frames Redis GatewayState.

Definition WRITER_CHANNEL_CAP : nat := 256.
Definition REVOCATION_RETRIES : nat := 1.
Definition BACKPRESSURE_CLOSE_CODE : Z := 4003.
Definition SESSION_REVOKED_CLOSE_CODE : Z := 4001.

(** ** The channel to a socket's writer *)

Inductive TrySendError := Full | Closed.

Definition chan_try_send (m : Message) (c : Chan) : result TrySendError Chan :=
  if closed c then Err Closed
  else if (WRITER_CHANNEL_CAP <=? length (buf c))%nat then Err Full
  else Ok {| buf := buf c ++ [m]; closed := false; sink := sink c |}.

(** One turn of the writer task ([spawn_writer]): take a message, put it on the
    socket, stop after a close frame or a failed send. *)
Definition writer_step (send_ok : bool) (c : Chan) : Chan :=
  if closed c then c else
  match buf c with
  | [] => c
  | m :: rest =>
      let is_close := match m with Close _ _ => true | _ => false end in
      if send_ok then {| buf := rest; closed := is_close; sink := sink c ++ [m] |}
      else {| buf := rest; closed := true; sink := sink c |}
  end.

(** ** Audiences *)

Inductive Audience := Everyone | OneConnection (conn_id : Uuid).

Definition includes (a : Audience) (conn_id : Uuid) : bool :=
  match a with
  | Everyone => true
  | OneConnection only => bool_decide (only = conn_id)
  end.

(** ** Revocation records *)

Record Claims := { sub : Uuid; exp : Z; iat : Z; jti : option Uuid }.
Record RevocationRecord := { at_ : Z; except_jti : option Uuid }.

Definition covers (r : RevocationRecord) (c : Claims) : bool :=
  if at_ r <? iat c then false
  else negb (match except_jti r, jti c with
             | Some except, Some jti => bool_decide (except = jti)
             | _, _ => false
             end).

Inductive RevocationState := Valid | Revoked | Unknown.

Class RevocationSerde := { revocation_from_str : str -> option RevocationRecord }.

Section manager.
Context {R : Type} `{Redis R} `{UuidText} `{RevocationSerde}.
Implicit Types (w : World R).

(** ** Queries that grant access; a database error denies. *)

Definition rows_of {A} (r : result fault (list A)) : list A :=
  match r with Ok rows => rows | Err _ => [] end.

Definition channel_memberships (channel_ids : list Uuid) (user : Uuid) : M R (list Uuid) :=
  rows ← db_query (fun d =>
    fst <$> filter (fun r : Uuid * Uuid => r.1 ∈ channel_ids /\ r.2 = user) (channel_members d));
  mret (rows_of rows).

Definition is_workspace_member (workspace_id user : Uuid) : M R bool :=
  found ← db_query (fun d => bool_decide ((workspace_id, user) ∈ workspace_members d));
  mret (match found with Ok b => b | Err _ => false end).

Definition user_workspace_ids (user : Uuid) : M R (list Uuid) :=
  rows ← db_query (fun d =>
    fst <$> filter (fun r : Uuid * Uuid => r.2 = user) (workspace_members d));
  mret (rows_of rows).

(** [shared_common::huddle_access::may_join_huddle] *)
Definition huddle_open_to (user : Uuid) (d : Db) (h : HuddleSession) : bool :=
  bool_decide (ended_at h = None)
  && bool_decide ((huddle_workspace h, user) ∈ workspace_members d)
  && (match huddle_channel h with
      | Some ch => bool_decide ((ch, user) ∈ channel_members d)
      | None => bool_decide (initiated_by h = user)
                || bool_decide (dm_partner_id h = Some user)
      end
      || bool_decide ((huddle_id h, user) ∈ huddle_invites d)).

Definition may_join_huddle_db (huddle user : Uuid) (d : Db) : bool :=
  existsb (fun h => bool_decide (huddle_id h = huddle) && huddle_open_to user d h)
          (huddle_sessions d).

Definition may_join_huddle (huddle user : Uuid) : M R bool :=
  found ← db_query (may_join_huddle_db huddle user);
  mret (match found with Ok b => b | Err _ => false end).

(** ** Registration *)

Definition new_connection (user : Uuid) (jti : option Uuid) (snd : Uuid) : Connection :=
  {| user_id := user; token_jti := jti; sender := snd; subscribed_workspaces := ∅;
     subscribed_channels := ∅; subscribed_huddles := ∅ |}.

(** [self.connections.insert(conn_id, Connection { .. })] *)
Definition add_step1 (conn_id user : Uuid) (jti : option Uuid) (snd : Uuid) w : World R :=
  set_connections <[conn_id := new_connection user jti snd]> w.

(** [self.user_connections.entry(user_id).or_default()] and its update, under
    one lock of the entry *)
Definition add_step2 (conn_id user : Uuid) w : bool * World R :=
  let entry := default ∅ (user_connections w !! user) in
  (bool_decide (entry = ∅), set_user_connections <[user := {[conn_id]} ∪ entry]> w).

Definition add_connection (conn_id user : Uuid) (jti : option Uuid) (snd : Uuid) : M R bool :=
  fun w => add_step2 conn_id user (add_step1 conn_id user jti snd w).

(** [self.connections.remove(conn_id)] *)
Definition remove_step1 (conn_id : Uuid) w : option Connection * World R :=
  (connections w !! conn_id, set_connections (delete conn_id) w).

(** [conns.remove(conn_id); conns.is_empty()] under the entry's lock; the
    second component says whether step 3 follows. *)
Definition remove_step2 (conn_id user : Uuid) w : bool * World R :=
  match user_connections w !! user with
  | Some conns =>
      let conns' := conns ∖ {[conn_id]} in
      (bool_decide (conns' = ∅), set_user_connections <[user := conns']> w)
  | None => (false, w)
  end.

(** [self.user_connections.remove(&conn.user_id)], after [drop(conns)]
    released the entry *)
Definition remove_step3 (user : Uuid) w : World R := set_user_connections (delete user) w.

Definition remove_connection (conn_id : Uuid) : M R (option (Uuid * bool)) := fun w =>
  match remove_step1 conn_id w with
  | (Some conn, w1) =>
      let '(was_last, w2) := remove_step2 conn_id (user_id conn) w1 in
      (Some (user_id conn, was_last), if was_last then remove_step3 (user_id conn) w2 else w2)
  | (None, w1) => (None, w1)
  end.

(** ** Subscriptions *)

Definition on_conn (f : Connection -> Connection) (conn_id : Uuid) : M R unit :=
  modify (set_connections (alter f conn_id)).

Definition with_workspaces (f : gset Uuid -> gset Uuid) (c : Connection) : Connection :=
  {| user_id := user_id c; token_jti := token_jti c; sender := sender c;
     subscribed_workspaces := f (subscribed_workspaces c);
     subscribed_channels := subscribed_channels c; subscribed_huddles := subscribed_huddles c |}.
Definition with_channels (f : gset Uuid -> gset Uuid) (c : Connection) : Connection :=
  {| user_id := user_id c; token_jti := token_jti c; sender := sender c;
     subscribed_workspaces := subscribed_workspaces c;
     subscribed_channels := f (subscribed_channels c); subscribed_huddles := subscribed_huddles c |}.
Definition with_huddles (f : gset Uuid -> gset Uuid) (c : Connection) : Connection :=
  {| user_id := user_id c; token_jti := token_jti c; sender := sender c;
     subscribed_workspaces := subscribed_workspaces c;
     subscribed_channels := subscribed_channels c; subscribed_huddles := f (subscribed_huddles c) |}.

Definition subscribe_workspace (conn_id workspace_id : Uuid) : M R unit :=
  on_conn (with_workspaces (fun s => {[workspace_id]} ∪ s)) conn_id.
Definition join_channel (conn_id channel_id : Uuid) : M R unit :=
  on_conn (with_channels (fun s => {[channel_id]} ∪ s)) conn_id.
Definition leave_channel (conn_id channel_id : Uuid) : M R unit :=
  on_conn (with_channels (fun s => s ∖ {[channel_id]})) conn_id.
Definition join_huddle (conn_id huddle : Uuid) : M R unit :=
  on_conn (with_huddles (fun s => {[huddle]} ∪ s)) conn_id.
Definition leave_huddle (conn_id huddle : Uuid) : M R unit :=
  on_conn (with_huddles (fun s => s ∖ {[huddle]})) conn_id.

Definition is_subscribed_to_channel (conn_id channel_id : Uuid) : M R bool :=
  gets (fun w => match connections w !! conn_id with
                 | Some conn => bool_decide (channel_id ∈ subscribed_channels conn)
                 | None => false
                 end).

(** The connections of a user, as [user_connections] lists them. *)
Definition conns_of_user (user : Uuid) w : list Uuid :=
  match user_connections w !! user with Some conns => elements conns | None => [] end.

Definition leave_channel_for_user (user channel_id : Uuid) : M R unit :=
  conn_ids ← gets (conns_of_user user);
  for_each conn_ids (fun conn_id => leave_channel conn_id channel_id).

Definition leave_workspace_for_user (user workspace_id : Uuid) : M R unit :=
  conn_ids ← gets (conns_of_user user);
  for_each conn_ids (fun conn_id =>
    on_conn (with_workspaces (fun s => s ∖ {[workspace_id]})) conn_id).

Definition huddle_ids_for_conn (conn_id : Uuid) : M R (list Uuid) :=
  gets (fun w => match connections w !! conn_id with
                 | Some c => elements (subscribed_huddles c)
                 | None => []
                 end).

Definition user_in_huddle_local (user huddle : Uuid) : M R bool :=
  gets (fun w => existsb (fun '(_, c) =>
                   bool_decide (user_id c = user) && bool_decide (huddle ∈ subscribed_huddles c))
                   (map_to_list (connections w))).

Definition has_local_connection (user : Uuid) : M R bool :=
  gets (fun w => match user_connections w !! user with
                 | Some conns => negb (bool_decide (conns = ∅))
                 | None => false
                 end).

(** ** Delivery *)

(** [sender.try_send(message)]; a handle without a channel is a receiver that
    is gone. *)
Definition try_send (snd : Uuid) (m : Message) : M R (result TrySendError unit) := fun w =>
  match chans w !! snd with
  | None => (Err Closed, w)
  | Some c => match chan_try_send m c with
              | Ok c' => (Ok tt, set_chans <[snd := c']> w)
              | Err e => (Err e, w)
              end
  end.

Definition enqueue (conn_id : Uuid) (message : str) : M R (option Uuid) :=
  conn ← gets (fun w => connections w !! conn_id);
  match conn with
  | None => mret None
  | Some conn =>
      sent ← try_send (sender conn) (Text message);
      match sent with
      | Ok _ => mret None
      | Err Full =>
          _ ← try_send (sender conn) (Close BACKPRESSURE_CLOSE_CODE ($"too far behind"));
          mret (Some (user_id conn))
      | Err Closed => mret (Some (user_id conn))
      end
  end.

Definition drop_dead_connection (conn_id user : Uuid) : M R unit :=
  _ ← remove_connection conn_id; mret tt.

(** [if let Some(user_id) = self.enqueue(..) { self.drop_dead_connection(..) }] *)
Definition deliver (message : str) (conn_id : Uuid) : M R unit :=
  dead ← enqueue conn_id message;
  match dead with
  | Some user => drop_dead_connection conn_id user
  | None => mret tt
  end.

Definition targets (audience : Audience) (predicate : Connection -> bool) w : list Uuid :=
  fst <$> filter (fun p : Uuid * Connection => includes audience p.1 && predicate p.2)
                 (map_to_list (connections w)).

Definition fan_out_to (audience : Audience) (message : str) (predicate : Connection -> bool) : M R unit :=
  ids ← gets (targets audience predicate);
  for_each ids (deliver message).

Definition fan_out (message : str) (predicate : Connection -> bool) : M R unit :=
  fan_out_to Everyone message predicate.

Definition broadcast_to_channel (audience : Audience) (channel_id : Uuid) (message : str) : M R unit :=
  fan_out_to audience message (fun c => bool_decide (channel_id ∈ subscribed_channels c)).
Definition broadcast_to_workspace (audience : Audience) (workspace_id : Uuid) (message : str) : M R unit :=
  fan_out_to audience message (fun c => bool_decide (workspace_id ∈ subscribed_workspaces c)).
Definition broadcast_to_huddle (audience : Audience) (huddle : Uuid) (message : str) : M R unit :=
  fan_out_to audience message (fun c => bool_decide (huddle ∈ subscribed_huddles c)).
Definition broadcast_to_all (audience : Audience) (message : str) : M R unit :=
  fan_out_to audience message (fun _ => true).

Definition send_to_user (audience : Audience) (user : Uuid) (message : str) : M R unit :=
  conn_ids ← gets (conns_of_user user);
  for_each (filter (fun id => includes audience id) conn_ids) (deliver message).

Definition send_to_conn (conn_id : Uuid) (message : str) : M R unit := deliver message conn_id.

Definition send_to_workspace_members (workspace_ids : list Uuid) (message : str) : M R unit :=
  fan_out message (fun c =>
    existsb (fun ws => bool_decide (ws ∈ workspace_ids)) (elements (subscribed_workspaces c))).

(** ** Revocation *)

Definition disconnect_one (except : option Uuid) (reason : str) (conn_id : Uuid) : M R unit :=
  conn ← gets (fun w => connections w !! conn_id);
  match conn with
  | None => mret tt
  | Some conn =>
      if bool_decide (is_Some except) && bool_decide (token_jti conn = except) then mret tt
      else _ ← try_send (sender conn) (Close SESSION_REVOKED_CLOSE_CODE reason); mret tt
  end.

Definition disconnect_user_except (user : Uuid) (except : option Uuid) (reason : str) : M R unit :=
  conn_ids ← gets (conns_of_user user);
  for_each conn_ids (disconnect_one except reason).

Definition disconnect_user (user : Uuid) (reason : str) : M R unit :=
  disconnect_user_except user None reason.

(** The lookup, retried after a failure or a timeout; [attempts] counts the
    tries left. *)
Fixpoint revocation_attempts (attempts : nat) (claims : Claims) : M R RevocationState :=
  match attempts with
  | O => mret Unknown
  | S attempts =>
      read ← redis_read (redis_get ($"revoked:" ++ uuid_to_string (sub claims)));
      match read with
      | Ok (Some payload) =>
          mret (match revocation_from_str payload with
                | Some record => if covers record claims then Revoked else Valid
                | None => Revoked
                end)
      | Ok None => mret Valid
      | Err _ => revocation_attempts attempts claims
      end
  end.

Definition revocation_state (claims : Claims) : M R RevocationState :=
  revocation_attempts (S REVOCATION_RETRIES) claims.
End manager.

(** ** Relations the registry operations respect *)

(** A predicate on worlds kept by a computation. *)
Definition keeping {R} (P : World R -> Prop) : relation (World R) := fun w w' => P w -> P w'.

#[export] Instance keeping_internal {R} (P : World R -> Prop) :
  (forall d r g s p w, P w -> P (set_outside d r g s p w)) -> Internal (keeping P).
Proof.
  intros HP. split; [|intros d r g s p w _ Hw; by apply HP]. split; [intros w Hw; exact Hw|].
  intros x y z Hxy Hyz Hx. by apply Hyz, Hxy.
Qed.

(** The two indexes agree: every connection is listed under its user, every
    listed connection exists and is that user's, no user is listed without
    one. *)
Definition coherent {R} (w : World R) : Prop :=
  (forall c conn, connections w !! c = Some conn ->
     exists s, user_connections w !! user_id conn = Some s /\ c ∈ s) /\
  (forall u s, user_connections w !! u = Some s ->
     s <> ∅ /\ forall c, c ∈ s -> exists conn, connections w !! c = Some conn /\ user_id conn = u).

(** No writer channel ever holds more than its capacity. *)
Definition bounded {R} (w : World R) : Prop :=
  forall h q, chans w !! h = Some q -> (length (buf q) <= WRITER_CHANNEL_CAP)%nat.

#[export] Instance coherent_internal {R} : Internal (keeping (@coherent R)).
Proof. apply keeping_internal. done. Qed.
#[export] Instance bounded_internal {R} : Internal (keeping (@bounded R)).
Proof. apply keeping_internal. done. Qed.

Section registry.
Context {R : Type}.
Implicit Types (w : World R).

Lemma coherent_user w c conn :
  coherent w -> connections w !! c = Some conn ->
  exists s, user_connections w !! user_id conn = Some s /\ c ∈ s.
Proof. intros [H _]. apply H. Qed.

Lemma coherent_index w u c :
  coherent w -> c ∈ conns_of_user u w <->
  exists conn, connections w !! c = Some conn /\ user_id conn = u.
Proof.
  intros [H1 H2]. unfold conns_of_user. split.
  - destruct (user_connections w !! u) as [s|] eqn:E; [|set_solver].
    rewrite elem_of_elements. apply (H2 u s E).
  - intros (conn & Hc & <-). destruct (H1 c conn Hc) as (s & -> & Hs).
    by rewrite elem_of_elements.
Qed.

Lemma add_connection_coherent conn_id u jti snd w :
  coherent w -> connections w !! conn_id = None ->
  coherent (add_connection conn_id u jti snd w).2.
Proof.
  intros [H1 H2] Hfresh. split; cbn.
  - intros c conn. rewrite lookup_insert. case_decide as E.
    + intros [= <-]. cbn. rewrite lookup_insert_eq. subst. eexists. split; [done|set_solver].
    + intros Hc. destruct (H1 c conn Hc) as (s & Hs & Hin).
      destruct (decide (user_id conn = u)) as [Eu|].
      * rewrite Eu in *. rewrite lookup_insert_eq, Hs. eexists. split; [done|]. set_solver.
      * rewrite lookup_insert_ne by done. eauto.
  - intros u' s. rewrite lookup_insert. case_decide as E.
    + intros [= <-]. split; [set_solver|]. intros c [->%elem_of_singleton|Hc]%elem_of_union.
      * rewrite lookup_insert_eq. subst. by eexists.
      * destruct (user_connections w !! u) as [s|] eqn:Es; [|set_solver].
        destruct (H2 u s Es) as [_ Hin]. destruct (Hin c Hc) as (conn & Hconn & Hu).
        exists conn. rewrite lookup_insert_ne by congruence. subst. done.
    + intros Hs. destruct (H2 u' s Hs) as [Hne Hin]. split; [done|]. intros c Hc.
      destruct (Hin c Hc) as (conn & Hconn & Hu). exists conn.
      rewrite lookup_insert_ne by congruence. done.
Qed.

Lemma remove_connection_connections conn_id w :
  connections (remove_connection conn_id w).2 = delete conn_id (connections w).
Proof.
  unfold remove_connection, remove_step1, remove_step2, remove_step3. cbn.
  destruct (connections w !! conn_id) as [conn|]; cbn; [|done].
  destruct (user_connections w !! user_id conn); cbn; [|done]. by case_bool_decide.
Qed.

Lemma remove_connection_chans conn_id w :
  chans (remove_connection conn_id w).2 = chans w.
Proof.
  unfold remove_connection, remove_step1, remove_step2, remove_step3. cbn.
  destruct (connections w !! conn_id) as [conn|]; cbn; [|done].
  destruct (user_connections w !! user_id conn); cbn; [|done]. by case_bool_decide.
Qed.

Lemma remove_connection_coherent conn_id : respects (keeping coherent) (remove_connection (R:=R) conn_id).
Proof.
  intros w [H1 H2]. unfold remove_connection, remove_step1, remove_step2, remove_step3. cbn.
  destruct (connections w !! conn_id) as [conn|] eqn:Ec; cbn;
    [|split; cbn; rewrite delete_id by done; done].
  destruct (H1 _ _ Ec) as (s & Es & Hs). rewrite Es.
  case_bool_decide as Hempty; cbn; split; cbn.
  - intros c conn'. rewrite lookup_delete_Some. intros [Hne Hc].
    destruct (H1 _ _ Hc) as (s' & Hs' & Hin).
    assert (user_id conn <> user_id conn') by (intros E; rewrite <-E in Hs'; simplify_eq; set_solver).
    rewrite lookup_delete_ne by done. rewrite lookup_insert_ne by done. eauto.
  - intros u s'. rewrite lookup_delete_Some. intros [Hne Hs'].
    rewrite lookup_insert_ne in Hs' by done. destruct (H2 u s' Hs') as [? Hin].
    split; [done|]. intros c Hc. destruct (Hin c Hc) as (conn' & Hc' & Hu).
    exists conn'. rewrite lookup_delete_ne; [done|]. intros ->. congruence.
  - intros c conn'. rewrite lookup_delete_Some. intros [Hne Hc].
    destruct (H1 _ _ Hc) as (s' & Hs' & Hin). rewrite lookup_insert. case_decide as E; [|eauto].
    rewrite E in Es. eexists. split; [done|]. set_solver.
  - intros u s'. rewrite lookup_insert. case_decide as E.
    + intros [= <-]. split; [done|]. intros c Hc. subst u.
      destruct (proj2 (H2 _ _ Es) c) as (conn' & Hc' & Hu); [set_solver|].
      exists conn'. rewrite lookup_delete_ne by set_solver. done.
    + intros Hs'. destruct (H2 u s' Hs') as [? Hin]. split; [done|].
      intros c Hc. destruct (Hin c Hc) as (conn' & Hc' & Hu).
      exists conn'. rewrite lookup_delete_ne; [done|]. intros ->. congruence.
Qed.

Lemma on_conn_coherent f c :
  (forall conn, user_id (f conn) = user_id conn) ->
  respects (keeping coherent) (on_conn (R:=R) f c).
Proof.
  intros Hf w [H1 H2]. split; cbn.
  - intros c' conn. rewrite lookup_alter. case_decide as E; [|apply H1].
    rewrite fmap_Some. intros (conn' & Hc' & ->). rewrite Hf. subst. by apply H1.
  - intros u s Hs. destruct (H2 u s Hs) as [Hne Hin]. split; [done|]. intros c' Hc'.
    destruct (Hin c' Hc') as (conn & Hconn & Hu). rewrite lookup_alter.
    case_decide as E; [|eauto]. subst c'. rewrite Hconn. exists (f conn). by rewrite Hf.
Qed.

Lemma set_chans_coherent f w : coherent w -> coherent (set_chans f w).
Proof. done. Qed.

Lemma try_send_coherent snd m : respects (keeping coherent) (try_send (R:=R) snd m).
Proof.
  intros w Hw. unfold try_send. destruct (chans w !! snd); [|done].
  destruct (chan_try_send m c); done.
Qed.

Lemma chan_try_send_bounded m c c' :
  (length (buf c) <= WRITER_CHANNEL_CAP)%nat -> chan_try_send m c = Ok c' ->
  (length (buf c') <= WRITER_CHANNEL_CAP)%nat.
Proof.
  intros Hc. unfold chan_try_send. destruct (closed c); [done|].
  destruct (Nat.leb_spec WRITER_CHANNEL_CAP (length (buf c))); [done|].
  intros [= <-]. cbn. rewrite length_app. cbn. lia.
Qed.

Lemma try_send_bounded snd m : respects (keeping bounded) (try_send (R:=R) snd m).
Proof.
  intros w Hw. unfold try_send. destruct (chans w !! snd) as [c|] eqn:E; [|done].
  destruct (chan_try_send m c) as [c'|] eqn:Es; [|done].
  intros h q. cbn. rewrite lookup_insert. case_decide; [|apply Hw].
  intros [= <-]. by eapply chan_try_send_bounded; [eapply Hw|].
Qed.

Lemma on_conn_bounded f c : respects (keeping bounded) (on_conn (R:=R) f c).
Proof. intros w Hw. exact Hw. Qed.

Lemma remove_connection_bounded c : respects (keeping bounded) (remove_connection (R:=R) c).
Proof. intros w Hw h q. rewrite remove_connection_chans. apply Hw. Qed.
End registry.

#[export] Hint Resolve try_send_coherent try_send_bounded on_conn_bounded
  remove_connection_bounded remove_connection_coherent : respects.
#[export] Hint Extern 2 (respects (keeping coherent) (on_conn _ _)) =>
  apply on_conn_coherent; done : respects.

(** ** What every delivery respects *)

(** A relation that sending to a channel and dropping a connection respect is
    respected by every operation that delivers messages. *)
Class Delivers {R} (Rel : relation (World R)) := {
  delivers_internal :: Internal Rel;
  delivers_try_send : forall snd m, respects Rel (try_send snd m);
  delivers_remove : forall c, respects Rel (remove_connection c);
}.

#[export] Instance delivers_coherent {R} : Delivers (keeping (@coherent R)).
Proof. split; [apply _|apply try_send_coherent|apply remove_connection_coherent]. Qed.
#[export] Instance delivers_bounded {R} : Delivers (keeping (@bounded R)).
Proof. split; [apply _|apply try_send_bounded|apply remove_connection_bounded]. Qed.

Section delivers.
Context {R : Type} (Rel : relation (World R)) `{!Delivers Rel}.

Lemma respects_deliver m c : respects Rel (deliver m c).
Proof.
  unfold deliver, enqueue, drop_dead_connection.
  solve_respects; (apply delivers_try_send || apply delivers_remove).
Qed.

Lemma respects_deliver_all m (ids : list Uuid) : respects Rel (for_each ids (deliver m)).
Proof. apply respects_for_each; [apply _|]. intros. apply respects_deliver. Qed.

Lemma respects_fan_out_to a m p : respects Rel (fan_out_to a m p).
Proof.
  unfold fan_out_to. respects_step; [apply respects_gets, _|apply respects_deliver_all].
Qed.

Lemma respects_send_to_user a u m : respects Rel (send_to_user a u m).
Proof.
  unfold send_to_user. respects_step; [apply respects_gets, _|apply respects_deliver_all].
Qed.

Lemma respects_disconnect u e r : respects Rel (disconnect_user_except u e r).
Proof.
  unfold disconnect_user_except, disconnect_one. solve_respects. apply delivers_try_send.
Qed.
End delivers.

#[export] Hint Resolve respects_deliver respects_fan_out_to respects_send_to_user
  respects_disconnect : respects.

#[global] Arguments remove_connection : simpl never.
#[global] Arguments chan_try_send : simpl never.

(** A channel that is full for one message is full for every other. *)
Lemma chan_full_for_all m m' q :
  chan_try_send m q = Err Full -> chan_try_send m' q = Err Full.
Proof. unfold chan_try_send. destruct (closed q); [done|]. by case_match. Qed.

(** ** Exactly who a fan-out reaches *)

(** Two connections never share a writer channel: [handle_ws] makes one channel
    per socket. *)
Definition distinct_senders {R} (w : World R) : Prop :=
  forall c d x y, connections w !! c = Some x -> connections w !! d = Some y ->
    sender x = sender y -> c = d.

(** The channel of a connection once [m] is queued, if it takes it. *)
Definition accepts {R} (m : str) (conn : Connection) (w : World R) : option Chan :=
  chans w !! sender conn ≫= fun q => result_ok (chan_try_send (Text m) q).

Section reach.
Context {R : Type}.
Implicit Types (w : World R).

(** A delivery queues the message or drops the connection.  A full channel
    takes no close frame either: the second [try_send] fails like the first. *)
Lemma deliver_world m c w :
  (deliver m c w).2 =
    match connections w !! c with
    | None => w
    | Some conn =>
        match accepts m conn w with
        | Some q => set_chans <[sender conn := q]> w
        | None => (remove_connection c w).2
        end
    end.
Proof.
  unfold deliver, enqueue, drop_dead_connection, accepts, gets, try_send.
  unfold mbind, M_bind, mret, M_ret. cbn.
  destruct (connections w !! c) as [conn|] eqn:Ec; [|done].
  destruct (chans w !! sender conn) as [q|] eqn:Eq; cbn.
  - destruct (chan_try_send (Text m) q) as [q'|[]] eqn:Es; cbn; [done| |].
    + rewrite Eq, (chan_full_for_all _ _ _ Es). by destruct (remove_connection c w).
    + by destruct (remove_connection c w).
  - by destruct (remove_connection c w).
Qed.

(** What a delivery to [c] does to one connection and its channel. *)
Definition delivered (m : str) (d : Uuid) (conn : Connection) w w' : Prop :=
  match accepts m conn w with
  | Some q => connections w' !! d = Some conn /\ chans w' !! sender conn = Some q
  | None => connections w' !! d = None /\ chans w' !! sender conn = chans w !! sender conn
  end.

Definition untouched (d : Uuid) (conn : Connection) w w' : Prop :=
  connections w' !! d = Some conn /\ chans w' !! sender conn = chans w !! sender conn.

Lemma deliver_one m c w d conn :
  distinct_senders w -> connections w !! d = Some conn ->
  if decide (d = c) then delivered m d conn w (deliver m c w).2
  else untouched d conn w (deliver m c w).2.
Proof.
  intros Hs Hd. rewrite deliver_world. case_decide as E.
  - subst c. rewrite Hd. unfold delivered.
    destruct (accepts m conn w) as [q|] eqn:Ea.
    + cbn. rewrite lookup_insert_eq. done.
    + rewrite remove_connection_connections, remove_connection_chans, lookup_delete_eq. done.
  - unfold untouched. destruct (connections w !! c) as [conn'|] eqn:Ec; [|done].
    destruct (accepts m conn' w); cbn.
    + rewrite lookup_insert_ne; [done|]. intros Es. by eapply E, Hs.
    + rewrite remove_connection_connections, remove_connection_chans.
      by rewrite lookup_delete_ne.
Qed.

(** Deliveries add no connection. *)
Lemma deliver_sub m c w d conn :
  connections (deliver m c w).2 !! d = Some conn -> connections w !! d = Some conn.
Proof.
  rewrite deliver_world. destruct (connections w !! c) as [conn'|]; [|done].
  destruct (accepts m conn' w); [done|].
  rewrite remove_connection_connections, lookup_delete_Some. naive_solver.
Qed.

Lemma deliver_senders m c w : distinct_senders w -> distinct_senders (deliver m c w).2.
Proof. intros Hs a b x y Ha%deliver_sub Hb%deliver_sub. by eapply Hs. Qed.

Lemma deliver_chan m c w h :
  (forall conn, connections w !! c = Some conn -> sender conn <> h) ->
  chans (deliver m c w).2 !! h = chans w !! h.
Proof.
  intros Hh. rewrite deliver_world. destruct (connections w !! c) as [conn'|]; [|done].
  destruct (accepts m conn' w); cbn; [|by rewrite remove_connection_chans].
  rewrite lookup_insert_ne; [done|]. by apply Hh.
Qed.

Lemma deliver_all_sub m ids w d conn :
  connections (for_each ids (deliver m) w).2 !! d = Some conn -> connections w !! d = Some conn.
Proof.
  revert w. induction ids as [|c ids IH]; intros w; cbn; [done|]. unfold mbind, M_bind.
  pose proof (deliver_sub m c w d conn) as H1. destruct (deliver m c w) as [u w1].
  intros H2%IH. by apply H1.
Qed.

Lemma deliver_all_chan m ids w h :
  (forall c conn, c ∈ ids -> connections w !! c = Some conn -> sender conn <> h) ->
  chans (for_each ids (deliver m) w).2 !! h = chans w !! h.
Proof.
  revert w. induction ids as [|c ids IH]; intros w Hh; cbn; [done|]. unfold mbind, M_bind.
  pose proof (deliver_sub m c w) as Hsub.
  rewrite <-(deliver_chan m c w h) by (intros; eapply Hh; [left|done]).
  destruct (deliver m c w) as [u w1]. cbn [snd] in *. apply IH.
  intros c' conn Hc' Hconn%Hsub. eapply Hh; [by right|done].
Qed.

Lemma deliver_all m (ids : list Uuid) w d conn :
  NoDup ids -> distinct_senders w -> connections w !! d = Some conn ->
  if decide (d ∈ ids) then delivered m d conn w (for_each ids (deliver m) w).2
  else untouched d conn w (for_each ids (deliver m) w).2.
Proof.
  revert w. induction ids as [|c ids IH]; intros w Hnd Hs Hd.
  { rewrite decide_False by set_solver. done. }
  inversion_clear Hnd as [|? ? Hc Hnd'].
  pose proof (deliver_one m c w d conn Hs Hd) as H1.
  pose proof (deliver_senders m c w Hs) as Hs1.
  pose proof (deliver_sub m c w) as Hsub.
  pose proof (deliver_all_sub m ids (deliver m c w).2 d) as Hsub2.
  pose proof (deliver_all_chan m ids (deliver m c w).2 (sender conn)) as Hq2.
  specialize (IH (deliver m c w).2 Hnd' Hs1).
  cbn [for_each]. unfold mbind, M_bind.
  destruct (deliver m c w) as [u w1]. cbn [snd] in *.
  destruct (decide (d = c)) as [->|Hne].
  - rewrite decide_True by set_solver. unfold delivered in *.
    destruct (accepts m conn w) as [q|]; destruct H1 as [H1 Hq].
    + specialize (IH H1). rewrite decide_False in IH by done. destruct IH as [-> ->]. done.
    + split.
      * destruct (connections (for_each ids (deliver m) w1).2 !! c) as [y|] eqn:E; [|done].
        specialize (Hsub2 y eq_refl). congruence.
      * rewrite Hq2; [done|]. intros c' conn' Hc' Hconn' Es.
        apply Hc. replace c with c'; [done|]. eapply Hs; eauto.
  - destruct H1 as [H1 Hq]. specialize (IH H1).
    assert (Ha : accepts m conn w1 = accepts m conn w) by (unfold accepts; by rewrite Hq).
    unfold delivered, untouched in *. rewrite Ha, Hq in IH.
    destruct (decide (d ∈ ids)); [rewrite decide_True by set_solver|rewrite decide_False by set_solver]; done.
Qed.

Lemma targets_spec a p w c :
  c ∈ targets a p w <->
  exists conn, connections w !! c = Some conn /\ includes a c = true /\ p conn = true.
Proof.
  unfold targets. rewrite list_elem_of_fmap. split.
  - intros ([c' conn] & -> & [Hp Hin]%list_elem_of_filter).
    apply Is_true_true, andb_true_iff in Hp as [? ?].
    apply elem_of_map_to_list in Hin. exists conn. done.
  - intros (conn & Hc & Ha & Hp). exists (c, conn). split; [done|].
    apply list_elem_of_filter. split; [|by apply elem_of_map_to_list].
    cbn. by rewrite Ha, Hp.
Qed.

Lemma targets_NoDup a p w : NoDup (targets a p w).
Proof.
  unfold targets. pose proof (NoDup_fst_map_to_list (connections w)) as Hnd.
  revert Hnd. generalize (map_to_list (connections w)). intros l Hnd.
  induction l as [|[c conn] l IH]; [constructor|]. cbn in Hnd.
  inversion_clear Hnd as [|? ? Hc Hnd']. rewrite filter_cons.
  case_decide; cbn; [|by apply IH]. constructor; [|by apply IH].
  intros Hin. apply Hc. apply list_elem_of_fmap in Hin as (y & -> & Hy).
  apply list_elem_of_filter in Hy as [_ Hy]. by apply list_elem_of_fmap_2.
Qed.

(** A fan-out reaches the connections its audience includes and its predicate
    admits, each once, and touches no other. *)
Lemma fan_out_reaches a m p w d conn :
  distinct_senders w -> connections w !! d = Some conn ->
  if includes a d && p conn then delivered m d conn w (fan_out_to a m p w).2
  else untouched d conn w (fan_out_to a m p w).2.
Proof.
  intros Hs Hd.
  pose proof (deliver_all m (targets a p w) w d conn (targets_NoDup a p w) Hs Hd) as H.
  change (fan_out_to a m p w).2 with (for_each (targets a p w) (deliver m) w).2.
  destruct (includes a d && p conn) eqn:E.
  - apply andb_true_iff in E as [Ea Ep].
    rewrite decide_True in H; [done|]. apply targets_spec. eauto.
  - rewrite decide_False in H; [done|]. rewrite targets_spec.
    intros (conn' & Hc' & Ha & Hp). simplify_eq. by rewrite Ha, Hp in E.
Qed.
End reach.

(** ** Registration under interleaving

    [DashMap] locks one entry at a time, so [add_connection] and
    [remove_connection] are sequences of atomic steps that other threads run
    between.  A thread is where it stands in its call; a pool of threads steps
    in any order. *)

Inductive thread :=
| Adding1 (conn_id user : Uuid) (jti : option Uuid) (snd : Uuid)
| Adding2 (conn_id user : Uuid)
| Removing1 (conn_id : Uuid)
| Removing2 (conn_id user : Uuid)
| Removing3 (user : Uuid)
| Finished.

Section threads.
Context {R : Type}.
Implicit Types (w : World R).

Definition thread_step (t : thread) w : thread * World R :=
  match t with
  | Adding1 c u j s => (Adding2 c u, add_step1 c u j s w)
  | Adding2 c u => (Finished, (add_step2 c u w).2)
  | Removing1 c => match remove_step1 c w with
                   | (Some conn, w') => (Removing2 c (user_id conn), w')
                   | (None, w') => (Finished, w')
                   end
  | Removing2 c u => match remove_step2 c u w with
                     | (true, w') => (Removing3 u, w')
                     | (false, w') => (Finished, w')
                     end
  | Removing3 u => (Finished, remove_step3 u w)
  | Finished => (Finished, w)
  end.

(** Runs the pool in the order the list of thread indices gives. *)
Fixpoint run_pool (order : list nat) (pool : list thread) w : list thread * World R :=
  match order with
  | [] => (pool, w)
  | i :: order =>
      match pool !! i with
      | None => run_pool order pool w
      | Some t => let '(t', w') := thread_step t w in run_pool order (<[i := t']> pool) w'
      end
  end.

(** Run one after the other, the steps are the operations. *)
Lemma remove_connection_steps c w :
  run_pool [0; 0; 0]%nat [Removing1 c] w = ([Finished], (remove_connection c w).2).
Proof.
  cbn. unfold remove_connection. cbn. destruct (connections w !! c) as [conn|]; cbn; [|done].
  destruct (remove_step2 c (user_id conn) (set_connections (delete c) w)) as [[] w2]; done.
Qed.

Lemma add_connection_steps c u j s w :
  run_pool [0; 0]%nat [Adding1 c u j s] w = ([Finished], (add_connection c u j s w).2).
Proof. done. Qed.
End threads.

(** One whole call, with a fresh id for a new connection. *)
Definition reg_op {R} (w w' : World R) : Prop :=
  (exists c u j s, connections w !! c = None /\ w' = (add_connection c u j s w).2) \/
  (exists c, w' = (remove_connection c w).2).

(** The registry is sound when its operations do not overlap: any sequence of
    whole [add_connection] calls with fresh ids and [remove_connection] calls
    keeps the connection table and the per-user index in agreement. *)
Theorem registry_sequential_coherent {R} (w w' : World R) :
  coherent w -> rtc reg_op w w' -> coherent w'.
Proof.
  intros Hw Hs. induction Hs as [|w1 w2 w3 Hop _ IH]; [done|]. apply IH.
  destruct Hop as [(c & u & j & s & Hf & ->)|(c & ->)].
  - by apply add_connection_coherent.
  - by apply remove_connection_coherent.
Qed.

(** Overlapping calls lose a connection.  A user's only connection [c1] goes
    away while the same user connects as [c2]: the removal sees its set empty,
    lets the entry go, the addition completes, and the removal then deletes
    the entry with the new connection in it.  Both calls return; [c2] is open
    but in no index, so messages to the user skip it and suspending the user
    does not close it. *)
Theorem overlapping_remove_and_add_lose_the_connection {R} (w : World R) c1 c2 u j s conn1 :
  coherent w -> connections w !! c1 = Some conn1 -> user_id conn1 = u ->
  user_connections w !! u = Some {[c1]} -> connections w !! c2 = None ->
  let '(pool, w') := run_pool [0; 0; 1; 1; 0]%nat [Removing1 c1; Adding1 c2 u j s] w in
  pool = [Finished; Finished] /\
  connections w' !! c2 = Some (new_connection u j s) /\
  user_connections w' !! u = None /\ ~ coherent w' /\
  (forall m, (send_to_user Everyone u m w').2 = w') /\
  (forall r, (disconnect_user u r w').2 = w').
Proof.
  intros Hw H1 Hu Hi H2. cbn. rewrite H1. cbn. rewrite Hu. unfold remove_step2. cbn. rewrite Hi.
  rewrite bool_decide_eq_true_2 by set_solver. cbn.
  assert (Hnone : forall m : gmap Uuid (gset Uuid), delete u m !! u = None) by (intros; apply lookup_delete_eq).
  split_and!.
  - done.
  - by rewrite lookup_insert_eq.
  - apply Hnone.
  - intros [Hc _]. destruct (Hc c2 (new_connection u j s)) as (s' & Hs' & _); cbn in *.
    + by rewrite lookup_insert_eq.
    + by rewrite Hnone in Hs'.
  - intros m. unfold send_to_user, gets, conns_of_user. unfold mbind, M_bind. cbn. by rewrite Hnone.
  - intros r. unfold disconnect_user, disconnect_user_except, gets, conns_of_user.
    unfold mbind, M_bind. cbn. by rewrite Hnone.
Qed.

(** A small world: user 7 on connection 1, subscribed to channel 30. *)
Module Sample.
Definition conn : Connection :=
  {| user_id := 7%N; token_jti := Some 70%N; sender := 100%N; subscribed_workspaces := {[20%N]};
     subscribed_channels := {[30%N]}; subscribed_huddles := ∅ |}.
Definition chan : Chan := {| buf := []; closed := false; sink := [] |}.
Definition rows : Db :=
  {| workspace_members := [(20%N, 7%N); (20%N, 8%N)]; channel_members := [(30%N, 7%N)];
     huddle_sessions := []; huddle_invites := []; manual_away := [] |}.
Definition world : World Store.store :=
  {| connections := {[1%N := conn]}; user_connections := {[7%N := {[1%N]}]}; sfu := None;
     chans := {[100%N := chan]}; db := rows; redis := Store.empty; now := 1000; rng := [];
     schedule := []; published := [] |}.

Lemma world_conn c x : connections world !! c = Some x -> c = 1%N /\ x = conn.
Proof. cbn. rewrite lookup_singleton_Some. naive_solver. Qed.

Lemma world_coherent : coherent world.
Proof.
  split.
  - intros c x (-> & ->)%world_conn. exists {[1%N]}. split; [reflexivity|set_solver].
  - intros u s. cbn. rewrite lookup_singleton_Some. intros (<- & <-). split; [set_solver|].
    intros c ->%elem_of_singleton. exists conn. split; reflexivity.
Qed.

Lemma world_senders : distinct_senders world.
Proof. intros c d x y (-> & ->)%world_conn (-> & ->)%world_conn. done. Qed.
End Sample.

Lemma registry_sequential_coherent_witness :
  coherent (remove_connection 1%N Sample.world).2.
Proof.
  apply (registry_sequential_coherent Sample.world); [apply Sample.world_coherent|].
  apply rtc_once. right. exists 1%N. reflexivity.
Defined.

Lemma overlapping_remove_and_add_lose_the_connection_witness :
  user_connections (run_pool [0; 0; 1; 1; 0]%nat
    [Removing1 1%N; Adding1 2%N 7%N None 101%N] Sample.world).2 !! 7%N = None.
Proof.
  pose proof (overlapping_remove_and_add_lose_the_connection Sample.world 1%N 2%N 7%N None 101%N Sample.conn
    Sample.world_coherent eq_refl eq_refl eq_refl eq_refl) as H.
  destruct (run_pool _ _ _) as [pool w']. apply H.
Defined.

(** C32: a message to a channel reaches exactly the connections subscribed to it
    that the audience includes: each of them has it queued once, at the end of
    its writer channel, and stays connected; one whose channel is full or
    closed is dropped with its channel as it was; every other connection keeps
    its registration and its channel. *)
Theorem broadcast_to_channel_reaches {R} (w : World R) a ch m d conn :
  distinct_senders w -> connections w !! d = Some conn ->
  let w' := (broadcast_to_channel a ch m w).2 in
  if includes a d && bool_decide (ch ∈ subscribed_channels conn) then
    match chans w !! sender conn with
    | Some q =>
        if negb (closed q) && (length (buf q) <? WRITER_CHANNEL_CAP)%nat then
          connections w' !! d = Some conn /\
          chans w' !! sender conn = Some {| buf := buf q ++ [Text m]; closed := false; sink := sink q |}
        else connections w' !! d = None /\ chans w' !! sender conn = Some q
    | None => connections w' !! d = None
    end
  else connections w' !! d = Some conn /\ chans w' !! sender conn = chans w !! sender conn.
Proof.
  intros Hs Hd w'. subst w'. unfold broadcast_to_channel.
  pose proof (fan_out_reaches a m (fun c => bool_decide (ch ∈ subscribed_channels c)) w d conn Hs Hd) as H.
  cbv beta in H. destruct (includes a d && bool_decide (ch ∈ subscribed_channels conn)); [|exact H].
  unfold delivered, accepts, chan_try_send in H.
  destruct (chans w !! sender conn) as [q|]; [|by destruct H].
  cbn [mbind option_bind] in H.
  destruct (closed q); [exact H|]. cbn [negb andb].
  rewrite Nat.leb_antisym in H.
  destruct (length (buf q) <? WRITER_CHANNEL_CAP)%nat; exact H.
Qed.

Lemma broadcast_to_channel_reaches_witness :
  chans (broadcast_to_channel Everyone 30%N ($"hi") Sample.world).2 !! 100%N =
    Some {| buf := [Text ($"hi")]; closed := false; sink := [] |}.
Proof.
  exact (proj2 (broadcast_to_channel_reaches Sample.world Everyone 30%N ($"hi") 1%N Sample.conn
    Sample.world_senders eq_refl)).
Defined.

(** ** The life of a writer channel *)

Inductive chan_op := Send (m : Message) | Write (send_ok : bool).

Definition is_close (m : Message) : bool := match m with Close _ _ => true | _ => false end.

(** The channel after an operation, and the messages it has accepted so far. *)
Definition chan_apply (op : chan_op) (s : Chan * list Message) : Chan * list Message :=
  let '(c, accepted) := s in
  match op with
  | Send m => match chan_try_send m c with Ok c' => (c', accepted ++ [m]) | Err _ => s end
  | Write ok => (writer_step ok c, accepted)
  end.

Definition open_chan : Chan := {| buf := []; closed := false; sink := [] |}.

Definition chan_inv (s : Chan * list Message) : Prop :=
  let '(c, accepted) := s in
  (length (buf c) <= WRITER_CHANNEL_CAP)%nat /\
  (closed c = false -> accepted = sink c ++ buf c /\ Forall (fun m => is_close m = false) (sink c)) /\
  (closed c = true -> sink c `prefix_of` accepted) /\
  Forall (fun m => is_close m = false) (take (length (sink c) - 1) (sink c)).

Lemma chan_apply_inv op s : chan_inv s -> chan_inv (chan_apply op s).
Proof.
  destruct s as [c acc]. intros (Hl & Ho & Hc & Hk). destruct op as [m|ok]; cbn [chan_apply].
  - destruct (chan_try_send m c) as [c'|] eqn:E; [|done].
    pose proof (chan_try_send_bounded _ _ _ Hl E) as Hl'.
    unfold chan_try_send in E. destruct (closed c) eqn:Ec; [done|]. case_match; [done|].
    injection E as <-. destruct (Ho eq_refl) as [-> Hs]. split_and!; [done| |done|done].
    intros _. cbn. by rewrite app_assoc.
  - unfold writer_step. destruct (closed c) eqn:Ec; [by split_and!; rewrite ?Ec|].
    destruct (Ho eq_refl) as [-> Hs]. destruct (buf c) as [|m rest] eqn:Eb.
    { split_and!; rewrite ?Eb, ?Ec; try done. }
    destruct ok; cbn.
    + assert (Htake : take (length (sink c ++ [m]) - 1) (sink c ++ [m]) = sink c).
      { rewrite length_app. cbn. rewrite Nat.add_sub. by rewrite take_app_length. }
      split_and!.
      * cbn in *. lia.
      * intros Hm. rewrite <-app_assoc. split; [done|]. apply Forall_app. split; [done|].
        constructor; [by destruct m|constructor].
      * intros _. cbn. exists rest. by rewrite <-app_assoc.
      * cbn [sink]. by rewrite Htake.
    + split_and!; cbn in *; [lia|done| |done]. intros _. by apply prefix_app_r.
Qed.

(** Whatever the gateway sends and whenever the writer runs or fails, what has
    reached the socket is a prefix of what the channel accepted, in order;
    nothing follows a close frame; at most [WRITER_CHANNEL_CAP] messages wait;
    and while the channel is open nothing accepted is lost. *)
Theorem writer_channel_fifo (ops : list chan_op) :
  let '(c, accepted) := foldl (fun s op => chan_apply op s) (open_chan, []) ops in
  sink c `prefix_of` accepted /\
  (closed c = false -> accepted = sink c ++ buf c) /\
  (length (buf c) <= WRITER_CHANNEL_CAP)%nat /\
  (forall i code reason, sink c !! i = Some (Close code reason) -> S i = length (sink c)).
Proof.
  assert (Hinv : forall s, chan_inv s -> chan_inv (foldl (fun s op => chan_apply op s) s ops)).
  { induction ops as [|op ops IH]; intros s Hs; [done|]. apply IH, chan_apply_inv, Hs. }
  specialize (Hinv (open_chan, [])). destruct (foldl _ _ _) as [c acc].
  destruct Hinv as (Hl & Ho & Hc & Hk).
  { split_and!; cbn; try done; try lia. }
  split_and!; [|intros E; by apply Ho|done|].
  - destruct (closed c) eqn:E; [by apply Hc|]. destruct (Ho eq_refl) as [-> _]. by apply prefix_app_r.
  - intros i code reason Hi. pose proof (lookup_lt_Some _ _ _ Hi) as Hlt.
    destruct (decide (S i = length (sink c))) as [|Hne]; [done|exfalso].
    rewrite Forall_lookup in Hk. specialize (Hk i (Close code reason)).
    rewrite lookup_take_lt in Hk by lia. by specialize (Hk Hi).
Qed.

(** ** Revocation fails closed *)

Section revocation.
Context {R : Type} `{Redis R} `{UuidText} `{RevocationSerde}.

(** What one answered lookup decides. *)
Definition judge (claims : Claims) (payload : option str) : RevocationState :=
  match payload with
  | None => Valid
  | Some p => match revocation_from_str p with
              | Some record => if covers record claims then Revoked else Valid
              | None => Revoked
              end
  end.

Definition revocation_key (claims : Claims) : str := $"revoked:" ++ uuid_to_string (sub claims).

Lemma revocation_attempt n claims (w : World R) :
  (revocation_attempts (S n) claims w).1 =
    match take_tick w with
    | (d, r, None, s) => judge claims (redis_get (revocation_key claims) r)
    | (d, r, Some _, s) => (revocation_attempts n claims (set_outside d r (rng w) s (published w) w)).1
    end.
Proof.
  cbn [revocation_attempts]. unfold redis_read, redis_call, revocation_key.
  unfold mbind, M_bind, mret, M_ret.
  destruct (take_tick w) as [[[d r] [[]|]] s]; cbn; [done..|].
  destruct (redis_get _ r) as [p|]; cbn; [|done]. by destruct (revocation_from_str p).
Qed.
End revocation.

(** C34: a socket is admitted ([Valid]) only on the word of Redis: one of the two
    lookups was answered, and the answer was either no revocation or a record
    that parses and does not cover the token.  When both fail the state is
    [Unknown], and a record that does not parse is [Revoked]. *)
Theorem revocation_fails_closed {R} `{Redis R} `{UuidText} `{RevocationSerde} claims (w : World R) t1 t2 s :
  schedule w = t1 :: t2 :: s ->
  let r1 := tick_redis t1 (redis w) in
  let r2 := tick_redis t2 r1 in
  let key := revocation_key claims in
  (revocation_state claims w).1 =
    match tick_fault t1, tick_fault t2 with
    | None, _ => judge claims (redis_get key r1)
    | Some _, None => judge claims (redis_get key r2)
    | Some _, Some _ => Unknown
    end /\
  (forall p, judge claims (Some p) = Valid ->
     exists record, revocation_from_str p = Some record /\
       (at_ record < iat claims \/ exists j, except_jti record = Some j /\ jti claims = Some j)).
Proof.
  intros Hs r1 r2 key. split.
  - unfold revocation_state, REVOCATION_RETRIES. rewrite revocation_attempt.
    unfold take_tick. rewrite Hs. destruct (tick_fault t1); [|done].
    rewrite revocation_attempt. unfold take_tick. cbn. by destruct (tick_fault t2).
  - intros p. unfold judge. destruct (revocation_from_str p) as [record|]; [|done].
    unfold covers. destruct (Z.ltb_spec (at_ record) (iat claims)); [by eauto|].
    destruct (except_jti record) as [e|] eqn:Ee, (jti claims) as [j|]; cbn; try done.
    case_bool_decide as E; cbn; [|done]. intros _. exists record. split; [done|].
    right. exists e. by rewrite Ee, E.
Qed.

(** A user revoked at second 500 and a token issued before it. *)
Lemma revocation_fails_closed_witness :
  let U := {| uuid_parse := fun _ => None; uuid_to_string := fun _ => $"7" |} in
  let S := {| revocation_from_str := fun _ => Some {| at_ := 500; except_jti := None |} |} in
  let claims := {| sub := 7%N; exp := 900; iat := 400; jti := None |} in
  let down := {| tick_db := fun d => d; tick_redis := fun r : Store.store => r; tick_fault := Some Refused |} in
  let up := {| tick_db := fun d => d; tick_redis := set_ex ($"revoked:7") ($"{}") 60; tick_fault := None |} in
  let w := set_outside Sample.rows Store.empty [] [down; up] [] Sample.world in
  (@revocation_state _ Store.redis U S claims w).1 = Revoked.
Proof.
  intros U S claims down up w.
  rewrite (proj1 (@revocation_fails_closed _ Store.redis U S claims w down up [] eq_refl)).
  vm_compute. reflexivity.
Defined.
