(* ===== verification/Presence.v ===== *)
(** * Presence ([backend/realtime/src/connection_manager.rs], lines 471 to 800)

    Who is online: a sorted set per workspace scored by when an entry goes
    stale, the last activity of a user, and the status last announced. *)

From stdpp Require Import base tactics option list gmap.
From Stdlib Require Import ZArith Lia String Ascii.
From S2P Require Import Prelude RustStr Json Frames Redis GatewayState ConnectionManager.

Definition PRESENCE_TTL_SECS : Z := 60.
Definition ACTIVE_TTL_SECS : Z := 60.
Definition AWAY_AFTER_IDLE_SECS : Z := 8 * 60.
Definition LAST_ACTIVE_TTL_SECS : Z := 7 * 24 * 3600.
Definition PRESENCE_STATUS_TTL_SECS : Z := 24 * 3600.

(** An integer as the Redis client writes it. *)
Class RedisArgs := { i64_to_string : Z -> str }.

Section presence.
Context {R : Type} `{Redis R} `{UuidText} `{JsonText} `{RedisArgs}.
Implicit Types (w : World R).

Definition now_secs : M R Z := gets now.

(** [publish_event]: the envelope of an event that is not in a stream. *)
Definition publish_event (redis_channel event_type : str) (payload : json) : M R unit :=
  let envelope := JObject [($"event_type", JString event_type); ($"payload", payload)] in
  _ ← redis_publish redis_channel (json_to_string envelope);
  mret tt.

Definition presence_key (workspace_id : Uuid) : str :=
  $"presence:ws:" ++ uuid_to_string workspace_id.
Definition last_active_key (user : Uuid) : str := $"last_active:user:" ++ uuid_to_string user.
Definition presence_status_key (user : Uuid) : str := $"presence:status:" ++ uuid_to_string user.
Definition active_key (user : Uuid) : str := $"active:user:" ++ uuid_to_string user.

(** A pipeline: one round trip that runs a command per element. *)
Definition pipeline {A} (cmd : A -> R -> R) (l : list A) : R -> R :=
  fun r => foldl (fun r x => cmd x r) r l.

Definition presence_set_online (user : Uuid) (workspace_ids : list Uuid) : M R unit :=
  if bool_decide (workspace_ids = []) then mret tt
  else
    at_ ← now_secs;
    let expires_at := at_ + PRESENCE_TTL_SECS in
    _ ← redis_write (pipeline
          (fun ws => zadd (presence_key ws) (uuid_to_string user) expires_at) workspace_ids);
    mret tt.

Definition activity_set (user conn_id : Uuid) (active : bool) : M R unit :=
  let key := active_key user in
  at_ ← now_secs;
  _ ← redis_write (fun r =>
        if active then
          set_ex (last_active_key user) (i64_to_string at_) LAST_ACTIVE_TTL_SECS
            (expire key ACTIVE_TTL_SECS
               (hset key (uuid_to_string conn_id) (at_ + ACTIVE_TTL_SECS) r))
        else hdel key (uuid_to_string conn_id) r);
  mret tt.

Definition presence_arrived (user : Uuid) : M R unit :=
  at_ ← now_secs;
  _ ← redis_write (set_nx_ex (last_active_key user) (i64_to_string at_) LAST_ACTIVE_TTL_SECS);
  mret tt.

(** Online unless away on purpose or idle; no recorded activity counts as idle. *)
Definition presence_of (away_on_purpose : list Uuid) (idle_before : Z)
    (p : Uuid * option Z) : Uuid * Presence :=
  let '(id, last) := p in
  let idle := match last with None => true | Some at_ => at_ <=? idle_before end in
  (id, if bool_decide (id ∈ away_on_purpose) || idle then Away else Online).

Definition presence_of_connected (user_ids : list Uuid) : M R (list (Uuid * Presence)) :=
  if bool_decide (user_ids = []) then mret []
  else
    away ← db_query (fun d => filter (fun u => u ∈ user_ids) (manual_away d));
    let away_on_purpose := match away with Ok ids => ids | Err _ => [] end in
    values ← redis_read (mget_i64 (last_active_key <$> user_ids));
    let last_active := match values with
                       | Ok (Some values) => values
                       | _ => (fun _ => None) <$> user_ids
                       end in
    at_ ← now_secs;
    let idle_before := at_ - AWAY_AFTER_IDLE_SECS in
    mret (presence_of away_on_purpose idle_before <$> zip user_ids last_active).

Definition publish_presence (user : Uuid) (status : Presence) : M R unit :=
  workspace_ids ← user_workspace_ids user;
  publish_event ($"events:presence") ($"presence.changed")
    (JObject [($"user_id", JString (uuid_to_string user));
              ($"status", JString (presence_as_str status));
              ($"workspace_ids", JArray ((fun u => JString (uuid_to_string u)) <$> workspace_ids))]).

(** Records the status and announces it if it is not the one recorded. *)
Definition presence_settle (user : Uuid) (presence : Presence) : M R bool :=
  previous ← redis_call (fun r =>
    (set_ex (presence_status_key user) (presence_as_str presence) PRESENCE_STATUS_TTL_SECS r,
     redis_get (presence_status_key user) r));
  let changed := match previous with
                 | Ok previous => negb (bool_decide ((previous ≫= presence_parse) = Some presence))
                 | Err _ => true
                 end in
  _ ← (if changed then publish_presence user presence else mret tt);
  mret changed.

Definition presence_sync (user : Uuid) : M R unit :=
  statuses ← presence_of_connected [user];
  let presence := match statuses with (_, p) :: _ => p | [] => Online end in
  _ ← presence_settle user presence;
  mret tt.

Definition presence_refresh (user : Uuid) (workspace_ids : list Uuid) : M R unit :=
  presence_set_online user workspace_ids.

Definition presence_clear (user : Uuid) (workspace_ids : list Uuid) : M R bool :=
  if bool_decide (workspace_ids = []) then mret true
  else
    cleared ← redis_write (pipeline
      (fun ws => zrem (presence_key ws) (uuid_to_string user)) workspace_ids);
    mret (match cleared with Ok _ => true | Err _ => false end).

Definition online_users_in_workspace (workspace_id : Uuid) : M R (list Uuid) :=
  at_ ← now_secs;
  let key := presence_key workspace_id in
  raw ← redis_call (fun r =>
    let r' := zremrangebyscore key at_ r in (r', zrangebyscore key at_ r'));
  mret (match raw with Ok raw => omap uuid_parse raw | Err _ => [] end).

Definition presence_leave_workspace (user workspace_id : Uuid) : M R unit :=
  _ ← redis_write (zrem (presence_key workspace_id) (uuid_to_string user));
  mret tt.

Definition publish_typing (channel_id user : Uuid) (is_typing : bool) : M R unit :=
  publish_event ($"events:typing") ($"typing.indicator")
    (JObject [($"channel_id", JString (uuid_to_string channel_id));
              ($"user_id", JString (uuid_to_string user));
              ($"is_typing", JBool is_typing)]).

(** ** None of this touches the process *)

Section outside.
Context (Rel : relation (World R)) `{!Internal Rel}.

Lemma respects_publish_event c t p : respects Rel (publish_event c t p).
Proof. unfold publish_event. solve_respects. Qed.
Lemma respects_presence_set_online u ws : respects Rel (presence_set_online u ws).
Proof. unfold presence_set_online, now_secs. solve_respects. Qed.
Lemma respects_activity_set u c a : respects Rel (activity_set u c a).
Proof. unfold activity_set, now_secs. solve_respects. Qed.
Lemma respects_presence_arrived u : respects Rel (presence_arrived u).
Proof. unfold presence_arrived, now_secs. solve_respects. Qed.
Lemma respects_presence_of_connected us : respects Rel (presence_of_connected us).
Proof. unfold presence_of_connected, now_secs. solve_respects. Qed.
Lemma respects_user_workspace_ids u : respects Rel (user_workspace_ids u).
Proof. unfold user_workspace_ids. solve_respects. Qed.
Hint Resolve respects_publish_event respects_presence_of_connected
  respects_user_workspace_ids : respects.
Lemma respects_publish_presence u p : respects Rel (publish_presence u p).
Proof. unfold publish_presence. solve_respects. Qed.
Hint Resolve respects_publish_presence : respects.
Lemma respects_presence_settle u p : respects Rel (presence_settle u p).
Proof. unfold presence_settle. solve_respects. Qed.
Hint Resolve respects_presence_settle : respects.
Lemma respects_presence_sync u : respects Rel (presence_sync u).
Proof. unfold presence_sync. solve_respects. Qed.
Lemma respects_presence_clear u ws : respects Rel (presence_clear u ws).
Proof. unfold presence_clear. solve_respects. Qed.
Lemma respects_online_users ws : respects Rel (online_users_in_workspace ws).
Proof. unfold online_users_in_workspace, now_secs. solve_respects. Qed.
Lemma respects_presence_leave u ws : respects Rel (presence_leave_workspace u ws).
Proof. unfold presence_leave_workspace. solve_respects. Qed.
Lemma respects_publish_typing c u b : respects Rel (publish_typing c u b).
Proof. unfold publish_typing. solve_respects. Qed.
End outside.
End presence.

#[export] Hint Resolve respects_publish_event respects_presence_set_online respects_activity_set
  respects_presence_arrived respects_presence_of_connected respects_user_workspace_ids
  respects_publish_presence respects_presence_settle respects_presence_sync
  respects_presence_clear respects_online_users respects_presence_leave
  respects_publish_typing : respects.

(** Presence is announced when it changes and only then.  With Redis and the
    database answering, settling a status publishes one [presence.changed] to
    [events:presence] unless that very status is the one on record, and settling
    the same status again publishes nothing. *)
Theorem presence_settle_announces_changes {R} `{RedisLaws R} `{UuidText} `{JsonText}
    (u : Uuid) (p : Presence) (w : World R) :
  schedule w = [] ->
  let same := bool_decide ((redis_get (presence_status_key u) (redis w) ≫= presence_parse) = Some p) in
  let '(changed, w') := presence_settle u p w in
  changed = negb same /\
  (if same then published w' = published w
   else exists body, published w' = published w ++ [($"events:presence", body)]) /\
  (let '(changed2, w2) := presence_settle u p w' in
   changed2 = false /\ published w2 = published w').
Proof.
  intros Hs. cbn zeta.
  assert (Hset : forall v : World R, schedule v = [] ->
    let same := bool_decide ((redis_get (presence_status_key u) (redis v) ≫= presence_parse) = Some p) in
    (presence_settle u p v).1 = negb same /\ schedule (presence_settle u p v).2 = [] /\
    redis_get (presence_status_key u) (redis (presence_settle u p v).2) = Some (presence_as_str p) /\
    (if same then published (presence_settle u p v).2 = published v
     else exists body, published (presence_settle u p v).2 = published v ++ [($"events:presence", body)])).
  { intros v Hv. unfold presence_settle, redis_call, mbind, M_bind.
    rewrite (take_tick_nil v Hv). cbn. case_bool_decide as E; cbn.
    - split_and!; try done. apply redis_get_set_ex.
    - unfold publish_presence, user_workspace_ids, db_query, publish_event, redis_publish.
      unfold mbind, M_bind, mret, M_ret. cbn.
      split_and!; try done; [apply redis_get_set_ex|by eexists]. }
  pose proof (Hset w Hs) as (Hc & Hs' & Hg & Hp).
  destruct (presence_settle u p w) as [c w']. cbn [fst snd] in *.
  pose proof (Hset w' Hs') as (Hc2 & _ & _ & Hp2). rewrite Hg in Hc2, Hp2. cbn in Hc2, Hp2.
  rewrite presence_parse_as_str, bool_decide_eq_true_2 in Hc2, Hp2 by done.
  destruct (presence_settle u p w') as [c2 w2]. done.
Qed.

Lemma presence_settle_announces_changes_witness :
  let U := {| uuid_parse := fun _ => None; uuid_to_string := fun _ => $"7" |} in
  let J := {| json_from_str := fun _ => None; json_to_string := fun _ => $"{}" |} in
  let settle := @presence_settle _ Store.redis U J 7%N Away in
  let w1 := (settle Sample.world).2 in
  published w1 = [($"events:presence", $"{}")] /\ published (settle w1).2 = published w1.
Proof.
  intros U J settle w1. split; [vm_compute; reflexivity|].
  pose proof (@presence_settle_announces_changes _ _ Store.redis_laws U J 7%N Away Sample.world eq_refl) as H.
  unfold w1, settle. destruct (presence_settle 7%N Away Sample.world) as [c w'].
  destruct H as (_ & _ & H). cbn [snd].
  destruct (presence_settle 7%N Away w') as [c2 w2]. apply H.
Defined.
