(* ===== verification/Huddle.v ===== *)
(** * Huddles ([backend/realtime/src/connection_manager.rs], lines 798 to 980)

    Who is in a call is a Redis set per huddle; whether it runs on the media
    server is a key beside it.  Joining is one Lua script, so that counting the
    members and adding one cannot interleave with another gateway's join. *)

From stdpp Require Import base tactics option list gmap.
From Stdlib Require Import ZArith Lia String Ascii.
From S2P Require Import Prelude RustStr Json Frames Redis GatewayState ConnectionManager Presence.

Definition HUDDLE_TTL_SECS : Z := 120.
Definition HUDDLE_MAX_PARTICIPANTS : Z := 8.

Inductive HuddleJoin :=
| HuddleFull (limit : Z)
| HuddleJoined (transport : HuddleTransport) (promoted : bool).

(** [n as i64] for a [usize]. *)
Definition usize_as_i64 (n : Z) : Z := if n <=? I64_MAX then n else n - 2 ^ 64.

Section huddle.
Context {R : Type} `{Redis R} `{UuidText} `{JsonText} `{EventSerde}.
Implicit Types (w : World R) (r : R).

Definition huddle_members_key (huddle : Uuid) : str :=
  $"huddle:" ++ uuid_to_string huddle ++ $":members".
Definition huddle_transport_key (huddle : Uuid) : str :=
  $"huddle:" ++ uuid_to_string huddle ++ $":transport".

(** The Lua script of [huddle_redis_try_join], its keys and arguments named. *)
Definition try_join_script (members transport user : str)
    (mesh_limit ttl sfu_limit threshold : Z) (r : R) : R * Z :=
  let on_sfu := key_exists transport r in
  let limit := if on_sfu then sfu_limit else mesh_limit in
  if negb (sismember members user r) && (limit <=? scard members r) then (r, - limit)
  else
    let r := sadd members user r in
    let r := expire members ttl r in
    if on_sfu then (expire transport ttl r, 2)
    else if (0 <=? threshold) && (threshold <? scard members r) then
      (set_ex transport ($"sfu") ttl r, 3)
    else (r, 1).

(** The script's arguments, from the configuration. *)
Definition sfu_args (s : option HuddleSfu) : Z * Z :=
  match s with
  | Some s => (usize_as_i64 (threshold s), max_participants s)
  | None => (-1, HUDDLE_MAX_PARTICIPANTS)
  end.

(** How the reply is read. *)
Definition read_join (joined : result fault Z) : HuddleJoin :=
  match joined with
  | Ok code =>
      if code <? 0 then HuddleFull (Z.abs code)
      else if code =? 2 then HuddleJoined Sfu false
      else if code =? 3 then HuddleJoined Sfu true
      else HuddleJoined Mesh false
  | Err _ => HuddleJoined Mesh false
  end.

Definition huddle_redis_try_join (huddle user : Uuid) : M R HuddleJoin :=
  s ← gets sfu;
  let '(threshold, sfu_limit) := sfu_args s in
  joined ← redis_call (try_join_script (huddle_members_key huddle) (huddle_transport_key huddle)
    (uuid_to_string user) HUDDLE_MAX_PARTICIPANTS HUDDLE_TTL_SECS sfu_limit threshold);
  mret (read_join joined).

Definition huddle_redis_join (huddle user : Uuid) : M R unit :=
  let key := huddle_members_key huddle in
  _ ← redis_write (sadd key (uuid_to_string user));
  _ ← redis_write (expire key HUDDLE_TTL_SECS);
  _ ← redis_write (expire (huddle_transport_key huddle) HUDDLE_TTL_SECS);
  mret tt.

Definition huddle_redis_leave (huddle user : Uuid) : M R bool :=
  removed ← redis_call (srem (huddle_members_key huddle) (uuid_to_string user));
  mret (match removed with Ok removed => 0 <? removed | Err _ => true end).

Definition huddle_redis_is_member (huddle user : Uuid) : M R bool :=
  res ← redis_read (sismember (huddle_members_key huddle) (uuid_to_string user));
  mret (match res with Ok b => b | Err _ => false end).

Definition huddle_redis_members (huddle : Uuid) : M R (list Uuid) :=
  res ← redis_read (smembers (huddle_members_key huddle));
  mret (match res with Ok v => omap uuid_parse v | Err _ => [] end).

Definition huddle_redis_refresh_conn (conn_id user : Uuid) : M R unit :=
  huddles ← huddle_ids_for_conn conn_id;
  for_each huddles (fun huddle => huddle_redis_join huddle user).

(** ** Announcing *)

Definition huddle_workspace_id (payload : json) : M R (option Uuid) :=
  match get_uuid ($"huddle_id") payload with
  | None => mret None
  | Some huddle =>
      found ← db_query (fun d =>
        huddle_workspace <$> find (fun h => bool_decide (huddle_id h = huddle)) (huddle_sessions d));
      mret (match found with Ok id => id | Err _ => None end)
  end.

Definition append_to_stream (workspace_id : Uuid) (ty : str) (payload : json) : M R unit :=
  id ← new_v4;
  at_ ← gets now;
  let event := {| event_id := id; event_type := ty; payload := payload;
                  timestamp := at_; stream_id := None |} in
  let body := event_to_string event in
  let key := workspace_stream workspace_id in
  _ ← redis_write (sadd STREAM_INDEX_KEY key);
  _ ← redis_call (xadd key STREAM_MAXLEN body);
  mret tt.

Definition publish_huddle (ty : str) (payload : json) : M R unit :=
  let membership := str_eqb ty ($"huddle.member_joined") || str_eqb ty ($"huddle.member_left") in
  let channel := if membership then $"events:huddle" else $"events:huddle-signal" in
  _ ← (if membership then
         workspace ← huddle_workspace_id payload;
         match workspace with
         | Some workspace_id => append_to_stream workspace_id ty payload
         | None => mret tt
         end
       else mret tt);
  publish_event channel ty payload.

(** ** None of this touches the process *)

Section outside.
Context (Rel : relation (World R)) `{!Internal Rel}.

Lemma respects_try_join h u : respects Rel (huddle_redis_try_join h u).
Proof. unfold huddle_redis_try_join. solve_respects. Qed.
Lemma respects_huddle_join h u : respects Rel (huddle_redis_join h u).
Proof. unfold huddle_redis_join. solve_respects. Qed.
Lemma respects_huddle_leave h u : respects Rel (huddle_redis_leave h u).
Proof. unfold huddle_redis_leave. solve_respects. Qed.
Lemma respects_huddle_is_member h u : respects Rel (huddle_redis_is_member h u).
Proof. unfold huddle_redis_is_member. solve_respects. Qed.
Lemma respects_huddle_members h : respects Rel (huddle_redis_members h).
Proof. unfold huddle_redis_members. solve_respects. Qed.
Hint Resolve respects_huddle_join : respects.
Lemma respects_huddle_refresh c u : respects Rel (huddle_redis_refresh_conn c u).
Proof. unfold huddle_redis_refresh_conn, huddle_ids_for_conn. solve_respects. Qed.
Lemma respects_publish_huddle t p : respects Rel (publish_huddle t p).
Proof. unfold publish_huddle, huddle_workspace_id, append_to_stream. solve_respects. Qed.
End outside.
End huddle.

#[export] Hint Resolve respects_try_join respects_huddle_join respects_huddle_leave
  respects_huddle_is_member respects_huddle_members respects_huddle_refresh
  respects_publish_huddle : respects.

#[global] Arguments try_join_script : simpl never.
#[global] Arguments huddle_members_key : simpl never.
#[global] Arguments huddle_transport_key : simpl never.

(** ** The join script *)

Section script.
Context {R : Type} `{RedisLaws R}.
Context (members transport user : str) (Hkeys : members <> transport).
Context (mesh_limit ttl sfu_limit threshold : Z) (Httl : 0 < ttl).

Let limit (r : R) : Z := if key_exists transport r then sfu_limit else mesh_limit.
Let run := try_join_script members transport user mesh_limit ttl sfu_limit threshold.

(** The set once the member is in: whatever the script does to lifetimes and
    to the transport key leaves it alone. *)
Lemma script_members r :
  smembers members (expire members ttl (sadd members user r)) = smembers members (sadd members user r).
Proof. by apply smembers_expire. Qed.

Lemma script_refuses r :
  negb (sismember members user r) && (limit r <=? scard members r) = true ->
  run r = (r, - limit r).
Proof. unfold run, try_join_script, limit. by intros ->. Qed.

(** What every accepting branch leaves: the member set with the user in it, a
    reply of 1, 2 or 3, and a transport key exactly when the reply says so. *)
Lemma script_accepts r :
  negb (sismember members user r) && (limit r <=? scard members r) = false ->
  let '(r', code) := run r in
  smembers members r' = smembers members (sadd members user r) /\
  (code = 1 /\ key_exists transport r' = false /\ key_exists transport r = false \/
   code = 2 /\ key_exists transport r' = true /\ key_exists transport r = true \/
   code = 3 /\ key_exists transport r' = true /\ key_exists transport r = false).
Proof.
  unfold run, try_join_script, limit. intros ->.
  assert (Ht : key_exists transport (expire members ttl (sadd members user r)) = key_exists transport r)
    by (rewrite key_exists_expire, key_exists_sadd_ne; done).
  destruct (key_exists transport r) eqn:E.
  - rewrite smembers_expire, script_members, key_exists_expire, Ht by done. split; [done|]. right; left; done.
  - destruct (_ && _).
    + rewrite smembers_set_ex, script_members, key_exists_set_ex by done. split; [done|]. right; right; done.
    + rewrite script_members, Ht. split; [done|]. by left.
Qed.

Lemma script_count r :
  negb (sismember members user r) && (limit r <=? scard members r) = false ->
  scard members (sadd members user r) <= Z.max (scard members r) (limit r).
Proof.
  intros E. apply andb_false_iff in E as [E|E]; bool_hyps.
  - rewrite scard_sadd_old; [lia|]. by apply sismember_spec.
  - destruct (decide (user ∈ smembers members r)); [rewrite scard_sadd_old by done|rewrite scard_sadd_new by done]; lia.
Qed.
End script.

Lemma huddle_keys_differ `{UuidText} h : huddle_members_key h <> huddle_transport_key h.
Proof. unfold huddle_members_key, huddle_transport_key. intros E%app_inv_head%app_inv_head. done. Qed.

(** The limit in force for a huddle, from the store the script runs on. *)
Definition huddle_limit {R} `{Redis R} `{UuidText} (s : option HuddleSfu) (huddle : Uuid) (r : R) : Z :=
  if key_exists (huddle_transport_key huddle) r then (sfu_args s).2 else HUDDLE_MAX_PARTICIPANTS.

(** A huddle never grows past its limit.  When Redis answers, whatever other
    gateways did before, a join is refused exactly to a newcomer of a full
    huddle, with the store untouched; otherwise the user is a member, the
    others are who they were, the count is at most the limit (or what it
    already was), and the transport answered is the one on record afterwards,
    [promoted] saying that this join moved the huddle. *)
Theorem huddle_join_respects_limit {R} `{RedisLaws R} `{UuidText} h u t s (w : World R) :
  schedule w = t :: s -> tick_fault t = None ->
  let r := tick_redis t (redis w) in
  let key := huddle_members_key h in
  let me := uuid_to_string u in
  let limit := huddle_limit (sfu w) h r in
  0 < limit ->
  let '(res, w') := huddle_redis_try_join h u w in
  match res with
  | HuddleFull l =>
      l = limit /\ redis w' = r /\ ~ (me ∈ smembers key r) /\ limit <= scard key r
  | HuddleJoined transport promoted =>
      (me ∈ smembers key r \/ scard key r < limit) /\
      (forall x, x ∈ smembers key (redis w') <-> x = me \/ x ∈ smembers key r) /\
      scard key (redis w') <= Z.max (scard key r) limit /\
      (transport = Sfu <-> key_exists (huddle_transport_key h) (redis w') = true) /\
      (promoted = true <-> (transport = Sfu /\ key_exists (huddle_transport_key h) r = false))
  end.
Proof.
  intros Hs Hf r key me limit Hpos.
  unfold huddle_redis_try_join, gets, redis_call, take_tick. unfold mbind, M_bind.
  destruct (sfu_args (sfu w)) as [th sl] eqn:Ea. cbn. rewrite Hs, Hf. cbn. fold r key me.
  set (run := try_join_script key (huddle_transport_key h) me HUDDLE_MAX_PARTICIPANTS HUDDLE_TTL_SECS sl th).
  assert (El : limit = (if key_exists (huddle_transport_key h) r then sl else HUDDLE_MAX_PARTICIPANTS))
    by (unfold limit, huddle_limit; by rewrite Ea).
  destruct (negb (sismember key me r) && (limit <=? scard key r)) eqn:E.
  - pose proof (script_refuses key (huddle_transport_key h) me HUDDLE_MAX_PARTICIPANTS HUDDLE_TTL_SECS sl th r) as Hr.
    cbv zeta beta in Hr. rewrite <-El in Hr. unfold run. rewrite (Hr E). cbn.
    rewrite (proj2 (Z.ltb_lt _ _)) by lia.
    apply andb_true_iff in E as [E1 E2]. apply negb_true_iff in E1. apply Z.leb_le in E2.
    split_and!; [lia|done| |done]. intros Hin%sismember_spec. congruence.
  - pose proof (script_accepts key (huddle_transport_key h) me (huddle_keys_differ h)
      HUDDLE_MAX_PARTICIPANTS HUDDLE_TTL_SECS sl th eq_refl r) as Hr.
    pose proof (script_count key (huddle_transport_key h) me HUDDLE_MAX_PARTICIPANTS sl r) as Hc.
    cbv zeta beta in Hr, Hc. rewrite <-El in Hr, Hc. specialize (Hr E). specialize (Hc E). fold run in Hr.
    destruct (run r) as [r' code]. destruct Hr as [Hm Hcode]. cbn.
    assert (Hin : me ∈ smembers key r \/ scard key r < limit).
    { apply andb_false_iff in E as [E|E]; bool_hyps; [left; by apply sismember_spec|by right]. }
    assert (Hset : (forall x, x ∈ smembers key r' <-> x = me \/ x ∈ smembers key r) /\
                   scard key r' <= Z.max (scard key r) limit).
    { split; [intros x; by rewrite Hm, smembers_sadd|].
      rewrite (scard_spec key r'), Hm, <-scard_spec. done. }
    destruct Hset as [Hset Hcount].
    destruct Hcode as [(-> & -> & Hk)|[(-> & -> & Hk)|(-> & -> & Hk)]]; cbn; fold r in Hk; rewrite ?Hk;
      (split_and!; [done|done|done| |]); intuition congruence.
Qed.

(** Eight others in the call, and a ninth who asks. *)
Definition full_huddle : Store.store :=
  foldr (fun n r => sadd ($"huddle:4:members") [48 + Z.of_nat n] r) Store.empty (seq 10 8).

Lemma huddle_join_respects_limit_witness :
  let U := {| uuid_parse := fun _ => None; uuid_to_string := fun _ => $"4" |} in
  let tick := {| tick_db := fun d => d; tick_redis := fun r : Store.store => r; tick_fault := None |} in
  let w := set_outside Sample.rows full_huddle [] [tick] [] Sample.world in
  exists w', @huddle_redis_try_join _ Store.redis U 4%N 7%N w = (HuddleFull 8, w') /\
    scard ($"huddle:4:members") (redis w') = 8.
Proof.
  intros U tick w.
  pose proof (@huddle_join_respects_limit _ _ Store.redis_laws U 4%N 7%N tick [] w eq_refl eq_refl) as H.
  cbv zeta in H. specialize (H ltac:(vm_compute; reflexivity)).
  destruct (@huddle_redis_try_join _ Store.redis U 4%N 7%N w) as [res w'] eqn:E.
  exists w'. assert (res = HuddleFull 8) as ->.
  { change res with (res, w').1. rewrite <-E. vm_compute. reflexivity. }
  split; [reflexivity|]. destruct H as (_ & -> & _ & _). vm_compute. reflexivity.
Defined.

(** A limit of zero does not keep anyone out.  The script answers a refusal
    with the negated limit; when the media server's limit is configured as 0
    that is 0, which the gateway reads as having joined a mesh, although the
    user was not added to the members. *)
Theorem zero_limit_reads_as_joined {R} `{RedisLaws R} `{UuidText} h u th (w : World R) :
  schedule w = [] -> sfu w = Some {| threshold := th; max_participants := 0 |} ->
  key_exists (huddle_transport_key h) (redis w) = true ->
  sismember (huddle_members_key h) (uuid_to_string u) (redis w) = false ->
  let '(res, w') := huddle_redis_try_join h u w in
  res = HuddleJoined Mesh false /\ redis w' = redis w /\
  sismember (huddle_members_key h) (uuid_to_string u) (redis w') = false.
Proof.
  intros Hs Hc Hk Hm. unfold huddle_redis_try_join, gets, redis_call. unfold mbind, M_bind.
  rewrite Hc. cbn. rewrite (take_tick_nil w Hs). cbn.
  unfold try_join_script. rewrite Hk, Hm. cbn.
  rewrite (proj2 (Z.leb_le _ _)); [done|]. rewrite scard_spec. lia.
Qed.

Lemma zero_limit_reads_as_joined_witness :
  let U := {| uuid_parse := fun _ => None; uuid_to_string := fun _ => $"4" |} in
  let w := {| connections := ∅; user_connections := ∅;
              sfu := Some {| threshold := 6; max_participants := 0 |}; chans := ∅;
              db := Sample.rows; redis := set_ex ($"huddle:4:transport") ($"sfu") 60 Store.empty;
              now := 0; rng := []; schedule := []; published := [] |} in
  (@huddle_redis_try_join _ Store.redis U 4%N 7%N w).1 = HuddleJoined Mesh false.
Proof.
  intros U w.
  pose proof (@zero_limit_reads_as_joined _ _ Store.redis_laws U 4%N 7%N 6 w eq_refl eq_refl
    ltac:(vm_compute; reflexivity) ltac:(vm_compute; reflexivity)) as H.
  destruct (@huddle_redis_try_join _ Store.redis U 4%N 7%N w) as [res w']. apply H.
Defined.
