(* ===== verification/EventConsumer.v ===== *)
(** * Events to frames ([backend/realtime/src/event_consumer.rs])

    What the gateway does with a published event: which frame it becomes and
    who it goes to.  The live path and the replay path are the same function;
    replay narrows the audience to one connection.  The [match] on the event
    type is the table [event_table], one handler per arm. *)

From stdpp Require Import base tactics option list gmap.
From Stdlib Require Import ZArith Lia String Ascii.
From S2P Require Import Prelude RustStr Json Frames Redis GatewayState ConnectionManager Presence Huddle.

Section events.
Context {R : Type} `{Redis R} `{UuidText} `{JsonText} `{FrameSerde} `{RedisArgs}.

(** An event as [handle_event_for] receives it. *)
Context (audience : Audience) (event_type : str) (payload : json) (stream_id : option str).

(** Every frame carries the position it occupies in the workspace log. *)
Definition framed (frame : ServerFrame) : str :=
  let value := frame_to_value frame in
  json_to_string (match stream_id with
                  | Some id => obj_insert ($"stream_id") (JString id) value
                  | None => value
                  end).

Definition field (name : str) : option Uuid := get_uuid name payload.
Definition text (name : str) : option str := get_str name payload.
Definition flag (name : str) : bool := default false (get_bool name payload).
Definition text_or_empty (name : str) : str := default [] (text name).

(** [payload.get(name).and_then(as_i64).and_then(i32::try_from).unwrap_or(0)] *)
Definition count (name : str) : Z := default 0 (get_i64 name payload ≫= i32_try_from).

(** The identifiers of an array field, ill-formed ones left out. *)
Definition uuids (name : str) : list Uuid :=
  match get name payload ≫= as_array with
  | Some ids => omap (fun v => as_str v ≫= uuid_parse) ids
  | None => []
  end.

Definition typed : option ServerFrame := from_event event_type payload.

(** [if let Some(x) = o { k(x) }] *)
Definition if_some {A} (o : option A) (k : A -> M R unit) : M R unit :=
  match o with Some x => k x | None => mret tt end.

(** ** One handler per arm *)

Definition message_created : M R unit :=
  if_some (field ($"channel_id")) (fun ch =>
    broadcast_to_channel audience ch
      (framed (FMessageNew payload (uuids ($"mentioned_user_ids"))))).

Definition message_updated : M R unit :=
  if_some (field ($"channel_id")) (fun ch =>
    broadcast_to_channel audience ch (framed (FMessageUpdated payload))).

Definition message_deleted : M R unit :=
  if_some (field ($"channel_id")) (fun ch => if_some (field ($"message_id")) (fun m =>
    broadcast_to_channel audience ch (framed (FMessageDeleted m ch)))).

Definition message_pinned : M R unit :=
  if_some (field ($"channel_id")) (fun ch => if_some (field ($"message_id")) (fun m =>
    broadcast_to_channel audience ch (framed (FMessagePinned m ch (flag ($"pinned")))))).

Definition reaction_added : M R unit :=
  if_some (field ($"channel_id")) (fun ch => if_some (field ($"message_id")) (fun m =>
    broadcast_to_channel audience ch (framed (FReactionAdded m payload)))).

Definition reaction_removed : M R unit :=
  if_some (field ($"channel_id")) (fun ch => if_some (field ($"message_id")) (fun m =>
  if_some (field ($"user_id")) (fun u =>
    broadcast_to_channel audience ch
      (framed (FReactionRemoved m ch u (text_or_empty ($"emoji"))))))).

Definition workspace_deleted : M R unit :=
  if_some (field ($"workspace_id")) (fun ws =>
    broadcast_to_workspace audience ws
      (framed (FWorkspaceDeleted ws (text_or_empty ($"delete_type"))))).

Definition workspace_restored : M R unit :=
  if_some (field ($"workspace_id")) (fun ws =>
    broadcast_to_all audience (framed (FWorkspaceRestored ws))).

Definition workspace_emoji_changed : M R unit :=
  if_some (field ($"workspace_id")) (fun ws =>
    broadcast_to_workspace audience ws (framed (FWorkspaceEmojiChanged ws))).

Definition notification_push : M R unit :=
  if_some (field ($"user_id")) (fun u =>
    send_to_user audience u (framed (FNotification
      (field ($"workspace_id")) (field ($"channel_id")) (field ($"message_id"))
      (field ($"thread_parent_id")) (field ($"list_id")) (field ($"item_id"))
      (text_or_empty ($"title")) (text ($"body")) (text ($"kind"))))).

Definition presence_changed : M R unit :=
  let workspace_ids := uuids ($"workspace_ids") in
  let status := text ($"status") ≫= presence_parse in
  if_some (field ($"user_id")) (fun subject => if_some status (fun status =>
    send_to_workspace_members workspace_ids (framed (FPresenceChanged subject status)))).

Definition presence_recompute : M R unit :=
  if_some (field ($"user_id")) (fun u =>
    local ← has_local_connection u;
    if local : bool then presence_sync u else mret tt).

Definition typing_indicator : M R unit :=
  if_some (field ($"user_id")) (fun u => if_some (field ($"channel_id")) (fun ch =>
    broadcast_to_channel audience ch (framed (FTypingIndicator ch u (flag ($"is_typing")))))).

Definition conversation_created : M R unit :=
  if_some typed (fun frame =>
    for_each (uuids ($"participant_ids")) (fun participant =>
      send_to_user audience participant (framed frame))).

(** [huddle.member_joined] to [huddle.transport]: to the huddle. *)
Definition huddle_broadcast : M R unit :=
  if_some (field ($"huddle_id")) (fun hid => if_some typed (fun frame =>
    broadcast_to_huddle audience hid (framed frame))).

(** [huddle.offer], [huddle.answer], [huddle.ice], [huddle.ring]: to one user. *)
Definition huddle_signal : M R unit :=
  if_some (field ($"to_user_id")) (fun to_id => if_some typed (fun frame =>
    send_to_user audience to_id (framed frame))).

Definition huddle_ring : M R unit :=
  if bool_decide (get_bool ($"quiet") payload = Some true) then mret tt else huddle_signal.

Definition huddle_started_ended : M R unit :=
  if_some typed (fun frame =>
    let msg := framed frame in
    match field ($"channel_id") with
    | Some ch => broadcast_to_channel audience ch msg
    | None =>
        _ ← if_some (field ($"initiator_id")) (fun u => send_to_user audience u msg);
        if_some (field ($"dm_partner_id")) (fun u => send_to_user audience u msg)
    end).

Definition channel_read_state : M R unit :=
  if_some (field ($"user_id")) (fun u => if_some (field ($"channel_id")) (fun ch =>
    send_to_user audience u (framed (FChannelReadState ch (field ($"workspace_id"))
      (count ($"unread_count")) (count ($"mention_count")) (field ($"last_read_message_id")))))).

Definition command_response : M R unit :=
  if_some (field ($"user_id")) (fun u => if_some (field ($"channel_id")) (fun ch =>
    send_to_user audience u (framed (FCommandResponse ch (text_or_empty ($"command"))
      (text_or_empty ($"response_type")) (text_or_empty ($"text")))))).

Definition later_updated : M R unit :=
  if_some (field ($"user_id")) (fun u => if_some (field ($"workspace_id")) (fun ws =>
    send_to_user audience u (framed (FLaterUpdated ws)))).

Definition thread_read_state : M R unit :=
  if_some (field ($"user_id")) (fun u => if_some (field ($"root_message_id")) (fun root =>
  if_some (field ($"workspace_id")) (fun ws =>
    send_to_user audience u (framed (FThreadReadState root ws (flag ($"following"))
      (count ($"unread_count"))))))).

Definition channel_updated : M R unit :=
  if_some (field ($"channel_id")) (fun ch => if_some (field ($"workspace_id")) (fun ws =>
    broadcast_to_channel audience ch (framed (FChannelUpdated ch ws (flag ($"is_archived")))))).

Definition channel_member_removed : M R unit :=
  if_some (field ($"user_id")) (fun u => if_some (field ($"channel_id")) (fun ch =>
    _ ← leave_channel_for_user u ch;
    send_to_user audience u (framed (FChannelAccessRevoked ch (field ($"workspace_id")))))).

Definition workspace_member_removed : M R unit :=
  if_some (field ($"user_id")) (fun u => if_some (field ($"workspace_id")) (fun ws =>
    _ ← leave_workspace_for_user u ws;
    _ ← presence_leave_workspace u ws;
    _ ← send_to_user audience u (framed (FWorkspaceAccessRevoked ws));
    broadcast_to_workspace audience ws (framed (FWorkspaceMembersChanged ws)))).

Definition workspace_member_joined : M R unit :=
  if_some (field ($"user_id")) (fun u => if_some (field ($"workspace_id")) (fun ws =>
    _ ← send_to_user audience u (framed (FWorkspaceJoined ws));
    broadcast_to_workspace audience ws (framed (FWorkspaceMembersChanged ws)))).

Definition list_event : M R unit :=
  if_some typed (fun frame =>
    match field ($"channel_id"), field ($"owner_id") with
    | Some ch, _ => broadcast_to_channel audience ch (framed frame)
    | None, Some owner => send_to_user audience owner (framed frame)
    | None, None => mret tt
    end).

Definition user_suspended : M R unit :=
  if_some (field ($"user_id")) (fun u => disconnect_user u ($"account suspended")).

Definition session_revoked : M R unit :=
  if_some (field ($"user_id")) (fun u =>
    disconnect_user_except u (field ($"except_jti"))
      (default ($"session revoked") (text ($"reason")))).

(** ** The dispatch *)

Definition event_table : list (str * M R unit) :=
  [ ($"message.created", message_created); ($"message.updated", message_updated);
    ($"message.deleted", message_deleted); ($"message.pinned", message_pinned);
    ($"reaction.added", reaction_added); ($"reaction.removed", reaction_removed);
    ($"workspace.deleted", workspace_deleted); ($"workspace.restored", workspace_restored);
    ($"workspace.emoji_changed", workspace_emoji_changed);
    ($"notification.push", notification_push); ($"presence.changed", presence_changed);
    ($"presence.recompute", presence_recompute); ($"typing.indicator", typing_indicator);
    ($"conversation.created", conversation_created);
    ($"huddle.member_joined", huddle_broadcast); ($"huddle.member_left", huddle_broadcast);
    ($"huddle.mute", huddle_broadcast); ($"huddle.camera", huddle_broadcast);
    ($"huddle.screenshare", huddle_broadcast); ($"huddle.reaction", huddle_broadcast);
    ($"huddle.hand", huddle_broadcast); ($"huddle.transport", huddle_broadcast);
    ($"huddle.ring", huddle_ring);
    ($"huddle.offer", huddle_signal); ($"huddle.answer", huddle_signal);
    ($"huddle.ice", huddle_signal);
    ($"huddle.started", huddle_started_ended); ($"huddle.ended", huddle_started_ended);
    ($"channel.read_state", channel_read_state); ($"command.response", command_response);
    ($"later.updated", later_updated); ($"thread.read_state", thread_read_state);
    ($"channel.updated", channel_updated); ($"channel.member_removed", channel_member_removed);
    ($"workspace.member_removed", workspace_member_removed);
    ($"workspace.member_joined", workspace_member_joined);
    ($"list.upserted", list_event); ($"list.deleted", list_event);
    ($"list.columns_changed", list_event); ($"list.views_changed", list_event);
    ($"list.item_upserted", list_event); ($"list.item_deleted", list_event);
    ($"list.comment_upserted", list_event); ($"list.comment_deleted", list_event);
    ($"user.suspended", user_suspended); ($"session.revoked", session_revoked) ].

Definition handle_event_for : M R unit :=
  match assoc event_type event_table with
  | Some handler => handler
  | None => mret tt
  end.
End events.

(** One message from the subscription ([start_event_consumer]): a body that is
    not JSON is skipped. *)
Definition consume_message {R} `{Redis R} `{UuidText} `{JsonText} `{FrameSerde} `{RedisArgs}
    (body : str) : M R unit :=
  match json_from_str body with
  | None => mret tt
  | Some event =>
      let event_type := default [] (get_str ($"event_type") event) in
      let payload := default JNull (get ($"payload") event) in
      let stream_id := get_str ($"stream_id") event in
      handle_event_for Everyone event_type payload stream_id
  end.

(** ** What every handler respects *)

(** What routing asks of a relation: messages sent through an audience, and
    calls outside the process. *)
Class Routes {R} (a : Audience) (Rel : relation (World R)) := {
  routes_internal :: Internal Rel;
  routes_fan_out : forall m p, respects Rel (fan_out_to a m p);
  routes_send_to_user : forall u m, respects Rel (send_to_user a u m);
}.

(** What the handlers that act on the whole process ask besides: messages to
    everyone, close frames and withdrawn subscriptions. *)
Definition withdraws (f : Connection -> Connection) : Prop :=
  forall c, user_id (f c) = user_id c /\ token_jti (f c) = token_jti c /\ sender (f c) = sender c /\
    subscribed_workspaces (f c) ⊆ subscribed_workspaces c /\
    subscribed_channels (f c) ⊆ subscribed_channels c /\
    subscribed_huddles (f c) ⊆ subscribed_huddles c.

Class Manages {R} (Rel : relation (World R)) := {
  manages_delivers :: Delivers Rel;
  manages_withdraw : forall f c, withdraws f -> respects Rel (on_conn f c);
}.

#[export] Instance manages_routes {R} a (Rel : relation (World R)) `{!Manages Rel} : Routes a Rel.
Proof. split; [apply _| |]; intros; auto with respects typeclass_instances. Qed.

#[export] Instance manages_coherent {R} : Manages (keeping (@coherent R)).
Proof. split; [apply _|]. intros f c Hf. apply on_conn_coherent. intros conn. apply Hf. Qed.
#[export] Instance manages_bounded {R} : Manages (keeping (@bounded R)).
Proof. split; [apply _|]. intros f c _. apply on_conn_bounded. Qed.

Lemma respects_if_some {R A} (Rel : relation (World R)) `{!Internal Rel} (o : option A) (k : A -> M R unit) :
  (forall x, respects Rel (k x)) -> respects Rel (if_some o k).
Proof. destruct o; cbn; [auto|]. intros _. apply respects_ret, _. Qed.

(** Opens a handler down to its deliveries. *)
Ltac respects_handler :=
  repeat first
    [ apply respects_if_some; [apply _|intros ?]
    | apply routes_fan_out | apply routes_send_to_user
    | progress unfold broadcast_to_channel, broadcast_to_workspace, broadcast_to_huddle,
        broadcast_to_all, has_local_connection
    | respects_step ].

(** The event types whose handler acts beyond the audience it is given. *)
Definition process_wide : list str :=
  [ $"presence.changed"; $"channel.member_removed"; $"workspace.member_removed";
    $"user.suspended"; $"session.revoked" ].

Section respects.
Context {R : Type} `{Redis R} `{UuidText} `{JsonText} `{FrameSerde} `{RedisArgs}.
Context (a : Audience) (ty : str) (p : json) (sid : option str).

Lemma withdraws_channels x : withdraws (with_channels (fun s => s ∖ {[x]})).
Proof. intros c. cbn. set_solver. Qed.
Lemma withdraws_workspaces x : withdraws (with_workspaces (fun s => s ∖ {[x]})).
Proof. intros c. cbn. set_solver. Qed.

Lemma respects_leave_channel_for_user Rel `{!Manages Rel} u ch :
  respects (R:=R) Rel (leave_channel_for_user u ch).
Proof.
  unfold leave_channel_for_user, leave_channel. solve_respects.
  apply manages_withdraw, withdraws_channels.
Qed.
Lemma respects_leave_workspace_for_user Rel `{!Manages Rel} u ws :
  respects (R:=R) Rel (leave_workspace_for_user u ws).
Proof.
  unfold leave_workspace_for_user. solve_respects.
  apply manages_withdraw, withdraws_workspaces.
Qed.

(** Every arm of the dispatch, except those that act process-wide, only
    routes. *)
Lemma routed_handlers Rel `{!Routes a Rel} :
  Forall (fun e => e.1 ∈ process_wide \/ respects Rel e.2) (event_table (R:=R) a ty p sid).
Proof.
  assert (Internal Rel) by apply (routes_internal (a:=a)).
  unfold event_table. repeat (apply Forall_cons; split); [..|apply Forall_nil; done]; cbn [fst snd];
    first [left; by apply (bool_decide_unpack _)
          |right; unfold message_created, message_updated, message_deleted, message_pinned,
             reaction_added, reaction_removed, workspace_deleted, workspace_restored,
             workspace_emoji_changed, notification_push, presence_recompute, typing_indicator,
             conversation_created, huddle_broadcast, huddle_ring, huddle_signal,
             huddle_started_ended, channel_read_state, command_response, later_updated,
             thread_read_state, channel_updated, workspace_member_joined, list_event;
           respects_handler].
Qed.

Lemma all_handlers Rel `{!Manages Rel} :
  Forall (fun e => respects Rel e.2) (event_table (R:=R) a ty p sid).
Proof.
  assert (Internal Rel) by apply _. assert (Delivers Rel) by apply _.
  pose proof (routed_handlers Rel) as Hr. revert Hr. rewrite !Forall_forall.
  intros Hr e He. destruct (Hr e He) as [Hw|]; [|done]. clear Hr.
  assert (Hall : Forall (fun e => e.1 ∈ process_wide -> respects Rel e.2) (event_table (R:=R) a ty p sid)).
  { unfold event_table. repeat (apply Forall_cons; split); [..|apply Forall_nil; done]; cbn [fst snd];
      first [intros Hin; exfalso; revert Hin; apply (bool_decide_unpack _); vm_compute; exact I|intros _].
    - unfold presence_changed, send_to_workspace_members, fan_out.
      repeat (apply respects_if_some; [apply _|intros ?]). apply respects_fan_out_to, _.
    - unfold channel_member_removed. respects_handler. by apply respects_leave_channel_for_user.
    - unfold workspace_member_removed. respects_handler. by apply respects_leave_workspace_for_user.
    - unfold user_suspended, disconnect_user. respects_handler.
    - unfold session_revoked. respects_handler. }
  rewrite Forall_forall in Hall. by apply Hall.
Qed.

Lemma respects_handle_event Rel `{!Manages Rel} : respects Rel (handle_event_for (R:=R) a ty p sid).
Proof.
  unfold handle_event_for. destruct (assoc ty _) as [h|] eqn:E; [|apply respects_ret, _].
  apply assoc_In in E. pose proof (all_handlers Rel) as Hall. rewrite Forall_forall in Hall.
  apply (Hall (ty, h)). by apply list_elem_of_In.
Qed.

Lemma respects_handle_routed Rel `{!Routes a Rel} :
  ~ ty ∈ process_wide -> respects Rel (handle_event_for (R:=R) a ty p sid).
Proof.
  intros Hty. unfold handle_event_for. destruct (assoc ty _) as [h|] eqn:E; [|apply respects_ret, _].
  apply assoc_In in E. pose proof (routed_handlers Rel) as Hall. rewrite Forall_forall in Hall.
  destruct (Hall (ty, h)) as [|]; [by apply list_elem_of_In|done|done].
Qed.
End respects.

(** ** Withdrawn access *)

Section withdrawal.
Context {R : Type}.
Implicit Types (w : World R).

Lemma deliver_other m c w d :
  d <> c -> connections (deliver m c w).2 !! d = connections w !! d.
Proof.
  intros Hd. rewrite deliver_world. destruct (connections w !! c) as [conn|]; [|done].
  destruct (accepts m conn w); [done|]. by rewrite remove_connection_connections, lookup_delete_ne.
Qed.

Lemma deliver_all_other m ids w d :
  d ∉ ids -> connections (for_each ids (deliver m) w).2 !! d = connections w !! d.
Proof.
  revert w. induction ids as [|c ids IH]; intros w Hd; cbn; [done|]. unfold mbind, M_bind.
  rewrite <-(deliver_other m c w d) by set_solver. destruct (deliver m c w) as [u w1].
  apply IH. set_solver.
Qed.

Lemma send_to_user_sub a u m w d conn :
  connections (send_to_user a u m w).2 !! d = Some conn -> connections w !! d = Some conn.
Proof.
  unfold send_to_user, gets, mbind, M_bind. apply deliver_all_sub.
Qed.

Lemma send_to_user_other a u m w d :
  d ∉ conns_of_user u w -> connections (send_to_user a u m w).2 !! d = connections w !! d.
Proof.
  intros Hd. unfold send_to_user, gets, mbind, M_bind. apply deliver_all_other.
  rewrite list_elem_of_filter. naive_solver.
Qed.

(** The same idempotent update of several connections. *)
Lemma for_each_on_conn f ids w d :
  (forall conn, f (f conn) = f conn) ->
  connections (for_each ids (on_conn f) w).2 !! d =
    if decide (d ∈ ids) then f <$> connections w !! d else connections w !! d.
Proof.
  intros Hf. revert w. induction ids as [|c ids IH]; intros w; cbn [for_each].
  { by rewrite decide_False by set_solver. }
  unfold mbind, M_bind. cbn [on_conn modify]. unfold on_conn, modify. cbn. unfold on_conn, modify in IH.
  rewrite IH. cbn. destruct (decide (d = c)) as [->|Hne].
  - rewrite lookup_alter_eq. rewrite (decide_True (P := c ∈ c :: ids)) by set_solver.
    case_decide; [|done]. destruct (connections w !! c); cbn; [by rewrite Hf|done].
  - rewrite lookup_alter_ne by done.
    destruct (decide (d ∈ ids)); [rewrite decide_True by set_solver|rewrite decide_False by set_solver]; done.
Qed.

Lemma for_each_on_conn_index f ids w :
  user_connections (for_each ids (on_conn f) w).2 = user_connections w.
Proof.
  revert w. induction ids as [|c ids IH]; intros w; cbn; [done|].
  unfold mbind, M_bind, on_conn, modify in *. cbn. rewrite IH. done.
Qed.
End withdrawal.

(** The handler of a lost channel. *)
Lemma channel_member_removed_effect {R} `{Redis R} `{UuidText} `{JsonText} `{FrameSerde} `{RedisArgs}
    (p : json) sid u ch (w : World R) :
  coherent w -> get_uuid ($"user_id") p = Some u -> get_uuid ($"channel_id") p = Some ch ->
  let w' := (channel_member_removed (R:=R) Everyone p sid w).2 in
  (forall c conn, connections w' !! c = Some conn -> user_id conn = u ->
     (ch ∉ subscribed_channels conn) /\
     exists before, connections w !! c = Some before /\ user_id before = u /\
       subscribed_channels conn = subscribed_channels before ∖ {[ch]} /\
       subscribed_workspaces conn = subscribed_workspaces before /\
       subscribed_huddles conn = subscribed_huddles before) /\
  (forall c conn, user_id conn <> u ->
     (connections w' !! c = Some conn <-> connections w !! c = Some conn)).
Proof.
  intros Hw Hu Hch w'. subst w'.
  unfold channel_member_removed, field. rewrite Hu, Hch. cbn [if_some].
  unfold leave_channel_for_user, leave_channel. set (f := with_channels _).
  set (m := framed _ _). rewrite !bind_snd. cbn [gets fst snd].
  set (ids := conns_of_user u w).
  pose proof (for_each_on_conn f ids w) as Hone.
  pose proof (for_each_on_conn_index f ids w) as Hidx.
  change (fun conn_id : Uuid => on_conn f conn_id) with (on_conn (R:=R) f).
  set (w1 := (for_each ids (on_conn f) w).2) in *.
  assert (Hf : forall conn, f (f conn) = f conn).
  { intros conn. unfold f, with_channels. cbn. f_equal. set_solver. }
  assert (Hids : conns_of_user u w1 = ids) by (unfold conns_of_user, ids; by rewrite Hidx).
  split.
  - intros c conn Hc%send_to_user_sub Huc. rewrite (Hone c Hf) in Hc.
    case_decide as Hin.
    + apply fmap_Some in Hc as (before & Hb & ->). cbn in *. split; [set_solver|].
      by exists before.
    + exfalso. apply Hin. apply (coherent_index w u c Hw). eauto.
  - intros c conn Hne. destruct (decide (c ∈ ids)) as [Hin|Hin].
    + apply (coherent_index w u c Hw) in Hin as (conn0 & Hc0 & Hu0). split.
      * intros Hc%send_to_user_sub. rewrite (Hone c Hf) in Hc. rewrite Hc0 in Hc.
        case_decide; cbn in Hc; simplify_eq; done.
      * intros Hc. simplify_eq.
    + rewrite send_to_user_other by (by rewrite Hids). rewrite (Hone c Hf).
      by rewrite decide_False.
Qed.

(** Codecs for the witnesses: an identifier is written as one character, and the
    JSON text of a value is left abstract. *)
Module SampleCodec.
#[global] Instance uuid : UuidText := {
  uuid_parse s := match s with [c] => Some (Z.to_N c) | _ => None end;
  uuid_to_string u := [Z.of_N u];
}.
#[global] Instance json : JsonText := { json_from_str _ := None; json_to_string _ := $"{}" }.
#[global] Instance frames : FrameSerde := {
  frame_to_value _ := JObject []; frame_to_string _ := $"{}"; frame_from_value _ := None
}.
#[global] Instance args : RedisArgs := { i64_to_string _ := $"0" }.

(** [{"user_id": 7, "channel_id": 30, "workspace_id": 20}] *)
Definition payload : Json.json :=
  JObject [($"user_id", JString [7]); ($"channel_id", JString [30]); ($"workspace_id", JString [20])].
End SampleCodec.

(** Losing a channel takes effect at once.  When the gateway has handled
    [channel.member_removed] for a user and a channel, none of the user's
    connections is subscribed to the channel, so no later message to the
    channel is queued for the user; what the user's connections were otherwise
    subscribed to is as before, and other users' connections are untouched. *)
Theorem member_removed_withdraws_channel {R} `{Redis R} `{UuidText} `{JsonText} `{FrameSerde} `{RedisArgs}
    (p : json) sid u ch (w : World R) :
  coherent w -> get_uuid ($"user_id") p = Some u -> get_uuid ($"channel_id") p = Some ch ->
  let w' := (handle_event_for Everyone ($"channel.member_removed") p sid w).2 in
  (forall c conn, connections w' !! c = Some conn -> user_id conn = u ->
     (ch ∉ subscribed_channels conn) /\
     exists before, connections w !! c = Some before /\ user_id before = u /\
       subscribed_channels conn = subscribed_channels before ∖ {[ch]} /\
       subscribed_workspaces conn = subscribed_workspaces before /\
       subscribed_huddles conn = subscribed_huddles before) /\
  (forall c conn, user_id conn <> u ->
     (connections w' !! c = Some conn <-> connections w !! c = Some conn)).
Proof. intros Hw Hu Hch. exact (channel_member_removed_effect p sid u ch w Hw Hu Hch). Qed.

Lemma member_removed_withdraws_channel_witness :
  exists conn, connections (handle_event_for Everyone ($"channel.member_removed") SampleCodec.payload
                              None Sample.world).2 !! 1%N = Some conn /\
    30%N ∈ subscribed_channels Sample.conn /\ ~ (30%N ∈ subscribed_channels conn).
Proof.
  destruct (connections (handle_event_for Everyone _ _ None Sample.world).2 !! 1%N) as [conn|] eqn:E;
    [|vm_compute in E; discriminate].
  exists conn. split; [done|]. split; [cbn; set_solver|].
  eapply (member_removed_withdraws_channel SampleCodec.payload None 7%N 30%N Sample.world);
    [apply Sample.world_coherent|vm_compute; reflexivity|vm_compute; reflexivity|exact E|].
  vm_compute in E. injection E as <-. reflexivity.
Defined.

(** Whatever arrives on the subscription, in whatever order, and however
    Redis and the database behave meanwhile, handling it keeps the connection
    table and the per-user index in agreement and no writer channel past its
    capacity. *)
Theorem consuming_keeps_registry {R} `{Redis R} `{UuidText} `{JsonText} `{FrameSerde} `{RedisArgs}
    (bodies : list str) (w : World R) :
  coherent w -> bounded w ->
  let w' := (for_each bodies consume_message w).2 in coherent w' /\ bounded w'.
Proof.
  intros Hc Hb w'. subst w'.
  assert (Hall : forall Rel : relation (World R), Manages Rel -> respects Rel (for_each bodies consume_message)).
  { intros Rel HM. apply respects_for_each; [apply _|]. intros body _. unfold consume_message.
    destruct (json_from_str body); [|apply respects_ret, _].
    apply (respects_handle_event Everyone _ _ _ Rel). }
  split; [exact (Hall _ manages_coherent w Hc)|exact (Hall _ manages_bounded w Hb)].
Qed.

Lemma sample_bounded : bounded Sample.world.
Proof.
  intros h q. cbn. rewrite lookup_singleton_Some. intros (_ & <-). cbn. lia.
Qed.

Lemma consuming_keeps_registry_witness :
  coherent (for_each [$"a"; $"b"] (consume_message (R:=Store.store)) Sample.world).2.
Proof.
  exact (proj1 (consuming_keeps_registry [$"a"; $"b"] Sample.world Sample.world_coherent sample_bounded)).
Defined.
