(* ===== verification/Publisher.v ===== *)
(** * What is kept in a workspace's log ([backend/api/src/messaging/publisher.rs])

    The API publishes every event; the durable ones it also appends to the
    workspace's stream, from which the gateway replays gaps. *)

From stdpp Require Import base tactics option list gmap.
From Stdlib Require Import ZArith Lia String Ascii.
From S2P Require Import Prelude RustStr Json Frames.

(** [event_type.split('.').next()]: the text before the first dot. *)
Definition event_group (event_type : str) : str :=
  match split_once 46 event_type with Some (group, _) => group | None => event_type end.

Definition is_durable (event_type : str) : bool :=
  if bool_decide (event_type ∈ [ $"huddle.member_joined"; $"huddle.member_left"; $"huddle.ring";
       $"channel.member_joined"; $"channel.read_state"; $"channel.created"; $"channel.updated" ])
  then true
  else bool_decide (event_group event_type ∈
         [ $"message"; $"reaction"; $"workspace"; $"conversation"; $"list" ]).
