(* ===== verification/Replay.v ===== *)
(** * Replaying a gap ([backend/realtime/src/replay.rs])

    A reconnecting client names the last event it saw; the gateway hands it
    what the workspace's log holds after that position, through the handlers
    of the live path with the audience narrowed to the one connection, or
    tells it to refetch. *)

From stdpp Require Import base tactics option list gmap.
From Stdlib Require Import ZArith Lia String Ascii Sorted.
From S2P Require Import Prelude RustStr Json Frames Redis GatewayState ConnectionManager Presence Huddle.
From S2P Require Import EventConsumer Publisher.

Definition REPLAY_MAX_EVENTS : nat := Z.to_nat 1000.

Definition replays_to_clients (event_type : str) : bool :=
  negb (str_eqb event_type ($"huddle.ring")).

Inductive Replay :=
| Caught (events : nat) (last_id : option str)
| RefetchRequired.

Definition parse_id (id : str) : option (Z * Z) :=
  '(ms, seq) ← split_once 45 id;
  ms ← parse_u64 ms;
  seq ← parse_u64 seq;
  Some (ms, seq).

Definition is_older (a b : str) : bool :=
  match parse_id a, parse_id b with
  | Some x, Some y => (x.1 <? y.1) || ((x.1 =? y.1) && (x.2 <? y.2))
  | _, _ => false
  end.

Section replay.
Context {R : Type} `{Redis R} `{UuidText} `{JsonText} `{FrameSerde} `{RedisArgs} `{EventSerde}.

(** A call whose reply does not decode is an error like one that fails. *)
Definition decoded {A} (r : result fault (option A)) : option A :=
  match r with Ok (Some a) => Some a | _ => None end.

(** [None] is an error; [Some None] an empty log. *)
Definition oldest_id (key : str) : M R (option (option str)) :=
  entries ← redis_read (xrange key XMin 1);
  mret ((fun es => entry_id <$> head es) <$> decoded entries).

Definition current_tail (workspace_id : Uuid) : M R (option str) :=
  entries ← redis_read (xrevrange (workspace_stream workspace_id) 1);
  mret (match entries with Ok es => entry_id <$> head es | Err _ => None end).

(** The event an entry holds, if its field is there and decodes. *)
Definition event_of (entry : StreamEntry) : option Event := entry_event entry ≫= event_from_str.

Fixpoint replay_entries (conn_id : Uuid) (entries : list StreamEntry) (delivered : nat)
    (last_id : option str) : M R Replay :=
  match entries with
  | [] => mret (Caught delivered last_id)
  | entry :: entries =>
      match event_of entry with
      | None => replay_entries conn_id entries delivered last_id
      | Some event =>
          let id := entry_id entry in
          if negb (replays_to_clients (event_type event)) then
            replay_entries conn_id entries delivered (Some id)
          else
            _ ← handle_event_for (OneConnection conn_id) (event_type event) (payload event) (Some id);
            replay_entries conn_id entries (S delivered) (Some id)
      end
  end.

Definition replay_workspace (conn_id workspace_id : Uuid) (last_event_id : str) : M R Replay :=
  let key := workspace_stream workspace_id in
  oldest ← oldest_id key;
  match oldest with
  | None => mret RefetchRequired
  | Some oldest =>
      if match oldest with Some oldest => is_older last_event_id oldest | None => false end
      then mret RefetchRequired
      else
        entries ← redis_read (xrange key (XAfter last_event_id) (REPLAY_MAX_EVENTS + 1));
        match decoded entries with
        | None => mret RefetchRequired
        | Some entries =>
            if (REPLAY_MAX_EVENTS <? length entries)%nat then mret RefetchRequired
            else replay_entries conn_id entries 0 None
        end
  end.
End replay.

(** ** Nothing is missed *)

Lemma is_older_position a b :
  is_older a b = match position_of a, position_of b with
                 | Some x, Some y => position_lt x y
                 | _, _ => false
                 end.
Proof. reflexivity. Qed.

(** A log in order: every id is complete and each is before the next ones. *)
Definition ordered (l : list StreamEntry) : Prop :=
  Forall (fun e => is_Some (position_of (entry_id e))) l /\
  StronglySorted (fun a b => is_older (entry_id a) (entry_id b) = true) l.

(** What a client at [last] has not seen of a log. *)
Definition missed (last : str) (l : list StreamEntry) : list StreamEntry :=
  filter (fun e => after last e) l.

Lemma missed_trimmed last trimmed e log :
  ordered (trimmed ++ e :: log) -> is_Some (position_of last) ->
  is_older last (entry_id e) = false -> missed last (trimmed ++ e :: log) = missed last (e :: log).
Proof.
  intros [Hp Hs] [p Hlast] Hold. unfold missed. rewrite filter_app.
  assert (filter (fun e => after last e) trimmed = []) as ->; [|done].
  induction trimmed as [|x trimmed IH]; [done|]. cbn in Hp, Hs.
  inversion_clear Hp as [|? ? [q Hq] Hp']. inversion_clear Hs as [|? ? Hs' Hx].
  rewrite filter_cons, decide_False; [by apply IH|].
  rewrite Forall_app, Forall_cons in Hx. destruct Hx as (_ & Hx & _).
  rewrite is_older_position in Hx, Hold. unfold after. rewrite Hlast, Hq in *.
  destruct (position_of (entry_id e)) as [r|] eqn:Er; [|done].
  intros H%Is_true_true. by rewrite (position_lt_trans _ _ _ H Hx) in Hold.
Qed.

Lemma quiet_world {R} (w : World R) :
  schedule w = [] -> set_outside (db w) (redis w) (rng w) [] (published w) w = w.
Proof. destruct w. cbn. by intros ->. Qed.

Lemma redis_read_quiet {R A} (op : R -> A) (w : World R) :
  schedule w = [] -> redis_read op w = (Ok (op (redis w)), w).
Proof.
  intros Hs. unfold redis_read, redis_call. rewrite (take_tick_nil w Hs). by rewrite (quiet_world w Hs).
Qed.

Section outcome.
Context {R : Type} `{Redis R} `{!StreamLaws R} `{UuidText} `{JsonText} `{FrameSerde} `{RedisArgs} `{EventSerde}.
Implicit Types (w : World R).

(** The events a replay hands over, each with its id. *)
Definition replayable (entries : list StreamEntry) : list (str * Event) :=
  filter (fun p : str * Event => replays_to_clients (event_type p.2))
    (omap (fun e => pair (entry_id e) <$> event_of e) entries).

(** The id a client resumes from next: that of the last entry that decodes. *)
Definition resume_id (entries : list StreamEntry) : option str :=
  last (entry_id <$> filter (fun e => is_Some (event_of e)) entries).

Definition hand_over (conn_id : Uuid) (p : str * Event) : M R unit :=
  handle_event_for (OneConnection conn_id) (event_type p.2) (payload p.2) (Some p.1).

Lemma replayable_cons e es :
  replayable (e :: es) =
    match event_of e with
    | Some ev => if replays_to_clients (event_type ev) then (entry_id e, ev) :: replayable es
                 else replayable es
    | None => replayable es
    end.
Proof.
  unfold replayable. cbn. destruct (event_of e) as [ev|]; cbn; [|done].
  by destruct (replays_to_clients (event_type ev)).
Qed.

Lemma resume_id_cons e es :
  resume_id (e :: es) =
    match event_of e with
    | Some _ => Some (default (entry_id e) (resume_id es))
    | None => resume_id es
    end.
Proof.
  unfold resume_id. rewrite filter_cons. destruct (event_of e) as [ev|].
  - rewrite decide_True by done. rewrite fmap_cons, last_cons. by destruct (last _).
  - rewrite decide_False; [done|]. by intros [? [=]].
Qed.

Lemma replay_entries_outcome c es n l w :
  replay_entries c es n l w =
    (Caught (n + length (replayable es)) (match resume_id es with Some id => Some id | None => l end),
     (for_each (replayable es) (hand_over c) w).2).
Proof.
  revert n l w. induction es as [|e es IH]; intros n l w; [by rewrite Nat.add_0_r|].
  cbn [replay_entries]. rewrite replayable_cons, resume_id_cons.
  destruct (event_of e) as [ev|]; [|apply IH].
  destruct (replays_to_clients (event_type ev)); cbn [negb].
  - cbn [for_each length]. rewrite bind_snd.
    unfold mbind at 1, M_bind. unfold hand_over at 2. cbn [fst snd].
    destruct (handle_event_for _ _ _ _ w) as [u w1]. cbn [fst snd]. rewrite IH.
    rewrite Nat.add_succ_r. by destruct (resume_id es).
  - rewrite IH. by destruct (resume_id es).
Qed.
End outcome.

(** C2: a replay misses nothing.  Let the log be what is left of a workspace's
    history after its oldest entries were trimmed, with an entry at least, and
    let the client name a complete id.  When Redis answers, either the client
    is told to refetch, because its position is before the log or more than
    [REPLAY_MAX_EVENTS] entries follow it, and nothing else happens; or it is
    handed exactly the events of the whole history after its position, oldest
    first, those that must not be replayed and those that do not decode apart,
    and told how many and where to resume. *)
Theorem replay_misses_nothing {R} `{Redis R} `{!StreamLaws R} `{UuidText} `{JsonText} `{FrameSerde}
    `{RedisArgs} `{EventSerde} c ws last_event_id trimmed e log (w : World R) :
  ordered (trimmed ++ e :: log) -> stream_log (workspace_stream ws) (redis w) = e :: log ->
  is_Some (position_of last_event_id) -> schedule w = [] ->
  let gap := missed last_event_id (trimmed ++ e :: log) in
  replay_workspace c ws last_event_id w =
    if is_older last_event_id (entry_id e) || (REPLAY_MAX_EVENTS <? length gap)%nat
    then (RefetchRequired, w)
    else (Caught (length (replayable gap)) (resume_id gap), (for_each (replayable gap) (hand_over c) w).2).
Proof.
  intros Ho Hlog Hlast Hs gap. subst gap.
  unfold replay_workspace, oldest_id. unfold mbind, M_bind, mret, M_ret.
  rewrite (redis_read_quiet _ w Hs), xrange_min, Hlog. cbn [decoded fmap option_fmap option_map take head].
  destruct (is_older last_event_id (entry_id e)) eqn:Hold; [done|]. cbn [orb].
  rewrite (missed_trimmed _ _ _ _ Ho Hlast Hold).
  rewrite (redis_read_quiet _ w Hs), (xrange_after _ _ _ _ Hlast), Hlog. cbn [decoded].
  fold (missed last_event_id (e :: log)). set (gap := missed last_event_id (e :: log)).
  rewrite length_take. clearbody gap. generalize REPLAY_MAX_EVENTS. intros cap.
  destruct (Nat.ltb_spec cap (length gap)) as [Hgt|Hle].
  - destruct (Nat.ltb_spec cap ((cap + 1) `min` length gap)); [done|lia].
  - destruct (Nat.ltb_spec cap ((cap + 1) `min` length gap)); [lia|].
    rewrite take_ge by lia. rewrite replay_entries_outcome. cbn. by destruct (resume_id gap).
Qed.

(** When the age-based trimming has emptied the log, the gap is not noticed.
    Whatever the history was and however much of it the client missed, it is
    told it caught up with no events. *)
Theorem empty_log_is_not_noticed {R} `{Redis R} `{!StreamLaws R} `{UuidText} `{JsonText} `{FrameSerde}
    `{RedisArgs} `{EventSerde} c ws last_event_id (w : World R) :
  stream_log (workspace_stream ws) (redis w) = [] -> is_Some (position_of last_event_id) ->
  schedule w = [] -> replay_workspace c ws last_event_id w = (Caught 0 None, w).
Proof.
  intros Hlog Hlast Hs.
  unfold replay_workspace, oldest_id. unfold mbind, M_bind, mret, M_ret.
  rewrite (redis_read_quiet _ w Hs), xrange_min, Hlog. cbn [decoded fmap option_fmap option_map take head].
  rewrite (redis_read_quiet _ w Hs), (xrange_after _ _ _ _ Hlast), Hlog. done.
Qed.

(** ** Replay is confined to one connection *)

(** Nothing but connection [c] and its channel changes. *)
Definition only {R} (c : Uuid) : relation (World R) := fun w w' =>
  distinct_senders w ->
  distinct_senders w' /\
  forall d, d <> c -> connections w' !! d = connections w !! d /\
    forall conn, connections w !! d = Some conn -> chans w' !! sender conn = chans w !! sender conn.

#[export] Instance only_preorder {R} c : PreOrder (@only R c).
Proof.
  split.
  - intros w Hw. done.
  - intros w1 w2 w3 H12 H23 H1. destruct (H12 H1) as [H2 H12']. destruct (H23 H2) as [H3 H23'].
    split; [done|]. intros d Hd. destruct (H12' d Hd) as [E1 F1]. destruct (H23' d Hd) as [E2 F2].
    split; [by rewrite E2|]. intros conn Hc. rewrite <-E1 in Hc. rewrite (F2 conn Hc).
    apply F1. by rewrite <-E1.
Qed.

#[export] Instance only_internal {R} c : Internal (@only R c).
Proof. split; [apply _|]. intros d r g s p w _ Hw. done. Qed.

Lemma deliver_only {R} c m : respects (@only R c) (deliver m c).
Proof.
  intros w Hw. split; [by apply deliver_senders|]. intros d Hd.
  split; [by apply deliver_other|]. intros conn Hc. apply deliver_chan.
  intros conn' Hc' Es. apply Hd. symmetry. by eapply Hw.
Qed.

Lemma deliver_all_only {R} c m ids :
  Forall (fun id => id = c) ids -> respects (@only R c) (for_each ids (deliver m)).
Proof.
  intros Hids. apply respects_for_each; [apply _|]. intros x Hx.
  rewrite Forall_forall in Hids. rewrite (Hids x Hx). apply deliver_only.
Qed.

#[export] Instance only_routes {R} c : Routes (OneConnection c) (@only R c).
Proof.
  split; [apply _| |].
  - intros m p w. change (only c w (for_each (targets (OneConnection c) p w) (deliver m) w).2).
    apply deliver_all_only, Forall_forall. intros x (conn & _ & Hi & _)%targets_spec.
    cbn in Hi. apply bool_decide_eq_true in Hi. done.
  - intros u m w. unfold send_to_user. rewrite bind_snd. cbn [gets fst snd].
    apply deliver_all_only, Forall_forall. intros x [Hx _]%list_elem_of_filter.
    cbn in Hx. apply Is_true_true, bool_decide_eq_true in Hx. done.
Qed.

(** The states Redis goes through while the process makes its calls, when the
    calls only read. *)
Fixpoint redis_ahead {R} (r : R) (s : list (Tick R)) : list R :=
  r :: match s with [] => [] | t :: s => redis_ahead (tick_redis t r) s end.
(** What the part of the log that is replayed holds, whoever appends to it
    meanwhile: durable events, but for the removal of a member. *)
Definition routed_log {R} `{Redis R} `{UuidText} `{EventSerde} (ws : Uuid) (last : str) (w : World R) : Prop :=
  forall r es e ev, r ∈ redis_ahead (redis w) (schedule w) ->
    xrange (workspace_stream ws) (XAfter last) (REPLAY_MAX_EVENTS + 1) r = Some es -> e ∈ es -> event_of e = Some ev ->
    is_durable (event_type ev) = true /\ event_type ev <> $"workspace.member_removed".

(** A durable event type acts through its audience, but for one. *)
Lemma durable_not_process_wide ty :
  is_durable ty = true -> ty ∈ process_wide -> ty = $"workspace.member_removed".
Proof.
  unfold process_wide. rewrite !elem_of_cons, elem_of_nil.
  intros Hd [->|[->|[->|[->|[->|[]]]]]]; [revert Hd; vm_compute; discriminate|
    revert Hd; vm_compute; discriminate|done|revert Hd; vm_compute; discriminate|
    revert Hd; vm_compute; discriminate].
Qed.

(** A read sees one of the states ahead, and those ahead of it are among
    them. *)
Definition ahead {R} (w : World R) : list R := redis_ahead (redis w) (schedule w).
Lemma redis_read_ahead {R A} `{Redis R} (op : R -> option A) (w : World R) :
  (forall r, r ∈ ahead (redis_read op w).2 -> r ∈ ahead w) /\
  forall a, decoded (redis_read op w).1 = Some a -> exists r, r ∈ ahead w /\ op r = Some a.
Proof.
  unfold ahead, redis_read, redis_call, take_tick. destruct (schedule w) as [|t s]; cbn; [|destruct (tick_fault t) as [[]|]; cbn]; split; try done.
  2, 3, 4: by right.
  - destruct (op (redis w)) as [x|] eqn:E; [|done]. intros a [= <-]. exists (redis w). split; [left|done].
  - destruct (op (tick_redis t (redis w))) as [x|] eqn:E; [|done]. intros a [= <-]. exists (tick_redis t (redis w)). split; [|done].
    right. destruct s; left.
Qed.

(** Like [respects_bind], for a continuation that depends on the answer. *)
Lemma respects_answer {R A B} (Rel : relation (World R)) `{!PreOrder Rel} (m : M R A) (f : A -> M R B) w :
  respects Rel m -> Rel (m w).2 (f (m w).1 (m w).2).2 -> Rel w ((m ≫= f) w).2.
Proof. intros Hm Hf. rewrite bind_snd. etransitivity; [apply Hm|apply Hf]. Qed.

Lemma respects_replay_entries {R} `{Redis R} `{UuidText} `{JsonText} `{FrameSerde} `{RedisArgs} `{EventSerde}
    (Rel : relation (World R)) `{!PreOrder Rel} c es n l :
  respects Rel (for_each (replayable es) (hand_over c)) -> respects Rel (replay_entries c es n l).
Proof. intros Hr w. rewrite replay_entries_outcome. apply Hr. Qed.

(** C33: replaying a gap touches the connection it is for and nothing else.  For
    every schedule of faults and interference: if what is replayed of the log,
    whenever it is read, is only what the publisher calls durable, no removed
    member among it, then after a replay
    every other connection has its registration, its subscriptions and the
    contents of its channel as before. *)
Theorem replay_confined {R} `{Redis R} `{UuidText} `{JsonText} `{FrameSerde} `{RedisArgs} `{EventSerde}
    c ws last_event_id (w : World R) d conn :
  routed_log ws last_event_id w -> distinct_senders w -> d <> c -> connections w !! d = Some conn ->
  let w' := (replay_workspace c ws last_event_id w).2 in
  connections w' !! d = Some conn /\ chans w' !! sender conn = chans w !! sender conn.
Proof.
  intros Hlog Hs Hd Hc w'. subst w'.
  assert (Hr : only c w (replay_workspace (R:=R) c ws last_event_id w).2).
  { unfold replay_workspace, oldest_id. set (read1 := redis_read (xrange _ XMin 1)).
    assert (Hlater : forall r, r ∈ ahead (read1 w).2 -> r ∈ ahead w) by apply redis_read_ahead.
    apply respects_answer; [apply _|unfold read1; solve_respects|].
    rewrite bind_snd, bind_fst. cbn [mret M_ret fst snd]. set (w1 := (read1 w).2) in *.
    destruct (_ <$> decoded (read1 w).1) as [oldest|]; [|apply respects_ret, _].
    destruct (match oldest with Some _ => _ | None => _ end); [apply respects_ret, _|].
    apply respects_answer; [apply _|solve_respects|].
    destruct (decoded _) as [es|] eqn:Ees; [|apply respects_ret, _].
    destruct (_ <? length es)%nat; [apply respects_ret, _|].
    apply redis_read_ahead in Ees as (r & Hrin & Hes). apply Hlater in Hrin. apply respects_replay_entries; [apply _|].
    apply respects_for_each; [apply _|]. intros [id ev] Hin. apply respects_handle_routed; [apply _|].
    unfold replayable in Hin. apply list_elem_of_filter in Hin as [_ Hin].
    apply list_elem_of_omap in Hin as (e & He & Hev). destruct (event_of e) as [ev'|] eqn:Eev; [|done].
    injection Hev as <- <-. destruct (Hlog _ _ _ _ Hrin Hes He Eev) as [Hdur Hne].
    cbn. intros Hw. apply Hne. by apply durable_not_process_wide. }
  destruct (Hr Hs) as [_ H']. destruct (H' d Hd) as [-> Hq]. split; [done|]. by apply Hq.
Qed.

(** The process itself is as before. *)
Definition same_process {R} : relation (World R) := fun w w' =>
  connections w' = connections w /\ user_connections w' = user_connections w /\ chans w' = chans w.

#[export] Instance same_process_internal {R} : Internal (@same_process R).
Proof.
  split; [split|].
  - intros w. done.
  - intros x y z (H1 & H2 & H3) (H4 & H5 & H6). split_and!; congruence.
  - intros. done.
Qed.

(** The removal of a member is the exception.  It is durable, and replaying
    it to connection [c] withdraws the workspace from every connection of the
    member it names, also one the member opened after coming back and that
    lost nothing: the handler's own part ignores the audience. *)
Theorem replayed_removal_acts_on_others {R} `{Redis R} `{UuidText} `{JsonText} `{FrameSerde} `{RedisArgs}
    c id ev u ws (w : World R) d conn :
  coherent w -> event_type ev = $"workspace.member_removed" ->
  get_uuid ($"user_id") (payload ev) = Some u -> get_uuid ($"workspace_id") (payload ev) = Some ws ->
  connections w !! d = Some conn -> user_id conn = u -> d <> c ->
  is_durable (event_type ev) = true /\
  connections (hand_over c (id, ev) w).2 !! d = Some (with_workspaces (fun s => s ∖ {[ws]}) conn).
Proof.
  intros Hw Hty Hu Hws Hd Huc Hne. rewrite Hty. split; [vm_compute; reflexivity|].
  unfold hand_over. cbn [fst snd]. rewrite Hty.
  change (handle_event_for (OneConnection c) ($"workspace.member_removed") (payload ev) (Some id)) with
    (workspace_member_removed (R:=R) (OneConnection c) (payload ev) (Some id)).
  unfold workspace_member_removed, field. rewrite Hu, Hws. cbn [if_some].
  set (m1 := framed _ (FWorkspaceAccessRevoked ws)). set (m2 := framed _ (FWorkspaceMembersChanged ws)).
  rewrite !bind_snd. set (w1 := (leave_workspace_for_user u ws w).2).
  assert (Hd1 : connections w1 !! d = Some (with_workspaces (fun s => s ∖ {[ws]}) conn)).
  { subst w1. unfold leave_workspace_for_user. rewrite bind_snd. cbn [gets fst snd].
    set (f := with_workspaces _). change (fun conn_id : Uuid => on_conn f conn_id) with (on_conn (R:=R) f).
    rewrite for_each_on_conn.
    - rewrite decide_True, Hd; [done|]. apply (coherent_index w u d Hw). eauto.
    - intros x. unfold f, with_workspaces. cbn. f_equal. set_solver. }
  set (w2 := (presence_leave_workspace u ws w1).2).
  assert (Hs2 : connections w2 = connections w1).
  { apply (respects_presence_leave (@same_process R) u ws w1). }
  rewrite <-Hs2 in Hd1. clearbody w2. clear w1 Hs2.
  set (w3 := (send_to_user _ u m1 w2).2).
  assert (Hs3 : connections w3 !! d = connections w2 !! d).
  { subst w3. unfold send_to_user. rewrite bind_snd. apply deliver_all_other.
    intros [Hx _]%list_elem_of_filter. cbn in Hx. by apply Is_true_true, bool_decide_eq_true in Hx. }
  rewrite <-Hs3 in Hd1. rewrite <-Hd1. unfold broadcast_to_workspace, fan_out_to. rewrite bind_snd.
  apply deliver_all_other. intros (? & _ & Hi & _)%targets_spec. cbn in Hi.
  by apply bool_decide_eq_true in Hi.
Qed.

(** ** Witnesses *)

Module SampleLog.
Definition event (n : N) : Event :=
  {| event_id := n; event_type := $"message.created"; payload := SampleCodec.payload;
     timestamp := 0; stream_id := None |}.
Definition removal : Event :=
  {| event_id := 2%N; event_type := $"workspace.member_removed"; payload := SampleCodec.payload; timestamp := 0; stream_id := None |}.
#[global] Instance serde : EventSerde := {
  event_to_string e := if str_eqb (event_type e) ($"message.created") then $"e" else $"gone";
  event_from_str s := if str_eqb s ($"e") then Some (event 1%N) else if str_eqb s ($"gone") then Some removal else None;
}.
Definition entry (id : str) : StreamEntry := {| entry_id := id; entry_event := Some ($"e") |}.

(** The log of workspace 20 holds [9-0] and [100-0]; [5-1] was trimmed. *)
Definition store : Store.store :=
  Store.append_entries (workspace_stream 20%N) [entry ($"9-0"); entry ($"100-0")] Store.empty.
Definition world : World Store.store := set_outside Sample.rows store [] [] [] Sample.world.
End SampleLog.

Lemma replay_misses_nothing_witness :
  (replay_workspace 1%N 20%N ($"9-0") SampleLog.world).1 = Caught 1 (Some ($"100-0")) /\
  (replay_workspace 1%N 20%N ($"5-1") SampleLog.world).1 = RefetchRequired.
Proof.
  pose proof (fun last => replay_misses_nothing 1%N 20%N last [SampleLog.entry ($"5-1")]
    (SampleLog.entry ($"9-0")) [SampleLog.entry ($"100-0")] SampleLog.world) as H.
  assert (Ho : ordered [SampleLog.entry ($"5-1"); SampleLog.entry ($"9-0"); SampleLog.entry ($"100-0")]).
  { split.
    - repeat constructor; vm_compute; by eexists.
    - repeat constructor. }
  split; rewrite H; try exact Ho; try (vm_compute; reflexivity); vm_compute; by eexists.
Defined.

Lemma empty_log_is_not_noticed_witness :
  replay_workspace 1%N 20%N ($"5-1") Sample.world = (Caught 0 None, Sample.world).
Proof.
  apply empty_log_is_not_noticed; [vm_compute; reflexivity|vm_compute; by eexists|reflexivity].
Defined.

Lemma replay_confined_witness :
  connections (replay_workspace 2%N 20%N ($"9-0") SampleLog.world).2 !! 1%N = Some Sample.conn.
Proof.
  refine (proj1 (replay_confined 2%N 20%N ($"9-0") SampleLog.world 1%N Sample.conn _ Sample.world_senders
    _ eq_refl)); [|done].
  intros r es e ev Hr. apply list_elem_of_singleton in Hr as ->.
  assert (Es : xrange (workspace_stream 20%N) (XAfter ($"9-0")) (REPLAY_MAX_EVENTS + 1) SampleLog.store = Some [SampleLog.entry ($"100-0")])
    by (vm_compute; reflexivity).
  change (redis SampleLog.world) with SampleLog.store. rewrite Es. intros [= <-] ->%list_elem_of_singleton [= <-].
  split; [vm_compute; reflexivity|vm_compute; discriminate].
Defined.

Lemma replayed_removal_acts_on_others_witness :
  let ev := {| event_id := 1%N; event_type := $"workspace.member_removed";
               payload := SampleCodec.payload; timestamp := 0; stream_id := None |} in
  exists conn, connections (hand_over 2%N ($"9-0", ev) Sample.world).2 !! 1%N = Some conn /\
    (20%N ∉ subscribed_workspaces conn) /\ 20%N ∈ subscribed_workspaces Sample.conn.
Proof.
  intros ev. eexists. split.
  - refine (proj2 (replayed_removal_acts_on_others 2%N ($"9-0") ev 7%N 20%N Sample.world 1%N Sample.conn
      Sample.world_coherent eq_refl _ _ eq_refl eq_refl _)); [vm_compute; reflexivity..|done].
  - split; [cbn; set_solver|cbn; set_solver].
Defined.
