(* ===== verification/WsHandler.v ===== *)
(** * One socket ([backend/realtime/src/ws_handler.rs])

    What a client may ask for, how often, and what happens to its connection
    from the handshake to the cleanup.  A socket's life is the list of what its
    [select!] loop observes, each with the instant it is read at. *)

From stdpp Require Import base tactics option list gmap.
From Stdlib Require Import ZArith Lia String Ascii SpecFloat Sorted.
From S2P Require Import Prelude RustStr Json Frames Redis GatewayState ConnectionManager Presence Huddle.
From S2P Require Import EventConsumer Replay.

(** Instants and durations are in nanoseconds. *)
Definition secs (n : Z) : Z := n * 1000000000.
Definition HEARTBEAT_INTERVAL : Z := secs 30.
Definition PONG_TIMEOUT : Z := secs 90.
Definition TYPING_COALESCE : Z := secs 3.
Definition INBOUND_FLOOD_CLOSE_CODE : Z := 4002.
Definition MAX_JOINS_PER_FRAME : nat := Z.to_nat 1000.

(** [Instant::duration_since], which saturates at zero. *)
Definition duration_since (later earlier : Z) : Z := Z.max 0 (later - earlier).

(** ** Single-precision arithmetic *)

Module F32.
Definition of_Z (n : Z) : spec_float := binary_normalize 24 128 n 0 false.
Definition add : spec_float -> spec_float -> spec_float := SFadd 24 128.
Definition sub : spec_float -> spec_float -> spec_float := SFsub 24 128.
Definition mul : spec_float -> spec_float -> spec_float := SFmul 24 128.
Definition div : spec_float -> spec_float -> spec_float := SFdiv 24 128.
Definition lt : spec_float -> spec_float -> bool := SFltb.
Definition is_nan (x : spec_float) : bool := match x with S754_nan => true | _ => false end.
(** [f32::min]: a NaN loses. *)
Definition min (x y : spec_float) : spec_float :=
  if is_nan x then y else if is_nan y then x else if SFltb y x then y else x.
(** [Duration::as_secs_f32] *)
Definition as_secs (d : Z) : spec_float :=
  add (of_Z (d / 1000000000)) (div (of_Z (d mod 1000000000)) (of_Z 1000000000)).
End F32.

Definition INBOUND_PER_SEC : spec_float := F32.of_Z 20.
Definition INBOUND_BURST : spec_float := F32.of_Z 40.

(** ** What a socket remembers *)

Record InboundState := {
  tokens : spec_float;
  last_refill : Z;
  last_typing : gmap Uuid Z;
  active : bool;
  presence_workspaces : list Uuid;
}.

Module InboundState.
Definition new (at_ : Z) : InboundState :=
  {| tokens := INBOUND_BURST; last_refill := at_; last_typing := ∅; active := false;
     presence_workspaces := [] |}.

Definition with_bucket (t : spec_float) (at_ : Z) (s : InboundState) : InboundState :=
  {| tokens := t; last_refill := at_; last_typing := last_typing s; active := active s;
     presence_workspaces := presence_workspaces s |}.
Definition with_typing (m : gmap Uuid Z) (s : InboundState) : InboundState :=
  {| tokens := tokens s; last_refill := last_refill s; last_typing := m; active := active s;
     presence_workspaces := presence_workspaces s |}.
Definition with_active (b : bool) (s : InboundState) : InboundState :=
  {| tokens := tokens s; last_refill := last_refill s; last_typing := last_typing s; active := b;
     presence_workspaces := presence_workspaces s |}.
Definition with_presence (l : list Uuid) (s : InboundState) : InboundState :=
  {| tokens := tokens s; last_refill := last_refill s; last_typing := last_typing s;
     active := active s; presence_workspaces := l |}.

Definition allow (at_ : Z) (s : InboundState) : bool * InboundState :=
  let elapsed := F32.as_secs (duration_since at_ (last_refill s)) in
  let tokens := F32.min (F32.add (tokens s) (F32.mul elapsed INBOUND_PER_SEC)) INBOUND_BURST in
  if F32.lt tokens (F32.of_Z 1) then (false, with_bucket tokens at_ s)
  else (true, with_bucket (F32.sub tokens (F32.of_Z 1)) at_ s).

Definition should_publish_typing (at_ : Z) (channel_id : Uuid) (s : InboundState) : bool * InboundState :=
  let fresh := (true, with_typing (<[channel_id := at_]> (last_typing s)) s) in
  match last_typing s !! channel_id with
  | Some last => if duration_since at_ last <? TYPING_COALESCE then (false, s) else fresh
  | None => fresh
  end.

Definition forget_typing (channel_id : Uuid) (s : InboundState) : InboundState :=
  with_typing (delete channel_id (last_typing s)) s.
End InboundState.

Definition frame_text `{FrameSerde} (frame : ServerFrame) : str := frame_to_string frame.

Section client.
Context {R : Type} `{Redis R} `{UuidText} `{JsonText} `{FrameSerde} `{RedisArgs} `{EventSerde}.
Context (conn_id user : Uuid).

Definition uuid_json (u : Uuid) : json := JString (uuid_to_string u).

(** ** Subscribing to a workspace *)

Definition sync_frame (ws : Uuid) (sync : Replay) : ServerFrame :=
  match sync with
  | RefetchRequired => FSyncRefetchRequired ws
  | Caught events last_id => FSyncComplete ws (Z.of_nat events) last_id
  end.

Definition synchronise (msg : json) (ws : Uuid) : M R Replay :=
  match get_str ($"last_event_id") msg with
  | Some last_id =>
      if bool_decide (last_id = []) then
        tail ← current_tail ws; mret (Caught 0 tail)
      else replay_workspace conn_id ws last_id
  | None => tail ← current_tail ws; mret (Caught 0 tail)
  end.

(** The presence exchange that follows the synchronisation. *)
Definition announce_arrival (ws : Uuid) : M R unit :=
  _ ← presence_set_online user [ws];
  _ ← presence_arrived user;
  online ← online_users_in_workspace ws;
  statuses ← presence_of_connected online;
  let own := match find (fun p : Uuid * Presence => bool_decide (p.1 = user)) statuses with
             | Some (_, presence) => presence
             | None => Online
             end in
  let batch := FPresenceBatch
    ((fun p : Uuid * Presence => {| entry_user_id := p.1; entry_status := p.2 |}) <$> statuses) in
  _ ← send_to_user Everyone user (frame_text batch);
  settled ← presence_settle user own;
  if settled : bool then mret tt else publish_presence user own.

(** What follows once the membership query has said yes. *)
Definition subscribe_granted (msg : json) (ws : Uuid) (inbound : InboundState) : M R InboundState :=
  _ ← subscribe_workspace conn_id ws;
  sync ← synchronise msg ws;
  _ ← send_to_conn conn_id (frame_text (sync_frame ws sync));
  let known := presence_workspaces inbound in
  let inbound := if bool_decide (ws ∈ known) then inbound
                 else InboundState.with_presence (known ++ [ws]) inbound in
  _ ← announce_arrival ws;
  mret inbound.

Definition subscribe (msg : json) (inbound : InboundState) : M R InboundState :=
  match get_uuid ($"workspace_id") msg with
  | None => mret inbound
  | Some ws =>
      member ← is_workspace_member ws user;
      if negb member then mret inbound else subscribe_granted msg ws inbound
  end.

(** ** Channels and typing *)

Definition requested_channels (msg : json) : list Uuid :=
  match get ($"channel_ids") msg ≫= as_array with
  | Some ids => take MAX_JOINS_PER_FRAME (omap (fun id => as_str id ≫= uuid_parse) ids)
  | None => []
  end.

Definition channel_join (msg : json) : M R unit :=
  let requested := requested_channels msg in
  if bool_decide (requested = []) then mret tt
  else
    allowed ← channel_memberships requested user;
    for_each allowed (fun ch => join_channel conn_id ch).

Definition channel_leave (msg : json) (inbound : InboundState) : M R InboundState :=
  match get_uuid ($"channel_id") msg with
  | None => mret inbound
  | Some ch =>
      _ ← leave_channel conn_id ch;
      mret (InboundState.forget_typing ch inbound)
  end.

Definition typing_start (at_ : Z) (msg : json) (inbound : InboundState) : M R InboundState :=
  match get_uuid ($"channel_id") msg with
  | None => mret inbound
  | Some ch =>
      let '(publish, inbound) := InboundState.should_publish_typing at_ ch inbound in
      if negb publish then mret inbound
      else
        subscribed ← is_subscribed_to_channel conn_id ch;
        if negb subscribed then mret inbound
        else _ ← publish_typing ch user true; mret inbound
  end.

Definition typing_stop (msg : json) (inbound : InboundState) : M R InboundState :=
  match get_uuid ($"channel_id") msg with
  | None => mret inbound
  | Some ch =>
      let inbound := InboundState.forget_typing ch inbound in
      subscribed ← is_subscribed_to_channel conn_id ch;
      if negb subscribed then mret inbound
      else _ ← publish_typing ch user false; mret inbound
  end.

(** ** Huddles *)

Definition huddle_user (huddle : Uuid) : json :=
  JObject [($"huddle_id", uuid_json huddle); ($"user_id", uuid_json user)].

Definition huddle_entered (huddle : Uuid) (transport : HuddleTransport) (promoted : bool) : M R unit :=
  _ ← join_huddle conn_id huddle;
  _ ← publish_huddle ($"huddle.member_joined") (huddle_user huddle);
  _ ← (if promoted then
         publish_huddle ($"huddle.transport")
           (JObject [($"huddle_id", uuid_json huddle); ($"transport", JString ($"sfu"))])
       else mret tt);
  members ← huddle_redis_members huddle;
  send_to_user Everyone user (frame_text (FHuddleMembers huddle members transport)).

Definition huddle_join (msg : json) : M R unit :=
  match get_uuid ($"huddle_id") msg with
  | None => mret tt
  | Some huddle =>
      allowed ← may_join_huddle huddle user;
      if negb allowed then mret tt
      else
        joined ← huddle_redis_try_join huddle user;
        match joined with
        | HuddleFull limit => send_to_conn conn_id (frame_text (FHuddleFull huddle limit))
        | HuddleJoined transport promoted => huddle_entered huddle transport promoted
        end
  end.

(** A user leaves a huddle when none of their sockets here is in it. *)
Definition huddle_left (huddle : Uuid) : M R unit :=
  here ← user_in_huddle_local user huddle;
  if here : bool then mret tt
  else
    left ← huddle_redis_leave huddle user;
    if left : bool then publish_huddle ($"huddle.member_left") (huddle_user huddle) else mret tt.

Definition huddle_leave (msg : json) : M R unit :=
  match get_uuid ($"huddle_id") msg with
  | None => mret tt
  | Some huddle => _ ← leave_huddle conn_id huddle; huddle_left huddle
  end.

Definition signal_payload (huddle to_user : Uuid) (msg : json) : json :=
  let payload := JObject [($"huddle_id", uuid_json huddle); ($"from_user_id", uuid_json user);
                          ($"to_user_id", uuid_json to_user)] in
  let payload := match get ($"sdp") msg with
                 | Some sdp => obj_insert ($"sdp") sdp payload
                 | None => payload
                 end in
  match get ($"candidate") msg with
  | Some candidate => obj_insert ($"candidate") candidate payload
  | None => payload
  end.

(** [!is_member(user) || !is_member(to_user)]: the second lookup is made only
    when the first says yes. *)
Definition both_in_huddle (huddle to_user : Uuid) : M R bool :=
  sender_in ← huddle_redis_is_member huddle user;
  if negb sender_in then mret false else huddle_redis_is_member huddle to_user.

Definition huddle_signalling (msg_type : str) (msg : json) : M R unit :=
  match get_uuid ($"huddle_id") msg, get_uuid ($"to_user_id") msg with
  | Some huddle, Some to_user =>
      both ← both_in_huddle huddle to_user;
      if negb both then mret tt
      else publish_huddle msg_type (signal_payload huddle to_user msg)
  | _, _ => mret tt
  end.

(** [huddle.mute], [huddle.camera], [huddle.screenshare], [huddle.hand]: a
    member says what a flag of theirs is now. *)
Definition huddle_flag (msg_type name : str) (msg : json) : M R unit :=
  match get_uuid ($"huddle_id") msg with
  | None => mret tt
  | Some huddle =>
      member ← huddle_redis_is_member huddle user;
      if negb member then mret tt
      else publish_huddle msg_type
             (JObject [($"huddle_id", uuid_json huddle); ($"user_id", uuid_json user);
                       (name, JBool (default false (get_bool name msg)))])
  end.

Definition huddle_react (msg : json) : M R unit :=
  match get_uuid ($"huddle_id") msg, get_str ($"emoji") msg with
  | Some huddle, Some emoji =>
      if 8 <? chars_count emoji then mret tt
      else
        member ← huddle_redis_is_member huddle user;
        if negb member then mret tt
        else publish_huddle ($"huddle.reaction")
               (JObject [($"huddle_id", uuid_json huddle); ($"user_id", uuid_json user);
                         ($"emoji", JString emoji)])
  | _, _ => mret tt
  end.

Definition set_activity (msg : json) (inbound : InboundState) : M R InboundState :=
  let active := default false (get_bool ($"active") msg) in
  _ ← activity_set user conn_id active;
  _ ← presence_sync user;
  mret (InboundState.with_active active inbound).

(** ** The dispatch *)

(** A handler that leaves the socket's memory as it is. *)
Definition keep (inbound : InboundState) (m : M R unit) : M R InboundState := _ ← m; mret inbound.

Definition client_table (at_ : Z) (msg : json) (inbound : InboundState) : list (str * M R InboundState) :=
  [ ($"subscribe", subscribe msg inbound);
    ($"channel.join", keep inbound (channel_join msg));
    ($"channel.leave", channel_leave msg inbound);
    ($"typing.start", typing_start at_ msg inbound);
    ($"typing.stop", typing_stop msg inbound);
    ($"huddle.join", keep inbound (huddle_join msg));
    ($"huddle.leave", keep inbound (huddle_leave msg));
    ($"huddle.offer", keep inbound (huddle_signalling ($"huddle.offer") msg));
    ($"huddle.answer", keep inbound (huddle_signalling ($"huddle.answer") msg));
    ($"huddle.ice", keep inbound (huddle_signalling ($"huddle.ice") msg));
    ($"huddle.mute", keep inbound (huddle_flag ($"huddle.mute") ($"audio_muted") msg));
    ($"huddle.camera", keep inbound (huddle_flag ($"huddle.camera") ($"camera_on") msg));
    ($"huddle.screenshare", keep inbound (huddle_flag ($"huddle.screenshare") ($"sharing") msg));
    ($"huddle.reaction", keep inbound (huddle_react msg));
    ($"huddle.hand", keep inbound (huddle_flag ($"huddle.hand") ($"raised") msg));
    ($"activity", set_activity msg inbound);
    ($"ping", keep inbound (send_to_user Everyone user (frame_text FPong))) ].

Definition handle_client_message (at_ : Z) (text : str) (inbound : InboundState) : M R InboundState :=
  match json_from_str text with
  | None => mret inbound
  | Some msg =>
      match assoc (default [] (get_str ($"type") msg)) (client_table at_ msg inbound) with
      | Some handler => handler
      | None => mret inbound
      end
  end.
End client.

(** ** The life of a socket *)

(** What [select!] finds ready: a frame from the client, the end of the stream
    (an error, or nothing more to read), or the heartbeat. *)
Inductive SocketEvent :=
| GotText (text : str)
| GotPong
| GotPing
| GotClose
| GotOther
| GotEnd
| Heartbeat.

Record LoopState := { inbound : InboundState; last_pong : Z }.

(** What the loop does next. *)
Inductive flow (A : Type) := Continue (a : A) | Break (a : A).
Arguments Continue {A} a.
Arguments Break {A} a.

Section socket.
Context {R : Type} `{Redis R} `{UuidText} `{JsonText} `{FrameSerde} `{RedisArgs} `{EventSerde}.

Definition renew_activity (user conn_id : Uuid) (at_ : Z) (s : LoopState) : M R unit :=
  if active (inbound s) then
    activity_set user conn_id (duration_since at_ (last_pong s) <=? HEARTBEAT_INTERVAL)
  else mret tt.

(** [for huddle_id in huddles { .. }] of [cleanup]. *)
Definition leave_huddles (user : Uuid) (huddles : list Uuid) : M R unit :=
  for_each huddles (huddle_left user).

Definition cleanup (conn_id user : Uuid) (presence_workspaces : list Uuid) : M R unit :=
  huddles ← huddle_ids_for_conn conn_id;
  removed ← remove_connection conn_id;
  _ ← activity_set user conn_id false;
  _ ← leave_huddles user huddles;
  match removed with
  | Some (uid, true) =>
      fully_offline ← presence_clear uid presence_workspaces;
      if fully_offline : bool then _ ← presence_settle uid Offline; mret tt else mret tt
  | _ => mret tt
  end.

(** [exp_to_deadline], at an instant [at_] when the clock shows [now]. *)
Definition exp_to_deadline (exp : Z) (at_ : Z) : M R Z :=
  now ← now_secs;
  let remaining := exp - now in
  mret (if remaining <=? 0 then at_ else at_ + secs remaining).

Definition on_text (conn_id user tx : Uuid) (at_ : Z) (text : str) (s : LoopState) : M R (flow LoopState) :=
  let '(allowed, bucket) := InboundState.allow at_ (inbound s) in
  if negb allowed then
    _ ← try_send tx (Close INBOUND_FLOOD_CLOSE_CODE ($"too many messages"));
    mret (Break {| inbound := bucket; last_pong := at_ |})
  else
    inbound ← handle_client_message conn_id user at_ text bucket;
    mret (Continue {| inbound := inbound; last_pong := at_ |}).

Definition on_heartbeat (conn_id user tx : Uuid) (deadline at_ : Z) (s : LoopState) : M R (flow LoopState) :=
  if PONG_TIMEOUT <? duration_since at_ (last_pong s) then mret (Break s)
  else if deadline <=? at_ then mret (Break s)
  else
    sent ← try_send tx Ping;
    match sent with
    | Err _ => mret (Break s)
    | Ok _ =>
        _ ← presence_refresh user (presence_workspaces (inbound s));
        _ ← renew_activity user conn_id at_ s;
        _ ← presence_sync user;
        _ ← huddle_redis_refresh_conn conn_id user;
        mret (Continue s)
    end.

Definition on_event (conn_id user tx : Uuid) (deadline at_ : Z) (ev : SocketEvent) (s : LoopState)
    : M R (flow LoopState) :=
  match ev with
  | GotText text => on_text conn_id user tx at_ text s
  | GotPong | GotPing => mret (Continue {| inbound := inbound s; last_pong := at_ |})
  | GotOther => mret (Continue s)
  | GotClose | GotEnd => mret (Break s)
  | Heartbeat => on_heartbeat conn_id user tx deadline at_ s
  end.

(** The loop; a stream with nothing more to read ends it. *)
Fixpoint socket_loop (conn_id user tx : Uuid) (deadline : Z) (events : list (Z * SocketEvent))
    (s : LoopState) : M R LoopState :=
  match events with
  | [] => mret s
  | (at_, ev) :: events =>
      next ← on_event conn_id user tx deadline at_ ev s;
      match next with
      | Continue s => socket_loop conn_id user tx deadline events s
      | Break s => mret s
      end
  end.

(** [writer.abort()]: the receiver is gone and with it what was waiting. *)
Definition abort_writer (c : Chan) : Chan := {| buf := []; closed := true; sink := sink c |}.

(** [handle_ws]: [tx] is the handle of the channel made for the socket, [at_]
    the instant the handshake ended. *)
Definition handle_ws (claims : Claims) (tx : Uuid) (at_ : Z) (events : list (Z * SocketEvent)) : M R unit :=
  let user := sub claims in
  conn_id ← new_v4;
  _ ← modify (set_chans <[tx := open_chan]>);
  _ ← add_connection conn_id user (jti claims) tx;
  workspaces ← user_workspace_ids user;
  let fresh := InboundState.with_presence workspaces (InboundState.new at_) in
  _ ← presence_set_online user (presence_workspaces fresh);
  _ ← presence_arrived user;
  _ ← presence_sync user;
  _ ← try_send tx (Text (frame_text (FHello user conn_id)));
  deadline ← exp_to_deadline (exp claims) at_;
  s ← socket_loop conn_id user tx deadline events {| inbound := fresh; last_pong := at_ |};
  _ ← cleanup conn_id user (presence_workspaces (inbound s));
  modify (set_chans (alter abort_writer tx)).
End socket.

(** ** What serving a client respects *)

(** A relation that serving user [u] on connection [c] respects: it allows what
    every event may do, and a new subscription that the database granted at an
    earlier point of the same handler. *)
Class Serves {R} (c u : Uuid) (Rel : relation (World R)) := {
  serves_manages :: Manages Rel;
  serves_workspace : forall ws w w', (ws, u) ∈ workspace_members (db w) -> Rel w w' ->
    Rel w (subscribe_workspace c ws w').2;
  serves_channel : forall ch w w', (ch, u) ∈ channel_members (db w) -> Rel w w' ->
    Rel w (join_channel c ch w').2;
  serves_huddle : forall h w w', may_join_huddle_db h u (db w) = true -> Rel w w' ->
    Rel w (join_huddle c h w').2;
}.

Section serves.
Context {R : Type} `{Redis R} `{UuidText} `{JsonText} `{FrameSerde} `{RedisArgs} `{EventSerde}.
Context (c u : Uuid) (Rel : relation (World R)) `{HS : !Serves c u Rel}.

#[local] Instance serves_delivers : Delivers Rel.
Proof. destruct HS. apply _. Qed.
#[local] Instance serves_internal : Internal Rel.
Proof. apply _. Qed.

(** A query that says yes said it of the database as it is now. *)
Lemma is_workspace_member_true ws user (w : World R) :
  (is_workspace_member ws user w).1 = true ->
  (ws, user) ∈ workspace_members (db (is_workspace_member ws user w).2).
Proof.
  unfold is_workspace_member, db_query, mbind, M_bind, mret, M_ret.
  destruct (take_tick w) as [[[d r] [f|]] s]; cbn; [done|]. apply bool_decide_eq_true.
Qed.

Lemma may_join_huddle_true h user (w : World R) :
  (may_join_huddle h user w).1 = true ->
  may_join_huddle_db h user (db (may_join_huddle h user w).2) = true.
Proof.
  unfold may_join_huddle, db_query, mbind, M_bind, mret, M_ret.
  by destruct (take_tick w) as [[[d r] [f|]] s].
Qed.

Lemma channel_memberships_granted ids user (w : World R) ch :
  ch ∈ (channel_memberships ids user w).1 ->
  ch ∈ ids /\ (ch, user) ∈ channel_members (db (channel_memberships ids user w).2).
Proof.
  unfold channel_memberships, db_query, mbind, M_bind, mret, M_ret.
  destruct (take_tick w) as [[[d r] [f|]] s]; cbn; [set_solver|].
  intros ([ch' u'] & -> & [[Hi Hu] Hin]%list_elem_of_filter)%list_elem_of_fmap.
  cbn in *. by subst.
Qed.

(** Like [respects_bind], for a first part whose answer says something of the
    world it leaves. *)
Lemma respects_then {A B} (m : M R A) (f : A -> M R B) :
  respects Rel m -> (forall w, Rel (m w).2 (f (m w).1 (m w).2).2) -> respects Rel (m ≫= f).
Proof. intros Hm Hf w. rewrite bind_snd. etransitivity; [apply Hm|apply Hf]. Qed.

Lemma respects_query_member ws : respects Rel (is_workspace_member ws u).
Proof. unfold is_workspace_member. solve_respects. Qed.
Lemma respects_query_channels ids : respects Rel (channel_memberships ids u).
Proof. unfold channel_memberships. solve_respects. Qed.
Lemma respects_query_huddle h : respects Rel (may_join_huddle h u).
Proof. unfold may_join_huddle. solve_respects. Qed.

Lemma respects_leave_one f ch : withdraws f -> respects Rel (on_conn f ch).
Proof. apply manages_withdraw. Qed.

Lemma respects_synchronise msg ws : respects Rel (synchronise c msg ws).
Proof.
  unfold synchronise, current_tail.
  assert (respects Rel (replay_workspace c ws (default [] (get_str ($"last_event_id") msg)))).
  { unfold replay_workspace, oldest_id. solve_respects. apply respects_replay_entries; [apply _|].
    apply respects_for_each; [apply _|]. intros p _. apply respects_handle_event, _. }
  destruct (get_str _ msg); solve_respects.
Qed.

Lemma respects_announce_arrival ws : respects Rel (announce_arrival u ws).
Proof. unfold announce_arrival. solve_respects. Qed.

Lemma respects_subscribe msg i : respects Rel (subscribe c u msg i).
Proof.
  unfold subscribe. destruct (get_uuid _ msg) as [ws|]; [|solve_respects].
  apply respects_then; [apply respects_query_member|]. intros w.
  destruct (is_workspace_member ws u w).1 eqn:E; cbn [negb]; [|apply (respects_ret Rel)].
  apply is_workspace_member_true in E. unfold subscribe_granted. rewrite bind_snd.
  etransitivity; [apply serves_workspace; [exact E|reflexivity]|].
  generalize (subscribe_workspace c ws (is_workspace_member ws u w).2). intros p.
  match goal with |- Rel ?w' (?m ?w').2 => assert (Hr : respects Rel m); [|apply Hr] end.
  pose proof (respects_synchronise msg ws). pose proof (respects_announce_arrival ws).
  unfold send_to_conn. solve_respects.
Qed.

Lemma respects_channel_join msg : respects Rel (channel_join c u msg).
Proof.
  unfold channel_join. case_match; [solve_respects|].
  apply respects_then; [apply respects_query_channels|]. intros w.
  pose proof (channel_memberships_granted (requested_channels msg) u w) as Hg.
  destruct (channel_memberships _ u w) as [allowed w1]. cbn [fst snd] in *.
  assert (Hall : forall l w', (forall ch, ch ∈ l -> ch ∈ allowed) -> Rel w1 w' ->
            Rel w1 (for_each l (fun ch => join_channel c ch) w').2); [|apply Hall; [done|reflexivity]].
  induction l as [|ch l IH]; intros w' Hl Hw'; [done|]. cbn [for_each]. rewrite bind_snd.
  apply IH; [intros ? ?; apply Hl; by right|]. apply serves_channel; [|done].
  apply Hg, Hl. by left.
Qed.

Lemma respects_huddle_entered h tr p w w' :
  may_join_huddle_db h u (db w) = true -> Rel w w' -> Rel w (huddle_entered c u h tr p w').2.
Proof.
  intros Hm Hw. unfold huddle_entered. rewrite bind_snd.
  etransitivity; [apply (serves_huddle h w w' Hm Hw)|].
  generalize (join_huddle c h w'). intros q.
  match goal with |- Rel ?w' (?m ?w').2 => assert (Hr : respects Rel m); [|apply Hr] end.
  solve_respects.
Qed.

Lemma respects_client_huddle_join msg : respects Rel (WsHandler.huddle_join c u msg).
Proof.
  unfold WsHandler.huddle_join. destruct (get_uuid _ msg) as [h|]; [|solve_respects].
  apply respects_then; [apply respects_query_huddle|]. intros w.
  destruct (may_join_huddle h u w).1 eqn:E; cbn [negb]; [|apply (respects_ret Rel)].
  apply may_join_huddle_true in E. rewrite bind_snd.
  set (w1 := (may_join_huddle h u w).2) in *.
  assert (Rel w1 (huddle_redis_try_join h u w1).2) as Hj by (apply respects_try_join, _).
  destruct (huddle_redis_try_join h u w1).1 as [limit|tr p].
  - etransitivity; [exact Hj|]. unfold send_to_conn. apply respects_deliver, _.
  - by apply respects_huddle_entered.
Qed.

Lemma respects_huddle_left h : respects Rel (huddle_left u h).
Proof. unfold huddle_left, user_in_huddle_local. solve_respects. Qed.

Lemma withdraws_huddles x : withdraws (with_huddles (fun s => s ∖ {[x]})).
Proof. intros d. cbn. set_solver. Qed.

(** Every message a client can send. *)
Lemma respects_client at_ text i : respects Rel (handle_client_message c u at_ text i).
Proof.
  unfold handle_client_message. destruct (json_from_str text) as [msg|]; [|solve_respects].
  pose proof respects_huddle_left. pose proof respects_subscribe. pose proof respects_channel_join.
  pose proof respects_client_huddle_join.
  assert (Hall : Forall (fun e => respects Rel e.2) (client_table c u at_ msg i)).
  { unfold client_table, keep, channel_leave, typing_start, typing_stop, huddle_leave, leave_channel,
      leave_huddle, huddle_signalling, both_in_huddle, huddle_flag, huddle_react, set_activity,
      is_subscribed_to_channel.
    repeat (apply Forall_cons; split); [..|by apply Forall_nil]; cbn [fst snd]; solve_respects;
      apply manages_withdraw; (apply withdraws_channels || apply withdraws_huddles). }
  destruct (assoc _ _) as [h|] eqn:E; [|solve_respects].
  apply assoc_In in E. rewrite Forall_forall in Hall.
  refine (Hall (_, h) _). by apply list_elem_of_In.
Qed.
End serves.

(** ** Subscriptions are granted *)

(** The states the database goes through, by the schedule of a world. *)
Fixpoint db_states {R} (d : Db) (s : list (Tick R)) : list Db :=
  d :: match s with [] => [] | t :: s => db_states (tick_db t d) s end.

Definition seen {R} (w : World R) : list Db := db_states (db w) (schedule w).

Lemma seen_now {R} (w : World R) : db w ∈ seen w.
Proof. unfold seen. destruct (schedule w); left. Qed.

(** What is in [s'] was in [s] or was granted. *)
Definition gained (granted : Uuid -> Prop) (s s' : gset Uuid) : Prop :=
  forall x, x ∈ s' -> x ∈ s \/ granted x.

(** The connections of [w'] are connections of [w]; only [c] may have new
    subscriptions, each granted to [u] by a state of the database since [w]. *)
Definition authorised {R} (c u : Uuid) : relation (World R) := fun w w' =>
  (forall D, D ∈ seen w' -> D ∈ seen w) /\
  forall d conn', connections w' !! d = Some conn' -> exists conn, connections w !! d = Some conn /\
    user_id conn' = user_id conn /\ token_jti conn' = token_jti conn /\ sender conn' = sender conn /\
    gained (fun ws => d = c /\ exists D, D ∈ seen w /\ (ws, u) ∈ workspace_members D)
      (subscribed_workspaces conn) (subscribed_workspaces conn') /\
    gained (fun ch => d = c /\ exists D, D ∈ seen w /\ (ch, u) ∈ channel_members D)
      (subscribed_channels conn) (subscribed_channels conn') /\
    gained (fun h => d = c /\ exists D, D ∈ seen w /\ may_join_huddle_db h u D = true)
      (subscribed_huddles conn) (subscribed_huddles conn').

Section authorised.
Context {R : Type} (c u : Uuid).
Implicit Types (w : World R).

Lemma gained_mono (P Q : Uuid -> Prop) s s' : (forall x, P x -> Q x) -> gained P s s' -> gained Q s s'.
Proof. intros HPQ Hg x Hx. destruct (Hg x Hx); auto. Qed.

Lemma gained_trans (P : Uuid -> Prop) s1 s2 s3 : gained P s1 s2 -> gained P s2 s3 -> gained P s1 s3.
Proof. intros H12 H23 x Hx. destruct (H23 x Hx) as [Hx2|]; [apply H12, Hx2|by right]. Qed.

Lemma gained_refl (P : Uuid -> Prop) s s' : s' ⊆ s -> gained P s s'.
Proof. intros Hs x Hx. left. by apply Hs. Qed.

#[local] Hint Resolve gained_refl : core.

#[export] Instance authorised_preorder : PreOrder (authorised (R:=R) c u).
Proof.
  split.
  - intros w. split; [done|]. intros d conn Hc. exists conn. split_and!; auto.
  - intros w1 w2 w3 [S12 H12] [S23 H23]. split; [auto|]. intros d conn3 Hc3.
    destruct (H23 d conn3 Hc3) as (conn2 & Hc2 & ? & ? & ? & Hw & Hch & Hh).
    destruct (H12 d conn2 Hc2) as (conn1 & Hc1 & ? & ? & ? & Hw' & Hch' & Hh').
    exists conn1. split_and!; try done; try congruence.
    all: eapply gained_trans; [eassumption|]; eapply gained_mono; [|eassumption].
    all: intros x (-> & D & HD & Hg); eauto.
Qed.

(** An update of connections that only keeps or withdraws subscriptions. *)
Lemma authorised_shrinks w w' :
  db w' = db w -> schedule w' = schedule w ->
  (forall d conn', connections w' !! d = Some conn' -> exists conn, connections w !! d = Some conn /\
     user_id conn' = user_id conn /\ token_jti conn' = token_jti conn /\ sender conn' = sender conn /\
     subscribed_workspaces conn' ⊆ subscribed_workspaces conn /\
     subscribed_channels conn' ⊆ subscribed_channels conn /\
     subscribed_huddles conn' ⊆ subscribed_huddles conn) -> authorised c u w w'.
Proof.
  intros Hd Hs Hc. split; [unfold seen; by rewrite Hd, Hs|]. intros d conn' Hconn'.
  destruct (Hc d conn' Hconn') as (conn & ? & ? & ? & ? & ? & ? & ?).
  exists conn. split_and!; auto.
Qed.

Lemma authorised_same w w' :
  db w' = db w -> schedule w' = schedule w -> connections w' = connections w -> authorised c u w w'.
Proof.
  intros Hd Hs Hc. apply authorised_shrinks; [done..|]. intros d conn' Hconn'. exists conn'.
  rewrite <-Hc. split_and!; done.
Qed.

#[export] Instance authorised_internal : Internal (authorised (R:=R) c u).
Proof.
  split; [apply _|]. intros d r g s p w Hstep. split; cbn.
  - unfold seen. cbn. destruct Hstep as [[-> ->]|(t & Ht & ->)]; [done|]. rewrite Ht. cbn.
    intros D HD. right. exact HD.
  - intros x conn Hx. exists conn. split_and!; auto.
Qed.

#[export] Instance authorised_manages : Manages (authorised (R:=R) c u).
Proof.
  split; [split; [apply _|intros snd m w|intros x w]|intros f x Hf w].
  - unfold try_send. destruct (chans w !! snd); [|reflexivity].
    destruct (chan_try_send m _); [|reflexivity]. by apply authorised_same.
  - assert (Hout : db (remove_connection x w).2 = db w /\ schedule (remove_connection x w).2 = schedule w).
    { unfold remove_connection, remove_step1, remove_step2, remove_step3. cbn.
      destruct (connections w !! x) as [conn|]; cbn; [|done].
      destruct (user_connections w !! user_id conn); cbn; [|done]. by case_bool_decide. }
    apply authorised_shrinks; [apply Hout..|]. intros d conn'. rewrite remove_connection_connections, lookup_delete_Some. intros [_ Hc].
    exists conn'. done.
  - apply authorised_shrinks; [done..|]. intros d conn'. cbn.
    rewrite lookup_alter. case_decide as E; [|intros Hc; by exists conn'].
    rewrite fmap_Some. intros (conn & Hc & ->). exists conn. subst. pose proof (Hf conn). naive_solver.
Qed.

(** One subscription of [c], granted in the database of [w]. *)
Lemma authorised_adds (f : Connection -> Connection) w w' :
  authorised c u w w' ->
  (forall conn, user_id (f conn) = user_id conn /\ token_jti (f conn) = token_jti conn /\
    sender (f conn) = sender conn /\
    gained (fun ws => (ws, u) ∈ workspace_members (db w)) (subscribed_workspaces conn) (subscribed_workspaces (f conn)) /\
    gained (fun ch => (ch, u) ∈ channel_members (db w)) (subscribed_channels conn) (subscribed_channels (f conn)) /\
    gained (fun h => may_join_huddle_db h u (db w) = true) (subscribed_huddles conn) (subscribed_huddles (f conn))) ->
  authorised c u w (on_conn f c w').2.
Proof.
  intros [Hseen Hw'] Hf. split; [exact Hseen|]. intros d conn'. cbn. rewrite lookup_alter.
  case_decide as E; [subst d|apply Hw']. rewrite fmap_Some. intros (conn2 & Hc2 & ->).
  destruct (Hw' c conn2 Hc2) as (conn & Hc & ? & ? & ? & Hw & Hch & Hh).
  destruct (Hf conn2) as (? & ? & ? & Fw & Fch & Fh).
  exists conn. split_and!; try congruence.
  all: eapply gained_trans; [eassumption|]; eapply gained_mono; [|eassumption].
  all: intros x Hx; split; [done|]; exists (db w); split; [apply seen_now|exact Hx].
Qed.

#[export] Instance authorised_serves : Serves c u (authorised (R:=R) c u).
Proof.
  split; [apply _|..]; intros x w w' Hx Hw; apply authorised_adds; try done; intros conn;
    cbn; split_and!; auto; intros y; rewrite elem_of_union, elem_of_singleton; intros [->|]; auto.
Qed.
End authorised.

#[export] Instance coherent_serves {R} c u : Serves c u (keeping (@coherent R)).
Proof.
  split; [apply _|..]; intros x w w' _ Hw Hc; unfold subscribe_workspace, join_channel, join_huddle;
    (apply (on_conn_coherent _ c); [done|by apply Hw]).
Qed.
#[export] Instance bounded_serves {R} c u : Serves c u (keeping (@bounded R)).
Proof. split; [apply _|..]; intros x w w' _ Hw Hb; exact (Hw Hb). Qed.

Section lifetime.
Context {R : Type} `{Redis R} `{UuidText} `{JsonText} `{FrameSerde} `{RedisArgs} `{EventSerde}.

Lemma respects_on_event (Rel : relation (World R)) c u `{!Serves c u Rel} tx dl at_ ev s :
  respects Rel (on_event c u tx dl at_ ev s).
Proof.
  assert (Delivers Rel) by exact (serves_delivers c u Rel). assert (Internal Rel) by apply _.
  pose proof (respects_client c u Rel) as Hc.
  assert (Ht : forall m, respects Rel (try_send tx m)) by (intros; apply delivers_try_send).
  destruct ev; cbn [on_event]; unfold on_text, on_heartbeat, renew_activity, presence_refresh; solve_respects.
Qed.

Lemma respects_socket_loop (Rel : relation (World R)) c u `{!Serves c u Rel} tx dl evs s :
  respects Rel (socket_loop c u tx dl evs s).
Proof.
  assert (Delivers Rel) by exact (serves_delivers c u Rel).
  revert s. induction evs as [|[at_ ev] evs IH]; intros s; cbn [socket_loop]; [solve_respects|].
  apply respects_bind; [apply _|apply (respects_on_event Rel c u)|]. intros [s'|s']; [apply IH|solve_respects].
Qed.

(** What [cleanup] does once the connection is removed is outside the process. *)
Lemma respects_leave_huddles (Rel : relation (World R)) `{!Internal Rel} u hs :
  respects Rel (leave_huddles u hs).
Proof. unfold leave_huddles, huddle_left, user_in_huddle_local. solve_respects. Qed.

Lemma respects_cleanup (Rel : relation (World R)) `{!Delivers Rel} c u ws :
  respects Rel (cleanup c u ws).
Proof.
  pose proof (respects_leave_huddles Rel u). pose proof (delivers_remove c).
  unfold cleanup, huddle_ids_for_conn. solve_respects.
Qed.

Lemma cleanup_connections c u ws (w : World R) :
  connections (cleanup c u ws w).2 = delete c (connections w).
Proof.
  unfold cleanup. rewrite !bind_snd. set (w1 := (remove_connection c _).2).
  assert (Hw1 : connections w1 = delete c (connections w)) by apply remove_connection_connections.
  rewrite <-Hw1. match goal with |- connections (?m ?w').2 = _ => assert (Hm : respects same_process m) end.
  { case_match; solve_respects. }
  destruct (Hm (leave_huddles u (huddle_ids_for_conn c w).1 (activity_set u c false w1).2).2) as [-> _].
  destruct (respects_leave_huddles same_process u (huddle_ids_for_conn c w).1 (activity_set u c false w1).2) as [-> _].
  by destruct (respects_activity_set same_process u c false w1) as [-> _].
Qed.
End lifetime.

(** C1: no client subscribes itself to what the database did not grant.  Whatever
    a socket sends, however the database changes and whichever calls fail in
    the meantime, running its loop leaves every other connection with at most
    the subscriptions it had, and gives its own connection only workspaces and
    channels that some state of the database since then listed its user as a
    member of, and huddles that state let the user join. *)
Theorem subscriptions_are_granted {R} `{Redis R} `{UuidText} `{JsonText} `{FrameSerde} `{RedisArgs}
    `{EventSerde} c u tx deadline events s (w : World R) d conn' :
  let w' := (socket_loop c u tx deadline events s w).2 in
  connections w' !! d = Some conn' ->
  exists conn, connections w !! d = Some conn /\ user_id conn' = user_id conn /\ sender conn' = sender conn /\
    (forall ws, ws ∈ subscribed_workspaces conn' -> ws ∈ subscribed_workspaces conn \/
       d = c /\ exists D, D ∈ seen w /\ (ws, u) ∈ workspace_members D) /\
    (forall ch, ch ∈ subscribed_channels conn' -> ch ∈ subscribed_channels conn \/
       d = c /\ exists D, D ∈ seen w /\ (ch, u) ∈ channel_members D) /\
    (forall h, h ∈ subscribed_huddles conn' -> h ∈ subscribed_huddles conn \/
       d = c /\ exists D, D ∈ seen w /\ may_join_huddle_db h u D = true).
Proof.
  intros w' Hd.
  destruct (respects_socket_loop (authorised c u) c u tx deadline events s w) as [_ Hw].
  destruct (Hw d conn' Hd) as (conn & ? & ? & ? & ? & ? & ? & ?). by exists conn.
Qed.

(** C31: a socket leaves nothing behind.  Whatever it sends and however its
    services fail, when [handle_ws] returns its connection is not registered,
    the connection table and the per-user index agree, and no writer channel
    is past its capacity. *)
Theorem handle_ws_leaves_nothing {R} `{Redis R} `{UuidText} `{JsonText} `{FrameSerde} `{RedisArgs}
    `{EventSerde} claims tx at_ events (w : World R) :
  coherent w -> bounded w -> connections w !! (new_v4 w).1 = None ->
  let w' := (handle_ws claims tx at_ events w).2 in
  connections w' !! (new_v4 w).1 = None /\ coherent w' /\ bounded w'.
Proof.
  intros Hc Hb Hfresh w'. subst w'. unfold handle_ws. rewrite !bind_snd.
  set (c := (new_v4 w).1) in *. set (u := sub claims).
  set (w0 := (new_v4 w).2).
  set (w1 := (modify (set_chans <[tx:=open_chan]>) w0).2).
  assert (Hp : same_process w w0) by (apply (respects_new_v4 same_process); apply internal_outside).
  destruct Hp as (Hconns & Husers & Hchans).
  assert (Hc1 : coherent w1) by (unfold coherent; cbn; rewrite Hconns, Husers; exact Hc).
  assert (Hb1 : bounded w1).
  { intros h q. cbn. rewrite Hchans, lookup_insert. case_decide; [|apply Hb]. intros [= <-]. cbn. lia. }
  set (w2 := (add_connection c u (jti claims) tx w1).2).
  assert (Hc2 : coherent w2) by (apply add_connection_coherent; [done|]; cbn; by rewrite Hconns).
  assert (Hb2 : bounded w2) by exact Hb1.
  match goal with |- context [(cleanup c u ?ws ?w').2] =>
    set (ws3 := ws); set (w3 := w'); assert (Hrel : forall Rel : relation (World R), Serves c u Rel -> Rel w2 w3) end.
  { intros Rel HS. assert (Delivers Rel) by exact (serves_delivers c u Rel). assert (Internal Rel) by apply _.
    subst w3. etransitivity; [|apply (respects_socket_loop Rel c u)].
    etransitivity; [|assert (Hexp : respects Rel (exp_to_deadline (R:=R) (exp claims) at_)); [|apply Hexp]].
    2: { unfold exp_to_deadline, now_secs. solve_respects. }
    etransitivity; [|apply (delivers_try_send (Rel:=Rel))].
    etransitivity; [|apply (respects_presence_sync Rel)].
    etransitivity; [|apply (respects_presence_arrived Rel)].
    etransitivity; [|apply (respects_presence_set_online Rel)].
    apply (respects_user_workspace_ids Rel). }
  pose proof (Hrel _ (coherent_serves c u) Hc2) as Hc3. pose proof (Hrel _ (bounded_serves c u) Hb2) as Hb3.
  clearbody ws3 w3. cbn. split_and!.
  - rewrite cleanup_connections. apply lookup_delete_eq.
  - exact (respects_cleanup (keeping coherent) c u ws3 w3 Hc3).
  - intros h q. cbn. rewrite lookup_alter. pose proof (respects_cleanup (keeping bounded) c u ws3 w3 Hb3) as Hb4.
    case_decide; [|apply Hb4]. rewrite fmap_Some. intros (q' & _ & ->). cbn. lia.
Qed.

(** ** How often *)

(** The frames of a list of instants that the bucket lets through. *)
Fixpoint admitted (instants : list Z) (s : InboundState) : list bool :=
  match instants with
  | [] => []
  | t :: instants => let '(ok, s) := InboundState.allow t s in ok :: admitted instants s
  end.

Definition bucket (k : Z) (at_ : Z) (s : InboundState) : InboundState :=
  InboundState.with_bucket (F32.of_Z k) at_ s.

(** Forty tokens are counted down without rounding. *)
Definition refilled (k : Z) : spec_float :=
  F32.min (F32.add (F32.of_Z k) (F32.mul (F32.as_secs 0) INBOUND_PER_SEC)) INBOUND_BURST.

Lemma tokens_count_down k :
  0 <= k <= 40 ->
  (F32.lt (refilled k) (F32.of_Z 1), refilled k, F32.sub (refilled k) (F32.of_Z 1)) =
    (k =? 0, F32.of_Z k, F32.of_Z (k - 1)).
Proof.
  intros Hk.
  assert (Hall : map (fun k => (F32.lt (refilled k) (F32.of_Z 1), refilled k, F32.sub (refilled k) (F32.of_Z 1))) (seqZ 0 41)
            = map (fun k => (k =? 0, F32.of_Z k, F32.of_Z (k - 1))) (seqZ 0 41)) by (vm_compute; reflexivity).
  rewrite map_ext_in_iff in Hall. apply Hall. apply list_elem_of_In, elem_of_seqZ. lia.
Qed.

Lemma allow_at_once t k s :
  0 <= k <= 40 ->
  InboundState.allow t (bucket k t s) =
    if k =? 0 then (false, bucket 0 t s) else (true, bucket (k - 1) t s).
Proof.
  intros Hk. unfold InboundState.allow, bucket, duration_since.
  cbn [tokens last_refill InboundState.with_bucket]. rewrite Z.sub_diag. change (Z.max 0 0) with 0.
  pose proof (tokens_count_down k Hk) as Hc.
  pose proof (f_equal (fun p => p.1.1) Hc) as H1. pose proof (f_equal (fun p => p.1.2) Hc) as H2.
  pose proof (f_equal snd Hc) as H3. cbn [fst snd] in H1, H2, H3. unfold refilled in *. rewrite H1, H3.
  fold (refilled k) in *. rewrite H2.
  by destruct (Z.eqb_spec k 0) as [->|].
Qed.

(** A burst is bounded.  Of any number of frames that arrive at one instant
    on a fresh socket, exactly the first [INBOUND_BURST] are let through. *)
Theorem burst_is_bounded (n : nat) (t : Z) :
  admitted (repeat t n) (InboundState.new t) =
    repeat true (Nat.min n 40) ++ repeat false (n - 40).
Proof.
  assert (Hrun : forall s n k, (k <= 40)%nat -> admitted (repeat t n) (bucket (Z.of_nat k) t s) =
            repeat true (Nat.min n k) ++ repeat false (n - k)).
  { intros s. clear n. induction n as [|n IH]; intros k Hk; [done|]. cbn [repeat admitted].
    rewrite allow_at_once by lia. destruct k as [|k].
    - destruct (Z.eqb_spec (Z.of_nat 0) 0); [|done]. change (bucket 0 t s) with (bucket (Z.of_nat 0) t s).
      rewrite (IH 0%nat) by lia. rewrite Nat.min_0_r, Nat.sub_0_r. done.
    - destruct (Z.eqb_spec (Z.of_nat (S k)) 0); [lia|].
      replace (Z.of_nat (S k) - 1) with (Z.of_nat k) by lia. rewrite IH by lia. done. }
  exact (Hrun (InboundState.new t) n 40%nat ltac:(lia)).
Qed.

(** The typing frames of a socket that are published, in order. *)
Fixpoint typing_run (starts : list (Z * Uuid)) (s : InboundState) : list (Z * Uuid) :=
  match starts with
  | [] => []
  | (t, ch) :: starts =>
      let '(publish, s) := InboundState.should_publish_typing t ch s in
      if publish : bool then (t, ch) :: typing_run starts s else typing_run starts s
  end.

Definition instants_of (ch : Uuid) (l : list (Z * Uuid)) : list Z := fst <$> filter (fun p => p.2 = ch) l.

Definition spaced (a b : Z) : Prop := TYPING_COALESCE <= duration_since b a.

Lemma typing_run_spaced starts ch s :
  (forall last, last_typing s !! ch = Some last -> HdRel spaced last (instants_of ch (typing_run starts s))) /\
  Sorted spaced (instants_of ch (typing_run starts s)).
Proof.
  revert s. induction starts as [|[t ch'] starts IH]; intros s; cbn [typing_run].
  { unfold instants_of. cbn. split; intros; constructor. }
  unfold InboundState.should_publish_typing.
  set (s' := InboundState.with_typing (<[ch':=t]> (last_typing s)) s).
  destruct (IH s') as [IH1 IH2].
  assert (Hfresh : forall last, last_typing s !! ch' = last -> (forall l, last = Some l -> spaced l t) ->
    (forall last, last_typing s !! ch = Some last -> HdRel spaced last (instants_of ch ((t, ch') :: typing_run starts s'))) /\
    Sorted spaced (instants_of ch ((t, ch') :: typing_run starts s'))).
  { intros last Hlast Hsp. unfold instants_of in *. rewrite filter_cons. cbn [snd].
    cbn [s' last_typing InboundState.with_typing] in IH1. rewrite lookup_insert in IH1.
    destruct (decide (ch' = ch)) as [->|Hne]; [|done]. cbn [fmap list_fmap fst]. split.
    - intros l Hl. constructor. apply Hsp. congruence.
    - constructor; [done|]. by apply IH1. }
  destruct (last_typing s !! ch') as [last|] eqn:E; [|by apply (Hfresh None)].
  destruct (Z.ltb_spec (duration_since t last) TYPING_COALESCE) as [Hlt|Hge]; [apply IH|].
  apply (Hfresh (Some last)); [done|]. by intros l [= <-].
Qed.

(** Typing is coalesced.  However often a client says it is typing in a
    channel, two announcements of it are never less than three seconds apart,
    and every start either is announced or comes within three seconds of one
    that was. *)
Theorem typing_is_coalesced (starts : list (Z * Uuid)) (t0 : Z) (ch : Uuid) :
  let announced := typing_run starts (InboundState.new t0) in
  Sorted spaced (instants_of ch announced) /\
  (forall t, (t, ch) ∈ starts ->
     exists t', (t', ch) ∈ announced /\ duration_since t t' < TYPING_COALESCE).
Proof.
  intros announced. split; [apply typing_run_spaced|]. subst announced.
  assert (Hrun : forall s t, (t, ch) ∈ starts ->
    (exists last, last_typing s !! ch = Some last /\ duration_since t last < TYPING_COALESCE) \/
    exists t', (t', ch) ∈ typing_run starts s /\ duration_since t t' < TYPING_COALESCE).
  { induction starts as [|[t1 ch1] l IH]; intros s t Ht; [by apply not_elem_of_nil in Ht|].
    cbn [typing_run]. unfold InboundState.should_publish_typing.
    assert (Hnow : duration_since t t < TYPING_COALESCE)
      by (unfold duration_since, TYPING_COALESCE, secs; lia).
    assert (Hfresh : exists t', (t', ch) ∈ (t1, ch1) :: typing_run l (InboundState.with_typing (<[ch1:=t1]> (last_typing s)) s)
              /\ duration_since t t' < TYPING_COALESCE \/ exists last, last_typing s !! ch = Some last /\ duration_since t last < TYPING_COALESCE).
    { apply elem_of_cons in Ht as [[= -> ->]|Ht]; [exists t1; left; split; [left|done]|].
      destruct (IH (InboundState.with_typing (<[ch1:=t1]> (last_typing s)) s) t Ht) as [(last & Hl & Hd)|(t' & Ht' & Hd)].
      - cbn in Hl. rewrite lookup_insert in Hl. case_decide as E; [|exists t; right; eauto].
        simplify_eq. exists last. left. split; [left|done].
      - exists t'. left. split; [by right|done]. }
    destruct (last_typing s !! ch1) as [last|] eqn:E.
    - destruct (Z.ltb_spec (duration_since t1 last) TYPING_COALESCE) as [Hlt|Hge].
      + apply elem_of_cons in Ht as [[= -> ->]|Ht]; [left; eauto|by apply IH].
      + destruct Hfresh as (t' & [[? ?]|?]); [right; eauto|by left].
    - destruct Hfresh as (t' & [[? ?]|?]); [right; eauto|by left]. }
  intros t Ht. destruct (Hrun (InboundState.new t0) t Ht) as [(last & Hl & _)|]; [|done].
  cbn in Hl. by rewrite lookup_empty in Hl.
Qed.

(** ** Signalling *)

Lemma both_in_huddle_quiet {R} `{Redis R} `{UuidText} u h to_user (w : World R) :
  schedule w = [] ->
  both_in_huddle u h to_user w =
    (sismember (huddle_members_key h) (uuid_to_string u) (redis w) &&
     sismember (huddle_members_key h) (uuid_to_string to_user) (redis w), w).
Proof.
  intros Hs. unfold both_in_huddle, huddle_redis_is_member, mbind, M_bind, mret, M_ret.
  rewrite (redis_read_quiet _ w Hs). destruct (sismember _ (uuid_to_string u) _); cbn; [|done].
  by rewrite (redis_read_quiet _ w Hs).
Qed.

Lemma both_in_huddle_fault {R} `{Redis R} `{UuidText} u h to_user (w : World R) t s :
  schedule w = t :: s -> tick_fault t <> None ->
  (both_in_huddle u h to_user w).1 = false /\ published (both_in_huddle u h to_user w).2 = published w.
Proof.
  intros Hs Hf. unfold both_in_huddle, huddle_redis_is_member, redis_read, redis_call, take_tick.
  unfold mbind, M_bind, mret, M_ret. rewrite Hs. by destruct (tick_fault t) as [[]|].
Qed.

(** WebRTC signalling stays inside a huddle and cannot be forged.  A client's
    offer, answer or candidate is published once, to the signalling channel,
    when Redis lists both the client's user and the addressee as members of the
    huddle, and is dropped otherwise, also when a lookup fails; and whatever
    the client wrote in it, the event says it is from the authenticated user. *)
Theorem signalling_is_between_members {R} `{Redis R} `{UuidTextLaws} `{JsonText} `{EventSerde}
    u ty msg h to_user (w : World R) :
  ty ∈ [ $"huddle.offer"; $"huddle.answer"; $"huddle.ice" ] ->
  get_uuid ($"huddle_id") msg = Some h -> get_uuid ($"to_user_id") msg = Some to_user ->
  let w' := (huddle_signalling u ty msg w).2 in
  let event := JObject [($"event_type", JString ty); ($"payload", signal_payload u h to_user msg)] in
  let listed v := sismember (huddle_members_key h) (uuid_to_string v) (redis w) in
  same_process w w' /\
  get_uuid ($"from_user_id") (signal_payload u h to_user msg) = Some u /\
  (schedule w = [] -> published w' = published w ++
     (if listed u && listed to_user then [($"events:huddle-signal", json_to_string event)] else [])) /\
  (forall t s, schedule w = t :: s -> tick_fault t <> None -> published w' = published w).
Proof.
  intros Hty Hh Hto. cbv zeta.
  assert (Hun : huddle_signalling u ty msg = both ← both_in_huddle u h to_user;
            if negb both then mret tt else publish_huddle ty (signal_payload u h to_user msg)).
  { unfold huddle_signalling. by rewrite Hh, Hto. }
  rewrite Hun. split_and!.
  - match goal with |- same_process _ (?m _).2 => assert (Hr : respects same_process m); [|apply Hr] end.
    unfold both_in_huddle. solve_respects.
  - unfold get_uuid, signal_payload. destruct (get ($"sdp") msg), (get ($"candidate") msg);
      cbn [obj_insert]; unfold get; rewrite ?assoc_insert_ne by (vm_compute; discriminate);
      apply uuid_parse_to_string.
  - intros Hs. rewrite bind_snd, (both_in_huddle_quiet u h to_user w Hs). cbn [fst snd].
    destruct (_ && _); cbn [negb]; [|by rewrite app_nil_r].
    unfold publish_huddle.
    assert (str_eqb ty ($"huddle.member_joined") || str_eqb ty ($"huddle.member_left") = false) as ->.
    { rewrite !elem_of_cons, elem_of_nil in Hty. by destruct Hty as [->|[->|[->|[]]]]. }
    unfold publish_event, redis_publish, mbind, M_bind, mret, M_ret. rewrite (take_tick_nil w Hs). reflexivity.
  - intros t s Hs Hf. rewrite bind_snd.
    destruct (both_in_huddle_fault u h to_user w t s Hs Hf) as [-> Hp]. exact Hp.
Qed.

(** ** Witnesses *)

Lemma subscriptions_are_granted_witness :
  let evs := [(0, GotText ($"{}")); (1, GotPong); (2, GotClose)] in
  let s := {| inbound := InboundState.new 0; last_pong := 0 |} in
  exists conn' conn, connections (@socket_loop _ Store.redis SampleCodec.uuid SampleCodec.json SampleCodec.frames
    SampleCodec.args SampleLog.serde 1%N 7%N 100%N 10 evs s Sample.world).2 !! 1%N = Some conn' /\
    connections Sample.world !! 1%N = Some conn /\ user_id conn' = user_id conn.
Proof.
  intros evs s. exists Sample.conn.
  assert (Hc : connections (@socket_loop _ Store.redis SampleCodec.uuid SampleCodec.json SampleCodec.frames
    SampleCodec.args SampleLog.serde 1%N 7%N 100%N 10 evs s Sample.world).2 !! 1%N = Some Sample.conn) by reflexivity.
  destruct (subscriptions_are_granted 1%N 7%N 100%N 10 evs s Sample.world 1%N Sample.conn Hc)
    as (conn & H1 & H2 & _).
  by exists conn.
Defined.

Lemma handle_ws_leaves_nothing_witness :
  let claims := {| sub := 7%N; exp := 2000; iat := 0; jti := None |} in
  let w := set_outside Sample.rows Store.empty [2%N] [] [] Sample.world in
  connections (@handle_ws _ Store.redis SampleCodec.uuid SampleCodec.json SampleCodec.frames
    SampleCodec.args SampleLog.serde claims 101%N 0 [(1, Heartbeat); (2, GotClose)] w).2 !! 2%N = None.
Proof.
  intros claims w.
  exact (proj1 (@handle_ws_leaves_nothing _ Store.redis SampleCodec.uuid SampleCodec.json SampleCodec.frames
    SampleCodec.args SampleLog.serde claims 101%N 0 [(1, Heartbeat); (2, GotClose)] w
    Sample.world_coherent sample_bounded eq_refl)).
Defined.

#[export] Instance sample_uuid_laws : UuidTextLaws SampleCodec.uuid.
Proof. split. intros u. cbn. by rewrite N2Z.id. Qed.

(** Users 7 and 8 are in huddle 9. *)
Lemma signalling_is_between_members_witness :
  let members := sadd ($"huddle:" ++ [9] ++ $":members") [8]
                   (sadd ($"huddle:" ++ [9] ++ $":members") [7] Store.empty) in
  let w := set_outside Sample.rows members [] [] [] Sample.world in
  let msg := JObject [($"huddle_id", JString [9]); ($"to_user_id", JString [8])] in
  length (published (huddle_signalling 7%N ($"huddle.offer") msg w).2) = 1%nat.
Proof.
  intros members w msg.
  destruct (@signalling_is_between_members _ Store.redis SampleCodec.uuid sample_uuid_laws
    SampleCodec.json SampleLog.serde 7%N ($"huddle.offer") msg 9%N 8%N w) as (_ & _ & Hp & _).
  - left.
  - vm_compute. reflexivity.
  - vm_compute. reflexivity.
  - rewrite (Hp eq_refl). vm_compute. reflexivity.
Defined.

Lemma typing_is_coalesced_witness :
  exists t', (t', 30%N) ∈ typing_run [(0, 30%N); (secs 1, 30%N); (secs 4, 30%N)] (InboundState.new 0) /\
    duration_since (secs 1) t' < TYPING_COALESCE.
Proof.
  apply (proj2 (typing_is_coalesced [(0, 30%N); (secs 1, 30%N); (secs 4, 30%N)] 0 30%N)).
  right. left.
Defined.
