(* ===== verification/Rank.v ===== *)
(** * Ranks of list items ([backend/api/src/lists/rank.rs])

    A list item carries a rank, a text over base-62 digits whose byte order is
    the order of the rows ([rank TEXT COLLATE "C"]).  [between] makes a rank
    strictly between two neighbours.  Strings are their UTF-8 bytes here, as
    [str::as_bytes] gives them. *)

From stdpp Require Import base tactics option list gmap.
From Stdlib Require Import ZArith Lia String Ascii.
From S2P Require Import Prelude RustStr.

Definition DIGITS : bytes :=
  $"0123456789ABCDEFGHIJKLMNOPQRSTUVWXYZabcdefghijklmnopqrstuvwxyz".

Definition ZERO : Z := 48.

Definition digit (byte : Z) : Z :=
  Z.of_nat (default O (position (fun d => d =? byte) DIGITS)).

(** [DIGITS[i]]; [digit_at_in_range] below shows that no index of [midpoint]
    is out of range, where Rust would panic. *)
Definition digit_at (i : Z) : Z := default 0 (DIGITS !! Z.to_nat i).

(** [(b as char).to_string()] *)
Definition char_string (b : Z) : bytes := encode_utf8 b.

(** How many leading bytes of [high] the padded [low] shares. *)
Definition shared_len (low high : bytes) : nat :=
  length (take_while
    (fun '(i, byte) => default ZERO (low !! i) =? byte)
    (zip (seq 0 (length high)) high)).

(** [usize::div_ceil(2)] *)
Definition div_ceil2 (n : Z) : Z := (n + 1) / 2.

(** [midpoint] recurses first on what follows the shared prefix, then on the
    tail of [low] with no upper bound; [None] means the fuel ran out, which
    [midpoint_total] excludes for [midpoint_fuel]. *)
Fixpoint midpoint (fuel : nat) (low : bytes) (high : option bytes) : option bytes :=
  match fuel with
  | O => None
  | S fuel =>
      let shared := match high with Some h => shared_len low h | None => O end in
      match high, shared with
      | Some h, S _ =>
          let prefix := from_utf8_lossy (take shared h) in
          let rest_low := drop shared low in
          rest ← midpoint fuel rest_low (Some (drop shared h));
          Some (prefix ++ rest)
      | _, _ =>
          let low_digit := default 0 (digit <$> head low) in
          let high_digit := default (Z.of_nat (length DIGITS)) (digit <$> (high ≫= head)) in
          if 1 <? usize_sub high_digit low_digit then
            let mid := div_ceil2 (low_digit + high_digit) in
            Some (char_string (digit_at mid))
          else
            match high with
            | Some (h0 :: _ :: _) => Some (char_string h0)
            | _ =>
                rest ← midpoint fuel (tail low) None;
                Some (char_string (digit_at low_digit) ++ rest)
            end
      end
  end.

(** What each recursive call makes smaller. *)
Definition midpoint_fuel (low : bytes) (high : option bytes) : nat :=
  S (length low + match high with Some h => S (length h) | None => O end).

Definition between (before after : option bytes) : bytes :=
  let low := default [] before in
  default [] (midpoint (midpoint_fuel low after) low after).

(** The order the database gives the rows: byte by byte, a prefix first. *)
Fixpoint bytes_lt (a b : bytes) : Prop :=
  match a, b with
  | [], [] => False
  | [], _ :: _ => True
  | _ :: _, [] => False
  | x :: a, y :: b => x < y \/ (x = y /\ bytes_lt a b)
  end.

(** What every stored rank satisfies: digits only, at least one, and no
    trailing zero (nothing could be inserted before a rank of zeros). *)
Definition is_digit (b : Z) : Prop := b ∈ DIGITS.
Definition open_rank (r : bytes) : Prop := Forall is_digit r /\ last r <> Some ZERO.
Definition is_rank (r : bytes) : Prop := r <> [] /\ open_rank r.

#[export] Instance bytes_lt_dec a b : Decision (bytes_lt a b).
Proof.
  revert b. induction a as [|x a IH]; intros [|y b]; cbn; try apply _.
Defined.
#[export] Instance is_digit_dec b : Decision (is_digit b).
Proof. unfold is_digit. apply _. Defined.
#[export] Instance is_rank_dec r : Decision (is_rank r).
Proof. unfold is_rank, open_rank. apply _. Defined.

(** ** Digits *)

Lemma position_spec {A} (p : A -> bool) (l : list A) i :
  position p l = Some i -> exists x, l !! i = Some x /\ p x = true.
Proof.
  revert i. induction l as [|y l IH]; intros i; cbn; [done|].
  destruct (p y) eqn:E; [intros [= <-]; eauto|].
  destruct (position p l); cbn; [|done]. intros [= <-]. by apply IH.
Qed.

Lemma position_is_Some {A} (p : A -> bool) (l : list A) x :
  x ∈ l -> p x = true -> is_Some (position p l).
Proof.
  induction l as [|y l IH]; cbn; [set_solver|]. intros Hx Hp.
  destruct (p y) eqn:E; [eauto|]. apply fmap_is_Some, IH; [|done].
  apply elem_of_cons in Hx as [->|]; congruence.
Qed.

(** A table indexed by the 62 digits, checked once by evaluation. *)
Definition digit_ok (i : nat) : bool :=
  (digit (digit_at (Z.of_nat i)) =? Z.of_nat i)
  && (0 <=? digit_at (Z.of_nat i)) && (digit_at (Z.of_nat i) <? 128)
  && (if decide (i = O) then digit_at 0 =? ZERO else ZERO <? digit_at (Z.of_nat i))
  && forallb (fun j => Bool.eqb (j <? i)%nat (digit_at (Z.of_nat j) <? digit_at (Z.of_nat i)))
       (seq 0 62).

Lemma digits_table : forallb digit_ok (seq 0 62) = true.
Proof. vm_compute. reflexivity. Qed.

Lemma digit_table i : 0 <= i < 62 -> digit_ok (Z.to_nat i) = true.
Proof.
  intros Hi. pose proof digits_table as H. rewrite forallb_forall in H.
  apply H, in_seq. lia.
Qed.

Lemma digit_at_facts i : 0 <= i < 62 ->
  digit (digit_at i) = i /\ 0 <= digit_at i < 128 /\ is_digit (digit_at i) /\
  (i <> 0 -> ZERO < digit_at i).
Proof.
  intros Hi. pose proof (digit_table i Hi) as H. unfold digit_ok in H.
  rewrite Z2Nat.id in H by lia. bool_hyps.
  split; [done|]. split; [lia|]. split.
  - unfold is_digit, digit_at. destruct (DIGITS !! Z.to_nat i) as [x|] eqn:E; cbn.
    + by eapply list_elem_of_lookup_2.
    + apply lookup_ge_None in E. change (length DIGITS) with 62%nat in E. lia.
  - intros Hne. case_decide; [lia|]. by apply Z.ltb_lt.
Qed.

Lemma digit_at_mono i j : 0 <= i < j -> j < 62 -> digit_at i < digit_at j.
Proof.
  intros Hi Hj. pose proof (digit_table j ltac:(lia)) as H. unfold digit_ok in H.
  rewrite Z2Nat.id in H by lia. apply andb_true_iff in H as [_ H].
  rewrite forallb_forall in H. specialize (H (Z.to_nat i)).
  rewrite Z2Nat.id in H by lia. apply Z.ltb_lt.
  rewrite (proj2 (Nat.ltb_lt _ _)) in H by lia.
  symmetry. apply eqb_prop, H, in_seq. lia.
Qed.

Lemma is_digit_at b : is_digit b -> exists i, 0 <= i < 62 /\ b = digit_at i.
Proof.
  intros [i Hi]%list_elem_of_lookup. exists (Z.of_nat i).
  unfold digit_at. rewrite Nat2Z.id, Hi. split; [|done].
  apply lookup_lt_Some in Hi. change (length DIGITS) with 62%nat in Hi. lia.
Qed.

Lemma digit_facts b : is_digit b ->
  0 <= digit b < 62 /\ digit_at (digit b) = b /\ ZERO <= b < 128 /\ (digit b = 0 <-> b = ZERO).
Proof.
  intros (i & Hi & ->)%is_digit_at. pose proof (digit_at_facts i Hi) as (E & Hb & _ & Hz).
  rewrite E. split; [done|]. split; [done|].
  destruct (decide (i = 0)) as [->|Hne]; [change (digit_at 0) with ZERO in *; lia|].
  specialize (Hz Hne). lia.
Qed.

Lemma digit_lt b c : is_digit b -> is_digit c -> b < c -> digit b < digit c.
Proof.
  intros (i & Hi & ->)%is_digit_at (j & Hj & ->)%is_digit_at Hlt.
  destruct (digit_at_facts i Hi) as [-> _], (digit_at_facts j Hj) as [-> _].
  destruct (Z.lt_trichotomy i j) as [?|[->|?]]; [done|lia|].
  pose proof (digit_at_mono j i ltac:(lia) ltac:(lia)). lia.
Qed.

Lemma char_string_digit i : 0 <= i < 62 -> char_string (digit_at i) = [digit_at i].
Proof.
  intros Hi. destruct (digit_at_facts i Hi) as (_ & Hb & _).
  unfold char_string, encode_utf8. by rewrite (proj2 (Z.ltb_lt _ _)) by lia.
Qed.

Lemma char_string_is_digit b : is_digit b -> char_string b = [b].
Proof. intros (i & Hi & ->)%is_digit_at. by apply char_string_digit. Qed.

(** ** The shared prefix *)

Lemma shared_len_cons low h hs :
  shared_len low (h :: hs) =
    if default ZERO (head low) =? h then S (shared_len (tail low) hs) else O.
Proof.
  unfold shared_len. cbn.
  replace (default ZERO (low !! 0%nat)) with (default ZERO (head low)) by (by destruct low).
  destruct (default ZERO (head low) =? h); [|done]. cbn. f_equal.
  rewrite <-seq_shift. generalize (seq 0 (length hs)). intros ns.
  revert hs. induction ns as [|n ns IH]; intros [|x hs]; cbn; try done.
  replace (low !! S n) with (tail low !! n) by (by destruct low).
  destruct (default ZERO (tail low !! n) =? x); cbn; [|done]. by rewrite IH.
Qed.

Lemma shared_len_le low high : (shared_len low high <= length high)%nat.
Proof.
  revert low. induction high as [|h hs IH]; intros low; [done|].
  rewrite shared_len_cons. case_match; cbn; [|lia]. specialize (IH (tail low)). lia.
Qed.

(** ** Termination: the fuel [between] passes is always enough *)

Lemma midpoint_total fuel low high :
  (midpoint_fuel low high <= fuel)%nat -> is_Some (midpoint fuel low high).
Proof.
  revert low high. induction fuel as [|fuel IH]; intros low high; unfold midpoint_fuel.
  { lia. }
  intros Hf. cbn [midpoint].
  assert (Hnext : forall low' high', (midpoint_fuel low' high' <= fuel)%nat ->
    forall f : bytes -> bytes,
    is_Some (rest ← midpoint fuel low' high'; Some (f rest))).
  { intros low' high' Hle f. destruct (IH low' high' Hle) as [r ->]. by eexists. }
  destruct high as [h|].
  - destruct (shared_len low h) as [|n] eqn:En.
    + case_match; [by eexists|].
      destruct h as [|h0 [|h1 h']]; cbn in *; try (by eexists);
        apply Hnext; unfold midpoint_fuel; destruct low; cbn in *; lia.
    + pose proof (shared_len_le low h) as Hle. rewrite En in Hle.
      apply Hnext. unfold midpoint_fuel. rewrite !length_drop. lia.
  - destruct low as [|l low]; [by eexists|].
    case_match; [by eexists|]. apply Hnext. unfold midpoint_fuel. cbn in *. lia.
Qed.

(** ** Byte order *)

Lemma bytes_lt_app p a b : bytes_lt a b -> bytes_lt (p ++ a) (p ++ b).
Proof. intros H. induction p; cbn; auto. Qed.

Lemma bytes_lt_app_inv p a b : bytes_lt (p ++ a) (p ++ b) -> bytes_lt a b.
Proof. induction p as [|x p IH]; cbn; [done|]. intros [?|[_ ?]]; [lia|auto]. Qed.

Lemma bytes_lt_irrefl a : ~ bytes_lt a a.
Proof.
  induction a as [|x a IH]; cbn; [by intros []|].
  intros [?|[_ ?]]; [lia|by apply IH].
Qed.

Lemma bytes_lt_prefix p x a : bytes_lt p (p ++ x :: a).
Proof. induction p; cbn; auto. Qed.

Lemma bytes_lt_trans a b c : bytes_lt a b -> bytes_lt b c -> bytes_lt a c.
Proof.
  revert b c. induction a as [|x a IH]; intros [|y b] [|z c]; cbn; try done.
  intros [?|[-> ?]] [?|[-> ?]]; [left; lia|by left|by left|right; eauto].
Qed.

(** ** Ranks *)

Lemma open_rank_nil : open_rank [].
Proof. split; [constructor|done]. Qed.

Lemma open_rank_cons x r : is_digit x -> open_rank r -> (r = [] -> x <> ZERO) -> is_rank (x :: r).
Proof.
  intros Hx [Hr Hl] Hz. split; [done|]. split; [by constructor|].
  destruct r as [|y r]; cbn in *; [intros [= ->]; by apply Hz|done].
Qed.

Lemma open_rank_tail r : open_rank r -> open_rank (tail r).
Proof.
  intros [Hr Hl]. destruct r as [|x r]; [apply open_rank_nil|].
  inversion_clear Hr. split; [done|]. destruct r; [done|exact Hl].
Qed.

Lemma open_rank_head x r : open_rank (x :: r) -> is_digit x.
Proof. intros [H _]. by inversion H. Qed.

Lemma is_rank_cons x r : is_digit x -> is_rank r -> is_rank (x :: r).
Proof. intros Hx [Hne Hr]. by apply open_rank_cons. Qed.

Lemma is_rank_app p r : Forall is_digit p -> is_rank r -> is_rank (p ++ r).
Proof. intros Hp Hr. induction Hp; cbn; [done|]. by apply is_rank_cons. Qed.

Lemma digits_ascii p : Forall is_digit p -> Forall (fun b => b < 128) p.
Proof. intros Hp. eapply Forall_impl; [exact Hp|]. intros b (_ & _ & Hb & _)%digit_facts. lia. Qed.

(** A lower bound and the upper bound still to be separated: either they differ
    at once, or [high] continues past the prefix they share. *)
Lemma shared_split low high :
  open_rank low -> is_rank high -> bytes_lt low high ->
  let n := shared_len low high in
  exists p rest, high = p ++ rest /\ length p = n /\ is_rank rest /\ open_rank (drop n low) /\
    Forall is_digit p /\ bytes_lt (drop n low) rest /\
    (drop n low = [] \/ low = p ++ drop n low) /\ shared_len (drop n low) rest = O /\
    (forall m, m <> [] -> bytes_lt (drop n low) m -> bytes_lt low (p ++ m)).
Proof.
  intros Hlow Hhigh Hlt. cbn zeta.
  revert low Hlow Hhigh Hlt.
  induction high as [|h hs IH]; intros low Hlow Hhigh Hlt; [by destruct Hhigh|].
  rewrite shared_len_cons.
  destruct (default ZERO (head low) =? h) eqn:E; bool_hyps.
  2:{ exists [], (h :: hs). rewrite drop_0. split_and!; auto.
      rewrite shared_len_cons. by rewrite (proj2 (Z.eqb_neq _ _)). }
  assert (Hhd : is_digit h) by (eapply open_rank_head; apply Hhigh).
  assert (Hhs : is_rank hs).
  { destruct hs as [|h1 hs].
    - exfalso. destruct Hhigh as (_ & _ & Hz). cbn in Hz.
      destruct low as [|l low]; cbn in *; [congruence|].
      subst l. destruct Hlt as [?|[_ Hlt]]; [lia|]. by destruct low.
    - split; [done|]. apply (open_rank_tail (h :: h1 :: hs)), Hhigh. }
  assert (Hlt' : bytes_lt (tail low) hs).
  { destruct low as [|l low]; cbn in *; [destruct hs; [by destruct Hhs|done]|].
    subst l. destruct Hlt as [?|[_ ?]]; [lia|done]. }
  destruct (IH (tail low) (open_rank_tail _ Hlow) Hhs Hlt')
    as (p & rest & -> & Hp & Hr & Hd & Hdig & Hlr & Hpre & Hsh & Hm).
  replace (drop (S (shared_len (tail low) (p ++ rest))) low)
    with (drop (shared_len (tail low) (p ++ rest)) (tail low)) by (destruct low; cbn; [by rewrite ?drop_nil|done]).
  exists (h :: p), rest. split_and!; try done.
  - cbn. by rewrite Hp.
  - by constructor.
  - destruct low as [|l low]; cbn in *; [left; by rewrite drop_nil|].
    subst l. destruct Hpre as [?|Hpre]; [by left|right; by rewrite <-Hpre].
  - intros m Hne Hmm. specialize (Hm m Hne Hmm).
    destruct low as [|l low]; cbn in *; [done|]. subst l. by right.
Qed.

(** The bounds [midpoint] is called with: an open lower bound, and an upper
    bound above it if there is one. *)
Definition bounds_ok (low : bytes) (high : option bytes) : Prop :=
  open_rank low /\ forall h, high = Some h -> is_rank h /\ bytes_lt low h.

Definition strictly_between (low : bytes) (high : option bytes) (m : bytes) : Prop :=
  is_rank m /\ bytes_lt low m /\ forall h, high = Some h -> bytes_lt m h.

Lemma bytes_lt_digit low x r : (forall l, head low = Some l -> l < x) -> bytes_lt low (x :: r).
Proof. destruct low as [|l low]; cbn; [done|]. intros H. left. by apply H. Qed.

(** One step of [midpoint] past the shared prefix. *)
Section step.
Context (low : bytes) (high : option bytes) (Hb : bounds_ok low high)
  (Hshared : forall h, high = Some h -> shared_len low h = O).

Let l := default 0 (digit <$> head low).
Let u := default (Z.of_nat (length DIGITS)) (digit <$> (high ≫= head)).

#[using="Hb Hshared"]
Lemma step_low : 0 <= l < 62 /\ (forall b, head low = Some b -> b = digit_at l) /\
  (low = [] -> l = 0).
Proof.
  subst l. destruct Hb as [Hl _]. destruct low as [|b low']; cbn; [split_and!; (done || lia)|].
  apply open_rank_head, digit_facts in Hl as (? & ? & _).
  split_and!; [lia|lia|by intros ? [= <-]|done].
Qed.

Lemma step_high : l < u <= 62 /\ forall h r, high = Some (h :: r) -> is_digit h /\ digit h = u.
Proof.
  pose proof step_low as (Hl & Hlb & Hl0). subst u. destruct high as [[|h r]|]; cbn.
  - by destruct (proj2 Hb _ eq_refl) as [[Hne _] _].
  - destruct (proj2 Hb _ eq_refl) as [[_ Hr] Hlt].
    specialize (Hshared _ eq_refl). rewrite shared_len_cons in Hshared.
    pose proof (open_rank_head _ _ Hr) as Hh. pose proof (digit_facts h Hh) as (Hd & _ & Hz & H0).
    assert (Hne : default ZERO (head low) <> h)
      by (intros E; rewrite (proj2 (Z.eqb_eq _ _) E) in Hshared; done).
    split; [|by intros ? ? [= <- <-]]. split; [|lia].
    destruct low as [|b low']; cbn in *.
    + specialize (Hl0 eq_refl). lia.
    + destruct Hlt as [Hlt|[? _]]; [|done].
      pose proof (digit_lt b h (open_rank_head _ _ (proj1 Hb)) Hh Hlt). lia.
  - change (length DIGITS) with 62%nat. split; [lia|done].
Qed.

Lemma step_mid i : l < i < u -> strictly_between low high [digit_at i].
Proof.
  intros Hi.
  pose proof step_low as (Hl & Hlb & _). pose proof step_high as (Hu & Hhd).
  pose proof (digit_at_facts i ltac:(lia)) as (_ & _ & Hd & Hz).
  split_and!.
  - apply open_rank_cons; [done|apply open_rank_nil|]. intros _. specialize (Hz ltac:(lia)). lia.
  - apply bytes_lt_digit. intros b ->%Hlb. apply digit_at_mono; lia.
  - intros [|h r'] E; [by destruct (proj2 Hb _ E) as [[? _] _]|].
    destruct (Hhd h r' E) as [Hh Hdh]. left. destruct (digit_facts h Hh) as (? & <- & _).
    apply digit_at_mono; lia.
Qed.

(** The upper bound's first digit alone already separates. *)
Lemma step_first h h1 r : high = Some (h :: h1 :: r) -> strictly_between low high [h].
Proof.
  intros E. pose proof step_low as (Hl & Hlb & Hl0). pose proof step_high as (Hu & Hhd).
  destruct (Hhd _ _ E) as [Hh Hd]. pose proof (digit_facts h Hh) as (? & Hda & _ & H0).
  split_and!.
  - apply open_rank_cons; [done|apply open_rank_nil|]. intros _. lia.
  - apply bytes_lt_digit. intros b ->%Hlb. rewrite <-Hda. apply digit_at_mono; lia.
  - intros ? E'. rewrite E in E'. injection E' as <-. cbn. by right.
Qed.

(** Keeping the lower bound's digit and going past its tail. *)
Lemma step_tail m : strictly_between (tail low) None m ->
  strictly_between low high (digit_at l :: m).
Proof.
  intros (Hm & Hlt & _). pose proof step_low as (Hl & Hlb & Hl0). pose proof step_high as (Hu & Hhd).
  pose proof (digit_at_facts l ltac:(lia)) as (_ & _ & Hd & _).
  split_and!.
  - by apply is_rank_cons.
  - destruct low as [|b low']; cbn in *; [done|]. right. split; [by apply Hlb|done].
  - intros [|h r'] E; [by destruct (proj2 Hb _ E) as [[? _] _]|].
    destruct (Hhd h r' E) as [Hh Hdh]. left. destruct (digit_facts h Hh) as (? & <- & _).
    apply digit_at_mono; lia.
Qed.

End step.

Lemma bounds_tail low high : bounds_ok low high -> bounds_ok (tail low) None.
Proof. intros [Hl _]. split; [by apply open_rank_tail|done]. Qed.

Lemma midpoint_separates fuel low high m :
  bounds_ok low high -> midpoint fuel low high = Some m -> strictly_between low high m.
Proof.
  revert low high m. induction fuel as [|fuel IH]; intros low high m Hb; [done|].
  cbn [midpoint].
  destruct (match high with Some h => shared_len low h | None => O end) as [|n] eqn:En.
  - (* The bounds differ in their first digit. *)
    assert (Hs : forall h, high = Some h -> shared_len low h = O) by (by intros h ->).
    pose proof (proj1 (step_low low high Hb Hs)) as Hl.
    pose proof (proj1 (step_high low high Hb Hs)) as Hu.
    set (l := default 0 (digit <$> head low)) in *.
    set (u := default (Z.of_nat (length DIGITS)) (digit <$> (high ≫= head))) in *.
    assert (Hstep : forall r, (rest ← midpoint fuel (tail low) None;
      Some (char_string (digit_at l) ++ rest)) = Some r ->
                    strictly_between low high r).
    { intros r (rest & Hrest & [= <-])%bind_Some. rewrite char_string_digit by done.
      apply step_tail; [done..|].
      exact (IH _ _ _ (bounds_tail _ _ Hb) Hrest). }
    rewrite usize_sub_small by (unfold U64_MAX; lia).
    intros H. destruct (1 <? u - l) eqn:E; bool_hyps.
    + assert (Hmid : l < div_ceil2 (l + u) < u)
        by (unfold div_ceil2; Z.div_mod_to_equations; lia).
      assert (m = [digit_at (div_ceil2 (l + u))]) as ->.
      { rewrite char_string_digit in H by lia. destruct high; by injection H as <-. }
      by apply step_mid.
    + destruct high as [[|h0 [|h1 h]]|]; try by apply Hstep.
      pose proof (step_first low _ Hb Hs h0 h1 h eq_refl) as Hfirst.
      pose proof (proj2 Hb _ eq_refl) as [[_ Hr] _]. apply open_rank_head in Hr.
      rewrite char_string_is_digit in H by done. by injection H as <-.
  - (* They share a prefix: keep it and separate what follows. *)
    destruct high as [h|]; [|done].
    destruct Hb as [Hlow Hh]. specialize (Hh h eq_refl) as [Hh Hlt].
    pose proof (shared_split low h Hlow Hh Hlt)
      as (p & rest & -> & Hp & Hr & Hd & Hdig & Hlr & _ & _ & Hm).
    rewrite En in *. intros (r & Hrest & [= <-])%bind_Some.
    rewrite take_app_length' by done.
    rewrite drop_app_length' in Hrest by done.
    rewrite from_utf8_lossy_ascii by (by apply digits_ascii).
    assert (Hb : bounds_ok (drop (S n) low) (Some rest)).
    { split; [done|]. intros h E. injection E as <-. done. }
    destruct (IH _ _ _ Hb Hrest) as (Hr1 & Hr2 & Hr3).
    split_and!.
    + by apply is_rank_app.
    + apply Hm; [by destruct Hr1|done].
    + intros h E. injection E as <-. by apply bytes_lt_app, Hr3.
Qed.

(** ** Properties *)

(** The bounds a caller passes: no bound, or the rank of a stored item, the
    first below the second. *)
Definition neighbours (before after : option bytes) : Prop :=
  (forall b, before = Some b -> is_rank b) /\ (forall a, after = Some a -> is_rank a) /\
  (forall b a, before = Some b -> after = Some a -> bytes_lt b a).

Lemma neighbours_bounds before after :
  neighbours before after -> bounds_ok (default [] before) after.
Proof.
  intros (Hb & Ha & Hba). split.
  - destruct before as [b|]; [by apply Hb|apply open_rank_nil].
  - intros a Ea. split; [by apply Ha|]. destruct before as [b|]; [by apply Hba|].
    destruct a; [by destruct (Ha _ Ea)|done].
Qed.

(** What [between] gives, with its bounds in one piece. *)
Lemma between_separates before after :
  neighbours before after -> strictly_between (default [] before) after (between before after).
Proof.
  intros H%neighbours_bounds. unfold between.
  destruct (midpoint_total _ (default [] before) after (le_n _)) as [m Hm].
  rewrite Hm. by eapply midpoint_separates.
Qed.

Lemma between_above before :
  (forall b, before = Some b -> is_rank b) ->
  is_rank (between before None) /\ (forall b, before = Some b -> bytes_lt b (between before None)).
Proof.
  intros Hb. destruct (between_separates before None) as (Hr & Hlo & _); [by split_and!|].
  split; [done|]. intros b ->. exact Hlo.
Qed.

(** A rank made by [between] from the ranks of two neighbouring items (either
    may be missing) is itself a well-formed rank and sorts strictly between
    them: it exists (no fuel runs out), ends in no zero, is byte-greater than
    [before] and byte-smaller than [after]. *)
Theorem between_strictly_between before after :
  neighbours before after ->
  let m := between before after in
  is_rank m /\
  (forall b, before = Some b -> bytes_lt b m) /\ (forall a, after = Some a -> bytes_lt m a).
Proof.
  intros (Hr & Hlo & Hhi)%between_separates m.
  split_and!; [done| |done]. intros b ->. exact Hlo.
Qed.

Lemma between_strictly_between_witness :
  neighbours (Some ($"a0V")) (Some ($"a1")) /\
  bytes_lt ($"a0V") (between (Some ($"a0V")) (Some ($"a1"))).
Proof.
  assert (H : neighbours (Some ($"a0V")) (Some ($"a1"))).
  { split_and!; intros; simplify_eq; by apply (bool_decide_unpack _). }
  split; [exact H|].
  destruct (between_strictly_between _ _ H) as (_ & Hlo & _). by apply Hlo.
Defined.

(** Items added one after the other at the end of a list. *)
Fixpoint append_ranks (n : nat) (before : option bytes) : list bytes :=
  match n with
  | O => []
  | S n => let r := between before None in r :: append_ranks n (Some r)
  end.

(** Any number of items appended one after the other get well-formed ranks in
    strictly increasing order, all above the item the list ended with. *)
Theorem append_ranks_sorted n before :
  (forall b, before = Some b -> is_rank b) ->
  Forall is_rank (append_ranks n before) /\
  (forall b, before = Some b -> Forall (bytes_lt b) (append_ranks n before)) /\
  (forall i x y, append_ranks n before !! i = Some x ->
     append_ranks n before !! S i = Some y -> bytes_lt x y).
Proof.
  revert before. induction n as [|n IH]; intros before Hb; cbn; [by auto|].
  destruct (between_above before Hb) as [Hr Hlo].
  set (r := between before None) in *.
  destruct (IH (Some r)) as (Hall & Habove & Hnext); [by intros ? [= <-]|].
  specialize (Habove r eq_refl). split_and!.
  - by constructor.
  - intros b Eb. constructor; [by apply Hlo|].
    eapply Forall_impl; [exact Habove|]. intros x. apply bytes_lt_trans. by apply Hlo.
  - intros [|i] x y; cbn; [|apply Hnext].
    intros [= <-] Hy. eapply Forall_lookup_1 in Habove; [done|exact Hy].
Qed.

Lemma append_ranks_sorted_witness :
  Forall is_rank (append_ranks 70 (Some ($"z"))) /\ length (append_ranks 70 (Some ($"z"))) = 70%nat.
Proof.
  split; [|vm_compute; reflexivity].
  apply (append_ranks_sorted 70 (Some ($"z"))). intros b [= <-]. by apply (bool_decide_unpack _).
Defined.
