(* ===== verification/Ranges.v ===== *)
(** * Ranges of a file ([backend/api/src/files/ranges.rs])

    Reading a [Range] header and cutting it to the object. *)

From stdpp Require Import base tactics option list.
From Stdlib Require Import ZArith Lia String Ascii.
From S2P Require Import Prelude RustStr.

Inductive ByteRange :=
| From (first : Z)
| Bounded (first last : Z)
| Suffix (length : Z).

Module ByteRange.
Definition parse (header : str) : option ByteRange :=
  spec ← strip_prefix ($"bytes=") (trim header);
  let spec := trim spec in
  if str_contains 44 spec then None
  else
    '(first, last) ← split_once 45 spec;
    match trim first, trim last with
    | [], [] => None
    | [], suffix => Suffix <$> parse_u64 suffix
    | first, [] => From <$> parse_u64 first
    | first, last =>
        first ← parse_u64 first;
        last ← parse_u64 last;
        if first <=? last then Some (Bounded first last) else None
    end.

(** The half open range of the object's bytes. *)
Definition resolve (r : ByteRange) (total : Z) : option (Z * Z) :=
  match r with
  | From first => if first <? total then Some (first, total) else None
  | Bounded first last =>
      if first <? total then Some (first, Z.min (u64_saturating_add last 1) total) else None
  | Suffix length =>
      if (0 <? length) && (0 <? total) then Some (u64_saturating_sub total length, total) else None
  end.
End ByteRange.

Lemma parse_u64_range s n : parse_u64 s = Some n -> is_u64 n.
Proof.
  unfold parse_u64. set (ds := match s with [] => _ | _ => _ end).
  destruct (bool_decide _); [done|]. destruct (forallb is_ascii_digit ds) eqn:Hd; [|done].
  destruct (digits_value ds <=? U64_MAX) eqn:E; [|done]. intros [= <-]. apply Z.leb_le in E. split; [|done].
  unfold digits_value. assert (H : forall l n, 0 <= n -> forallb is_ascii_digit l = true -> 0 <= foldl (fun n c => n * 10 + (c - 48)) n l).
  { clear. induction l as [|c l IH]; cbn; [done|]. intros n Hn Hc. apply andb_true_iff in Hc as [Hc Hl].
    unfold is_ascii_digit in Hc. apply IH; [|done]. bool_hyps. lia. }
  by apply H.
Qed.

(** What a header can ask for: machine integers, and a range that is not empty. *)
Lemma parse_well_formed header r :
  ByteRange.parse header = Some r ->
  match r with
  | From first => is_u64 first
  | Bounded first last => is_u64 first /\ is_u64 last /\ first <= last
  | Suffix length => is_u64 length
  end.
Proof.
  unfold ByteRange.parse. intros H. apply bind_Some in H as (spec & _ & H). cbv zeta in H.
  destruct (str_contains _ _); [done|]. apply bind_Some in H as ([first last] & _ & H).
  destruct (trim first) as [|a f], (trim last) as [|b l]; [done|..].
  - apply fmap_Some in H as (n & Hn & ->). by eapply parse_u64_range.
  - apply fmap_Some in H as (n & Hn & ->). by eapply parse_u64_range.
  - apply bind_Some in H as (x & Hx & H). apply bind_Some in H as (y & Hy & H).
    destruct (x <=? y) eqn:E; simplify_eq. apply Z.leb_le in E. eauto using parse_u64_range.
Qed.

(** A served range lies in the object.  Whatever header a client sends for an
    object of any size below the largest machine integer, a range that is served
    is not empty and lies within the object; it begins where the header asks,
    and ends no later than the header asks; and a header whose range reaches the
    object is served. *)
Theorem served_ranges_lie_in_the_object (header : str) (r : ByteRange) (total : Z) :
  0 <= total < U64_MAX -> ByteRange.parse header = Some r ->
  match ByteRange.resolve r total, r with
  | Some (a, b), From first => a = first /\ b = total /\ 0 <= a < b
  | Some (a, b), Bounded first last => a = first /\ b = Z.min (last + 1) total /\ 0 <= a < b /\ b <= total
  | Some (a, b), Suffix length => b - a = Z.min length total /\ b = total /\ 0 <= a < b
  | None, From first => total <= first
  | None, Bounded first last => total <= first
  | None, Suffix length => length = 0 \/ total = 0
  end.
Proof.
  intros Ht Hp. apply parse_well_formed in Hp. unfold ByteRange.resolve, u64_saturating_add, u64_saturating_sub, is_u64 in *.
  destruct r as [first|first last|n]; cbn in *.
  - destruct (first <? total) eqn:E; bool_hyps; lia.
  - destruct (first <? total) eqn:E; bool_hyps; lia.
  - destruct ((0 <? n) && (0 <? total)) eqn:E; [bool_hyps; lia|].
    apply andb_false_iff in E as [E|E]; bool_hyps; lia.
Qed.

Lemma served_ranges_lie_in_the_object_witness :
  ByteRange.parse ($" bytes= 8 - 50") = Some (Bounded 8 50) /\ ByteRange.resolve (Bounded 8 50) 10 = Some (8, 10) /\
  ByteRange.resolve (Bounded 8 50) 8 = None /\ (8 <= 8).
Proof.
  split; [vm_compute; reflexivity|]. split; [vm_compute; reflexivity|]. split; [vm_compute; reflexivity|].
  refine (served_ranges_lie_in_the_object ($" bytes= 8 - 50") (Bounded 8 50) 8 _ _); [unfold U64_MAX; lia|vm_compute; reflexivity].
Defined.
