(* ===== verification/Lists.v ===== *)
(** * Cells of a list and its export
    ([backend/api/src/lists/{models,cells,csv}.rs])

    What a cell of each kind of column may hold, and the spreadsheet a list is
    exported as.  Dates are the values of the calendar library behind
    [CalendarDate]. *)

From stdpp Require Import base tactics option numbers list gmap sorting.
From Stdlib Require Import ZArith Lia String Ascii SpecFloat.
From S2P Require Import Prelude RustStr Json.

Definition TEXT_MAX_CHARS : Z := 4000.
Definition LINK_MAX_CHARS : Z := 2000.

Inductive ColumnKind := Text | Number | Select | MultiSelect | Person | Date | Checkbox | Link.
#[export] Instance ColumnKind_eq_dec : EqDecision ColumnKind.
Proof. solve_decision. Defined.

Inductive ChoiceColor := Gray | Red | Orange | Yellow | Green | Blue | Purple | Pink.

#[export] Instance ChoiceColor_eq_dec : EqDecision ChoiceColor.
Proof. solve_decision. Defined.

Module Choice.
Record t := { id : Uuid; label : str; color : ChoiceColor }.
#[global] Instance eq_dec : EqDecision t.
Proof. solve_decision. Defined.
End Choice.

Inductive NumberStyle := Plain | Percent | Currency.
#[export] Instance NumberStyle_eq_dec : EqDecision NumberStyle.
Proof. solve_decision. Defined.
Record NumberFormat := { style : NumberStyle; decimals : Z; currency : option str }.

#[export] Instance NumberFormat_eq_dec : EqDecision NumberFormat.
Proof. solve_decision. Defined.

Record ColumnOptions := { choices : list Choice.t; number : option NumberFormat }.
#[export] Instance ColumnOptions_eq_dec : EqDecision ColumnOptions.
Proof. solve_decision. Defined.

Module ListColumn.
Record t := {
  id : Uuid; list_id : Uuid; position : Z; name : str; kind : ColumnKind; options : ColumnOptions;
  hidden : bool; due : bool;
}.
End ListColumn.

Module ListItem.
Record t := {
  id : Uuid; list_id : Uuid; rank : str; values : json; comment_count : Z; created_by : Uuid;
  created_at : Z; updated_at : Z;
}.
End ListItem.

(** [chrono::NaiveDate] under the format [%Y-%m-%d]. *)
Class CalendarDate := {
  date : Type;
  parse_date : str -> option date;
  format_date : date -> str;
}.
(** Documented behaviour: what it formats it parses back. *)
Class CalendarDateLaws (C : CalendarDate) := {
  parse_format_date : forall d, parse_date (format_date d) = Some d;
}.

Inductive Cell := Clear | Set_ (v : json).

Section lists.
Context `{UuidText} `{JsonText} `{CalendarDate}.

(** [ColumnOptions::choice] *)
Definition choice_by_id (o : ColumnOptions) (id : Uuid) : option Choice.t :=
  find (fun c => bool_decide (Choice.id c = id)) (choices o).
Definition choice (o : ColumnOptions) (id : str) : option Choice.t := uuid_parse id ≫= choice_by_id o.

(** ** Cells *)

Definition expects {A} (msg : string) (o : option A) : result str A := ok_or (lit msg) o.

(** The choices of a list of ids, each once, in the order of the ids. *)
Fixpoint chosen_ids (o : ColumnOptions) (ids : list json) (chosen : list Uuid) : result str (list Uuid) :=
  match ids with
  | [] => Ok chosen
  | id :: ids =>
      c ← expects "has no such choice" (as_str id ≫= choice o);
      chosen_ids o ids (if bool_decide (Choice.id c ∈ chosen) then chosen else chosen ++ [Choice.id c])
  end.

Definition uuid_string (u : Uuid) : json := JString (uuid_to_string u).

(** [as_f64] of a number is finite: integers always, floats when they are. *)
Definition finite (n : Json.number) : bool :=
  match n with
  | PosInt _ | NegInt _ => true
  | Float f => match f with S754_infinity _ | S754_nan => false | _ => true end
  end.

Definition normalize (kind : ColumnKind) (o : ColumnOptions) (value : json) : result str Cell :=
  if is_null value then Ok Clear
  else match kind with
  | Text =>
      text ← expects "expects text" (as_str value);
      if bool_decide (trim text = []) then Ok Clear
      else if TEXT_MAX_CHARS <? chars_count text then Err ($"takes at most 4000 characters")
      else Ok (Set_ (JString text))
  | Number =>
      match value with
      | JNumber n => if finite n then Ok (Set_ value) else Err ($"expects a number")
      | _ => Err ($"expects a number")
      end
  | Select =>
      id ← expects "expects one of its choices" (as_str value);
      c ← expects "has no such choice" (choice o id);
      Ok (Set_ (uuid_string (Choice.id c)))
  | MultiSelect =>
      ids ← expects "expects a list of its choices" (as_array value);
      chosen ← chosen_ids o ids [];
      if bool_decide (chosen = []) then Ok Clear
      else Ok (Set_ (JArray ((fun c => uuid_string (Choice.id c)) <$>
                             filter (fun c => Choice.id c ∈ chosen) (choices o))))
  | Person =>
      id ← expects "expects a person" (as_str value ≫= uuid_parse);
      Ok (Set_ (uuid_string id))
  | Date =>
      d ← expects "expects a date as YYYY-MM-DD" (as_str value ≫= parse_date);
      Ok (Set_ (JString (format_date d)))
  | Checkbox => match value with JBool _ => Ok (Set_ value) | _ => Err ($"expects true or false") end
  | Link =>
      link ← expects "expects a link" (as_str value);
      let link := trim link in
      if bool_decide (link = []) then Ok Clear
      else if LINK_MAX_CHARS <? chars_count link then Err ($"takes links of at most 2000 characters")
      else if negb (starts_with ($"http://") link || starts_with ($"https://") link)
              || existsb (fun c => is_control c || is_whitespace c) link
      then Err ($"expects a link starting with http:// or https://")
      else Ok (Set_ (JString link))
  end.

Definition person_of (kind : ColumnKind) (value : json) : option Uuid :=
  match kind with Person => as_str value ≫= uuid_parse | _ => None end.

(** ** The export ([csv.rs]) *)

Definition join (sep : str) (l : list str) : str :=
  match l with [] => [] | x :: l => x ++ mjoin ((fun y => sep ++ y) <$> l) end.

Definition label (column : ListColumn.t) (id : json) : str :=
  default [] (Choice.label <$> (as_str id ≫= choice (ListColumn.options column))).

Definition cell_text (column : ListColumn.t) (value : json) (people : gmap Uuid str) : str :=
  match ListColumn.kind column, value with
  | _, JNull => []
  | Select, id => label column id
  | MultiSelect, JArray ids => join ($"; ") (label column <$> ids)
  | Person, JString id => default id (uuid_parse id ≫= fun u => people !! u)
  | _, JString text => text
  | _, other => json_to_string other
  end.

(** A quote is written twice, and the text between quotes. *)
Definition csv_field (text : str) : str :=
  34 :: (text ≫= fun c => if c =? 34 then [34; 34] else [c]) ++ [34].

Definition cell_of (item : ListItem.t) (column : ListColumn.t) : json :=
  default JNull (get (uuid_to_string (ListColumn.id column)) (ListItem.values item)).

Definition people_in (columns : list ListColumn.t) (items : list ListItem.t) : list Uuid :=
  let found := items ≫= fun item =>
    omap (fun column => get (uuid_to_string (ListColumn.id column)) (ListItem.values item) ≫=
                        fun v => as_str v ≫= uuid_parse)
      (filter (fun column => ListColumn.kind column = Person) columns) in
  dedup (merge_sort N.le found).

Definition crlf : str := [13; 10].
Definition line (fields : list str) : str := join [44] (csv_field <$> fields) ++ crlf.

Definition table_text (columns : list ListColumn.t) (items : list ListItem.t) (people : gmap Uuid str) : str :=
  line (ListColumn.name <$> columns) ++
  (items ≫= fun item => line ((fun column => cell_text column (cell_of item column) people) <$> columns)).

Definition table (columns : list ListColumn.t) (items : list ListItem.t) (people : gmap Uuid str) : bytes :=
  as_bytes (table_text columns items people).
End lists.

(** ** What a cell holds *)

Section typing.
Context `{UuidText} `{JsonText} `{CalendarDate}.

(** The values a column of each kind stores, as a reader of the stored list may
    rely on them. *)
Definition well_typed (kind : ColumnKind) (o : ColumnOptions) (w : json) : Prop :=
  match kind with
  | Text => exists t, w = JString t /\ trim t <> [] /\ chars_count t <= TEXT_MAX_CHARS
  | Number => exists n, w = JNumber n /\ finite n = true
  | Select => exists c, c ∈ choices o /\ w = uuid_string (Choice.id c)
  | MultiSelect => exists chosen : list Uuid, chosen <> [] /\ chosen ⊆ (Choice.id <$> choices o) /\
      w = JArray (uuid_string <$> filter (fun u => u ∈ chosen) (Choice.id <$> choices o))
  | Person => exists u, w = uuid_string u
  | Date => exists d, w = JString (format_date d)
  | Checkbox => exists b, w = JBool b
  | Link => exists l, w = JString l /\ l <> [] /\ chars_count l <= LINK_MAX_CHARS /\
      (starts_with ($"http://") l = true \/ starts_with ($"https://") l = true) /\
      Forall (fun c => is_control c = false /\ is_whitespace c = false) l
  end.

Lemma choice_by_id_Some o id c : choice_by_id o id = Some c -> c ∈ choices o /\ Choice.id c = id.
Proof.
  unfold choice_by_id. intros Hf. apply find_some in Hf as [Hin Hd].
  apply bool_decide_eq_true in Hd. split; [by apply list_elem_of_In|done].
Qed.

Lemma choice_by_id_is_Some o c :
  c ∈ choices o -> exists c', choice_by_id o (Choice.id c) = Some c' /\ Choice.id c' = Choice.id c.
Proof.
  intros Hc. destruct (choice_by_id o (Choice.id c)) as [c'|] eqn:E.
  - exists c'. by apply choice_by_id_Some in E as [_ ->].
  - unfold choice_by_id in E. apply list_elem_of_In in Hc. apply (find_none _ _ E) in Hc.
    by rewrite bool_decide_eq_true_2 in Hc.
Qed.

Lemma choice_Some o id c : choice o id = Some c -> c ∈ choices o.
Proof. unfold choice. intros Hb. apply bind_Some in Hb as (u & _ & Hc). by apply choice_by_id_Some in Hc as [? _]. Qed.

Lemma expects_Ok {A B} msg (x : option A) (k : A -> result str B) r :
  expects msg x ≫= k = Ok r -> exists a, x = Some a /\ k a = Ok r.
Proof. destruct x; cbn; [eauto|done]. Qed.

(** The ids of a list of choices are the ones given, each of a choice. *)
Lemma chosen_ids_Ok o ids chosen r :
  chosen_ids o ids chosen = Ok r ->
  chosen ⊆ r /\ (chosen ⊆ (Choice.id <$> choices o) -> r ⊆ (Choice.id <$> choices o)).
Proof.
  revert chosen. induction ids as [|id ids IH]; cbn; intros chosen Hr; [inv_ok; set_solver|].
  apply expects_Ok in Hr as (a & Ha & Hr). apply IH in Hr as [Hsub Hin]. apply bind_Some in Ha as (s & _ & Hc).
  apply choice_Some in Hc. assert (Choice.id a ∈ (Choice.id <$> choices o)) as Ha by (apply list_elem_of_fmap; eauto).
  case_bool_decide; set_solver.
Qed.

Lemma existsb_false_Forall {A} (p : A -> bool) l : existsb p l = false <-> Forall (fun x => p x = false) l.
Proof.
  induction l as [|x l IH]; cbn; [split; [constructor|done]|].
  by rewrite orb_false_iff, IH, Forall_cons.
Qed.

Lemma filter_ids (q : Choice.t -> Prop) (p : Uuid -> Prop) `{!forall c, Decision (q c)} `{!forall u, Decision (p u)} (cs : list Choice.t) :
  (forall c, q c <-> p (Choice.id c)) ->
  (fun c => uuid_string (Choice.id c)) <$> filter q cs = uuid_string <$> filter p (Choice.id <$> cs).
Proof.
  intros Hpq. induction cs as [|c cs IH]; [done|]. rewrite fmap_cons, !filter_cons. pose proof (Hpq c).
  repeat case_decide; try tauto. by rewrite !fmap_cons, IH.
Qed.

(** Every value [normalize] stores has the type of its column. *)
Lemma normalize_well_typed kind o v w : normalize kind o v = Ok (Set_ w) -> well_typed kind o w.
Proof.
  unfold normalize. destruct (is_null v) eqn:Hn; [done|]. destruct kind; cbn [well_typed].
  - intros (t & Ht & Hr)%expects_Ok. case_bool_decide; [done|]. apply guard_Ok in Hr as [Hb [= <-]].
    apply Z.ltb_ge in Hb. eauto.
  - destruct v as [| |n| | |]; try done. destruct (finite n) eqn:?; [|done]. intros [= <-]. eauto.
  - intros (id & _ & (c & Hc & [= <-])%expects_Ok)%expects_Ok. eauto using choice_Some.
  - intros (ids & _ & Hr)%expects_Ok. apply bind_Ok in Hr as (chosen & Hc & Hr).
    case_bool_decide as Hx; [done|]. injection Hr as <-. apply chosen_ids_Ok in Hc as [_ Hc].
    exists chosen. split; [exact Hx|]. split; [apply Hc; set_solver|]. f_equal. by apply filter_ids.
  - intros (u & _ & [= <-])%expects_Ok. eauto.
  - intros (d & _ & [= <-])%expects_Ok. eauto.
  - destruct v; try done. intros [= <-]. eauto.
  - intros (l & _ & Hr)%expects_Ok. cbv zeta in Hr. case_bool_decide as Hx; [done|].
    apply guard_Ok in Hr as [Hlen [Hg [= <-]]%guard_Ok]. apply orb_false_iff in Hg as [Hs Hc].
    apply Z.ltb_ge in Hlen. apply negb_false_iff, orb_true_iff in Hs. exists (trim l). split_and!; try done.
    rewrite existsb_false_Forall in Hc. eapply Forall_impl; [exact Hc|]. cbn. intros c E. by apply orb_false_iff in E.
Qed.

Context `{!UuidTextLaws H} `{!CalendarDateLaws H1}.

Lemma choice_of_id o c :
  c ∈ choices o -> exists c', choice o (uuid_to_string (Choice.id c)) = Some c' /\ Choice.id c' = Choice.id c.
Proof. intros Hc. unfold choice. rewrite uuid_parse_to_string. by apply choice_by_id_is_Some. Qed.

(** Read back, a list of ids of choices is the same choices. *)
Lemma chosen_ids_of_ids o us chosen :
  us ⊆ (Choice.id <$> choices o) ->
  exists r, chosen_ids o (uuid_string <$> us) chosen = Ok r /\ forall u, u ∈ r <-> u ∈ chosen \/ u ∈ us.
Proof.
  revert chosen. induction us as [|u us IH]; intros chosen Hus.
  { exists chosen. split; [done|]. intros u. split; [by left|]. intros [?|[]%not_elem_of_nil]. done. }
  assert (exists c, c ∈ choices o /\ Choice.id c = u) as (c & Hc & <-).
  { destruct (proj1 (list_elem_of_fmap Choice.id (choices o) u)) as (c & -> & ?); [apply Hus; left|eauto]. }
  cbn. destruct (choice_of_id o c Hc) as (c' & -> & Hid). cbn. rewrite Hid.
  destruct (IH (if bool_decide (Choice.id c ∈ chosen) then chosen else chosen ++ [Choice.id c])) as (r & Hr & Hrs).
  { intros x Hx. apply Hus. by right. }
  rewrite Hr. exists r. split; [done|]. intros x. rewrite Hrs, elem_of_cons. case_bool_decide.
  - split; [tauto|]. intros [?|[->|?]]; tauto.
  - rewrite elem_of_app, list_elem_of_singleton. tauto.
Qed.

Lemma well_typed_normalize kind o w : well_typed kind o w -> normalize kind o w = Ok (Set_ w).
Proof.
  unfold normalize. destruct kind; cbn [well_typed].
  - intros (t & -> & Ht & Hl). cbn. rewrite bool_decide_eq_false_2 by done.
    by rewrite (proj2 (Z.ltb_ge _ _) Hl).
  - intros (n & -> & Hn). cbn. by rewrite Hn.
  - intros (c & Hc & ->). destruct (choice_of_id o c Hc) as (c' & Hc' & Hid). cbn. rewrite Hc'. cbn. by rewrite Hid.
  - intros (chosen & Hne & Hsub & ->).
    set (us := filter (fun u => u ∈ chosen) (Choice.id <$> choices o)).
    assert (Hus : forall u, u ∈ us <-> u ∈ chosen).
    { intros u. unfold us. rewrite list_elem_of_filter. split; [tauto|]. split; [done|by apply Hsub]. }
    destruct (chosen_ids_of_ids o us []) as (r & Hr & Hrs); [intros u Hu%Hus; by apply Hsub|]. cbn. rewrite Hr. cbn.
    rewrite bool_decide_eq_false_2.
    2: { destruct chosen as [|u l]; [done|]. intros ->. apply (not_elem_of_nil u), Hrs. right. apply Hus. left. }
    do 3 f_equal. apply filter_ids. intros c. rewrite Hrs, Hus. split; [intros [[]%not_elem_of_nil|]; done|tauto].
  - intros (u & ->). cbn. by rewrite uuid_parse_to_string.
  - intros (d & ->). cbn. by rewrite parse_format_date.
  - by intros (b & ->).
  - intros (l & -> & Hne & Hlen & Hs & Hc). cbn.
    rewrite trim_fixed by (eapply Forall_impl; [exact Hc|]; cbn; tauto).
    rewrite bool_decide_eq_false_2 by done. rewrite (proj2 (Z.ltb_ge _ _) Hlen).
    rewrite (proj2 (orb_true_iff _ _) Hs). cbn.
    rewrite (proj2 (existsb_false_Forall _ _)); [done|]. eapply Forall_impl; [exact Hc|].
    cbn. intros c [-> ->]. done.
Qed.

(** C36: cells are well typed.  Whatever value a client sends for a cell, what is
    stored has the type of its column: nonblank text or a link of bounded
    length, a finite number, ids of choices the column has, in the order of its
    choices, a person, a calendar date or a boolean.  And these are exactly the
    values that are stored unchanged, so storing a stored value changes
    nothing. *)
Theorem cells_are_well_typed kind o v w :
  (normalize kind o v = Ok (Set_ w) -> well_typed kind o w /\ normalize kind o w = Ok (Set_ w)) /\
  (normalize kind o w = Ok (Set_ w) <-> well_typed kind o w).
Proof.
  split; [intros Hw%normalize_well_typed; split; [done|by apply well_typed_normalize]|].
  split; [apply normalize_well_typed|apply well_typed_normalize].
Qed.
End typing.

(** ** Reading the export back *)

(** A reader of quoted comma separated values over bytes: where it stands, the
    field and the row it is in and the rows it has read. *)
Inductive csv_mode := FieldStart | InQuotes | QuoteSeen | ReturnSeen.

Fixpoint csv_read (m : csv_mode) (f : bytes) (row : list bytes) (rows : list (list bytes)) (s : bytes)
    : option (list (list bytes)) :=
  match s with
  | [] => match m, row with FieldStart, [] => Some rows | _, _ => None end
  | c :: s =>
      match m with
      | FieldStart => if c =? 34 then csv_read InQuotes [] row rows s else None
      | InQuotes => if c =? 34 then csv_read QuoteSeen f row rows s else csv_read InQuotes (f ++ [c]) row rows s
      | QuoteSeen =>
          if c =? 34 then csv_read InQuotes (f ++ [34]) row rows s
          else if c =? 44 then csv_read FieldStart [] (row ++ [f]) rows s
          else if c =? 13 then csv_read ReturnSeen f row rows s
          else None
      | ReturnSeen => if c =? 10 then csv_read FieldStart [] [] (rows ++ [row ++ [f]]) s else None
      end
  end.

Lemma encode_utf8_not_quote c : c <> 34 -> Forall (fun b => b <> 34) (encode_utf8 c).
Proof.
  intros Hc. unfold encode_utf8.
  pose proof (Z.mod_pos_bound c 64). pose proof (Z.mod_pos_bound (c / 64) 64). pose proof (Z.mod_pos_bound (c / 4096) 64).
  destruct (Z.ltb_spec c 128); [by repeat constructor|].
  assert (0 <= c / 64 /\ 0 <= c / 4096 /\ 0 <= c / 262144) by (split_and!; apply Z.div_pos; lia).
  repeat case_match; repeat (constructor; [lia|]); constructor.
Qed.

Lemma as_bytes_app a b : as_bytes (a ++ b) = as_bytes a ++ as_bytes b.
Proof. unfold as_bytes. apply bind_app. Qed.

Lemma csv_read_plain bs f row rows s :
  Forall (fun b => b <> 34) bs -> csv_read InQuotes f row rows (bs ++ s) = csv_read InQuotes (f ++ bs) row rows s.
Proof.
  intros Hb. revert f. induction Hb as [|b bs Hb _ IH]; intros f; cbn; [by rewrite app_nil_r|].
  rewrite (proj2 (Z.eqb_neq _ _) Hb), IH. by rewrite <-app_assoc.
Qed.

(** Between its quotes the text of a field is read as written. *)
Lemma csv_read_text t f row rows s :
  csv_read InQuotes f row rows (as_bytes (t ≫= fun c => if c =? 34 then [34; 34] else [c]) ++ s) =
  csv_read InQuotes (f ++ as_bytes t) row rows s.
Proof.
  revert f. induction t as [|c t IH]; intros f; [by rewrite app_nil_r|].
  rewrite bind_cons, as_bytes_app, <-app_assoc. change (as_bytes (c :: t)) with (encode_utf8 c ++ as_bytes t).
  destruct (Z.eqb_spec c 34) as [->|Hc].
  - transitivity (csv_read InQuotes ((f ++ [34]) ++ as_bytes t) row rows s); [apply (IH (f ++ [34]))|].
    by rewrite <-app_assoc.
  - replace (as_bytes [c]) with (encode_utf8 c) by (unfold as_bytes; cbn; by rewrite app_nil_r).
    rewrite csv_read_plain by by apply encode_utf8_not_quote. rewrite IH. by rewrite <-app_assoc.
Qed.

Lemma csv_read_field t row rows s :
  csv_read FieldStart [] row rows (as_bytes (csv_field t) ++ s) = csv_read QuoteSeen (as_bytes t) row rows s.
Proof.
  unfold csv_field. change (34 :: ?l) with ([34] ++ l). rewrite !as_bytes_app, <-!app_assoc.
  change (as_bytes [34]) with [34]. cbn [app csv_read]. cbn [Z.eqb Pos.eqb].
  rewrite csv_read_text. done.
Qed.

Lemma csv_read_line t ts row rows s :
  csv_read FieldStart [] row rows (as_bytes (line (t :: ts)) ++ s) =
  csv_read FieldStart [] [] (rows ++ [row ++ (as_bytes <$> t :: ts)]) s.
Proof.
  unfold line, crlf. rewrite as_bytes_app, <-app_assoc. revert t row. induction ts as [|t' ts IH]; intros t row.
  - cbn [fmap list_fmap join mjoin list_join]. rewrite app_nil_r, csv_read_field. done.
  - cbn [fmap list_fmap join mjoin list_join]. rewrite as_bytes_app, <-!app_assoc, csv_read_field.
    rewrite as_bytes_app, <-app_assoc. cbn [as_bytes app]. rewrite as_bytes_app, <-app_assoc.
    change (as_bytes [44]) with [44]. cbn [app csv_read Z.eqb Pos.eqb].
    specialize (IH t' (row ++ [as_bytes t])). cbn [fmap list_fmap join mjoin list_join] in IH.
    rewrite as_bytes_app, <-app_assoc in IH. etransitivity; [exact IH|]. rewrite <-app_assoc. done.
Qed.

Section export.
Context `{UuidText} `{JsonText}.

(** C37: an exported list reads back as the list.  For every list of at least one
    column, whatever its names and texts hold (quotes, commas, line breaks, any
    character), a reader of quoted comma separated values finds in the exported
    bytes exactly the row of the names and one row per item, in order, each with
    one field per column: the text of its cell. *)
Theorem table_reads_back columns items people :
  columns <> [] ->
  csv_read FieldStart [] [] [] (table columns items people) =
  Some ((as_bytes <$> (ListColumn.name <$> columns)) ::
        ((fun item => (fun column => as_bytes (cell_text column (cell_of item column) people)) <$> columns) <$> items)).
Proof.
  intros Hc. destruct columns as [|col cols]; [done|]. clear Hc. unfold table, table_text.
  rewrite as_bytes_app, fmap_cons, csv_read_line. cbn [app].
  assert (Hi : forall items rows, csv_read FieldStart [] [] rows
      (as_bytes (items ≫= fun item => line ((fun column => cell_text column (cell_of item column) people) <$> col :: cols))) =
    Some (rows ++ ((fun item => (fun column => as_bytes (cell_text column (cell_of item column) people)) <$> col :: cols) <$> items))).
  { clear items. intros items. induction items as [|item items IH]; intros rows; [cbn; by rewrite app_nil_r|].
    rewrite bind_cons, as_bytes_app, (fmap_cons _ col), csv_read_line, IH, <-app_assoc. do 2 f_equal. cbn.
    by rewrite <-list_fmap_compose. }
  apply Hi.
Qed.
End export.

(** ** Examples *)

Module SampleLists.
#[global] Instance uuid : UuidText := {
  uuid_parse s := match s with [z] => if 0 <=? z then Some (Z.to_N z) else None | _ => None end;
  uuid_to_string u := [Z.of_N u];
}.
#[global] Instance uuid_laws : UuidTextLaws uuid.
Proof. constructor. intros u. cbn. rewrite (proj2 (Z.leb_le _ _) (N2Z.is_nonneg u)). by rewrite N2Z.id. Qed.
#[global] Instance text : JsonText := { json_from_str _ := None; json_to_string _ := $"3" }.
#[global] Instance dates : CalendarDate := {
  date := Z; parse_date s := match s with [z] => Some z | _ => None end; format_date z := [z];
}.
#[global] Instance date_laws : CalendarDateLaws dates.
Proof. by constructor. Qed.
Definition todo := {| Choice.id := 7%N; Choice.label := $"To do"; Choice.color := Gray |}.
Definition finished := {| Choice.id := 8%N; Choice.label := $"Done"; Choice.color := Green |}.
Definition status := {| choices := [todo; finished]; number := None |}.
Definition column id name kind options := {|
  ListColumn.id := id; ListColumn.list_id := 1%N; ListColumn.position := 0; ListColumn.name := name;
  ListColumn.kind := kind; ListColumn.options := options; ListColumn.hidden := false; ListColumn.due := false |}.
Definition columns := [
  column 2%N ([34] ++ $"Title, quoted" ++ [34]) Text {| choices := []; number := None |};
  column 3%N ($"Status") Select status].
Definition item := {| ListItem.id := 9%N; ListItem.list_id := 1%N; ListItem.rank := $"V";
  ListItem.values := JObject [([2], JString ($"Ship " ++ [34; 13; 10])); ([3], JString [8])];
  ListItem.comment_count := 0; ListItem.created_by := 4%N; ListItem.created_at := 0; ListItem.updated_at := 0 |}.
End SampleLists.

(** The second choice before the first, and twice: stored once, in order. *)
Lemma cells_are_well_typed_witness :
  let sent := JArray [JString [8]; JString [7]; JString [8]] in
  let stored := JArray [JString [7]; JString [8]] in
  normalize MultiSelect SampleLists.status sent = Ok (Set_ stored) /\
  normalize MultiSelect SampleLists.status stored = Ok (Set_ stored).
Proof.
  split; [vm_compute; reflexivity|].
  refine (proj2 (proj1 (cells_are_well_typed MultiSelect SampleLists.status
    (JArray [JString [8]; JString [7]; JString [8]]) (JArray [JString [7]; JString [8]])) _)).
  vm_compute; reflexivity.
Defined.

Lemma table_reads_back_witness :
  csv_read FieldStart [] [] [] (table SampleLists.columns [SampleLists.item] ∅) =
  Some [[[34] ++ $"Title, quoted" ++ [34]; $"Status"]; [$"Ship " ++ [34; 13; 10]; $"Done"]].
Proof.
  refine (eq_trans (table_reads_back SampleLists.columns [SampleLists.item] ∅ _) _); [done|vm_compute; reflexivity].
Defined.
