(* ===== verification/ListForms.v ===== *)
(** * What a list is asked for
    ([backend/api/src/lists/{models,cells,comments}.rs])

    The texts and options of a request as they are stored, and the conversion
    of a cell to another kind of column.  Changing the case of a letter and the
    decimal text of a floating point number are the standard library's tables,
    behind [CaseFolding] and [FloatText]. *)

From stdpp Require Import base tactics option numbers list pretty.
From Stdlib Require Import ZArith Lia String Ascii SpecFloat.
From S2P Require Import Prelude RustStr Json Errors Lists.

Definition MAX_COLUMNS : nat := 30.
Definition MAX_ITEMS : Z := 10000.
Definition MAX_CHOICES : nat := 50.
Definition TITLE_MAX_CHARS : Z := 200.
Definition DESCRIPTION_MAX_CHARS : Z := 2000.
Definition COLUMN_NAME_MAX_CHARS : Z := 100.
Definition CHOICE_LABEL_MAX_CHARS : Z := 100.
Definition COMMENT_MAX_CHARS : Z := 4000.
Definition MAX_DECIMALS : Z := 6.

Definition has_choices (k : ColumnKind) : bool := match k with Select | MultiSelect => true | _ => false end.

(** [str::to_lowercase] *)
Class CaseFolding := { to_lowercase : str -> str }.

(** [f64]'s [Display] and [FromStr]. *)
Class FloatText := { f64_to_string : spec_float -> str; f64_parse : str -> option spec_float }.

Module ChoiceInput.
Record t := { id : option Uuid; label : str; color : ChoiceColor }.
End ChoiceInput.

Module ColumnOptionsInput.
Record t := { choices : list ChoiceInput.t; number : option NumberFormat }.
End ColumnOptionsInput.

Definition invalid {A} (msg : str) : AppResult A := Err (Validation msg).

(** ** Texts *)

Definition clean_title (title : str) : AppResult str :=
  let title := trim title in
  if bool_decide (title = []) then invalid ($"A list needs a title")
  else if TITLE_MAX_CHARS <? chars_count title then invalid ($"A title can be at most 200 characters")
  else Ok title.

Definition clean_description (description : str) : AppResult str :=
  let description := trim description in
  if DESCRIPTION_MAX_CHARS <? chars_count description then invalid ($"A description can be at most 2000 characters")
  else Ok description.

Definition clean_column_name (name : str) : AppResult str :=
  let name := trim name in
  if bool_decide (name = []) then invalid ($"A column needs a name")
  else if COLUMN_NAME_MAX_CHARS <? chars_count name then invalid ($"A column name can be at most 100 characters")
  else Ok name.

Definition clean_comment (content : str) : AppResult str :=
  let content := trim content in
  if bool_decide (content = []) then invalid ($"A comment needs some text")
  else if COMMENT_MAX_CHARS <? chars_count content then invalid ($"A comment can be at most 4000 characters")
  else Ok content.

(** ** Options *)

Section options.
Context `{CaseFolding}.
(** The identifiers drawn for the choices that name none. *)
Context (fresh : nat -> Uuid).

(** [ColumnOptions::choice_labelled] *)
Definition choice_labelled (o : ColumnOptions) (label : str) : option Choice.t :=
  let label := to_lowercase (trim label) in
  find (fun c => str_eqb (to_lowercase (Choice.label c)) label) (choices o).

Fixpoint resolve_choices (n : nat) (inputs : list ChoiceInput.t) (seen : list str) : AppResult (list Choice.t) :=
  match inputs with
  | [] => Ok []
  | input :: inputs =>
      let label := trim (ChoiceInput.label input) in
      if bool_decide (label = []) then invalid ($"A choice needs a label")
      else if CHOICE_LABEL_MAX_CHARS <? chars_count label then invalid ($"A choice can be at most 100 characters")
      else
        let folded := to_lowercase label in
        if bool_decide (folded ∈ seen) then invalid ([34] ++ label ++ [34] ++ $" is offered twice")
        else
          rest ← resolve_choices (S n) inputs (seen ++ [folded]);
          Ok ({| Choice.id := default (fresh n) (ChoiceInput.id input); Choice.label := label;
                 Choice.color := ChoiceInput.color input |} :: rest)
  end.

Definition default_format : NumberFormat := {| style := Plain; decimals := 0; currency := None |}.

Definition resolve_format (f : NumberFormat) : AppResult NumberFormat :=
  if MAX_DECIMALS <? decimals f then invalid ($"A number shows at most 6 decimals")
  else
    currency ← match style f with
      | Currency =>
          let code := trim (default [] (currency f)) in
          if negb (str_len code =? 3) || negb (forallb is_ascii_alphabetic code)
          then invalid ($"A currency is a three-letter code, like EUR")
          else Ok (Some (to_ascii_uppercase code))
      | _ => Ok None
      end;
    Ok {| style := style f; decimals := decimals f; currency := currency |}.

(** [ColumnOptionsInput::resolve] *)
Definition resolve_options (input : ColumnOptionsInput.t) (kind : ColumnKind) : AppResult ColumnOptions :=
  choices ← (if has_choices kind then
               if (MAX_CHOICES <? length (ColumnOptionsInput.choices input))%nat
               then invalid ($"A column can offer at most 50 choices")
               else resolve_choices 0 (ColumnOptionsInput.choices input) []
             else Ok []);
  number ← (if bool_decide (kind = Number) then
              f ← resolve_format (default default_format (ColumnOptionsInput.number input)); Ok (Some f)
            else Ok None);
  Ok {| choices := choices; number := number |}.

(** What [update_column] resolves when a request leaves the options alone. *)
Definition options_input (o : ColumnOptions) : ColumnOptionsInput.t :=
  {| ColumnOptionsInput.choices :=
       (fun c => {| ChoiceInput.id := Some (Choice.id c); ChoiceInput.label := Choice.label c;
                    ChoiceInput.color := Choice.color c |}) <$> choices o;
     ColumnOptionsInput.number := number o |}.
End options.

(** ** Conversion of cells *)

(** [Number::as_f64]: an integer is rounded to the nearest. *)
Definition as_f64 (n : Json.number) : spec_float :=
  match n with PosInt z | NegInt z => binary_normalize 53 1024 z 0 false | Float f => f end.

(** The value of a float that has no fraction. *)
Definition f64_integral (f : spec_float) : option Z :=
  match f with
  | S754_zero _ => Some 0
  | S754_finite s m e =>
      let v := if s then Z.neg m else Z.pos m in
      if 0 <=? e then Some (v * 2 ^ e)
      else if v mod 2 ^ (- e) =? 0 then Some (v / 2 ^ (- e)) else None
  | _ => None
  end.

Definition show_Z (z : Z) : str := lit (pretty z).

Section convert.
Context `{UuidText} `{JsonText} `{CalendarDate} `{CaseFolding} `{FloatText}.

Definition number_text (value : json) : option str :=
  match value with
  | JNumber n =>
      match f64_integral (as_f64 n) with
      | Some z => if Z.abs z <? 10 ^ 15 then Some (show_Z z) else Some (f64_to_string (as_f64 n))
      | None => Some (f64_to_string (as_f64 n))
      end
  | _ => None
  end.

(** The value carried over, before it is normalised for its new column. *)
Definition carried (from to : ColumnKind * ColumnOptions) (value : json) : option json :=
  if bool_decide (from.1 = to.1) then Some value
  else match from.1, to.1 with
  | Number, Text => JString <$> number_text value
  | Text, Number =>
      f ← as_str value ≫= fun s => f64_parse (trim s);
      if finite (Float f) then Some (JNumber (Float f)) else None
  | Select, Text => (fun c => JString (Choice.label c)) <$> (as_str value ≫= choice from.2)
  | Text, Select => (fun c => uuid_string (Choice.id c)) <$> (as_str value ≫= choice_labelled to.2)
  | _, _ => None
  end.

Definition convert (from to : ColumnKind * ColumnOptions) (value : json) : option json :=
  v ← carried from to value;
  match normalize to.1 to.2 v with Ok (Set_ v) => Some v | _ => None end.

(** A converted cell has the type of its new column. *)
Lemma convert_well_typed from to v w : convert from to v = Some w -> well_typed to.1 to.2 w.
Proof.
  unfold convert. intros Hb. apply bind_Some in Hb as (u & _ & Hn).
  destruct (normalize to.1 to.2 u) as [[|x]|] eqn:E; simplify_eq. by eapply normalize_well_typed.
Qed.

(** Values equal for the database have the same types. *)
Lemma well_typed_eqb kind o v w : json_eqb w v = true -> well_typed kind o w -> well_typed kind o v.
Proof.
  intros Heq. destruct kind; cbn [well_typed].
  - intros (t & -> & Hw). apply json_eqb_str in Heq as ->. eauto.
  - intros (n & -> & Hn). destruct v as [| |m| | |]; try done. exists m. split; [done|].
    destruct m as [| |f], n as [| |g]; try done. cbn in *.
    unfold SFeqb in Heq. by destruct f as [|[]| |[] ? ?], g as [|[]| |[] ? ?].
  - intros (c & Hc & ->). apply json_eqb_str in Heq as ->. by exists c.
  - intros (chosen & Hne & Hsub & ->). exists chosen. split; [done|]. split; [done|]. set (us := filter _ _) in *.
    assert (E : uuid_string <$> us = JString <$> (uuid_to_string <$> us)) by apply (list_fmap_compose uuid_to_string JString us).
    rewrite E in Heq |- *. by apply json_eqb_strings in Heq as ->.
  - intros (u & ->). apply json_eqb_str in Heq as ->. by exists u.
  - intros (d & ->). apply json_eqb_str in Heq as ->. by exists d.
  - intros (b & ->). destruct v; try done. eauto.
  - intros (l & -> & Hw). apply json_eqb_str in Heq as ->. eauto.
Qed.
End convert.
