(* ===== verification/Validation.v ===== *)
(** * What a text of a request may be ([backend/shared/common/src/validation.rs])

    The rules of the fields of requests.  [str_len] counts the bytes of a text,
    [chars_count] its characters. *)

From stdpp Require Import base tactics option numbers list gmap.
From Stdlib Require Import ZArith Lia String Ascii.
From S2P Require Import Prelude RustStr Errors ListForms.

Section validation.
Implicit Types (s : str).

(** [if refused { return Err(Validation(..)) }] in a row. *)
Fixpoint refuse_if (rules : list (bool * string)) : AppResult unit :=
  match rules with
  | [] => Ok tt
  | (refused, msg) :: rules => if refused then invalid (lit msg) else refuse_if rules
  end.

Definition is_empty s : bool := bool_decide (s = []).
Definition has_control s : bool := existsb is_control s.

Definition validate_email s : AppResult unit :=
  if 255 <? str_len s then invalid ($"Invalid email address")
  else match split_once 64 s with
       | None => invalid ($"Invalid email address")
       | Some (local, domain) => refuse_if [
           (is_empty local || is_empty domain || negb (str_contains 46 domain)
            || starts_with ($".") domain || ends_with ($".") domain, "Invalid email address"%string)]
       end.

Definition validate_password s : AppResult unit := refuse_if [
  (str_len s <? 8, "Password must be at least 8 characters"%string);
  (128 <? str_len s, "Password must be at most 128 characters"%string)].

Definition validate_display_name s : AppResult unit := refuse_if [
  (is_empty (trim s), "Display name cannot be empty"%string);
  (100 <? str_len (trim s), "Display name must be at most 100 characters"%string)].

Definition validate_workspace_name s : AppResult unit := refuse_if [
  (is_empty (trim s), "Workspace name cannot be empty"%string);
  (100 <? str_len (trim s), "Workspace name must be at most 100 characters"%string)].

Definition validate_channel_name s : AppResult unit := refuse_if [
  (is_empty (trim s), "Channel name cannot be empty"%string);
  (80 <? str_len (trim s), "Channel name must be at most 80 characters"%string)].

Definition validate_message_content s : AppResult unit := refuse_if [
  (is_empty (trim s), "Message content cannot be empty"%string);
  (4000 <? str_len s, "Message content must be at most 4000 characters"%string)].

Definition validate_message_body s : AppResult unit := refuse_if [
  (4000 <? str_len s, "Message content must be at most 4000 characters"%string)].

Definition validate_avatar_url s : AppResult unit := refuse_if [
  (500 <? str_len s, "Avatar URL must be at most 500 characters"%string);
  (negb (starts_with ($"http://") s || starts_with ($"https://") s)
   && negb (starts_with ($"/") s && negb (starts_with ($"//") s)),
   "Avatar URL must be an http(s) or site-relative URL"%string)].

Definition custom_emoji_name s : option str :=
  name ← strip_prefix ($":") s ≫= strip_suffix ($":");
  if (2 <=? str_len name) && (str_len name <=? 32)
     && forallb (fun c => is_ascii_lowercase c || is_ascii_digit c || (c =? 95) || (c =? 45)) name
  then Some name else None.

Definition validate_reaction_emoji s : AppResult unit :=
  match custom_emoji_name s with
  | Some _ => Ok tt
  | None => refuse_if [
      (is_empty s, "Reaction cannot be empty"%string);
      (8 <? chars_count s, "Reaction must be at most 8 characters"%string);
      (has_control s, "Reaction cannot contain control characters"%string)]
  end.

Definition validate_reminder_content s : AppResult unit := refuse_if [
  (is_empty (trim s), "Reminder content cannot be empty"%string);
  (4000 <? str_len s, "Reminder content must be at most 4000 characters"%string)].

Definition validate_channel_topic s : AppResult unit := refuse_if [
  (500 <? str_len s, "Channel topic must be at most 500 characters"%string)].

Definition validate_description s : AppResult unit := refuse_if [
  (4000 <? str_len s, "Description must be at most 4000 characters"%string)].

Definition validate_hook_name s : AppResult unit := refuse_if [
  (is_empty (trim s), "Integration name cannot be empty"%string);
  (100 <? str_len (trim s), "Integration name must be at most 100 characters"%string)].

Definition validate_hex_colour s : AppResult unit :=
  let digits := default [] (strip_prefix ($"#") s) in
  refuse_if [(negb (str_len digits =? 6) || negb (forallb is_ascii_hexdigit digits),
    "A colour must be # followed by six hex digits"%string)].

Definition validate_bio s : AppResult unit := refuse_if [
  (500 <? str_len s, "Bio must be at most 500 characters"%string)].

Definition validate_timezone s : AppResult unit := refuse_if [
  (is_empty s || (50 <? str_len s), "Timezone must be between 1 and 50 characters"%string);
  (negb (forallb (fun c => is_ascii_alphanumeric c || (c =? 47) || (c =? 95) || (c =? 45) || (c =? 43)) s),
   "Timezone must be an IANA name, e.g. Europe/Belgrade"%string)].

Definition validate_icon_url s : AppResult unit := validate_avatar_url s.

(** [get_version_num]: the top four bits of byte 6. *)
Definition version_num (id : Uuid) : N := N.land (N.shiftr id 76) 15.
Definition validate_client_message_id (id : Uuid) : AppResult unit := refuse_if [
  (bool_decide (id = 0%N) || negb (bool_decide (version_num id = 4%N)), "client_message_id must be a version 4 UUID"%string)].

Definition validate_bookmark_label s : AppResult unit := refuse_if [
  (is_empty (trim s), "Bookmark needs a label"%string);
  (80 <? chars_count (trim s), "Bookmark label must be at most 80 characters"%string)].

Definition validate_bookmark_url s : AppResult unit := refuse_if [
  (2000 <? str_len s, "Bookmark URL must be at most 2000 characters"%string);
  (negb (starts_with ($"http://") s || starts_with ($"https://") s), "Bookmark URL must start with http:// or https://"%string);
  (has_control s, "Bookmark URL cannot contain control characters"%string)].

Definition validate_status_text s : AppResult unit := refuse_if [
  (100 <? chars_count s, "Status must be at most 100 characters"%string);
  (has_control s, "Status cannot contain control characters"%string)].

Definition validate_title s : AppResult unit := refuse_if [
  (100 <? chars_count (trim s), "Title must be at most 100 characters"%string);
  (has_control s, "Title cannot contain control characters"%string)].

Definition validate_pronouns s : AppResult unit := refuse_if [
  (30 <? chars_count (trim s), "Pronouns must be at most 30 characters"%string);
  (has_control s, "Pronouns cannot contain control characters"%string)].

Definition validate_status_emoji s : AppResult unit :=
  match custom_emoji_name s with
  | Some _ => Ok tt
  | None => refuse_if [
      (16 <? chars_count s, "Status emoji must be at most 16 characters"%string);
      (has_control s || existsb is_whitespace s, "Status emoji is not an emoji"%string)]
  end.

Definition validate_notification_keyword s : AppResult unit :=
  let trimmed := trim s in
  let length := chars_count trimmed in
  refuse_if [
    (negb ((2 <=? length) && (length <=? 64)), "A keyword must be 2 to 64 characters"%string);
    (starts_with ($"@") trimmed || starts_with ($"#") trimmed, "A keyword cannot start with @ or #"%string);
    (has_control trimmed, "A keyword cannot contain control characters"%string)].

(** The rules that let a blank through. *)
Definition avatar_url_or_empty s : AppResult unit := if is_empty s then Ok tt else validate_avatar_url s.
Definition icon_url_or_empty s : AppResult unit := if is_empty s then Ok tt else validate_icon_url s.
Definition display_name_or_blank s : AppResult unit := if is_empty (trim s) then Ok tt else validate_display_name s.
Definition status_text_or_blank s : AppResult unit := if is_empty (trim s) then Ok tt else validate_status_text (trim s).
Definition status_emoji_or_blank s : AppResult unit := if is_empty (trim s) then Ok tt else validate_status_emoji (trim s).
End validation.

Lemma refuse_if_Ok rules : refuse_if rules = Ok tt <-> Forall (fun r => r.1 = false) rules.
Proof.
  induction rules as [|[[] msg] rules IH]; cbn; [by split|split; [done|]|rewrite IH].
  - by intros [? _]%Forall_cons.
  - rewrite Forall_cons. naive_solver.
Qed.

Example blank_name : validate_display_name ($"  ") = invalid ($"Display name cannot be empty").
Proof. reflexivity. Qed.
Example shortcode : custom_emoji_name ($":party-parrot:") = Some ($"party-parrot").
Proof. reflexivity. Qed.
Example mail : validate_email ($"a@b.c") = Ok tt.
Proof. reflexivity. Qed.
