(* ===== verification/ListViews.v ===== *)
(** * Views of a list ([backend/api/src/lists/views.rs])

    How a view groups, sorts and filters, what a request may ask of a view and
    what is left of a view when the columns change. *)

From stdpp Require Import base tactics option numbers list.
From Stdlib Require Import ZArith Lia String Ascii SpecFloat.
From S2P Require Import Prelude RustStr Json Errors Lists ListForms.

Definition MAX_VIEWS : nat := 20.
Definition MAX_SORTS : nat := 3.
Definition MAX_FILTERS : nat := 10.
Definition VIEW_NAME_MAX_CHARS : Z := 50.
Definition FILTER_TEXT_MAX_CHARS : Z := 200.
Definition ME : str := $"me".

Inductive ViewKind := Table | Board.
Inductive SortDirection := Asc | Desc.
#[export] Instance ViewKind_eq_dec : EqDecision ViewKind.
Proof. solve_decision. Defined.
#[export] Instance SortDirection_eq_dec : EqDecision SortDirection.
Proof. solve_decision. Defined.

Module SortRule.
Record t := { column_id : Uuid; direction : SortDirection }.
#[global] Instance eq_dec : EqDecision t.
Proof. solve_decision. Defined.
End SortRule.

Inductive FilterOp := Contains | Is | IsNot | Lt | Gt | ThisWeek | Overdue | IsEmpty | NotEmpty | Checked | Unchecked.
#[export] Instance FilterOp_eq_dec : EqDecision FilterOp.
Proof. solve_decision. Defined.

Module FilterRule.
Record t := { column_id : Uuid; op : FilterOp; value : json }.
Definition eqb (a b : t) : bool :=
  bool_decide (column_id a = column_id b) && bool_decide (op a = op b) && json_eqb (value a) (value b).
Definition with_value (v : json) (r : t) : t := {| column_id := column_id r; op := op r; value := v |}.
End FilterRule.

Module ViewConfig.
Record t := { group_by : option Uuid; sort : list SortRule.t; filters : list FilterRule.t }.
Definition default_ : t := {| group_by := None; sort := []; filters := [] |}.
Fixpoint all2 {A} (p : A -> A -> bool) (x y : list A) : bool :=
  match x, y with
  | [], [] => true
  | a :: x, b :: y => p a b && all2 p x y
  | _, _ => false
  end.
Definition eqb (a b : t) : bool :=
  bool_decide (group_by a = group_by b) && bool_decide (sort a = sort b) && all2 FilterRule.eqb (filters a) (filters b).
End ViewConfig.

Module ListView.
Record t := {
  id : Uuid; list_id : Uuid; position : Z; name : str; kind : ViewKind; config : ViewConfig.t;
  created_by : Uuid; created_at : Z; updated_at : Z;
}.
End ListView.

Definition clean_view_name (name : str) : AppResult str :=
  let name := trim name in
  if bool_decide (name = []) then invalid ($"A view needs a name")
  else if VIEW_NAME_MAX_CHARS <? chars_count name then invalid ($"A view name can be at most 50 characters")
  else Ok name.

Definition find_column (columns : list ListColumn.t) (id : Uuid) : option ListColumn.t :=
  find (fun c => bool_decide (ListColumn.id c = id)) columns.

Section views.
Context `{UuidText} `{CalendarDate}.

(** ** Filters *)

Definition needs_value : str := $"needs at least one value to compare with".

(** The given ids that are known, each once; a strict check refuses the others. *)
Fixpoint known_ids (strict : bool) (known : str -> bool) (given : list json) (ids : list str) : result str (list str) :=
  match given with
  | [] => Ok ids
  | v :: given =>
      match as_str v with
      | Some id =>
          if known id then known_ids strict known given (if bool_decide (id ∈ ids) then ids else ids ++ [id])
          else if strict then Err ($"has no such choice") else known_ids strict known given ids
      | None => if strict then Err ($"has no such choice") else known_ids strict known given ids
      end
  end.

Definition ids_of (value : json) (strict : bool) (known : str -> bool) : result str json :=
  match as_array value with
  | Some given =>
      if bool_decide (given = []) || (MAX_CHOICES <? length given)%nat then Err needs_value
      else
        ids ← known_ids strict known given [];
        if bool_decide (ids = []) then Err needs_value else Ok (JArray (JString <$> ids))
  | None => Err needs_value
  end.

Definition is_some {A} (o : option A) : bool := match o with Some _ => true | None => false end.

Definition filter_value (rule : FilterRule.t) (column : ListColumn.t) (strict : bool) : result str json :=
  let value := FilterRule.value rule in
  match FilterRule.op rule, ListColumn.kind column with
  | Contains, (Text | Link) =>
      match trim <$> as_str value with
      | None | Some [] => Err ($"needs text to look for")
      | Some text => if FILTER_TEXT_MAX_CHARS <? chars_count text then Err ($"looks for at most 200 characters")
                     else Ok (JString text)
      end
  | (Is | IsNot), (Select | MultiSelect) =>
      ids_of value strict (fun id => is_some (choice (ListColumn.options column) id))
  | (Is | IsNot), Person => ids_of value strict (fun id => str_eqb id ME || is_some (uuid_parse id))
  | (Lt | Gt), Number =>
      match value with
      | JNumber n => if finite n then Ok value else Err ($"needs a number to compare with")
      | _ => Err ($"needs a number to compare with")
      end
  | (Lt | Gt), Date =>
      match as_str value ≫= parse_date with
      | Some d => Ok (JString (format_date d))
      | None => Err ($"needs a date as YYYY-MM-DD")
      end
  | (ThisWeek | Overdue), Date | (Checked | Unchecked), Checkbox => Ok JNull
  | (IsEmpty | NotEmpty), kind =>
      if bool_decide (kind = Checkbox) then Err ($"cannot be filtered that way") else Ok JNull
  | _, _ => Err ($"cannot be filtered that way")
  end.

(** ** Configurations *)

Definition not_in_list : str := $"That column is not in this list".

Definition resolve_group (kind : ViewKind) (columns : list ListColumn.t) (strict : bool) (by_ : option Uuid)
    : result str (option Uuid) :=
  match by_ with
  | None => Ok None
  | Some id =>
      match kind, find_column columns id with
      | Board, Some column =>
          if bool_decide (ListColumn.kind column = Select) then Ok (Some id)
          else if strict then Err ($"A board groups by a single-select column") else Ok None
      | Table, _ => if strict then Err ($"Only a board groups its items") else Ok None
      | Board, None => if strict then Err ($"A board groups by a single-select column") else Ok None
      end
  end.

Fixpoint resolve_sort (columns : list ListColumn.t) (strict : bool) (rules kept : list SortRule.t)
    : result str (list SortRule.t) :=
  match rules with
  | [] => Ok kept
  | rule :: rules =>
      match find_column columns (SortRule.column_id rule) with
      | None => if strict then Err not_in_list else resolve_sort columns strict rules kept
      | Some column =>
          if existsb (fun s => bool_decide (SortRule.column_id s = SortRule.column_id rule)) kept then
            if strict then Err (ListColumn.name column ++ $" is sorted by twice")
            else resolve_sort columns strict rules kept
          else resolve_sort columns strict rules (kept ++ [rule])
      end
  end.

Fixpoint resolve_filters (columns : list ListColumn.t) (strict : bool) (rules : list FilterRule.t)
    : result str (list FilterRule.t) :=
  match rules with
  | [] => Ok []
  | rule :: rules =>
      match find_column columns (FilterRule.column_id rule) with
      | None => if strict then Err not_in_list else resolve_filters columns strict rules
      | Some column =>
          match filter_value rule column strict with
          | Ok value => rest ← resolve_filters columns strict rules; Ok (FilterRule.with_value value rule :: rest)
          | Err problem => if strict then Err (ListColumn.name column ++ $" " ++ problem)
                           else resolve_filters columns strict rules
          end
      end
  end.

(** [ViewConfig::resolve] *)
Definition resolve_config (c : ViewConfig.t) (kind : ViewKind) (columns : list ListColumn.t) (strict : bool)
    : result str ViewConfig.t :=
  if strict && (MAX_SORTS <? length (ViewConfig.sort c))%nat then Err ($"A view sorts by at most 3 columns")
  else if strict && (MAX_FILTERS <? length (ViewConfig.filters c))%nat then Err ($"A view has at most 10 filters")
  else
    group_by ← resolve_group kind columns strict (ViewConfig.group_by c);
    sort ← resolve_sort columns strict (take MAX_SORTS (ViewConfig.sort c)) [];
    filters ← resolve_filters columns strict (take MAX_FILTERS (ViewConfig.filters c));
    Ok {| ViewConfig.group_by := group_by; ViewConfig.sort := sort; ViewConfig.filters := filters |}.

Definition check_config (c : ViewConfig.t) (kind : ViewKind) (columns : list ListColumn.t) : AppResult ViewConfig.t :=
  match resolve_config c kind columns true with Ok c => Ok c | Err e => Err (Validation e) end.

Definition pruned (c : ViewConfig.t) (kind : ViewKind) (columns : list ListColumn.t) : ViewConfig.t :=
  match resolve_config c kind columns false with Ok c => c | Err _ => ViewConfig.default_ end.
End views.

(** ** What is stored fits *)

#[local] Arguments Nat.ltb : simpl never.

Lemma known_ids_Ok strict known given ids r :
  known_ids strict known given ids = Ok r ->
  (NoDup ids -> NoDup r) /\ (Forall (fun x => known x = true) ids -> Forall (fun x => known x = true) r) /\
  (length r <= length ids + length given)%nat.
Proof.
  revert ids. induction given as [|v given IH]; cbn; intros ids Hr; [injection Hr as <-; split_and!; auto; lia|].
  destruct (as_str v) as [id|]; [destruct (known id) eqn:Hk|].
  - apply IH in Hr as (H1 & H2 & H3). case_bool_decide as Hin; [split_and!; auto; lia|]. split_and!.
    + intros Hn. apply H1, NoDup_app. split_and!; [done| |apply NoDup_singleton]. set_solver.
    + intros Hf. apply H2, Forall_app. split; [done|]. by constructor.
    + rewrite length_app in H3. cbn in H3. lia.
  - destruct strict; [done|]. apply IH in Hr as (H1 & H2 & H3). split_and!; auto; lia.
  - destruct strict; [done|]. apply IH in Hr as (H1 & H2 & H3). split_and!; auto; lia.
Qed.

Lemma known_ids_fixed strict known ids l :
  NoDup (ids ++ l) -> Forall (fun x => known x = true) l -> known_ids strict known (JString <$> l) ids = Ok (ids ++ l).
Proof.
  revert ids. induction l as [|x l IH]; cbn; intros ids Hn Hl; [by rewrite app_nil_r|].
  apply Forall_cons in Hl as [-> Hl]. rewrite bool_decide_eq_false_2.
  - rewrite IH; [by rewrite <-app_assoc|by rewrite <-app_assoc|done].
  - apply NoDup_app in Hn as (_ & Hd & _). intros Hx. apply (Hd x Hx). left.
Qed.

Lemma known_ids_loose known given ids : exists r, known_ids false known given ids = Ok r.
Proof. revert ids. induction given as [|v given IH]; cbn; intros ids; [eauto|]. destruct (as_str v); [destruct (known _)|]; apply IH. Qed.

Lemma ids_of_fixed value strict strict' known v : ids_of value strict known = Ok v -> ids_of v strict' known = Ok v.
Proof.
  unfold ids_of. destruct (as_array value) as [given|]; [|done].
  destruct (bool_decide (given = []) || _) eqn:Hg; [done|]. apply orb_false_iff in Hg as [_ Hlen].
  intros (ids & Hids & Hv)%bind_Ok. case_bool_decide as Hne; [done|]. injection Hv as <-.
  apply known_ids_Ok in Hids as (Hn & Hk & Hl). cbn. rewrite length_fmap.
  rewrite bool_decide_eq_false_2 by (by destruct ids). apply Nat.ltb_ge in Hlen. cbn in Hl.
  assert ((MAX_CHOICES <? length ids)%nat = false) as -> by (apply Nat.ltb_ge; lia). cbn. rewrite known_ids_fixed; [cbn|apply Hn, NoDup_nil_2|by apply Hk].
  by rewrite bool_decide_eq_false_2.
Qed.

Section fitting.
Context `{UuidText} `{CalendarDate} `{!CalendarDateLaws H0}.

Lemma filter_value_fixed rule column strict strict' v :
  filter_value rule column strict = Ok v -> filter_value (FilterRule.with_value v rule) column strict' = Ok v.
Proof.
  unfold filter_value. cbn [FilterRule.with_value FilterRule.value FilterRule.op].
  assert (Htext : forall v0, match trim <$> as_str v0 with
      | None | Some [] => Err ($"needs text to look for")
      | Some text => if FILTER_TEXT_MAX_CHARS <? chars_count text then Err ($"looks for at most 200 characters")
                     else Ok (JString text) end = Ok v ->
    match trim <$> as_str v with
      | None | Some [] => Err ($"needs text to look for")
      | Some text => if FILTER_TEXT_MAX_CHARS <? chars_count text then Err ($"looks for at most 200 characters")
                     else Ok (JString text) end = Ok v).
  { intros v0. destruct (as_str v0) as [s|]; cbn; [|done]. destruct (trim s) as [|c t] eqn:E; [done|].
    destruct (_ <? _) eqn:El; [done|]. intros [= <-].
    assert (trim (c :: t) = c :: t) as Ht by (rewrite <-E; apply trim_idemp). cbn -[trim]. by rewrite Ht, El. }
  assert (Hnumber : forall v0, match v0 with
      | JNumber n => if finite n then Ok v0 else Err ($"needs a number to compare with")
      | _ => Err ($"needs a number to compare with") end = Ok v -> v0 = v).
  { intros [| |n| | |]; try done. destruct (finite n); congruence. }
  destruct (FilterRule.op rule), (ListColumn.kind column); try done;
    try (apply Htext); try (apply ids_of_fixed); try (intros Hv; pose proof (Hnumber _ Hv) as <-; done).
  all: destruct (as_str _ ≫= parse_date) as [d|]; [|done]; intros [= <-]; cbn; by rewrite parse_format_date.
Qed.

Lemma resolve_sort_Ok columns strict rules kept r :
  resolve_sort columns strict rules kept = Ok r ->
  NoDup (SortRule.column_id <$> kept) ->
  Forall (fun s => is_Some (find_column columns (SortRule.column_id s))) kept ->
  NoDup (SortRule.column_id <$> r) /\ Forall (fun s => is_Some (find_column columns (SortRule.column_id s))) r /\
  (length r <= length kept + length rules)%nat.
Proof.
  revert kept. induction rules as [|rule rules IH]; cbn; intros kept Hr Hn Hf; [injection Hr as <-; split_and!; auto; lia|].
  destruct (find_column columns _) as [column|] eqn:Hc.
  - destruct (existsb _ kept) eqn:He.
    + destruct strict; [done|]. destruct (IH kept Hr Hn Hf) as (? & ? & ?). split_and!; auto; lia.
    + destruct (IH _ Hr) as (H1 & H2 & H3).
      * rewrite fmap_app. apply NoDup_app. split_and!; [done| |apply NoDup_singleton].
        intros x (s & -> & Hs)%list_elem_of_fmap Hx. apply list_elem_of_singleton in Hx.
        rewrite existsb_false_Forall, Forall_forall in He. apply He in Hs. apply bool_decide_eq_false in Hs. done.
      * apply Forall_app. split; [done|]. constructor; [|done]. rewrite Hc. eauto.
      * rewrite length_app in H3. cbn in H3. split_and!; auto; lia.
  - destruct strict; [done|]. destruct (IH kept Hr Hn Hf) as (? & ? & ?). split_and!; auto; lia.
Qed.

Lemma resolve_sort_fixed columns strict rules kept :
  NoDup (SortRule.column_id <$> kept ++ rules) ->
  Forall (fun s => is_Some (find_column columns (SortRule.column_id s))) rules ->
  resolve_sort columns strict rules kept = Ok (kept ++ rules).
Proof.
  revert kept. induction rules as [|rule rules IH]; cbn; intros kept Hn Hf; [by rewrite app_nil_r|].
  apply Forall_cons in Hf as [[column ->] Hf].
  assert (existsb (fun s => bool_decide (SortRule.column_id s = SortRule.column_id rule)) kept = false) as ->.
  { rewrite existsb_false_Forall, Forall_forall. intros s Hs. apply bool_decide_eq_false. intros E.
    rewrite fmap_app in Hn. apply NoDup_app in Hn as (_ & Hd & _). apply (Hd (SortRule.column_id s)).
    - by apply list_elem_of_fmap_2.
    - rewrite E. left. }
  rewrite IH; [by rewrite <-app_assoc|by rewrite <-app_assoc|done].
Qed.

Lemma resolve_filters_fixed columns strict strict' rules r :
  resolve_filters columns strict rules = Ok r ->
  resolve_filters columns strict' r = Ok r /\ (length r <= length rules)%nat.
Proof.
  revert r. induction rules as [|rule rules IH]; cbn; intros r Hr; [injection Hr as <-; done|].
  destruct (find_column columns _) as [column|] eqn:Hc.
  - destruct (filter_value rule column strict) as [v|e] eqn:Hv.
    + apply bind_Ok in Hr as (rest & Hrest & [= <-]). destruct (IH _ Hrest) as [Hr Hl]. cbn.
      rewrite Hc, (filter_value_fixed _ _ _ strict' _ Hv), Hr. cbn. split; [done|lia].
    + destruct strict; [done|]. destruct (IH _ Hr). split; [done|lia].
  - destruct strict; [done|]. destruct (IH _ Hr). split; [done|lia].
Qed.

Lemma resolve_config_fixed c kind columns strict strict' c' :
  resolve_config c kind columns strict = Ok c' -> resolve_config c' kind columns strict' = Ok c'.
Proof.
  unfold resolve_config. intros Hc. destruct (strict && _) in Hc; [done|]. destruct (strict && _) in Hc; [done|].
  apply bind_Ok in Hc as (g & Hg & Hc). apply bind_Ok in Hc as (s & Hs & Hc). apply bind_Ok in Hc as (f & Hf & [= <-]).
  cbn [ViewConfig.group_by ViewConfig.sort ViewConfig.filters].
  apply resolve_sort_Ok in Hs as (Hn & Hfound & Hls); [|apply NoDup_nil_2|done].
  destruct (resolve_filters_fixed _ _ strict' _ _ Hf) as [Hf' Hlf]. rewrite Nat.add_0_l in Hls.
  pose proof (length_take (ViewConfig.sort c) MAX_SORTS). pose proof (length_take (ViewConfig.filters c) MAX_FILTERS).
  assert ((MAX_SORTS <? length s)%nat = false) as -> by (apply Nat.ltb_ge; lia).
  assert ((MAX_FILTERS <? length f)%nat = false) as -> by (apply Nat.ltb_ge; lia).
  rewrite !andb_false_r, !take_ge by lia.
  assert (resolve_group kind columns strict' g = Ok g) as ->.
  { unfold resolve_group in *. destruct (ViewConfig.group_by c) as [id|]; [|by injection Hg as <-].
    destruct kind; [by destruct strict; simplify_eq|]. destruct (find_column columns id) as [column|] eqn:E.
    - case_bool_decide as Hk; [|by destruct strict; simplify_eq]. injection Hg as <-. rewrite E.
      by rewrite bool_decide_eq_true_2.
    - by destruct strict; simplify_eq. }
  cbn. rewrite resolve_sort_fixed by done. cbn. by rewrite Hf'.
Qed.

(** Pruning never falls back to the empty view: it keeps what fits. *)
Lemma resolve_config_loose c kind columns : exists c', resolve_config c kind columns false = Ok c'.
Proof.
  unfold resolve_config. cbn [andb].
  assert (exists g, resolve_group kind columns false (ViewConfig.group_by c) = Ok g) as [g ->].
  { unfold resolve_group. destruct (ViewConfig.group_by c); [|eauto]. destruct kind; [eauto|].
    destruct (find_column _ _); [|eauto]. case_bool_decide; eauto. }
  assert (forall rules kept, exists r, resolve_sort columns false rules kept = Ok r) as Hs.
  { induction rules as [|rule rules IH]; cbn; intros kept; [eauto|].
    destruct (find_column _ _); [|eauto]. destruct (existsb _ _); eauto. }
  assert (forall rules, exists r, resolve_filters columns false rules = Ok r) as Hf.
  { induction rules as [|rule rules [r Hr]]; cbn; [eauto|]. rewrite Hr.
    destruct (find_column _ _); [|eauto]. destruct (filter_value _ _ _); cbn; eauto. }
  destruct (Hs (take MAX_SORTS (ViewConfig.sort c)) []) as [s Es].
  destruct (Hf (take MAX_FILTERS (ViewConfig.filters c))) as [f Ef].
  unfold mbind, result_bind. rewrite Es, Ef. eauto.
Qed.

Definition fits (c : ViewConfig.t) (kind : ViewKind) (columns : list ListColumn.t) : Prop :=
  check_config c kind columns = Ok c.

(** A view that fits goes on fitting when its columns keep kind and options. *)
Definition same_column (c d : ListColumn.t) : Prop :=
  ListColumn.kind d = ListColumn.kind c /\ ListColumn.options d = ListColumn.options c.
Definition columns_extend (cs ds : list ListColumn.t) : Prop :=
  forall id c, find_column cs id = Some c -> exists d, find_column ds id = Some d /\ same_column c d.

Lemma filter_value_same rule c d strict : same_column c d -> filter_value rule d strict = filter_value rule c strict.
Proof. intros [Hk Ho]. unfold filter_value. by rewrite Hk, Ho. Qed.

Lemma resolve_config_mono cs ds c kind c' :
  columns_extend cs ds -> resolve_config c kind cs true = Ok c' -> resolve_config c kind ds true = Ok c'.
Proof.
  intros Hext. unfold resolve_config. destruct (true && _); [done|]. destruct (true && _); [done|].
  intros (g & Hg & (s & Hs & (f & Hf & [= <-])%bind_Ok)%bind_Ok)%bind_Ok.
  assert (resolve_group kind ds true (ViewConfig.group_by c) = Ok g) as ->.
  { unfold resolve_group in *. destruct (ViewConfig.group_by c) as [id|]; [|done]. destruct kind; [done|].
    destruct (find_column cs id) as [x|] eqn:E; [|done]. destruct (Hext _ _ E) as (y & -> & -> & _). done. }
  assert (Hsort : forall rules kept r, resolve_sort cs true rules kept = Ok r -> resolve_sort ds true rules kept = Ok r).
  { induction rules as [|rule rules IH]; [done|]. intros kept r. cbn.
    destruct (find_column cs _) as [x|] eqn:E; [|done]. destruct (Hext _ _ E) as (y & -> & _).
    destruct (existsb _ _); [done|]. apply IH. }
  assert (Hfil : forall rules r, resolve_filters cs true rules = Ok r -> resolve_filters ds true rules = Ok r).
  { induction rules as [|rule rules IH]; [done|]. intros r. cbn.
    destruct (find_column cs _) as [x|] eqn:E; [|done]. destruct (Hext _ _ E) as (y & -> & Hy).
    rewrite (filter_value_same _ _ _ _ Hy). destruct (filter_value rule x true) as [v|]; [|done].
    intros (rest & Hr & [= <-])%bind_Ok. by rewrite (IH _ Hr). }
  unfold mbind, result_bind. by rewrite (Hsort _ _ _ Hs), (Hfil _ _ Hf).
Qed.

Lemma fits_mono c kind cs ds : columns_extend cs ds -> fits c kind cs -> fits c kind ds.
Proof.
  unfold fits, check_config. intros Hext. destruct (resolve_config c kind cs true) as [x|] eqn:E; [|done].
  intros [= ->]. by rewrite (resolve_config_mono _ _ _ _ _ Hext E).
Qed.

Lemma default_fits kind columns : fits ViewConfig.default_ kind columns.
Proof. done. Qed.

Lemma check_config_fits c kind columns c' : check_config c kind columns = Ok c' -> fits c' kind columns.
Proof.
  unfold fits, check_config. destruct (resolve_config c kind columns true) as [x|] eqn:E; [|done]. intros [= <-].
  by rewrite (resolve_config_fixed _ _ _ _ true _ E).
Qed.

Lemma pruned_fits c kind columns : fits (pruned c kind columns) kind columns.
Proof.
  unfold fits, check_config, pruned. destruct (resolve_config_loose c kind columns) as [c' E]. rewrite E.
  by rewrite (resolve_config_fixed _ _ _ _ true _ E).
Qed.

(** A configuration equal to one that fits, fits. *)
Lemma filter_value_shape rule column strict v : filter_value rule column strict = Ok v ->
  v = JNull \/ (exists s, v = JString s) \/ (exists l, v = JArray (JString <$> l)) \/
  (exists n, v = JNumber n /\ finite n = true /\ ListColumn.kind column = Number).
Proof.
  unfold filter_value.
  assert (Hids : forall value known, ids_of value strict known = Ok v -> exists l, v = JArray (JString <$> l)).
  { intros value known. unfold ids_of. destruct (as_array value); [|done]. destruct (_ || _); [done|].
    intros (ids & _ & Hv)%bind_Ok. case_bool_decide; [done|]. injection Hv as <-. eauto. }
  destruct (FilterRule.op rule), (ListColumn.kind column) eqn:Hk; try done; try (intros [= <-]; by left);
    try (intros Hv; right; right; left; by eapply Hids).
  all: try (destruct (trim <$> as_str _) as [[|x s]|]; [done| |done]; destruct (_ <? _); [done|]; intros [= <-]; eauto).
  all: try (destruct (as_str _ ≫= parse_date); [|done]; intros [= <-]; eauto).
  all: destruct (FilterRule.value rule) as [| |n| | |]; try done; destruct (finite n) eqn:Hn; [|done]; intros [= <-].
  all: right; right; right; exists n; auto.
Qed.

Lemma filter_value_eqb rule column v w :
  filter_value (FilterRule.with_value v rule) column true = Ok v -> json_eqb v w = true ->
  filter_value (FilterRule.with_value w rule) column true = Ok w.
Proof.
  intros Hv Hw. destruct (filter_value_shape _ _ _ _ Hv) as [->|[[s ->]|[[l ->]|(n & -> & Hn & Hk)]]].
  - by destruct w.
  - apply json_eqb_str in Hw as ->. done.
  - apply json_eqb_strings in Hw as ->. done.
  - destruct w as [| |m| | |]; try done. revert Hv. unfold filter_value. cbn [FilterRule.with_value FilterRule.op FilterRule.value].
    rewrite Hk. assert (Hm : finite m = true).
    { destruct n as [| |f], m as [| |g]; try done. cbn in *. unfold SFeqb in Hw. by destruct f as [|[]| |[] ? ?], g as [|[]| |[] ? ?]. }
    rewrite Hm. by destruct (FilterRule.op rule).
Qed.

Lemma with_value_same r : FilterRule.with_value (FilterRule.value r) r = r.
Proof. by destruct r. Qed.

Lemma resolve_filters_eqb columns fs gs :
  resolve_filters columns true fs = Ok fs -> ViewConfig.all2 FilterRule.eqb fs gs = true ->
  resolve_filters columns true gs = Ok gs.
Proof.
  revert gs. induction fs as [|f fs IH]; intros [|g gs]; try done. cbn.
  intros Hf [Hfg Hrest]%andb_true_iff. unfold FilterRule.eqb in Hfg. bool_hyps.
  destruct (find_column columns (FilterRule.column_id f)) as [x|] eqn:E; [|done].
  destruct (filter_value f x true) as [v|] eqn:Hv; [|done]. apply bind_Ok in Hf as (r & Hr & [= Hfv ->]).
  rewrite <-H1, E. rewrite (IH _ Hr Hrest).
  assert (v = FilterRule.value f) as -> by (by rewrite <-Hfv).
  rewrite <-(with_value_same f) in Hv.
  assert (Hg : filter_value (FilterRule.with_value (FilterRule.value g) f) x true = Ok (FilterRule.value g))
    by (by eapply filter_value_eqb).
  assert (FilterRule.with_value (FilterRule.value g) f = g) as Hfg'
    by (clear -H1 H3; destruct f, g; cbn in *; by subst).
  rewrite Hfg' in Hg. rewrite Hg. cbn. by rewrite with_value_same.
Qed.

Lemma fits_eqb c c' kind columns : fits c kind columns -> ViewConfig.eqb c c' = true -> fits c' kind columns.
Proof.
  unfold fits, check_config, ViewConfig.eqb. destruct (resolve_config c kind columns true) as [x|] eqn:E; [|done].
  intros [= ->] He. bool_hyps. revert E. unfold resolve_config. rewrite <-H1, <-H3.
  assert (Hlen : length (ViewConfig.filters c) = length (ViewConfig.filters c')).
  { revert H2. generalize (ViewConfig.filters c'). generalize (ViewConfig.filters c).
    induction l as [|a l IH]; intros [|b l']; cbn; try done. intros [_ ?]%andb_true_iff. f_equal. by apply IH. }
  rewrite <-Hlen. destruct (true && _); [done|]. destruct (true && (MAX_FILTERS <? _)%nat) eqn:Hf; [done|].
  intros (g & -> & (s & -> & (f & Hfs & Hc)%bind_Ok)%bind_Ok)%bind_Ok.
  apply andb_false_iff in Hf as [?|Hf]; [done|]. apply Nat.ltb_ge in Hf. rewrite take_ge in Hfs by done.
  rewrite (take_ge (ViewConfig.filters c')) by lia. unfold mbind, result_bind.
  assert (f = ViewConfig.filters c) as -> by (by injection Hc as <-).
  rewrite (resolve_filters_eqb _ _ _ Hfs H2). cbn. f_equal.
  injection Hc as Hc. destruct c, c'. cbn in *. simplify_eq. done.
Qed.

Lemma fits_pruned c kind columns : fits c kind columns -> pruned c kind columns = c.
Proof.
  unfold fits, check_config, pruned. destruct (resolve_config c kind columns true) as [x|] eqn:E; [|done]. intros [= ->].
  by rewrite (resolve_config_fixed _ _ _ _ false _ E).
Qed.
End fitting.

(** ** The views a list stores *)

(** What a filter of a view that fits is. *)
Definition sound_filter `{UuidText} `{CalendarDate} (columns : list ListColumn.t) (f : FilterRule.t) : Prop :=
  exists column, find_column columns (FilterRule.column_id f) = Some column /\
    filter_value f column true = Ok (FilterRule.value f).

(** What a view that fits its columns looks like. *)
Record tidy `{UuidText} `{CalendarDate} (c : ViewConfig.t) (kind : ViewKind) (columns : list ListColumn.t) : Prop := {
  tidy_group : forall id, ViewConfig.group_by c = Some id ->
    kind = Board /\ exists column, find_column columns id = Some column /\ ListColumn.kind column = Select;
  tidy_sorts : (length (ViewConfig.sort c) <= 3)%nat /\ NoDup (SortRule.column_id <$> ViewConfig.sort c) /\
    Forall (fun s => is_Some (find_column columns (SortRule.column_id s))) (ViewConfig.sort c);
  tidy_filters : (length (ViewConfig.filters c) <= 10)%nat /\ Forall (sound_filter columns) (ViewConfig.filters c);
}.

Section tidy.
Context `{UuidText} `{CalendarDate} `{!CalendarDateLaws H0}.

Lemma resolve_filters_sound columns fs :
  resolve_filters columns true fs = Ok fs <-> Forall (sound_filter columns) fs.
Proof.
  induction fs as [|f fs IH]; cbn; [done|]. rewrite Forall_cons, <-IH. unfold sound_filter at 1.
  destruct (find_column columns (FilterRule.column_id f)) as [x|]; [|naive_solver].
  destruct (filter_value f x true) as [v|e] eqn:Hv; [|split; [done|intros [(y & [= <-] & Hy) _]; congruence]]. split.
  - intros (r & Hr & [= Hf ->])%bind_Ok. split; [|done]. exists x. split; [done|]. rewrite Hv. f_equal. by rewrite <-Hf.
  - intros [(y & [= <-] & Hy) ->]. cbn. rewrite Hv in Hy. injection Hy as ->. by rewrite with_value_same.
Qed.

Lemma fits_tidy c kind columns : fits c kind columns <-> tidy c kind columns.
Proof.
  unfold fits, check_config. split.
  - destruct (resolve_config c kind columns true) as [x|] eqn:E; [|done]. intros [= ->].
    unfold resolve_config in E. destruct (true && (MAX_SORTS <? _)%nat) eqn:H3; [done|].
    destruct (true && (MAX_FILTERS <? _)%nat) eqn:H10; [done|]. cbn [andb] in *.
    apply Nat.ltb_ge in H3, H10. unfold MAX_SORTS, MAX_FILTERS in *. rewrite !take_ge in E by done.
    apply bind_Ok in E as (g & Hg & (s & Hs & (f & Hf & Hc)%bind_Ok)%bind_Ok).
    assert (g = ViewConfig.group_by c /\ s = ViewConfig.sort c /\ f = ViewConfig.filters c) as (-> & -> & ->)
      by (by injection Hc as <-). constructor.
    + intros id Hid. unfold resolve_group in Hg. rewrite Hid in Hg. destruct kind; [done|].
      destruct (find_column columns id) as [y|]; [|done]. case_bool_decide; [eauto|done].
    + apply resolve_sort_Ok in Hs as (? & ? & _); [done|apply NoDup_nil_2|done].
    + split; [done|]. by apply resolve_filters_sound.
  - intros [Hg (H3 & Hn & Hs) (H10 & Hf)]. unfold resolve_config.
    assert ((MAX_SORTS <? length (ViewConfig.sort c))%nat = false) as -> by (by apply Nat.ltb_ge).
    assert ((MAX_FILTERS <? length (ViewConfig.filters c))%nat = false) as -> by (by apply Nat.ltb_ge).
    cbn [andb]. rewrite !take_ge by done.
    assert (resolve_group kind columns true (ViewConfig.group_by c) = Ok (ViewConfig.group_by c)) as ->.
    { unfold resolve_group. destruct (ViewConfig.group_by c) as [id|] eqn:E; [|done].
      destruct (Hg _ eq_refl) as (-> & y & -> & ->). done. }
    cbn. rewrite resolve_sort_fixed by done. cbn. apply resolve_filters_sound in Hf as ->. cbn. by destruct c.
Qed.

(** A check changes no rule, only what its value is written as. *)
Lemma resolve_filters_strict columns fs gs : resolve_filters columns true fs = Ok gs ->
  (fun f => (FilterRule.column_id f, FilterRule.op f)) <$> gs = (fun f => (FilterRule.column_id f, FilterRule.op f)) <$> fs.
Proof.
  revert gs. induction fs as [|f fs IH]; cbn; intros gs Hg; [by injection Hg as <-|].
  destruct (find_column _ _); [|done]. destruct (filter_value _ _ _); [|done].
  apply bind_Ok in Hg as (r & Hr & [= <-]). cbn. f_equal. by apply IH.
Qed.

Lemma resolve_sort_strict columns rules kept r : resolve_sort columns true rules kept = Ok r -> r = kept ++ rules.
Proof.
  revert kept. induction rules as [|rule rules IH]; cbn; intros kept Hr; [injection Hr as <-; by rewrite app_nil_r|].
  destruct (find_column _ _); [|done]. destruct (existsb _ _); [done|]. apply IH in Hr as ->. by rewrite <-app_assoc.
Qed.

Lemma check_config_asked c kind columns c' : check_config c kind columns = Ok c' ->
  ViewConfig.group_by c' = ViewConfig.group_by c /\ ViewConfig.sort c' = ViewConfig.sort c /\
  (fun f => (FilterRule.column_id f, FilterRule.op f)) <$> ViewConfig.filters c' =
  (fun f => (FilterRule.column_id f, FilterRule.op f)) <$> ViewConfig.filters c.
Proof.
  unfold check_config, resolve_config. destruct (true && (MAX_SORTS <? _)%nat) eqn:H3; [done|].
  destruct (true && (MAX_FILTERS <? _)%nat) eqn:H10; [done|]. apply Nat.ltb_ge in H3, H10. rewrite !take_ge by done.
  destruct (resolve_group _ _ _ _) as [g|] eqn:Hg; [|done]. cbn. destruct (resolve_sort _ _ _ _) as [s|] eqn:Hs; [|done]. cbn.
  destruct (resolve_filters _ _ _) as [f|] eqn:Hf; [|done]. intros [= <-]. cbn. split_and!.
  - unfold resolve_group in Hg. destruct (ViewConfig.group_by c); [|congruence]. destruct kind; [done|].
    destruct (find_column _ _); [|done]. case_bool_decide; congruence.
  - by apply resolve_sort_strict in Hs.
  - by apply resolve_filters_strict in Hf.
Qed.

(** What a strict check accepts, a loose one keeps. *)
Lemma known_ids_relax known given ids r : known_ids true known given ids = Ok r -> known_ids false known given ids = Ok r.
Proof.
  revert ids. induction given as [|v given IH]; [done|]. intros ids. cbn.
  destruct (as_str v) as [id|]; [|done]. destruct (known id); [apply IH|done].
Qed.

Lemma filter_value_relax rule column v : filter_value rule column true = Ok v -> filter_value rule column false = Ok v.
Proof.
  assert (Hids : forall known, ids_of (FilterRule.value rule) true known = Ok v -> ids_of (FilterRule.value rule) false known = Ok v).
  { intros known. unfold ids_of. destruct (as_array _); [|done]. destruct (_ || _); [done|].
    intros (ids & Hids%known_ids_relax & Hv)%bind_Ok. by rewrite Hids. }
  unfold filter_value. destruct (FilterRule.op rule), (ListColumn.kind column); auto.
Qed.

Lemma resolve_filters_relax columns fs gs : resolve_filters columns true fs = Ok gs -> resolve_filters columns false fs = Ok gs.
Proof.
  revert gs. induction fs as [|f fs IH]; cbn; intros gs Hg; [done|].
  destruct (find_column _ _) as [x|]; [|done]. destruct (filter_value f x true) as [v|] eqn:Hv; [|done].
  rewrite (filter_value_relax _ _ _ Hv). apply bind_Ok in Hg as (r & Hr & Hg). by rewrite (IH _ Hr).
Qed.

Lemma check_config_pruned c kind columns c' : check_config c kind columns = Ok c' -> pruned c kind columns = c'.
Proof.
  unfold check_config, pruned, resolve_config. destruct (true && (MAX_SORTS <? _)%nat); [done|].
  destruct (true && (MAX_FILTERS <? _)%nat); [done|]. cbn [andb].
  destruct (resolve_group kind columns true _) as [g|] eqn:Hg; [|done].
  destruct (resolve_sort columns true _ _) as [s|] eqn:Hs; [|done]. cbn.
  destruct (resolve_filters columns true _) as [f|] eqn:Hf; [|done]. intros [= <-]. rewrite (resolve_filters_relax _ _ _ Hf).
  assert (resolve_group kind columns false (ViewConfig.group_by c) = Ok g) as ->.
  { revert Hg. unfold resolve_group. destruct (ViewConfig.group_by c); [|done]. destruct kind; [done|].
    destruct (find_column _ _); [|done]. by case_bool_decide. }
  pose proof (resolve_sort_strict _ _ _ _ Hs) as ->.
  apply resolve_sort_Ok in Hs as (Hn & Hall & _); [|apply NoDup_nil_2|done]. cbn in *. by rewrite resolve_sort_fixed.
Qed.

(** A view is accepted as asked, but for how the values of its filters are
    written, and pruning leaves what was accepted as it is; whatever the
    configuration, pruning leaves a view that is in order for the columns it is
    pruned for: grouped by a single-select column on a board only, sorted by at
    most three columns, each once, filtered by at most ten rules, each on a
    column and with a value it admits.  A configuration is accepted as it
    stands exactly when it is in order. *)
Theorem stored_views_fit : forall c kind columns,
  (check_config c kind columns = Ok c <-> tidy c kind columns) /\
  tidy (pruned c kind columns) kind columns /\
  (tidy c kind columns -> pruned c kind columns = c) /\
  (forall c', check_config c kind columns = Ok c' ->
     tidy c' kind columns /\ pruned c kind columns = c' /\ ViewConfig.group_by c' = ViewConfig.group_by c /\
     ViewConfig.sort c' = ViewConfig.sort c /\
     (fun f => (FilterRule.column_id f, FilterRule.op f)) <$> ViewConfig.filters c' =
     (fun f => (FilterRule.column_id f, FilterRule.op f)) <$> ViewConfig.filters c).
Proof.
  intros c kind columns. split_and!.
  - apply fits_tidy.
  - apply fits_tidy, pruned_fits.
  - intros Hc%fits_tidy. by apply fits_pruned.
  - intros c' Hc. split; [by apply fits_tidy, (check_config_fits c)|]. split; [by apply check_config_pruned|exact (check_config_asked _ _ _ _ Hc)].
Qed.
End tidy.

(** A board sorted by title and filtered by a choice given twice, pruned after
    its status column went. *)
Module SampleViews.
#[export] Existing Instances SampleLists.uuid SampleLists.dates SampleLists.date_laws.
Definition sort : SortRule.t := {| SortRule.column_id := 2%N; SortRule.direction := Asc |}.
Definition filter_by (given : list str) : FilterRule.t :=
  {| FilterRule.column_id := 3%N; FilterRule.op := Is; FilterRule.value := JArray (JString <$> given) |}.
Definition config (given : list str) : ViewConfig.t :=
  {| ViewConfig.group_by := Some 3%N; ViewConfig.sort := [sort]; ViewConfig.filters := [filter_by given] |}.
Definition rest : ViewConfig.t := {| ViewConfig.group_by := None; ViewConfig.sort := [sort]; ViewConfig.filters := [] |}.
End SampleViews.

Lemma stored_views_fit_witness :
  check_config (SampleViews.config [[8]; [8]]) Board SampleLists.columns = Ok (SampleViews.config [[8]]) /\
  tidy (SampleViews.config [[8]]) Board SampleLists.columns /\
  pruned (SampleViews.config [[8]]) Board (take 1 SampleLists.columns) = SampleViews.rest /\
  tidy SampleViews.rest Board (take 1 SampleLists.columns).
Proof.
  assert (Hc : check_config (SampleViews.config [[8]; [8]]) Board SampleLists.columns = Ok (SampleViews.config [[8]]))
    by (vm_compute; reflexivity).
  split; [exact Hc|]. split; [|split; [vm_compute; reflexivity|]].
  - destruct (stored_views_fit (SampleViews.config [[8]; [8]]) Board SampleLists.columns) as (_ & _ & _ & Ha).
    by destruct (Ha _ Hc).
  - by destruct (stored_views_fit (SampleViews.config [[8]]) Board (take 1 SampleLists.columns)) as (_ & Ht & _).
Defined.
