(* ===== verification/ListStore.v ===== *)
(** * The tables of lists ([backend/api/src/lists/repo.rs])

    The rows of lists, their columns, views, items and comments, and the
    statements of the repository over them.  A row that was deleted stays, with
    the time of its deletion.  The [values] of an item are an object whose keys
    are the identifiers of columns. *)

From stdpp Require Import base tactics option numbers list gmap sorting.
From Stdlib Require Import ZArith Lia String Ascii.
From S2P Require Import Prelude RustStr Json Errors Rank Lists ListForms ListViews.

Module List.
Record t := {
  id : Uuid; workspace_id : Uuid; channel_id : option Uuid; title : str; description : str; created_by : Uuid;
  created_at : Z; updated_at : Z;
}.
Definition retitle (title_ description_ : str) (now : Z) (l : t) : t :=
  {| id := id l; workspace_id := workspace_id l; channel_id := channel_id l; title := title_;
     description := description_; created_by := created_by l; created_at := created_at l; updated_at := now |}.
End List.

Module ListComment.
Record t := {
  id : Uuid; item_id : Uuid; list_id : Uuid; user_id : Uuid; content : str; created_at : Z; edited_at : option Z;
}.
(** [ORDER BY created_at, id] *)
Definition le (c d : t) : Prop := created_at c < created_at d \/ (created_at c = created_at d /\ (id c <= id d)%N).
#[global] Instance le_dec c d : Decision (le c d).
Proof. unfold le. apply _. Defined.
End ListComment.

Record ListTables := {
  lists : gmap Uuid (List.t * option Z);
  list_columns : gmap Uuid ListColumn.t;
  list_views : gmap Uuid ListView.t;
  list_items : gmap Uuid (ListItem.t * option Z);
  list_item_comments : gmap Uuid ListComment.t;
}.
Definition no_lists : ListTables :=
  {| lists := ∅; list_columns := ∅; list_views := ∅; list_items := ∅; list_item_comments := ∅ |}.

Definition set_lists f (t : ListTables) : ListTables :=
  let '(Build_ListTables l c v i m) := t in Build_ListTables (f l) c v i m.
Definition set_list_columns f (t : ListTables) : ListTables :=
  let '(Build_ListTables l c v i m) := t in Build_ListTables l (f c) v i m.
Definition set_list_views f (t : ListTables) : ListTables :=
  let '(Build_ListTables l c v i m) := t in Build_ListTables l c (f v) i m.
Definition set_list_items f (t : ListTables) : ListTables :=
  let '(Build_ListTables l c v i m) := t in Build_ListTables l c v (f i) m.
Definition set_list_item_comments f (t : ListTables) : ListTables :=
  let '(Build_ListTables l c v i m) := t in Build_ListTables l c v i (f m).

(** ** Rows *)

Module Column.
Implicit Types c : ListColumn.t.
Definition set_due (b : bool) c : ListColumn.t :=
  {| ListColumn.id := ListColumn.id c; ListColumn.list_id := ListColumn.list_id c;
     ListColumn.position := ListColumn.position c; ListColumn.name := ListColumn.name c;
     ListColumn.kind := ListColumn.kind c; ListColumn.options := ListColumn.options c;
     ListColumn.hidden := ListColumn.hidden c; ListColumn.due := b |}.
Definition set_position (p : Z) c : ListColumn.t :=
  {| ListColumn.id := ListColumn.id c; ListColumn.list_id := ListColumn.list_id c; ListColumn.position := p;
     ListColumn.name := ListColumn.name c; ListColumn.kind := ListColumn.kind c;
     ListColumn.options := ListColumn.options c; ListColumn.hidden := ListColumn.hidden c;
     ListColumn.due := ListColumn.due c |}.
(** [ORDER BY position, id] *)
Definition le c d : Prop :=
  ListColumn.position c < ListColumn.position d \/
  (ListColumn.position c = ListColumn.position d /\ (ListColumn.id c <= ListColumn.id d)%N).
#[global] Instance le_dec c d : Decision (le c d).
Proof. unfold le. apply _. Defined.
End Column.

Module View.
Implicit Types v : ListView.t.
Definition set (name : str) (kind : ViewKind) (config : ViewConfig.t) (now : Z) v : ListView.t :=
  {| ListView.id := ListView.id v; ListView.list_id := ListView.list_id v; ListView.position := ListView.position v;
     ListView.name := name; ListView.kind := kind; ListView.config := config;
     ListView.created_by := ListView.created_by v; ListView.created_at := ListView.created_at v;
     ListView.updated_at := now |}.
Definition set_position (p : Z) v : ListView.t :=
  {| ListView.id := ListView.id v; ListView.list_id := ListView.list_id v; ListView.position := p;
     ListView.name := ListView.name v; ListView.kind := ListView.kind v; ListView.config := ListView.config v;
     ListView.created_by := ListView.created_by v; ListView.created_at := ListView.created_at v;
     ListView.updated_at := ListView.updated_at v |}.
Definition le v w : Prop :=
  ListView.position v < ListView.position w \/
  (ListView.position v = ListView.position w /\ (ListView.id v <= ListView.id w)%N).
#[global] Instance le_dec v w : Decision (le v w).
Proof. unfold le. apply _. Defined.
End View.

Module Item.
Implicit Types i : ListItem.t.
Definition set_values (values : json) (updated : Z) i : ListItem.t :=
  {| ListItem.id := ListItem.id i; ListItem.list_id := ListItem.list_id i; ListItem.rank := ListItem.rank i;
     ListItem.values := values; ListItem.comment_count := ListItem.comment_count i;
     ListItem.created_by := ListItem.created_by i; ListItem.created_at := ListItem.created_at i;
     ListItem.updated_at := updated |}.
Definition set_rank (rank : str) (now : Z) i : ListItem.t :=
  {| ListItem.id := ListItem.id i; ListItem.list_id := ListItem.list_id i; ListItem.rank := rank;
     ListItem.values := ListItem.values i; ListItem.comment_count := ListItem.comment_count i;
     ListItem.created_by := ListItem.created_by i; ListItem.created_at := ListItem.created_at i;
     ListItem.updated_at := now |}.
Definition set_comment_count (n : Z) i : ListItem.t :=
  {| ListItem.id := ListItem.id i; ListItem.list_id := ListItem.list_id i; ListItem.rank := ListItem.rank i;
     ListItem.values := ListItem.values i; ListItem.comment_count := n;
     ListItem.created_by := ListItem.created_by i; ListItem.created_at := ListItem.created_at i;
     ListItem.updated_at := ListItem.updated_at i |}.
End Item.

(** [ORDER BY rank, id] under the [C] collation. *)
Definition item_le (i j : ListItem.t) : Prop :=
  bytes_lt (ListItem.rank i) (ListItem.rank j) \/
  (ListItem.rank i = ListItem.rank j /\ (ListItem.id i <= ListItem.id j)%N).
#[export] Instance item_le_dec i j : Decision (item_le i j).
Proof. unfold item_le. apply _. Defined.

(** [jsonb]: [a || b], [a - keys], [jsonb_set(a, ARRAY[key], v)] of objects. *)
Definition jsonb_concat (a b : json) : json :=
  match a, b with
  | JObject m, JObject n => JObject (foldl (fun m p => assoc_insert p.1 p.2 m) m n)
  | _, _ => a
  end.
Definition jsonb_remove (key : str) (a : json) : json :=
  match a with JObject m => JObject (assoc_remove key m) | _ => a end.
Definition jsonb_remove_all (keys : list str) (a : json) : json := foldl (fun a k => jsonb_remove k a) a keys.
Definition jsonb_set (key : str) (v a : json) : json := obj_insert key v a.

(** ** Statements *)

Section statements.
Context `{UuidText} (now : Z).
Implicit Types (t : ListTables) (l id list_id : Uuid).

Definition live {A} (r : A * option Z) : option A := match r.2 with None => Some r.1 | Some _ => None end.

(** [find], [lock_in]; [share_lock_in] *)
Definition find_list id t : option List.t := lists t !! id ≫= live.

Definition insert_list (x : List.t) : ListTables -> ListTables := set_lists (<[List.id x := (x, None)]>).
Definition update_list_row id (title description : str) : ListTables -> ListTables :=
  set_lists (alter (fun r => (List.retitle title description now r.1, r.2)) id).
Definition soft_delete_list id : ListTables -> ListTables :=
  set_lists (alter (fun r => (List.retitle (List.title r.1) (List.description r.1) now r.1, Some now)) id).

(** *** Columns *)

Definition columns_of list_id t : list ListColumn.t :=
  merge_sort Column.le (filter (fun c => ListColumn.list_id c = list_id) (map_to_list (list_columns t)).*2).

(** The list of a row, while the list is there. *)
Definition in_live_list t (o : option Uuid) : option Uuid :=
  l ← o; match find_list l t with Some _ => Some l | None => None end.
Definition column_list id t : option Uuid := in_live_list t (ListColumn.list_id <$> list_columns t !! id).

(** [COALESCE(MAX(position) + 1, 0)] *)
Definition next_position (positions : list Z) : Z :=
  match positions with [] => 0 | p :: ps => foldr Z.max p ps + 1 end.

Definition new_column list_id (id : Uuid) (name : str) (kind : ColumnKind) (options : ColumnOptions) t : ListColumn.t :=
  {| ListColumn.id := id; ListColumn.list_id := list_id;
     ListColumn.position := next_position (ListColumn.position <$> columns_of list_id t);
     ListColumn.name := name; ListColumn.kind := kind; ListColumn.options := options;
     ListColumn.hidden := false; ListColumn.due := false |}.
Definition insert_column (c : ListColumn.t) : ListTables -> ListTables := set_list_columns (<[ListColumn.id c := c]>).

Definition update_column_row id (name : str) (kind : ColumnKind) (options : ColumnOptions) (hidden due : bool)
    (c : ListColumn.t) : ListColumn.t :=
  {| ListColumn.id := ListColumn.id c; ListColumn.list_id := ListColumn.list_id c;
     ListColumn.position := ListColumn.position c; ListColumn.name := name; ListColumn.kind := kind;
     ListColumn.options := options; ListColumn.hidden := hidden; ListColumn.due := due |}.

(** The due column of a list is the last one made so. *)
Definition clear_due id t : ListTables :=
  match list_columns t !! id with
  | Some c =>
      set_list_columns (fmap (fun d =>
        if bool_decide (ListColumn.list_id d = ListColumn.list_id c) && negb (bool_decide (ListColumn.id d = id))
        then Column.set_due false d else d)) t
  | None => t
  end.
Definition update_column_in id (name : str) (kind : ColumnKind) (options : ColumnOptions) (hidden due : bool) t
    : ListTables :=
  set_list_columns (alter (update_column_row id name kind options hidden due) id) (if due then clear_due id t else t).

(** An update of the live and deleted items of a list. *)
Definition update_items list_id (f : ListItem.t -> ListItem.t) : ListTables -> ListTables :=
  set_list_items (fmap (fun r => if bool_decide (ListItem.list_id r.1 = list_id) then (f r.1, r.2) else r)).

Definition delete_column_in list_id id t : ListTables :=
  update_items list_id (fun i => Item.set_values (jsonb_remove (uuid_to_string id) (ListItem.values i)) (ListItem.updated_at i) i)
    (set_list_columns (delete id) t).

(** [unnest(ids) WITH ORDINALITY]: the place of an id. *)
Definition place (ids : list Uuid) (id : Uuid) : option Z := Z.of_nat <$> position (fun x => bool_decide (x = id)) ids.
Definition reorder_columns_in list_id (ids : list Uuid) : ListTables -> ListTables :=
  set_list_columns (fmap (fun c =>
    match place ids (ListColumn.id c) with
    | Some p => if bool_decide (ListColumn.list_id c = list_id) then Column.set_position p c else c
    | None => c
    end)).

(** *** Views *)

Definition views_of list_id t : list ListView.t :=
  merge_sort View.le (filter (fun v => ListView.list_id v = list_id) (map_to_list (list_views t)).*2).
Definition view_list id t : option Uuid := in_live_list t (ListView.list_id <$> list_views t !! id).
Definition new_view list_id (id : Uuid) (name : str) (kind : ViewKind) (config : ViewConfig.t) (by_ : Uuid) t : ListView.t :=
  {| ListView.id := id; ListView.list_id := list_id;
     ListView.position := next_position (ListView.position <$> views_of list_id t);
     ListView.name := name; ListView.kind := kind; ListView.config := config; ListView.created_by := by_;
     ListView.created_at := now; ListView.updated_at := now |}.
Definition insert_view (v : ListView.t) : ListTables -> ListTables := set_list_views (<[ListView.id v := v]>).
Definition update_view_in id (name : str) (kind : ViewKind) (config : ViewConfig.t) : ListTables -> ListTables :=
  set_list_views (alter (View.set name kind config now) id).
Definition delete_view_in id : ListTables -> ListTables := set_list_views (delete id).
Definition reorder_views_in list_id (ids : list Uuid) : ListTables -> ListTables :=
  set_list_views (fmap (fun v =>
    match place ids (ListView.id v) with
    | Some p => if bool_decide (ListView.list_id v = list_id) then View.set_position p v else v
    | None => v
    end)).

(** *** Items *)

Definition live_items list_id t : list ListItem.t :=
  filter (fun i => ListItem.list_id i = list_id) (omap live (map_to_list (list_items t)).*2).
Definition items_of list_id t : list ListItem.t := merge_sort item_le (live_items list_id t).
Definition find_item id t : option ListItem.t := list_items t !! id ≫= live.
Definition item_list id t : option Uuid := in_live_list t (ListItem.list_id <$> find_item id t).
Definition item_count_in list_id t : Z := Z.of_nat (length (live_items list_id t)).

(** [low IS NULL OR rank > low] *)
Definition beyond (low : option str) (i : ListItem.t) : Prop :=
  match low with None => True | Some low => bytes_lt low (ListItem.rank i) end.
#[global] Instance beyond_dec low i : Decision (beyond low i).
Proof. unfold beyond. destruct low; apply _. Defined.

(** The ranks of the item to follow and of the next one; [None] when the item
    to follow is not in the list. *)
Definition neighbours_in list_id (after moving : option Uuid) t : option (option str * option str) :=
  low ← match after with
        | Some a => i ← find_item a t; if bool_decide (ListItem.list_id i = list_id) then Some (Some (ListItem.rank i)) else None
        | None => Some None
        end;
  let high := head (filter (fun i => beyond low i /\ Some (ListItem.id i) <> moving /\ Some (ListItem.id i) <> after)
                      (items_of list_id t)) in
  Some (low, ListItem.rank <$> high).

Definition last_rank_in list_id t : option str := ListItem.rank <$> last (items_of list_id t).

Definition new_item list_id (id : Uuid) (rank : str) (values : json) (by_ : Uuid) : ListItem.t :=
  {| ListItem.id := id; ListItem.list_id := list_id; ListItem.rank := rank; ListItem.values := values;
     ListItem.comment_count := 0; ListItem.created_by := by_; ListItem.created_at := now; ListItem.updated_at := now |}.
Definition insert_item (i : ListItem.t) : ListTables -> ListTables := set_list_items (<[ListItem.id i := (i, None)]>).

(** An update of one row: [f] of an item that is there, deleted or not. *)
Definition update_item_row id (f : ListItem.t -> ListItem.t) : ListTables -> ListTables :=
  set_list_items (alter (fun r => (f r.1, r.2)) id).

Definition merge_item (set_ : json) (clear : list str) (i : ListItem.t) : ListItem.t :=
  Item.set_values (jsonb_remove_all clear (jsonb_concat (ListItem.values i) set_)) now i.
Definition delete_item_row id : ListTables -> ListTables :=
  set_list_items (alter (fun r => (Item.set_values (ListItem.values r.1) now r.1, Some now)) id).
Definition count_comments (delta : Z) (i : ListItem.t) : ListItem.t :=
  Item.set_comment_count (Z.max (ListItem.comment_count i + delta) 0) i.

Definition cells_in list_id (column_id : Uuid) t : list (Uuid * json) :=
  omap (fun i => (fun v => (ListItem.id i, v)) <$> get (uuid_to_string column_id) (ListItem.values i)) (live_items list_id t).

(** The new value of an item's cell, when the rewriting names the item. *)
Definition rewrite_cell (column_id : Uuid) (cells : list (str * json)) (i : ListItem.t) : ListItem.t :=
  match find (fun p => bool_decide (uuid_parse p.1 = Some (ListItem.id i))) cells with
  | Some (_, JNull) =>
      Item.set_values (jsonb_remove (uuid_to_string column_id) (ListItem.values i)) (ListItem.updated_at i) i
  | Some (_, v) =>
      Item.set_values (jsonb_set (uuid_to_string column_id) v (ListItem.values i)) (ListItem.updated_at i) i
  | None => i
  end.
Definition rewrite_cells_in list_id (column_id : Uuid) (cells : list (str * json)) : ListTables -> ListTables :=
  update_items list_id (rewrite_cell column_id cells).

(** *** Comments *)

Definition comments_of (item_id : Uuid) t : list ListComment.t :=
  merge_sort ListComment.le (filter (fun c => ListComment.item_id c = item_id) (map_to_list (list_item_comments t)).*2).
Definition find_comment id t : option ListComment.t := list_item_comments t !! id.
Definition insert_comment (c : ListComment.t) : ListTables -> ListTables :=
  set_list_item_comments (<[ListComment.id c := c]>).
Definition edit_comment_row id (content : str) : ListTables -> ListTables :=
  set_list_item_comments (alter (fun c =>
    {| ListComment.id := ListComment.id c; ListComment.item_id := ListComment.item_id c;
       ListComment.list_id := ListComment.list_id c; ListComment.user_id := ListComment.user_id c;
       ListComment.content := content; ListComment.created_at := ListComment.created_at c;
       ListComment.edited_at := Some now |}) id).
Definition delete_comment_row id : ListTables -> ListTables := set_list_item_comments (delete id).
End statements.
