(* ===== verification/LaterStore.v ===== *)
(** * What a person keeps for later
    ([backend/api/src/later/{models,repo}.rs])

    The rows of [later_items] (a saved message, a reminder, or the due date of
    an item of a list) and the statements of the repository that touch no other
    table. *)

From stdpp Require Import base tactics option numbers list gmap sorting.
From Stdlib Require Import ZArith Lia String Ascii.
From S2P Require Import Prelude RustStr Json Errors.

Inductive LaterStatus := InProgress | Completed | Archived.
#[export] Instance LaterStatus_eq_dec : EqDecision LaterStatus.
Proof. solve_decision. Defined.

Definition status_str (s : LaterStatus) : str :=
  match s with InProgress => $"in_progress" | Completed => $"completed" | Archived => $"archived" end.
Definition status_parse (value : str) : LaterStatus :=
  if str_eqb value ($"completed") then Completed else if str_eqb value ($"archived") then Archived else InProgress.

Module LaterRow.
Record t := {
  id : Uuid; workspace_id : Uuid; user_id : Uuid; created_by : Uuid; message_id : option Uuid; channel_id : option Uuid;
  list_item_id : option Uuid; text : option str; note : option str; status : str; remind_at : option Z;
  reminded_at : option Z; completed_at : option Z; created_at : Z; updated_at : Z;
}.
End LaterRow.

Abbreviation LaterTable := (gmap Uuid LaterRow.t).

Module NewReminder.
Record t := {
  workspace_id : Uuid; user_id : Uuid; created_by : Uuid; channel_id : option Uuid; text : str; remind_at : Z;
}.
End NewReminder.

Module LaterChange.
Record t := {
  status : option str; set_reminder : bool; remind_at : option Z; set_note : bool; note : option str;
}.
End LaterChange.

Section statements.
Context (now : Z).
Implicit Types (r : LaterRow.t) (m : LaterTable).

(** The defaults of a new row. *)
Definition new_row (id ws u by_ : Uuid) (message channel item : option Uuid) (text : option str) (remind_at : option Z) : LaterRow.t :=
  {| LaterRow.id := id; LaterRow.workspace_id := ws; LaterRow.user_id := u; LaterRow.created_by := by_;
     LaterRow.message_id := message; LaterRow.channel_id := channel; LaterRow.list_item_id := item; LaterRow.text := text;
     LaterRow.note := None; LaterRow.status := $"in_progress"; LaterRow.remind_at := remind_at; LaterRow.reminded_at := None;
     LaterRow.completed_at := None; LaterRow.created_at := now; LaterRow.updated_at := now |}.

(** [DO UPDATE] of [save_message]. *)
Definition save_again (remind_at : option Z) r : LaterRow.t :=
  {| LaterRow.id := LaterRow.id r; LaterRow.workspace_id := LaterRow.workspace_id r; LaterRow.user_id := LaterRow.user_id r;
     LaterRow.created_by := LaterRow.created_by r; LaterRow.message_id := LaterRow.message_id r;
     LaterRow.channel_id := LaterRow.channel_id r; LaterRow.list_item_id := LaterRow.list_item_id r;
     LaterRow.text := LaterRow.text r; LaterRow.note := LaterRow.note r; LaterRow.status := $"in_progress";
     LaterRow.remind_at := match remind_at with Some at_ => Some at_ | None => LaterRow.remind_at r end;
     LaterRow.reminded_at := match remind_at with Some _ => None | None => LaterRow.reminded_at r end;
     LaterRow.completed_at := None; LaterRow.created_at := LaterRow.created_at r; LaterRow.updated_at := now |}.

(** The row the unique index on (user, message) finds. *)
Definition saved_as (u message : Uuid) m : option LaterRow.t :=
  head (filter (fun r => LaterRow.user_id r = u /\ LaterRow.message_id r = Some message) (map_to_list m).*2).

Definition update_later_row (c : LaterChange.t) r : LaterRow.t :=
  {| LaterRow.id := LaterRow.id r; LaterRow.workspace_id := LaterRow.workspace_id r; LaterRow.user_id := LaterRow.user_id r;
     LaterRow.created_by := LaterRow.created_by r; LaterRow.message_id := LaterRow.message_id r;
     LaterRow.channel_id := LaterRow.channel_id r; LaterRow.list_item_id := LaterRow.list_item_id r;
     LaterRow.text := LaterRow.text r;
     LaterRow.note := if LaterChange.set_note c then LaterChange.note c else LaterRow.note r;
     LaterRow.status := default (LaterRow.status r) (LaterChange.status c);
     LaterRow.remind_at := if LaterChange.set_reminder c then LaterChange.remind_at c else LaterRow.remind_at r;
     LaterRow.reminded_at := if LaterChange.set_reminder c then None else LaterRow.reminded_at r;
     LaterRow.completed_at := match LaterChange.status c with
                              | Some s => if str_eqb s ($"completed") then Some now else None
                              | None => LaterRow.completed_at r end;
     LaterRow.created_at := LaterRow.created_at r; LaterRow.updated_at := now |}.

Definition set_reminded (at_ : option Z) r : LaterRow.t :=
  {| LaterRow.id := LaterRow.id r; LaterRow.workspace_id := LaterRow.workspace_id r; LaterRow.user_id := LaterRow.user_id r;
     LaterRow.created_by := LaterRow.created_by r; LaterRow.message_id := LaterRow.message_id r;
     LaterRow.channel_id := LaterRow.channel_id r; LaterRow.list_item_id := LaterRow.list_item_id r;
     LaterRow.text := LaterRow.text r; LaterRow.note := LaterRow.note r; LaterRow.status := LaterRow.status r;
     LaterRow.remind_at := LaterRow.remind_at r; LaterRow.reminded_at := at_; LaterRow.completed_at := LaterRow.completed_at r;
     LaterRow.created_at := LaterRow.created_at r; LaterRow.updated_at := LaterRow.updated_at r |}.

(** *** [claim_due] *)

Definition waiting r : bool :=
  match LaterRow.remind_at r with Some at_ => at_ <=? now | None => false end
  && bool_decide (LaterRow.reminded_at r = None) && str_eqb (LaterRow.status r) ($"in_progress").

(** [ORDER BY remind_at] *)
Definition earlier r s : Prop := default 0 (LaterRow.remind_at r) <= default 0 (LaterRow.remind_at s).
#[global] Instance earlier_dec r s : Decision (earlier r s).
Proof. unfold earlier. apply _. Defined.

Definition CLAIM_LIMIT : nat := 100.
(** The rows others do not hold locked, the earliest first, and no more than the limit. *)
Definition to_claim (locked : gset Uuid) m : Datatypes.list LaterRow.t :=
  take CLAIM_LIMIT (merge_sort earlier (filter (fun r => waiting r = true /\ LaterRow.id r ∉ locked) (map_to_list m).*2)).
Definition claim_due (locked : gset Uuid) m : LaterTable * Datatypes.list LaterRow.t :=
  let claimed := to_claim locked m in
  (foldr (fun r => alter (set_reminded (Some now)) (LaterRow.id r)) m claimed, set_reminded (Some now) <$> claimed).
Definition release (id : Uuid) : LaterTable -> LaterTable := alter (set_reminded None) id.
End statements.
#[global] Arguments CLAIM_LIMIT : simpl never.

Lemma status_parse_str s : status_parse (status_str s) = s.
Proof. by destruct s. Qed.
