(* ===== verification/MessageStore.v ===== *)
(** * The tables of messages
    ([backend/api/src/{messaging,threads,files,groups,emoji}/repo.rs])

    Messages with their earlier versions, their reactions, the threads people
    follow and the files attached, and the statements of the repositories over
    them.  A message that was deleted stays, with the time of its deletion.
    Times are microseconds. *)

From stdpp Require Import base tactics option numbers list gmap sorting.
From Stdlib Require Import ZArith Lia String Ascii.
From S2P Require Import Prelude RustStr Json Errors ListStore.

Module Message.
Record t := {
  id : Uuid; channel_id : Uuid; user_id : Uuid; client_message_id : option Uuid; content : str; metadata : json;
  thread_parent_id : option Uuid; reply_count : Z; is_pinned : bool; created_at : Z; updated_at : Z; deleted_at : option Z;
}.
Implicit Types m : t.
Definition set_content (content_ : str) (now : Z) m : t :=
  {| id := id m; channel_id := channel_id m; user_id := user_id m; client_message_id := client_message_id m;
     content := content_; metadata := metadata m; thread_parent_id := thread_parent_id m; reply_count := reply_count m;
     is_pinned := is_pinned m; created_at := created_at m; updated_at := now; deleted_at := deleted_at m |}.
Definition set_metadata (f : json -> json) m : t :=
  {| id := id m; channel_id := channel_id m; user_id := user_id m; client_message_id := client_message_id m;
     content := content m; metadata := f (metadata m); thread_parent_id := thread_parent_id m; reply_count := reply_count m;
     is_pinned := is_pinned m; created_at := created_at m; updated_at := updated_at m; deleted_at := deleted_at m |}.
Definition set_reply_count (f : Z -> Z) m : t :=
  {| id := id m; channel_id := channel_id m; user_id := user_id m; client_message_id := client_message_id m;
     content := content m; metadata := metadata m; thread_parent_id := thread_parent_id m; reply_count := f (reply_count m);
     is_pinned := is_pinned m; created_at := created_at m; updated_at := updated_at m; deleted_at := deleted_at m |}.
Definition set_pinned (pinned : bool) m : t :=
  {| id := id m; channel_id := channel_id m; user_id := user_id m; client_message_id := client_message_id m;
     content := content m; metadata := metadata m; thread_parent_id := thread_parent_id m; reply_count := reply_count m;
     is_pinned := pinned; created_at := created_at m; updated_at := updated_at m; deleted_at := deleted_at m |}.
Definition set_deleted (now : Z) m : t :=
  {| id := id m; channel_id := channel_id m; user_id := user_id m; client_message_id := client_message_id m;
     content := content m; metadata := metadata m; thread_parent_id := thread_parent_id m; reply_count := reply_count m;
     is_pinned := is_pinned m; created_at := created_at m; updated_at := updated_at m; deleted_at := Some now |}.
(** [CASE WHEN deleted_at IS NULL THEN .. ELSE '' END] *)
Definition redacted m : t :=
  match deleted_at m with
  | None => m
  | Some at_ =>
      {| id := id m; channel_id := channel_id m; user_id := user_id m; client_message_id := client_message_id m;
         content := []; metadata := JObject []; thread_parent_id := thread_parent_id m; reply_count := reply_count m;
         is_pinned := is_pinned m; created_at := created_at m; updated_at := updated_at m; deleted_at := Some at_ |}
  end.
End Message.

Module MessageEdit.
Record t := { id : Uuid; message_id : Uuid; previous_content : str; edited_by : Uuid; edited_at : Z }.
End MessageEdit.

Module Reaction.
Record t := { id : Uuid; message_id : Uuid; user_id : Uuid; emoji : str; created_at : Z }.
End Reaction.

(** A row of [thread_follows], whose key is the person and the root. *)
Module ThreadFollow.
Record t := { workspace_id : Uuid; following : bool; last_read_at : Z }.
End ThreadFollow.

Module FileRecord.
Record t := {
  id : Uuid; message_id : option Uuid; user_id : Uuid; workspace_id : Uuid; filename : str; storage_key : str;
  mime_type : str; size_bytes : Z; thumbnail_key : option str; width : option Z; height : option Z; created_at : Z;
  draft_until : option Z;
}.
End FileRecord.

Module Notification.
Record t := {
  user_id : Uuid; workspace_id : Uuid; notification_type : str; title : str; body : option str; data : json; is_read : bool;
  created_at : Z;
}.
Definition set_read (n : t) : t :=
  {| user_id := user_id n; workspace_id := workspace_id n; notification_type := notification_type n; title := title n; body := body n;
     data := data n; is_read := true; created_at := created_at n |}.
End Notification.

Record MessageTables := {
  messages : gmap Uuid Message.t;
  message_edits : gmap Uuid MessageEdit.t;
  reactions : gmap Uuid Reaction.t;
  thread_follows : gmap (Uuid * Uuid) ThreadFollow.t;
  files : gmap Uuid FileRecord.t;
  notifications : gmap Uuid Notification.t;
  user_groups : gmap Uuid Uuid;
  user_group_members : gset (Uuid * Uuid);
  workspace_emojis : gset (Uuid * str);
  objects : gset str;                 (** the keys of the object store *)
}.
Definition no_messages : MessageTables :=
  {| messages := ∅; message_edits := ∅; reactions := ∅; thread_follows := ∅; files := ∅; notifications := ∅;
     user_groups := ∅; user_group_members := ∅; workspace_emojis := ∅; objects := ∅ |}.

Definition set_messages f (t : MessageTables) : MessageTables :=
  let '(Build_MessageTables m e r w fi n g gm em ob) := t in Build_MessageTables (f m) e r w fi n g gm em ob.
Definition set_message_edits f (t : MessageTables) : MessageTables :=
  let '(Build_MessageTables m e r w fi n g gm em ob) := t in Build_MessageTables m (f e) r w fi n g gm em ob.
Definition set_reactions f (t : MessageTables) : MessageTables :=
  let '(Build_MessageTables m e r w fi n g gm em ob) := t in Build_MessageTables m e (f r) w fi n g gm em ob.
Definition set_thread_follows f (t : MessageTables) : MessageTables :=
  let '(Build_MessageTables m e r w fi n g gm em ob) := t in Build_MessageTables m e r (f w) fi n g gm em ob.
Definition set_files f (t : MessageTables) : MessageTables :=
  let '(Build_MessageTables m e r w fi n g gm em ob) := t in Build_MessageTables m e r w (f fi) n g gm em ob.
Definition set_notifications f (t : MessageTables) : MessageTables :=
  let '(Build_MessageTables m e r w fi n g gm em ob) := t in Build_MessageTables m e r w fi (f n) g gm em ob.

Definition set_objects f (t : MessageTables) : MessageTables :=
  let '(Build_MessageTables m e r w fi n g gm em ob) := t in Build_MessageTables m e r w fi n g gm em (f ob).

(** ** JSON operators *)

(** [v ->> key = s], where [s] is [true] or the text of an identifier, which no
    number, array or object has for its text. *)
Definition text_at (key : str) (v : json) : option str :=
  match get key v with
  | Some (JString s) => Some s
  | Some (JBool b) => Some (if b then $"true" else $"false")
  | _ => None
  end.
Definition text_is (key s : str) (v : json) : bool :=
  match text_at key v with Some t => str_eqb t s | None => false end.
(** [v ->> key IS NULL] *)
Definition absent (key : str) (v : json) : bool :=
  match get key v with None | Some JNull => true | Some _ => false end.
(** [v @> '{key: true}'] *)
Definition flagged (key : str) (v : json) : bool := match get key v with Some (JBool b) => b | _ => false end.

Definition ALSO_IN_CHANNEL : str := $"also_in_channel".

(** ** Messages *)

Section queries.
Implicit Types (t : MessageTables) (m n : Message.t).

(** [(created_at, id) < (created_at, id)] *)
Definition precedes m n : Prop :=
  Message.created_at m < Message.created_at n \/
  (Message.created_at m = Message.created_at n /\ (Message.id m < Message.id n)%N).
#[global] Instance precedes_dec m n : Decision (precedes m n).
Proof. unfold precedes. apply _. Defined.
(** [ORDER BY created_at DESC, id DESC] *)
Definition newest_first m n : Prop := precedes n m \/ (Message.created_at m = Message.created_at n /\ Message.id m = Message.id n).
#[global] Instance newest_first_dec m n : Decision (newest_first m n).
Proof. unfold newest_first. apply _. Defined.

Definition is_live m : bool := bool_decide (Message.deleted_at m = None).
(** [thread_parent_id IS NULL OR metadata->>'also_in_channel' = 'true'] *)
Definition in_feed m : bool :=
  bool_decide (Message.thread_parent_id m = None) || text_is ALSO_IN_CHANNEL ($"true") (Message.metadata m).

Definition all_messages t : list Message.t := (map_to_list (messages t)).*2.

Definition find_message (id : Uuid) t : option Message.t :=
  m ← messages t !! id; if is_live m then Some m else None.
(** A thread stays as long as it has replies. *)
Definition find_root (id : Uuid) t : option Message.t :=
  m ← messages t !! id; if is_live m || (0 <? Message.reply_count m) then Some (Message.redacted m) else None.
Definition find_by_client_id (channel client : Uuid) t : option Message.t :=
  head (filter (fun m => Message.channel_id m = channel /\ Message.client_message_id m = Some client) (all_messages t)).

(** What is unread for a person who read up to some time. *)
Definition unread_by (channel u : Uuid) (last_read : option Z) m : bool :=
  bool_decide (Message.channel_id m = channel) && is_live m && in_feed m && negb (bool_decide (Message.user_id m = u)) &&
  match last_read with None => true | Some at_ => at_ <? Message.created_at m end.
Definition count_if (p : Message.t -> bool) t : Z := Z.of_nat (length (filter p (all_messages t))).
Definition unread_truth (channel u : Uuid) (last_read : option Z) t : Z := count_if (unread_by channel u last_read) t.

(** The newest of the messages a reader of the channel sees that are in [p]. *)
Definition newest (channel : Uuid) (p : Message.t -> bool) t : option Uuid :=
  Message.id <$> head (merge_sort newest_first
    (filter (fun m => (bool_decide (Message.channel_id m = channel) && is_live m && in_feed m && p m : bool) = true) (all_messages t))).

(** The pages of a channel and of a thread. *)
Definition listed (channel : Uuid) m : bool :=
  bool_decide (Message.channel_id m = channel) && (is_live m || (0 <? Message.reply_count m)) &&
  (bool_decide (Message.thread_parent_id m = None) || (is_live m && flagged ALSO_IN_CHANNEL (Message.metadata m))).
(** A cursor that names no message compares to nothing. *)
Definition before_cursor (cursor : option Uuid) t m : bool :=
  match cursor with
  | None => true
  | Some c => match messages t !! c with Some n => bool_decide (precedes m n) | None => false end
  end.
Definition page (limit : Z) (l : list Message.t) : list Message.t := take (Z.to_nat limit) (merge_sort newest_first l).
Definition list_channel_messages (channel : Uuid) (limit : Z) (cursor : option Uuid) t : list Message.t :=
  Message.redacted <$> page limit (filter (fun m => (listed channel m && before_cursor cursor t m : bool) = true) (all_messages t)).
Definition list_thread_messages (parent : Uuid) (limit : Z) (cursor : option Uuid) t : list Message.t :=
  page limit (filter (fun m => (bool_decide (Message.thread_parent_id m = Some parent) && is_live m && before_cursor cursor t m : bool) = true)
                (all_messages t)).
(** The live messages of a channel that are pinned; [updated_at] gives their
    order, which is not total. *)
Definition pinned_in (channel : Uuid) t : list Message.t :=
  filter (fun m => Message.channel_id m = channel /\ Message.is_pinned m = true /\ Message.deleted_at m = None) (all_messages t).
End queries.

(** ** Statements *)

Section statements.
Context `{UuidText} (now : Z).
Implicit Types (t : MessageTables) (m : Message.t).

(** The unique index on (channel, client id). *)
Definition client_id_taken (channel : Uuid) (client : option Uuid) t : bool :=
  match client with Some c => bool_decide (is_Some (find_by_client_id channel c t)) | None => false end.

Definition put_message m : MessageTables -> MessageTables := set_messages (<[Message.id m := m]>).
Definition alter_message (f : Message.t -> Message.t) (id : Uuid) : MessageTables -> MessageTables := set_messages (alter f id).
Definition one_more_reply (parent : Uuid) : MessageTables -> MessageTables := alter_message (Message.set_reply_count (Z.add 1)) parent.

(** [GREATEST(reply_count - 1, 0)] of the parent of a message that was live;
    the parent as it is then. *)
Definition one_reply_less (m : Message.t) : Message.t := Message.set_reply_count (fun n => Z.max (n - 1) 0) m.
Definition soft_delete (id : Uuid) t : MessageTables * option Message.t :=
  match find_message id t with
  | None => (t, None)
  | Some m =>
      let t := alter_message (Message.set_deleted now) id t in
      match Message.thread_parent_id m with
      | None => (t, None)
      | Some p => let t := alter_message one_reply_less p t in (t, Message.redacted <$> messages t !! p)
      end
  end.

(** *** Earlier versions *)

Definition MAX_STORED_EDITS : nat := 50.
Definition edit_le (a b : MessageEdit.t) : Prop :=
  MessageEdit.edited_at b < MessageEdit.edited_at a \/
  (MessageEdit.edited_at a = MessageEdit.edited_at b /\ (MessageEdit.id b <= MessageEdit.id a)%N).
#[global] Instance edit_le_dec a b : Decision (edit_le a b).
Proof. unfold edit_le. apply _. Defined.

(** [ORDER BY edited_at DESC, id DESC] *)
Definition list_edits (message : Uuid) t : list MessageEdit.t :=
  merge_sort edit_le (filter (fun e => MessageEdit.message_id e = message) (map_to_list (message_edits t)).*2).
Definition keep_edit (id editor : Uuid) m : MessageEdit.t :=
  {| MessageEdit.id := id; MessageEdit.message_id := Message.id m; MessageEdit.previous_content := Message.content m;
     MessageEdit.edited_by := editor; MessageEdit.edited_at := now |}.
Definition prune_edits (message : Uuid) t : MessageTables :=
  let kept := MessageEdit.id <$> take MAX_STORED_EDITS (list_edits message t) in
  set_message_edits (filter (fun p => MessageEdit.message_id p.2 = message -> p.1 ∈ kept)) t.

(** *** Reactions *)

(** [ORDER BY created_at] *)
Definition older_reaction (a b : Reaction.t) : Prop := Reaction.created_at a <= Reaction.created_at b.
#[global] Instance older_reaction_dec a b : Decision (older_reaction a b).
Proof. unfold older_reaction. apply _. Defined.
Definition reactions_to (message : Uuid) t : list Reaction.t :=
  merge_sort older_reaction (filter (fun r => Reaction.message_id r = message) (map_to_list (reactions t)).*2).
Definition reacted (message u : Uuid) (emoji : str) (r : Reaction.t) : bool :=
  bool_decide (Reaction.message_id r = message) && bool_decide (Reaction.user_id r = u) && str_eqb (Reaction.emoji r) emoji.
Definition unreact (message u : Uuid) (emoji : str) : MessageTables -> MessageTables :=
  set_reactions (filter (fun p => reacted message u emoji p.2 = false)).

(** *** Threads people follow *)

Definition follow_row (ws : Uuid) (at_ : Z) : ThreadFollow.t :=
  {| ThreadFollow.workspace_id := ws; ThreadFollow.following := true; ThreadFollow.last_read_at := at_ |}.
(** [ON CONFLICT DO UPDATE SET following = TRUE], with the later of the two
    times when [read] is given. *)
Definition follow_again (read : option Z) (f : ThreadFollow.t) : ThreadFollow.t :=
  {| ThreadFollow.workspace_id := ThreadFollow.workspace_id f; ThreadFollow.following := true;
     ThreadFollow.last_read_at := match read with Some at_ => Z.max (ThreadFollow.last_read_at f) at_
                                                | None => ThreadFollow.last_read_at f end |}.
Definition unread_replies (root u : Uuid) (last_read : Z) t : Z :=
  count_if (fun m => bool_decide (Message.thread_parent_id m = Some root) && is_live m &&
                     negb (bool_decide (Message.user_id m = u)) && (last_read <? Message.created_at m)) t.

(** *** Files *)

Definition attach_file (message : Uuid) (f : FileRecord.t) : FileRecord.t :=
  {| FileRecord.id := FileRecord.id f; FileRecord.message_id := Some message; FileRecord.user_id := FileRecord.user_id f;
     FileRecord.workspace_id := FileRecord.workspace_id f; FileRecord.filename := FileRecord.filename f;
     FileRecord.storage_key := FileRecord.storage_key f; FileRecord.mime_type := FileRecord.mime_type f;
     FileRecord.size_bytes := FileRecord.size_bytes f; FileRecord.thumbnail_key := FileRecord.thumbnail_key f;
     FileRecord.width := FileRecord.width f; FileRecord.height := FileRecord.height f;
     FileRecord.created_at := FileRecord.created_at f; FileRecord.draft_until := None |}.
(** A draft of the person in the workspace. *)
Definition is_draft (ws u : Uuid) (f : FileRecord.t) : bool :=
  bool_decide (FileRecord.workspace_id f = ws) && bool_decide (FileRecord.user_id f = u) &&
  bool_decide (FileRecord.message_id f = None) && bool_decide (is_Some (FileRecord.draft_until f)).
Definition drafts_of (ids : list Uuid) (ws u : Uuid) t : gmap Uuid FileRecord.t :=
  filter (fun p => p.1 ∈ ids /\ is_draft ws u p.2 = true) (files t).
(** [UPDATE .. RETURNING], in no order. *)
Definition claim_drafts (ids : list Uuid) (message ws u : Uuid) t : MessageTables * list FileRecord.t :=
  let claimed := attach_file message <$> drafts_of ids ws u t in
  (set_files (fun f => claimed ∪ f) t, (map_to_list claimed).*2).
(** [ORDER BY created_at, id] *)
Definition file_le (a b : FileRecord.t) : Prop :=
  FileRecord.created_at a < FileRecord.created_at b \/
  (FileRecord.created_at a = FileRecord.created_at b /\ (FileRecord.id a <= FileRecord.id b)%N).
#[global] Instance file_le_dec a b : Decision (file_le a b).
Proof. unfold file_le. apply _. Defined.
Definition for_message (message : Uuid) t : list FileRecord.t :=
  merge_sort file_le (filter (fun f => FileRecord.message_id f = Some message) (map_to_list (files t)).*2).
Definition delete_from_message_except (message : Uuid) (keep : list Uuid) t : MessageTables * list FileRecord.t :=
  let gone p := FileRecord.message_id p.2 = Some message /\ p.1 ∉ keep in
  (set_files (filter (fun p : Uuid * FileRecord.t => ~ gone p)) t, (map_to_list (filter gone (files t))).*2).
Definition set_attachments (attachments : json) (metadata : json) : json :=
  match attachments with
  | JArray [] => jsonb_remove ($"attachments") metadata
  | _ => jsonb_concat metadata (JObject [($"attachments", attachments)])
  end.

(** *** Notifications *)

Definition in_channel_notice (data : json) : bool :=
  absent ($"thread_parent_id") data || flagged ($"in_channel") data.
Definition mark_notices (p : Notification.t -> bool) : MessageTables -> MessageTables :=
  set_notifications (fmap (fun n => if p n then Notification.set_read n else n)).
Definition mark_channel_read (u ws channel : Uuid) : MessageTables -> MessageTables :=
  mark_notices (fun n => bool_decide (Notification.user_id n = u) && bool_decide (Notification.workspace_id n = ws) &&
    text_is ($"channel_id") (uuid_to_string channel) (Notification.data n) && in_channel_notice (Notification.data n)).
Definition mark_channels_read (u ws : Uuid) : MessageTables -> MessageTables :=
  mark_notices (fun n => bool_decide (Notification.user_id n = u) && bool_decide (Notification.workspace_id n = ws) &&
    negb (absent ($"channel_id") (Notification.data n)) && in_channel_notice (Notification.data n)).
Definition mark_thread_notices (u root : Uuid) : MessageTables -> MessageTables :=
  mark_notices (fun n => bool_decide (Notification.user_id n = u) &&
    text_is ($"thread_parent_id") (uuid_to_string root) (Notification.data n)).
(** The mentions of a person among the messages of [p]: rows of the join. *)
Definition mentions_in (u : Uuid) (p : Message.t -> bool) t : Z :=
  Z.of_nat (length (filter (fun nm => (bool_decide (Notification.user_id nm.1 = u) &&
      str_eqb (Notification.notification_type nm.1) ($"mention") &&
      text_is ($"message_id") (uuid_to_string (Message.id nm.2)) (Notification.data nm.1) && p nm.2 : bool) = true)
    (n ← (map_to_list (notifications t)).*2; m ← all_messages t; mret (n, m)))).

(** *** Groups and emoji *)

(** [SELECT DISTINCT] *)
Definition member_ids_for_groups (ws : Uuid) (groups : list Uuid) t : list Uuid :=
  remove_dups (omap (fun gm : Uuid * Uuid => if bool_decide (user_groups t !! gm.1 = Some ws) && bool_decide (gm.1 ∈ groups)
                                             then Some gm.2 else None) (elements (user_group_members t))).
Definition emoji_there (ws : Uuid) (name : str) t : bool := bool_decide ((ws, name) ∈ workspace_emojis t).
End statements.
