(* ===== verification/PollStore.v ===== *)
(** * Tables of polls
    ([backend/api/src/polls/{models,repo}.rs],
    [migrations/20240305000062_polls.sql])

    A poll belongs to a message; its options have positions, its votes are keyed
    by option and person, and a poll of one answer has one vote of a person. *)

From stdpp Require Import base tactics option numbers list gmap sorting.
From Stdlib Require Import ZArith Lia String Ascii.
From S2P Require Import Prelude RustStr Json Errors ListForms ListStore.

Module Poll.
Record t := {
  id : Uuid; message_id : Uuid; question : str; multiple_choice : bool; anonymous : bool; closes_at : option Z;
  closed_at : option Z; created_by : Uuid;
}.
Definition is_closed (p : t) (now : Z) : bool :=
  bool_decide (is_Some (closed_at p)) || match closes_at p with Some at_ => at_ <=? now | None => false end.
Definition close (now : Z) (p : t) : t :=
  {| id := id p; message_id := message_id p; question := question p; multiple_choice := multiple_choice p; anonymous := anonymous p;
     closes_at := closes_at p; closed_at := Some (Z.min now (default now (closes_at p))); created_by := created_by p |}.
End Poll.

Module PollOption.
Record t := { poll_id : Uuid; position : nat; label : str }.
End PollOption.

Module PollVote.
Record t := { poll_id : Uuid; single_choice : bool; created_at : Z }.
End PollVote.

Record PollTables := {
  polls : gmap Uuid Poll.t;
  poll_options : gmap Uuid PollOption.t;
  poll_votes : gmap (Uuid * Uuid) PollVote.t;   (** by option and person *)
}.
Definition no_polls : PollTables := {| polls := ∅; poll_options := ∅; poll_votes := ∅ |}.
Definition set_polls f (t : PollTables) : PollTables := {| polls := f (polls t); poll_options := poll_options t; poll_votes := poll_votes t |}.
Definition set_poll_options f (t : PollTables) : PollTables := {| polls := polls t; poll_options := f (poll_options t); poll_votes := poll_votes t |}.
Definition set_poll_votes f (t : PollTables) : PollTables := {| polls := polls t; poll_options := poll_options t; poll_votes := f (poll_votes t) |}.

(** ** Forms *)

Definition MIN_OPTIONS : nat := 2.
Definition MAX_OPTIONS : nat := 10.
Definition QUESTION_MAX_CHARS : Z := 300.
Definition OPTION_MAX_CHARS : Z := 100.

Module CreatePollRequest.
Record t := {
  question : str; options : list str; multiple_choice : bool; anonymous : bool; closes_at : option Z; thread_parent_id : option Uuid;
}.
End CreatePollRequest.

Module PollDraft.
Record t := { question : str; options : list str; multiple_choice : bool; anonymous : bool; closes_at : option Z }.
End PollDraft.

Module PollOptionCount.
Record t := { id : Uuid; label : str; votes : Z }.
End PollOptionCount.

Module PollSummary.
Record t := {
  id : Uuid; question : str; multiple_choice : bool; anonymous : bool; closes_at : option Z; closed_at : option Z;
  created_by : Uuid; options : list PollOptionCount.t; voters : Z;
}.
End PollSummary.

(** The first option that says what one before it said. *)
Fixpoint listed_twice `{CaseFolding} (seen : list str) (options : list str) : option str :=
  match options with
  | [] => None
  | option :: options =>
      if bool_decide (to_lowercase option ∈ seen) then Some option else listed_twice (to_lowercase option :: seen) options
  end.

Definition poll_draft `{CaseFolding} (req : CreatePollRequest.t) (now : Z) : AppResult PollDraft.t :=
  let question := trim (CreatePollRequest.question req) in
  if bool_decide (question = []) then Err (Validation ($"Ask a question"))
  else if QUESTION_MAX_CHARS <? chars_count question then Err (Validation ($"A question can be at most 300 characters"))
  else
    let options := filter (fun o => o <> []) (trim <$> CreatePollRequest.options req) in
    if negb (Nat.leb MIN_OPTIONS (length options) && Nat.leb (length options) MAX_OPTIONS)
    then Err (Validation ($"A poll needs 2 to 10 options"))
    else if existsb (fun o => OPTION_MAX_CHARS <? chars_count o) options
    then Err (Validation ($"An option can be at most 100 characters"))
    else match listed_twice [] options with
         | Some option => Err (Validation ([34] ++ option ++ [34] ++ $" is listed twice"))
         | None =>
             if match CreatePollRequest.closes_at req with Some at_ => at_ <=? now | None => false end
             then Err (Validation ($"The closing time has to be in the future"))
             else Ok {| PollDraft.question := question; PollDraft.options := options;
                        PollDraft.multiple_choice := CreatePollRequest.multiple_choice req; PollDraft.anonymous := CreatePollRequest.anonymous req;
                        PollDraft.closes_at := CreatePollRequest.closes_at req |}
         end.

(** ** Queries *)

Section queries.
Implicit Types (t : PollTables) (poll u : Uuid).

(** [ORDER BY position], which is unique within a poll. *)
Definition position_le (a b : Uuid * PollOption.t) : Prop := (PollOption.position a.2 <= PollOption.position b.2)%nat.
#[global] Instance position_le_dec a b : Decision (position_le a b).
Proof. unfold position_le. apply _. Defined.
Definition options_of poll t : list (Uuid * PollOption.t) :=
  merge_sort position_le (filter (fun o => PollOption.poll_id o.2 = poll) (map_to_list (poll_options t))).
Definition option_ids poll t : list Uuid := (options_of poll t).*1.

(** The people who voted for an option. *)
Definition votes_for (option : Uuid) t : gmap (Uuid * Uuid) PollVote.t := filter (fun v => v.1.1 = option) (poll_votes t).
Definition tally_of poll t : list PollOptionCount.t :=
  (fun o => {| PollOptionCount.id := o.1; PollOptionCount.label := PollOption.label o.2;
               PollOptionCount.votes := Z.of_nat (size (votes_for o.1 t)) |}) <$> options_of poll t.
(** [COUNT(DISTINCT user_id)] *)
Definition voters_of poll t : gset Uuid :=
  list_to_set (omap (fun v => if bool_decide (PollVote.poll_id v.2 = poll) then Some v.1.2 else None) (map_to_list (poll_votes t))).
Definition voter_count poll t : Z := Z.of_nat (size (voters_of poll t)).

Definition my_vote poll u t : list Uuid :=
  filter (fun o => PollVote.poll_id <$> poll_votes t !! (o, u) = Some poll) (option_ids poll t).
(** [ORDER BY v.created_at, v.user_id] *)
Definition vote_le (a b : Uuid * Uuid * PollVote.t) : Prop :=
  PollVote.created_at a.2 < PollVote.created_at b.2 \/ (PollVote.created_at a.2 = PollVote.created_at b.2 /\ (a.1.2 <= b.1.2)%N).
#[global] Instance vote_le_dec a b : Decision (vote_le a b).
Proof. unfold vote_le. apply _. Defined.
Definition voters_by_option poll t : list (Uuid * list Uuid) :=
  (fun o => (o, (fun v => v.1.2) <$> merge_sort vote_le (map_to_list (votes_for o t)))) <$> option_ids poll t.

(** [WHERE closed_at IS NULL AND closes_at <= NOW() ORDER BY closes_at LIMIT] *)
Definition overdue (now : Z) (p : Poll.t) : bool :=
  bool_decide (Poll.closed_at p = None) && match Poll.closes_at p with Some at_ => at_ <=? now | None => false end.
Definition closes_le (a b : Poll.t) : Prop := default 0 (Poll.closes_at a) <= default 0 (Poll.closes_at b).
#[global] Instance closes_le_dec a b : Decision (closes_le a b).
Proof. unfold closes_le. apply _. Defined.
Definition due_polls (now : Z) (limit : Z) t : list Uuid :=
  Poll.id <$> take (Z.to_nat limit) (merge_sort closes_le (filter (fun p => overdue now p = true) (map_to_list (polls t)).*2)).

Definition summary_of (p : Poll.t) t : PollSummary.t :=
  {| PollSummary.id := Poll.id p; PollSummary.question := Poll.question p; PollSummary.multiple_choice := Poll.multiple_choice p;
     PollSummary.anonymous := Poll.anonymous p; PollSummary.closes_at := Poll.closes_at p; PollSummary.closed_at := Poll.closed_at p;
     PollSummary.created_by := Poll.created_by p; PollSummary.options := tally_of (Poll.id p) t; PollSummary.voters := voter_count (Poll.id p) t |}.
End queries.
