(* ===== verification/NoticeStore.v ===== *)
(** * Tables of notifications
    ([backend/api/src/notifications/{models,repo,email}.rs], [email/outbox.rs],
    [backend/api/src/push/sender.rs])

    The kinds of notification, the levels at which a person wants them, the
    unique indexes that make a redelivered event harmless, the mails that wait
    and what was handed to the gateway and to the push service. *)

From stdpp Require Import base tactics option numbers list gmap.
From Stdlib Require Import ZArith Lia String Ascii.
From S2P Require Import Prelude RustStr Json Errors MessageStore.

Module NotificationType.
Inductive t := Mention | Dm | Reply | Reaction | Call | Reminder | System | Keyword | List.
(** [rename_all = "lowercase"] *)
Definition as_str (k : t) : str :=
  match k with
  | Mention => $"mention" | Dm => $"dm" | Reply => $"reply" | Reaction => $"reaction" | Call => $"call"
  | Reminder => $"reminder" | System => $"system" | Keyword => $"keyword" | List => $"list"
  end.
#[global] Instance eq_dec : EqDecision t.
Proof. solve_decision. Defined.
End NotificationType.

Module NotifyLevel.
Inductive t := All | Mentions | Nothing.
#[global] Instance eq_dec : EqDecision t.
Proof. solve_decision. Defined.
Definition as_str (l : t) : str := match l with All => $"all" | Mentions => $"mentions" | Nothing => $"nothing" end.
Definition of_str (s : str) : option t :=
  if str_eqb s ($"all") then Some All else if str_eqb s ($"mentions") then Some Mentions
  else if str_eqb s ($"nothing") then Some Nothing else None.
End NotifyLevel.

(** A row of [pending_mention_emails]. *)
Module PendingMention.
Record t := {
  user_id : Uuid; workspace_id : Uuid; channel_id : option Uuid; message_id : option Uuid; sender_name : str; channel_name : str;
  direct : bool; created_at : Z;
}.
End PendingMention.

Module PushPayload.
Record t := {
  title : str; body : str; workspace_id : option str; channel_id : option str; message_id : option str;
  thread_parent_id : option str; badge_count : Z;
}.
Definition PREVIEW_CHARS : Z := 80.
(** [PushPayload::preview] *)
Definition preview (content : str) : str :=
  let trimmed := trim content in
  if chars_count trimmed <=? PREVIEW_CHARS then trimmed else take (Z.to_nat PREVIEW_CHARS) trimmed ++ [8230].
End PushPayload.

(** A row of [push_subscriptions], whose key here is the endpoint. *)
Module PushSubscription.
Record t := {
  id : Uuid; user_id : Uuid; p256dh : str; auth : str; user_agent : option str; created_at : Z; last_used_at : option Z;
}.
Definition set_used (at_ : Z) (s : t) : t :=
  {| id := id s; user_id := user_id s; p256dh := p256dh s; auth := auth s; user_agent := user_agent s; created_at := created_at s;
     last_used_at := Some at_ |}.
(** [ON CONFLICT (endpoint) DO UPDATE] *)
Definition rekeyed (user_id_ : Uuid) (p256dh_ auth_ : str) (user_agent_ : option str) (s : t) : t :=
  {| id := id s; user_id := user_id_; p256dh := p256dh_; auth := auth_; user_agent := user_agent_; created_at := created_at s;
     last_used_at := last_used_at s |}.
End PushSubscription.

(** A row of [outbound_emails], whose key is its identifier; no next attempt
    when it was given up. *)
Module OutboundEmail.
Record t := {
  to_address : str; subject : str; text_body : str; html_body : option str; attempts : Z; next_attempt_at : option Z;
  sent_at : option Z; last_error : option str; created_at : Z;
}.
Implicit Types e : t.
Definition set_claimed (lease : Z) e : t :=
  {| to_address := to_address e; subject := subject e; text_body := text_body e; html_body := html_body e; attempts := attempts e + 1;
     next_attempt_at := Some lease; sent_at := sent_at e; last_error := last_error e; created_at := created_at e |}.
Definition set_sent (at_ : Z) e : t :=
  {| to_address := to_address e; subject := subject e; text_body := text_body e; html_body := html_body e; attempts := attempts e;
     next_attempt_at := next_attempt_at e; sent_at := Some at_; last_error := None; created_at := created_at e |}.
Definition set_failed (next : option Z) (error : str) e : t :=
  {| to_address := to_address e; subject := subject e; text_body := text_body e; html_body := html_body e; attempts := attempts e;
     next_attempt_at := next; sent_at := sent_at e; last_error := Some error; created_at := created_at e |}.
End OutboundEmail.

(** The mails that wait and the subscriptions of browsers; what was published
    on [events:notification], what the push services were sent, by the
    endpoint, and what the mail server took. *)
Record NoticeTables := {
  pending_mention_emails : list PendingMention.t;
  push_subscriptions : gmap str PushSubscription.t;
  frames : list json;
  pushes : list (str * PushPayload.t);
  outbound_emails : gmap Uuid OutboundEmail.t;
  mailed : list (str * str);          (** the address and the subject *)
}.
Definition no_notices : NoticeTables :=
  {| pending_mention_emails := []; push_subscriptions := ∅; frames := []; pushes := []; outbound_emails := ∅; mailed := [] |}.
Definition set_pending f (t : NoticeTables) : NoticeTables :=
  let '(Build_NoticeTables p s fr pu oe ma) := t in Build_NoticeTables (f p) s fr pu oe ma.
Definition set_push_subscriptions f (t : NoticeTables) : NoticeTables :=
  let '(Build_NoticeTables p s fr pu oe ma) := t in Build_NoticeTables p (f s) fr pu oe ma.
Definition set_frames f (t : NoticeTables) : NoticeTables :=
  let '(Build_NoticeTables p s fr pu oe ma) := t in Build_NoticeTables p s (f fr) pu oe ma.
Definition set_pushes f (t : NoticeTables) : NoticeTables :=
  let '(Build_NoticeTables p s fr pu oe ma) := t in Build_NoticeTables p s fr (f pu) oe ma.
Definition set_outbound_emails f (t : NoticeTables) : NoticeTables :=
  let '(Build_NoticeTables p s fr pu oe ma) := t in Build_NoticeTables p s fr pu (f oe) ma.
Definition set_mailed f (t : NoticeTables) : NoticeTables :=
  let '(Build_NoticeTables p s fr pu oe ma) := t in Build_NoticeTables p s fr pu oe (f ma).

(** ** Rows *)

Section rows.
Implicit Types (n : Notification.t) (t : MessageTables).

(** A unique index on person, kind and [data ->> key], where [data ? key]: two
    rows without a text there are not the same. *)
Definition same_at (key : str) n n' : bool :=
  match text_at key (Notification.data n), text_at key (Notification.data n') with
  | Some s, Some s' => str_eqb s s'
  | _, _ => false
  end.
(** [idx_notifications_dedup], [idx_notifications_call_dedup] *)
Definition duplicates n n' : bool :=
  bool_decide (Notification.user_id n = Notification.user_id n') && str_eqb (Notification.notification_type n) (Notification.notification_type n') &&
  (same_at ($"message_id") n n' || same_at ($"huddle_id") n n').
Definition notified n t : bool := existsb (duplicates n) (map_to_list (notifications t)).*2.

(** [effective_notify_level] *)
Definition effective_level (stored : option NotifyLevel.t) (workspace_default : NotifyLevel.t) (direct : bool) : NotifyLevel.t :=
  match stored with Some l => l | None => if direct then NotifyLevel.All else workspace_default end.

(** [ON CONFLICT (user_id, message_id) DO NOTHING]; rows without a message do
    not conflict. *)
Definition queued (p : PendingMention.t) (l : list PendingMention.t) : bool :=
  existsb (fun q => bool_decide (PendingMention.user_id q = PendingMention.user_id p) &&
    match PendingMention.message_id q, PendingMention.message_id p with Some a, Some b => bool_decide (a = b) | _, _ => false end) l.
Definition enqueue_mention (p : PendingMention.t) (l : list PendingMention.t) : list PendingMention.t := if queued p l then l else l ++ [p].

Definition unread_everywhere (member : Uuid -> bool) (u : Uuid) t : Z :=
  Z.of_nat (length (filter (fun n => Notification.user_id n = u /\ Notification.is_read n = false /\ member (Notification.workspace_id n) = true)
    (map_to_list (notifications t)).*2)).
End rows.
