(* ===== verification/ListInvariant.v ===== *)
(** * What the tables of lists always satisfy

    The invariant of [ListStore] and how each statement of the repository
    affects it: cells have the types of their columns, ranks are well formed
    and distinct, views fit the columns, and the counts stay within their
    limits. *)

From stdpp Require Import base tactics option numbers list gmap sorting.
From Stdlib Require Import ZArith Lia String Ascii.
From S2P Require Import Prelude RustStr Json Errors Rank Lists ListForms ListViews ListStore.

(** ** Rows of a table *)

Section rows.
Context {A : Type}.
Implicit Types (m : gmap Uuid A).

Definition rows (P : A -> Prop) `{!forall x, Decision (P x)} m : list A := filter P (map_to_list m).*2.

Lemma elem_of_rows P `{!forall x, Decision (P x)} m x : x ∈ rows P m <-> P x /\ exists k, m !! k = Some x.
Proof.
  unfold rows. rewrite list_elem_of_filter, list_elem_of_fmap. split.
  - intros [HP [[k y] [-> Hk]]]. apply elem_of_map_to_list in Hk. eauto.
  - intros [HP [k Hk]]. split; [done|]. exists (k, x). by rewrite elem_of_map_to_list.
Qed.

Lemma length_rows P `{!forall x, Decision (P x)} m :
  length (rows P m) = size (filter (fun p : Uuid * A => P p.2) m).
Proof.
  unfold rows. rewrite <-(length_map_to_list (filter _ m)).
  assert (E : map_to_list (filter (fun p : Uuid * A => P p.2) m) ≡ₚ filter (fun p : Uuid * A => P p.2) (map_to_list m)).
  { rewrite map_filter_alt. apply map_to_list_to_map.
    apply (sublist_NoDup _ (map_to_list m).*1); [apply NoDup_fst_map_to_list|].
    apply fmap_sublist, sublist_filter. }
  rewrite E. generalize (map_to_list m). intros l. induction l as [|[k x] l IH]; [done|].
  rewrite fmap_cons, !filter_cons. cbn [snd]. case_decide; cbn; by rewrite IH.
Qed.

(** Rows that were rows before are no more than before. *)
Lemma rows_le P P' `{!forall x, Decision (P x)} `{!forall x, Decision (P' x)} m m' :
  (forall k x', m' !! k = Some x' -> P' x' -> exists x, m !! k = Some x /\ P x) ->
  (length (rows P' m') <= length (rows P m))%nat.
Proof.
  intros Hle. rewrite !length_rows, <-!size_dom. apply subseteq_size. intros k.
  rewrite !elem_of_dom. intros [x' [Hk HP]%map_lookup_filter_Some].
  destruct (Hle k x' Hk HP) as (x & Hx & HPx). exists x. by apply map_lookup_filter_Some.
Qed.

(** One key more is at most one row more. *)
Lemma rows_le_S P P' `{!forall x, Decision (P x)} `{!forall x, Decision (P' x)} m m' id :
  (forall k x', m' !! k = Some x' -> P' x' -> k = id \/ exists x, m !! k = Some x /\ P x) ->
  (length (rows P' m') <= S (length (rows P m)))%nat.
Proof.
  intros Hle. rewrite !length_rows, <-!size_dom.
  transitivity (size ({[id]} ∪ dom (filter (fun p : Uuid * A => P p.2) m) : gset Uuid)).
  - apply subseteq_size. intros k. rewrite elem_of_union, elem_of_singleton, !elem_of_dom.
    intros [x' [Hk HP]%map_lookup_filter_Some].
    destruct (Hle k x' Hk HP) as [->|(x & Hx & HPx)]; [by left|]. right. exists x. by apply map_lookup_filter_Some.
  - pose proof (size_union_alt ({[id]} : gset Uuid) (dom (filter (fun p : Uuid * A => P p.2) m))) as E.
    rewrite E, size_singleton. pose proof (subseteq_size (dom (filter (fun p : Uuid * A => P p.2) m) ∖ {[id]})
      (dom (filter (fun p : Uuid * A => P p.2) m)) ltac:(set_solver)). lia.
Qed.

(** A row is found under its own identifier. *)
Definition keyed (id : A -> Uuid) m : Prop := forall k x, m !! k = Some x -> id x = k.

Lemma keyed_insert id m x : keyed id m -> keyed id (<[id x := x]> m).
Proof. intros Hm k y. rewrite lookup_insert_Some. intros [[<- <-]|[_ Hk]]; [done|by apply Hm]. Qed.
Lemma keyed_delete id m k : keyed id m -> keyed id (delete k m).
Proof. intros Hm j y. rewrite lookup_delete_Some. intros [_ Hj]. by apply Hm. Qed.
Lemma keyed_alter id f m k : (forall x, id (f x) = id x) -> keyed id m -> keyed id (alter f k m).
Proof.
  intros Hf Hm j y. destruct (decide (k = j)) as [->|Hne].
  - rewrite lookup_alter_eq. intros (x & Hx & ->)%fmap_Some. rewrite Hf. by apply Hm.
  - rewrite lookup_alter_ne by done. apply Hm.
Qed.
Lemma keyed_fmap id f m : (forall x, id (f x) = id x) -> keyed id m -> keyed id (f <$> m).
Proof. intros Hf Hm j y. rewrite lookup_fmap. intros (x & Hx & ->)%fmap_Some. rewrite Hf. by apply Hm. Qed.
End rows.

(** What a table holds after one of its rows, or all, are updated. *)
Lemma lookup_alter_inv {A} (f : A -> A) (m : gmap Uuid A) k j y :
  alter f k m !! j = Some y -> exists x, m !! j = Some x /\ y = if bool_decide (j = k) then f x else x.
Proof.
  destruct (decide (k = j)) as [->|Hne].
  - rewrite lookup_alter_eq. intros (x & Hx & ->)%fmap_Some. exists x. by rewrite bool_decide_eq_true_2.
  - rewrite lookup_alter_ne by done. intros Hj. exists y. by rewrite bool_decide_eq_false_2.
Qed.

Lemma lookup_fmap_inv {A} (f : A -> A) (m : gmap Uuid A) j y :
  (f <$> m) !! j = Some y -> exists x, m !! j = Some x /\ y = f x.
Proof. rewrite lookup_fmap. intros (x & Hx & ->)%fmap_Some. eauto. Qed.

(** ** The order of ranks *)

Lemma bytes_lt_total a b : bytes_lt a b \/ a = b \/ bytes_lt b a.
Proof.
  revert b. induction a as [|x a IH]; intros [|y b]; cbn; auto.
  destruct (Z.lt_total x y) as [?|[->|?]]; auto. destruct (IH b) as [?|[->|?]]; auto.
Qed.

#[export] Instance item_le_total : Total item_le.
Proof.
  intros i j. unfold item_le. destruct (bytes_lt_total (ListItem.rank i) (ListItem.rank j)) as [?|[E|?]]; auto.
  rewrite E. destruct (N.le_ge_cases (ListItem.id i) (ListItem.id j)); auto.
Qed.
#[export] Instance item_le_trans : Transitive item_le.
Proof.
  unfold item_le. intros i j k [H1|[H1 I1]] [H2|[H2 I2]].
  - left. by eapply bytes_lt_trans.
  - left. by rewrite <-H2.
  - left. by rewrite H1.
  - right. split; [congruence|]. by etransitivity.
Qed.

Section invariant.
Context `{UuidText} `{CalendarDate}.
Implicit Types (t : ListTables) (l id : Uuid) (c : ListColumn.t) (i : ListItem.t).

(** ** Reading the tables *)

Lemma elem_of_columns l t c : c ∈ columns_of l t <-> ListColumn.list_id c = l /\ exists k, list_columns t !! k = Some c.
Proof. unfold columns_of. rewrite merge_sort_Permutation. apply (elem_of_rows (fun c => ListColumn.list_id c = l)). Qed.
Lemma length_columns l t : length (columns_of l t) = length (rows (fun c => ListColumn.list_id c = l) (list_columns t)).
Proof. unfold columns_of. by rewrite merge_sort_Permutation. Qed.
Lemma elem_of_views l t v : v ∈ views_of l t <-> ListView.list_id v = l /\ exists k, list_views t !! k = Some v.
Proof. unfold views_of. rewrite merge_sort_Permutation. apply (elem_of_rows (fun v => ListView.list_id v = l)). Qed.
Lemma length_views l t : length (views_of l t) = length (rows (fun v => ListView.list_id v = l) (list_views t)).
Proof. unfold views_of. by rewrite merge_sort_Permutation. Qed.

Lemma find_item_Some id t i : find_item id t = Some i <-> list_items t !! id = Some (i, None).
Proof.
  unfold find_item, live. rewrite bind_Some. split.
  - intros ([j [?|]] & Hj & E); cbn in E; congruence.
  - intros Hi. by exists (i, None).
Qed.
Lemma find_list_Some id t x : find_list id t = Some x <-> lists t !! id = Some (x, None).
Proof.
  unfold find_list, live. rewrite bind_Some. split.
  - intros ([j [?|]] & Hj & E); cbn in E; congruence.
  - intros Hi. by exists (x, None).
Qed.

Definition live_in l (r : ListItem.t * option Z) : Prop := r.2 = None /\ ListItem.list_id r.1 = l.
#[global] Instance live_in_dec l r : Decision (live_in l r).
Proof. unfold live_in. apply _. Defined.
Lemma live_items_rows l t : live_items l t = fst <$> rows (live_in l) (list_items t).
Proof.
  unfold live_items, rows. generalize ((map_to_list (list_items t)).*2). intros rs.
  induction rs as [|[i [d|]] rs IH]; [done|..]; cbn [omap list_omap live fst snd]; rewrite (filter_cons (live_in l)).
  - rewrite decide_False by (by intros [? _]). exact IH.
  - rewrite filter_cons. unfold live_in at 1. cbn [fst snd]. repeat case_decide; try (exfalso; naive_solver); [|exact IH].
    rewrite fmap_cons. by rewrite IH.
Qed.
Lemma elem_of_live_items l t i : i ∈ live_items l t <-> ListItem.list_id i = l /\ exists k, find_item k t = Some i.
Proof.
  rewrite live_items_rows, list_elem_of_fmap. split.
  - intros ([j o] & -> & [[Ho Hl] [k Hk]]%elem_of_rows). cbn in *. subst. split; [done|]. exists k. by apply find_item_Some.
  - intros [Hl [k Hk%find_item_Some]]. exists (i, None). split; [done|]. apply elem_of_rows. split; [done|eauto].
Qed.
Lemma elem_of_items l t i : i ∈ items_of l t <-> ListItem.list_id i = l /\ exists k, find_item k t = Some i.
Proof. unfold items_of. rewrite merge_sort_Permutation. apply elem_of_live_items. Qed.
Lemma item_count_rows l t : item_count_in l t = Z.of_nat (length (rows (live_in l) (list_items t))).
Proof. unfold item_count_in. by rewrite live_items_rows, length_fmap. Qed.

(** The column of a list with an id. *)
Definition column_at l id t : option ListColumn.t :=
  c ← list_columns t !! id; if bool_decide (ListColumn.list_id c = l) then Some c else None.
Lemma column_at_Some l id t c : column_at l id t = Some c <-> list_columns t !! id = Some c /\ ListColumn.list_id c = l.
Proof.
  unfold column_at. rewrite bind_Some. split.
  - intros (d & Hd & E). case_bool_decide; simplify_eq. done.
  - intros [Hc Hl]. exists c. by rewrite bool_decide_eq_true_2.
Qed.

Lemma find_column_at l id t :
  keyed ListColumn.id (list_columns t) -> find_column (columns_of l t) id = column_at l id t.
Proof.
  intros Hk. destruct (column_at l id t) as [c|] eqn:Hc.
  - apply column_at_Some in Hc as [Hc Hl]. pose proof (Hk _ _ Hc) as Hid.
    unfold find_column. destruct (find _ _) as [d|] eqn:Hf.
    + apply find_some in Hf as [Hd Hdi]. apply bool_decide_eq_true in Hdi. apply list_elem_of_In, elem_of_columns in Hd as [_ [k Hd]].
      pose proof (Hk _ _ Hd). congruence.
    + assert (Hin : c ∈ columns_of l t) by (apply elem_of_columns; eauto). apply list_elem_of_In in Hin.
      apply (find_none _ _ Hf) in Hin. by rewrite bool_decide_eq_true_2 in Hin.
  - unfold find_column. destruct (find _ _) as [d|] eqn:Hf; [|done]. exfalso.
    apply find_some in Hf as [Hd Hdi]. apply bool_decide_eq_true in Hdi. apply list_elem_of_In, elem_of_columns in Hd as [Hl [k Hd]].
    pose proof (Hk _ _ Hd). assert (column_at l id t = Some d) by (apply column_at_Some; split; congruence). congruence.
Qed.

(** ** The invariant *)

(** Every cell of an item belongs to a column of its list and has its type. *)
Definition values_ok l t (v : json) : Prop :=
  exists m, v = JObject m /\ forall key w, assoc key m = Some w ->
    exists id c, key = uuid_to_string id /\ column_at l id t = Some c /\
      well_typed (ListColumn.kind c) (ListColumn.options c) w.

Record columns_wf t : Prop := {
  cw_keyed : keyed ListColumn.id (list_columns t);
  cw_list : forall k c, list_columns t !! k = Some c -> is_Some (lists t !! ListColumn.list_id c);
  cw_due : forall k c, list_columns t !! k = Some c -> ListColumn.due c = true -> ListColumn.kind c = Date;
  cw_one_due : forall j k c d, list_columns t !! j = Some c -> list_columns t !! k = Some d ->
    ListColumn.list_id c = ListColumn.list_id d -> ListColumn.due c = true -> ListColumn.due d = true -> j = k;
  cw_count : forall l, (length (columns_of l t) <= MAX_COLUMNS)%nat;
}.

Record items_wf t : Prop := {
  iw_keyed : keyed (fun r => ListItem.id r.1) (list_items t);
  iw_ranks : forall k i, find_item k t = Some i -> is_rank (ListItem.rank i);
  iw_distinct : forall j k i i', find_item j t = Some i -> find_item k t = Some i' ->
    ListItem.list_id i = ListItem.list_id i' -> ListItem.rank i = ListItem.rank i' -> j = k;
  iw_count : forall l, item_count_in l t <= MAX_ITEMS;
}.

Definition cells_wf t : Prop := forall k i, find_item k t = Some i -> values_ok (ListItem.list_id i) t (ListItem.values i).

(** [new]: a list that is being created gets its first view last; [stale]: the
    list whose columns have just changed, before its views are pruned. *)
Record views_wf (new stale : option Uuid) t : Prop := {
  vw_keyed : keyed ListView.id (list_views t);
  vw_list : forall k v, list_views t !! k = Some v -> is_Some (lists t !! ListView.list_id v);
  vw_fits : forall k v, list_views t !! k = Some v -> Some (ListView.list_id v) <> stale ->
    fits (ListView.config v) (ListView.kind v) (columns_of (ListView.list_id v) t);
  vw_count : forall l, (length (views_of l t) <= MAX_VIEWS)%nat;
  vw_some : forall k x, lists t !! k = Some x -> Some k <> new -> views_of k t <> [];
}.

Record well_formed_but (new stale : option Uuid) t : Prop := {
  wf_keyed : keyed (fun r => List.id r.1) (lists t);
  wf_columns : columns_wf t;
  wf_items : items_wf t;
  wf_cells : cells_wf t;
  wf_views : views_wf new stale t;
}.
Definition well_formed : ListTables -> Prop := well_formed_but None None.

(** ** Tables that keep what the others rely on *)

(** Every column keeps its list, kind and options. *)
Definition columns_kept t t' : Prop := forall l id c, column_at l id t = Some c ->
  exists d, column_at l id t' = Some d /\ same_column c d.

Lemma columns_kept_refl t t' : list_columns t' = list_columns t -> columns_kept t t'.
Proof. intros E l id c Hc. exists c. unfold column_at in *. rewrite E. split; [done|]. split; done. Qed.

Lemma values_ok_kept l t t' v : columns_kept t t' -> values_ok l t v -> values_ok l t' v.
Proof.
  intros Hk (m & -> & Hm). exists m. split; [done|]. intros key w Hw.
  destruct (Hm key w Hw) as (id & c & -> & Hc & Ht). destruct (Hk _ _ _ Hc) as (d & Hd & Ek & Eo).
  exists id, d. by rewrite Ek, Eo.
Qed.

Lemma columns_of_extend l t t' :
  keyed ListColumn.id (list_columns t) -> keyed ListColumn.id (list_columns t') -> columns_kept t t' ->
  columns_extend (columns_of l t) (columns_of l t').
Proof. intros H1 H2 Hk id c. rewrite !find_column_at by done. intros Hc. by apply Hk. Qed.

(** Items and their cells do not mind a change of the other tables. *)
Lemma cells_kept t t' : list_items t' = list_items t -> columns_kept t t' -> cells_wf t -> cells_wf t'.
Proof.
  intros E Hk Hc k i Hi. eapply values_ok_kept; [done|]. apply (Hc k). unfold find_item in *. by rewrite <-E.
Qed.

Lemma live_items_same l t t' : list_items t' = list_items t -> live_items l t' = live_items l t.
Proof. unfold live_items. by intros ->. Qed.
Lemma items_wf_same t t' : list_items t' = list_items t -> items_wf t -> items_wf t'.
Proof.
  intros E [H1 H2 H3 H4]. unfold find_item, item_count_in, live_items in *.
  constructor; unfold find_item, item_count_in, live_items; by rewrite E.
Qed.
Lemma columns_wf_same t t' :
  list_columns t' = list_columns t -> (forall k, is_Some (lists t !! k) -> is_Some (lists t' !! k)) ->
  columns_wf t -> columns_wf t'.
Proof.
  intros E Hl [H1 H2 H3 H4 H5]. unfold columns_of in *. constructor; unfold columns_of; rewrite E; auto. naive_solver.
Qed.
Lemma views_fit_kept t t' new stale :
  keyed ListColumn.id (list_columns t) -> keyed ListColumn.id (list_columns t') ->
  list_views t' = list_views t -> lists t' = lists t -> columns_kept t t' -> views_wf new stale t -> views_wf new stale t'.
Proof.
  intros Hk Hk' Ev El Hc [H1 H2 H3 H4 H5]. unfold views_of in H4, H5. constructor; unfold views_of; rewrite ?Ev, ?El; try done.
  intros k v Hv Hs. eapply fits_mono; [exact (columns_of_extend _ _ _ Hk Hk' Hc)|by eapply H3].
Qed.

(** ** Lists *)

Lemma wf_alter_list new stale t id (f : List.t * option Z -> List.t * option Z) :
  (forall r, List.id (f r).1 = List.id r.1) -> well_formed_but new stale t -> well_formed_but new stale (set_lists (alter f id) t).
Proof.
  intros Hf [H1 H2 H3 H4 H5]. destruct t as [ls cs vs is_ ms]. cbn in *.
  assert (Hs : forall k, is_Some (ls !! k) -> is_Some (alter f id ls !! k)).
  { intros k [x Hx]. destruct (decide (id = k)) as [->|]; [rewrite lookup_alter_eq, Hx|rewrite lookup_alter_ne by done]; eauto. }
  constructor; cbn.
  - by apply (keyed_alter (fun r => List.id r.1)).
  - by eapply columns_wf_same; [| |exact H2].
  - by eapply items_wf_same; [|exact H3].
  - by eapply cells_kept; [|by apply columns_kept_refl|exact H4].
  - destruct H5 as [V1 V2 V3 V4 V5]. constructor; try done; cbn in *; [naive_solver|].
    intros k x (y & Hy & _)%lookup_alter_inv. by eapply V5.
Qed.

Lemma wf_insert_list t (x : List.t) :
  lists t !! List.id x = None -> well_formed_but None None t -> well_formed_but (Some (List.id x)) None (insert_list x t).
Proof.
  intros Hn [H1 H2 H3 H4 H5]. destruct t as [ls cs vs is_ ms]. cbn in *. unfold insert_list. cbn.
  assert (Hs : forall k, is_Some (ls !! k) -> is_Some (<[List.id x := (x, None)]> ls !! k)).
  { intros k Hk. rewrite lookup_insert_is_Some. destruct (decide (List.id x = k)); auto. }
  constructor; cbn.
  - apply (keyed_insert (fun r => List.id r.1) ls (x, None)). done.
  - by eapply columns_wf_same; [| |exact H2].
  - by eapply items_wf_same; [|exact H3].
  - by eapply cells_kept; [|by apply columns_kept_refl|exact H4].
  - destruct H5 as [V1 V2 V3 V4 V5]. constructor; try done; cbn in *; [naive_solver|].
    intros k y [[<- _]|[_ Hk]]%lookup_insert_Some; [done|]. intros _. by eapply V5.
Qed.

(** ** Columns *)

Lemma column_at_insert c t :
  list_columns t !! ListColumn.id c = None -> columns_kept t (insert_column c t).
Proof.
  intros Hn l id d [Hd Hl]%column_at_Some. exists d. split; [|by split]. apply column_at_Some. split; [|done].
  destruct t; cbn in *. rewrite lookup_insert_ne by congruence. done.
Qed.

Lemma wf_insert_column new stale t c :
  list_columns t !! ListColumn.id c = None -> is_Some (lists t !! ListColumn.list_id c) -> ListColumn.due c = false ->
  (length (columns_of (ListColumn.list_id c) t) < MAX_COLUMNS)%nat ->
  well_formed_but new stale t -> well_formed_but new stale (insert_column c t).
Proof.
  intros Hn Hl Hd Hc Hwf. pose proof (column_at_insert c t Hn) as Hkept. destruct Hwf as [H1 H2 H3 H4 H5].
  assert (Hcols : columns_wf (insert_column c t)).
  { destruct H2 as [C1 C2 C3 C4 C5]. destruct t as [ls cs vs is_ ms]. unfold insert_column in *. cbn in *. constructor; cbn.
    - by apply keyed_insert.
    - intros k d [[<- <-]|[_ Hk]]%lookup_insert_Some; [done|by eapply C2].
    - intros k d [[<- <-]|[_ Hk]]%lookup_insert_Some Hdue; [congruence|by eapply C3].
    - intros j k d e [[<- <-]|[_ Hj]]%lookup_insert_Some [[<- <-]|[_ Hk]]%lookup_insert_Some; try congruence. by eapply C4.
    - intros l. rewrite length_columns. cbn. destruct (decide (ListColumn.list_id c = l)) as [<-|Hne].
      + rewrite length_columns in Hc. cbn in Hc.
        etransitivity; [apply (rows_le_S (fun d => ListColumn.list_id d = ListColumn.list_id c) _ cs _ (ListColumn.id c))|lia].
        intros k d [[<- _]|[_ Hk]]%lookup_insert_Some; eauto.
      + specialize (C5 l). rewrite length_columns in C5. cbn in C5. etransitivity; [|exact C5]. apply rows_le.
        intros k d [[_ <-]|[_ Hk]]%lookup_insert_Some; [done|eauto]. }
  constructor; [by destruct t|done|by eapply items_wf_same; [|exact H3]; destruct t|apply (cells_kept t); [by destruct t|done..]|].
  eapply views_fit_kept; [apply H2|apply Hcols|by destruct t|by destruct t|done|exact H5].
Qed.

(** A new place of the columns of a list changes nothing that matters. *)
Lemma wf_reorder_columns new stale t l ids :
  well_formed_but new stale t -> well_formed_but new stale (reorder_columns_in l ids t).
Proof.
  intros [H1 H2 H3 H4 H5].
  set (g := fun c => match place ids (ListColumn.id c) with
                     | Some p => if bool_decide (ListColumn.list_id c = l) then Column.set_position p c else c
                     | None => c end).
  assert (Hg : forall c, ListColumn.id (g c) = ListColumn.id c /\ ListColumn.list_id (g c) = ListColumn.list_id c /\
    ListColumn.kind (g c) = ListColumn.kind c /\ ListColumn.options (g c) = ListColumn.options c /\
    ListColumn.due (g c) = ListColumn.due c).
  { intros c. unfold g. destruct (place _ _); [|done]. by case_bool_decide. }
  assert (E : list_columns (reorder_columns_in l ids t) = g <$> list_columns t) by by destruct t.
  assert (Hcols : columns_wf (reorder_columns_in l ids t)).
  { destruct H2 as [C1 C2 C3 C4 C5]. constructor.
    - rewrite E. apply keyed_fmap; [intros c; by apply Hg|done].
    - rewrite E. intros k d (c & Hc & ->)%lookup_fmap_inv. destruct (Hg c) as (_ & -> & _). destruct t. by eapply C2.
    - rewrite E. intros k d (c & Hc & ->)%lookup_fmap_inv. destruct (Hg c) as (_ & _ & -> & _ & ->). by eapply C3.
    - rewrite E. intros j k d e (c & Hc & ->)%lookup_fmap_inv (c' & Hc' & ->)%lookup_fmap_inv.
      destruct (Hg c) as (_ & -> & _ & _ & ->), (Hg c') as (_ & -> & _ & _ & ->). by eapply C4.
    - intros l'. rewrite length_columns, E. specialize (C5 l'). rewrite length_columns in C5. etransitivity; [|exact C5].
      apply rows_le. intros k d (c & Hc & ->)%lookup_fmap_inv. destruct (Hg c) as (_ & -> & _). eauto. }
  assert (Hkept : columns_kept t (reorder_columns_in l ids t)).
  { intros l' id c [Hc Hl]%column_at_Some. exists (g c). destruct (Hg c) as (_ & Hgl & Hgk & Hgo & _). split; [|by split].
    apply column_at_Some. rewrite E, lookup_fmap, Hc. split; [done|congruence]. }
  constructor; [by destruct t|done|by eapply items_wf_same; [|exact H3]; destruct t|apply (cells_kept t); [by destruct t|done..]|].
  eapply views_fit_kept; [apply H2|apply Hcols|by destruct t|by destruct t|done|exact H5].
Qed.

(** ** Views *)

(** A change of the views leaves the rest well formed. *)
Lemma wf_set_views new stale new' stale' t (f : gmap Uuid ListView.t -> gmap Uuid ListView.t) :
  well_formed_but new stale t -> views_wf new' stale' (set_list_views f t) -> well_formed_but new' stale' (set_list_views f t).
Proof.
  intros [H1 H2 H3 H4 H5] Hv. constructor; [by destruct t| | | |done].
  - apply (columns_wf_same t); [by destruct t|by destruct t|done].
  - apply (items_wf_same t); [by destruct t|done].
  - apply (cells_kept t); [by destruct t| |done]. apply columns_kept_refl. by destruct t.
Qed.

Lemma views_of_set_ne l t f :
  (exists k v, f (list_views t) !! k = Some v /\ ListView.list_id v = l) -> views_of l (set_list_views f t) <> [].
Proof.
  intros (k & v & Hk & Hl) E. apply (not_elem_of_nil v). rewrite <-E. apply elem_of_views. split; [done|].
  exists k. by destruct t.
Qed.
Lemma views_of_ne l t : views_of l t <> [] <-> exists k v, list_views t !! k = Some v /\ ListView.list_id v = l.
Proof.
  split.
  - destruct (views_of l t) as [|v vs] eqn:E; [done|]. intros _.
    assert (v ∈ views_of l t) as [Hl [k Hk]]%elem_of_views by (rewrite E; left). eauto.
  - intros (k & v & Hk & Hl) E. apply (not_elem_of_nil v). rewrite <-E. apply elem_of_views. eauto.
Qed.
Lemma columns_of_set_views l t f : columns_of l (set_list_views f t) = columns_of l t.
Proof. by destruct t. Qed.

Lemma wf_insert_view new t v :
  list_views t !! ListView.id v = None -> is_Some (lists t !! ListView.list_id v) ->
  fits (ListView.config v) (ListView.kind v) (columns_of (ListView.list_id v) t) ->
  (length (views_of (ListView.list_id v) t) < MAX_VIEWS)%nat -> (new = None \/ new = Some (ListView.list_id v)) ->
  well_formed_but new None t -> well_formed_but None None (insert_view v t).
Proof.
  intros Hn Hl Hf Hc Hnew Hwf. apply (wf_set_views new None); [done|]. destruct (wf_views _ _ _ Hwf) as [V1 V2 V3 V4 V5].
  constructor.
  - destruct t; by apply keyed_insert.
  - destruct t; cbn in *. intros k w [[<- <-]|[_ Hk]]%lookup_insert_Some; [done|by eapply V2].
  - intros k w Hw Hs. rewrite columns_of_set_views. destruct t; cbn in *.
    apply lookup_insert_Some in Hw as [[<- <-]|[_ Hk]]; [done|by eapply V3].
  - intros l. rewrite length_views. destruct t as [ls cs vs is_ ms]. cbn in *. destruct (decide (ListView.list_id v = l)) as [<-|Hne].
    + rewrite length_views in Hc. cbn in Hc.
      etransitivity; [apply (rows_le_S (fun d => ListView.list_id d = ListView.list_id v) _ vs _ (ListView.id v))|lia].
      intros k d [[<- _]|[_ Hk]]%lookup_insert_Some; eauto.
    + specialize (V4 l). rewrite length_views in V4. cbn in V4. etransitivity; [|exact V4]. apply rows_le.
      intros k d [[_ <-]|[_ Hk]]%lookup_insert_Some; [done|eauto].
  - intros k x Hx _. apply views_of_set_ne. destruct (decide (k = ListView.list_id v)) as [->|Hne].
    + exists (ListView.id v), v. by rewrite lookup_insert_eq.
    + assert (Hk : views_of k t <> []). { apply (V5 k x); [by destruct t|]. destruct Hnew as [->| ->]; congruence. }
      apply views_of_ne in Hk as (j & w & Hj & Hw). exists j, w. split; [|done]. rewrite lookup_insert_ne; [done|]. congruence.
Qed.

(** A view that is rewritten, and fits. *)
Lemma wf_alter_view new stale t id (f : ListView.t -> ListView.t) :
  (forall v, ListView.id (f v) = ListView.id v /\ ListView.list_id (f v) = ListView.list_id v) ->
  (forall v, list_views t !! id = Some v -> Some (ListView.list_id v) <> stale ->
     fits (ListView.config (f v)) (ListView.kind (f v)) (columns_of (ListView.list_id v) t)) ->
  well_formed_but new stale t -> well_formed_but new stale (set_list_views (alter f id) t).
Proof.
  intros Hf Hfit Hwf. apply (wf_set_views new stale); [done|]. destruct (wf_views _ _ _ Hwf) as [V1 V2 V3 V4 V5].
  constructor.
  - destruct t. apply keyed_alter; [intros v; by apply Hf|done].
  - intros k w Hw. assert (E : alter f id (list_views t) !! k = Some w) by by destruct t.
    apply lookup_alter_inv in E as (v & Hv & ->). replace (lists (set_list_views (alter f id) t)) with (lists t) by by destruct t.
    case_bool_decide; [destruct (Hf v) as [_ ->]|]; by eapply V2.
  - intros k w Hw Hs. rewrite columns_of_set_views. assert (E : alter f id (list_views t) !! k = Some w) by by destruct t.
    apply lookup_alter_inv in E as (v & Hv & ->). case_bool_decide as Hk; [|by eapply V3]. subst k.
    destruct (Hf v) as [_ El]. rewrite El in Hs |- *. by apply Hfit.
  - intros l. specialize (V4 l). rewrite length_views in V4 |- *. etransitivity; [|exact V4]. apply rows_le.
    intros k w Hw Hl. assert (E : alter f id (list_views t) !! k = Some w) by by destruct t.
    apply lookup_alter_inv in E as (v & Hv & ->). exists v. split; [done|].
    case_bool_decide; [destruct (Hf v) as [_ Ev]; congruence|done].
  - intros k x Hx Hnew. apply views_of_set_ne. assert (Hk : views_of k t <> []) by (apply (V5 k x); [by destruct t|done]).
    apply views_of_ne in Hk as (j & v & Hj & Hv). exists j. destruct (decide (id = j)) as [->|Hne].
    + exists (f v). rewrite lookup_alter_eq, Hj. split; [done|]. destruct (Hf v) as [_ ->]. done.
    + exists v. by rewrite lookup_alter_ne.
Qed.

Lemma wf_reorder_views new stale t l ids : well_formed_but new stale t -> well_formed_but new stale (reorder_views_in l ids t).
Proof.
  intros Hwf. unfold reorder_views_in. set (g := fun v : ListView.t => match place ids (ListView.id v) with
    | Some p => if bool_decide (ListView.list_id v = l) then View.set_position p v else v | None => v end).
  assert (Hg : forall v, ListView.id (g v) = ListView.id v /\ ListView.list_id (g v) = ListView.list_id v /\
    ListView.kind (g v) = ListView.kind v /\ ListView.config (g v) = ListView.config v).
  { intros v. unfold g. destruct (place _ _); [|done]. by case_bool_decide. }
  apply (wf_set_views new stale); [done|]. destruct (wf_views _ _ _ Hwf) as [V1 V2 V3 V4 V5]. constructor.
  - destruct t. apply keyed_fmap; [intros v; by apply Hg|done].
  - intros k w Hw. assert (E : (g <$> list_views t) !! k = Some w) by by destruct t.
    apply lookup_fmap_inv in E as (v & Hv & ->). destruct (Hg v) as (_ & -> & _). destruct t; by eapply V2.
  - intros k w Hw Hs. rewrite columns_of_set_views. assert (E : (g <$> list_views t) !! k = Some w) by by destruct t.
    apply lookup_fmap_inv in E as (v & Hv & ->). destruct (Hg v) as (_ & El & Ek & Ec). rewrite El in *. rewrite Ek, Ec. by eapply V3.
  - intros l'. specialize (V4 l'). rewrite length_views in V4 |- *. etransitivity; [|exact V4]. apply rows_le.
    intros k w Hw Hl. assert (E : (g <$> list_views t) !! k = Some w) by by destruct t.
    apply lookup_fmap_inv in E as (v & Hv & ->). destruct (Hg v) as (_ & Ev & _). exists v. split; [done|congruence].
  - intros k x Hx Hnew. apply views_of_set_ne. assert (Hk : views_of k t <> []) by (apply (V5 k x); [by destruct t|done]).
    apply views_of_ne in Hk as (j & v & Hj & Hv). exists j, (g v). rewrite lookup_fmap, Hj. split; [done|].
    destruct (Hg v) as (_ & -> & _). done.
Qed.

(** The last view of a list is not deleted. *)
Lemma wf_delete_view t l id v :
  list_views t !! id = Some v -> ListView.list_id v = l -> length (views_of l t) <> 1%nat ->
  well_formed t -> well_formed (delete_view_in id t).
Proof.
  intros Hv Hl Hone Hwf. apply (wf_set_views None None); [done|]. destruct (wf_views _ _ _ Hwf) as [V1 V2 V3 V4 V5].
  constructor.
  - destruct t. by apply keyed_delete.
  - destruct t; cbn in *. intros k w [_ Hk]%lookup_delete_Some. by eapply V2.
  - intros k w Hw Hs. rewrite columns_of_set_views. destruct t; cbn in *. apply lookup_delete_Some in Hw as [_ Hk]. by eapply V3.
  - intros l'. specialize (V4 l'). rewrite length_views in V4 |- *. etransitivity; [|exact V4]. apply rows_le. destruct t; cbn.
    intros k w [_ Hk]%lookup_delete_Some. eauto.
  - intros k x Hx Hnew E. assert (Hk : views_of k t <> []) by (apply (V5 k x); [by destruct t|done]).
    destruct (decide (k = l)) as [->|Hne].
    + assert (Hle : (length (views_of l t) <= 1)%nat).
      { rewrite length_views. etransitivity; [apply (rows_le_S (fun _ : ListView.t => False) _ (∅ : gmap Uuid ListView.t) _ id)|done].
        intros j w Hj Hw. destruct (decide (j = id)) as [->|Hd]; [by left|]. exfalso. apply (not_elem_of_nil w).
        rewrite <-E. apply elem_of_views. split; [done|]. exists j. destruct t; cbn in *. by rewrite lookup_delete_ne. }
      destruct (views_of l t) as [|a [|b r]]; cbn in *; try done; lia.
    + apply views_of_ne in Hk as (j & w & Hj & Hw). apply (not_elem_of_nil w). rewrite <-E. apply elem_of_views. split; [done|].
      exists j. destruct t; cbn in *. rewrite lookup_delete_ne; [done|]. congruence.
Qed.

(** ** Cells *)

(** An update that only touches the values of items. *)
Definition values_only (f : ListItem.t -> ListItem.t) : Prop := forall i,
  ListItem.id (f i) = ListItem.id i /\ ListItem.list_id (f i) = ListItem.list_id i /\ ListItem.rank (f i) = ListItem.rank i.

Lemma find_update_items l f t k j : find_item k (update_items l f t) = Some j ->
  exists i, find_item k t = Some i /\ j = if bool_decide (ListItem.list_id i = l) then f i else i.
Proof.
  intros Hj%find_item_Some. destruct t as [ls cs vs is_ ms]. cbn in Hj. apply lookup_fmap_inv in Hj as ([i d] & Hi & E).
  exists i. rewrite find_item_Some. cbn in *. case_bool_decide; by simplify_eq.
Qed.

Lemma items_wf_update_items l f t : values_only f -> items_wf t -> items_wf (update_items l f t).
Proof.
  intros Hf [I1 I2 I3 I4].
  assert (Hg : forall i, let j := if bool_decide (ListItem.list_id i = l) then f i else i in
    ListItem.id j = ListItem.id i /\ ListItem.list_id j = ListItem.list_id i /\ ListItem.rank j = ListItem.rank i)
    by (intros i; case_bool_decide; [apply Hf|done]).
  constructor.
  - destruct t. apply (keyed_fmap (fun r : ListItem.t * option Z => ListItem.id r.1)); [|done].
    intros [i d]. cbn. case_bool_decide; [apply Hf|done].
  - intros k j (i & Hi & ->)%find_update_items. destruct (Hg i) as (_ & _ & ->). by eapply I2.
  - intros j k a b (i & Hi & ->)%find_update_items (i' & Hi' & ->)%find_update_items.
    destruct (Hg i) as (_ & -> & ->), (Hg i') as (_ & -> & ->). by apply I3.
  - intros l'. specialize (I4 l'). rewrite item_count_rows in I4 |- *. etransitivity; [|exact I4]. apply Nat2Z.inj_le, rows_le.
    intros k [j d] Hj [Hd Hl]. destruct t as [ls cs vs is_ ms]. cbn in *. apply lookup_fmap_inv in Hj as ([i d'] & Hi & E).
    exists (i, d'). split; [done|]. cbn in *. destruct (Hg i) as (_ & Hgl & _). case_bool_decide; simplify_eq; split; cbn in *; congruence.
Qed.

Lemma columns_of_update_items l l' f t : columns_of l' (update_items l f t) = columns_of l' t.
Proof. by destruct t. Qed.
Lemma views_wf_update_items new stale l f t : views_wf new stale t -> views_wf new stale (update_items l f t).
Proof. by destruct t; intros [V1 V2 V3 V4 V5]; constructor. Qed.
Lemma columns_wf_update_items l f t : columns_wf t -> columns_wf (update_items l f t).
Proof. by destruct t; intros [C1 C2 C3 C4 C5]; constructor. Qed.
Lemma column_at_update_items l l' id f t : column_at l' id (update_items l f t) = column_at l' id t.
Proof. by destruct t. Qed.

(** A column goes, with its cells; the views of its list are pruned next. *)
Lemma wf_delete_column l id t :
  (forall c, list_columns t !! id = Some c -> ListColumn.list_id c = l) ->
  well_formed t -> well_formed_but None (Some l) (delete_column_in l id t).
Proof.
  intros Hhome [H1 H2 H3 H4 H5]. unfold delete_column_in. set (t1 := set_list_columns (delete id) t).
  set (f := fun i => Item.set_values _ _ i). assert (Hvals : values_only f) by done.
  assert (Eat : forall l' id' c, column_at l' id' t = Some c -> id' <> id -> column_at l' id' t1 = Some c).
  { intros l' id' c [Hc Hl]%column_at_Some Hne. apply column_at_Some. split; [|done]. destruct t; cbn. by rewrite lookup_delete_ne. }
  assert (Hcols : columns_wf t1).
  { destruct H2 as [C1 C2 C3 C4 C5]. constructor.
    - destruct t. by apply keyed_delete.
    - destruct t; cbn in *. intros k c [_ Hk]%lookup_delete_Some. by eapply C2.
    - destruct t; cbn in *. intros k c [_ Hk]%lookup_delete_Some. by eapply C3.
    - destruct t; cbn in *. intros j k c d [_ Hj]%lookup_delete_Some [_ Hk]%lookup_delete_Some. by eapply C4.
    - intros l'. specialize (C5 l'). rewrite length_columns in C5 |- *. etransitivity; [|exact C5]. apply rows_le. destruct t; cbn.
      intros k w [_ Hk]%lookup_delete_Some. eauto. }
  constructor.
  - by destruct t.
  - by apply columns_wf_update_items.
  - apply items_wf_update_items; [done|]. apply (items_wf_same t); [by destruct t|done].
  - intros k j (i & Hi & ->)%find_update_items.
    assert (Hi' : find_item k t = Some i) by by destruct t. destruct (H4 k i Hi') as (m & Em & Hm).
    case_bool_decide as Hl.
    + cbn. rewrite Em. exists (assoc_remove (uuid_to_string id) m). split; [done|]. intros key w Hw.
      destruct (decide (key = uuid_to_string id)) as [->|Hne]; [by rewrite assoc_remove_eq in Hw|].
      rewrite assoc_remove_ne in Hw by done. destruct (Hm key w Hw) as (id' & c & -> & Hc & Ht).
      exists id', c. split_and!; try done. rewrite column_at_update_items. apply Eat; [done|]. congruence.
    + rewrite Em. exists m. split; [done|]. intros key w Hw. destruct (Hm key w Hw) as (id' & c & -> & Hc & Ht).
      exists id', c. split_and!; try done. rewrite column_at_update_items. apply Eat; [done|]. intros ->.
      apply column_at_Some in Hc as [Hc Hcl]. pose proof (Hhome c Hc). congruence.
  - apply views_wf_update_items. destruct H5 as [V1 V2 V3 V4 V5].
    constructor; try by destruct t. intros k v Hv Hs. assert (Hv' : list_views t !! k = Some v) by by destruct t.
    eapply fits_mono; [|by apply (V3 k v)]. intros id' c. rewrite !find_column_at by (apply H2 || apply Hcols).
    intros Hc. exists c. split; [|by split]. apply Eat; [done|]. intros ->. apply column_at_Some in Hc as [Hc Hcl].
    pose proof (Hhome c Hc). congruence.
Qed.

Section update_column.
Context (l id : Uuid) (name : str) (kind : ColumnKind) (options : ColumnOptions) (hidden due : bool).

(** What becomes of a column. *)
Definition column_after c : ListColumn.t :=
  if bool_decide (ListColumn.id c = id) then update_column_row id name kind options hidden due c
  else if due && bool_decide (ListColumn.list_id c = l) then Column.set_due false c else c.

Lemma column_after_facts c : ListColumn.id (column_after c) = ListColumn.id c /\
  ListColumn.list_id (column_after c) = ListColumn.list_id c /\ (ListColumn.id c <> id -> same_column c (column_after c)).
Proof. unfold column_after. case_bool_decide; [done|]. destruct (due && _); (split_and!; [done..|]); by split. Qed.

Lemma update_column_in_eq t c0 :
  keyed ListColumn.id (list_columns t) -> column_at l id t = Some c0 ->
  update_column_in id name kind options hidden due t = set_list_columns (fmap column_after) t.
Proof.
  intros Hk [Hc Hl]%column_at_Some. destruct t as [ls cs vs is_ ms]. unfold update_column_in, clear_due. cbn in *. rewrite Hc.
  assert (E : forall m : gmap Uuid ListColumn.t, (forall k, m !! k = (if due then fun c => if bool_decide (ListColumn.list_id c = ListColumn.list_id c0)
      && negb (bool_decide (ListColumn.id c = id)) then Column.set_due false c else c else fun c => c) <$> cs !! k) ->
    alter (update_column_row id name kind options hidden due) id m = column_after <$> cs).
  { intros m Hm. apply map_eq. intros k. rewrite lookup_fmap. destruct (decide (id = k)) as [<-|Hne].
    - rewrite lookup_alter_eq, Hm, Hc. unfold column_after. destruct due; cbn; rewrite (Hk _ _ Hc), !bool_decide_eq_true_2 by done; done.
    - rewrite lookup_alter_ne, Hm by done. destruct (cs !! k) as [c|] eqn:Ec; [|done]. unfold column_after.
      destruct due; cbn; rewrite (Hk _ _ Ec), (bool_decide_eq_false_2 (k = id)) by congruence; [|done].
      by rewrite Hl, andb_true_r. }
  destruct due; cbn; f_equal; apply E; intros k; [by rewrite lookup_fmap|by rewrite option_fmap_id].
Qed.

(** The rewriting of the cells that goes with the update: the cells it leaves
    have the new type already. *)
Definition rewriting_ok (cells : list (str * json)) t : Prop :=
  (forall p, p ∈ cells -> p.2 = JNull \/ well_typed kind options p.2) /\
  forall k i w, find_item k t = Some i -> ListItem.list_id i = l -> get (uuid_to_string id) (ListItem.values i) = Some w ->
    find (fun p : str * json => bool_decide (uuid_parse p.1 = Some (ListItem.id i))) cells = None -> well_typed kind options w.

Context `{!UuidTextLaws H}.

Lemma wf_update_column cells t c0 :
  column_at l id t = Some c0 -> (due = true -> kind = Date) -> rewriting_ok cells t -> well_formed t ->
  well_formed_but None (Some l) (rewrite_cells_in l id cells (update_column_in id name kind options hidden due t)).
Proof.
  intros Hc0 Hdue [Hcells Hleft] [H1 H2 H3 H4 H5]. destruct H2 as [C1 C2 C3 C4 C5].
  rewrite (update_column_in_eq t c0) by done. set (t1 := set_list_columns (fmap column_after) t). unfold rewrite_cells_in.
  assert (E1 : list_columns t1 = column_after <$> list_columns t) by by destruct t.
  assert (Eat : forall l' id' c, column_at l' id' t = Some c -> column_at l' id' t1 = Some (column_after c)).
  { intros l' id' c [Hc Hl]%column_at_Some. apply column_at_Some. rewrite E1, lookup_fmap, Hc. split; [done|].
    destruct (column_after_facts c) as (_ & -> & _). done. }
  assert (Hcols : columns_wf t1).
  { constructor; rewrite ?E1.
    - apply keyed_fmap; [intros c; apply column_after_facts|done].
    - intros k d (c & Hc & ->)%lookup_fmap_inv. destruct (column_after_facts c) as (_ & -> & _). destruct t. by eapply C2.
    - intros k d (c & Hc & ->)%lookup_fmap_inv. unfold column_after. case_bool_decide; [cbn; auto|].
      destruct (due && _); [done|by eapply C3].
    - intros j k d e (c & Hc & ->)%lookup_fmap_inv (c' & Hc' & ->)%lookup_fmap_inv.
      destruct (column_after_facts c) as (_ & -> & _), (column_after_facts c') as (_ & -> & _). intros El.
      apply column_at_Some in Hc0 as [Hc0 Hl0].
      unfold column_after. rewrite (C1 _ _ Hc), (C1 _ _ Hc').
      destruct (decide (j = id)) as [->|Hj], (decide (k = id)) as [->|Hk]; [done|..];
        rewrite ?(bool_decide_eq_true_2 (id = id)), ?(bool_decide_eq_false_2 (j = id)), ?(bool_decide_eq_false_2 (k = id)) by done; cbn.
      + assert (c = c0) as -> by congruence. intros ->. rewrite bool_decide_eq_true_2 by congruence. done.
      + assert (c' = c0) as -> by congruence. intros Hd ->. revert Hd. rewrite bool_decide_eq_true_2 by congruence. done.
      + destruct (due && _); [done|]. destruct (due && _); [done|]. intros. by eapply C4.
    - intros l'. specialize (C5 l'). rewrite length_columns in C5 |- *. rewrite E1. etransitivity; [|exact C5]. apply rows_le.
      intros k d (c & Hc & ->)%lookup_fmap_inv. destruct (column_after_facts c) as (_ & -> & _). eauto. }
  assert (Hvals : values_only (rewrite_cell id cells)).
  { intros i. unfold rewrite_cell. by destruct (find _ _) as [[k []]|]. }
  constructor.
  - by destruct t.
  - by apply columns_wf_update_items.
  - apply items_wf_update_items; [done|]. apply (items_wf_same t); [by destruct t|done].
  - intros k j (i & Hi & ->)%find_update_items. assert (Hi' : find_item k t = Some i) by by destruct t.
    destruct (H4 k i Hi') as (m & Em & Hm).
    assert (Hothers : forall id' c w, column_at (ListItem.list_id i) id' t = Some c ->
        well_typed (ListColumn.kind c) (ListColumn.options c) w -> (id' <> id \/ ListItem.list_id i <> l) ->
        exists c', column_at (ListItem.list_id i) id' t1 = Some c' /\ well_typed (ListColumn.kind c') (ListColumn.options c') w).
    { intros id' c w Hc Ht Hne. exists (column_after c). split; [by apply Eat|].
      assert (ListColumn.id c <> id) as Hid.
      { apply column_at_Some in Hc as [Hc Hl], Hc0 as [Hc0 Hl0]. rewrite (C1 _ _ Hc). destruct Hne as [?|Hne]; [done|].
        intros ->. congruence. }
      destruct (column_after_facts c) as (_ & _ & Hs). destruct (Hs Hid) as [-> ->]. done. }
    assert (Hnew : forall w, well_typed kind options w -> ListItem.list_id i = l ->
        exists c', column_at (ListItem.list_id i) id t1 = Some c' /\ well_typed (ListColumn.kind c') (ListColumn.options c') w).
    { intros w Ht ->. exists (column_after c0). split; [by apply Eat|]. unfold column_after.
      apply column_at_Some in Hc0 as [Hc0 _]. rewrite (C1 _ _ Hc0). by rewrite bool_decide_eq_true_2. }
    case_bool_decide as Hl; cycle 1.
    { rewrite Em. exists m. split; [done|]. intros key w Hw. destruct (Hm key w Hw) as (id' & c & -> & Hc & Ht).
      destruct (Hothers id' c w Hc Ht) as (c' & Hc' & Ht'); [by right|]. exists id', c'. by rewrite column_at_update_items. }
    destruct (Hvals i) as (_ & -> & _). unfold rewrite_cell.
    destruct (find _ cells) as [[k' v]|] eqn:Hf.
    + apply find_some in Hf as [Hin _]. apply list_elem_of_In in Hin. destruct (Hcells _ Hin) as [Hv|Hv]; cbn in Hv.
      * subst v. cbn. rewrite Em. exists (assoc_remove (uuid_to_string id) m). split; [done|]. intros key w Hw.
        destruct (decide (key = uuid_to_string id)) as [->|Hne]; [by rewrite assoc_remove_eq in Hw|].
        rewrite assoc_remove_ne in Hw by done. destruct (Hm key w Hw) as (id' & c & -> & Hc & Ht).
        destruct (Hothers id' c w Hc Ht) as (c' & Hc' & Ht'); [left; congruence|]. exists id', c'. by rewrite column_at_update_items.
      * assert (Hset : values_ok (ListItem.list_id i) (update_items l (rewrite_cell id cells) t1)
            (jsonb_set (uuid_to_string id) v (ListItem.values i))).
        { rewrite Em. exists (assoc_insert (uuid_to_string id) v m). split; [done|]. intros key w Hw.
          destruct (decide (key = uuid_to_string id)) as [->|Hne].
          - rewrite assoc_insert_eq in Hw. injection Hw as ->. destruct (Hnew w Hv Hl) as (c' & Hc' & Ht').
            exists id, c'. by rewrite column_at_update_items.
          - rewrite assoc_insert_ne in Hw by done. destruct (Hm key w Hw) as (id' & c & -> & Hc & Ht).
            destruct (Hothers id' c w Hc Ht) as (c' & Hc' & Ht'); [left; congruence|]. exists id', c'. by rewrite column_at_update_items. }
        by destruct v; [destruct kind; cbn in Hv; naive_solver|..].
    + rewrite Em. exists m. split; [done|]. intros key w Hw. destruct (Hm key w Hw) as (id' & c & -> & Hc & Ht).
      destruct (decide (id' = id)) as [->|Hne].
      * assert (Hg : get (uuid_to_string id) (ListItem.values i) = Some w) by by rewrite Em.
        destruct (Hnew w (Hleft k i w Hi' Hl Hg Hf) Hl) as (c' & Hc' & Ht'). exists id, c'. by rewrite column_at_update_items.
      * destruct (Hothers id' c w Hc Ht) as (c' & Hc' & Ht'); [by left|]. exists id', c'. by rewrite column_at_update_items.
  - apply views_wf_update_items. destruct H5 as [V1 V2 V3 V4 V5].
    constructor; try by destruct t. intros k v Hv Hs. assert (Hv' : list_views t !! k = Some v) by by destruct t.
    eapply fits_mono; [|by apply (V3 k v)]. intros id' c. rewrite !find_column_at by (done || apply Hcols).
    intros Hc. exists (column_after c). split; [by apply Eat|].
    destruct (column_after_facts c) as (_ & _ & Hsame). apply Hsame. apply column_at_Some in Hc as [Hc Hcl], Hc0 as [Hc0 Hl0].
    rewrite (C1 _ _ Hc). intros ->. congruence.
Qed.
End update_column.

(** ** Items *)

Definition set_items_facts t (f : gmap Uuid (ListItem.t * option Z) -> gmap Uuid (ListItem.t * option Z)) : Prop :=
  list_columns (set_list_items f t) = list_columns t /\ list_views (set_list_items f t) = list_views t /\
  lists (set_list_items f t) = lists t /\ list_items (set_list_items f t) = f (list_items t).
Lemma set_items_eq t f : set_items_facts t f.
Proof. by destruct t. Qed.

(** A change of the items alone. *)
Lemma wf_set_items t f : well_formed t -> items_wf (set_list_items f t) ->
  (forall k i, find_item k (set_list_items f t) = Some i -> values_ok (ListItem.list_id i) t (ListItem.values i)) ->
  well_formed (set_list_items f t).
Proof.
  intros [H1 H2 H3 H4 H5] Hi Hv. destruct (set_items_eq t f) as (E1 & E2 & E3 & E4). constructor; [by destruct t| |done| |].
  - apply (columns_wf_same t); [done|by rewrite E3|done].
  - intros k i Hk. eapply values_ok_kept; [apply columns_kept_refl, E1|by eapply Hv].
  - apply (views_fit_kept t); try done; [apply H2|rewrite E1; apply H2|by apply columns_kept_refl].
Qed.

(** No other live item of the list has the rank. *)
Definition rank_free t l (id : Uuid) (r : str) : Prop :=
  forall k i, find_item k t = Some i -> ListItem.list_id i = l -> k <> id -> ListItem.rank i <> r.

Lemma wf_insert_item t i :
  list_items t !! ListItem.id i = None -> is_rank (ListItem.rank i) ->
  rank_free t (ListItem.list_id i) (ListItem.id i) (ListItem.rank i) ->
  item_count_in (ListItem.list_id i) t < MAX_ITEMS -> values_ok (ListItem.list_id i) t (ListItem.values i) ->
  well_formed t -> well_formed (insert_item i t).
Proof.
  intros Hn Hr Hfree Hc Hv Hwf. destruct (wf_items _ _ _ Hwf) as [I1 I2 I3 I4].
  assert (Hfind : forall k j, find_item k (insert_item i t) = Some j ->
    (k = ListItem.id i /\ j = i) \/ (k <> ListItem.id i /\ find_item k t = Some j)).
  { intros k j Hj%find_item_Some. destruct t; cbn in *.
    apply lookup_insert_Some in Hj as [[<- [= ->]]|[Hne Hk]]; [by left|right]. split; [done|by apply find_item_Some]. }
  apply wf_set_items; [done| |].
  - constructor.
    + destruct t. apply (keyed_insert (fun r : ListItem.t * option Z => ListItem.id r.1) _ (i, None)). done.
    + intros k j [[-> ->]|[_ Hj]]%Hfind; [done|by eapply I2].
    + intros j k a b [[-> ->]|[Hj Ha]]%Hfind [[-> ->]|[Hk Hb]]%Hfind Hl Hra; try done.
      * by destruct (Hfree k b Hb (eq_sym Hl) Hk).
      * by destruct (Hfree j a Ha Hl Hj).
      * by eapply I3.
    + intros l. specialize (I4 l). rewrite item_count_rows in I4 |- *. rewrite item_count_rows in Hc.
      destruct t as [ls cs vs is_ ms]. cbn in *. destruct (decide (ListItem.list_id i = l)) as [<-|Hne].
      * assert (Hle : (length (rows (live_in (ListItem.list_id i)) (<[ListItem.id i := (i, None)]> is_)) <=
                       S (length (rows (live_in (ListItem.list_id i)) is_)))%nat).
        { apply (rows_le_S _ _ _ _ (ListItem.id i)). intros k x [[<- _]|[_ Hk]]%lookup_insert_Some; eauto. }
        lia.
      * etransitivity; [|exact I4]. apply Nat2Z.inj_le, rows_le.
        intros k x [[_ <-]|[_ Hk]]%lookup_insert_Some; [by intros [_ ?]|eauto].
  - intros k j [[-> ->]|[_ Hj]]%Hfind; [done|by apply (wf_cells _ _ _ Hwf k)].
Qed.

Lemma find_update_item_row id f t k j : find_item k (update_item_row id f t) = Some j ->
  exists i, find_item k t = Some i /\ j = if bool_decide (k = id) then f i else i.
Proof.
  intros Hj%find_item_Some. destruct t as [ls cs vs is_ ms]. cbn in Hj. apply lookup_alter_inv in Hj as ([i d] & Hi & E).
  exists i. rewrite find_item_Some. cbn in *. case_bool_decide; by simplify_eq.
Qed.

Lemma wf_update_item_row t id f :
  (forall i, ListItem.id (f i) = ListItem.id i /\ ListItem.list_id (f i) = ListItem.list_id i) ->
  (forall i, find_item id t = Some i -> is_rank (ListItem.rank (f i)) /\
     rank_free t (ListItem.list_id i) id (ListItem.rank (f i)) /\ values_ok (ListItem.list_id i) t (ListItem.values (f i))) ->
  well_formed t -> well_formed (update_item_row id f t).
Proof.
  intros Hf Hlive Hwf. destruct (wf_items _ _ _ Hwf) as [I1 I2 I3 I4]. apply wf_set_items; [done| |].
  - constructor.
    + destruct t. apply (keyed_alter (fun r : ListItem.t * option Z => ListItem.id r.1)); [|done]. intros [i d]. apply Hf.
    + intros k j (i & Hi & ->)%find_update_item_row. case_bool_decide; [subst; by apply Hlive|by eapply I2].
    + intros j k a b (i & Hi & ->)%find_update_item_row (i' & Hi' & ->)%find_update_item_row.
      destruct (decide (j = id)) as [->|Hj], (decide (k = id)) as [->|Hk]; [done|..];
        rewrite ?(bool_decide_eq_true_2 (id = id)), ?(bool_decide_eq_false_2 (j = id)), ?(bool_decide_eq_false_2 (k = id)) by done.
      * destruct (Hf i) as [_ ->]. destruct (Hlive i Hi) as (_ & Hfree & _). intros Hl Hr. by destruct (Hfree k i' Hi' (eq_sym Hl) Hk).
      * destruct (Hf i') as [_ ->]. destruct (Hlive i' Hi') as (_ & Hfree & _). intros Hl Hr. by destruct (Hfree j i Hi Hl Hj).
      * by apply I3.
    + intros l. specialize (I4 l). rewrite item_count_rows in I4 |- *. etransitivity; [|exact I4]. apply Nat2Z.inj_le, rows_le.
      intros k [j d] Hj [Hd Hl]. destruct t as [ls cs vs is_ ms]. cbn in *. apply lookup_alter_inv in Hj as ([i d'] & Hi & E).
      exists (i, d'). split; [done|]. cbn in *. destruct (Hf i) as [_ Hfl]. case_bool_decide; simplify_eq; split; cbn in *; congruence.
  - intros k j (i & Hi & ->)%find_update_item_row. case_bool_decide as Hk; [subst k|by apply (wf_cells _ _ _ Hwf k)].
    destruct (Hf i) as [_ ->]. by apply Hlive.
Qed.

(** An update that keeps the rank keeps it free. *)
Lemma rank_kept_free t id i : well_formed t -> find_item id t = Some i -> rank_free t (ListItem.list_id i) id (ListItem.rank i).
Proof. intros Hwf Hi k j Hj Hl Hne Hr. apply Hne. by eapply (iw_distinct _ (wf_items _ _ _ Hwf)). Qed.

Lemma wf_delete_item t now id : well_formed t -> well_formed (delete_item_row now id t).
Proof.
  intros Hwf. destruct (wf_items _ _ _ Hwf) as [I1 I2 I3 I4].
  assert (Hfind : forall k j, find_item k (delete_item_row now id t) = Some j -> find_item k t = Some j).
  { intros k j Hj%find_item_Some. destruct t; cbn in *. apply lookup_alter_inv in Hj as ([i d] & Hi & E).
    apply find_item_Some. cbn in *. case_bool_decide; by simplify_eq. }
  apply wf_set_items; [done| |].
  - constructor.
    + destruct t. by apply (keyed_alter (fun r : ListItem.t * option Z => ListItem.id r.1)).
    + intros k j Hj%Hfind. by eapply I2.
    + intros j k a b Ha%Hfind Hb%Hfind. by apply I3.
    + intros l. specialize (I4 l). rewrite item_count_rows in I4 |- *. etransitivity; [|exact I4]. apply Nat2Z.inj_le, rows_le.
      intros k [j d] Hj [Hd Hl]. destruct t as [ls cs vs is_ ms]. cbn in *. apply lookup_alter_inv in Hj as ([i d'] & Hi & E).
      exists (i, d'). split; [done|]. cbn in *. case_bool_decide; simplify_eq; split; cbn in *; congruence.
  - intros k j Hj%Hfind. by apply (wf_cells _ _ _ Hwf k).
Qed.

(** ** Ranks between neighbours *)

Lemma items_of_sorted l t : StronglySorted item_le (items_of l t).
Proof. apply (StronglySorted_merge_sort _). Qed.

(** The last rank is the greatest. *)
Lemma last_rank_greatest l t k i :
  find_item k t = Some i -> ListItem.list_id i = l ->
  exists r, last_rank_in l t = Some r /\ (bytes_lt (ListItem.rank i) r \/ ListItem.rank i = r).
Proof.
  intros Hi Hl. assert (Hin : i ∈ items_of l t) by (apply elem_of_items; eauto). unfold last_rank_in.
  pose proof (items_of_sorted l t) as Hs. revert Hin. induction Hs as [|j js Hjs IH Hj]; [by intros ?%not_elem_of_nil|].
  intros [->|Hin]%elem_of_cons.
  - destruct js as [|x js']; [cbn; eauto|]. destruct (last (x :: js')) as [y|] eqn:E; [|by apply last_None in E].
    change (last (j :: x :: js')) with (last (x :: js')). rewrite E. exists (ListItem.rank y). split; [done|].
    apply last_Some_elem_of in E. rewrite Forall_forall in Hj. destruct (Hj y E) as [?|[? _]]; auto.
  - destruct (IH Hin) as (r & Hr & Hle). exists r. split; [|done]. destruct js as [|x js']; [by apply not_elem_of_nil in Hin|]. exact Hr.
Qed.

(** The first element that passes is the least that does. *)
Lemma head_filter_least {A} (R : relation A) (Q : A -> Prop) `{!forall x, Decision (Q x)} (xs : list A) x :
  StronglySorted R xs -> x ∈ xs -> Q x -> exists y, head (filter Q xs) = Some y /\ (y = x \/ R y x).
Proof.
  intros Hs. induction Hs as [|z xs Hs IH Hz]; [by intros ?%not_elem_of_nil|]. intros Hx HQ. rewrite filter_cons.
  case_decide as Hd.
  - exists z. split; [done|]. apply elem_of_cons in Hx as [->|Hx]; [by left|right]. rewrite Forall_forall in Hz. by apply Hz.
  - apply elem_of_cons in Hx as [->|Hx]; [done|]. by apply IH.
Qed.
Lemma head_filter_Some {A} (Q : A -> Prop) `{!forall x, Decision (Q x)} (xs : list A) y :
  head (filter Q xs) = Some y -> y ∈ xs /\ Q y.
Proof.
  intros Hh. assert (y ∈ filter Q xs) as [? ?]%list_elem_of_filter; [|done].
  destruct (filter Q xs); [done|]. injection Hh as ->. left.
Qed.

(** [r] is the rank [a], or sorts on the given side of it. *)
Definition at_or_below (r a : str) : Prop := bytes_lt r a \/ r = a.

(** The neighbours are two ranks in order with no other item between them. *)
Lemma neighbours_spec l after moving t low high :
  well_formed t -> neighbours_in l after moving t = Some (low, high) ->
  Rank.neighbours low high /\
  (forall k i, find_item k t = Some i -> ListItem.list_id i = l -> Some k <> moving ->
     (exists a, low = Some a /\ at_or_below (ListItem.rank i) a) \/
     (exists b, high = Some b /\ at_or_below b (ListItem.rank i))) /\
  low = (after ≫= fun a => ListItem.rank <$> find_item a t) /\ (forall a, after = Some a -> is_Some low).
Proof.
  intros Hwf. destruct (wf_items _ _ _ Hwf) as [I1 I2 I3 I4]. unfold neighbours_in. intros Hb.
  apply bind_Some in Hb as (low' & Hlow & Hb). injection Hb as <- Hhigh.
  assert (Ha : low' = (after ≫= fun a => ListItem.rank <$> find_item a t) /\ (forall a, after = Some a -> is_Some low') /\
      (forall b, low' = Some b -> is_rank b)).
  { destruct after as [a|]; [|injection Hlow as <-; done]. apply bind_Some in Hlow as (i & Hi & Hl).
    case_bool_decide; simplify_eq. cbn. rewrite Hi. split_and!; [done|eauto|]. intros b [= <-]. by eapply I2. }
  destruct Ha as (Ha & Hsome & Hrank). split_and!; try done.
  - split_and!; [done|..].
    + intros b Hhb. rewrite <-Hhigh in Hhb. apply fmap_Some in Hhb as (j & Hj & ->).
      apply head_filter_Some in Hj as [[_ [k Hj]]%elem_of_items _]. by eapply I2.
    + intros b c -> Hhb. rewrite <-Hhigh in Hhb. apply fmap_Some in Hhb as (j & Hj & ->).
      by apply head_filter_Some in Hj as [_ [Hbeyond _]].
  - intros k i Hi Hl Hmov.
    assert (Hid : ListItem.id i = k) by (apply find_item_Some in Hi; by apply (I1 _ _ Hi)).
    assert (Hhi : beyond low' i -> Some (ListItem.id i) <> after -> exists b, high = Some b /\ at_or_below b (ListItem.rank i)).
    { intros Hbe Hne. destruct (head_filter_least item_le
        (fun i => beyond low' i /\ Some (ListItem.id i) <> moving /\ Some (ListItem.id i) <> after) (items_of l t) i)
        as (y & Hy & Hle); [apply items_of_sorted|apply elem_of_items; eauto|split_and!; [done|congruence|done]|].
      exists (ListItem.rank y). rewrite <-Hhigh, Hy. split; [done|].
      destruct Hle as [->|[?|[? _]]]; [by right|by left|by right]. }
    destruct low' as [r|]; cycle 1.
    { right. apply Hhi; [done|]. intros E. by destruct (Hsome _ (eq_sym E)). }
    destruct (bytes_lt_total (ListItem.rank i) r) as [?|[?|Hlt]]; [left; exists r; split; [done|by left]|left; exists r; split; [done|by right]|].
    right. apply Hhi; [done|]. intros <-. cbn in Ha. rewrite Hid, Hi in Ha. injection Ha as ->. by apply bytes_lt_irrefl in Hlt.
Qed.

(** A rank between two neighbours is free, and good. *)
Lemma between_free l after moving id t low high :
  well_formed t -> neighbours_in l after moving t = Some (low, high) -> (moving = None \/ moving = Some id) ->
  is_rank (between low high) /\ rank_free t l id (between low high).
Proof.
  intros Hwf Hn Hmov. destruct (neighbours_spec _ _ _ _ _ _ Hwf Hn) as (Hnb & Hgap & _ & _).
  destruct (between_separates _ _ Hnb) as (Hr & Hlo & Hhi). split; [done|].
  intros k i Hi Hl Hne E.
  assert (Hm : Some k <> moving) by (destruct Hmov as [->| ->]; congruence).
  destruct (Hgap k i Hi Hl Hm) as [(a & -> & Ha)|(b & -> & Hb)].
  - rewrite <-E in Hlo. change (default [] (Some a)) with a in Hlo. destruct Ha as [Ha|Ha]; [|rewrite Ha in Hlo; by apply bytes_lt_irrefl in Hlo].
    by apply (bytes_lt_irrefl a), (bytes_lt_trans _ _ _ Hlo).
  - specialize (Hhi b eq_refl). rewrite <-E in Hhi. destruct Hb as [Hb|Hb]; [|rewrite <-Hb in Hhi; by apply bytes_lt_irrefl in Hhi].
    by apply (bytes_lt_irrefl b), (bytes_lt_trans _ _ _ Hb).
Qed.

Lemma last_free l id t :
  well_formed t -> is_rank (between (last_rank_in l t) None) /\ rank_free t l id (between (last_rank_in l t) None).
Proof.
  intros Hwf. destruct (wf_items _ _ _ Hwf) as [I1 I2 I3 I4].
  destruct (between_above (last_rank_in l t)) as [Hr Hlo].
  { unfold last_rank_in. intros b (i & Hi & ->)%fmap_Some. apply last_Some_elem_of in Hi.
    apply elem_of_items in Hi as [_ [k Hk]]. by eapply I2. }
  split; [done|]. intros k i Hi Hl _ E. destruct (last_rank_greatest l t k i Hi Hl) as (r & Hlast & Hle).
  specialize (Hlo r Hlast). rewrite <-E in Hlo. destruct Hle as [Hle|Hle].
  - by apply (bytes_lt_irrefl r), (bytes_lt_trans _ _ _ Hlo).
  - rewrite Hle in Hlo. by apply bytes_lt_irrefl in Hlo.
Qed.
End invariant.
