(* ===== verification/Mentions.v ===== *)
(** * Mentions in a message
    ([backend/api/src/messaging/routes.rs], [workflows/runner.rs])

    A mention is written [@[name](target)] in the text of a message, where the
    target is a person, [group:<id>], or one of [channel], [everyone] and
    [here]; the last three are also read as bare words.  The targets are read
    out of the text by a scan over what remains of it. *)

From stdpp Require Import base tactics option numbers list sorting.
From Stdlib Require Import ZArith Lia String Ascii.
From S2P Require Import Prelude RustStr.

(** [char::is_alphanumeric], a table of the standard library. *)
Class Alphanumeric := { is_alphanumeric : char -> bool }.

(** [str::find] of a pattern: what follows its first occurrence, and what
    precedes it. *)
Fixpoint find_split (p s : str) : option (str * str) :=
  match strip_prefix p s with
  | Some r => Some ([], r)
  | None => match s with
            | [] => None
            | c :: s => '(a, b) ← find_split p s; Some (c :: a, b)
            end
  end.

Definition AT : str := $"@[".
Definition MID : str := $"](".
Definition END_ : str := $")".

Section mentions.
Context `{UuidText}.

(** One round of the scan: the target of the next mention, and what follows it. *)
Definition next_target (remaining : str) : option (str * str) :=
  '(_, remaining) ← find_split AT remaining;
  '(_, remaining) ← find_split MID remaining;
  find_split END_ remaining.

(** The loops: [None] when the fuel ran out. *)
Fixpoint extract_loop (fuel : nat) (remaining : str) (ids : list Uuid) : option (list Uuid) :=
  match fuel with
  | O => None
  | S fuel =>
      match next_target remaining with
      | None => Some ids
      | Some (id, remaining) =>
          extract_loop fuel remaining (match uuid_parse (trim id) with Some u => ids ++ [u] | None => ids end)
      end
  end.
Definition extract_mentioned_user_ids (content : str) : list Uuid :=
  default [] (extract_loop (S (length content)) content []).

Fixpoint targets_loop (fuel : nat) (remaining : str) (targets : list str) : option (list str) :=
  match fuel with
  | O => None
  | S fuel =>
      match next_target remaining with
      | None => Some targets
      | Some (id, remaining) => targets_loop fuel remaining (targets ++ [trim id])
      end
  end.
Definition mention_targets (content : str) : list str :=
  default [] (targets_loop (S (length content)) content []).

(** [ids.sort(); ids.dedup()] *)
Definition sort_ids (ids : list Uuid) : list Uuid := dedup (merge_sort N.le ids).

Definition extract_group_mentions (content : str) : list Uuid :=
  sort_ids (omap (fun target => strip_prefix ($"group:") target ≫= uuid_parse) (mention_targets content)).

(** [mention_of] once the name is known. *)
Definition mention (name : str) (u : Uuid) : str := AT ++ name ++ MID ++ uuid_to_string u ++ END_.
End mentions.

(** ** Broadcasts *)

Record BroadcastMentions := { broadcast_channel : bool; broadcast_here : bool }.
Definition any (b : BroadcastMentions) : bool := broadcast_channel b || broadcast_here b.

Section broadcasts.
Context `{Alphanumeric}.

Definition before_ok (c : option char) : bool :=
  match c with None => true | Some c => (c =? 32) || (c =? 10) || (c =? 40) end.
Definition after_ok (c : option char) : bool :=
  match c with None => true | Some c => negb (is_alphanumeric c || (c =? 95)) end.

(** The loop of [contains_bare_mention] from a place whose character before is
    known; [None] when the fuel ran out. *)
Fixpoint bare_loop (needle : str) (fuel : nat) (before : option char) (rest : str) : option bool :=
  match fuel with
  | O => None
  | S fuel =>
      match find_split needle rest with
      | None => Some false
      | Some (skipped, rest) =>
          if before_ok (match last skipped with Some c => Some c | None => before end) && after_ok (head rest) then Some true
          else bare_loop needle fuel (last needle) rest
      end
  end.
Definition contains_bare_mention (content word : str) : bool :=
  default false (bare_loop ($"@" ++ word) (S (length content)) None content).

Definition extract_broadcast_mentions (content : str) : BroadcastMentions :=
  let named word := bool_decide (word ∈ mention_targets content) || contains_bare_mention content word in
  {| broadcast_channel := named ($"channel") || named ($"everyone"); broadcast_here := named ($"here") |}.
Definition mentions_everyone (content : str) : bool := any (extract_broadcast_mentions content).
End broadcasts.

Lemma find_split_Some p s a b : find_split p s = Some (a, b) -> s = a ++ p ++ b.
Proof.
  revert a b. induction s as [|c s IH]; cbn [find_split]; intros a b.
  - destruct (strip_prefix p []) as [r|] eqn:E; [|done]. intros [= <- <-]. by apply strip_prefix_Some in E.
  - destruct (strip_prefix p (c :: s)) as [r|] eqn:E.
    + intros [= <- <-]. by apply strip_prefix_Some in E.
    + intros ([a' b'] & Hf & [= <- <-])%bind_Some. by rewrite (IH _ _ Hf).
Qed.

Lemma find_split_shorter p s a b : find_split p s = Some (a, b) -> (length b + length p <= length s)%nat.
Proof. intros ->%find_split_Some. rewrite !length_app. lia. Qed.

Lemma next_target_shorter s id r : next_target s = Some (id, r) -> (length r < length s)%nat.
Proof.
  unfold next_target. intros ([a s1] & E1%find_split_shorter & ([b s2] & E2%find_split_shorter & E3%find_split_shorter)%bind_Some)%bind_Some.
  assert (length AT = 2%nat) as HA by done. lia.
Qed.

(** ** The scan ends, whatever the text *)

(** The targets of a text, by the rounds of the scan. *)
Inductive scan : str -> list str -> Prop :=
| scan_end s : next_target s = None -> scan s []
| scan_next s id r ids : next_target s = Some (id, r) -> scan r ids -> scan s (id :: ids).

Lemma scan_total s : exists ids, scan s ids.
Proof.
  induction s as [s IH] using (well_founded_induction (Wf_nat.well_founded_ltof _ length)).
  destruct (next_target s) as [[id r]|] eqn:E; [|exists []; by constructor].
  destruct (IH r) as [ids Hids]; [by eapply next_target_shorter|]. exists (id :: ids). by econstructor.
Qed.

Lemma targets_loop_scan s ids : scan s ids -> forall fuel acc, (length s < fuel)%nat ->
  targets_loop fuel s acc = Some (acc ++ (trim <$> ids)).
Proof.
  induction 1 as [s E|s id r ids E Hs IH]; intros [|fuel] acc Hf; try lia; cbn; rewrite E; [by rewrite app_nil_r|].
  rewrite IH by (apply next_target_shorter in E; lia). by rewrite <-app_assoc.
Qed.

Lemma extract_loop_scan `{UuidText} s ids : scan s ids -> forall fuel acc, (length s < fuel)%nat ->
  extract_loop fuel s acc = Some (acc ++ omap (fun id => uuid_parse (trim id)) ids).
Proof.
  induction 1 as [s E|s id r ids E Hs IH]; intros [|fuel] acc Hf; try lia; cbn; rewrite E; [by rewrite app_nil_r|].
  rewrite IH by (apply next_target_shorter in E; lia). cbn. destruct (uuid_parse (trim id)); [by rewrite <-app_assoc|done].
Qed.

Lemma mention_targets_scan s ids : scan s ids -> mention_targets s = trim <$> ids.
Proof. intros Hs. unfold mention_targets. by rewrite (targets_loop_scan s ids Hs) by lia. Qed.
Lemma extract_scan `{UuidText} s ids : scan s ids -> extract_mentioned_user_ids s = omap (fun id => uuid_parse (trim id)) ids.
Proof. intros Hs. unfold extract_mentioned_user_ids. by rewrite (extract_loop_scan s ids Hs) by lia. Qed.

(** The scans for mentions end on every text, and read the same mentions.
    However many more rounds than the text has characters are allowed, neither
    loop runs out of them and the answer is the same; the people mentioned are
    the targets that are identifiers, in the order they are written, repeated
    as often as they are. *)
Theorem mention_scans_end : forall `{UuidText} content fuel, (length content < fuel)%nat ->
  targets_loop fuel content [] = Some (mention_targets content) /\
  extract_loop fuel content [] = Some (extract_mentioned_user_ids content) /\
  extract_mentioned_user_ids content = omap uuid_parse (mention_targets content).
Proof.
  intros HU content fuel Hf. destruct (scan_total content) as [ids Hs].
  rewrite (targets_loop_scan _ _ Hs), (extract_loop_scan _ _ Hs), (mention_targets_scan _ _ Hs), (extract_scan _ _ Hs) by done.
  split_and!; [done..|]. clear. induction ids as [|id ids IH]; [done|]. cbn. by destruct (uuid_parse (trim id)); rewrite IH.
Qed.

(** ** Where a pattern is found first *)

Lemma find_split_first p s a b : find_split p s = Some (a, b) -> forall a' b', s = a' ++ p ++ b' -> (length a <= length a')%nat.
Proof.
  revert a b. induction s as [|c s IH]; intros a b; cbn [find_split]; destruct (strip_prefix p _) as [r|] eqn:E; try done;
    try (intros [= <- _]; cbn; lia).
  intros ([a0 b0] & Hf & [= <- _])%bind_Some [|c' a'] b' Hs; cbn in *.
  - assert (strip_prefix p (c :: s) = Some b') as E' by (by apply strip_prefix_Some). congruence.
  - injection Hs as _ Hs. apply (IH _ _ Hf) in Hs. lia.
Qed.

Lemma find_split_None p s : find_split p s = None -> forall a b, s <> a ++ p ++ b.
Proof.
  induction s as [|c s IH]; cbn [find_split]; destruct (strip_prefix p _) as [r|] eqn:E; try done.
  - intros _ [|x a] b Hs; [|done]. assert (strip_prefix p [] = Some b) as E' by (by apply strip_prefix_Some). congruence.
  - intros Hf [|x a] b Hs; cbn in *.
    + assert (strip_prefix p (c :: s) = Some b) as E' by (by apply strip_prefix_Some). congruence.
    + injection Hs as _ Hs. destruct (find_split p s) as [[]|] eqn:E'; [done|]. by eapply IH.
Qed.

(** A pattern whose first character is not repeated does not overlap itself. *)
Lemma no_overlap (x : char) (w r a b : str) : x ∉ w -> (x :: w) ++ r = a ++ (x :: w) ++ b -> a = [] \/ exists k, a = (x :: w) ++ k.
Proof.
  intros Hx [(k & E1 & E2)|(k & -> & _)]%app_eq_inv; [|eauto].
  destruct a as [|y a]; [by left|]. injection E1 as -> E1. right. destruct k as [|c k].
  - exists []. rewrite app_nil_r in *. by subst.
  - injection E2 as -> _. exfalso. apply Hx. rewrite E1. apply elem_of_app. right. left.
Qed.

Lemma find_split_here (x : char) (w a b : str) : x ∉ w -> find_split (x :: w) a = None -> find_split (x :: w) (a ++ (x :: w) ++ b) = Some (a, b).
Proof.
  intros Hx. induction a as [|c a IH]; intros Ha.
  - assert (strip_prefix (x :: w) ((x :: w) ++ b) = Some b) as E by (by apply strip_prefix_Some).
    cbn [app] in *. cbn [find_split]. by rewrite E.
  - rewrite <-app_comm_cons. cbn [find_split]. destruct (strip_prefix (x :: w) (c :: a ++ _)) as [r|] eqn:E.
    + apply strip_prefix_Some in E. symmetry in E. destruct (no_overlap x w r (c :: a) b Hx E) as [|[k Hk]]; [done|].
      by destruct (find_split_None _ _ Ha [] k).
    + cbn [find_split] in Ha. destruct (strip_prefix (x :: w) (c :: a)); [done|].
      destruct (find_split (x :: w) a) as [[]|]; [done|]. by rewrite IH.
Qed.

(** ** Bare words *)

Section bare.
Context `{Alphanumeric}.

(** [word] stands at a place of the text with an at sign before it, where a
    mention may begin and end. *)
Definition bare_in (before : option char) (needle rest : str) : Prop :=
  exists a b, rest = a ++ needle ++ b /\ before_ok (match last a with Some c => Some c | None => before end) = true /\
    after_ok (head b) = true.

Lemma bare_loop_spec (x : char) (w : str) fuel before rest : x ∉ w -> (length rest < fuel)%nat ->
  exists r, bare_loop (x :: w) fuel before rest = Some r /\ (r = true <-> bare_in before (x :: w) rest).
Proof.
  intros Hx. revert before rest. induction fuel as [|fuel IH]; intros before rest Hf; [lia|]. cbn [bare_loop].
  destruct (find_split (x :: w) rest) as [[a1 r1]|] eqn:E.
  2: { exists false. split; [done|]. split; [done|]. intros (a & b & Hr & _). by destruct (find_split_None _ _ E a b). }
  pose proof (find_split_Some _ _ _ _ E) as Hrest. destruct (_ && _) eqn:Hok.
  { apply andb_true_iff in Hok as [H1 H2]. exists true. split; [done|]. split; [|done]. intros _. by exists a1, r1. }
  destruct (IH (last (x :: w)) r1) as (r & Hr & Hspec); [apply find_split_shorter in E; cbn in E; lia|].
  exists r. split; [done|]. rewrite Hspec. split.
  - intros (a & b & -> & Hb & Ha). exists (a1 ++ (x :: w) ++ a), b. split; [by rewrite Hrest, <-!app_assoc|]. split; [|done].
    rewrite !last_app. destruct (last a); [done|]. destruct (last (x :: w)) eqn:El; [done|]. by apply last_None in El.
  - intros (a & b & Hr2 & Hb & Ha). pose proof (find_split_first _ _ _ _ E _ _ Hr2) as Hle. rewrite Hrest in Hr2.
    apply app_eq_inv in Hr2 as [(k & -> & Hk)|(k & -> & Hk)].
    + rewrite length_app in Hle. destruct k; [|cbn in Hle; lia]. rewrite app_nil_r in *. cbn [app] in Hk.
      apply (app_inv_head (x :: w)) in Hk as ->. rewrite Hb, Ha in Hok. done.
    + destruct (no_overlap x w r1 k b Hx Hk) as [->|[k' ->]].
      { apply (app_inv_head (x :: w)) in Hk as ->. rewrite app_nil_r in Hb. rewrite Hb, Ha in Hok. done. }
      exists k', b. rewrite <-app_assoc in Hk. apply app_inv_head in Hk as ->. split; [done|]. split; [|done].
      rewrite !last_app in Hb. destruct (last k'); [done|]. destruct (last (x :: w)) eqn:El; [done|]. by apply last_None in El.
Qed.

Lemma contains_bare_mention_spec content (word : str) : 64 ∉ word ->
  contains_bare_mention content word = true <-> bare_in None ($"@" ++ word) content.
Proof.
  intros Hw. unfold contains_bare_mention. change ($"@" ++ word) with (64 :: word).
  destruct (bare_loop_spec 64 word (S (length content)) None content Hw) as (r & -> & Hr); [lia|]. exact Hr.
Qed.

(** A message addresses everybody exactly when it says so: a bare
    [@channel], [@everyone] or [@here] stands somewhere in it, at the start or
    after a space, a line break or an opening parenthesis, and not before a
    letter, a digit or an underscore, or a mention targets the word.  The
    search finds such a place wherever it is, after any number of places that
    do not count. *)
Theorem broadcasts_are_read : forall content,
  let says word := bare_in None ($"@" ++ word) content \/ word ∈ mention_targets content in
  (broadcast_channel (extract_broadcast_mentions content) = true <-> says ($"channel") \/ says ($"everyone")) /\
  (broadcast_here (extract_broadcast_mentions content) = true <-> says ($"here")) /\
  (mentions_everyone content = true <-> says ($"channel") \/ says ($"everyone") \/ says ($"here")).
Proof.
  intros content says.
  assert (Hsays : forall word, 64 ∉ word ->
    bool_decide (word ∈ mention_targets content) || contains_bare_mention content word = true <-> says word).
  { intros word Hw. unfold says. rewrite orb_true_iff, bool_decide_eq_true, (contains_bare_mention_spec _ _ Hw). tauto. }
  assert (Hc := Hsays ($"channel") ltac:(vm_compute; set_solver)). assert (He := Hsays ($"everyone") ltac:(vm_compute; set_solver)).
  assert (Hh := Hsays ($"here") ltac:(vm_compute; set_solver)).
  unfold mentions_everyone, any, extract_broadcast_mentions. cbn [broadcast_channel broadcast_here].
  rewrite !(orb_true_iff (_ || _) (_ || _)), Hc, He, Hh. tauto.
Qed.
End bare.

(** ** Mentions read back *)

(** Documented behaviour of the crate: an identifier is displayed in hexadecimal
    digits and hyphens. *)
Class UuidPlain (U : UuidText) := {
  uuid_plain : forall u, Forall (fun c => is_ascii_digit c || ((97 <=? c) && (c <=? 102)) || (c =? 45) = true) (uuid_to_string u);
}.

(** A text with mentions in it: what stands before each, its name and person. *)
Fixpoint weave `{UuidText} (ps : list (str * (str * Uuid))) (rest : str) : str :=
  match ps with
  | [] => rest
  | (text, (name, u)) :: ps => text ++ mention name u ++ weave ps rest
  end.

Section read_back.
Context `{U : UuidText} `{!UuidTextLaws U} `{!UuidPlain U}.

Lemma uuid_lacks u c : is_ascii_digit c || ((97 <=? c) && (c <=? 102)) || (c =? 45) = false -> c ∉ uuid_to_string u.
Proof. intros Hc Hin. pose proof (proj1 (Forall_forall _ _) (uuid_plain u) c Hin) as Hp. cbn in Hp. congruence. Qed.

Lemma find_split_lacking (x : char) (w s : str) : x ∉ s -> find_split (x :: w) s = None.
Proof.
  intros Hx. destruct (find_split (x :: w) s) as [[a b]|] eqn:E; [|done]. apply find_split_Some in E as ->. set_solver.
Qed.

Lemma uuid_trim u : trim (uuid_to_string u) = uuid_to_string u.
Proof.
  apply trim_fixed. eapply Forall_impl; [apply uuid_plain|]. intros c Hp. cbn in Hp. unfold is_ascii_digit in Hp.
  unfold is_whitespace. rewrite !orb_true_iff, !andb_true_iff, !Z.leb_le, !Z.eqb_eq in Hp. rewrite !orb_false_iff, !andb_false_iff, !Z.leb_gt, !Z.eqb_neq. lia.
Qed.

Lemma next_target_mention text name u rest : find_split AT text = None -> find_split MID name = None ->
  next_target (text ++ mention name u ++ rest) = Some (uuid_to_string u, rest).
Proof.
  intros Ht Hn. unfold next_target, mention. rewrite <-!app_assoc.
  change AT with (64 :: [91]) in *. change MID with (93 :: [40]) in *. change END_ with [41].
  rewrite find_split_here; [cbn [mbind option_bind]|set_solver|done].
  rewrite find_split_here; [cbn [mbind option_bind]|set_solver|done].
  apply (find_split_here 41 []); [set_solver|]. by apply find_split_lacking, uuid_lacks.
Qed.

Lemma next_target_plain text : find_split AT text = None -> next_target text = None.
Proof. intros E. unfold next_target. by rewrite E. Qed.

Lemma scan_weave ps rest :
  Forall (fun p => find_split AT p.1 = None /\ find_split MID p.2.1 = None) ps -> find_split AT rest = None ->
  scan (weave ps rest) ((fun p => uuid_to_string p.2.2) <$> ps).
Proof.
  intros Hps Hr. induction Hps as [|[text [name u]] ps [Ht Hn] _ IH]; [by apply scan_end, next_target_plain|].
  cbn. eapply scan_next; [by apply next_target_mention|done].
Qed.

(** Mentions read back.  From a text with any number of mentions in it, the
    scan reads the people mentioned, in order, when the text around the mentions
    has no [@[] of its own and no name has a [](] in it. *)
Theorem mentions_read_back : forall ps rest,
  Forall (fun p => find_split AT p.1 = None /\ find_split MID p.2.1 = None) ps -> find_split AT rest = None ->
  extract_mentioned_user_ids (weave ps rest) = (fun p => p.2.2) <$> ps.
Proof.
  intros ps rest Hps Hr. rewrite (extract_scan _ _ (scan_weave _ _ Hps Hr)). clear Hps Hr.
  induction ps as [|p ps IH]; [done|]. rewrite !fmap_cons. cbn [omap list_omap]. by rewrite uuid_trim, uuid_parse_to_string, IH.
Qed.

(** A name can mention somebody else.  The mention of a person whose name
    ends in [](id)] with the identifier of another is a mention of the other and
    not of the person. *)
Theorem a_name_can_mention_somebody_else : forall name u v, find_split MID name = None ->
  extract_mentioned_user_ids (mention (name ++ MID ++ uuid_to_string v ++ END_) u) = [v].
Proof.
  intros name u v Hn.
  assert (Hs : scan (mention (name ++ MID ++ uuid_to_string v ++ END_) u) [uuid_to_string v]).
  { eapply scan_next.
    - assert (mention (name ++ MID ++ uuid_to_string v ++ END_) u = [] ++ mention name v ++ (MID ++ uuid_to_string u ++ END_)) as ->
        by (unfold mention; by rewrite <-!app_assoc). by apply next_target_mention.
    - apply scan_end, next_target_plain. apply find_split_lacking. pose proof (uuid_lacks u 64 eq_refl).
      change MID with [93; 40]. change END_ with [41]. set_solver. }
  rewrite (extract_scan _ _ Hs). cbn. by rewrite uuid_trim, uuid_parse_to_string.
Qed.
End read_back.

(** ** Samples *)

(** Identifiers in unary. *)
Module SampleMentions.
#[export] Instance unary : UuidText := {
  uuid_parse s := if forallb (Z.eqb 97) s then Some (N.of_nat (length s)) else None;
  uuid_to_string u := repeat 97 (N.to_nat u);
}.
#[export] Instance unary_laws : UuidTextLaws unary.
Proof.
  constructor. intros u. cbn. assert (forallb (Z.eqb 97) (repeat 97 (N.to_nat u)) = true) as ->
    by (induction (N.to_nat u); done). by rewrite repeat_length, N2Nat.id.
Qed.
#[export] Instance unary_plain : UuidPlain unary.
Proof. constructor. intros u. cbn. induction (N.to_nat u); by constructor. Qed.
Definition sample : list (str * (str * Uuid)) := [($"hi ", ($"Ana [dev]", 3%N)); ($" and @", ($"Bo", 5%N))].
End SampleMentions.
#[local] Existing Instances SampleMentions.unary SampleMentions.unary_laws SampleMentions.unary_plain.

Lemma mention_scans_end_witness :
  extract_loop 100 ($"no @[label](aa) and @[half](") [] = Some [2%N] /\ mention_targets ($"@[half](") = [].
Proof.
  split; [|vm_compute; reflexivity].
  destruct (mention_scans_end ($"no @[label](aa) and @[half](") 100) as (_ & E & _); [vm_compute; lia|exact E].
Defined.

Lemma mentions_read_back_witness :
  extract_mentioned_user_ids (weave SampleMentions.sample ($" soon")) = [3%N; 5%N].
Proof.
  refine (mentions_read_back SampleMentions.sample ($" soon") _ eq_refl).
  repeat constructor.
Defined.

Lemma a_name_can_mention_somebody_else_witness :
  extract_mentioned_user_ids (mention ($"Eve](aaaaa)") 3%N) = [5%N].
Proof. exact (a_name_can_mention_somebody_else ($"Eve") 3%N 5%N eq_refl). Defined.
