(* ===== verification/ApiState.v ===== *)
(** * State and effects of the API

    A request handler reaches the services it shares with other processes (the
    tables, Redis) one call at a time.  [SvcWorld D] is the shared state and the
    schedule: before every call the other processes take steps, and the call
    may be refused or lose its reply.  [follows] is the rely-guarantee calculus
    the safety proofs use: what others are relied upon to do is what the
    handler itself is shown to do. *)

From stdpp Require Import base tactics option list.
From Stdlib Require Import ZArith Lia String Ascii.
From S2P Require Import Prelude RustStr Errors.

(** How a call fails, with the text of the error. *)
Inductive svc_fault := CallRefused (text : str) | ReplyLost (text : str).

Definition fault_text (f : svc_fault) : str :=
  match f with CallRefused t | ReplyLost t => t end.

Record SvcTick (D : Type) := { others : D -> D; call_fault : option svc_fault }.
Arguments others {D} _ _.
Arguments call_fault {D} _.

Record SvcWorld (D : Type) := { shared : D; agenda : list (SvcTick D) }.
Arguments shared {D} _.
Arguments agenda {D} _.

Definition Svc (D A : Type) : Type := SvcWorld D -> A * SvcWorld D.

#[export] Instance Svc_ret D : MRet (Svc D) := fun A a w => (a, w).
#[export] Instance Svc_bind D : MBind (Svc D) := fun A B f m w => let '(a, w') := m w in f a w'.

(** [?]: an error ends the handler. *)
Definition and_then {D E A B} (m : Svc D (result E A)) (f : A -> Svc D (result E B)) : Svc D (result E B) :=
  r ← m; match r with Ok a => f a | Err e => mret (Err e) end.
Notation "x ←? m ; k" := (and_then m (fun x => k)) (at level 20, m at level 100, k at level 200, right associativity).

Section svc.
Context {D : Type}.
Implicit Types (w : SvcWorld D).

Definition svc_call {A} (op : D -> D * A) : Svc D (result svc_fault A) := fun w =>
  let '(d, f, s) := match agenda w with
                    | [] => (shared w, None, [])
                    | t :: s => (others t (shared w), call_fault t, s)
                    end in
  match f with
  | Some (CallRefused t) => (Err (CallRefused t), {| shared := d; agenda := s |})
  | Some (ReplyLost t) => (Err (ReplyLost t), {| shared := (op d).1; agenda := s |})
  | None => let '(d', a) := op d in (Ok a, {| shared := d'; agenda := s |})
  end.

Definition svc_read {A} (q : D -> A) : Svc D (result svc_fault A) := svc_call (fun d => (d, q d)).
Definition svc_write (op : D -> D) : Svc D (result svc_fault unit) := svc_call (fun d => (op d, tt)).

(** A query of the database: [sqlx::Error] becomes [AppError::Database]. *)
Definition sql {A} (op : D -> D * A) : Svc D (AppResult A) :=
  r ← svc_call op;
  mret (match r with Ok a => Ok a | Err f => Err (Database (fault_text f)) end).
Definition sql_read {A} (q : D -> A) : Svc D (AppResult A) := sql (fun d => (d, q d)).

Definition svc_gets {A} (q : D -> A) : Svc D A := fun w => (q (shared w), w).

Fixpoint svc_each {A} (l : list A) (f : A -> Svc D unit) : Svc D unit :=
  match l with
  | [] => mret tt
  | x :: l => _ ← f x; svc_each l f
  end.

(** ** Rely and guarantee *)

(** The others' part of every step to come is in [Rel]. *)
Definition rely (Rel : relation D) w : Prop := Forall (fun t => forall d, Rel d (others t d)) (agenda w).

Definition follows {A} (Rel : relation D) (m : Svc D A) : Prop :=
  forall w, rely Rel w -> Rel (shared w) (shared (m w).2) /\ rely Rel (m w).2.

Section rel.
Context (Rel : relation D) `{!PreOrder Rel}.

Lemma follows_ret {A} (a : A) : follows Rel (mret a).
Proof. intros w Hw. split; [reflexivity|exact Hw]. Qed.

Lemma follows_gets {A} (q : D -> A) : follows Rel (svc_gets q).
Proof. intros w Hw. split; [reflexivity|exact Hw]. Qed.

Lemma follows_bind {A B} (m : Svc D A) (f : A -> Svc D B) :
  follows Rel m -> (forall a, follows Rel (f a)) -> follows Rel (m ≫= f).
Proof.
  intros Hm Hf w Hw. unfold mbind, Svc_bind. destruct (Hm w Hw) as [H1 H2].
  destruct (m w) as [a w']. cbn [snd] in *. destruct (Hf a w' H2) as [H3 H4].
  split; [by etransitivity|done].
Qed.

Lemma follows_call {A} (op : D -> D * A) : (forall d, Rel d (op d).1) -> follows Rel (svc_call op).
Proof.
  intros Hop w Hw. unfold svc_call, rely in *. destruct (agenda w) as [|t s] eqn:E.
  - pose proof (Hop (shared w)) as H. destruct (op (shared w)) as [d a]. split; [exact H|]. constructor.
  - apply Forall_cons in Hw as [Ht Hs]. specialize (Ht (shared w)). pose proof (Hop (others t (shared w))) as H.
    destruct (call_fault t) as [[]|]; cbn.
    + done.
    + split; [by etransitivity|done].
    + destruct (op _) as [d a]. cbn in *. split; [by etransitivity|done].
Qed.

Lemma follows_each {A} (l : list A) (f : A -> Svc D unit) :
  (forall x, x ∈ l -> follows Rel (f x)) -> follows Rel (svc_each l f).
Proof.
  induction l as [|x l IH]; intros Hf; cbn; [apply follows_ret|].
  apply follows_bind; [apply Hf; left|]. intros _. apply IH. intros y Hy. apply Hf. by right.
Qed.
End rel.

(** ** Rely and guarantee under a stable precondition *)

(** From a state where [P] holds the handler follows [Rel] and ends where [Q]
    holds of its answer. *)
Definition triple {A} (Rel : relation D) (P : D -> Prop) (m : Svc D A) (Q : A -> D -> Prop) : Prop :=
  forall w, rely Rel w -> P (shared w) ->
    Rel (shared w) (shared (m w).2) /\ rely Rel (m w).2 /\ Q (m w).1 (shared (m w).2).

(** What holds stays true whatever the others do. *)
Definition stable (Rel : relation D) (P : D -> Prop) : Prop := forall d d', Rel d d' -> P d -> P d'.

Section triples.
Context (Rel : relation D) `{!PreOrder Rel}.

Lemma triple_ret {A} (P : D -> Prop) (a : A) (Q : A -> D -> Prop) :
  (forall d, P d -> Q a d) -> triple Rel P (mret a) Q.
Proof. intros HPQ w Hw HP. split; [reflexivity|]. split; [exact Hw|by apply HPQ]. Qed.

Lemma triple_bind {A B} P (m : Svc D A) (f : A -> Svc D B) Q S :
  triple Rel P m Q -> (forall a, triple Rel (Q a) (f a) S) -> triple Rel P (m ≫= f) S.
Proof.
  intros Hm Hf w Hw HP. destruct (Hm w Hw HP) as (H1 & H2 & H3).
  unfold mbind, Svc_bind. destruct (m w) as [a w']. cbn [fst snd] in *.
  destruct (Hf a w' H2 H3) as (H4 & H5 & H6). split; [by etransitivity|done].
Qed.

Lemma triple_call {A} P (op : D -> D * A) (Q : result svc_fault A -> D -> Prop) :
  stable Rel P -> (forall d, P d -> Rel d (op d).1) ->
  (forall d, P d -> Q (Ok (op d).2) (op d).1) ->
  (forall d f, P d -> Q (Err f) d /\ Q (Err f) (op d).1) ->
  triple Rel P (svc_call op) Q.
Proof.
  intros Hst Hop Hok Herr w Hw HP. unfold svc_call, rely in *. destruct (agenda w) as [|t s] eqn:E.
  - pose proof (Hop _ HP) as H1. pose proof (Hok _ HP) as H2. destruct (op (shared w)) as [d a].
    split; [exact H1|]. split; [constructor|exact H2].
  - apply Forall_cons in Hw as [Ht Hs]. specialize (Ht (shared w)). pose proof (Hst _ _ Ht HP) as HP'.
    pose proof (Hop _ HP') as H1. pose proof (Hok _ HP') as H2. pose proof (Herr _ (CallRefused []) HP') as H3.
    destruct (call_fault t) as [f|]; [destruct f|]; cbn.
    + split; [done|]. split; [done|]. by apply (Herr _ (CallRefused text)).
    + split; [by etransitivity|]. split; [done|]. by apply (Herr _ (ReplyLost text)).
    + destruct (op _) as [d a]. cbn in *. split; [by etransitivity|done].
Qed.

Lemma triple_pre {A} (P P' : D -> Prop) (m : Svc D A) Q :
  (forall d, P' d -> P d) -> triple Rel P m Q -> triple Rel P' m Q.
Proof. intros HP Hm w Hw HP'. apply Hm; auto. Qed.

(** What is stable and held before still holds after. *)
Lemma triple_frame {A} (P F : D -> Prop) (m : Svc D A) Q :
  stable Rel F -> triple Rel P m Q -> triple Rel (fun d => P d /\ F d) m (fun a d => Q a d /\ F d).
Proof.
  intros HF Hm w Hw [HP HFw]. destruct (Hm w Hw HP) as (H1 & H2 & H3).
  split_and!; [done..|]. by eapply HF.
Qed.

Lemma triple_post {A} P (m : Svc D A) (Q Q' : A -> D -> Prop) :
  (forall a d, Q a d -> Q' a d) -> triple Rel P m Q -> triple Rel P m Q'.
Proof. intros HQ Hm w Hw HP. destruct (Hm w Hw HP) as (H1 & H2 & H3). split_and!; auto. Qed.

Lemma triple_follows {A} (P : D -> Prop) (m : Svc D A) Q w :
  triple Rel P m Q -> rely Rel w -> P (shared w) -> Rel (shared w) (shared (m w).2).
Proof. intros Hm Hw HP. apply Hm; auto. Qed.
End triples.

(** A call nothing interferes with. *)
Lemma svc_call_quiet {A} (op : D -> D * A) w :
  agenda w = [] -> svc_call op w = (Ok (op (shared w)).2, {| shared := (op (shared w)).1; agenda := [] |}).
Proof. intros Hs. unfold svc_call. rewrite Hs. by destruct (op (shared w)). Qed.

Lemma svc_bind_eq {A B} (m : Svc D A) (f : A -> Svc D B) w : (m ≫= f) w = f (m w).1 (m w).2.
Proof. unfold mbind, Svc_bind. by destruct (m w). Qed.
Lemma svc_bind_fst {A B} (m : Svc D A) (f : A -> Svc D B) w : ((m ≫= f) w).1 = (f (m w).1 (m w).2).1.
Proof. unfold mbind, Svc_bind. by destruct (m w). Qed.
Lemma svc_bind_snd {A B} (m : Svc D A) (f : A -> Svc D B) w : ((m ≫= f) w).2 = (f (m w).1 (m w).2).2.
Proof. unfold mbind, Svc_bind. by destruct (m w). Qed.
End svc.

(** Walks a handler, leaving its calls. *)
Ltac follows_step :=
  match goal with
  | |- follows _ (and_then _ _) => unfold and_then
  | |- follows _ (mbind _ _) => apply follows_bind; [apply _| |intros ?]
  | |- follows _ (mret _) => apply follows_ret, _
  | |- follows _ (svc_gets _) => apply follows_gets, _
  | |- follows _ (svc_call _) => apply follows_call; [apply _|intros ?]
  | |- follows _ (svc_read _) => unfold svc_read
  | |- follows _ (svc_write _) => unfold svc_write
  | |- follows _ (sql _) => unfold sql
  | |- follows _ (sql_read _) => unfold sql_read
  | |- follows _ (svc_each _ _) => apply follows_each; [apply _|intros ? ?]
  | |- follows _ (if ?b then _ else _) => destruct b eqn:?
  | |- follows _ (match ?x with _ => _ end) => destruct x eqn:?
  | |- follows _ _ => solve [auto with follows]
  end.
Create HintDb follows.
Ltac solve_follows := intros; repeat follows_step.

(** ** Transactions *)

(** The statements between [begin] and [commit]: an error rolls them back. *)
Definition Tx (D A : Type) : Type := D -> AppResult A * D.

#[export] Instance Tx_ret D : MRet (Tx D) := fun A a d => (Ok a, d).
#[export] Instance Tx_bind D : MBind (Tx D) := fun A B f m d =>
  let '(r, d') := m d in match r with Ok a => f a d' | Err e => (Err e, d') end.

Section tx.
Context {D : Type}.

Definition tx_query {A} (op : D -> D * A) : Tx D A := fun d => let '(d', a) := op d in (Ok a, d').
Definition tx_read {A} (q : D -> A) : Tx D A := fun d => (Ok (q d), d).
Definition tx_fail {A} (e : AppError) : Tx D A := fun d => (Err e, d).

(** The transaction takes effect when it commits, all of it at once; a
    statement the database refuses refuses the transaction. *)
Definition transaction {A} (body : Tx D A) : Svc D (AppResult A) :=
  r ← svc_call (fun d => let '(r, d') := body d in match r with Ok _ => (d', r) | Err _ => (d, r) end);
  mret (match r with Ok r => r | Err f => Err (Database (fault_text f)) end).

Fixpoint tx_each {A B} (f : A -> Tx D B) (l : list A) : Tx D (list B) :=
  match l with
  | [] => mret []
  | x :: l => b ← f x; bs ← tx_each f l; mret (b :: bs)
  end.
End tx.

(** What a transaction may do to the tables, committed or not. *)
Definition tx_follows {D A} (R : relation D) (m : Tx D A) : Prop := forall d, R d (m d).2.

Section tx_rules.
Context {D : Type} (R : relation D) `{!PreOrder R}.

Lemma tx_follows_ret {A} (a : A) : tx_follows R (mret a).
Proof. intros d. reflexivity. Qed.
Lemma tx_follows_read {A} (q : D -> A) : tx_follows R (tx_read q).
Proof. intros d. reflexivity. Qed.
Lemma tx_follows_fail {A} e : tx_follows R (tx_fail (A := A) e).
Proof. intros d. reflexivity. Qed.
Lemma tx_follows_query {A} (op : D -> D * A) : (forall d, R d (op d).1) -> tx_follows R (tx_query op).
Proof. intros Hop d. specialize (Hop d). unfold tx_query. by destruct (op d). Qed.
Lemma tx_follows_bind {A B} (m : Tx D A) (f : A -> Tx D B) :
  tx_follows R m -> (forall a, tx_follows R (f a)) -> tx_follows R (m ≫= f).
Proof.
  intros Hm Hf d. unfold mbind, Tx_bind. specialize (Hm d). destruct (m d) as [[a|e] d']; [|exact Hm].
  etransitivity; [exact Hm|apply Hf].
Qed.

Lemma transaction_follows {A} (m : Tx D A) : tx_follows R m -> follows R (transaction m).
Proof.
  intros Hm. unfold transaction. apply follows_bind; [apply _| |intros r; apply follows_ret, _].
  apply follows_call; [apply _|]. intros d. specialize (Hm d). destruct (m d) as [[a|e] d']; [exact Hm|reflexivity].
Qed.
End tx_rules.

Section tx_triples.
Context {D : Type} (R : relation D) `{!PreOrder R}.

(** A failure along the way leaves the count as it was. *)
Lemma triple_then {B C} (P : D -> Prop) (m : Svc D (AppResult B)) (f : B -> Svc D (AppResult C)) Q S :
  triple R P m (fun r d => match r with Ok a => Q a d | Err _ => P d end) ->
  (forall a, triple R (Q a) (f a) S) -> (forall e d, P d -> S (Err e) d) ->
  triple R P (x ←? m; f x) S.
Proof.
  intros Hm Hf He. unfold and_then. eapply (triple_bind R); [exact Hm|].
  intros [a|e]; [apply Hf|]. apply (triple_ret R). intros d. apply He.
Qed.

Lemma transaction_triple {B} (P : D -> Prop) (m : Tx D B) (Q : AppResult B -> D -> Prop) :
  stable R P ->
  (forall d a d', P d -> m d = (Ok a, d') -> R d d' /\ Q (Ok a) d' /\ forall e, Q (Err e) d') ->
  (forall d e, P d -> Q (Err e) d) ->
  triple R P (transaction m) Q.
Proof.
  intros Hst Hok Herr. unfold transaction.
  eapply (triple_bind R _ _ _ (fun r d => match r with Ok r => Q r d | Err _ => forall e, Q (Err e) d end)).
  - apply (triple_call R); [done|..].
    + intros d HP. destruct (m d) as [[a|e] d'] eqn:E; [|reflexivity]. by destruct (Hok d a d' HP E).
    + intros d HP. destruct (m d) as [[a|e] d'] eqn:E; cbn; [by destruct (Hok d a d' HP E) as (_ & ? & _)|by apply Herr].
    + intros d f HP. split; [intros e; by apply Herr|].
      destruct (m d) as [[a|e] d'] eqn:E; cbn; [by destruct (Hok d a d' HP E) as (_ & _ & ?)|intros; by apply Herr].
  - intros [r|f]; apply (triple_ret R); auto.
Qed.

Lemma triple_of_follows {B} (P : D -> Prop) (m : Svc D B) :
  stable R P -> follows R m -> triple R P m (fun _ d => P d).
Proof. intros Hst Hm w Hw HP. destruct (Hm w Hw) as [H1 H2]. split_and!; [done..|]. by eapply Hst. Qed.
End tx_triples.

Lemma tx_bind_Ok {D A B} (m : Tx D A) (f : A -> Tx D B) d b d' :
  (m ≫= f) d = (Ok b, d') <-> exists a d1, m d = (Ok a, d1) /\ f a d1 = (Ok b, d').
Proof.
  unfold mbind, Tx_bind. split.
  - destruct (m d) as [[a|e] d1]; [eauto|done].
  - by intros (a & d1 & -> & ->).
Qed.

(** Alone, a transaction commits what it did or reports why it did not. *)
Lemma transaction_quiet {D A} (m : Tx D A) (w : SvcWorld D) :
  agenda w = [] ->
  transaction m w = match m (shared w) with
                    | (Ok a, d) => (Ok a, {| shared := d; agenda := [] |})
                    | (Err e, _) => (Err e, {| shared := shared w; agenda := [] |})
                    end.
Proof.
  intros Hq. unfold transaction. rewrite svc_bind_eq, svc_call_quiet by done. by destruct (m (shared w)) as [[a|e] d].
Qed.

(** Walks the statements of a transaction. *)
Create HintDb tx_follows.
Ltac tx_follows_step :=
  match goal with
  | |- tx_follows _ (mbind _ _) => apply tx_follows_bind; [apply _| |intros ?]
  | |- tx_follows _ (mret _) => apply tx_follows_ret, _
  | |- tx_follows _ (tx_read _) => apply tx_follows_read, _
  | |- tx_follows _ (tx_fail _) => apply tx_follows_fail, _
  | |- tx_follows _ (tx_query _) => apply tx_follows_query; intros ?
  | |- tx_follows _ (if ?b then _ else _) => destruct b eqn:?
  | |- tx_follows _ (match ?x with _ => _ end) => destruct x eqn:?
  | |- tx_follows _ _ => solve [auto with tx_follows]
  end.
Ltac solve_tx_follows := intros; repeat tx_follows_step.

(** ** Handlers that only read *)

(** [m] answers the question [q]: run against a state whose part [V] the others
    leave alone, it says what [q] says of that part or reports the failure of
    the database, and it changes nothing itself. *)
Definition answers {D A} (V : relation D) (m : Svc D (AppResult A)) (q : D -> AppResult A) : Prop :=
  (forall d d', V d d' -> q d = q d') /\
  forall w, rely V w ->
    V (shared w) (shared (m w).2) /\ rely V (m w).2 /\
    ((m w).1 = q (shared w) \/ exists t, (m w).1 = Err (Database t)) /\
    (agenda w = [] -> (m w).1 = q (shared w) /\ (m w).2 = w).

Section answers.
Context {D : Type} (V : relation D) `{!PreOrder V}.

Lemma answers_ret {A} (r : AppResult A) : answers V (mret r) (fun _ => r).
Proof. split; [done|]. intros w Hw. split_and!; try done. by left. Qed.

Lemma answers_read {A} (q : D -> A) :
  (forall d d', V d d' -> q d = q d') -> answers V (sql_read q) (fun d => Ok (q d)).
Proof.
  intros Hq. split; [intros d d' Hv; by rewrite (Hq d d' Hv)|]. intros w Hw.
  unfold sql_read, sql, svc_call, rely, mbind, Svc_bind, mret, Svc_ret in *.
  destruct w as [d [|t s]]; cbn in *; [split_and!; try done; by left|].
  apply Forall_cons in Hw as [Ht Hs]. specialize (Ht d).
  destruct (call_fault t) as [[]|]; cbn; split_and!; eauto; try done.
  left. by rewrite (Hq _ _ Ht).
Qed.

(** A handler that looks at the result of another, and passes a failure of the
    database on. *)
Lemma answers_bind {A B} (m : Svc D (AppResult A)) (k : AppResult A -> Svc D (AppResult B)) q g :
  answers V m q -> (forall r, answers V (k r) (g r)) ->
  (forall t, k (Err (Database t)) = mret (Err (Database t))) ->
  answers V (m ≫= k) (fun d => g (q d) d).
Proof.
  intros [Hq Hm] Hk Hdb. split.
  { intros d d' Hv. rewrite (Hq d d' Hv). by apply (Hk (q d')). }
  intros w Hw. destruct (Hm w Hw) as (H1 & H2 & H3 & H4). rewrite svc_bind_eq.
  destruct (Hk (m w).1) as [Hg Hk']. destruct (Hk' (m w).2 H2) as (H5 & H6 & H7 & H8). split_and!; try done.
  - by etransitivity.
  - destruct H3 as [E|[t E]].
    + rewrite E in *. by rewrite <-(Hg _ _ H1) in H7.
    + rewrite E, Hdb. right. by exists t.
  - intros Ha. destruct (H4 Ha) as [E Ew]. rewrite E, Ew in *. by apply H8.
Qed.

(** [?] between two of them. *)
Lemma answers_then {A B} (m : Svc D (AppResult A)) (f : A -> Svc D (AppResult B)) q g :
  answers V m q -> (forall a, answers V (f a) (g a)) ->
  answers V (x ←? m; f x) (fun d => match q d with Ok a => g a d | Err e => Err e end).
Proof.
  intros Hm Hf. unfold and_then.
  apply (answers_bind m _ q (fun r d => match r with Ok a => g a d | Err e => Err e end)); [done| |done].
  intros [a|e]; [apply Hf|apply answers_ret].
Qed.

Lemma answers_if {A} (b : bool) (m1 m2 : Svc D (AppResult A)) q1 q2 :
  answers V m1 q1 -> answers V m2 q2 ->
  answers V (if b then m1 else m2) (fun d => if b then q1 d else q2 d).
Proof. by destruct b. Qed.

Lemma answers_option {A B} (o : option B) (some : B -> Svc D (AppResult A)) (none : Svc D (AppResult A)) q1 q2 :
  (forall b, answers V (some b) (q1 b)) -> answers V none q2 ->
  answers V (match o with Some b => some b | None => none end)
    (fun d => match o with Some b => q1 b d | None => q2 d end).
Proof. by destruct o. Qed.

Lemma answers_ext {A} (m : Svc D (AppResult A)) q q' :
  (forall d, q d = q' d) -> answers V m q -> answers V m q'.
Proof.
  intros Hq [Hv Hm]. split; [intros d d' H; rewrite <-!Hq; by apply Hv|].
  intros w Hw. rewrite <-!Hq. by apply Hm.
Qed.

(** What a handler that failed is not: a refusal, or a grant. *)
Lemma answers_Ok {A} (m : Svc D (AppResult A)) q w a :
  answers V m q -> rely V w -> (m w).1 = Ok a -> q (shared w) = Ok a.
Proof. intros [_ Hm] Hw E. destruct (Hm w Hw) as (_ & _ & [H|[t H]] & _); congruence. Qed.
End answers.

(** Walks a handler; the answers of its calls are left. *)
Create HintDb answers.
Ltac answers_step :=
  lazymatch goal with
  | |- answers _ (and_then _ _) _ => eapply answers_then; [apply _| |intros ?; cbv beta zeta]
  | |- answers _ (mret _) _ => refine (answers_ret _ _)
  | |- answers _ (match ?o with Some _ => _ | None => _ end) _ => refine (answers_option _ _ _ _ _ _ _ _); [intros ?|]
  | |- answers _ (if _ then _ else _) _ => refine (answers_if _ _ _ _ _ _ _ _)
  | |- answers _ _ _ => solve [eauto with answers]
  end.
(** Shows the answer to be the given one. *)
Ltac solve_answers := eapply answers_ext; [|repeat answers_step]; [intros ?|..].
