(* ===== verification/Sealed.v ===== *)
(** * Secrets at rest ([backend/api/src/sealed/{mod,reseal,repo}.rs])

    What the instance keeps for others (client secrets, tokens, second factors)
    is stored sealed under a key of the ring, with the name of the key beside
    it.  When the API starts it seals again what is not under the first key. *)

From stdpp Require Import base tactics option numbers list gmap.
From Stdlib Require Import ZArith Lia String Ascii.
From S2P Require Import Prelude RustStr Errors ApiState.

(** Base64, SHA-256, ChaCha20-Poly1305 (key, nonce, text), and the [Debug] of a
    string, which needs the tables of Unicode. *)
Class Sealing := {
  base64_decode : str -> option bytes;
  sha256 : bytes -> bytes;
  aead_encrypt : bytes -> bytes -> bytes -> option bytes;
  aead_decrypt : bytes -> bytes -> bytes -> option bytes;
  debug_str : str -> str;
}.
(** What was encrypted decrypts under the same key and nonce, to bytes. *)
Class SealingLaws (S : Sealing) := {
  aead_decrypt_encrypt : forall k n p c, aead_encrypt k n p = Some c -> aead_decrypt k n c = Some p;
  aead_decrypt_bytes : forall k n c p, aead_decrypt k n c = Some p -> Forall (fun b => 0 <= b < 256) p;
}.

Definition KEY_BYTES : Z := 32.
Definition NONCE_BYTES : Z := 12.

Definition APP_SECRETS : str := $"workspace-app-secrets".
Definition TOTP_SECRETS : str := $"totp-secret-encryption".
Definition BOT_SIGNING_SECRETS : str := $"bot-app-signing-secrets".

Module Keyring.
Record t := { current : str; keys : gmap str bytes }.
End Keyring.

Module Sealed.
Record t := { ciphertext : bytes; nonce : bytes; key_id : str }.
End Sealed.

(** The columns of a sealed value; one that was never set has none, and one
    without a name of a key was sealed under [JWT_SECRET]. *)
Module Stored.
Record t := { ciphertext : bytes; nonce : bytes; key_id : option str }.
End Stored.

Definition key_id_char (c : char) : bool := is_ascii_alphanumeric c || (c =? 45) || (c =? 95).
(** [split(',').map(str::trim).filter(|e| !e.is_empty())] *)
Definition key_entries (raw : str) : list str := filter (fun e => e <> []) (trim <$> split_on 44 raw).

Section sealed.
Context `{Sealing}.
Implicit Types (ring : Keyring.t) (purpose plaintext : str).

(** ** The ring of keys *)

Fixpoint parse_keys (entries : list str) (current : option str) (keys : gmap str bytes) : result str Keyring.t :=
  match entries with
  | [] =>
      match current with
      | Some current => Ok {| Keyring.current := current; Keyring.keys := keys |}
      | None => Err ($"no key given")
      end
  | entry :: entries =>
      match split_once 58 entry with
      | None => Err (debug_str entry ++ $" is not id:base64-key")
      | Some (id, encoded) =>
          if bool_decide (id = []) || negb (forallb key_id_char id) then
            Err ($"key id " ++ debug_str id ++ $" must be letters, digits, '-' or '_'")
          else
            match base64_decode (trim encoded) with
            | None => Err ($"key " ++ debug_str id ++ $" is not base64")
            | Some key =>
                if negb (Z.of_nat (length key) =? KEY_BYTES) then Err ($"key " ++ debug_str id ++ $" must be 32 bytes")
                else if bool_decide (is_Some (keys !! id)) then Err ($"key id " ++ debug_str id ++ $" appears twice")
                else parse_keys entries (Some (default id current)) (<[id := key]> keys)
            end
      end
  end.
Definition parse_keyring (raw : str) : result str Keyring.t := parse_keys (key_entries raw) None ∅.

(** ** Sealing and opening *)

Definition derive (secret : bytes) purpose : bytes := sha256 (as_bytes purpose ++ as_bytes ($":") ++ secret).

Definition cipher ring (key_id : str) purpose : AppResult bytes :=
  match Keyring.keys ring !! key_id with
  | Some key => Ok (derive key purpose)
  | None => Err (Internal ($"A stored secret was sealed with key " ++ debug_str key_id ++ $", which SECRETS_KEYS no longer lists"))
  end.

Definition decrypt (key ciphertext nonce : bytes) : AppResult str :=
  if negb (Z.of_nat (length nonce) =? NONCE_BYTES) then Err (Internal ($"Corrupt nonce"))
  else
    match aead_decrypt key nonce ciphertext with
    | None => Err (Internal ($"Failed to read a stored secret"))
    | Some plain => ok_or (Internal ($"Corrupt stored secret")) (from_utf8 plain)
    end.

(** With the nonce that was drawn. *)
Definition seal ring purpose (nonce : bytes) plaintext : AppResult Sealed.t :=
  key ← cipher ring (Keyring.current ring) purpose;
  match aead_encrypt key nonce (as_bytes plaintext) with
  | None => Err (Internal ($"Failed to protect a stored secret"))
  | Some c => Ok {| Sealed.ciphertext := c; Sealed.nonce := nonce; Sealed.key_id := Keyring.current ring |}
  end.

Definition open_sealed ring purpose (ciphertext nonce : bytes) (key_id : option str) : AppResult str :=
  match key_id with
  | None => Err (Internal ($"A stored secret is still sealed with JWT_SECRET; the API re-seals it when it starts"))
  | Some key_id => key ← cipher ring key_id purpose; decrypt key ciphertext nonce
  end.
Definition open_with_jwt_secret (jwt_secret : str) purpose (ciphertext nonce : bytes) : AppResult str :=
  decrypt (derive (as_bytes jwt_secret) purpose) ciphertext nonce.

(** ** Sealing again ([reseal.rs]) *)

(** What [reseal] reads of a stored value before it seals it. *)
Definition unseal ring (jwt_secret : option str) purpose (s : Stored.t) : AppResult str :=
  match Stored.key_id s with
  | Some key_id => open_sealed ring purpose (Stored.ciphertext s) (Stored.nonce s) (Some key_id)
  | None =>
      secret ← ok_or (Internal ($"it was sealed with JWT_SECRET, which is no longer set")) jwt_secret;
      open_with_jwt_secret secret purpose (Stored.ciphertext s) (Stored.nonce s)
  end.
Definition reseal ring (jwt_secret : option str) purpose (nonce : bytes) (s : Stored.t) : AppResult Sealed.t :=
  plaintext ← unseal ring jwt_secret purpose s; seal ring purpose nonce plaintext.
End sealed.

(** *** The columns that hold secrets ([repo.rs]) *)

Module SecretKind.
Inductive t := AppSecret | AccessToken | RefreshToken | TotpSecret | SigningSecret.
#[global] Instance eq_dec : EqDecision t.
Proof. solve_decision. Defined.
#[global] Instance countable : Countable t.
Proof.
  refine (inj_countable' (fun k => match k with AppSecret => 0 | AccessToken => 1 | RefreshToken => 2 | TotpSecret => 3 | SigningSecret => 4 end)%N
    (fun n => match n with 0 => AppSecret | 1 => AccessToken | 2 => RefreshToken | 3 => TotpSecret | _ => SigningSecret end)%N _); by intros [].
Defined.
Definition purpose (k : t) : str :=
  match k with AppSecret | AccessToken | RefreshToken => APP_SECRETS | TotpSecret => TOTP_SECRETS | SigningSecret => BOT_SIGNING_SECRETS end.
(** In the order of [run]. *)
Definition every : list t := [AppSecret; AccessToken; RefreshToken; TotpSecret; SigningSecret].
End SecretKind.

(** A row of a table by the text [Stored::id] names it with, and the column of
    it; a column that is null has no entry. *)
Abbreviation Place := (SecretKind.t * str)%type.
Abbreviation Secrets := (gmap Place Stored.t).

Module ResealReport.
Record t := { resealed : nat; unreadable : list str }.
Definition empty : t := {| resealed := 0; unreadable := [] |}.
Definition record (id : str) (outcome : AppResult bool) (r : t) : t :=
  match outcome with
  | Ok true => {| resealed := S (resealed r); unreadable := unreadable r |}
  | Ok false => r
  | Err _ => {| resealed := resealed r; unreadable := unreadable r ++ [id] |}
  end.
End ResealReport.

Section reseal.
Context `{Sealing} (ring : Keyring.t) (jwt_secret : option str).
(** The nonce a sealing draws. *)
Context (draw_nonce : Secrets -> bytes).
Implicit Types (kind : SecretKind.t) (d : Secrets).

(** [key_id IS DISTINCT FROM current] *)
Definition is_off (s : Stored.t) : bool := negb (bool_decide (Stored.key_id s = Some (Keyring.current ring))).
Definition secrets_off kind d : list (str * Stored.t) :=
  (fun p : Place * Stored.t => (p.1.2, p.2)) <$> filter (fun p => p.1.1 = kind /\ is_off p.2 = true) (map_to_list d).

(** [WHERE .. key_id IS NOT DISTINCT FROM old] *)
Definition reseal_secret (place : Place) (old : option str) (s : Sealed.t) d : Secrets * bool :=
  match d !! place with
  | Some stored =>
      if bool_decide (Stored.key_id stored = old) then
        (<[place := {| Stored.ciphertext := Sealed.ciphertext s; Stored.nonce := Sealed.nonce s;
                       Stored.key_id := Some (Sealed.key_id s) |}]> d, true)
      else (d, false)
  | None => (d, false)
  end.

Fixpoint reseal_each kind (rows : list (str * Stored.t)) (report : ResealReport.t) : Svc Secrets ResealReport.t :=
  match rows with
  | [] => mret report
  | (id, stored) :: rows =>
      nonce ← svc_gets draw_nonce;
      outcome ← match reseal ring jwt_secret (SecretKind.purpose kind) nonce stored with
                | Ok sealed => sql (reseal_secret (kind, id) (Stored.key_id stored) sealed)
                | Err e => mret (Err e)
                end;
      reseal_each kind rows (ResealReport.record id outcome report)
  end.
Fixpoint reseal_kinds (kinds : list SecretKind.t) (report : ResealReport.t) : Svc Secrets (AppResult ResealReport.t) :=
  match kinds with
  | [] => mret (Ok report)
  | kind :: kinds =>
      rows ←? sql_read (secrets_off kind);
      report ← reseal_each kind rows report;
      reseal_kinds kinds report
  end.
Definition reseal_all : Svc Secrets (AppResult ResealReport.t) := reseal_kinds SecretKind.every ResealReport.empty.
End reseal.

(** ** What was sealed is read again *)

Section laws.
Context `{SealingLaws}.
Implicit Types (ring : Keyring.t) (purpose plaintext : str) (kind : SecretKind.t) (d : Secrets) (w : SvcWorld Secrets).

Lemma parse_keys_current es cur keys ring :
  (forall c, cur = Some c -> is_Some (keys !! c)) -> parse_keys es cur keys = Ok ring -> is_Some (Keyring.keys ring !! Keyring.current ring).
Proof.
  revert cur keys. induction es as [|e es IH]; cbn [parse_keys]; intros cur keys Hc E.
  { destruct cur; [|done]. injection E as <-. by apply Hc. }
  repeat case_match; try done. eapply IH; [|exact E]. intros c' [= <-]. destruct cur as [c'|]; cbn.
  - destruct (decide (c' = l)) as [->|]; [rewrite lookup_insert_eq; by eexists|]. rewrite lookup_insert_ne by done. by apply Hc.
  - rewrite lookup_insert_eq. by eexists.
Qed.

Lemma decrypt_encrypted key nonce plaintext c : Z.of_nat (length nonce) = NONCE_BYTES -> Forall is_char plaintext ->
  aead_encrypt key nonce (as_bytes plaintext) = Some c -> decrypt key c nonce = Ok plaintext.
Proof.
  intros Hn Hp E. unfold decrypt. rewrite Hn. cbn. rewrite (aead_decrypt_encrypt _ _ _ _ E). by rewrite from_utf8_as_bytes.
Qed.

Lemma seal_open ring ring' purpose nonce plaintext s :
  Z.of_nat (length nonce) = NONCE_BYTES -> Forall is_char plaintext -> seal ring purpose nonce plaintext = Ok s ->
  Keyring.keys ring' !! Sealed.key_id s = Keyring.keys ring !! Sealed.key_id s ->
  open_sealed ring' purpose (Sealed.ciphertext s) (Sealed.nonce s) (Some (Sealed.key_id s)) = Ok plaintext.
Proof.
  intros Hn Hp E Hk. unfold seal, open_sealed, cipher in *.
  destruct (Keyring.keys ring !! Keyring.current ring) as [key|] eqn:Ek; [|done]. cbn in E.
  destruct (aead_encrypt _ _ _) as [c|] eqn:Ec; [|done]. injection E as <-. cbn in *. rewrite Hk, Ek. cbn. by eapply decrypt_encrypted.
Qed.
(** A value sealed under the first key of a ring opens under every ring that
    lists that key under the same name, wherever in the list it is. *)
Theorem a_sealed_value_opens ring ring' purpose nonce plaintext s :
  Z.of_nat (length nonce) = NONCE_BYTES -> Forall is_char plaintext -> seal ring purpose nonce plaintext = Ok s ->
  Keyring.keys ring' !! Sealed.key_id s = Keyring.keys ring !! Sealed.key_id s ->
  open_sealed ring' purpose (Sealed.ciphertext s) (Sealed.nonce s) (Some (Sealed.key_id s)) = Ok plaintext.
Proof. apply seal_open. Qed.

(** *** The pass *)

Context (ring : Keyring.t) (jwt_secret : option str) (draw_nonce : Secrets -> bytes).
Context (Hdraw : forall d, Z.of_nat (length (draw_nonce d)) = NONCE_BYTES).
Abbreviation reads kind s := (unseal ring jwt_secret (SecretKind.purpose kind) s).

Lemma unseal_chars purpose s p : unseal ring jwt_secret purpose s = Ok p -> Forall is_char p.
Proof.
  assert (Hd : forall key c n, decrypt key c n = Ok p -> Forall is_char p).
  { intros key c n E. unfold decrypt in E. case_match; [done|]. destruct (aead_decrypt _ _ _) as [q|] eqn:Eq; [|done].
    apply ok_or_Ok in E. eapply from_utf8_chars; [|exact E]. by eapply aead_decrypt_bytes. }
  unfold unseal, open_sealed, open_with_jwt_secret, cipher. intros E. repeat (case_match || (apply bind_Ok in E as (? & ? & E))); by eauto.
Qed.

(** What one step of the pass does to a value: it had another key, and has the
    first one with the same text. *)
Definition seals_again : relation Secrets := fun d d' => exists place s s' p,
  d !! place = Some s /\ is_off ring s = true /\ is_off ring s' = false /\
  reads place.1 s = Ok p /\ reads place.1 s' = Ok p /\ d' = <[place := s']> d.
(** What processes with the same first key do, whether they seal again, store
    anew or remove: whatever is under another key is what was there. *)
Definition writes_first : relation Secrets := fun d d' => forall place s, d' !! place = Some s -> is_off ring s = true -> d !! place = Some s.
#[local] Instance writes_first_preorder : PreOrder writes_first.
Proof. split; [by intros d place s|]. intros d1 d2 d3 H12 H23 place s Hs Hoff. apply H12; [by apply H23|done]. Qed.
(** What passes of processes with other rings do, as long as this one reads what
    they write: every value has the text it had. *)
Definition same_texts : relation Secrets := fun d d' => forall place,
  match d !! place, d' !! place with
  | None, None => True
  | Some s, Some s' => s' = s \/ exists p, reads place.1 s = Ok p /\ reads place.1 s' = Ok p /\ is_Some (Stored.key_id s')
  | _, _ => False
  end.
#[local] Instance same_texts_preorder : PreOrder same_texts.
Proof.
  split; [intros d place; destruct (d !! place); [by left|done]|]. intros d1 d2 d3 H12 H23 place.
  specialize (H12 place). specialize (H23 place). destruct (d1 !! place), (d2 !! place), (d3 !! place); try done.
  destruct H12 as [->|(p & ? & ? & ?)], H23 as [->|(q & ? & ? & ?)]; [by left|right; eauto..|]. right. exists p. split; [done|]. split; [congruence|done].
Qed.

Lemma reseal_Ok purpose nonce s x : Z.of_nat (length nonce) = NONCE_BYTES -> reseal ring jwt_secret purpose nonce s = Ok x ->
  exists p, unseal ring jwt_secret purpose s = Ok p /\ Sealed.key_id x = Keyring.current ring /\
    unseal ring jwt_secret purpose {| Stored.ciphertext := Sealed.ciphertext x; Stored.nonce := Sealed.nonce x; Stored.key_id := Some (Sealed.key_id x) |} = Ok p.
Proof.
  intros Hn E. unfold reseal in E. apply bind_Ok in E as (p & Ep & E). exists p. split; [done|].
  split; [unfold seal in E; apply bind_Ok in E as (? & _ & E); by repeat case_match; simplify_eq|].
  unfold unseal; cbn. eapply seal_open; [done|by eapply unseal_chars|done|done].
Qed.

Definition sealed_as (x : Sealed.t) : Stored.t :=
  {| Stored.ciphertext := Sealed.ciphertext x; Stored.nonce := Sealed.nonce x; Stored.key_id := Some (Sealed.key_id x) |}.
Lemma reseal_secret_eq place old x d : (reseal_secret place old x d).1 = d \/
  exists s, d !! place = Some s /\ Stored.key_id s = old /\ (reseal_secret place old x d).1 = <[place := sealed_as x]> d.
Proof. unfold reseal_secret. destruct (d !! place) as [s|]; [|by left]. case_bool_decide; [right; by exists s|by left]. Qed.
Lemma sealed_on x : Sealed.key_id x = Keyring.current ring -> is_off ring (sealed_as x) = false.
Proof. intros E. unfold is_off. cbn. by rewrite E, bool_decide_eq_true_2. Qed.

(** **** Among others *)

Section pass.
Context (R : relation Secrets) {HR : PreOrder R}.
(** A value that was read under another key may be written. *)
Definition may_write : Prop := forall kind id s x p d0 d, d0 !! (kind, id) = Some s -> is_off ring s = true -> R d0 d ->
  reads kind s = Ok p -> Sealed.key_id x = Keyring.current ring -> reads kind (sealed_as x) = Ok p ->
  R d (reseal_secret (kind, id) (Stored.key_id s) x d).1.
Context (Hwrite : may_write).
Definition first_only : Prop := forall d d', R d d' -> writes_first d d'.
Definition on_at (place : Place) d : Prop := forall s, d !! place = Some s -> is_off ring s = false.
Definition cannot kind (s : Stored.t) : Prop := exists nonce e, reseal ring jwt_secret (SecretKind.purpose kind) nonce s = Err e.
(** A row that was read to be sealed again. *)
Definition was_read kind id s d : Prop := is_off ring s = true /\ exists d0, d0 !! (kind, id) = Some s /\ R d0 d.

Lemma was_read_later kind id s d d' : R d d' -> was_read kind id s d -> was_read kind id s d'.
Proof. intros Hd (Hoff & d0 & Hs & H0). split; [done|]. exists d0. split; [done|by etransitivity]. Qed.
Lemma on_at_later place d d' : first_only -> R d d' -> on_at place d -> on_at place d'.
Proof.
  intros Hf Hd Hon s Hs. destruct (is_off ring s) eqn:Eo; [|done]. rewrite <- Eo. by apply Hon, (Hf _ _ Hd).
Qed.

Lemma sql_among {A} (op : Secrets -> Secrets * A) w : rely R w -> exists r w' d, sql op w = (r, w') /\ rely R w' /\ R (shared w) d /\
  ((exists e, r = Err e) /\ agenda w <> [] /\ (shared w' = d \/ shared w' = (op d).1) \/ r = Ok (op d).2 /\ shared w' = (op d).1) /\
  (agenda w = [] -> agenda w' = []).
Proof.
  intros Hw. unfold sql, svc_call, mbind, Svc_bind, mret, Svc_ret, rely in *. destruct (agenda w) as [|t s].
  - exists (Ok (op (shared w)).2). destruct (op (shared w)) eqn:E. do 2 eexists. split; [reflexivity|]. split; [by constructor|].
    split; [reflexivity|]. rewrite E. split; [by right|done].
  - apply Forall_cons in Hw as [Ht Hs]. specialize (Ht (shared w)). destruct (call_fault t) as [[]|].
    + do 3 eexists. split; [done|]. split; [done|]. split; [exact Ht|]. split; [|done]. left. split; [by eexists|]. split; [done|by left].
    + do 3 eexists. split; [done|]. split; [done|]. split; [exact Ht|]. split; [|done]. left. split; [by eexists|]. split; [done|by right].
    + exists (Ok (op (others t (shared w))).2). destruct (op (others t (shared w))) eqn:E. do 2 eexists. split; [reflexivity|]. split; [done|].
      split; [exact Ht|]. rewrite E. split; [by right|done].
Qed.

Lemma written_on kind id s x d : first_only -> was_read kind id s d -> Sealed.key_id x = Keyring.current ring ->
  on_at (kind, id) (reseal_secret (kind, id) (Stored.key_id s) x d).1.
Proof.
  intros Hf (Hoff & d0 & Hs & H0) Hx s' Hs'. destruct (reseal_secret_eq (kind, id) (Stored.key_id s) x d) as [E|(s1 & Hs1 & Hk & E)]; rewrite E in Hs'.
  - destruct (is_off ring s') eqn:Eo; [|done]. pose proof (Hf _ _ H0 _ _ Hs' Eo) as H1. rewrite Hs in H1. injection H1 as <-.
    unfold reseal_secret in E. rewrite Hs', bool_decide_eq_true_2 in E by done. cbn [fst] in E.
    assert (Hx' : Some s = Some (sealed_as x)) by (rewrite <- Hs', <- E; apply lookup_insert_eq).
    injection Hx' as ->. rewrite sealed_on in Eo; done.
  - rewrite lookup_insert_eq in Hs'. injection Hs' as <-. by apply sealed_on.
Qed.

Lemma reseal_row_among kind id s nonce w : rely R w -> Z.of_nat (length nonce) = NONCE_BYTES -> was_read kind id s (shared w) -> exists outcome w',
  (match reseal ring jwt_secret (SecretKind.purpose kind) nonce s with
   | Ok sealed => sql (reseal_secret (kind, id) (Stored.key_id s) sealed)
   | Err e => mret (Err e)
   end) w = (outcome, w') /\ rely R w' /\ R (shared w) (shared w') /\
  (first_only -> forall b, outcome = Ok b -> on_at (kind, id) (shared w')) /\
  (agenda w = [] -> agenda w' = [] /\ forall e, outcome = Err e -> cannot kind s).
Proof.
  intros Hw Hn Hs. destruct (reseal _ _ _ _ s) as [x|e] eqn:E.
  2: { do 2 eexists. split; [done|]. split_and!; [done|reflexivity|done|]. intros Ha. split; [exact Ha|]. intros e' [= <-]. by exists nonce, e. }
  apply reseal_Ok in E as (p & Ep & Hk & Ep'); [|done].
  destruct (sql_among (reseal_secret (kind, id) (Stored.key_id s) x) w Hw) as (r & w' & d & E & Hw' & Hd & Hr & Hag).
  exists r, w'. split; [exact E|]. split; [done|]. apply (was_read_later _ _ _ _ _ Hd) in Hs.
  assert (Hstep : R d (reseal_secret (kind, id) (Stored.key_id s) x d).1) by (destruct Hs as (? & d0 & ? & ?); by eapply Hwrite).
  destruct Hr as [((e & ->) & Hne & Hsh)|(-> & ->)].
  - split; [destruct Hsh as [-> | ->]; [done|by etransitivity]|]. split; [done|]. intros Ha. by destruct Hne.
  - split; [by etransitivity|]. split; [intros Hf b _; by apply written_on|]. intros Ha. by split; [apply Hag|].
Qed.

Lemma record_incl id outcome r x : x ∈ ResealReport.unreadable r -> x ∈ ResealReport.unreadable (ResealReport.record id outcome r).
Proof. destruct outcome as [[]|]; cbn; [done..|]. intros. apply elem_of_app. by left. Qed.
Lemma record_of id outcome r x : x ∈ ResealReport.unreadable (ResealReport.record id outcome r) ->
  x ∈ ResealReport.unreadable r \/ x = id /\ exists e, outcome = Err e.
Proof. destruct outcome as [[]|e]; cbn; [by left..|]. intros [Hx|Hx]%elem_of_app; [by left|]. apply list_elem_of_singleton in Hx. right. by split; [|exists e]. Qed.

Lemma reseal_each_among kind rows report w : rely R w -> (forall id s, (id, s) ∈ rows -> was_read kind id s (shared w)) ->
  let '(report', w') := reseal_each ring jwt_secret draw_nonce kind rows report w in
  rely R w' /\ R (shared w) (shared w') /\
  (forall x, x ∈ ResealReport.unreadable report -> x ∈ ResealReport.unreadable report') /\
  (first_only -> forall id s, (id, s) ∈ rows -> id ∉ ResealReport.unreadable report' -> on_at (kind, id) (shared w')) /\
  (agenda w = [] -> agenda w' = [] /\ forall x, x ∈ ResealReport.unreadable report' -> x ∈ ResealReport.unreadable report \/ exists s, (x, s) ∈ rows /\ cannot kind s).
Proof.
  revert report w. induction rows as [|[id s] rows IH]; intros report w Hw Hrows; cbn [reseal_each].
  { split_and!; [done|reflexivity|done|set_solver|]. intros Ha. split; [exact Ha|]. by left. }
  unfold mbind, Svc_bind at 1. cbn [svc_gets].
  destruct (reseal_row_among kind id s (draw_nonce (shared w)) w Hw (Hdraw _)) as (outcome & w1 & E & Hw1 & Hk1 & Hon & Hag); [apply Hrows; left|].
  cbn in E |- *. unfold mbind, Svc_bind. rewrite E.
  specialize (IH (ResealReport.record id outcome report) w1 Hw1).
  destruct (reseal_each _ _ _ kind rows _ w1) as [report' w'].
  destruct IH as (Hw' & Hk' & Hincl & Hall & Hag'); [intros id' s' Hin; eapply was_read_later; [exact Hk1|apply Hrows; by right]|].
  split; [done|]. split; [by etransitivity|]. split; [intros x Hx; by apply Hincl, record_incl|]. split.
  - intros Hf id' s' [[= -> ->]|Hin]%elem_of_cons Hno; [|by eapply Hall]. eapply on_at_later; [done|exact Hk'|].
    destruct outcome as [b|e]; [by apply (Hon Hf b)|]. destruct Hno. apply Hincl. cbn. set_solver.
  - intros Ha. destruct (Hag Ha) as [Ha1 Hcan]. destruct (Hag' Ha1) as [Ha2 Hun]. split; [exact Ha2|].
    intros x [[Hx|(-> & e & He)]%record_of|(s' & Hs' & Hc)]%Hun; [by left| |]; right.
    + exists s. split; [left|by eapply Hcan].
    + exists s'. split; [by right|done].
Qed.

Lemma elem_secrets_off kind d id s : (id, s) ∈ secrets_off ring kind d <-> d !! (kind, id) = Some s /\ is_off ring s = true.
Proof.
  unfold secrets_off. rewrite list_elem_of_fmap. split.
  - intros ([[k id'] s'] & [= -> ->] & [[<- Hoff] Hin]%list_elem_of_filter). by apply elem_of_map_to_list in Hin.
  - intros [Hs Hoff]. exists ((kind, id), s). split; [done|]. apply list_elem_of_filter. split; [done|]. by apply elem_of_map_to_list.
Qed.

Lemma reseal_kinds_among kinds report w : rely R w -> exists r w', reseal_kinds ring jwt_secret draw_nonce kinds report w = (r, w') /\
  R (shared w) (shared w') /\
  (forall report', r = Ok report' ->
    (forall x, x ∈ ResealReport.unreadable report -> x ∈ ResealReport.unreadable report') /\
    (first_only -> forall kind id, kind ∈ kinds -> id ∉ ResealReport.unreadable report' -> on_at (kind, id) (shared w'))) /\
  (agenda w = [] -> first_only -> exists report', r = Ok report' /\ forall x, x ∈ ResealReport.unreadable report' ->
    x ∈ ResealReport.unreadable report \/ exists kind s, shared w !! (kind, x) = Some s /\ is_off ring s = true /\ cannot kind s).
Proof.
  revert report w. induction kinds as [|kind kinds IH]; intros report w Hw; cbn [reseal_kinds].
  { do 2 eexists. split; [done|]. split; [reflexivity|]. split; [intros report' [= <-]; split; [done|set_solver]|]. intros _ _. eexists. split; [done|by left]. }
  unfold and_then, mbind, Svc_bind, sql_read. destruct (sql_among (fun d => (d, secrets_off ring kind d)) w Hw) as (r & w1 & d & -> & Hw1 & Hd & Hr & Hag).
  cbn [fst snd] in Hr. assert (E1 : shared w1 = d) by (destruct Hr as [(? & ? & [? | ?])|(? & ?)]; done). subst d.
  destruct r as [rows|e].
  2: { do 2 eexists. split; [done|]. split_and!; [done..|]. intros Ha. by destruct Hr as [(_ & Hne & _)|[? _]]. }
  assert (rows = secrets_off ring kind (shared w1)) as -> by (destruct Hr as [([? ?] & _)|([= ->] & _)]; done). clear Hr.
  pose proof (reseal_each_among kind (secrets_off ring kind (shared w1)) report w1 Hw1) as Hrow.
  destruct (reseal_each _ _ _ kind _ report w1) as [report1 w2].
  destruct Hrow as (Hw2 & Hk2 & Hincl & Hall2 & Hag2).
  { intros id s [Hs Hoff]%elem_secrets_off. split; [done|]. by exists (shared w1). }
  destruct (IH report1 w2 Hw2) as (r & w' & E & Hk' & Hall & Hag'). exists r, w'. split; [exact E|].
  split; [by repeat (etransitivity; [eassumption|])|]. split.
  - intros report' ->. destruct (Hall _ eq_refl) as [Hincl' Hon]. split; [intros x Hx; by apply Hincl', Hincl|].
    intros Hf k id [->|Hk]%elem_of_cons Hno; [|by apply Hon]. eapply on_at_later; [done|exact Hk'|].
    intros s2 Hs2. destruct (is_off ring s2) eqn:Eo; [|done]. pose proof (Hf _ _ Hk2 _ _ Hs2 Eo) as Hs1. rewrite <- Eo.
    apply (Hall2 Hf id s2); [by apply elem_secrets_off|intros Hx; by apply Hno, Hincl'|done].
  - intros Ha Hf. destruct (Hag2 (Hag Ha)) as [Ha2 Hun2]. destruct (Hag' Ha2 Hf) as (report' & -> & Hun'). exists report'. split; [done|].
    intros x [[Hx|(s & Hs & Hc)]%Hun2|(k & s & Hs & Hoff & Hc)]%Hun'; [by left|right..].
    + apply elem_secrets_off in Hs as [Hs Hoff]. exists kind, s. split; [by apply (Hf _ _ Hd)|done].
    + exists k, s. split; [|done]. apply (Hf _ _ Hd); [|done]. by apply (Hf _ _ Hk2).
Qed.
End pass.

(** A pass writes among others who seal under the same first key, and among
    others who keep the texts. *)
Lemma writes_first_may_write R `{!PreOrder R} : (forall d d', R d d' -> writes_first d d') -> (forall d d', seals_again d d' -> R d d') -> may_write R.
Proof.
  intros Hf Hs kind id s x p d0 d H0 Hoff Hd Ep Hx Ep'. destruct (reseal_secret_eq (kind, id) (Stored.key_id s) x d) as [->|(s1 & Hs1 & Hk & ->)]; [reflexivity|].
  apply Hs. assert (E : is_off ring s1 = true) by (unfold is_off in *; by rewrite Hk). pose proof (Hf _ _ Hd _ _ Hs1 E) as E1. rewrite H0 in E1.
  injection E1 as <-. exists (kind, id), s, (sealed_as x), p. by split_and!; [..|apply sealed_on| | |].
Qed.
Lemma same_texts_may_write : may_write same_texts.
Proof.
  intros kind id s x p d0 d H0 Hoff Hd Ep Hx Ep'. destruct (reseal_secret_eq (kind, id) (Stored.key_id s) x d) as [->|(s1 & Hs1 & Hk & ->)]; [reflexivity|].
  intros place. destruct (decide (place = (kind, id))) as [->|Hne]; [|rewrite lookup_insert_ne by done; destruct (d !! place); [by left|done]].
  rewrite lookup_insert_eq, Hs1. right. exists p. specialize (Hd (kind, id)). rewrite H0, Hs1 in Hd. split; [|by split; [|eexists]].
  destruct Hd as [->|(q & ? & ? & _)]; [done|]. cbn in *. congruence.
Qed.
Lemma seals_again_writes_first d d' : seals_again d d' -> writes_first d d'.
Proof.
  intros (place & s & s' & p & Hs & _ & Hon & _ & _ & ->) place' s1 [[<- <-]|[Hne Hs1]]%lookup_insert_Some Hoff; [congruence|done].
Qed.

(** C29: Rotating the key of stored secrets loses none.  Whatever calls of the
    pass fail or lose their reply: every value has the text it had, as it was
    or sealed again, as long as the others who run meanwhile keep the texts and
    write what this ring reads, with whatever ring of their own; and among
    others whose first key is the same, who may also store values anew or
    remove them, all the pass does is to seal again what was under another key,
    so that nothing stored anew is overwritten, and what its report does not
    name is then under the first key, where a ring that lists only that key
    reads the same.  Alone, and with no call failing, the report names only what
    could not be read or not be sealed. *)
Theorem resealing_keeps_every_secret w :
  let '(r, w') := reseal_all ring jwt_secret draw_nonce w in
  (rely same_texts w -> same_texts (shared w) (shared w')) /\
  (forall R, PreOrder R -> (forall d d', R d d' -> writes_first d d') -> (forall d d', seals_again d d' -> R d d') ->
     rely R w -> R (shared w) (shared w')) /\
  (forall report, rely writes_first w -> r = Ok report -> forall place s', shared w' !! place = Some s' -> place.2 ∉ ResealReport.unreadable report ->
     Stored.key_id s' = Some (Keyring.current ring) /\
     forall ring' p, Keyring.keys ring' !! Keyring.current ring = Keyring.keys ring !! Keyring.current ring ->
       reads place.1 s' = Ok p -> unseal ring' None (SecretKind.purpose place.1) s' = Ok p) /\
  (agenda w = [] -> exists report, r = Ok report /\ forall id, id ∈ ResealReport.unreadable report ->
     exists kind s, shared w !! (kind, id) = Some s /\ is_off ring s = true /\ cannot kind s).
Proof.
  unfold reseal_all. destruct (reseal_kinds _ _ _ _ _ w) as [r w'] eqn:E. split_and!.
  - intros Hw. destruct (reseal_kinds_among same_texts same_texts_may_write SecretKind.every ResealReport.empty w Hw) as (? & ? & E' & Hk & _).
    rewrite E in E'. by injection E' as -> ->.
  - intros R HR Hf Hs Hw. destruct (reseal_kinds_among R (writes_first_may_write R Hf Hs) SecretKind.every ResealReport.empty w Hw) as (? & ? & E' & Hk & _).
    rewrite E in E'. by injection E' as -> ->.
  - intros report Hw -> place s' Hs' Hno.
    destruct (reseal_kinds_among writes_first (writes_first_may_write _ (fun _ _ H => H) seals_again_writes_first) SecretKind.every ResealReport.empty w Hw) as (? & ? & E' & _ & Hall & _).
    rewrite E in E'. injection E' as <- <-. destruct (Hall _ eq_refl) as [_ Hon].
    assert (Hoff : is_off ring s' = false). { destruct place as [k id]. apply (Hon (fun _ _ H => H) k id); [destruct k; set_solver|done..]. }
    assert (Hid : Stored.key_id s' = Some (Keyring.current ring)) by (unfold is_off in Hoff; by case_bool_decide). split; [exact Hid|].
    intros ring' p Hr. unfold unseal. rewrite Hid. unfold open_sealed, cipher. by rewrite Hr.
  - intros Ha. assert (Hw : rely writes_first w) by (unfold rely; rewrite Ha; constructor).
    destruct (reseal_kinds_among writes_first (writes_first_may_write _ (fun _ _ H => H) seals_again_writes_first) SecretKind.every ResealReport.empty w Hw) as (? & ? & E' & _ & _ & Hal).
    rewrite E in E'. injection E' as <- <-. destruct (Hal Ha (fun _ _ H => H)) as (report & -> & Hun). exists report. split; [done|].
    intros id [Hid|Hid]%Hun; [by apply elem_of_nil in Hid|done].
Qed.
End laws.

(** ** An example *)

Module SampleSecrets.
Definition is_byte (b : Z) : bool := (0 <=? b) && (b <? 256).
(** A cipher that marks the text with the first byte of the key. *)
#[export] Instance marking : Sealing := {|
  base64_decode := fun s => Some s;
  sha256 := fun b => reverse b;
  aead_encrypt := fun k _ p => if forallb is_byte p then Some (hd 0 k :: p) else None;
  aead_decrypt := fun k _ c => match c with m :: p => if (m =? hd 0 k) && forallb is_byte p then Some p else None | [] => None end;
  debug_str := fun s => s;
|}.
#[export] Instance marking_laws : SealingLaws marking.
Proof.
  split; cbn.
  - intros k n p c E. destruct (forallb is_byte p) eqn:Ep; [|done]. injection E as <-. by rewrite Z.eqb_refl, Ep.
  - intros k n [|m c] p E; [done|]. destruct (m =? hd 0 k); [|done]. cbn in E. destruct (forallb is_byte c) eqn:Ec; [|done]. injection E as <-.
    apply List.Forall_forall. intros b Hb. eapply forallb_forall in Ec; [|exact Hb]. unfold is_byte in Ec. lia.
Qed.
Definition key (b : Z) : bytes := repeat b 32.
Definition ring : Keyring.t := {| Keyring.current := $"k2"; Keyring.keys := {[ $"k2" := key 2; $"k1" := key 1 ]} |}.
Definition nonce : bytes := repeat 0 12.
Definition under (b : Z) (k : option str) (text : str) : Stored.t :=
  {| Stored.ciphertext := b :: as_bytes text; Stored.nonce := nonce; Stored.key_id := k |}.
Definition secrets : Secrets := {[
  (SecretKind.AppSecret, $"workspace app") := under 1 (Some ($"k1")) ($"client");
  (SecretKind.TotpSecret, $"two-factor secret") := under 111 None ($"base32")
]}.
(** Between the moments the secret of the workspace app is read and written,
    somebody sets it anew. *)
Definition set_anew (d : Secrets) : Secrets := <[(SecretKind.AppSecret, $"workspace app") := under 2 (Some ($"k2")) ($"another")]> d.
Definition meanwhile : list (SvcTick Secrets) :=
  [ {| others := id; call_fault := None |}; {| others := set_anew; call_fault := None |}; {| others := id; call_fault := None |} ].
Definition pass (turns : list (SvcTick Secrets)) : AppResult ResealReport.t * SvcWorld Secrets :=
  reseal_all ring (Some ($"jwt")) (fun _ => nonce) {| shared := secrets; agenda := turns |}.
End SampleSecrets.
Import SampleSecrets.

Lemma set_anew_writes_first d : writes_first ring d (set_anew d).
Proof. unfold set_anew. intros place s [[<- <-]|[_ Hs]]%lookup_insert_Some Hoff; [vm_compute in Hoff; discriminate|done]. Qed.

Example a_pass_alone : exists report w', pass [] = (Ok report, w') /\ ResealReport.resealed report = 1%nat /\
  ResealReport.unreadable report = [ $"two-factor secret"] /\
  Stored.key_id <$> shared w' !! (SecretKind.AppSecret, $"workspace app") = Some (Some ($"k2")).
Proof. do 2 eexists. split; [vm_compute; reflexivity|]. split_and!; vm_compute; reflexivity. Qed.

(** A row is written if its key has the name that was read, whatever else it
    holds: a secret that is set meanwhile by a process whose ring still begins
    with the old key is overwritten with the one before. *)
Definition set_under_old (d : Secrets) : Secrets := <[(SecretKind.AppSecret, $"workspace app") := under 1 (Some ($"k1")) ($"another")]> d.
Theorem a_rotation_loses_what_is_set_meanwhile :
  let w' := (pass [ {| others := id; call_fault := None |}; {| others := set_under_old; call_fault := None |} ]).2 in
  (s ← shared w' !! (SecretKind.AppSecret, $"workspace app"); Some (unseal ring None APP_SECRETS s)) = Some (Ok ($"client")).
Proof. vm_compute. reflexivity. Qed.

Lemma resealing_keeps_every_secret_witness : exists report w', pass meanwhile = (Ok report, w') /\
  ResealReport.unreadable report = [ $"two-factor secret"] /\
  shared w' !! (SecretKind.AppSecret, $"workspace app") = Some (under 2 (Some ($"k2")) ($"another")) /\
  forall place s', shared w' !! place = Some s' -> place.2 ∉ ResealReport.unreadable report -> Stored.key_id s' = Some ($"k2").
Proof.
  assert (Hw : rely (writes_first ring) {| shared := secrets; agenda := meanwhile |}).
  { repeat constructor; intros d; [by intros place s|apply set_anew_writes_first|by intros place s]. }
  pose proof (resealing_keeps_every_secret ring (Some ($"jwt")) (fun _ => nonce) (fun _ => eq_refl) {| shared := secrets; agenda := meanwhile |}) as H.
  fold (pass meanwhile) in H. assert (Ep : exists report w', pass meanwhile = (Ok report, w') /\ ResealReport.unreadable report = [ $"two-factor secret"] /\
    shared w' !! (SecretKind.AppSecret, $"workspace app") = Some (under 2 (Some ($"k2")) ($"another"))).
  { do 2 eexists. split; [vm_compute; reflexivity|]. split; vm_compute; reflexivity. }
  destruct Ep as (report & w' & E & Hun & Happ). rewrite E in H. destruct H as (_ & _ & H & _).
  exists report, w'. split; [done|]. split; [done|]. split; [done|]. intros place s' Hs' Hno. exact (proj1 (H report Hw eq_refl place s' Hs' Hno)).
Defined.
