(* ===== verification/SessionKeys.v ===== *)
(** * The keys of sessions ([backend/shared/common/src/session_keys.rs], the
    claims and the revocation records of [api/src/middleware.rs])

    A session is a token signed with the first of the listed keys, which names
    it; every listed key verifies, so that keys rotate: add, promote, retire. *)

From stdpp Require Import base tactics option numbers list gmap.
From Stdlib Require Import ZArith Lia String Ascii.
From S2P Require Import Prelude RustStr Errors Sealed.

Definition SPKI_PREFIX : bytes := [48; 42; 48; 5; 6; 3; 43; 101; 112; 3; 33; 0].
Definition PUBLIC_KEY_BYTES : Z := 32.

(** [middleware.rs]; times are seconds. *)
Module SessionClaims.
Record t := {
  sub : Uuid; email : str; is_instance_admin : bool; iat : Z; exp : Z; jti : option Uuid; token_type : str; invite_id : option Uuid;
}.
End SessionClaims.

Module RevocationMark.
Record t := { at_ : Z; except_jti : option Uuid }.
(** [RevocationRecord::covers] *)
Definition covers (r : t) (c : SessionClaims.t) : bool :=
  if at_ r <? SessionClaims.iat c then false
  else negb (match except_jti r, SessionClaims.jti c with
             | Some except, Some jti => bool_decide (except = jti)
             | _, _ => false
             end).
End RevocationMark.

Inductive JwtAlgorithm := EdDSA | OtherAlgorithm.
Module JwtHeader.
Record t := { alg : JwtAlgorithm; kid : option str }.
End JwtHeader.

(** The cryptography and [jsonwebtoken]: the public half of a private key, the
    header of a token, signing, and verifying at a time in seconds. *)
Class Jwt := {
  ed25519_public : bytes -> option bytes;
  decode_header : str -> option JwtHeader.t;
  jwt_encode : JwtHeader.t -> SessionClaims.t -> bytes -> option str;
  jwt_decode : bytes -> Z -> str -> option SessionClaims.t;
  base64_encode : bytes -> str;
}.
(** A token names its header and its claims; the public half of the key it was
    signed with verifies it until it expires, a minute of leeway later at the
    latest. *)
Definition JWT_LEEWAY : Z := 60.
Class JwtLaws (J : Jwt) := {
  decode_header_encode : forall h c key token, jwt_encode h c key = Some token -> decode_header token = Some h;
  jwt_decode_encode : forall h c key public token now, jwt_encode h c key = Some token -> ed25519_public key = Some public ->
    now <= SessionClaims.exp c -> jwt_decode public now token = Some c;
  jwt_decode_only : forall h c c' key public token now, jwt_encode h c key = Some token -> ed25519_public key = Some public ->
    jwt_decode public now token = Some c' -> c' = c;
  jwt_decode_expired : forall h c key public token now, jwt_encode h c key = Some token -> ed25519_public key = Some public ->
    SessionClaims.exp c + JWT_LEEWAY < now -> jwt_decode public now token = None;
}.

Module VerifyingKeys.
(** In the order of the list; the key of a name. *)
Record t := { order : list (str * bytes); keys : gmap str bytes }.
End VerifyingKeys.
Module SigningKeys.
Record t := { current : str; encoding : bytes; verifying : VerifyingKeys.t }.
End SigningKeys.

Section session_keys.
Context `{Sealing} `{Jwt}.

Fixpoint session_entries (entries : list str) (seen : gset str) : result str (list (str * bytes)) :=
  match entries with
  | [] => Ok []
  | entry :: entries =>
      match split_once 58 entry with
      | None => Err ($"every entry must be id:base64-key")
      | Some (id, encoded) =>
          if bool_decide (id = []) || negb (forallb key_id_char id) then
            Err ($"key id " ++ debug_str id ++ $" must be letters, digits, '-' or '_'")
          else if bool_decide (id ∈ seen) then Err ($"key id " ++ debug_str id ++ $" appears twice")
          else
            match base64_decode (trim encoded) with
            | None => Err ($"key " ++ debug_str id ++ $" is not base64")
            | Some key => rest ← session_entries entries ({[id]} ∪ seen); Ok ((id, key) :: rest)
            end
      end
  end.
(** [entries] *)
Definition parse_session_entries (raw : str) : result str (list (str * bytes)) :=
  out ← session_entries (key_entries raw) ∅;
  match out with [] => Err ($"no key given") | _ => Ok out end.

Fixpoint strip_bytes (p b : bytes) : option bytes :=
  match p, b with
  | [], b => Some b
  | x :: p, y :: b => if x =? y then strip_bytes p b else None
  | _ :: _, [] => None
  end.

Definition from_public (order : list (str * bytes)) : VerifyingKeys.t :=
  {| VerifyingKeys.order := order; VerifyingKeys.keys := list_to_map order |}.

Fixpoint each_ok {A B} (f : A -> result str B) (l : list A) : result str (list B) :=
  match l with [] => Ok [] | x :: l => y ← f x; ys ← each_ok f l; Ok (y :: ys) end.

Definition public_entry (e : str * bytes) : result str (str * bytes) :=
  match strip_bytes SPKI_PREFIX e.2 with
  | Some key => if Z.of_nat (length key) =? PUBLIC_KEY_BYTES then Ok (e.1, key) else Err ($"key " ++ debug_str e.1 ++ $" is not an Ed25519 public key")
  | None => Err ($"key " ++ debug_str e.1 ++ $" is not an Ed25519 public key")
  end.
Definition parse_verifying (raw : str) : result str VerifyingKeys.t :=
  es ← parse_session_entries raw; order ← each_ok public_entry es; Ok (from_public order).

Definition private_entry (e : str * bytes) : result str (str * bytes) :=
  match ed25519_public e.2 with
  | None => Err ($"key " ++ debug_str e.1 ++ $" is not an Ed25519 private key in PKCS#8")
  | Some public =>
      if Z.of_nat (length public) =? PUBLIC_KEY_BYTES then Ok (e.1, public) else Err ($"key " ++ debug_str e.1 ++ $" has no 32-byte public half")
  end.
Definition parse_signing (raw : str) : result str SigningKeys.t :=
  es ← parse_session_entries raw; public ← each_ok private_entry es;
  match head es with
  | None => Err ($"no key given")
  | Some (id, der) => Ok {| SigningKeys.current := id; SigningKeys.encoding := der; SigningKeys.verifying := from_public public |}
  end.

Definition listing (v : VerifyingKeys.t) : str :=
  let texts := (fun e : str * bytes => e.1 ++ $":" ++ base64_encode (SPKI_PREFIX ++ e.2)) <$> VerifyingKeys.order v in
  match texts with [] => [] | t :: ts => t ++ mjoin ((fun t => $"," ++ t) <$> ts) end.

(** [VerifyingKeys::decode], whose errors all its callers treat alike. *)
Definition decode_session (v : VerifyingKeys.t) (now : Z) (token : str) : option SessionClaims.t :=
  header ← decode_header token;
  match JwtHeader.alg header with
  | OtherAlgorithm => None
  | EdDSA => kid ← JwtHeader.kid header; key ← VerifyingKeys.keys v !! kid; jwt_decode key now token
  end.
(** [SigningKeys::encode] *)
Definition encode_session (k : SigningKeys.t) (c : SessionClaims.t) : option str :=
  jwt_encode {| JwtHeader.alg := EdDSA; JwtHeader.kid := Some (SigningKeys.current k) |} c (SigningKeys.encoding k).
End session_keys.

(** ** Rotation *)

Section laws.
Context `{Sealing} `{JwtLaws}.

Lemma session_entries_NoDup es seen out : session_entries es seen = Ok out -> NoDup out.*1 /\ forall id, id ∈ out.*1 -> id ∉ seen.
Proof.
  revert seen out. induction es as [|e es IH]; cbn [session_entries]; intros seen out E.
  { injection E as <-. split; [constructor|]. cbn. set_solver. }
  repeat case_match; try done; subst. apply bind_Ok in E as (rest & Er & E). injection E as <-. apply IH in Er as [Hnd Hs].
  case_bool_decide; [done|]. cbn. split; [constructor; [|done]|]; [intros Hin; apply Hs in Hin; set_solver|].
  intros id [->|Hin]%elem_of_cons; [done|]. apply Hs in Hin. set_solver.
Qed.
Lemma each_ok_fst {B} (f : str * bytes -> result str (str * B)) es out :
  (forall e y, f e = Ok y -> y.1 = e.1) -> each_ok f es = Ok out -> out.*1 = es.*1.
Proof.
  intros Hf. revert out. induction es as [|e es IH]; cbn; intros out E; [by injection E as <-|].
  apply bind_Ok in E as (y & Ey & E). apply bind_Ok in E as (ys & Eys & E). injection E as <-. cbn. f_equal; auto.
Qed.

(** The key a parsed ring signs with is one it verifies with. *)
Lemma parse_signing_current raw k : parse_signing raw = Ok k -> exists public,
  ed25519_public (SigningKeys.encoding k) = Some public /\ VerifyingKeys.keys (SigningKeys.verifying k) !! SigningKeys.current k = Some public.
Proof.
  unfold parse_signing. intros E. apply bind_Ok in E as (es & Ees & E). apply bind_Ok in E as (public & Ep & E).
  destruct es as [|[id der] es]; [done|]. cbn in E. injection E as <-. cbn in *.
  apply bind_Ok in Ep as (y & Ey & Ep). apply bind_Ok in Ep as (ys & Eys & Ep). injection Ep as <-.
  unfold private_entry in Ey. cbn in Ey. destruct (ed25519_public der) as [p|]; [|done]. case_match; [|done]. injection Ey as <-.
  exists p. split; [done|]. cbn. apply lookup_insert_eq.
Qed.

(** A session outlives the rotation of the keys.  A token signed with the first
    key of one list verifies under every list that still names that key with
    the same public half, wherever it stands, until the token expires; under a
    list that no longer names it, and after the leeway, it does not. *)
Theorem sessions_outlive_rotation raw k v c token now :
  parse_signing raw = Ok k -> encode_session k c = Some token ->
  decode_session v now token =
    match VerifyingKeys.keys v !! SigningKeys.current k with
    | Some public => jwt_decode public now token
    | None => None
    end /\
  (VerifyingKeys.keys v !! SigningKeys.current k = VerifyingKeys.keys (SigningKeys.verifying k) !! SigningKeys.current k ->
    (now <= SessionClaims.exp c -> decode_session v now token = Some c) /\
    (SessionClaims.exp c + JWT_LEEWAY < now -> decode_session v now token = None)).
Proof.
  intros Hk E. apply parse_signing_current in Hk as (public & Hp & Hv). unfold encode_session in E.
  assert (Ed : decode_session v now token = match VerifyingKeys.keys v !! SigningKeys.current k with
    | Some public => jwt_decode public now token | None => None end).
  { unfold decode_session. rewrite (decode_header_encode _ _ _ _ E). cbn. by destruct (VerifyingKeys.keys v !! _). }
  split; [exact Ed|]. intros Hkey. rewrite Ed, Hkey, Hv.
  split; intros Hnow; [by eapply jwt_decode_encode|by eapply jwt_decode_expired].
Qed.
End laws.
