(* ===== verification/AuthStore.v ===== *)
(** * Tables of sign-in
    ([backend/api/src/auth/{repo,totp_repo,email_code_repo}.rs])

    The rows that let a person in beside the account itself, and what Redis
    keeps for sign-in: the marks of revoked sessions and the counters of
    attempts. *)

From stdpp Require Import base tactics option numbers list gmap.
From Stdlib Require Import ZArith Lia String Ascii.
From S2P Require Import Prelude RustStr Errors Sealed.

(** Keyed by [token_hash], which is unique. *)
Module RefreshToken.
Record t := { user_id : Uuid; expires_at : Z }.
End RefreshToken.

(** Keyed by [jti]. *)
Module ResetToken.
Record t := { user_id : Uuid; expires_at : Z }.
End ResetToken.

(** One per account. *)
Module EmailCode.
Record t := { code_hash : str; attempts : Z; expires_at : Z; used_at : option Z }.
Definition set_attempts (n : Z) (c : t) : t :=
  {| code_hash := code_hash c; attempts := n; expires_at := expires_at c; used_at := used_at c |}.
Definition set_used (at_ : Z) (c : t) : t :=
  {| code_hash := code_hash c; attempts := attempts c; expires_at := expires_at c; used_at := Some at_ |}.
End EmailCode.

(** One per account. *)
Module TotpEnrolment.
Record t := { secret : Stored.t; confirmed_at : option Z; last_used_step : option Z }.
Definition is_active (e : t) : bool := bool_decide (is_Some (confirmed_at e)).
Definition set_step (step : Z) (e : t) : t :=
  {| secret := secret e; confirmed_at := confirmed_at e; last_used_step := Some step |}.
Definition set_confirmed (at_ step : Z) (e : t) : t :=
  {| secret := secret e; confirmed_at := Some at_; last_used_step := Some step |}.
End TotpEnrolment.

Module RecoveryCode.
Record t := { user_id : Uuid; code_hash : str; used_at : option Z }.
Definition set_used (at_ : Z) (c : t) : t := {| user_id := user_id c; code_hash := code_hash c; used_at := Some at_ |}.
End RecoveryCode.

(** The columns of an app that signing in reads. *)
Module BotApp.
Record t := { workspace_id : Uuid; bot_user_id : Uuid; token_hash : str; scopes : list str }.
End BotApp.

Record AuthTables := {
  refresh_tokens : gmap str RefreshToken.t;
  password_reset_tokens : gmap Uuid ResetToken.t;
  email_sign_in_codes : gmap Uuid EmailCode.t;
  user_totp : gmap Uuid TotpEnrolment.t;
  totp_recovery_codes : gmap Uuid RecoveryCode.t;
  passkeys : gmap Uuid Uuid;                (** the account of a passkey *)
  oauth_accounts : gmap (str * str) Uuid;   (** the account of a provider's identity *)
  bot_apps : gmap Uuid BotApp.t;
  app_connections : gset (Uuid * Uuid * str);  (** workspace, account and provider *)
  email_code_sign_in : bool;                (** of [instance_settings] *)
  redis_counters : gmap str (Z * Z);        (** how often, and when it expires *)
  redis_values : gmap str (str * Z);        (** the text, and when it expires *)
}.
Definition no_sign_ins : AuthTables :=
  {| refresh_tokens := ∅; password_reset_tokens := ∅; email_sign_in_codes := ∅; user_totp := ∅; totp_recovery_codes := ∅;
     passkeys := ∅; oauth_accounts := ∅; bot_apps := ∅; app_connections := ∅; email_code_sign_in := true; redis_counters := ∅; redis_values := ∅ |}.

Definition set_refresh_tokens f (t : AuthTables) : AuthTables :=
  let '(Build_AuthTables rt pr ec ut rc pk oa ba ac es cs vs) := t in Build_AuthTables (f rt) pr ec ut rc pk oa ba ac es cs vs.
Definition set_password_reset_tokens f (t : AuthTables) : AuthTables :=
  let '(Build_AuthTables rt pr ec ut rc pk oa ba ac es cs vs) := t in Build_AuthTables rt (f pr) ec ut rc pk oa ba ac es cs vs.
Definition set_email_sign_in_codes f (t : AuthTables) : AuthTables :=
  let '(Build_AuthTables rt pr ec ut rc pk oa ba ac es cs vs) := t in Build_AuthTables rt pr (f ec) ut rc pk oa ba ac es cs vs.
Definition set_user_totp f (t : AuthTables) : AuthTables :=
  let '(Build_AuthTables rt pr ec ut rc pk oa ba ac es cs vs) := t in Build_AuthTables rt pr ec (f ut) rc pk oa ba ac es cs vs.
Definition set_totp_recovery_codes f (t : AuthTables) : AuthTables :=
  let '(Build_AuthTables rt pr ec ut rc pk oa ba ac es cs vs) := t in Build_AuthTables rt pr ec ut (f rc) pk oa ba ac es cs vs.
Definition set_oauth_accounts f (t : AuthTables) : AuthTables :=
  let '(Build_AuthTables rt pr ec ut rc pk oa ba ac es cs vs) := t in Build_AuthTables rt pr ec ut rc pk (f oa) ba ac es cs vs.
Definition set_redis_counters f (t : AuthTables) : AuthTables :=
  let '(Build_AuthTables rt pr ec ut rc pk oa ba ac es cs vs) := t in Build_AuthTables rt pr ec ut rc pk oa ba ac es (f cs) vs.
Definition set_redis_values f (t : AuthTables) : AuthTables :=
  let '(Build_AuthTables rt pr ec ut rc pk oa ba ac es cs vs) := t in Build_AuthTables rt pr ec ut rc pk oa ba ac es cs (f vs).
Definition set_app_connections f (t : AuthTables) : AuthTables :=
  let '(Build_AuthTables rt pr ec ut rc pk oa ba ac es cs vs) := t in Build_AuthTables rt pr ec ut rc pk oa ba (f ac) es cs vs.
Definition set_email_code_sign_in (on : bool) (t : AuthTables) : AuthTables :=
  let '(Build_AuthTables rt pr ec ut rc pk oa ba ac es cs vs) := t in Build_AuthTables rt pr ec ut rc pk oa ba ac on cs vs.
