(* ===== verification/Outbox.v ===== *)
(** * The transactional outbox
    ([backend/api/src/messaging/outbox.rs], [publisher.rs])

    A durable event is a row written with the change it describes; the handler
    then publishes it (the fast path) and marks the row, and a relay publishes
    whatever rows are left.  The shared state is the table, and what Redis has
    accepted: the entries of the workspace logs and the messages of the
    channels.  Other replicas of the API and of the relay run the same code
    between any two calls. *)

From stdpp Require Import base tactics option numbers list gmap sorting.
From Stdlib Require Import ZArith Lia String Ascii.
From S2P Require Import Prelude RustStr Json Errors Frames Publisher ApiState.

Definition BATCH : nat := 100.
#[global] Arguments BATCH : simpl never.
Definition FAST_PATH_GRACE_SECS : Z := 5.
Definition CLAIM_LEASE_SECS : Z := 60.
Definition KEEP_PUBLISHED_HOURS : Z := 24.

(** A row of [event_outbox]; times are in seconds. *)
Record OutboxRow := {
  row_event : Event;
  row_workspace : Uuid;
  created_at : Z;
  published_at : option Z;
  claimed_at : option Z;
}.

(** The shared state: the outbox and what Redis has accepted, beside the tables
    [R] of the rest of the application, which this component leaves alone. *)
Record Db (R : Type) := {
  outbox : gmap Z OutboxRow;
  next_row : Z;                       (** the sequence of [id] *)
  stream_index : gset str;
  log : list (str * str * Event);     (** (stream, id, event) every [XADD] accepted *)
  out : list (str * Event);           (** (channel, event) every [PUBLISH] accepted *)
  app : R;
}.
Arguments outbox {R} _.
Arguments next_row {R} _.
Arguments stream_index {R} _.
Arguments log {R} _.
Arguments out {R} _.
Arguments app {R} _.

Definition with_outbox {R} (f : gmap Z OutboxRow -> gmap Z OutboxRow) (d : Db R) : Db R :=
  {| outbox := f (outbox d); next_row := next_row d; stream_index := stream_index d; log := log d; out := out d;
     app := app d |}.

Definition with_stream_id (id : str) (e : Event) : Event :=
  {| event_id := event_id e; event_type := event_type e; payload := payload e;
     timestamp := timestamp e; stream_id := Some id |}.

(** [ORDER BY id] *)
Definition id_le (a b : Z * OutboxRow) : Prop := a.1 <= b.1.
#[export] Instance id_le_dec a b : Decision (id_le a b).
Proof. unfold id_le. apply _. Defined.

(** What a caller holds after staging. *)
Record Staged := { row_id : Z; event : Event; workspace_id : Uuid }.

Section outbox.
Context {R : Type}.
Abbreviation Tables := (Db R).
(** The id Redis gives the next entry of a stream. *)
Context `{UuidText} (entry_id : str -> list (str * str * Event) -> str).
(** The order [UPDATE .. RETURNING] lists rows in, and the rows a [LIMIT]
    without an order keeps. *)
Context (returning : list (Z * OutboxRow) -> list (Z * OutboxRow)) (limited : list Z -> list Z).
(** The clock of the database and of the process. *)
Context (now : Z).

(** [Event::new], with the identifier it draws. *)
Definition new_event (id : Uuid) (event_type : str) (payload : json) : Event :=
  {| event_id := id; event_type := event_type; payload := payload; timestamp := now; stream_id := None |}.

(** ** Publishing *)

Definition append (key : str) (e : Event) (d : Tables) : Tables * str :=
  let id := entry_id key (log d) in
  ({| outbox := outbox d; next_row := next_row d; stream_index := stream_index d;
      log := log d ++ [(key, id, e)]; out := out d; app := app d |}, id).

Definition publish_to (channel : str) (e : Event) (d : Tables) : Tables :=
  {| outbox := outbox d; next_row := next_row d; stream_index := stream_index d; log := log d;
     out := out d ++ [(channel, e)]; app := app d |}.

Definition index_stream (key : str) (d : Tables) : Tables :=
  {| outbox := outbox d; next_row := next_row d; stream_index := {[key]} ∪ stream_index d;
     log := log d; out := out d; app := app d |}.

Definition emit_error (what : string) (f : svc_fault) : AppError := Internal (lit what ++ fault_text f).

(** The append: [None] for an event that is not kept. *)
Definition append_durable (e : Event) (workspace : option Uuid) : Svc Tables (AppResult Event) :=
  match workspace with
  | Some ws =>
      if is_durable (event_type e) then
        let key := workspace_stream ws in
        _ ← svc_write (index_stream key);
        appended ← svc_call (append key e);
        mret (match appended with
              | Ok id => Ok (with_stream_id id e)
              | Err f => Err (emit_error "Redis XADD failed: " f)
              end)
      else mret (Ok e)
  | None => mret (Ok e)
  end.

Definition emit (e : Event) (workspace : option Uuid) : Svc Tables (AppResult Event) :=
  e ←? append_durable e workspace;
  let channel := $"events:" ++ event_group (event_type e) in
  sent ← svc_write (publish_to channel e);
  mret (match sent with
        | Ok _ => Ok e
        | Err f => Err (emit_error "Redis publish failed: " f)
        end).

Definition publish (id : Uuid) (event_type : str) (payload : json) : Svc Tables (AppResult Event) :=
  emit (new_event id event_type payload) None.

(** ** The rows *)

Definition mark (row : Z) (d : Tables) : Tables :=
  with_outbox (alter (fun r => {| row_event := row_event r; row_workspace := row_workspace r;
    created_at := created_at r; published_at := Some now; claimed_at := claimed_at r |}) row) d.

Definition mark_published (row : Z) : Svc Tables unit := _ ← svc_write (mark row); mret tt.

(** The insertion of [stage] and the commit of the caller's transaction, which
    take effect together. *)
Definition insert_row (e : Event) (ws : Uuid) (d : Tables) : Tables * Staged :=
  ({| outbox := <[next_row d := {| row_event := e; row_workspace := ws; created_at := timestamp e;
                                   published_at := None; claimed_at := None |}]> (outbox d);
      next_row := next_row d + 1; stream_index := stream_index d; log := log d; out := out d; app := app d |},
   {| row_id := next_row d; event := e; workspace_id := ws |}).

Definition stage (id : Uuid) (event_type : str) (ws : Uuid) (payload : json) : Svc Tables (AppResult Staged) :=
  sql (insert_row (new_event id event_type payload) ws).

Definition dispatch (s : Staged) : Svc Tables unit :=
  sent ← emit (event s) (Some (workspace_id s));
  match sent with Ok _ => mark_published (row_id s) | Err _ => mret tt end.

Definition dispatch_all (l : list Staged) : Svc Tables unit := svc_each l dispatch.

Definition publish_scoped (id : Uuid) (event_type : str) (ws : Uuid) (payload : json)
    : Svc Tables (AppResult unit) :=
  if negb (is_durable event_type) then
    sent ← emit (new_event id event_type payload) (Some ws);
    mret (match sent with Ok _ => Ok tt | Err e => Err e end)
  else
    staged ←? stage id event_type ws payload;
    _ ← dispatch staged;
    mret (Ok tt).

(** ** The relay *)

Definition older_than (n : Z) (at_ : Z) : bool := at_ <? now - n * SECOND.

(** What the claim's [WHERE] asks of a row. *)
Definition due (r : OutboxRow) : bool :=
  bool_decide (published_at r = None) && older_than FAST_PATH_GRACE_SECS (created_at r)
  && match claimed_at r with None => true | Some at_ => older_than CLAIM_LEASE_SECS at_ end.

Definition by_id (l : list (Z * OutboxRow)) : list (Z * OutboxRow) := merge_sort id_le l.

(** [ORDER BY id LIMIT $1 FOR UPDATE SKIP LOCKED]; [locked] are the rows other
    transactions hold. *)
Definition candidates (locked : gset Z) (d : Tables) : list (Z * OutboxRow) :=
  filter (fun p => due p.2 /\ p.1 ∉ locked) (map_to_list (outbox d)).

Definition claimable (locked : gset Z) (d : Tables) : list (Z * OutboxRow) :=
  take BATCH (by_id (candidates locked d)).

Definition claimed (r : OutboxRow) : OutboxRow :=
  {| row_event := row_event r; row_workspace := row_workspace r; created_at := created_at r;
     published_at := published_at r; claimed_at := Some now |}.

Definition claim (locked : gset Z) (d : Tables) : Tables * list (Z * OutboxRow) :=
  let rows := claimable locked d in
  (with_outbox (fun m => foldr (fun p m => alter claimed p.1 m) m rows) d, returning rows).

(** One row of the relay's loop; whether it was published. *)
Definition relay_row (p : Z * OutboxRow) : Svc Tables bool :=
  sent ← emit (row_event p.2) (Some (row_workspace p.2));
  match sent with
  | Ok _ => _ ← mark_published p.1; mret true
  | Err _ => mret false
  end.

Fixpoint relay_rows (l : list (Z * OutboxRow)) : Svc Tables nat :=
  match l with
  | [] => mret O
  | p :: l => ok ← relay_row p; n ← relay_rows l; mret (if ok : bool then S n else n)
  end.

(** [DELETE .. WHERE published_at < NOW() - interval LIMIT 1000] *)
Definition stale (r : OutboxRow) : bool :=
  match published_at r with Some at_ => older_than (KEEP_PUBLISHED_HOURS * 3600) at_ | None => false end.

Definition prune (d : Tables) : Tables :=
  let ids := limited (fst <$> filter (fun p => stale p.2) (map_to_list (outbox d))) in
  with_outbox (fun m => foldr delete m ids) d.

Definition relay_once (locked : gset Z) : Svc Tables nat :=
  rows ← svc_call (claim locked);
  match rows with
  | Err _ => mret O
  | Ok rows =>
      relayed ← relay_rows rows;
      _ ← svc_write prune;
      mret relayed
  end.
End outbox.

(** ** What others are relied upon to do, and what this code does *)

Section safety.
Context {R : Type}.
Abbreviation Tables := (Db R).
Context `{UuidText}.
Implicit Types (d : Tables) (e : Event).

(** The event was accepted by [PUBLISH], on the channel of its group; if it is
    durable, with the position its entry has in the log of its workspace. *)
Definition delivered e (ws : Uuid) d : Prop :=
  exists e', ($"events:" ++ event_group (event_type e), e') ∈ out d /\
    event_id e' = event_id e /\ event_type e' = event_type e /\ payload e' = payload e /\
    (is_durable (event_type e) = true ->
       exists id, stream_id e' = Some id /\ (workspace_stream ws, id, e) ∈ log d).

Definition row_delivered (r : OutboxRow) d : Prop := delivered (row_event r) (row_workspace r) d.

(** A row is marked only when its event is out, and ids are never reused. *)
Definition sound d : Prop :=
  (forall id r, outbox d !! id = Some r -> id < next_row d) /\
  (forall id r, outbox d !! id = Some r -> published_at r <> None -> row_delivered r d).

(** What a step may do: the logs only grow, a row keeps its event, and a row
    that is not published stays unless its event is out. *)
Definition keeps : relation Tables := fun d d' =>
  sound d ->
  sound d' /\ next_row d <= next_row d' /\
  (forall x, x ∈ log d -> x ∈ log d') /\ (forall x, x ∈ out d -> x ∈ out d') /\
  (forall id r', outbox d' !! id = Some r' -> id < next_row d ->
     exists r, outbox d !! id = Some r /\ row_event r' = row_event r /\ row_workspace r' = row_workspace r) /\
  (forall id r, outbox d !! id = Some r -> published_at r = None ->
     (exists r', outbox d' !! id = Some r') \/ row_delivered r d').

Lemma delivered_mono e ws d d' :
  (forall x, x ∈ log d -> x ∈ log d') -> (forall x, x ∈ out d -> x ∈ out d') ->
  delivered e ws d -> delivered e ws d'.
Proof.
  intros Hlog Hout (e' & Hin & ? & ? & ? & Hd). exists e'. split_and!; auto.
  intros Hdur. destruct (Hd Hdur) as (id & ? & ?). exists id. auto.
Qed.

#[export] Instance keeps_preorder : PreOrder keeps.
Proof.
  split.
  - intros d Hd. split_and!; eauto; lia.
  - intros d1 d2 d3 H12 H23 H1. destruct (H12 H1) as (H2 & N12 & L12 & O12 & I12 & U12).
    destruct (H23 H2) as (H3 & N23 & L23 & O23 & I23 & U23).
    split_and!; auto; [lia|..].
    + intros id r3 Hr3 Hlt. destruct (I23 id r3 Hr3) as (r2 & Hr2 & E & W); [lia|].
      destruct (I12 id r2 Hr2 Hlt) as (r1 & Hr1 & E' & W'). exists r1. split; [done|]. split; congruence.
    + intros id r Hr Hp. destruct (U12 id r Hr Hp) as [(r2 & Hr2)|Hdel].
      * destruct (I12 id r2 Hr2) as (r0 & Hr0 & E & W); [by eapply H1|]. simplify_eq.
        destruct (published_at r2) eqn:Ep.
        -- right. unfold row_delivered. rewrite <-E, <-W. eapply delivered_mono; [exact L23|exact O23|].
           apply (proj2 H2 id r2 Hr2). by rewrite Ep.
        -- destruct (U23 id r2 Hr2 Ep) as [?|Hdel]; [by left|right].
           unfold row_delivered in *. by rewrite <-E, <-W.
      * right. by eapply delivered_mono.
Qed.

Lemma delivered_stable e ws : stable keeps (fun d => sound d /\ delivered e ws d).
Proof.
  intros d d' Hk [Hs Hd]. destruct (Hk Hs) as (Hs' & _ & L & O & _). split; [done|].
  by eapply delivered_mono.
Qed.

Lemma sound_stable : stable keeps sound.
Proof. intros d d' Hk Hs. by destruct (Hk Hs). Qed.

(** A step that leaves the rows as they are and only adds to the logs. *)
Lemma keeps_grows d d' :
  outbox d' = outbox d -> next_row d' = next_row d ->
  (forall x, x ∈ log d -> x ∈ log d') -> (forall x, x ∈ out d -> x ∈ out d') -> keeps d d'.
Proof.
  intros Hrows Hnext Hlog Hout [Hf Hm]. split; [|split; [lia|split; [done|split; [done|split]]]].
  - split.
    + intros id r. rewrite Hrows, Hnext. apply Hf.
    + intros id r. rewrite Hrows. intros Hr Hp. eapply delivered_mono; [done..|]. by eapply Hm.
  - intros id r'. rewrite Hrows. eauto.
  - intros id r. rewrite Hrows. eauto.
Qed.

(** An update of rows that keeps their events, and marks only what is out. *)
Lemma keeps_updates d (m : gmap Z OutboxRow) :
  (forall id r', m !! id = Some r' -> exists r, outbox d !! id = Some r /\ row_event r' = row_event r /\
     row_workspace r' = row_workspace r /\ (published_at r' <> None -> published_at r <> None \/ row_delivered r d)) ->
  (forall id r, outbox d !! id = Some r -> published_at r = None -> is_Some (m !! id) \/ row_delivered r d) ->
  keeps d (with_outbox (fun _ => m) d).
Proof.
  intros Hm Hkept [Hf Hp]. split; [|split; [cbn; lia|split; [done|split; [done|split]]]].
  - split; cbn.
    + intros id r' Hr'. destruct (Hm id r' Hr') as (r & Hr & _). by eapply Hf.
    + intros id r' Hr' Hpub. destruct (Hm id r' Hr') as (r & Hr & E & W & Hor).
      unfold row_delivered. rewrite E, W. eapply delivered_mono; [| |destruct (Hor Hpub); [by eapply Hp|done]]; done.
  - intros id r' Hr' _. destruct (Hm id r' Hr') as (r & ? & ? & ? & _). eauto.
  - intros id r Hr Hnone. destruct (Hkept id r Hr Hnone) as [[r' Hr']|Hd]; [left; eauto|right].
    by eapply delivered_mono.
Qed.
End safety.

Lemma foldr_delete (ids : list Z) (m : gmap Z OutboxRow) id :
  foldr delete m ids !! id = if decide (id ∈ ids) then None else m !! id.
Proof.
  induction ids as [|i ids IH]; cbn; [by rewrite decide_False by set_solver|].
  rewrite lookup_delete. destruct (decide (i = id)) as [<-|E]; [by rewrite decide_True by set_solver|].
  rewrite IH. clear IH. destruct (decide (id ∈ ids)); [rewrite decide_True by set_solver|rewrite decide_False by set_solver]; done.
Qed.

Lemma foldr_claimed now (rows : list (Z * OutboxRow)) (m : gmap Z OutboxRow) id :
  foldr (fun p m => alter (claimed now) p.1 m) m rows !! id =
    if decide (id ∈ rows.*1) then claimed now <$> m !! id else m !! id.
Proof.
  induction rows as [|p rows IH]; cbn [foldr]; [by rewrite decide_False by set_solver|].
  rewrite fmap_cons, lookup_alter. destruct (decide (p.1 = id)) as [<-|E].
  - rewrite (decide_True (P := p.1 ∈ p.1 :: _)) by set_solver. rewrite IH. case_decide; [|done].
    by destruct (m !! p.1).
  - rewrite IH. clear IH. destruct (decide (id ∈ rows.*1)); [rewrite decide_True by set_solver|rewrite decide_False by set_solver]; done.
Qed.

Section protocol.
Context {R : Type}.
Abbreviation Tables := (Db R).
Implicit Types (d : Tables) (w : SvcWorld Tables).
Context `{UuidText} (entry_id : str -> list (str * str * Event) -> str).
Context (now : Z).

(** A precondition the others cannot break. *)
Definition holds (P : Tables -> Prop) : Prop := stable keeps P /\ forall d, P d -> sound d.

(** [e'] is [e] with its position in the log, if it has one. *)
Definition positioned (e e' : Event) (ws : Uuid) (d : Tables) : Prop :=
  event_id e' = event_id e /\ event_type e' = event_type e /\ payload e' = payload e /\
  (is_durable (event_type e) = true -> exists id, stream_id e' = Some id /\ (workspace_stream ws, id, e) ∈ log d).

Lemma positioned_keeps e e' ws d d' : keeps d d' -> sound d -> positioned e e' ws d -> positioned e e' ws d'.
Proof.
  intros Hk Hs (? & ? & ? & Hd). destruct (Hk Hs) as (_ & _ & L & _). split_and!; auto.
  intros Hdur. destruct (Hd Hdur) as (id & ? & ?). exists id. auto.
Qed.

Lemma keeps_append key e d : keeps d (append entry_id key e d).1.
Proof. apply keeps_grows; try done. intros x Hx. cbn. set_solver. Qed.
Lemma keeps_publish_to ch e d : keeps d (publish_to ch e d).
Proof. apply keeps_grows; try done. intros x Hx. cbn. set_solver. Qed.
Lemma keeps_index key d : keeps d (index_stream key d).
Proof. by apply keeps_grows. Qed.

Lemma append_durable_triple P e ws :
  holds P -> triple keeps P (append_durable entry_id e (Some ws)) (fun r d => P d /\
    match r with Ok e' => positioned e e' ws d | Err _ => True end).
Proof.
  intros [Hst Hso]. unfold append_durable. destruct (is_durable (event_type e)) eqn:Edur.
  - eapply (triple_bind keeps _ _ _ (fun _ d => P d)); [|intros _].
    { apply (triple_call _ P _ (fun _ d => P d)); [done| | |].
      - intros d _. apply keeps_index.
      - intros d HP. apply (Hst d); [apply keeps_index|done].
      - intros d f HP. split; [done|]. apply (Hst d); [apply keeps_index|done]. }
    eapply triple_bind; [apply _| |intros r].
    { apply (triple_call _ P _ (fun r d => P d /\ match r with
        | Ok id => (workspace_stream ws, id, e) ∈ log d | Err _ => True end)); [done| | |].
      - intros d _. apply keeps_append.
      - intros d HP. split; [apply (Hst d); [apply keeps_append|done]|]. cbn. set_solver.
      - intros d f HP. split; (split; [|done]); [done|]. apply (Hst d); [apply keeps_append|done]. }
    apply triple_ret; [apply _|]. intros d [HP Hr]. split; [done|]. destruct r as [id|]; [|done].
    split_and!; [done..|]. intros _. by exists id.
  - apply triple_ret; [apply _|]. intros d HP. split; [done|]. split_and!; [done..|]. congruence.
Qed.

(** Emitting an event delivers it, or reports an error. *)
Lemma emit_triple P e ws :
  holds P -> triple keeps P (emit entry_id e (Some ws)) (fun r d => P d /\ (is_ok r = true -> delivered e ws d)).
Proof.
  intros HP. destruct (HP) as [Hst Hso]. unfold emit, and_then.
  eapply triple_bind; [apply _|by apply append_durable_triple|].
  intros [e'|err]; [|apply triple_ret; [apply _|]; intros d [? _]; done].
  eapply triple_bind; [apply _| |intros r].
  { apply (triple_call _ _ _ (fun r d => P d /\ match r with
      | Ok _ => delivered e ws d | Err _ => True end)).
    - intros d d' Hk [HPd Hpos]. split; [by apply (Hst d)|]. eapply positioned_keeps; eauto.
    - intros d _. apply keeps_publish_to.
    - intros d [HPd Hpos]. split; [apply (Hst d); [apply keeps_publish_to|done]|].
      pose proof (keeps_publish_to ($"events:" ++ event_group (event_type e')) e' d) as Hk.
      destruct Hpos as (Hid & Hty & Hpay & Hd). exists e'. split_and!; auto.
      cbn. rewrite Hty. set_solver.
    - intros d f [HPd _]. split; (split; [|done]); [done|]. apply (Hst d); [apply keeps_publish_to|done]. }
  apply triple_ret; [apply _|]. intros d [HPd Hr]. split; [done|]. by destruct r.
Qed.

(** A row that is still in the table with its event. *)
Definition holder (row : Z) (e : Event) (ws : Uuid) (d : Tables) : Prop :=
  sound d /\ row < next_row d /\
  forall r, outbox d !! row = Some r -> row_event r = e /\ row_workspace r = ws.

Lemma holder_stable row e ws : holds (holder row e ws).
Proof.
  split; [|by intros d []]. intros d d' Hk (Hs & Hlt & Hr). destruct (Hk Hs) as (Hs' & Hn & _ & _ & Hid & _).
  split; [done|]. split; [lia|]. intros r' Hr'. destruct (Hid row r' Hr' Hlt) as (r & Hrow & -> & ->).
  by apply Hr.
Qed.

Lemma keeps_mark row e ws d : holder row e ws d -> delivered e ws d -> keeps d (mark now row d).
Proof.
  intros (Hs & Hlt & Hr) Hd. unfold mark. apply (keeps_updates d (alter _ row (outbox d))).
  - intros id r'. rewrite lookup_alter. case_decide as E; [|intros Hr'; exists r'; tauto].
    rewrite fmap_Some. intros (r & Hrow & ->). subst id. exists r. cbn. split_and!; [done..|].
    intros _. right. destruct (Hr r Hrow) as [He Hw]. unfold row_delivered. by rewrite He, Hw.
  - intros id r Hrow _. left. rewrite lookup_alter. case_decide; [subst; by rewrite Hrow; eexists|by eexists].
Qed.

(** Publishing a row and marking it, as the fast path and the relay do. *)
Lemma emit_and_mark row e ws :
  triple keeps (holder row e ws)
    (sent ← emit entry_id e (Some ws); match sent with Ok _ => mark_published now row | Err _ => mret tt end)
    (fun _ d => sound d).
Proof.
  eapply triple_bind; [apply _|apply emit_triple, holder_stable|].
  intros [e'|err]; [|apply triple_ret; [apply _|]; intros d [[? _] _]; done].
  unfold mark_published. eapply triple_bind; [apply _| |intros r; apply triple_ret; [apply _|intros d Hd; exact Hd]].
  assert (Hst : stable keeps (fun d => holder row e ws d /\ delivered e ws d)).
  { intros d d' Hk [Hh Hd]. split; [by apply (holder_stable row e ws) with d|].
    eapply (delivered_stable e ws); [exact Hk|]. split; [apply Hh|done]. }
  apply (triple_pre keeps (fun d => holder row e ws d /\ delivered e ws d)); [intros d [? Hd]; auto|].
  apply (triple_call keeps); [exact Hst| | |].
  - intros d [Hh Hd]. by eapply keeps_mark.
  - intros d [Hh Hd]. by apply (keeps_mark row e ws d Hh Hd), Hh.
  - intros d f [Hh Hd]. split; [apply Hh|]. by apply (keeps_mark row e ws d Hh Hd), Hh.
Qed.

(** ** Staging *)

Lemma keeps_insert e ws d : keeps d (insert_row e ws d).1.
Proof.
  intros [Hf Hp]. split; [|split; [cbn; lia|split; [done|split; [done|split]]]]; cbn.
  - split; cbn.
    + intros id r. rewrite lookup_insert. case_decide; [intros _; lia|]. intros Hr%Hf. lia.
    + intros id r. rewrite lookup_insert. case_decide; [intros [= <-]; by cbn|].
      intros Hr Hpub. eapply delivered_mono; [| |by eapply Hp]; done.
  - intros id r'. rewrite lookup_insert. case_decide; [intros _; lia|]. eauto.
  - intros id r Hr _. left. rewrite lookup_insert. case_decide; eauto.
Qed.

Lemma holder_insert e ws d :
  sound d -> holder (row_id (insert_row e ws d).2) e ws (insert_row e ws d).1.
Proof.
  intros Hs. split; [by apply (keeps_insert e ws d)|]. cbn. split; [lia|].
  intros r. rewrite lookup_insert_eq. by intros [= <-].
Qed.

Lemma publish_scoped_triple id ty ws p :
  triple keeps sound (publish_scoped entry_id now id ty ws p) (fun _ d => sound d).
Proof.
  unfold publish_scoped. destruct (is_durable ty); cbn [negb].
  - unfold and_then, stage, sql.
    eapply (triple_bind keeps _ _ _ (fun r d => match r with
      | Ok s => holder (row_id s) (event s) (workspace_id s) d | Err _ => sound d end)).
    + eapply (triple_bind keeps _ _ _ (fun r d => match r with
        | Ok s => holder (row_id s) (event s) (workspace_id s) d | Err _ => sound d end)).
      * apply (triple_call keeps); [apply sound_stable| | |].
        -- intros d _. apply keeps_insert.
        -- intros d Hs. by apply holder_insert.
        -- intros d f Hs. split; [done|]. by apply (keeps_insert _ _ d).
      * intros [s|f]; apply (triple_ret keeps); intros d Hd; exact Hd.
    + intros [s|f]; [|apply (triple_ret keeps); intros d Hd; exact Hd].
      eapply (triple_bind keeps _ _ _ (fun _ d => sound d)); [apply emit_and_mark|].
      intros _. apply (triple_ret keeps). done.
  - eapply (triple_bind keeps _ _ _ (fun _ d => sound d)); [|intros r; apply (triple_ret keeps); done].
    eapply triple_post; [|apply emit_triple; split; [apply sound_stable|done]]. intros a d [? _]. done.
Qed.

(** ** The relay *)

Definition holders (l : list (Z * OutboxRow)) (d : Tables) : Prop :=
  sound d /\ forall p, p ∈ l -> holder p.1 (row_event p.2) (row_workspace p.2) d.

Lemma holders_stable l : stable keeps (holders l).
Proof.
  intros d d' Hk [Hs Hl]. split; [by eapply sound_stable|]. intros p Hp.
  eapply holder_stable; [done|by apply Hl].
Qed.

Lemma relay_row_triple p :
  triple keeps (holder p.1 (row_event p.2) (row_workspace p.2)) (relay_row entry_id now p) (fun _ d => sound d).
Proof.
  intros w Hw HP. pose proof (emit_and_mark p.1 (row_event p.2) (row_workspace p.2) w Hw HP) as He.
  assert (Hsame : (relay_row entry_id now p w).2 =
    ((sent ← emit entry_id (row_event p.2) (Some (row_workspace p.2));
      match sent with Ok _ => mark_published now p.1 | Err _ => mret tt end) w).2).
  { unfold relay_row. rewrite !svc_bind_snd. destruct (emit _ _ _ w).1; [|done].
    by rewrite svc_bind_snd. }
  by rewrite Hsame.
Qed.

Lemma relay_rows_triple l : triple keeps (holders l) (relay_rows entry_id now l) (fun _ d => sound d).
Proof.
  induction l as [|p l IH]; cbn [relay_rows]; [apply (triple_ret keeps); by intros d []|].
  eapply (triple_bind keeps _ _ _ (fun _ d => holders l d)).
  - eapply (triple_pre keeps (fun d => holder p.1 (row_event p.2) (row_workspace p.2) d /\ holders l d)).
    { intros d [Hs Hl]. split; [apply Hl; left|]. split; [done|]. intros q Hq. apply Hl. by right. }
    eapply triple_post; [|apply triple_frame; [apply holders_stable|]].
    2: apply relay_row_triple.
    intros a d [_ Hh]. exact Hh.
  - intros ok. eapply (triple_bind keeps _ _ _ (fun _ d => sound d)); [exact IH|].
    intros n. apply (triple_ret keeps). done.
Qed.

Lemma claimable_rows locked d p : p ∈ claimable now locked d -> outbox d !! p.1 = Some p.2 /\ due now p.2 = true.
Proof.
  unfold claimable. intros Hp%elem_of_take. destruct Hp as (i & Hp & _). apply list_elem_of_lookup_2 in Hp.
  unfold by_id in Hp. rewrite (merge_sort_Permutation id_le) in Hp. unfold candidates in Hp.
  apply list_elem_of_filter in Hp as [[Hdue _] Hp]. destruct p as [id r].
  apply elem_of_map_to_list in Hp. split; [done|]. by apply Is_true_true.
Qed.



Context (returning : list (Z * OutboxRow) -> list (Z * OutboxRow)) (limited : list Z -> list Z).
Context (returning_perm : forall l, Permutation (returning l) l) (limited_sub : forall l x, x ∈ limited l -> x ∈ l).

Lemma keeps_claim locked d : keeps d (claim returning now locked d).1.
Proof.
  unfold claim. cbn. set (rows := claimable now locked d).
  apply (keeps_updates d (foldr (fun p m => alter (claimed now) p.1 m) (outbox d) rows)).
  - intros id r'. rewrite foldr_claimed. case_decide.
    + rewrite fmap_Some. intros (r & Hr & ->). exists r. cbn. split_and!; try done. by left.
    + intros Hr. exists r'. split_and!; try done. by left.
  - intros id r Hr _. left. rewrite foldr_claimed, Hr. case_decide; by eexists.
Qed.

Lemma pruned_stale d id r :
  id ∈ limited (filter (fun p : Z * OutboxRow => stale now p.2) (map_to_list (outbox d))).*1 ->
  outbox d !! id = Some r -> stale now r = true.
Proof.
  intros Hin%limited_sub Hr. apply list_elem_of_fmap in Hin as ([id' r'] & -> & [Hs Hin]%list_elem_of_filter).
  apply elem_of_map_to_list in Hin. cbn in *. simplify_eq. by apply Is_true_true.
Qed.

Lemma keeps_prune d : keeps d (prune limited now d).
Proof.
  unfold prune. set (ids := limited _). apply (keeps_updates d (foldr delete (outbox d) ids)).
  - intros id r'. rewrite foldr_delete. case_decide; [done|]. intros Hr. exists r'. split_and!; try done. by left.
  - intros id r Hr Hp. left. rewrite foldr_delete, Hr. case_decide as Hin; [|by eexists].
    pose proof (pruned_stale d id r Hin Hr) as Hst. unfold stale in Hst. by rewrite Hp in Hst.
Qed.

Lemma relay_once_triple locked :
  triple keeps sound (relay_once entry_id returning limited now locked) (fun _ d => sound d).
Proof.
  unfold relay_once.
  eapply (triple_bind keeps _ _ _ (fun r d => match r with Ok rows => holders rows d | Err _ => sound d end)).
  - apply (triple_call keeps); [apply sound_stable| | |].
    + intros d _. apply keeps_claim.
    + intros d Hs. split; [by apply (keeps_claim locked d)|]. cbn [claim fst snd].
      intros p Hp. rewrite (returning_perm _) in Hp. apply claimable_rows in Hp as [Hp _].
      destruct (keeps_claim locked d Hs) as (Hs' & Hn & _ & _ & Hid & _).
      pose proof (proj1 Hs _ _ Hp) as Hlt. split; [done|]. split; [cbn in *; lia|].
      intros r Hr. destruct (Hid p.1 r Hr Hlt) as (r0 & Hr0 & -> & ->). by simplify_eq.
    + intros d f Hs. split; [done|]. by apply (keeps_claim locked d).
  - intros [rows|f]; [|apply (triple_ret keeps); done].
    eapply (triple_bind keeps _ _ _ (fun _ d => sound d)); [apply relay_rows_triple|]. intros n.
    eapply (triple_bind keeps _ _ _ (fun _ d => sound d)); [|intros _; apply (triple_ret keeps); done].
    apply (triple_call keeps); [apply sound_stable| | |].
    + intros d _. apply keeps_prune.
    + intros d Hs. by apply (keeps_prune d).
    + intros d f' Hs. split; [done|]. by apply (keeps_prune d).
Qed.
End protocol.

(** ** The relay drains the table *)

Section drain.
Context {R : Type}.
Abbreviation Tables := (Db R).
Implicit Types (d : Tables) (w : SvcWorld Tables).
Context `{UuidText} (entry_id : str -> list (str * str * Event) -> str).
Context (now : Z).

Definition quiet (w : SvcWorld Tables) : Prop := agenda w = [].

Lemma quiet_rely w : quiet w -> rely keeps w.
Proof. intros Hq. unfold rely. by rewrite Hq. Qed.

Definition marked (r : OutboxRow) : OutboxRow :=
  {| row_event := row_event r; row_workspace := row_workspace r; created_at := created_at r;
     published_at := Some now; claimed_at := claimed_at r |}.

Lemma emit_quiet e ws w :
  quiet w -> exists e', (emit entry_id e (Some ws) w).1 = Ok e' /\ quiet (emit entry_id e (Some ws) w).2 /\
    outbox (shared (emit entry_id e (Some ws) w).2) = outbox (shared w).
Proof.
  intros Hq. unfold quiet in *. destruct w as [d s]. cbn in Hq. subst s.
  unfold emit, append_durable, and_then, svc_write, mbind, Svc_bind, mret, Svc_ret.
  destruct (is_durable (event_type e)); cbn; eexists; split_and!; reflexivity.
Qed.

Lemma relay_row_quiet p w :
  quiet w -> sound (shared w) ->
  let w' := (relay_row entry_id now p w).2 in
  (relay_row entry_id now p w).1 = true /\ quiet w' /\
  outbox (shared w') = alter marked p.1 (outbox (shared w)) /\ row_delivered p.2 (shared w').
Proof.
  intros Hq Hs. cbv zeta. unfold relay_row. rewrite svc_bind_fst, svc_bind_snd.
  pose proof (emit_triple entry_id sound (row_event p.2) (row_workspace p.2) (conj sound_stable (fun d H => H))
    w (quiet_rely w Hq) Hs) as (_ & _ & _ & Hd).
  destruct (emit_quiet (row_event p.2) (row_workspace p.2) w Hq) as (e' & He & Hq' & Ho).
  rewrite He in *. specialize (Hd eq_refl). set (w' := (emit _ _ _ w).2) in *. clearbody w'.
  destruct w' as [d' s']. unfold quiet in Hq'. cbn in Hq', Ho, Hd. subst s'. cbn. split_and!; [done|done|by rewrite <-Ho|].
  eapply delivered_mono; [| |exact Hd]; done.
Qed.

Lemma relay_rows_quiet l w :
  quiet w -> holders l (shared w) ->
  let w' := (relay_rows entry_id now l w).2 in
  (relay_rows entry_id now l w).1 = length l /\ quiet w' /\ sound (shared w') /\
  (forall id, outbox (shared w') !! id =
     if decide (id ∈ l.*1) then marked <$> outbox (shared w) !! id else outbox (shared w) !! id) /\
  (forall p, p ∈ l -> row_delivered p.2 (shared w')).
Proof.
  revert w. induction l as [|p l IH]; intros w Hq Hl; cbv zeta.
  { cbn. split_and!; [done|done|apply Hl| |set_solver].
    intros id. by rewrite decide_False by set_solver. }
  destruct (relay_row_quiet p w Hq (proj1 Hl)) as (H1 & Hq1 & Ho & Hd).
  assert (Hl1 : holders l (shared (relay_row entry_id now p w).2)).
  { assert (Hp : holder p.1 (row_event p.2) (row_workspace p.2) (shared w)) by (apply Hl; left).
    destruct (relay_row_triple entry_id now p w (quiet_rely w Hq) Hp) as (Hk & _ & _).
    eapply holders_stable; [exact Hk|]. split; [apply Hl|]. intros q Hin. apply Hl. by right. }
  specialize (IH _ Hq1 Hl1). cbv zeta in IH. cbn [relay_rows]. rewrite !svc_bind_fst, !svc_bind_snd.
  rewrite H1. set (w1 := (relay_row entry_id now p w).2) in *.
  destruct (relay_rows_triple entry_id now l w1 (quiet_rely w1 Hq1) Hl1) as (Hk & _ & _).
  set (w2 := (relay_rows entry_id now l w1).2) in *.
  destruct IH as (H2 & Hq2 & Hs2 & Ho2 & Hd2). rewrite H2. cbn. split_and!; [done..| |].
  - intros id. rewrite Ho2, Ho, lookup_alter. cbn. clear -id.
    destruct (decide (p.1 = id)) as [<-|Hne].
    + rewrite (decide_True (P := p.1 ∈ p.1 :: _)) by set_solver. case_decide; [|done].
      by destruct (outbox (shared w) !! p.1).
    + destruct (decide (id ∈ l.*1)); [rewrite decide_True by set_solver|rewrite decide_False by set_solver]; done.
  - intros q [->|Hin]%elem_of_cons; [|by apply Hd2].
    destruct (Hk (proj1 Hl1)) as (_ & _ & L & O & _). eapply delivered_mono; [exact L|exact O|exact Hd].
Qed.

(** The rows a claim would take. *)
Definition due_rows (d : Tables) : gset Z := dom (filter (fun p : Z * OutboxRow => due now p.2) (outbox d)).

Lemma elem_of_due_rows d id : id ∈ due_rows d <-> exists r, outbox d !! id = Some r /\ due now r = true.
Proof.
  unfold due_rows. rewrite elem_of_dom. unfold is_Some. split.
  - intros (r & [Hr Hd]%map_lookup_filter_Some). exists r. split; [done|]. by apply Is_true_true.
  - intros (r & Hr & Hd). exists r. apply map_lookup_filter_Some. split; [done|]. by apply Is_true_true.
Qed.

Definition claims (d : Tables) : gset Z := list_to_set (claimable now ∅ d).*1.

Lemma claimable_facts d :
  claims d ⊆ due_rows d /\ size (claims d) = Nat.min BATCH (size (due_rows d)) /\
  length (claimable now ∅ d) = Nat.min BATCH (size (due_rows d)).
Proof.
  set (rows := candidates now ∅ d).
  assert (Hrows : Permutation (by_id rows).*1 (elements (due_rows d))).
  { apply NoDup_Permutation.
    - unfold by_id. rewrite (merge_sort_Permutation id_le). unfold rows, candidates.
      pose proof (NoDup_fst_map_to_list (outbox d)) as Hnd. revert Hnd. generalize (map_to_list (outbox d)).
      intros l. induction l as [|p l IH]; intros Hnd; [constructor|].
      rewrite fmap_cons in Hnd. apply NoDup_cons in Hnd as [Hp Hnd].
      rewrite filter_cons. case_decide; [|by apply IH]. rewrite fmap_cons. apply NoDup_cons. split; [|by apply IH].
      intros (q & E & [_ Hq]%list_elem_of_filter)%list_elem_of_fmap. apply Hp. rewrite E. by apply list_elem_of_fmap_2.
    - apply NoDup_elements.
    - intros id. rewrite elem_of_elements, elem_of_due_rows. unfold by_id.
      rewrite (merge_sort_Permutation id_le). unfold rows, candidates. rewrite list_elem_of_fmap. split.
      + intros ([id' r] & -> & [[Hd _] Hin]%list_elem_of_filter). apply elem_of_map_to_list in Hin.
        exists r. split; [done|]. by apply Is_true_true.
      + intros (r & Hr & Hd). exists (id, r). split; [done|]. apply list_elem_of_filter.
        split; [split; [by apply Is_true_true|set_solver]|]. by apply elem_of_map_to_list. }
  assert (Hlen : length (claimable now ∅ d) = Nat.min BATCH (size (due_rows d))).
  { unfold claimable. fold rows. rewrite length_take. f_equal. change (size (due_rows d)) with (length (elements (due_rows d))).
    rewrite <-(Permutation_length Hrows), length_fmap. done. }
  assert (Hsub : claims d ⊆ due_rows d).
  { intros id. unfold claims. rewrite elem_of_list_to_set, list_elem_of_fmap.
    intros (p & -> & Hp). apply claimable_rows in Hp as [Hp Hd]. apply elem_of_due_rows. eauto. }
  split_and!; [done| |done]. unfold claims. rewrite size_list_to_set; [by rewrite length_fmap|].
  unfold claimable. fold rows. rewrite fmap_take. eapply sublist_NoDup; [|apply sublist_take]. rewrite Hrows. apply NoDup_elements.
Qed.

Context (returning : list (Z * OutboxRow) -> list (Z * OutboxRow)) (limited : list Z -> list Z).
Context (returning_perm : forall l, Permutation (returning l) l) (limited_sub : forall l x, x ∈ limited l -> x ∈ l).

(** One undisturbed run: the claimed rows are delivered and marked, every other
    due row is as it was, and no row becomes due. *)
Lemma relay_once_quiet w :
  quiet w -> sound (shared w) ->
  let w' := (relay_once entry_id returning limited now ∅ w).2 in
  (relay_once entry_id returning limited now ∅ w).1 = Nat.min BATCH (size (due_rows (shared w))) /\
  quiet w' /\ keeps (shared w) (shared w') /\
  due_rows (shared w') = due_rows (shared w) ∖ claims (shared w) /\
  (forall id r, id ∈ claims (shared w) -> outbox (shared w) !! id = Some r -> row_delivered r (shared w')) /\
  (forall id, id ∈ due_rows (shared w') -> outbox (shared w') !! id = outbox (shared w) !! id).
Proof.
  intros Hq Hs. cbv zeta.
  destruct (relay_once_triple entry_id now returning limited returning_perm limited_sub ∅ w (quiet_rely w Hq) Hs)
    as (Hk & _ & _).
  pose proof (claimable_facts (shared w)) as (_ & _ & Hlen).
  destruct w as [d s]. unfold quiet in Hq. cbn [shared agenda] in Hq, Hs, Hlen, Hk. subst s.
  set (rows := returning (claimable now ∅ d)).
  set (d1 := (claim returning now ∅ d).1). set (w1 := {| shared := d1; agenda := [] |}).
  assert (Hrun : relay_once entry_id returning limited now ∅ {| shared := d; agenda := [] |} =
    ((relay_rows entry_id now rows w1).1,
     (svc_write (prune limited now) (relay_rows entry_id now rows w1).2).2)).
  { unfold relay_once. rewrite svc_bind_eq, svc_call_quiet by reflexivity. cbn [fst snd shared].
    by rewrite !svc_bind_eq. }
  rewrite Hrun in *. cbn [fst snd] in *.
  assert (Hh : holders rows d1).
  { destruct (keeps_claim now returning ∅ d Hs) as (Hs1 & Hn & _ & _ & Hid & _).
    split; [done|]. intros p Hp. unfold rows in Hp. rewrite (returning_perm _) in Hp.
    apply claimable_rows in Hp as [Hp _]. pose proof (proj1 Hs _ _ Hp) as Hlt.
    split; [done|]. split; [cbn in *; lia|]. intros r Hr. destruct (Hid p.1 r Hr Hlt) as (r0 & Hr0 & -> & ->).
    by simplify_eq. }
  destruct (relay_rows_quiet rows w1 eq_refl Hh) as (H1 & Hq2 & Hs2 & Ho2 & Hd2).
  rewrite H1. set (w2 := (relay_rows entry_id now rows w1).2) in *. clearbody w2.
  destruct w2 as [d2 s2]. unfold quiet in Hq2. cbn [shared agenda w1] in Hq2, Hs2, Ho2, Hd2, Hk. subst s2.
  change (shared (svc_write (prune limited now) {| shared := d2; agenda := [] |}).2) with (prune limited now d2) in *.
  assert (Hids : forall id, id ∈ rows.*1 <-> id ∈ claims d).
  { intros id. unfold claims, rows. rewrite elem_of_list_to_set. by rewrite (returning_perm _). }
  assert (Ho1 : forall id, outbox d1 !! id = if decide (id ∈ claims d) then claimed now <$> outbox d !! id else outbox d !! id).
  { intros id. unfold d1, claim. cbn. rewrite foldr_claimed.
    destruct (decide (id ∈ claims d)) as [Hin|Hin]; unfold claims in Hin; rewrite elem_of_list_to_set in Hin.
    - by rewrite decide_True.
    - by rewrite decide_False. }
  assert (Ho3 : forall id, outbox (prune limited now d2) !! id = outbox d2 !! id \/
             outbox (prune limited now d2) !! id = None /\ exists r, outbox d2 !! id = Some r /\ stale now r = true).
  { intros id. unfold prune. cbn. rewrite foldr_delete. case_decide as Hin; [|by left].
    destruct (outbox d2 !! id) as [r|] eqn:E; [|by left]. right. split; [done|]. exists r. split; [done|].
    eapply pruned_stale; [exact limited_sub|exact Hin|exact E]. }
  assert (Hdue : forall id, id ∈ due_rows (prune limited now d2) <-> id ∈ due_rows d /\ id ∉ claims d).
  { intros id. rewrite !elem_of_due_rows. specialize (Ho3 id). specialize (Ho2 id). specialize (Ho1 id).
    destruct (decide (id ∈ claims d)) as [Hin|Hin].
    - rewrite decide_True in Ho2 by (by apply Hids). split; [|tauto]. intros (r & Hr & Hdr).
      destruct Ho3 as [Ho3|[Ho3 _]]; rewrite Ho3 in Hr; [|done]. rewrite Ho2, Ho1 in Hr.
      destruct (outbox d !! id); cbn in Hr; simplify_eq; by cbn in Hdr.
    - rewrite decide_False in Ho2 by (by rewrite Hids). split.
      + intros (r & Hr & Hdr). destruct Ho3 as [Ho3|[Ho3 _]]; rewrite Ho3 in Hr; [|done].
        rewrite Ho2, Ho1 in Hr. eauto.
      + intros [(r & Hr & Hdr) _]. destruct Ho3 as [Ho3|[_ (r' & Hr' & Hst)]].
        * rewrite Ho3, Ho2, Ho1. eauto.
        * exfalso. rewrite Ho2, Ho1, Hr in Hr'. simplify_eq. unfold stale in Hst. unfold due in Hdr.
          destruct (published_at r'); [by cbn in Hdr|done]. }
  split_and!; [|done|exact Hk| | |].
  - unfold rows. by rewrite (Permutation_length (returning_perm _)).
  - apply set_eq. intros id. rewrite elem_of_difference. apply Hdue.
  - intros id r Hin Hr. apply Hids, list_elem_of_fmap in Hin as (p & -> & Hp).
    pose proof (Hd2 p Hp) as Hdel. unfold rows in Hp. rewrite (returning_perm _) in Hp.
    apply claimable_rows in Hp as [Hp _]. cbn [shared] in Hr. simplify_eq.
    cbn. unfold prune, row_delivered, delivered in *. cbn. exact Hdel.
  - cbn [shared] in *. intros id Hin. apply Hdue in Hin as Hin'. destruct Hin' as [_ Hnot]. specialize (Ho3 id). specialize (Ho2 id).
    specialize (Ho1 id). rewrite decide_False in Ho1 by done. rewrite decide_False in Ho2 by (by rewrite Hids).
    destruct Ho3 as [->|[Hnone _]]; [by rewrite Ho2|].
    apply elem_of_due_rows in Hin as (r & Hr & _). congruence.
Qed.
End drain.

(** ** Properties *)

(** What a process does with the outbox. *)
Inductive OutboxCall :=
| Publishes (id : Uuid) (event_type : str) (ws : Uuid) (payload : json)
| Relays (locked : gset Z).

Section properties.
Context {R : Type}.
Abbreviation Tables := (Db R).
Implicit Types (d : Tables) (w : SvcWorld Tables).
Context `{UuidText} (entry_id : str -> list (str * str * Event) -> str).
Context (returning : list (Z * OutboxRow) -> list (Z * OutboxRow)) (limited : list Z -> list Z).
Context (returning_perm : forall l, Permutation (returning l) l) (limited_sub : forall l x, x ∈ limited l -> x ∈ l).

(** One call, at the instant [now]. *)
Definition outbox_call (c : Z * OutboxCall) : Svc Tables unit :=
  match c.2 with
  | Publishes id ty ws p => _ ← publish_scoped entry_id c.1 id ty ws p; mret tt
  | Relays locked => _ ← relay_once entry_id returning limited c.1 locked; mret tt
  end.

Lemma outbox_call_triple c : triple keeps sound (outbox_call c) (fun _ d => sound d).
Proof.
  unfold outbox_call. destruct c as [now [id ty ws p|locked]]; cbn;
    (eapply (triple_bind keeps _ _ _ (fun _ d => sound d));
      [|intros _; apply (triple_ret keeps); intros d Hd; exact Hd]).
  - apply publish_scoped_triple.
  - apply relay_once_triple; [apply returning_perm|apply limited_sub].
Qed.

Lemma outbox_calls_triple l : triple keeps sound (svc_each l outbox_call) (fun _ d => sound d).
Proof.
  induction l as [|c l IH]; cbn; [apply (triple_ret keeps); intros d Hd; exact Hd|].
  eapply (triple_bind keeps); [apply outbox_call_triple|]. intros u. exact IH.
Qed.

(** C3: no durable event is lost.  Whatever sequence of publications and relay
    runs a process makes, at whatever instants, whichever calls to the database
    or to Redis fail, and whatever other processes running this code do in
    between: a row marked published has its event on its channel and in the log
    of its workspace, and a row that was in the table is still there with its
    event unless that event is out. *)
Theorem outbox_never_loses (calls : list (Z * OutboxCall)) (w : SvcWorld Tables) :
  rely keeps w -> sound (shared w) ->
  let d' := shared (svc_each calls outbox_call w).2 in
  (forall id r, outbox d' !! id = Some r -> published_at r <> None -> row_delivered r d') /\
  (forall id r, outbox (shared w) !! id = Some r ->
     (exists r', outbox d' !! id = Some r' /\ row_event r' = row_event r /\ row_workspace r' = row_workspace r)
     \/ row_delivered r d').
Proof.
  intros Hw Hs d'. destruct (outbox_calls_triple calls w Hw Hs) as (Hk & _ & Hs'). fold d' in Hk, Hs'.
  split; [apply Hs'|]. intros id r Hr. destruct (Hk Hs) as (_ & _ & L & O & Hid & Hun).
  destruct (published_at r) as [t|] eqn:Hp.
  - right. eapply delivered_mono; [exact L|exact O|]. apply (proj2 Hs id r Hr). by rewrite Hp.
  - destruct (Hun id r Hr Hp) as [(r' & Hr')|Hd]; [left|by right].
    destruct (Hid id r' Hr') as (r0 & Hr0 & E & W); [by eapply Hs|]. simplify_eq. eauto.
Qed.

Definition relay_run (now : Z) (w : SvcWorld Tables) : SvcWorld Tables :=
  (relay_once entry_id returning limited now ∅ w).2.

Lemma relay_runs_quiet now k w :
  quiet w -> sound (shared w) ->
  let w' := Nat.iter k (relay_run now) w in quiet w' /\ sound (shared w') /\ keeps (shared w) (shared w').
Proof.
  intros Hq Hs. cbv zeta. induction k as [|k (Q & S & K)]; [by split_and!|]. cbn [Nat.iter nat_rect].
  destruct (relay_once_quiet entry_id now returning limited returning_perm limited_sub _ Q S) as (_ & Q' & K' & _).
  split; [exact Q'|]. split; [by apply K'|]. by etransitivity.
Qed.

(** C35: the relay catches up.  With nothing failing and nobody else writing,
    as many runs as there are full batches of due rows publish every one of
    them, and leave none due. *)
Theorem relay_drains (now : Z) (k : nat) (w : SvcWorld Tables) :
  quiet w -> sound (shared w) -> (size (due_rows now (shared w)) <= k * BATCH)%nat ->
  let w' := Nat.iter k (relay_run now) w in
  due_rows now (shared w') = ∅ /\
  (forall id r, outbox (shared w) !! id = Some r -> due now r = true -> row_delivered r (shared w')).
Proof.
  intros Hq Hs Hk. cbv zeta. revert w Hq Hs Hk. induction k as [|k IH]; intros w Hq Hs Hk.
  { assert (E : due_rows now (shared w) = ∅) by (apply leibniz_equiv, size_empty_iff; lia).
    split; [exact E|]. intros id r Hr Hd. exfalso.
    assert (Hin : id ∈ due_rows now (shared w)) by (apply elem_of_due_rows; eauto).
    rewrite E in Hin. set_solver. }
  rewrite Nat.iter_succ_r.
  destruct (relay_once_quiet entry_id now returning limited returning_perm limited_sub w Hq Hs)
    as (_ & Hq' & Hkeep & Hdue & Hdel & Hrest). fold (relay_run now w) in *.
  destruct (claimable_facts now (shared w)) as (Hsub & Hsize & _). destruct (Hkeep Hs) as (Hs' & _ & L & O & _).
  destruct (IH (relay_run now w) Hq' Hs') as [Hnone Hall].
  { rewrite Hdue, size_difference by exact Hsub. lia. }
  split; [exact Hnone|]. intros id r Hr Hd.
  destruct (decide (id ∈ claims now (shared w))) as [Hin|Hin].
  - destruct (relay_runs_quiet now k _ Hq' Hs') as (_ & _ & K).
    destruct (K Hs') as (_ & _ & L' & O' & _).
    eapply delivered_mono; [exact L'|exact O'|]. by eapply Hdel.
  - apply (Hall id r); [|exact Hd]. rewrite Hrest; [exact Hr|]. rewrite Hdue. apply elem_of_difference.
    split; [|exact Hin]. apply elem_of_due_rows. eauto.
Qed.

(** A row is leased to one relay at a time.  Rows claimed by one run are not
    claimed again until the lease is over, so two relays publish a row twice only
    when the first has not finished within it; and a row younger than the grace
    of the fast path is never claimed. *)
Theorem claims_are_leases (now now' : Z) (locked locked' : gset Z) (d : Tables) :
  now <= now' <= now + CLAIM_LEASE_SECS * SECOND ->
  let first := claim returning now locked d in
  let second := claim returning now' locked' first.1 in
  (forall p, p ∈ first.2 -> p.1 ∉ second.2.*1) /\
  (forall p, p ∈ first.2 -> created_at p.2 < now - FAST_PATH_GRACE_SECS * SECOND).
Proof.
  intros Hnow. cbv zeta. split; intros p Hp; cbn [claim snd] in Hp; rewrite (returning_perm _) in Hp.
  - intros (q & E & Hq)%list_elem_of_fmap. cbn [claim snd] in Hq. rewrite (returning_perm _) in Hq.
    apply claimable_rows in Hq as [Hq Hdue]. cbn in Hq. rewrite foldr_claimed, decide_True in Hq.
    2: { rewrite <-E. by apply list_elem_of_fmap_2. }
    apply fmap_Some in Hq as (r & _ & Hr). rewrite Hr in Hdue. unfold due, older_than in Hdue. cbn in Hdue.
    apply andb_true_iff in Hdue as [_ Hdue]. apply Z.ltb_lt in Hdue. lia.
  - apply claimable_rows in Hp as [_ Hdue]. unfold due, older_than in Hdue.
    apply andb_true_iff in Hdue as [[_ Hc]%andb_true_iff _]. by apply Z.ltb_lt in Hc.
Qed.
End properties.

(** A table with one row the fast path missed. *)
Module SampleOutbox.
#[global] Instance uuid : UuidText := {
  uuid_parse s := match s with [c] => Some (Z.to_N c) | _ => None end;
  uuid_to_string u := [Z.of_N u];
}.
Definition entry_id (_ : str) (log : list (str * str * Event)) : str := [Z.of_nat (length log)].
Definition event : Event :=
  {| event_id := 9%N; event_type := $"message.created"; payload := JNull; timestamp := 0; stream_id := None |}.
Definition row : OutboxRow :=
  {| row_event := event; row_workspace := 20%N; created_at := 0; published_at := None; claimed_at := None |}.
Definition tables : Db unit :=
  {| outbox := {[1 := row]}; next_row := 2; stream_index := ∅; log := []; out := []; app := tt |}.
(** The third call loses its reply. *)
Definition lossy : SvcWorld (Db unit) :=
  {| shared := tables; agenda := [ {| others := id; call_fault := None |}; {| others := id; call_fault := None |};
       {| others := id; call_fault := Some (ReplyLost ($"timeout")) |} ] |}.

Lemma tables_sound : sound tables.
Proof. split; intros id r; cbn; intros [<- <-]%lookup_singleton_Some; cbn; [lia|done]. Qed.

Lemma lossy_rely : rely keeps lossy.
Proof. unfold rely, lossy. cbn [agenda]. repeat (apply Forall_cons; split); try (intros d; cbn; reflexivity). by apply Forall_nil. Qed.
End SampleOutbox.

Lemma outbox_never_loses_witness :
  let d' := shared (svc_each [(100 * SECOND, Relays ∅); (130 * SECOND, Relays ∅); (200 * SECOND, Relays ∅)]
              (outbox_call SampleOutbox.entry_id id id) SampleOutbox.lossy).2 in
  (exists r, outbox d' !! 1 = Some r /\ published_at r = Some (200 * SECOND) /\ row_delivered r d') /\ length (log d') = 2%nat.
Proof.
  destruct (outbox_never_loses SampleOutbox.entry_id id id (fun l => Permutation_refl l) (fun l x H => H)
    [(100 * SECOND, Relays ∅); (130 * SECOND, Relays ∅); (200 * SECOND, Relays ∅)] SampleOutbox.lossy
    SampleOutbox.lossy_rely SampleOutbox.tables_sound) as [H _].
  split; [|vm_compute; reflexivity]. eexists. split; [vm_compute; reflexivity|]. split; [reflexivity|].
  eapply (H 1); [vm_compute; reflexivity|done].
Defined.

Lemma relay_drains_witness :
  row_delivered SampleOutbox.row
    (shared (relay_run SampleOutbox.entry_id id id (100 * SECOND) {| shared := SampleOutbox.tables; agenda := [] |})).
Proof.
  refine (proj2 (relay_drains SampleOutbox.entry_id id id (fun l => Permutation_refl l) (fun l x H => H) (100 * SECOND) 1
    {| shared := SampleOutbox.tables; agenda := [] |} eq_refl SampleOutbox.tables_sound _) 1 _ eq_refl eq_refl).
  vm_compute. lia.
Defined.

Lemma claims_are_leases_witness :
  let first := claim id (100 * SECOND) ∅ SampleOutbox.tables in
  first.2 = [(1, SampleOutbox.row)] /\ 1 ∉ (claim id (160 * SECOND) ∅ first.1).2.*1.
Proof.
  split; [vm_compute; reflexivity|].
  refine (proj1 (claims_are_leases id (fun l => Permutation_refl l) (100 * SECOND) (160 * SECOND) ∅ ∅ SampleOutbox.tables _)
    (1, SampleOutbox.row) _); [unfold CLAIM_LEASE_SECS, SECOND; lia|]. vm_compute. by left.
Defined.
