(* ===== verification/AuditLog.v ===== *)
(** * The audit log ([backend/api/src/audit.rs])

    What can be recorded, under which name and about which kind of resource, and
    the entry a handler builds. *)

From stdpp Require Import base tactics option list.
From Stdlib Require Import ZArith Lia String Ascii.
From S2P Require Import Prelude RustStr Json.

Inductive AuditAction :=
| MessageDeleted | MessageHistoryRead | ChannelCreated | ChannelArchived | ChannelUnarchived | ChannelUpdated
| ChannelPostPolicyChanged | ChannelBroadcastMentionsChanged | ChannelMemberAdded | ChannelMemberRemoved
| ChannelRoleChanged | WorkspaceCreated | WorkspaceDeleted | WorkspaceRestored | WorkspaceMemberRemoved
| WorkspaceRoleChanged | InviteCreated | InviteRevoked | InviteAccepted | HookCreated | HookDeleted
| HookRevealed | HookRotated | HookDisabled | HookEnabled | FileDeleted | UserProvisioned | UserSuspended
| UserActivated | InstanceRoleChanged | ExportRequested | ExportCompleted | SlackImportStarted
| UserDataErased | SsoLinked | TotpEnrolled | TotpDisabled | TotpFailed | TotpRecoveryUsed | PasskeyAdded
| PasskeyRemoved | PasskeyUsed | EmailCodeSent | EmailCodeUsed | EmailCodeExhausted | InstanceSettingsChanged
| CommandInvoked | GroupCreated | GroupUpdated | GroupDeleted | GroupMemberAdded | GroupMemberRemoved
| EmojiCreated | EmojiDeleted | ScimTokenCreated | ScimTokenRevoked | ScimTokenRotated | RetentionChanged
| RetentionPurge | AppConfigured | AppRemoved | AppConnected | AppDisconnected | WorkflowCreated
| WorkflowUpdated | WorkflowEnabled | WorkflowDisabled | WorkflowDeleted | WorkflowTakenOver
| WorkflowLinkRotated | BotAppCreated | BotAppUpdated | BotAppTokenRotated | BotAppRemoved | BotAppCalled.

#[export] Instance AuditAction_eq_dec : EqDecision AuditAction.
Proof. solve_decision. Defined.

Definition every_action : list AuditAction := [
  MessageDeleted; MessageHistoryRead; ChannelCreated; ChannelArchived; ChannelUnarchived; ChannelUpdated
  ; ChannelPostPolicyChanged; ChannelBroadcastMentionsChanged; ChannelMemberAdded; ChannelMemberRemoved
  ; ChannelRoleChanged; WorkspaceCreated; WorkspaceDeleted; WorkspaceRestored; WorkspaceMemberRemoved
  ; WorkspaceRoleChanged; InviteCreated; InviteRevoked; InviteAccepted; HookCreated; HookDeleted; HookRevealed
  ; HookRotated; HookDisabled; HookEnabled; FileDeleted; UserProvisioned; UserSuspended; UserActivated
  ; InstanceRoleChanged; ExportRequested; ExportCompleted; SlackImportStarted; UserDataErased; SsoLinked
  ; TotpEnrolled; TotpDisabled; TotpFailed; TotpRecoveryUsed; PasskeyAdded; PasskeyRemoved; PasskeyUsed
  ; EmailCodeSent; EmailCodeUsed; EmailCodeExhausted; InstanceSettingsChanged; CommandInvoked; GroupCreated
  ; GroupUpdated; GroupDeleted; GroupMemberAdded; GroupMemberRemoved; EmojiCreated; EmojiDeleted
  ; ScimTokenCreated; ScimTokenRevoked; ScimTokenRotated; RetentionChanged; RetentionPurge; AppConfigured
  ; AppRemoved; AppConnected; AppDisconnected; WorkflowCreated; WorkflowUpdated; WorkflowEnabled
  ; WorkflowDisabled; WorkflowDeleted; WorkflowTakenOver; WorkflowLinkRotated; BotAppCreated; BotAppUpdated
  ; BotAppTokenRotated; BotAppRemoved; BotAppCalled].

(** [AuditAction::as_str] *)
Definition action_name (a : AuditAction) : str :=
  match a with
  | MessageDeleted => $"message.deleted"
  | MessageHistoryRead => $"message.history_read"
  | ChannelCreated => $"channel.created"
  | ChannelArchived => $"channel.archived"
  | ChannelUnarchived => $"channel.unarchived"
  | ChannelUpdated => $"channel.updated"
  | ChannelPostPolicyChanged => $"channel.post_policy_changed"
  | ChannelBroadcastMentionsChanged => $"channel.broadcast_mentions_changed"
  | ChannelMemberAdded => $"channel.member_added"
  | ChannelMemberRemoved => $"channel.member_removed"
  | ChannelRoleChanged => $"channel.role_changed"
  | WorkspaceCreated => $"workspace.created"
  | WorkspaceDeleted => $"workspace.deleted"
  | WorkspaceRestored => $"workspace.restored"
  | WorkspaceMemberRemoved => $"workspace.member_removed"
  | WorkspaceRoleChanged => $"workspace.role_changed"
  | InviteCreated => $"invite.created"
  | InviteRevoked => $"invite.revoked"
  | InviteAccepted => $"invite.accepted"
  | HookCreated => $"hook.created"
  | HookDeleted => $"hook.deleted"
  | HookRevealed => $"hook.revealed"
  | HookRotated => $"hook.rotated"
  | HookDisabled => $"hook.disabled"
  | HookEnabled => $"hook.enabled"
  | FileDeleted => $"file.deleted"
  | UserProvisioned => $"user.provisioned"
  | UserSuspended => $"user.suspended"
  | UserActivated => $"user.activated"
  | InstanceRoleChanged => $"user.instance_role_changed"
  | ExportRequested => $"export.requested"
  | ExportCompleted => $"export.completed"
  | SlackImportStarted => $"slack_import.started"
  | UserDataErased => $"user.data_erased"
  | SsoLinked => $"sso.linked"
  | TotpEnrolled => $"totp.enrolled"
  | TotpDisabled => $"totp.disabled"
  | TotpFailed => $"totp.failed"
  | TotpRecoveryUsed => $"totp.recovery_used"
  | PasskeyAdded => $"passkey.added"
  | PasskeyRemoved => $"passkey.removed"
  | PasskeyUsed => $"passkey.used"
  | EmailCodeSent => $"email_code.sent"
  | EmailCodeUsed => $"email_code.used"
  | EmailCodeExhausted => $"email_code.exhausted"
  | InstanceSettingsChanged => $"instance.settings_changed"
  | CommandInvoked => $"command.invoked"
  | GroupCreated => $"group.created"
  | GroupUpdated => $"group.updated"
  | GroupDeleted => $"group.deleted"
  | GroupMemberAdded => $"group.member_added"
  | GroupMemberRemoved => $"group.member_removed"
  | EmojiCreated => $"emoji.created"
  | EmojiDeleted => $"emoji.deleted"
  | ScimTokenCreated => $"scim.token_created"
  | ScimTokenRevoked => $"scim.token_revoked"
  | ScimTokenRotated => $"scim.token_rotated"
  | RetentionChanged => $"retention.changed"
  | RetentionPurge => $"retention.purge"
  | AppConfigured => $"app.configured"
  | AppRemoved => $"app.removed"
  | AppConnected => $"app.connected"
  | AppDisconnected => $"app.disconnected"
  | WorkflowCreated => $"workflow.created"
  | WorkflowUpdated => $"workflow.updated"
  | WorkflowEnabled => $"workflow.enabled"
  | WorkflowDisabled => $"workflow.disabled"
  | WorkflowDeleted => $"workflow.deleted"
  | WorkflowTakenOver => $"workflow.taken_over"
  | WorkflowLinkRotated => $"workflow.link_rotated"
  | BotAppCreated => $"bot_app.created"
  | BotAppUpdated => $"bot_app.updated"
  | BotAppTokenRotated => $"bot_app.token_rotated"
  | BotAppRemoved => $"bot_app.removed"
  | BotAppCalled => $"bot_app.called"
  end.

Definition resource_type (a : AuditAction) : str :=
  match a with
  | MessageDeleted | MessageHistoryRead => $"message"
  | ChannelCreated | ChannelArchived | ChannelUnarchived | ChannelUpdated | ChannelPostPolicyChanged
  | ChannelBroadcastMentionsChanged | ChannelMemberAdded | ChannelMemberRemoved | ChannelRoleChanged => $"channel"
  | WorkspaceCreated | WorkspaceDeleted | WorkspaceRestored | WorkspaceMemberRemoved | WorkspaceRoleChanged => $"workspace"
  | InviteCreated | InviteRevoked | InviteAccepted => $"invite"
  | HookCreated | HookDeleted | HookRevealed | HookRotated | HookDisabled | HookEnabled | CommandInvoked => $"hook"
  | FileDeleted => $"file"
  | EmojiCreated | EmojiDeleted => $"emoji"
  | GroupCreated | GroupUpdated | GroupDeleted | GroupMemberAdded | GroupMemberRemoved => $"group"
  | UserProvisioned | UserSuspended | UserActivated | InstanceRoleChanged | UserDataErased | SsoLinked
  | TotpEnrolled | TotpDisabled | TotpFailed | TotpRecoveryUsed | PasskeyAdded | PasskeyRemoved | PasskeyUsed
  | EmailCodeSent | EmailCodeUsed | EmailCodeExhausted => $"user"
  | InstanceSettingsChanged => $"instance"
  | ScimTokenCreated | ScimTokenRevoked | ScimTokenRotated => $"scim"
  | RetentionChanged | RetentionPurge => $"retention"
  | AppConfigured | AppRemoved | AppConnected | AppDisconnected => $"app"
  | ExportRequested | ExportCompleted => $"export"
  | SlackImportStarted => $"slack_import"
  | WorkflowCreated | WorkflowUpdated | WorkflowEnabled | WorkflowDisabled | WorkflowDeleted
  | WorkflowTakenOver | WorkflowLinkRotated => $"workflow"
  | BotAppCreated | BotAppUpdated | BotAppTokenRotated | BotAppRemoved | BotAppCalled => $"bot_app"
  end.

Module AuditEntry.
Record t := {
  action : AuditAction;
  actor_id : option Uuid;
  workspace_id : option Uuid;
  resource_id : option Uuid;
  ip : option str;
  details : json;
}.

Definition new (a : AuditAction) (actor : Uuid) : t :=
  {| action := a; actor_id := Some actor; workspace_id := None; resource_id := None; ip := None;
     details := JObject [] |}.
Definition machine (a : AuditAction) : t :=
  {| action := a; actor_id := None; workspace_id := None; resource_id := None; ip := None;
     details := JObject [] |}.
Definition workspace (ws : Uuid) (e : t) : t :=
  {| action := action e; actor_id := actor_id e; workspace_id := Some ws; resource_id := resource_id e;
     ip := ip e; details := details e |}.
Definition resource (r : Uuid) (e : t) : t :=
  {| action := action e; actor_id := actor_id e; workspace_id := workspace_id e; resource_id := Some r;
     ip := ip e; details := details e |}.
Definition with_ip (client : option str) (e : t) : t :=
  {| action := action e; actor_id := actor_id e; workspace_id := workspace_id e; resource_id := resource_id e;
     ip := client; details := details e |}.
Definition with_details (j : json) (e : t) : t :=
  {| action := action e; actor_id := actor_id e; workspace_id := workspace_id e; resource_id := resource_id e;
     ip := ip e; details := j |}.
End AuditEntry.

Lemma every_action_complete a : a ∈ every_action.
Proof. apply (bool_decide_unpack _). by destruct a; vm_compute. Qed.

(** The name stored with an entry says which action it records: no two
    actions share one. *)
Theorem action_name_injective (a b : AuditAction) : action_name a = action_name b -> a = b.
Proof.
  assert (H : Forall (fun a => Forall (fun b => action_name a = action_name b -> a = b) every_action) every_action).
  { apply (bool_decide_unpack _). vm_compute. exact I. }
  rewrite Forall_forall in H. specialize (H a (every_action_complete a)). rewrite Forall_forall in H.
  apply (H b (every_action_complete b)).
Qed.

Lemma action_name_injective_witness : action_name ScimTokenRevoked = action_name ScimTokenRevoked /\
  action_name ScimTokenRevoked <> action_name ScimTokenRotated.
Proof. split; [reflexivity|]. intros E. discriminate (action_name_injective _ _ E). Defined.
