(* ===== verification/Tables.v ===== *)
(** * The tables of people, workspaces and channels
    ([backend/api/src/workspace/{models,repo}.rs], [auth/models.rs],
    [conversations/repo.rs])

    The rows the access rules and the membership operations read and write, and
    the queries and statements the repositories run on them.  A table is a map
    from its primary key.  Columns nothing here reads are left out: the texts
    of profiles and channels.  The queries of a repository see the tables as
    the rest of [Outbox.Db]. *)

From stdpp Require Import base tactics option numbers list gmap sorting.
From Stdlib Require Import ZArith Lia String Ascii.
From S2P Require Import Prelude RustStr Json Errors Frames Publisher ApiState Outbox AuditLog ListStore LaterStore MessageStore PollStore NoticeStore AuthStore.

Inductive UserStatus := Pending | Active | Suspended.
Inductive WorkspaceRole := Guest | Member | Admin | Owner.
Inductive ChannelType := Public | Private | Dm | GroupDm.
Module ChannelRole.
Inductive t := Member | Admin.
End ChannelRole.

#[export] Instance UserStatus_eq_dec : EqDecision UserStatus.
Proof. solve_decision. Defined.
#[export] Instance WorkspaceRole_eq_dec : EqDecision WorkspaceRole.
Proof. solve_decision. Defined.
#[export] Instance ChannelType_eq_dec : EqDecision ChannelType.
Proof. solve_decision. Defined.
#[export] Instance ChannelRole_eq_dec : EqDecision ChannelRole.t.
Proof. solve_decision. Defined.

Definition level (r : WorkspaceRole) : Z :=
  match r with Guest => 10 | Member => 20 | Admin => 40 | Owner => 50 end.

Definition has_at_least (r minimum : WorkspaceRole) : bool := level minimum <=? level r.

Module User.
Record t := {
  email : str; display_name : option str; status : UserStatus; is_bot : bool; timezone : option str; password_hash : option str;
  is_instance_admin : bool;
}.
Definition set_status (s : UserStatus) (u : t) : t :=
  {| email := email u; display_name := display_name u; status := s; is_bot := is_bot u; timezone := timezone u;
     password_hash := password_hash u; is_instance_admin := is_instance_admin u |}.
Definition set_password (hash : str) (u : t) : t :=
  {| email := email u; display_name := display_name u; status := status u; is_bot := is_bot u; timezone := timezone u;
     password_hash := Some hash; is_instance_admin := is_instance_admin u |}.
Definition set_activated (hash name : str) (u : t) : t :=
  {| email := email u; display_name := Some name; status := Active; is_bot := is_bot u; timezone := timezone u;
     password_hash := Some hash; is_instance_admin := is_instance_admin u |}.
Definition set_admin (b : bool) (u : t) : t :=
  {| email := email u; display_name := display_name u; status := status u; is_bot := is_bot u; timezone := timezone u;
     password_hash := password_hash u; is_instance_admin := b |}.
End User.

Module Workspace.
Record t := { id : Uuid; owner_id : Uuid; settings : json; is_active : bool }.
End Workspace.

Module WorkspaceMember.
Record t := { workspace_id : Uuid; user_id : Uuid; role : WorkspaceRole; joined_at : Z; is_bot : bool }.
End WorkspaceMember.

Module Channel.
Record t := {
  id : Uuid; workspace_id : Uuid; name : option str; channel_type : ChannelType;
  created_by : option Uuid; is_default : bool; is_archived : bool; settings : json; created_at : Z;
}.
End Channel.

(** What a member keeps of a channel.  [last_read_msg] and
    [last_read_message_id] are written together, and are one field here. *)
Module Reading.
Record t := {
  last_read_at : option Z; last_read_message_id : option Uuid; is_starred : bool; muted : bool;
  mention_count : Z; notify_level : option str;
}.
Definition fresh : t :=
  {| last_read_at := None; last_read_message_id := None; is_starred := false; muted := false;
     mention_count := 0; notify_level := None |}.
End Reading.

Module ChannelMember.
Record t := {
  channel_id : Uuid; user_id : Uuid; role : ChannelRole.t; joined_at : Z; unread_count : Z; reading : Reading.t;
}.
End ChannelMember.

(** A row of [conversation_departures]: the membership as it was. *)
Module Departure.
Record t := { role : ChannelRole.t; joined_at : Z; left_at : Z; reading : Reading.t }.
End Departure.

Module WorkspaceInvite.
Record t := {
  id : Uuid; workspace_id : Uuid; created_by : Uuid; email : option str; role : WorkspaceRole;
  token : str; max_uses : option Z; use_count : Z; expires_at : option Z; created_at : Z;
}.
End WorkspaceInvite.

Module ScheduledMessage.
Record t := {
  id : Uuid; workspace_id : Uuid; user_id : Uuid; channel_id : Uuid; content : str; send_at : Z; sent_at : option Z;
  canceled_at : option Z; failure : option str; created_at : Z; attachment_ids : list Uuid; thread_parent_id : option Uuid;
  also_in_channel : bool;
}.
Definition set_sent (at_ : Z) (m : t) : t :=
  {| id := id m; workspace_id := workspace_id m; user_id := user_id m; channel_id := channel_id m; content := content m;
     send_at := send_at m; sent_at := Some at_; canceled_at := canceled_at m; failure := failure m; created_at := created_at m;
     attachment_ids := attachment_ids m; thread_parent_id := thread_parent_id m; also_in_channel := also_in_channel m |}.
Definition set_sent_now (at_ : Z) (m : t) : t :=
  {| id := id m; workspace_id := workspace_id m; user_id := user_id m; channel_id := channel_id m; content := content m;
     send_at := send_at m; sent_at := Some at_; canceled_at := canceled_at m; failure := None; created_at := created_at m;
     attachment_ids := attachment_ids m; thread_parent_id := thread_parent_id m; also_in_channel := also_in_channel m |}.
Definition set_canceled (at_ : Z) (m : t) : t :=
  {| id := id m; workspace_id := workspace_id m; user_id := user_id m; channel_id := channel_id m; content := content m;
     send_at := send_at m; sent_at := sent_at m; canceled_at := Some at_; failure := failure m; created_at := created_at m;
     attachment_ids := attachment_ids m; thread_parent_id := thread_parent_id m; also_in_channel := also_in_channel m |}.
Definition set_rescheduled (at_ : Z) (m : t) : t :=
  {| id := id m; workspace_id := workspace_id m; user_id := user_id m; channel_id := channel_id m; content := content m;
     send_at := at_; sent_at := None; canceled_at := canceled_at m; failure := None; created_at := created_at m;
     attachment_ids := attachment_ids m; thread_parent_id := thread_parent_id m; also_in_channel := also_in_channel m |}.
Definition set_failure (failure_ : str) (m : t) : t :=
  {| id := id m; workspace_id := workspace_id m; user_id := user_id m; channel_id := channel_id m; content := content m;
     send_at := send_at m; sent_at := sent_at m; canceled_at := canceled_at m; failure := Some failure_; created_at := created_at m;
     attachment_ids := attachment_ids m; thread_parent_id := thread_parent_id m; also_in_channel := also_in_channel m |}.
End ScheduledMessage.

Module Hook.
Record t := {
  workspace_id : Uuid; name : str; created_by : Uuid; is_active : bool; disabled_reason : option str;
}.
End Hook.

Module Workflow.
Record t := { workspace_id : Uuid; name : str; created_by : Uuid; enabled : bool; next_run_at : option Z }.
End Workflow.

(** Periods in days; none keeps for ever. *)
Module RetentionPolicy.
Record t := {
  workspace_id : Uuid; message_days : option Z; file_days : option Z; audit_days : Z; notification_days : Z;
  channel_overrides : bool; updated_by : option Uuid; updated_at : Z;
}.
End RetentionPolicy.
Module ChannelOverride.
Record t := { message_days : option Z; updated_by : option Uuid; updated_at : Z }.
End ChannelOverride.
Record RetentionTables := { retention_policies : gmap Uuid RetentionPolicy.t; channel_retention : gmap Uuid ChannelOverride.t }.
Definition no_retention : RetentionTables := {| retention_policies := ∅; channel_retention := ∅ |}.
Definition set_retention_policies f (t : RetentionTables) : RetentionTables :=
  {| retention_policies := f (retention_policies t); channel_retention := channel_retention t |}.
Definition set_channel_retention f (t : RetentionTables) : RetentionTables :=
  {| retention_policies := retention_policies t; channel_retention := f (channel_retention t) |}.

(** A table is a map from its primary key; the value of [workspace_members] is
    the role and the time of joining. *)
Record AppTables := {
  users : gmap Uuid User.t;
  workspaces : gmap Uuid Workspace.t;
  workspace_members : gmap (Uuid * Uuid) (WorkspaceRole * Z);
  channels : gmap Uuid Channel.t;
  channel_members : gmap (Uuid * Uuid) ChannelMember.t;
  conversation_departures : gmap (Uuid * Uuid) Departure.t;
  workspace_invites : gmap Uuid WorkspaceInvite.t;
  scheduled_messages : gmap Uuid ScheduledMessage.t;
  hooks : gmap Uuid Hook.t;
  workflows : gmap Uuid Workflow.t;
  audit_log : list (AuditEntry.t * Z);   (** the entry and when it was written *)
  list_tables : ListTables;
  later_items : LaterTable;
  message_tables : MessageTables;
  poll_tables : PollTables;
  notice_tables : NoticeTables;
  retention_tables : RetentionTables;
  auth_tables : AuthTables;
}.

Abbreviation ApiDb := (Db AppTables).

Definition with_app {R S} (f : R -> S) (d : Db R) : Db S :=
  {| outbox := outbox d; next_row := next_row d; stream_index := stream_index d; log := log d; out := out d;
     app := f (app d) |}.

(** The tables with one of them changed. *)
Definition set_workspaces f (t : AppTables) : AppTables :=
  let '(Build_AppTables us ws wm cs cm cd wi sm hs wf al lt li ms po no re au) := t in Build_AppTables us (f ws) wm cs cm cd wi sm hs wf al lt li ms po no re au.
Definition set_workspace_members f (t : AppTables) : AppTables :=
  let '(Build_AppTables us ws wm cs cm cd wi sm hs wf al lt li ms po no re au) := t in Build_AppTables us ws (f wm) cs cm cd wi sm hs wf al lt li ms po no re au.
Definition set_channels f (t : AppTables) : AppTables :=
  let '(Build_AppTables us ws wm cs cm cd wi sm hs wf al lt li ms po no re au) := t in Build_AppTables us ws wm (f cs) cm cd wi sm hs wf al lt li ms po no re au.
Definition set_channel_members f (t : AppTables) : AppTables :=
  let '(Build_AppTables us ws wm cs cm cd wi sm hs wf al lt li ms po no re au) := t in Build_AppTables us ws wm cs (f cm) cd wi sm hs wf al lt li ms po no re au.
Definition set_conversation_departures f (t : AppTables) : AppTables :=
  let '(Build_AppTables us ws wm cs cm cd wi sm hs wf al lt li ms po no re au) := t in Build_AppTables us ws wm cs cm (f cd) wi sm hs wf al lt li ms po no re au.
Definition set_workspace_invites f (t : AppTables) : AppTables :=
  let '(Build_AppTables us ws wm cs cm cd wi sm hs wf al lt li ms po no re au) := t in Build_AppTables us ws wm cs cm cd (f wi) sm hs wf al lt li ms po no re au.
Definition set_scheduled_messages f (t : AppTables) : AppTables :=
  let '(Build_AppTables us ws wm cs cm cd wi sm hs wf al lt li ms po no re au) := t in Build_AppTables us ws wm cs cm cd wi (f sm) hs wf al lt li ms po no re au.
Definition set_hooks f (t : AppTables) : AppTables :=
  let '(Build_AppTables us ws wm cs cm cd wi sm hs wf al lt li ms po no re au) := t in Build_AppTables us ws wm cs cm cd wi sm (f hs) wf al lt li ms po no re au.
Definition set_workflows f (t : AppTables) : AppTables :=
  let '(Build_AppTables us ws wm cs cm cd wi sm hs wf al lt li ms po no re au) := t in Build_AppTables us ws wm cs cm cd wi sm hs (f wf) al lt li ms po no re au.
Definition set_audit_log f (t : AppTables) : AppTables :=
  let '(Build_AppTables us ws wm cs cm cd wi sm hs wf al lt li ms po no re au) := t in Build_AppTables us ws wm cs cm cd wi sm hs wf (f al) lt li ms po no re au.
Definition set_list_tables f (t : AppTables) : AppTables :=
  let '(Build_AppTables us ws wm cs cm cd wi sm hs wf al lt li ms po no re au) := t in Build_AppTables us ws wm cs cm cd wi sm hs wf al (f lt) li ms po no re au.
Definition set_later_items f (t : AppTables) : AppTables :=
  let '(Build_AppTables us ws wm cs cm cd wi sm hs wf al lt li ms po no re au) := t in Build_AppTables us ws wm cs cm cd wi sm hs wf al lt (f li) ms po no re au.

Definition set_message_tables f (t : AppTables) : AppTables :=
  let '(Build_AppTables us ws wm cs cm cd wi sm hs wf al lt li ms po no re au) := t in Build_AppTables us ws wm cs cm cd wi sm hs wf al lt li (f ms) po no re au.
Definition set_poll_tables f (t : AppTables) : AppTables :=
  let '(Build_AppTables us ws wm cs cm cd wi sm hs wf al lt li ms po no re au) := t in Build_AppTables us ws wm cs cm cd wi sm hs wf al lt li ms (f po) no re au.
Definition set_notice_tables f (t : AppTables) : AppTables :=
  let '(Build_AppTables us ws wm cs cm cd wi sm hs wf al lt li ms po no re au) := t in Build_AppTables us ws wm cs cm cd wi sm hs wf al lt li ms po (f no) re au.

Definition set_retention_tables f (t : AppTables) : AppTables :=
  let '(Build_AppTables us ws wm cs cm cd wi sm hs wf al lt li ms po no re au) := t in Build_AppTables us ws wm cs cm cd wi sm hs wf al lt li ms po no (f re) au.

Definition set_auth_tables f (t : AppTables) : AppTables :=
  let '(Build_AppTables us ws wm cs cm cd wi sm hs wf al lt li ms po no re au) := t in Build_AppTables us ws wm cs cm cd wi sm hs wf al lt li ms po no re (f au).
Definition set_users f (t : AppTables) : AppTables :=
  let '(Build_AppTables us ws wm cs cm cd wi sm hs wf al lt li ms po no re au) := t in Build_AppTables (f us) ws wm cs cm cd wi sm hs wf al lt li ms po no re au.

(** ** Queries *)

Section queries.
Implicit Types (t : AppTables).

Definition find_by_id (id : Uuid) t : option User.t := users t !! id.
Definition find_workspace_by_id (id : Uuid) t : option Workspace.t := workspaces t !! id.
Definition find_channel_by_id (id : Uuid) t : option Channel.t := channels t !! id.

(** [workspace_members JOIN users] *)
Definition get_member (workspace_id user_id : Uuid) t : option WorkspaceMember.t :=
  m ← workspace_members t !! (workspace_id, user_id);
  u ← users t !! user_id;
  Some {| WorkspaceMember.workspace_id := workspace_id; WorkspaceMember.user_id := user_id;
          WorkspaceMember.role := m.1; WorkspaceMember.joined_at := m.2; WorkspaceMember.is_bot := User.is_bot u |}.

Definition get_channel_member (channel_id user_id : Uuid) t : option ChannelMember.t :=
  channel_members t !! (channel_id, user_id).

(** [COALESCE(NULLIF(BTRIM(display_name), ''), 'Somebody')]; [BTRIM] takes
    spaces only. *)
Definition btrim (s : str) : str :=
  let front := skip_while (Z.eqb 32) s in reverse (skip_while (Z.eqb 32) (reverse front)).
Definition shown_name (display_name : option str) : str :=
  match btrim <$> display_name with
  | Some [] | None => $"Somebody"
  | Some name => name
  end.

(** [ORDER BY left_at]; equal times come in the order of the map, where the
    database promises none. *)
Definition left_before (a b : Uuid * Departure.t) : Prop := Departure.left_at a.2 <= Departure.left_at b.2.
#[global] Instance left_before_dec a b : Decision (left_before a b).
Proof. unfold left_before. apply _. Defined.

Definition departures_of (channel_id : Uuid) t : list (Uuid * Departure.t) :=
  omap (fun p : Uuid * Uuid * Departure.t => if decide (p.1.1 = channel_id) then Some (p.1.2, p.2) else None)
    (map_to_list (conversation_departures t)).

Definition departed_name (channel_id : Uuid) t : option str :=
  c ← channels t !! channel_id;
  if decide (Channel.channel_type c = Dm) then
    match merge_sort left_before (filter (fun p => is_Some (users t !! p.1)) (departures_of channel_id t)) with
    | (u, _) :: _ => (fun u => shown_name (User.display_name u)) <$> users t !! u
    | [] => None
    end
  else None.
End queries.
