(* ===== verification/Authz.v ===== *)
(** * Who may do what ([backend/api/src/authz.rs], the types of
    [workspace/models.rs] and [bots/models.rs] it decides on)

    The rules are functions of the rows ([ChannelAccess], [WhoMay]); the
    handlers read the rows one query at a time.  Each handler is shown to
    answer a question about the tables ([answers]): what others do to the rows
    of other people and channels meanwhile does not change the answer, and a
    query that fails is reported as a failure, never as a grant. *)

From stdpp Require Import base tactics option numbers list gmap sorting.
From Stdlib Require Import ZArith Lia String Ascii.
From S2P Require Import Prelude RustStr Json Errors Frames Publisher MessageStore ApiState Outbox AuditLog Tables.

Inductive PostPolicy := Everyone | Moderators.
Inductive HookType := IncomingWebhook | OutgoingWebhook | SlashCommand.
Inductive Scope :=
| ChatWrite | ChatWritePublic | ChannelsRead | ChannelsHistory | GroupsHistory
| ImWrite | ReactionsWrite | FilesWrite | UsersRead | Commands.
#[export] Instance Scope_eq_dec : EqDecision Scope.
Proof. solve_decision. Defined.

Module BotToken.
Record t := { app_id : Uuid; workspace_id : Uuid; scopes : list Scope }.
Definition allows (b : t) (s : Scope) : bool := bool_decide (s ∈ scopes b).
End BotToken.

Module AuthUser.
Record t := { user_id : Uuid; is_instance_admin : bool; jti : option Uuid; bot : option BotToken.t }.
End AuthUser.

Module WhoMay.
Inductive t := Members | Admins.
Definition WORKFLOW_BUILDERS : str := $"workflow_builders".
Definition BROADCAST_MENTIONS : str := $"broadcast_mentions".
Definition PUBLIC_CHANNEL_CREATORS : str := $"public_channel_creators".
Definition PRIVATE_CHANNEL_CREATORS : str := $"private_channel_creators".

Definition as_str (w : t) : str := match w with Members => $"members" | Admins => $"admins" end.

Definition of_ (settings : json) (key : str) : t :=
  match get_str key settings with
  | Some s => if str_eqb s ($"admins") then Admins else Members
  | None => Members
  end.

Definition allows (w : t) (role : WorkspaceRole) : bool :=
  match w with Members => has_at_least role Member | Admins => has_at_least role Admin end.
End WhoMay.

(** ** What a person is to a channel *)

Module ChannelAccess.
Record t := { channel : Channel.t; member : WorkspaceMember.t; channel_member : option ChannelMember.t }.
Implicit Types a : t.

Definition role a : WorkspaceRole := WorkspaceMember.role (member a).
Definition is_guest a : bool := bool_decide (role a = Guest).

Definition requires_explicit_membership a : bool :=
  is_guest a || WorkspaceMember.is_bot (member a)
  || negb (bool_decide (Channel.channel_type (channel a) = Public)).

Definition is_channel_admin a : bool :=
  match channel_member a with
  | Some cm => bool_decide (ChannelMember.role cm = ChannelRole.Admin)
  | None => false
  end.

Definition post_policy a : PostPolicy :=
  match get_str ($"post_policy") (Channel.settings (channel a)) with
  | Some s => if str_eqb s ($"moderators") then Moderators else Everyone
  | None => Everyone
  end.

Definition can_moderate a : bool :=
  if has_at_least (role a) Admin then true
  else has_at_least (role a) Member && is_channel_admin a.

Definition can_post a : bool :=
  if Channel.is_archived (channel a) then false
  else match post_policy a with Everyone => true | Moderators => can_moderate a end.

Definition allows_broadcast_mentions a : bool :=
  default true (get_bool ($"allow_broadcast_mentions") (Channel.settings (channel a))).

Definition broadcast_refusal a (rule : WhoMay.t) : option str :=
  if negb (allows_broadcast_mentions a) then
    Some ($"@channel, @here and @everyone are turned off in this channel")
  else match rule with
       | WhoMay.Members => None
       | WhoMay.Admins =>
           if has_at_least (role a) Admin || is_channel_admin a then None
           else Some ($"Only workspace admins and this channel's admins can use @channel, @here and @everyone")
       end.

Definition can_manage_hook a (hook_type : HookType) : bool :=
  if requires_explicit_membership a && negb (bool_decide (is_Some (channel_member a))) then false
  else match hook_type with
       | IncomingWebhook => can_moderate a
       | OutgoingWebhook | SlashCommand => has_at_least (role a) Admin
       end.
End ChannelAccess.

(** ** The handlers *)

Abbreviation Api A := (Svc ApiDb (AppResult A)).

(** A query of a repository. *)
Definition query {A} (q : AppTables -> A) : Api A := sql_read (fun d => q (app d)).

(** [.ok_or_else(..)?] *)
Definition require {A} (e : AppError) (o : option A) : Api A := mret (ok_or e o).
Definition refuse {A} (msg : str) : Api A := mret (Err (Forbidden msg)).

Definition role_debug (r : WorkspaceRole) : str :=
  match r with Guest => $"Guest" | Member => $"Member" | Admin => $"Admin" | Owner => $"Owner" end.

Definition require_workspace_member (workspace_id user_id : Uuid) : Api WorkspaceMember.t :=
  m ←? query (get_member workspace_id user_id);
  require (Forbidden ($"Not a member of this workspace")) m.

Definition require_workspace_role (workspace_id user_id : Uuid) (minimum : WorkspaceRole) : Api WorkspaceMember.t :=
  member ←? require_workspace_member workspace_id user_id;
  if negb (has_at_least (WorkspaceMember.role member) minimum) then
    refuse ($"Requires at least " ++ role_debug minimum ++ $" role")
  else mret (Ok member).

Definition outranks (actor target : WorkspaceRole) : bool := level target <? level actor.

Definition find_channel (channel_id : Uuid) : Api Channel.t :=
  c ←? query (find_channel_by_id channel_id);
  require (NotFound ($"Channel not found")) c.

Definition channel_access (channel_id user_id : Uuid) (posts_publicly : bool) : Api ChannelAccess.t :=
  channel ←? find_channel channel_id;
  member ←? require_workspace_member (Channel.workspace_id channel) user_id;
  channel_member ←? query (get_channel_member channel_id user_id);
  let access := {| ChannelAccess.channel := channel; ChannelAccess.member := member;
                   ChannelAccess.channel_member := channel_member |} in
  let public_to_this_bot :=
    posts_publicly && WorkspaceMember.is_bot member && bool_decide (Channel.channel_type channel = Public) in
  if ChannelAccess.requires_explicit_membership access
     && negb (bool_decide (is_Some (ChannelAccess.channel_member access))) && negb public_to_this_bot
  then refuse ($"Not a member of this channel")
  else mret (Ok access).

Definition require_channel_access (channel_id user_id : Uuid) : Api ChannelAccess.t :=
  channel_access channel_id user_id false.

Definition require_not_archived (channel : Channel.t) : AppResult unit :=
  if Channel.is_archived channel then Err (Forbidden ($"This channel is archived")) else Ok tt.

Definition require_posting (access : ChannelAccess.t) : Api ChannelAccess.t :=
  _ ←? mret (require_not_archived (ChannelAccess.channel access));
  if negb (ChannelAccess.can_post access) then refuse ($"Only moderators can post in this channel")
  else if bool_decide (Channel.channel_type (ChannelAccess.channel access) = Dm) then
    name ←? query (departed_name (Channel.id (ChannelAccess.channel access)));
    match name with
    | Some name => refuse (name ++ $" is no longer in this workspace")
    | None => mret (Ok access)
    end
  else mret (Ok access).

Definition require_channel_post (channel_id user_id : Uuid) : Api ChannelAccess.t :=
  access ←? require_channel_access channel_id user_id;
  require_posting access.

Definition posts_publicly (auth : AuthUser.t) : bool :=
  match AuthUser.bot auth with Some b => BotToken.allows b ChatWritePublic | None => false end.

Definition require_channel_post_as (channel_id : Uuid) (auth : AuthUser.t) : Api ChannelAccess.t :=
  access ←? channel_access channel_id (AuthUser.user_id auth) (posts_publicly auth);
  require_posting access.

(** ** Whether an automation may still act for its creator *)

Inductive Stopped := Inactive | LeftWorkspace | LostChannel | Demoted.
#[export] Instance Stopped_eq_dec : EqDecision Stopped.
Proof. solve_decision. Defined.

Definition reason (s : Stopped) : str :=
  match s with
  | Inactive => $"Its creator's account is suspended"
  | LeftWorkspace => $"Its creator left the workspace"
  | LostChannel => $"Its creator can no longer read the channel"
  | Demoted => $"Its creator is no longer allowed to make it"
  end.

Definition still_acting (workspace_id user_id : Uuid) (channel_id : option Uuid) : Api (option Stopped) :=
  user ←? query (find_by_id user_id);
  let active := match user with Some u => bool_decide (User.status u = Active) | None => false end in
  if negb active then mret (Ok (Some Inactive))
  else
    member ←? query (get_member workspace_id user_id);
    match member with
    | None => mret (Ok (Some LeftWorkspace))
    | Some _ =>
        match channel_id with
        | None => mret (Ok None)
        | Some channel_id =>
            access ← require_channel_access channel_id user_id;
            match access with
            | Ok access =>
                if bool_decide (Channel.workspace_id (ChannelAccess.channel access) = workspace_id)
                then mret (Ok None) else mret (Ok (Some LostChannel))
            | Err (Forbidden _ | NotFound _) => mret (Ok (Some LostChannel))
            | Err e => mret (Err e)
            end
        end
    end.

Definition hook_still_acting (hook_type : HookType) (workspace_id user_id channel_id : Uuid) : Api (option Stopped) :=
  stopped ←? still_acting workspace_id user_id (Some channel_id);
  match stopped with
  | Some s => mret (Ok (Some s))
  | None =>
      access ←? require_channel_access channel_id user_id;
      mret (Ok (if negb (ChannelAccess.can_manage_hook access hook_type) then Some Demoted else None))
  end.

(** ** Moderation, hooks and broadcasts *)

Definition can_moderate_channel (channel : Channel.t) (user_id : Uuid) : Svc ApiDb bool :=
  member ← query (get_member (Channel.workspace_id channel) user_id);
  match member with
  | Ok (Some member) =>
      channel_member ← query (get_channel_member (Channel.id channel) user_id);
      match channel_member with
      | Ok channel_member =>
          mret (ChannelAccess.can_moderate
            {| ChannelAccess.channel := channel; ChannelAccess.member := member;
               ChannelAccess.channel_member := channel_member |})
      | Err _ => mret false
      end
  | _ => mret false
  end.

Definition require_channel_moderator (channel : Channel.t) (user_id : Uuid) : Api unit :=
  ok ← can_moderate_channel channel user_id;
  if ok : bool then mret (Ok tt) else refuse ($"Requires channel admin or workspace admin").

Definition access_to (channel : Channel.t) (user_id : Uuid) : Api (option ChannelAccess.t) :=
  member ←? query (get_member (Channel.workspace_id channel) user_id);
  match member with
  | None => mret (Ok None)
  | Some member =>
      channel_member ←? query (get_channel_member (Channel.id channel) user_id);
      mret (Ok (Some {| ChannelAccess.channel := channel; ChannelAccess.member := member;
                        ChannelAccess.channel_member := channel_member |}))
  end.

Definition workspace_rule (workspace_id : Uuid) (key : str) : Api WhoMay.t :=
  workspace ←? query (find_workspace_by_id workspace_id);
  workspace ←? require (NotFound ($"Workspace not found")) workspace;
  mret (Ok (WhoMay.of_ (Workspace.settings workspace) key)).

Definition can_manage_channel_hook (hook_type : HookType) (channel : Channel.t) (user_id : Uuid) : Api bool :=
  access ←? access_to channel user_id;
  mret (Ok (match access with Some a => ChannelAccess.can_manage_hook a hook_type | None => false end)).

Definition broadcast_refusal (channel : Channel.t) (user_id : Uuid) : Api (option str) :=
  access ←? access_to channel user_id;
  match access with
  | None => mret (Ok (Some ($"Not a member of this workspace")))
  | Some access =>
      rule ←? workspace_rule (Channel.workspace_id channel) WhoMay.BROADCAST_MENTIONS;
      mret (Ok (ChannelAccess.broadcast_refusal access rule))
  end.

Definition can_broadcast (channel : Channel.t) (user_id : Uuid) : Api bool :=
  refusal ←? broadcast_refusal channel user_id;
  mret (Ok (bool_decide (refusal = None))).

Definition require_broadcast (channel : Channel.t) (user_id : Uuid) : Api unit :=
  refusal ←? broadcast_refusal channel user_id;
  match refusal with Some r => refuse r | None => mret (Ok tt) end.

Definition require_channel_creator (workspace_id user_id : Uuid) (channel_type : ChannelType) : Api unit :=
  member ←? require_workspace_member workspace_id user_id;
  let '(key, kind) :=
    match channel_type with
    | Private => (WhoMay.PRIVATE_CHANNEL_CREATORS, $"private")
    | _ => (WhoMay.PUBLIC_CHANNEL_CREATORS, $"public")
    end in
  rule ←? workspace_rule workspace_id key;
  if WhoMay.allows rule (WorkspaceMember.role member) then mret (Ok tt)
  else match rule with
       | WhoMay.Admins =>
           if negb (bool_decide (WorkspaceMember.role member = Guest))
           then refuse ($"Only admins can create " ++ kind ++ $" channels in this workspace")
           else refuse ($"Requires at least " ++ role_debug Member ++ $" role")
       | WhoMay.Members => refuse ($"Requires at least " ++ role_debug Member ++ $" role")
       end.

Definition require_channel_hook_manager (hook_type : HookType) (channel : Channel.t) (user_id : Uuid) : Api unit :=
  ok ←? can_manage_channel_hook hook_type channel user_id;
  if ok : bool then mret (Ok tt)
  else match hook_type with
       | IncomingWebhook =>
           refuse ($"Requires channel admin or workspace admin, in the channel if it is private")
       | OutgoingWebhook | SlashCommand =>
           refuse ($"Requires workspace admin, in the channel if it is private")
       end.

(** ** The rules over the tables *)

Section rules.
Implicit Types (t : AppTables) (ch u ws : Uuid).

Definition member_rule ws u t : AppResult WorkspaceMember.t :=
  ok_or (Forbidden ($"Not a member of this workspace")) (get_member ws u t).

Definition role_rule ws u minimum t : AppResult WorkspaceMember.t :=
  m ← member_rule ws u t;
  if negb (has_at_least (WorkspaceMember.role m) minimum)
  then Err (Forbidden ($"Requires at least " ++ role_debug minimum ++ $" role")) else Ok m.

Definition channel_rule ch t : AppResult Channel.t := ok_or (NotFound ($"Channel not found")) (find_channel_by_id ch t).

Definition access_rule ch u (pub : bool) t : AppResult ChannelAccess.t :=
  c ← channel_rule ch t;
  m ← member_rule (Channel.workspace_id c) u t;
  let a := {| ChannelAccess.channel := c; ChannelAccess.member := m;
              ChannelAccess.channel_member := get_channel_member ch u t |} in
  if ChannelAccess.requires_explicit_membership a && negb (bool_decide (is_Some (ChannelAccess.channel_member a)))
     && negb (pub && WorkspaceMember.is_bot m && bool_decide (Channel.channel_type c = Public))
  then Err (Forbidden ($"Not a member of this channel")) else Ok a.

Definition posting_rule (a : ChannelAccess.t) t : AppResult ChannelAccess.t :=
  _ ← require_not_archived (ChannelAccess.channel a);
  if negb (ChannelAccess.can_post a) then Err (Forbidden ($"Only moderators can post in this channel"))
  else if bool_decide (Channel.channel_type (ChannelAccess.channel a) = Dm) then
    match departed_name (Channel.id (ChannelAccess.channel a)) t with
    | Some name => Err (Forbidden (name ++ $" is no longer in this workspace"))
    | None => Ok a
    end
  else Ok a.

Definition still_acting_rule ws u (ch : option Uuid) t : AppResult (option Stopped) :=
  if negb (match find_by_id u t with Some u => bool_decide (User.status u = Active) | None => false end)
  then Ok (Some Inactive)
  else match get_member ws u t, ch with
       | None, _ => Ok (Some LeftWorkspace)
       | Some _, None => Ok None
       | Some _, Some ch =>
           match access_rule ch u false t with
           | Ok a => if bool_decide (Channel.workspace_id (ChannelAccess.channel a) = ws)
                     then Ok None else Ok (Some LostChannel)
           | Err (Forbidden _ | NotFound _) => Ok (Some LostChannel)
           | Err e => Err e
           end
       end.

(** The rows the answers about a person depend on: the person's own, and those
    of channels and workspaces. *)
Definition same_for u : relation ApiDb := fun d d' =>
  users (app d) !! u = users (app d') !! u /\
  (forall ws, workspace_members (app d) !! (ws, u) = workspace_members (app d') !! (ws, u)) /\
  (forall ch, channel_members (app d) !! (ch, u) = channel_members (app d') !! (ch, u)) /\
  channels (app d) = channels (app d') /\ workspaces (app d) = workspaces (app d') /\
  (forall ch, departed_name ch (app d) = departed_name ch (app d')).

#[export] Instance same_for_preorder u : PreOrder (same_for u).
Proof.
  split; [intros d; unfold same_for; by split_and!|]. intros d1 d2 d3 (A1 & B1 & C1 & D1 & E1 & F1) (A2 & B2 & C2 & D2 & E2 & F2).
  unfold same_for. split_and!; congruence.
Qed.

Lemma query_answers {A} u (q : AppTables -> A) :
  (forall d d', same_for u d d' -> q (app d) = q (app d')) ->
  answers (same_for u) (query q) (fun d => Ok (q (app d))).
Proof. intros Hq. unfold query. apply (answers_read (same_for u) (fun d => q (app d))). exact Hq. Qed.

Lemma member_same u ws d d' : same_for u d d' -> get_member ws u (app d) = get_member ws u (app d').
Proof. intros (A & B & _). unfold get_member. by rewrite A, B. Qed.
End rules.

#[export] Hint Extern 1 (answers _ (require _ _) _) => unfold require; refine (answers_ret _ _) : answers.
#[export] Hint Extern 1 (answers _ (refuse _) _) => unfold refuse; refine (answers_ret _ _) : answers.

(** What [same_for] leaves as it is. *)
Ltac same_rows :=
  let A := fresh in let B := fresh in let C := fresh in let D := fresh in let E := fresh in let F := fresh in
  intros ? ? (A & B & C & D & E & F);
  first [exact A | apply C | apply F
        | unfold get_member; by rewrite A, B | unfold find_channel_by_id; by rewrite D
        | unfold find_workspace_by_id; by rewrite E].
#[export] Hint Extern 1 (answers _ (query _) _) => eapply query_answers; same_rows : answers.

Section answered.
Implicit Types (t : AppTables) (ch u ws : Uuid).

Lemma require_workspace_member_answers ws u :
  answers (same_for u) (require_workspace_member ws u) (fun d => member_rule ws u (app d)).
Proof. unfold require_workspace_member. solve_answers. reflexivity. Qed.
#[local] Hint Extern 1 (answers _ (require_workspace_member _ _) _) => refine (require_workspace_member_answers _ _) : answers.

Lemma require_workspace_role_answers ws u minimum :
  answers (same_for u) (require_workspace_role ws u minimum) (fun d => role_rule ws u minimum (app d)).
Proof. unfold require_workspace_role. solve_answers. reflexivity. Qed.
#[local] Hint Extern 1 (answers _ (require_workspace_role _ _ _) _) => refine (require_workspace_role_answers _ _ _) : answers.

Lemma find_channel_answers ch u : answers (same_for u) (find_channel ch) (fun d => channel_rule ch (app d)).
Proof. unfold find_channel. solve_answers. reflexivity. Qed.
#[local] Hint Extern 1 (answers _ (find_channel _) _) => refine (find_channel_answers _ _) : answers.

Lemma channel_access_answers ch u pub :
  answers (same_for u) (channel_access ch u pub) (fun d => access_rule ch u pub (app d)).
Proof.
  unfold channel_access. solve_answers. unfold access_rule.
  destruct (channel_rule ch _) as [c|]; [|reflexivity]. cbn. destruct (member_rule _ u _) as [m|]; reflexivity.
Qed.
#[local] Hint Extern 1 (answers _ (channel_access _ _ _) _) => refine (channel_access_answers _ _ _) : answers.

Lemma require_posting_answers a u :
  answers (same_for u) (require_posting a) (fun d => posting_rule a (app d)).
Proof.
  unfold require_posting. solve_answers. unfold posting_rule.
  destruct (require_not_archived _); cbn; [|reflexivity]. by repeat case_match.
Qed.
#[local] Hint Extern 1 (answers _ (require_posting _) _) => refine (require_posting_answers _ _) : answers.

Lemma require_channel_post_as_answers ch auth :
  answers (same_for (AuthUser.user_id auth)) (require_channel_post_as ch auth)
    (fun d => a ← access_rule ch (AuthUser.user_id auth) (posts_publicly auth) (app d); posting_rule a (app d)).
Proof. unfold require_channel_post_as. solve_answers. reflexivity. Qed.

Lemma require_channel_access_answers ch u :
  answers (same_for u) (require_channel_access ch u) (fun d => access_rule ch u false (app d)).
Proof. apply channel_access_answers. Qed.

(** Reading the refusal of a channel as the loss of it. *)
Lemma lost_channel_answers ws u ch :
  answers (same_for u)
    (access ← require_channel_access ch u;
     match access with
     | Ok access =>
         if bool_decide (Channel.workspace_id (ChannelAccess.channel access) = ws)
         then mret (Ok None) else mret (Ok (Some LostChannel))
     | Err (Forbidden _ | NotFound _) => mret (Ok (Some LostChannel))
     | Err e => mret (Err e)
     end)
    (fun d => match access_rule ch u false (app d) with
              | Ok a => if bool_decide (Channel.workspace_id (ChannelAccess.channel a) = ws)
                        then Ok None else Ok (Some LostChannel)
              | Err (Forbidden _ | NotFound _) => Ok (Some LostChannel)
              | Err e => Err e
              end).
Proof.
  apply (answers_bind (same_for u) _ _ _ (fun r _ => match r with
    | Ok a => if bool_decide (Channel.workspace_id (ChannelAccess.channel a) = ws)
              then Ok None else Ok (Some LostChannel)
    | Err (Forbidden _ | NotFound _) => Ok (Some LostChannel)
    | Err e => Err e
    end)); [apply require_channel_access_answers| |reflexivity].
  intros [a|[]]; try apply (answers_ret (same_for u)). case_bool_decide; apply (answers_ret (same_for u)).
Qed.
#[local] Hint Extern 1 (answers _ (mbind _ (require_channel_access _ _)) _) => refine (lost_channel_answers _ _ _) : answers.
#[local] Hint Extern 1 (answers _ (require_channel_access _ _) _) => refine (require_channel_access_answers _ _) : answers.

Lemma still_acting_answers ws u (och : option Uuid) :
  answers (same_for u) (still_acting ws u och) (fun d => still_acting_rule ws u och (app d)).
Proof.
  unfold still_acting. solve_answers. unfold still_acting_rule. by destruct (get_member ws u _), och.
Qed.
#[local] Hint Extern 1 (answers _ (still_acting _ _ _) _) => refine (still_acting_answers _ _ _) : answers.

Lemma hook_still_acting_answers hook ws u ch :
  answers (same_for u) (hook_still_acting hook ws u ch)
    (fun d => s ← still_acting_rule ws u (Some ch) (app d);
       match s with
       | Some s => Ok (Some s)
       | None => a ← access_rule ch u false (app d);
           Ok (if negb (ChannelAccess.can_manage_hook a hook) then Some Demoted else None)
       end).
Proof.
  unfold hook_still_acting. solve_answers. reflexivity.
Qed.
End answered.

(** ** What the rules grant *)

Section granted.
Implicit Types (t : AppTables) (ch u ws : Uuid).

(** Who may read a channel: its members, and in a public channel everyone in
    the workspace who is not a guest or a bot; a bot too if it may post
    publicly. *)
Definition sees t ch u (posts_publicly : bool) (c : Channel.t) (m : WorkspaceMember.t) : Prop :=
  channels t !! ch = Some c /\ get_member (Channel.workspace_id c) u t = Some m /\
  (is_Some (channel_members t !! (ch, u)) \/
   Channel.channel_type c = Public /\
     (WorkspaceMember.role m <> Guest /\ WorkspaceMember.is_bot m = false \/
      posts_publicly = true /\ WorkspaceMember.is_bot m = true)).

(** Who may moderate: the workspace's admins, and members who are the channel's admins. *)
Definition moderates t ch u (m : WorkspaceMember.t) : Prop :=
  level Admin <= level (WorkspaceMember.role m) \/
  level Member <= level (WorkspaceMember.role m) /\
    exists cm, channel_members t !! (ch, u) = Some cm /\ ChannelMember.role cm = ChannelRole.Admin.

(** Who may post: who may read it, when it is not archived, is not reserved to
    moderators or they moderate it, and is not with somebody who left. *)
Definition may_post t ch u (posts_publicly : bool) : Prop :=
  exists c m, sees t ch u posts_publicly c m /\ Channel.is_archived c = false /\
    (get_str ($"post_policy") (Channel.settings c) = Some ($"moderators") -> moderates t ch u m) /\
    (Channel.channel_type c = Dm -> departed_name (Channel.id c) t = None).

Lemma access_rule_Ok ch u pub t a :
  access_rule ch u pub t = Ok a <->
  sees t ch u pub (ChannelAccess.channel a) (ChannelAccess.member a) /\
    ChannelAccess.channel_member a = channel_members t !! (ch, u).
Proof.
  unfold access_rule, channel_rule, member_rule, find_channel_by_id, sees. split.
  - intros H. inv_ok. split; [|reflexivity]. cbn. split; [done|]. split; [done|].
    unfold ChannelAccess.requires_explicit_membership, ChannelAccess.is_guest, ChannelAccess.role, get_channel_member in *.
    cbn in *. destruct (channel_members t !! (ch, u)) eqn:E; [left; eauto|right].
    destruct (Channel.channel_type _) eqn:Ety, (WorkspaceMember.is_bot _) eqn:Eb,
      (WorkspaceMember.role _) eqn:Er, pub; cbn in *; try done; split; auto.
  - destruct a as [c m cm]. cbn. intros [(Hc & Hm & Hor) ->]. rewrite Hc. cbn. rewrite Hm. cbn.
    unfold ChannelAccess.requires_explicit_membership, ChannelAccess.is_guest, ChannelAccess.role, get_channel_member.
    cbn. destruct Hor as [[cm' ->]|[-> Hor]]; [by rewrite andb_false_r|].
    destruct Hor as [[Hg ->]|[-> ->]]; [|by rewrite andb_false_r]. rewrite bool_decide_eq_false_2 by done. done.
Qed.

Lemma access_rule_Err ch u pub t e : access_rule ch u pub t = Err e -> exists msg, e = Forbidden msg \/ e = NotFound msg.
Proof.
  unfold access_rule, channel_rule, member_rule, find_channel_by_id, ok_or. cbn.
  intros H. repeat (case_match; cbn in H; simplify_eq); eauto.
Qed.

Lemma can_moderate_true a : ChannelAccess.can_moderate a = true <->
  level Admin <= level (ChannelAccess.role a) \/
  level Member <= level (ChannelAccess.role a) /\
    exists cm, ChannelAccess.channel_member a = Some cm /\ ChannelMember.role cm = ChannelRole.Admin.
Proof.
  unfold ChannelAccess.can_moderate, ChannelAccess.is_channel_admin, has_at_least.
  destruct (level Admin <=? _) eqn:E; bool_hyps; [tauto|].
  rewrite andb_true_iff, Z.leb_le. destruct (ChannelAccess.channel_member a) as [cm|].
  - split; [intros [? ?%bool_decide_eq_true]; right; eauto|].
    intros [?|[? (cm' & [= <-] & ?)]]; [lia|]. split; [done|]. by apply bool_decide_eq_true.
  - split; [by intros []|]. intros [?|[_ (? & [=] & _)]]. lia.
Qed.

Lemma str_eqb_true a b : str_eqb a b = true <-> a = b.
Proof. unfold str_eqb. apply bool_decide_eq_true. Qed.

Lemma posting_rule_Ok a t b :
  posting_rule a t = Ok b <->
  b = a /\ Channel.is_archived (ChannelAccess.channel a) = false /\
  (get_str ($"post_policy") (Channel.settings (ChannelAccess.channel a)) = Some ($"moderators") ->
     ChannelAccess.can_moderate a = true) /\
  (Channel.channel_type (ChannelAccess.channel a) = Dm -> departed_name (Channel.id (ChannelAccess.channel a)) t = None).
Proof.
  unfold posting_rule, require_not_archived, ChannelAccess.can_post, ChannelAccess.post_policy.
  destruct (Channel.is_archived _); [cbn; split; [done|]; intros (? & [=] & _)|]. cbn.
  assert (Hp : forall s, str_eqb s ($"moderators") = true <-> s = $"moderators") by (intros; apply str_eqb_true).
  destruct (get_str _ _) as [s|]; cbn.
  - destruct (str_eqb s _) eqn:E; cbn.
    + apply Hp in E as ->. destruct (ChannelAccess.can_moderate a); cbn.
      * case_bool_decide; [destruct (departed_name _ t)|]; naive_solver.
      * naive_solver.
    + assert (s <> $"moderators") by (intros ->; by rewrite (proj2 (Hp _) eq_refl) in E).
      case_bool_decide; [destruct (departed_name _ t)|]; naive_solver.
  - case_bool_decide; [destruct (departed_name _ t)|]; naive_solver.
Qed.

Lemma may_post_rule ch u pub t :
  (exists a, (a ← access_rule ch u pub t; posting_rule a t) = Ok a) <-> may_post t ch u pub.
Proof.
  unfold may_post. split.
  - intros (b & H). inv_ok. apply posting_rule_Ok in H0 as (-> & Har & Hpol & Hdm).
    apply access_rule_Ok in H as [Hs Hcm]. eexists _, _. split; [exact Hs|]. split; [done|]. split; [|done].
    intros Hm. specialize (Hpol Hm). apply can_moderate_true in Hpol. unfold moderates.
    unfold ChannelAccess.role in Hpol. by rewrite Hcm in Hpol.
  - intros (c & m & Hs & Har & Hpol & Hdm).
    set (a := {| ChannelAccess.channel := c; ChannelAccess.member := m;
                 ChannelAccess.channel_member := channel_members t !! (ch, u) |}).
    exists a. assert (E : access_rule ch u pub t = Ok a) by (by apply access_rule_Ok). rewrite E. cbn.
    apply posting_rule_Ok. split; [done|]. split; [done|]. split; [|done].
    intros Hm. apply can_moderate_true. exact (Hpol Hm).
Qed.
End granted.

(** ** Properties *)

(** C7: who may post.  Whatever others do meanwhile to rows that are not the
    person's own, their channels' or the workspaces', a post is let through only
    if the tables let the person read the channel, it is not archived, an
    announcement channel is moderated by them, and nobody left the direct
    conversation; and a post the tables allow is refused only because the
    database failed.  Checking changes nothing. *)
Theorem posting_is_what_the_tables_allow (ch : Uuid) (auth : AuthUser.t) (w : SvcWorld ApiDb) :
  let u := AuthUser.user_id auth in
  rely (same_for u) w ->
  let r := require_channel_post_as ch auth w in
  ((exists a, r.1 = Ok a) -> may_post (app (shared w)) ch u (posts_publicly auth)) /\
  (may_post (app (shared w)) ch u (posts_publicly auth) -> (exists a, r.1 = Ok a) \/ exists t, r.1 = Err (Database t)) /\
  same_for u (shared w) (shared r.2).
Proof.
  cbv zeta. intros Hw. destruct (require_channel_post_as_answers ch auth) as [_ Hm].
  destruct (Hm w Hw) as (Hs & _ & Hr & _). rewrite <-may_post_rule. split_and!; [| |exact Hs].
  - intros [a Ha]. exists a. destruct Hr as [Hr|[t Hr]]; [|congruence]. rewrite Ha in Hr. rewrite <-Hr.
    reflexivity.
  - intros [a Ha]. destruct Hr as [Hr|Hr]; [left|by right]. exists a. by rewrite Hr.
Qed.

(** What stops an automation. *)
Definition evidence (t : AppTables) (hook : HookType) (ws u ch : Uuid) (s : Stopped) : Prop :=
  match s with
  | Inactive => forall x, users t !! u = Some x -> User.status x <> Active
  | LeftWorkspace => get_member ws u t = None
  | LostChannel => forall c m, sees t ch u false c m -> Channel.workspace_id c <> ws
  | Demoted => exists c m, sees t ch u false c m /\
      ChannelAccess.can_manage_hook {| ChannelAccess.channel := c; ChannelAccess.member := m;
        ChannelAccess.channel_member := channel_members t !! (ch, u) |} hook = false
  end.

(** A hook is turned off only on evidence.  It is reported as stopped for a
    reason only if the tables show that reason; it is let through only when its
    creator is active, still in the workspace, still reads the channel and may
    still make it; and a database that does not answer gives neither. *)
Theorem hooks_stop_on_evidence (hook : HookType) (ws u ch : Uuid) (w : SvcWorld ApiDb) :
  rely (same_for u) w ->
  let t := app (shared w) in
  match (hook_still_acting hook ws u ch w).1 with
  | Ok (Some s) => evidence t hook ws u ch s
  | Ok None => (exists x, users t !! u = Some x /\ User.status x = Active) /\ is_Some (get_member ws u t) /\
      exists c m, sees t ch u false c m /\ Channel.workspace_id c = ws /\
        ChannelAccess.can_manage_hook {| ChannelAccess.channel := c; ChannelAccess.member := m;
          ChannelAccess.channel_member := channel_members t !! (ch, u) |} hook = true
  | Err e => exists text, e = Database text
  end.
Proof.
  intros Hw t. destruct (hook_still_acting_answers hook ws u ch) as [_ Hm].
  destruct (Hm w Hw) as (_ & _ & [->|[text ->]] & _); [|by exists text]. fold t. clear Hm Hw.
  unfold still_acting_rule, find_by_id.
  destruct (users t !! u) as [x|] eqn:Ex; [|by intros x' [=]; congruence].
  case_bool_decide as Hact; cbn; [|intros x' [= <-]%(eq_trans (eq_sym Ex)); exact Hact].
  destruct (get_member ws u t) as [m|] eqn:Em; cbn; [|exact Em].
  destruct (access_rule ch u false t) as [a|e] eqn:Ea.
  - apply access_rule_Ok in Ea as Ha. destruct Ha as [Hsee Hcm]. case_bool_decide as Hws; cbn.
    + destruct (ChannelAccess.can_manage_hook a hook) eqn:Eh; cbn; rewrite <-Hcm; destruct a as [c m' cm]; eauto 10.
    + intros c m' (Hc & _). destruct Hsee as [Hc' _]. congruence.
  - assert (Hnone : forall c m', ~ sees t ch u false c m').
    { intros c m' Hs. pose proof (proj2 (access_rule_Ok ch u false t {| ChannelAccess.channel := c;
        ChannelAccess.member := m'; ChannelAccess.channel_member := channel_members t !! (ch, u) |})
        (conj Hs eq_refl)). congruence. }
    destruct (access_rule_Err _ _ _ _ _ Ea) as [msg [->| ->]]; cbn; intros c m' Hs; by apply Hnone in Hs.
Qed.

(** A higher role never takes a right away.  Two people with the same place
    in a channel, one of them of a higher role: whatever the lower may do about
    posting, moderating, hooks, broadcasts and the workspace's rules, the higher
    may, and needs no explicit membership the lower does not need. *)
Theorem roles_are_monotone (a b : ChannelAccess.t) :
  ChannelAccess.channel b = ChannelAccess.channel a -> ChannelAccess.channel_member b = ChannelAccess.channel_member a ->
  WorkspaceMember.is_bot (ChannelAccess.member b) = WorkspaceMember.is_bot (ChannelAccess.member a) ->
  level (ChannelAccess.role a) <= level (ChannelAccess.role b) ->
  (ChannelAccess.can_moderate a = true -> ChannelAccess.can_moderate b = true) /\
  (ChannelAccess.can_post a = true -> ChannelAccess.can_post b = true) /\
  (forall h, ChannelAccess.can_manage_hook a h = true -> ChannelAccess.can_manage_hook b h = true) /\
  (forall r, ChannelAccess.broadcast_refusal a r = None -> ChannelAccess.broadcast_refusal b r = None) /\
  (forall r, WhoMay.allows r (ChannelAccess.role a) = true -> WhoMay.allows r (ChannelAccess.role b) = true) /\
  (ChannelAccess.requires_explicit_membership b = true -> ChannelAccess.requires_explicit_membership a = true).
Proof.
  intros Ec Em Eb Hl.
  assert (Hat : forall r, has_at_least (ChannelAccess.role a) r = true -> has_at_least (ChannelAccess.role b) r = true).
  { intros r. unfold has_at_least. rewrite !Z.leb_le. lia. }
  assert (Hmod : ChannelAccess.can_moderate a = true -> ChannelAccess.can_moderate b = true).
  { rewrite !can_moderate_true, Em. intros [?|[? ?]]; [left; lia|right; split; [lia|done]]. }
  assert (Hexp : ChannelAccess.requires_explicit_membership b = true -> ChannelAccess.requires_explicit_membership a = true).
  { unfold ChannelAccess.requires_explicit_membership, ChannelAccess.is_guest. rewrite Ec, Eb.
    destruct (ChannelAccess.role a), (ChannelAccess.role b); cbn in *; try lia; done. }
  split_and!; try done.
  - unfold ChannelAccess.can_post, ChannelAccess.post_policy. rewrite Ec. by repeat case_match.
  - intros h. unfold ChannelAccess.can_manage_hook. rewrite Em.
    destruct (ChannelAccess.requires_explicit_membership b); [rewrite (Hexp eq_refl)|];
      repeat (case_match; cbn in *; try done); auto.
  - intros r. unfold ChannelAccess.broadcast_refusal, ChannelAccess.allows_broadcast_mentions,
      ChannelAccess.is_channel_admin. rewrite Ec, Em.
    destruct (negb _); [done|]. destruct r; [done|].
    destruct (has_at_least (ChannelAccess.role a) Admin) eqn:E; [by rewrite (Hat _ E)|]. cbn [orb].
    destruct (match ChannelAccess.channel_member a with Some _ => _ | None => _ end); [|done].
    by rewrite orb_true_r.
  - intros r. destruct r; cbn; apply Hat.
Qed.

Definition access_to_rule (channel : Channel.t) (u : Uuid) (t : AppTables) : option ChannelAccess.t :=
  m ← get_member (Channel.workspace_id channel) u t;
  Some {| ChannelAccess.channel := channel; ChannelAccess.member := m;
          ChannelAccess.channel_member := get_channel_member (Channel.id channel) u t |}.

Lemma access_to_answers channel u :
  answers (same_for u) (access_to channel u) (fun d => Ok (access_to_rule channel u (app d))).
Proof.
  unfold access_to. solve_answers. unfold access_to_rule. by destruct (get_member _ u _).
Qed.

Lemma can_moderate_channel_access channel u w :
  (can_moderate_channel channel u w).1 =
    match (access_to channel u w).1 with Ok (Some a) => ChannelAccess.can_moderate a | _ => false end.
Proof.
  unfold can_moderate_channel, access_to, and_then. rewrite !svc_bind_fst.
  destruct (query (get_member _ u) w) as [[[m|]|e] w']; [|done..]. cbn [fst snd]. rewrite !svc_bind_fst.
  by destruct (query (get_channel_member _ u) w') as [[cm|e] w''].
Qed.

(** Moderation fails closed.  Only somebody the tables make a moderator gets
    through, whichever queries fail; and when nothing fails, every one does. *)
Theorem moderation_fails_closed (channel : Channel.t) (u : Uuid) (w : SvcWorld ApiDb) :
  rely (same_for u) w ->
  let t := app (shared w) in
  let allowed := exists m, get_member (Channel.workspace_id channel) u t = Some m /\ moderates t (Channel.id channel) u m in
  ((require_channel_moderator channel u w).1 = Ok tt -> allowed) /\
  (agenda w = [] -> allowed -> (require_channel_moderator channel u w).1 = Ok tt).
Proof.
  cbv zeta. intros Hw. unfold require_channel_moderator. rewrite svc_bind_fst, can_moderate_channel_access.
  destruct (access_to_answers channel u) as [_ Hm]. destruct (Hm w Hw) as (_ & _ & Hr & Hq).
  split.
  - destruct (access_to channel u w).1 as [[a|]|] eqn:E; [|done..].
    destruct (ChannelAccess.can_moderate a) eqn:Ec; [intros _|done]. apply can_moderate_true in Ec.
    destruct Hr as [Hr|[? [=]]]. unfold access_to_rule in Hr.
    destruct (get_member _ u _) as [m|]; [|done]. cbn in Hr. simplify_eq. eauto.
  - intros Ha (m & Hmem & Hmod). destruct (Hq Ha) as [-> _]. unfold access_to_rule. rewrite Hmem. cbn.
    match goal with |- context [ChannelAccess.can_moderate ?a] =>
      by rewrite (proj2 (can_moderate_true a) Hmod) end.
Qed.

(** Workspace 20 with an owner (1), a member (2), a guest (3) and a bot (4);
    channel 30 is public, 31 an announcement channel, 32 a private one with the
    guest in it. *)
Module SampleTables.
Definition user : User.t :=
  {| User.email := $"a@b.c"; User.display_name := None; User.status := Active; User.is_bot := false; User.timezone := None; User.password_hash := None; User.is_instance_admin := false |}.
Definition channel (id : Uuid) (ty : ChannelType) (settings : json) : Channel.t :=
  {| Channel.id := id; Channel.workspace_id := 20%N; Channel.name := Some ($"c"); Channel.channel_type := ty;
     Channel.created_by := Some 1%N; Channel.is_default := true; Channel.is_archived := false;
     Channel.settings := settings; Channel.created_at := 0 |}.
Definition membership (ch u : Uuid) (r : ChannelRole.t) : ChannelMember.t :=
  {| ChannelMember.channel_id := ch; ChannelMember.user_id := u; ChannelMember.role := r;
     ChannelMember.joined_at := 0; ChannelMember.unread_count := 0; ChannelMember.reading := Reading.fresh |}.
Definition tables : AppTables := {|
  users := <[1%N := user]> (<[2%N := user]> (<[3%N := user]> {[4%N :=
    {| User.email := $"bot"; User.display_name := None; User.status := Active; User.is_bot := true; User.timezone := None; User.password_hash := None; User.is_instance_admin := false |}]}));
  workspaces := {[20%N := {| Workspace.id := 20%N; Workspace.owner_id := 1%N; Workspace.settings := JObject [];
                            Workspace.is_active := true |}]};
  workspace_members := <[(20%N, 1%N) := (Owner, 0)]> (<[(20%N, 2%N) := (Member, 0)]>
    (<[(20%N, 3%N) := (Guest, 0)]> {[(20%N, 4%N) := (Member, 0)]}));
  channels := <[30%N := channel 30%N Public (JObject [])]>
    (<[31%N := channel 31%N Public (JObject [($"post_policy", JString ($"moderators"))])]>
    {[32%N := channel 32%N Private (JObject [])]});
  channel_members := {[(32%N, 3%N) := membership 32%N 3%N ChannelRole.Member]};
  conversation_departures := ∅;
  workspace_invites := ∅; scheduled_messages := ∅; hooks := ∅; workflows := ∅; audit_log := []; list_tables := ListStore.no_lists; later_items := ∅; message_tables := MessageStore.no_messages; poll_tables := PollStore.no_polls; notice_tables := NoticeStore.no_notices; retention_tables := no_retention; auth_tables := AuthStore.no_sign_ins;
|}.
Definition db : ApiDb :=
  {| outbox := ∅; next_row := 1; stream_index := ∅; log := []; out := []; app := tables |}.
Definition world : SvcWorld ApiDb := {| shared := db; agenda := [] |}.
Definition caller (u : Uuid) : AuthUser.t :=
  {| AuthUser.user_id := u; AuthUser.is_instance_admin := false; AuthUser.jti := None; AuthUser.bot := None |}.
Lemma world_rely V : rely V world.
Proof. by apply Forall_nil. Qed.
End SampleTables.

Lemma posting_is_what_the_tables_allow_witness :
  may_post SampleTables.tables 30%N 2%N false /\ ~ may_post SampleTables.tables 31%N 2%N false /\
  ~ may_post SampleTables.tables 30%N 3%N false /\ may_post SampleTables.tables 32%N 3%N false.
Proof.
  pose proof (fun ch u => posting_is_what_the_tables_allow ch (SampleTables.caller u) SampleTables.world
    (SampleTables.world_rely _)) as H. cbv zeta in H.
  split_and!.
  - apply (H 30%N 2%N). vm_compute. eexists. reflexivity.
  - intros Hp. apply (H 31%N 2%N) in Hp as [[a Ha]|[t Ht]]; vm_compute in *; discriminate.
  - intros Hp. apply (H 30%N 3%N) in Hp as [[a Ha]|[t Ht]]; vm_compute in *; discriminate.
  - apply (H 32%N 3%N). vm_compute. eexists. reflexivity.
Defined.

Lemma hooks_stop_on_evidence_witness :
  evidence SampleTables.tables SlashCommand 20%N 2%N 30%N Demoted /\
  evidence SampleTables.tables SlashCommand 20%N 2%N 32%N LostChannel.
Proof.
  split.
  - exact (hooks_stop_on_evidence SlashCommand 20%N 2%N 30%N SampleTables.world (SampleTables.world_rely _)).
  - exact (hooks_stop_on_evidence SlashCommand 20%N 2%N 32%N SampleTables.world (SampleTables.world_rely _)).
Defined.

Lemma roles_are_monotone_witness :
  let a r := {| ChannelAccess.channel := SampleTables.channel 30%N Public (JObject []);
    ChannelAccess.member := {| WorkspaceMember.workspace_id := 20%N; WorkspaceMember.user_id := 2%N;
      WorkspaceMember.role := r; WorkspaceMember.joined_at := 0; WorkspaceMember.is_bot := false |};
    ChannelAccess.channel_member := None |} in
  ChannelAccess.can_manage_hook (a Owner) SlashCommand = true.
Proof.
  intros a. refine (proj1 (proj2 (proj2 (roles_are_monotone (a Admin) (a Owner) eq_refl eq_refl eq_refl _))) SlashCommand _);
    vm_compute; [discriminate|reflexivity].
Defined.

Lemma moderation_fails_closed_witness :
  (require_channel_moderator (SampleTables.channel 30%N Public (JObject [])) 1%N SampleTables.world).1 = Ok tt.
Proof.
  apply (moderation_fails_closed (SampleTables.channel 30%N Public (JObject [])) 1%N SampleTables.world
    (SampleTables.world_rely _)); [reflexivity|].
  eexists. split; [vm_compute; reflexivity|]. left. vm_compute. discriminate.
Defined.
