(* ===== verification/Membership.v ===== *)
(** * Membership of workspaces and channels
    ([backend/api/src/workspace/{service,membership,routes,repo}.rs])

    Invites and how they are redeemed, joining and leaving a workspace and its
    channels, and changes of role.  A transaction is a function of the tables
    that takes effect as a whole; between calls other requests run.  Not
    modelled: the mail of an email invite, the notifications to the admins of a
    workspace whose automation was stopped, and the texts of channels. *)

From stdpp Require Import base tactics option numbers list gmap sorting.
From Stdlib Require Import ZArith Lia String Ascii.
From S2P Require Import Prelude RustStr Json Errors Frames Publisher ApiState Outbox AuditLog LaterStore MessageStore Tables Authz.

(** [InviteLifetime]: how long an invite lasts and how often it can be used. *)
Module CreateInviteRequest.
Record t := { email : option str; role : option WorkspaceRole; expires_in_hours : option Z; max_uses : option Z }.
End CreateInviteRequest.

Module InviteLifetime.
Record t := { max_uses : Z; expires_in_hours : Z }.
Definition MAX_HOURS : Z := 168.
Definition MAX_LINK_USES : Z := 100.

Definition resolve (req : CreateInviteRequest.t) : AppResult t :=
  let hours := default MAX_HOURS (CreateInviteRequest.expires_in_hours req) in
  if negb ((1 <=? hours) && (hours <=? MAX_HOURS)) then
    Err (Validation ($"An invite lasts between 1 and 168 hours"))
  else
    uses ← match CreateInviteRequest.email req with
           | Some _ => Ok (default 1 (CreateInviteRequest.max_uses req))
           | None => ok_or (Validation ($"A link invite must say how many people it is for"))
                       (CreateInviteRequest.max_uses req)
           end;
    if negb ((1 <=? uses) && (uses <=? MAX_LINK_USES)) then
      Err (Validation ($"An invite is good for between 1 and 100 uses"))
    else Ok {| max_uses := uses; expires_in_hours := hours |}.
End InviteLifetime.

Section membership.
Context `{UuidText}.
(** The id Redis gives an entry, the identifiers and tokens drawn, the instant. *)
Context (entry_id : str -> list (str * str * Event) -> str) (draw : ApiDb -> Uuid) (now : Z).
(** How a time is written in JSON. *)
Context (show_time : Z -> str).
(** [ORDER BY name] under the collation of the database. *)
Context (by_name : list Channel.t -> list Channel.t).

(** ** Statements *)

Definition run (f : AppTables -> AppTables) : Tx ApiDb unit := tx_query (fun d => (with_app f d, tt)).
Definition read {A} (q : AppTables -> A) : Tx ApiDb A := tx_read (fun d => q (app d)).

(** [?] on a result, an identifier drawn for a row, and [ok_or], in a
    transaction. *)
Definition tx_of {A} (r : AppResult A) : Tx ApiDb A := fun d => (r, d).
Definition drawn : Tx ApiDb Uuid := fun d => (Ok (draw d), d).
Definition tx_require {A} (e : AppError) (o : option A) : Tx ApiDb A := tx_of (ok_or e o).

Definition foreign_key {A} : Tx ApiDb A := tx_fail (Database ($"violates foreign key constraint")).

(** The row of the person and the workspace have to exist. *)
Definition references_exist (ws u : Uuid) (t : AppTables) : bool :=
  bool_decide (is_Some (users t !! u)) && bool_decide (is_Some (workspaces t !! ws)).

(** [INSERT .. ON CONFLICT DO UPDATE SET role] keeps the time of joining. *)
Definition put_member (ws u : Uuid) (role : WorkspaceRole) : AppTables -> AppTables :=
  set_workspace_members (fun m =>
    <[(ws, u) := (role, match m !! (ws, u) with Some (_, joined) => joined | None => now end)]> m).

Definition add_member_tx (ws u : Uuid) (role : WorkspaceRole) : Tx ApiDb WorkspaceMember.t :=
  ok ← read (references_exist ws u);
  if negb ok then foreign_key
  else
    _ ← run (put_member ws u role);
    member ← read (get_member ws u);
    match member with Some m => mret m | None => foreign_key end.

Definition add_member_if_absent_tx (ws u : Uuid) (role : WorkspaceRole) : Tx ApiDb (option WorkspaceMember.t) :=
  there ← read (fun t => workspace_members t !! (ws, u));
  match there with
  | Some _ => mret None
  | None => m ← add_member_tx ws u role; mret (Some m)
  end.

Definition seat (ch u : Uuid) (role : ChannelRole.t) : ChannelMember.t :=
  {| ChannelMember.channel_id := ch; ChannelMember.user_id := u; ChannelMember.role := role;
     ChannelMember.joined_at := now; ChannelMember.unread_count := 0; ChannelMember.reading := Reading.fresh |}.

(** [ON CONFLICT DO NOTHING] *)
Definition add_channel_member_tx (ch u : Uuid) (role : ChannelRole.t) : Tx ApiDb (option ChannelMember.t) :=
  there ← read (fun t => channel_members t !! (ch, u));
  match there with
  | Some _ => mret None
  | None =>
      ok ← read (fun t => bool_decide (is_Some (users t !! u)) && bool_decide (is_Some (channels t !! ch)));
      if negb ok then foreign_key
      else _ ← run (set_channel_members (<[(ch, u) := seat ch u role]>)); mret (Some (seat ch u role))
  end.

Definition remove_channel_member_in (ch u : Uuid) : Tx ApiDb unit := run (set_channel_members (delete (ch, u))).

Definition list_default_channels_tx (ws : Uuid) : Tx ApiDb (list Channel.t) :=
  read (fun t => by_name (filter (fun c => Channel.workspace_id c = ws /\ Channel.is_archived c = false
                                           /\ Channel.is_default c = true) (map_to_list (channels t)).*2)).

Definition in_workspace (t : AppTables) (ws ch : Uuid) : Prop :=
  Channel.workspace_id <$> channels t !! ch = Some ws.
#[global] Instance in_workspace_dec t ws ch : Decision (in_workspace t ws ch).
Proof. unfold in_workspace. apply _. Defined.

Definition is_conversation (t : AppTables) (ch : Uuid) : Prop :=
  Channel.channel_type <$> channels t !! ch = Some Dm \/ Channel.channel_type <$> channels t !! ch = Some GroupDm.
#[global] Instance is_conversation_dec t ch : Decision (is_conversation t ch).
Proof. unfold is_conversation. apply _. Defined.

(** Taking a claimed use of an invite: the row as it is afterwards. *)
Definition claimable_use (i : WorkspaceInvite.t) : bool :=
  match WorkspaceInvite.max_uses i with None => true | Some max => WorkspaceInvite.use_count i <? max end.
Definition use_once (i : WorkspaceInvite.t) : WorkspaceInvite.t :=
  {| WorkspaceInvite.id := WorkspaceInvite.id i; WorkspaceInvite.workspace_id := WorkspaceInvite.workspace_id i;
     WorkspaceInvite.created_by := WorkspaceInvite.created_by i; WorkspaceInvite.email := WorkspaceInvite.email i;
     WorkspaceInvite.role := WorkspaceInvite.role i; WorkspaceInvite.token := WorkspaceInvite.token i;
     WorkspaceInvite.max_uses := WorkspaceInvite.max_uses i;
     WorkspaceInvite.use_count := WorkspaceInvite.use_count i + 1;
     WorkspaceInvite.expires_at := WorkspaceInvite.expires_at i;
     WorkspaceInvite.created_at := WorkspaceInvite.created_at i |}.

Definition claim_invite_use_tx (id : Uuid) : Tx ApiDb (option WorkspaceInvite.t) :=
  invite ← read (fun t => workspace_invites t !! id);
  match invite with
  | Some i =>
      if claimable_use i then
        _ ← run (set_workspace_invites (<[id := use_once i]>)); mret (Some (use_once i))
      else mret None
  | None => mret None
  end.

(** The seats of a person in the channels of a workspace. *)
Definition seats_in (ws u : Uuid) (t : AppTables) : gmap (Uuid * Uuid) ChannelMember.t :=
  filter (fun p => p.1.2 = u /\ in_workspace t ws p.1.1) (channel_members t).

(** What [conversation_departures] becomes: the seats in conversations are
    written down, and a row that is there already only gets its time. *)
Definition depart (m : ChannelMember.t) : Departure.t :=
  {| Departure.role := ChannelMember.role m; Departure.joined_at := ChannelMember.joined_at m;
     Departure.left_at := now; Departure.reading := ChannelMember.reading m |}.
Definition depart_again (d : Departure.t) : Departure.t :=
  {| Departure.role := Departure.role d; Departure.joined_at := Departure.joined_at d;
     Departure.left_at := now; Departure.reading := Departure.reading d |}.
Definition departures (ws u : Uuid) (t : AppTables) : gmap (Uuid * Uuid) Departure.t :=
  merge (fun there leaving =>
           match there, leaving with
           | Some d, Some _ => Some (depart_again d)
           | None, Some m => Some (depart m)
           | d, None => d
           end)
    (conversation_departures t) (filter (fun p => is_conversation t p.1.1) (seats_in ws u t)).

(** [later_items] and [thread_follows] refer to the membership: [ON DELETE
    CASCADE]. *)
Definition kept_later (ws u : Uuid) : LaterTable -> LaterTable :=
  filter (fun p => (LaterRow.workspace_id p.2, LaterRow.user_id p.2) <> (ws, u)).

Definition kept_follows (ws u : Uuid) : MessageTables -> MessageTables :=
  set_thread_follows (filter (fun p => (ThreadFollow.workspace_id p.2, p.1.1) <> (ws, u))).

(** The channels left; [RETURNING] promises no order. *)
Definition remove_member_in (ws u : Uuid) : Tx ApiDb (list Uuid) :=
  leaving ← read (seats_in ws u);
  _ ← run (fun t => set_conversation_departures (fun _ => departures ws u t) t);
  _ ← run (set_channel_members (fun m => m ∖ leaving));
  _ ← run (set_workspace_members (delete (ws, u)));
  _ ← run (set_later_items (kept_later ws u));
  _ ← run (set_message_tables (kept_follows ws u));
  mret ((map_to_list leaving).*1.*1).

Definition back (ws u : Uuid) (t : AppTables) : gmap (Uuid * Uuid) Departure.t :=
  filter (fun p => p.1.2 = u /\ in_workspace t ws p.1.1) (conversation_departures t).
(** What was said since the person last read is counted again. *)
Definition restore (t : AppTables) (k : Uuid * Uuid) (d : Departure.t) : ChannelMember.t :=
  {| ChannelMember.channel_id := k.1; ChannelMember.user_id := k.2; ChannelMember.role := Departure.role d;
     ChannelMember.joined_at := Departure.joined_at d;
     ChannelMember.unread_count := unread_truth k.1 k.2 (Reading.last_read_at (Departure.reading d)) (message_tables t);
     ChannelMember.reading := Departure.reading d |}.
Definition restored (t : AppTables) (m : gmap (Uuid * Uuid) Departure.t) : gmap (Uuid * Uuid) ChannelMember.t :=
  map_imap (fun k d => Some (restore t k d)) m.

(** The conversations come back; those the person sits in already are left. *)
Definition restore_conversations_in (ws u : Uuid) : Tx ApiDb (list Uuid) :=
  returning ← read (back ws u);
  there ← read channel_members;
  _ ← run (set_conversation_departures (fun m => m ∖ returning));
  back_again ← read (fun t => restored t returning);
  _ ← run (set_channel_members (fun m => m ∪ back_again));
  mret ((map_to_list (filter (fun p => there !! p.1 = None) returning)).*1.*1).

(** ** Staged events *)

Definition stage_in (event_type : string) (ws : Uuid) (payload : json) : Tx ApiDb Staged :=
  tx_query (fun d => insert_row (new_event now (draw d) (lit event_type) payload) ws d).

(** How values are written in a payload. *)
Definition uuid_opt (o : option Uuid) : json := match o with Some u => JString (uuid_to_string u) | None => JNull end.
Definition int_json (z : Z) : json := JNumber (if 0 <=? z then PosInt z else NegInt z).
Definition time_json (z : Z) : json := JString (show_time z).
Definition uuid_field (k : string) (u : Uuid) : str * json := (lit k, JString (uuid_to_string u)).

Definition stage_workspace_member_joined (ws u : Uuid) : Tx ApiDb Staged :=
  stage_in "workspace.member_joined" ws (JObject [uuid_field "workspace_id" ws; uuid_field "user_id" u]).
Definition stage_workspace_member_removed (ws u : Uuid) : Tx ApiDb Staged :=
  stage_in "workspace.member_removed" ws (JObject [uuid_field "workspace_id" ws; uuid_field "user_id" u]).
Definition stage_channel_member_joined (ch ws u : Uuid) : Tx ApiDb Staged :=
  stage_in "channel.member_joined" ws
    (JObject [uuid_field "channel_id" ch; uuid_field "workspace_id" ws; uuid_field "user_id" u]).
Definition stage_channel_member_removed (ch ws u : Uuid) : Tx ApiDb Staged :=
  stage_in "channel.member_removed" ws
    (JObject [uuid_field "channel_id" ch; uuid_field "workspace_id" ws; uuid_field "user_id" u]).

(** ** The service ([service.rs]) *)

(** A loop of the transaction over the events it stages. *)
Fixpoint stage_each {A} (f : A -> Tx ApiDb (option Staged)) (l : list A) : Tx ApiDb (list Staged) :=
  match l with
  | [] => mret []
  | x :: l => s ← f x; rest ← stage_each f l; mret (match s with Some s => s :: rest | None => rest end)
  end.

Definition join_default_channels (ws u : Uuid) : Tx ApiDb (list Staged) :=
  defaults ← list_default_channels_tx ws;
  stage_each (fun ch =>
    added ← add_channel_member_tx (Channel.id ch) u ChannelRole.Member;
    match added with
    | Some _ => s ← stage_channel_member_joined (Channel.id ch) ws u; mret (Some s)
    | None => mret None
    end) defaults.

Definition settle_in (ws u : Uuid) : Tx ApiDb (list Staged) :=
  joined ← stage_workspace_member_joined ws u;
  defaults ← join_default_channels ws u;
  restored ← restore_conversations_in ws u;
  conversations ← stage_each (fun ch => s ← stage_channel_member_joined ch ws u; mret (Some s)) restored;
  mret (joined :: defaults ++ conversations).

Definition join_workspace (ws u : Uuid) (role : WorkspaceRole) : Api (list Staged) :=
  transaction (
    _ ← add_member_if_absent_tx ws u role;
    settle_in ws u).

Definition invalid_invite : AppError := Unauthorized ($"Invalid or expired invite").

(** [eq_ignore_ascii_case] *)
Definition ascii_lower (c : char) : char := if is_ascii_uppercase c then c + 32 else c.
Definition eq_ignore_ascii_case (a b : str) : bool := str_eqb (ascii_lower <$> a) (ascii_lower <$> b).

Definition not_expired (i : WorkspaceInvite.t) : bool :=
  match WorkspaceInvite.expires_at i with Some e => now <=? e | None => false end.

Definition ensure_live (i : WorkspaceInvite.t) (email : str) : AppResult unit :=
  if not_expired i && claimable_use i
     && match WorkspaceInvite.email i with Some invited => eq_ignore_ascii_case invited email | None => false end
  then Ok tt else Err invalid_invite.

Definition find_invite_by_id (id : Uuid) (t : AppTables) : option WorkspaceInvite.t := workspace_invites t !! id.

(** [token] is unique. *)
Definition find_invite_by_token (token : str) (t : AppTables) : option WorkspaceInvite.t :=
  snd <$> head (filter (fun p => WorkspaceInvite.token p.2 = token) (map_to_list (workspace_invites t))).

Definition redeem_email_invite (invite_id u : Uuid) (email : str) : Api (WorkspaceInvite.t * list Staged) :=
  invite ←? query (find_invite_by_id invite_id);
  invite ←? require invalid_invite invite;
  member ←? query (get_member (WorkspaceInvite.workspace_id invite) u);
  match member with
  | Some _ => mret (Ok (invite, []))
  | None =>
      _ ←? mret (ensure_live invite email);
      staged ←? transaction (
        claimed ← claim_invite_use_tx (WorkspaceInvite.id invite);
        match claimed with
        | None => tx_fail invalid_invite
        | Some _ =>
            _ ← add_member_if_absent_tx (WorkspaceInvite.workspace_id invite) u (WorkspaceInvite.role invite);
            settle_in (WorkspaceInvite.workspace_id invite) u
        end);
      mret (Ok (invite, staged))
  end.

(** The transaction of [accept_invite]. *)
Definition accept_tx (invite : WorkspaceInvite.t) (u : Uuid) : Tx ApiDb (WorkspaceMember.t * list Staged) :=
  claimed ← claim_invite_use_tx (WorkspaceInvite.id invite);
  match claimed with
  | None => tx_fail (BadRequest ($"Invite has reached max uses"))
  | Some _ =>
      member ← add_member_tx (WorkspaceInvite.workspace_id invite) u (WorkspaceInvite.role invite);
      staged ← settle_in (WorkspaceInvite.workspace_id invite) u;
      mret (member, staged)
  end.

Definition service_accept_invite (token : str) (u : Uuid) (user_email : str) : Api (WorkspaceMember.t * list Staged) :=
  invite ←? query (find_invite_by_token token);
  invite ←? require (NotFound ($"Invite not found or expired")) invite;
  if negb (not_expired invite) then mret (Err (BadRequest ($"Invite has expired")))
  else if match WorkspaceInvite.email invite with
          | Some invited => negb (eq_ignore_ascii_case invited user_email)
          | None => false
          end
  then refuse ($"This invite was issued to a different address")
  else transaction (accept_tx invite u).

(** A link invite: the row with its drawn [id] and [token]. *)
Definition insert_invite (i : WorkspaceInvite.t) (d : ApiDb) : ApiDb * WorkspaceInvite.t :=
  (with_app (set_workspace_invites (<[WorkspaceInvite.id i := i]>)) d, i).

Definition create_link_invite (ws created_by : Uuid) (role : option WorkspaceRole) (lifetime : InviteLifetime.t)
    (id : Uuid) (token : str) : Api WorkspaceInvite.t :=
  sql (insert_invite
    {| WorkspaceInvite.id := id; WorkspaceInvite.workspace_id := ws; WorkspaceInvite.created_by := created_by;
       WorkspaceInvite.email := None; WorkspaceInvite.role := default Member role; WorkspaceInvite.token := token;
       WorkspaceInvite.max_uses := Some (InviteLifetime.max_uses lifetime); WorkspaceInvite.use_count := 0;
       WorkspaceInvite.expires_at := Some (now + 3600 * SECOND * InviteLifetime.expires_in_hours lifetime);
       WorkspaceInvite.created_at := now |}).

(** ** Leaving ([membership.rs]) *)

Definition svc_ignore {A} (m : Svc ApiDb A) : Svc ApiDb unit := _ ← m; mret tt.
Definition change (f : AppTables -> AppTables) : Svc ApiDb (result svc_fault unit) := svc_write (with_app f).

(** [audit::record] never fails the request. *)
Definition record (e : AuditEntry.t) : Svc ApiDb unit := svc_ignore (change (set_audit_log (fun l => l ++ [(e, now)]))).

Definition cancel : ScheduledMessage.t -> ScheduledMessage.t := ScheduledMessage.set_canceled now.
Definition pending (m : ScheduledMessage.t) : bool :=
  bool_decide (ScheduledMessage.sent_at m = None) && bool_decide (ScheduledMessage.canceled_at m = None).
Definition cancel_pending_for_workspace (ws u : Uuid) : AppTables -> AppTables :=
  set_scheduled_messages (fmap (fun m =>
    if bool_decide (ScheduledMessage.workspace_id m = ws) && bool_decide (ScheduledMessage.user_id m = u) && pending m
    then cancel m else m)).
Definition cancel_pending_for_channel (ch u : Uuid) : AppTables -> AppTables :=
  set_scheduled_messages (fmap (fun m =>
    if bool_decide (ScheduledMessage.channel_id m = ch) && bool_decide (ScheduledMessage.user_id m = u) && pending m
    then cancel m else m)).

Definition disable_hook (reason : str) (h : Hook.t) : Hook.t :=
  {| Hook.workspace_id := Hook.workspace_id h; Hook.name := Hook.name h; Hook.created_by := Hook.created_by h;
     Hook.is_active := false; Hook.disabled_reason := Some reason |}.
Definition disable_hooks_by_creator (ws : option Uuid) (u : Uuid) (reason : str) : AppTables -> AppTables :=
  set_hooks (fmap (fun h =>
    if bool_decide (Hook.created_by h = u) && Hook.is_active h
       && match ws with None => true | Some ws => bool_decide (Hook.workspace_id h = ws) end
    then disable_hook reason h else h)).

Definition disable_workflow (x : Workflow.t) : Workflow.t :=
  {| Workflow.workspace_id := Workflow.workspace_id x; Workflow.name := Workflow.name x;
     Workflow.created_by := Workflow.created_by x; Workflow.enabled := false; Workflow.next_run_at := None |}.
Definition disable_workflows_by_creator (ws : option Uuid) (u : Uuid) : AppTables -> AppTables :=
  set_workflows (fmap (fun x =>
    if bool_decide (Workflow.created_by x = u) && Workflow.enabled x
       && match ws with None => true | Some ws => bool_decide (Workflow.workspace_id x = ws) end
    then disable_workflow x else x)).

Definition stand_down (ws : option Uuid) (u : Uuid) (why : Stopped) : Svc ApiDb unit :=
  _ ← change (disable_hooks_by_creator ws u (reason why));
  svc_ignore (change (disable_workflows_by_creator ws u)).

(** The transaction of [detach]: the rows go, and what went is staged. *)
Definition detach_tx (ws u : Uuid) : Tx ApiDb (list Uuid * list Staged) :=
  dropped ← remove_member_in ws u;
  staged ← stage_each (fun ch => s ← stage_channel_member_removed ch ws u; mret (Some s)) dropped;
  last ← stage_workspace_member_removed ws u;
  mret (dropped, staged ++ [last]).

Definition detach (ws u : Uuid) : Api (list Uuid) :=
  gone ←? transaction (detach_tx ws u);
  _ ← change (cancel_pending_for_workspace ws u);
  _ ← dispatch_all entry_id now gone.2;
  _ ← stand_down (Some ws) u LeftWorkspace;
  mret (Ok gone.1).

(** A rolled back insertion changed nothing. *)
Definition add_to_channel (channel : Channel.t) (u : Uuid) : Api ChannelMember.t :=
  added ←? transaction (
    member ← add_channel_member_tx (Channel.id channel) u ChannelRole.Member;
    match member with
    | None => mret None
    | Some m => s ← stage_channel_member_joined (Channel.id channel) (Channel.workspace_id channel) u; mret (Some (m, s))
    end);
  match added with
  | Some (m, s) => _ ← dispatch entry_id now s; mret (Ok m)
  | None =>
      m ←? query (get_channel_member (Channel.id channel) u);
      require (NotFound ($"Channel member not found")) m
  end.

(** ** The endpoints ([routes.rs]); [ip] is the address of the client *)

Section routes.
Context (ip : option str).

Definition audit_entry (a : AuditAction) (actor ws resource : Uuid) (details : json) : AuditEntry.t :=
  AuditEntry.with_details details (AuditEntry.with_ip ip
    (AuditEntry.resource resource (AuditEntry.workspace ws (AuditEntry.new a actor)))).

Definition role_json (r : WorkspaceRole) : json :=
  JString (match r with Guest => $"guest" | Member => $"member" | Admin => $"admin" | Owner => $"owner" end).
Definition channel_role_json (r : ChannelRole.t) : json :=
  JString (match r with ChannelRole.Member => $"member" | ChannelRole.Admin => $"admin" end).

(** [UPDATE .. RETURNING] of a row that is there, or [RowNotFound]. *)
Definition row_not_found : AppError :=
  Database ($"no rows returned by a query that expected to return at least one row").

Definition set_role (ws u : Uuid) (role : WorkspaceRole) (t : AppTables) : AppTables :=
  set_workspace_members (alter (fun r => (role, r.2)) (ws, u)) t.

Definition repo_update_member_role (ws u : Uuid) (role : WorkspaceRole) : Api WorkspaceMember.t :=
  updated ←? sql (fun d => (with_app (set_role ws u role) d, get_member ws u (set_role ws u role (app d))));
  require row_not_found updated.

Definition update_member_role (auth : AuthUser.t) (ws user_id : Uuid) (role : WorkspaceRole) : Api WorkspaceMember.t :=
  actor ←? require_workspace_role ws (AuthUser.user_id auth) Admin;
  target ←? require_workspace_member ws user_id;
  if negb (outranks (WorkspaceMember.role actor) (WorkspaceMember.role target)) then
    refuse ($"Cannot change the role of a member at or above your own level")
  else if negb (has_at_least (WorkspaceMember.role actor) role) then
    refuse ($"Cannot grant a role above your own level")
  else if bool_decide (WorkspaceMember.role target = Owner) && negb (bool_decide (role = Owner)) then
    refuse ($"The workspace owner cannot be demoted")
  else
    member ←? repo_update_member_role ws user_id role;
    _ ← record (audit_entry WorkspaceRoleChanged (AuthUser.user_id auth) ws user_id
      (JObject [($"from", role_json (WorkspaceMember.role target)); ($"to", role_json role)]));
    mret (Ok member).

Definition remove_member (auth : AuthUser.t) (ws user_id : Uuid) : Api unit :=
  target ←? require_workspace_member ws user_id;
  if bool_decide (WorkspaceMember.role target = Owner) then refuse ($"The workspace owner cannot be removed")
  else
    _ ←? (if bool_decide (AuthUser.user_id auth = user_id) then mret (Ok tt)
          else
            actor ←? require_workspace_role ws (AuthUser.user_id auth) Admin;
            if negb (outranks (WorkspaceMember.role actor) (WorkspaceMember.role target)) then
              refuse ($"Cannot remove a member at or above your own level")
            else mret (Ok tt));
    _ ←? detach ws user_id;
    _ ← record (audit_entry WorkspaceMemberRemoved (AuthUser.user_id auth) ws user_id
      (JObject [($"self_service", JBool (bool_decide (AuthUser.user_id auth = user_id)))]));
    mret (Ok tt).

(** The endpoint for a request without an email address. *)
Definition create_invite (auth : AuthUser.t) (ws : Uuid) (req : CreateInviteRequest.t) (id : Uuid) (token : str)
    : Api WorkspaceInvite.t :=
  _ ←? require_workspace_role ws (AuthUser.user_id auth) Admin;
  lifetime ←? mret (InviteLifetime.resolve req);
  created ←? create_link_invite ws (AuthUser.user_id auth) (CreateInviteRequest.role req) lifetime id token;
  _ ← record (audit_entry InviteCreated (AuthUser.user_id auth) ws (WorkspaceInvite.id created)
    (JObject [($"email", JNull); ($"role", role_json (WorkspaceInvite.role created));
              ($"expires_at", match WorkspaceInvite.expires_at created with Some e => JString (show_time e) | None => JNull end);
              ($"email_status", JNull)]));
  mret (Ok created).

Definition accept_invite (auth : AuthUser.t) (token : str) : Api WorkspaceMember.t :=
  user ←? query (find_by_id (AuthUser.user_id auth));
  user ←? require (NotFound ($"User not found")) user;
  accepted ←? service_accept_invite token (AuthUser.user_id auth) (User.email user);
  _ ← dispatch_all entry_id now accepted.2;
  mret (Ok accepted.1).

Definition revoke_invite (auth : AuthUser.t) (ws invite_id : Uuid) : Api unit :=
  _ ←? require_workspace_role ws (AuthUser.user_id auth) Admin;
  invite ←? query (find_invite_by_id invite_id);
  invite ←? require (NotFound ($"Invite not found")) invite;
  if negb (bool_decide (WorkspaceInvite.workspace_id invite = ws)) then mret (Err (NotFound ($"Invite not found")))
  else
    _ ←? sql (fun d => (with_app (set_workspace_invites (delete invite_id)) d, tt));
    _ ← record (audit_entry InviteRevoked (AuthUser.user_id auth) ws invite_id
      (JObject [($"email", match WorkspaceInvite.email invite with Some e => JString e | None => JNull end)]));
    mret (Ok tt).

Definition route_join_channel (auth : AuthUser.t) (ch : Uuid) : Api ChannelMember.t :=
  channel ←? find_channel ch;
  _ ←? require_workspace_role (Channel.workspace_id channel) (AuthUser.user_id auth) Member;
  if negb (bool_decide (Channel.channel_type channel = Public)) then
    refuse ($"Only public channels can be joined directly")
  else if Channel.is_archived channel then refuse ($"This channel is archived and cannot be joined")
  else add_to_channel channel (AuthUser.user_id auth).

Definition add_channel_member (auth : AuthUser.t) (ch user_id : Uuid) : Api ChannelMember.t :=
  channel ←? find_channel ch;
  _ ←? mret (require_not_archived channel);
  _ ←? require_workspace_role (Channel.workspace_id channel) (AuthUser.user_id auth) Member;
  moderator ← can_moderate_channel channel (AuthUser.user_id auth);
  _ ←? (if negb moderator && negb (bool_decide (Channel.channel_type channel = Public)) then
          seated ←? query (get_channel_member ch (AuthUser.user_id auth));
          seated ←? require (Forbidden ($"Only members of this channel can add people to it")) seated;
          mret (Ok tt)
        else mret (Ok tt));
  _ ←? require_workspace_member (Channel.workspace_id channel) user_id;
  member ←? add_to_channel channel user_id;
  _ ← record (audit_entry ChannelMemberAdded (AuthUser.user_id auth) (Channel.workspace_id channel) ch
    (JObject [uuid_field "user_id" user_id]));
  mret (Ok member).

Definition set_channel_role (ch u : Uuid) (role : ChannelRole.t) : AppTables -> AppTables :=
  set_channel_members (alter (fun m =>
    {| ChannelMember.channel_id := ChannelMember.channel_id m; ChannelMember.user_id := ChannelMember.user_id m;
       ChannelMember.role := role; ChannelMember.joined_at := ChannelMember.joined_at m; ChannelMember.unread_count := ChannelMember.unread_count m;
       ChannelMember.reading := ChannelMember.reading m |}) (ch, u)).

Definition update_channel_member_role (auth : AuthUser.t) (ch user_id : Uuid) (role : ChannelRole.t) : Api ChannelMember.t :=
  channel ←? find_channel ch;
  _ ←? require_channel_moderator channel (AuthUser.user_id auth);
  _ ←? mret (require_not_archived channel);
  target ←? query (get_channel_member ch user_id);
  target ←? require (NotFound ($"Not a member of this channel")) target;
  updated ←? sql (fun d => (with_app (set_channel_role ch user_id role) d,
                            get_channel_member ch user_id (set_channel_role ch user_id role (app d))));
  member ←? require row_not_found updated;
  _ ← record (audit_entry ChannelRoleChanged (AuthUser.user_id auth) (Channel.workspace_id channel) ch
    (JObject [uuid_field "user_id" user_id; ($"from", channel_role_json (ChannelMember.role target));
              ($"to", channel_role_json role)]));
  mret (Ok member).

Definition remove_channel_member (auth : AuthUser.t) (ch user_id : Uuid) : Api unit :=
  channel ←? find_channel ch;
  _ ←? (if bool_decide (AuthUser.user_id auth = user_id) then mret (Ok tt)
        else require_channel_moderator channel (AuthUser.user_id auth));
  _ ←? mret (require_not_archived channel);
  staged ←? transaction (
    _ ← remove_channel_member_in ch user_id;
    stage_channel_member_removed ch (Channel.workspace_id channel) user_id);
  _ ← change (cancel_pending_for_channel ch user_id);
  _ ← dispatch entry_id now staged;
  _ ← record (audit_entry ChannelMemberRemoved (AuthUser.user_id auth) (Channel.workspace_id channel) ch
    (JObject [uuid_field "user_id" user_id; ($"self_service", JBool (bool_decide (AuthUser.user_id auth = user_id)))]));
  mret (Ok tt).
End routes.
End membership.

(** Every invite is bounded.  A request is accepted exactly when it asks for
    between one and a hundred uses and between an hour and a week, an absent
    lifetime counting as a week and an absent number of uses as one use for an
    email invite and as an error for a link. *)
Theorem invite_lifetimes_are_bounded (req : CreateInviteRequest.t) (l : InviteLifetime.t) :
  InviteLifetime.resolve req = Ok l <->
  InviteLifetime.expires_in_hours l = default 168 (CreateInviteRequest.expires_in_hours req) /\
  1 <= InviteLifetime.expires_in_hours l <= 168 /\ 1 <= InviteLifetime.max_uses l <= 100 /\
  Some (InviteLifetime.max_uses l) =
    match CreateInviteRequest.email req with
    | Some _ => Some (default 1 (CreateInviteRequest.max_uses req))
    | None => CreateInviteRequest.max_uses req
    end.
Proof.
  destruct l as [uses hours]. unfold InviteLifetime.resolve, InviteLifetime.MAX_HOURS, InviteLifetime.MAX_LINK_USES.
  cbn [InviteLifetime.expires_in_hours InviteLifetime.max_uses].
  set (h := default 168 _). destruct (negb _) eqn:Eh.
  { split; [done|]. intros (-> & ? & _). apply negb_true_iff, andb_false_iff in Eh as [?%Z.leb_gt|?%Z.leb_gt]; lia. }
  apply negb_false_iff, andb_true_iff in Eh as [?%Z.leb_le ?%Z.leb_le].
  assert (Huses : forall n, (if negb ((1 <=? n) && (n <=? 100)) then Err (Validation ($"An invite is good for between 1 and 100 uses"))
      else Ok {| InviteLifetime.max_uses := n; InviteLifetime.expires_in_hours := h |}) =
      Ok {| InviteLifetime.max_uses := uses; InviteLifetime.expires_in_hours := hours |} <->
      hours = h /\ 1 <= hours <= 168 /\ 1 <= uses <= 100 /\ uses = n).
  { intros n. rewrite guard_Ok, negb_false_iff, andb_true_iff, !Z.leb_le. split.
    - intros [? [= -> ->]]. lia.
    - intros (-> & ? & ? & ->). split; [lia|done]. }
  destruct (CreateInviteRequest.email req); [|destruct (CreateInviteRequest.max_uses req)]; cbn [mbind result_bind ok_or].
  - rewrite Huses. naive_solver.
  - rewrite Huses. naive_solver.
  - split; [done|]. by intros (_ & _ & _ & [=]).
Qed.
