(* ===== verification/ApiLaws.v ===== *)
(** * Reasoning about handlers and transactions

    What the laws of memberships and of lists share: the statements a
    transaction that committed ran, what publishing and reading leave alone,
    and handlers nothing interferes with. *)

From stdpp Require Import base tactics option numbers list gmap sorting.
From Stdlib Require Import ZArith Lia String Ascii.
From S2P Require Import Prelude RustStr Json Errors Frames Publisher MessageStore ApiState Outbox AuditLog Tables Authz Membership.

(** A part of the tables a step leaves as it is. *)
Definition leaves {A} (part : AppTables -> A) : relation ApiDb := fun d d' => part (app d') = part (app d).
#[export] Instance leaves_preorder {A} (part : AppTables -> A) : PreOrder (leaves part).
Proof. split; [done|]. intros d1 d2 d3 H12 H23. unfold leaves in *. congruence. Qed.

(** Publishing does not touch the tables of the application. *)
Section publishing.
Context `{UuidText} (entry_id : str -> list (str * str * Event) -> str) (now : Z).
Context (R : relation ApiDb) `{!PreOrder R} (R_app : forall d d' : ApiDb, app d' = app d -> R d d').

Lemma emit_follows e ws : follows R (emit entry_id e ws : Api Event).
Proof. unfold emit, append_durable. solve_follows; by apply R_app. Qed.
#[local] Hint Resolve emit_follows : follows.

Lemma dispatch_follows s : follows R (dispatch entry_id now s : Svc ApiDb unit).
Proof. unfold dispatch, mark_published. solve_follows; by apply R_app. Qed.
#[local] Hint Resolve dispatch_follows : follows.

Lemma dispatch_all_follows l : follows R (dispatch_all entry_id now l : Svc ApiDb unit).
Proof. unfold dispatch_all. solve_follows. Qed.
End publishing.

Section statements.
Context `{UuidText} (draw : ApiDb -> Uuid) (now : Z) (by_name : list Channel.t -> list Channel.t).
Context {A} (part : AppTables -> A).

Lemma stage_in_leaves ty ws p : tx_follows (leaves part) (stage_in draw now ty ws p).
Proof. unfold stage_in. solve_tx_follows. done. Qed.
#[local] Hint Resolve stage_in_leaves : tx_follows.

Lemma read_leaves {B} (q : AppTables -> B) : tx_follows (leaves part) (read q).
Proof. unfold read. solve_tx_follows. Qed.

Lemma run_leaves f : (forall t, part (f t) = part t) -> tx_follows (leaves part) (run f).
Proof. intros Hf. unfold run. solve_tx_follows. apply Hf. Qed.

Lemma stage_each_leaves {B} (f : B -> Tx ApiDb (option Staged)) l :
  (forall x, tx_follows (leaves part) (f x)) -> tx_follows (leaves part) (stage_each f l).
Proof. intros Hf. induction l as [|x l IH]; cbn; solve_tx_follows; auto. Qed.
End statements.
#[export] Hint Resolve stage_in_leaves read_leaves : tx_follows.
#[export] Hint Extern 2 (tx_follows _ (stage_each _ _)) => apply stage_each_leaves; solve_tx_follows : tx_follows.
#[export] Hint Extern 2 (tx_follows _ (run _)) => apply run_leaves; intros []; reflexivity : tx_follows.

(** Opens a transaction that committed, statement by statement. *)
Lemma read_Ok {B} (q : AppTables -> B) d a d' : read q d = (Ok a, d') <-> a = q (app d) /\ d' = d.
Proof. unfold read, tx_read. naive_solver. Qed.
Lemma run_Ok f d a d' : run f d = (Ok a, d') <-> d' = with_app f d.
Proof. unfold run, tx_query. destruct a. naive_solver. Qed.
Lemma tx_ret_Ok {D B} (b : B) (d : D) a d' : (mret b : Tx D B) d = (Ok a, d') <-> a = b /\ d' = d.
Proof. unfold mret, Tx_ret. naive_solver. Qed.
Lemma tx_fail_Ok {D B} e (d : D) (a : B) d' : tx_fail e d = (Ok a, d') <-> False.
Proof. unfold tx_fail. naive_solver. Qed.

Lemma tx_read_Ok {D B} (q : D -> B) d a d' : tx_read q d = (Ok a, d') <-> a = q d /\ d' = d.
Proof. unfold tx_read. naive_solver. Qed.

Lemma tx_of_Ok {A} (r : AppResult A) (d : ApiDb) a d' : tx_of r d = (Ok a, d') <-> r = Ok a /\ d' = d.
Proof. unfold tx_of. naive_solver. Qed.
Lemma tx_require_Ok {A} e (o : option A) (d : ApiDb) a d' : tx_require e o d = (Ok a, d') <-> o = Some a /\ d' = d.
Proof. unfold tx_require. rewrite tx_of_Ok. destruct o; naive_solver. Qed.
Lemma drawn_Ok (draw : ApiDb -> Uuid) d a d' : drawn draw d = (Ok a, d') <-> a = draw d /\ d' = d.
Proof. unfold drawn. naive_solver. Qed.

Ltac inv_tx :=
  repeat match goal with
  | H : (_ ≫= _) _ = (Ok _, _) |- _ => apply tx_bind_Ok in H as (? & ? & ? & H)
  | H : read _ _ = (Ok _, _) |- _ => apply read_Ok in H as [? ?]; subst
  | H : run _ _ = (Ok _, _) |- _ => apply run_Ok in H; subst
  | H : tx_read _ _ = (Ok _, _) |- _ => apply tx_read_Ok in H as [? ?]; subst
  | H : mret _ _ = (Ok _, _) |- _ => apply tx_ret_Ok in H as [? ?]; subst
  | H : tx_fail _ _ = (Ok _, _) |- _ => apply tx_fail_Ok in H as []
  | H : foreign_key _ = (Ok _, _) |- _ => apply tx_fail_Ok in H as []
  | H : (if ?b then _ else _) _ = (Ok _, _) |- _ => destruct b eqn:?
  end.

(** ** One request alone *)

Lemma and_then_eq {D B C} (m : Svc D (AppResult B)) (f : B -> Svc D (AppResult C)) w :
  (x ←? m; f x) w = match (m w).1 with Ok a => f a (m w).2 | Err e => (Err e, (m w).2) end.
Proof. unfold and_then. rewrite svc_bind_eq. by destruct (m w) as [[]]. Qed.

Lemma query_quiet {B} (q : AppTables -> B) (w : SvcWorld ApiDb) :
  agenda w = [] -> query q w = (Ok (q (app (shared w))), w).
Proof.
  intros Hq. unfold query, sql_read, sql. rewrite svc_bind_eq, svc_call_quiet by done.
  destruct w as [d s]. cbn in *. by subst.
Qed.

Lemma change_quiet f (w : SvcWorld ApiDb) :
  agenda w = [] -> change f w = (Ok tt, {| shared := with_app f (shared w); agenda := [] |}).
Proof. intros Hq. unfold change, svc_write. by rewrite svc_call_quiet. Qed.

Lemma answers_quiet {D B} (V : relation D) (m : Svc D (AppResult B)) q w :
  answers V m q -> agenda w = [] -> m w = (q (shared w), w).
Proof.
  intros [_ Hm] Hq. destruct (Hm w) as (_ & _ & _ & H); [unfold rely; by rewrite Hq|].
  destruct (H Hq) as [H1 H2]. destruct (m w). cbn in *. by subst.
Qed.

(** Reading follows every relation. *)
Section reading.
Context (R : relation ApiDb) `{!PreOrder R}.

Lemma query_follows {B} (q : AppTables -> B) : follows R (query q).
Proof. unfold query. solve_follows; reflexivity. Qed.
#[local] Hint Resolve query_follows : follows.
Lemma require_workspace_member_follows ws u : follows R (require_workspace_member ws u).
Proof. unfold require_workspace_member, require. solve_follows. Qed.
#[local] Hint Resolve require_workspace_member_follows : follows.
Lemma require_workspace_role_follows ws u r : follows R (require_workspace_role ws u r).
Proof. unfold require_workspace_role, refuse. solve_follows. Qed.
Lemma find_channel_follows ch : follows R (find_channel ch).
Proof. unfold find_channel, require. solve_follows. Qed.
#[local] Hint Resolve find_channel_follows : follows.
Lemma require_channel_access_follows ch u : follows R (require_channel_access ch u).
Proof. unfold require_channel_access, channel_access, refuse. solve_follows. Qed.
#[local] Hint Resolve require_channel_access_follows : follows.
Lemma require_channel_post_follows ch u : follows R (require_channel_post ch u).
Proof. unfold require_channel_post, require_posting, refuse. solve_follows. Qed.
Lemma require_channel_moderator_follows channel u : follows R (require_channel_moderator channel u).
Proof. unfold require_channel_moderator, can_moderate_channel, refuse. solve_follows. Qed.

(** [?] on what was computed. *)
Lemma then_pure_follows {B C} (r : AppResult B) (f : B -> Api C) :
  (forall b, r = Ok b -> follows R (f b)) -> follows R (x ←? mret r; f x).
Proof.
  intros Hf w Hw. destruct r as [b|e]; [exact (Hf b eq_refl w Hw)|]. split; [reflexivity|exact Hw].
Qed.

(** What is asked of a transaction that committed. *)
Lemma transaction_Ok_follows {B} (m : Tx ApiDb B) :
  (forall d a d', m d = (Ok a, d') -> R d d') -> follows R (transaction m).
Proof.
  intros Hm. unfold transaction. apply follows_bind; [done| |intros r; by apply follows_ret].
  apply follows_call; [done|]. intros d. destruct (m d) as [[a|e] d'] eqn:E; [by eapply Hm|reflexivity].
Qed.

Lemma triple_query {B} (P : ApiDb -> Prop) (q : AppTables -> B) :
  stable R P ->
  triple R P (query q) (fun r d => match r with Ok a => P d | Err _ => P d end).
Proof.
  intros Hst. unfold query, sql_read, sql.
  eapply (triple_bind R _ _ _ (fun _ d => P d)).
  - apply (triple_call R); auto; [intros d _; reflexivity].
  - intros [a|f]; apply (triple_ret R); done.
Qed.

(** [?], when what is wanted of the whole is known of a failure. *)
Lemma triple_try {B E} (P : ApiDb -> Prop) (m : Api B) (f : B -> Api E) Q S :
  triple R P m (fun r d => match r with Ok a => Q a d | Err e => S (Err e) d end) ->
  (forall a, triple R (Q a) (f a) S) -> triple R P (x ←? m; f x) S.
Proof.
  intros Hm Hf. unfold and_then. eapply (triple_bind R); [exact Hm|].
  intros [a|e]; [apply Hf|]. by apply (triple_ret R).
Qed.
End reading.
#[export] Hint Resolve query_follows require_workspace_member_follows require_workspace_role_follows find_channel_follows
  require_channel_access_follows require_channel_post_follows require_channel_moderator_follows : follows.
