(* ===== verification/Mail.v ===== *)
(** * Outgoing mail ([backend/api/src/email/outbox.rs])

    A mail is written to a table with whatever caused it, and a worker claims
    what is due, hands it to the mail server and records the outcome.  Several
    workers run at once and any of their calls may fail. *)

From stdpp Require Import base tactics option numbers list gmap sorting.
From Stdlib Require Import ZArith Lia String Ascii.
From S2P Require Import Prelude RustStr Json Errors NoticeStore ApiState Outbox AuditLog Tables Authz Membership ApiLaws.

Definition MAX_ATTEMPTS : Z := 8.
Definition MAIL_BATCH : Z := 20.
Definition MINUTE : Z := 60 * SECOND.
Definition LEASE : Z := 2 * MINUTE.

(** An [i32]: [saturating_sub], [clamp], and a power that fits 64 bits. *)
Definition backoff (attempts : Z) : Z :=
  let minutes := 4 ^ Z.max 0 (Z.min 4 (Z.max I32_MIN (attempts - 1))) in
  Z.min minutes 240 * MINUTE.

Module NewEmail.
Record t := { to_ : str; subject : str; text : str; html : option str }.
End NewEmail.

Abbreviation Emails d := (outbound_emails (notice_tables (app d))).
Definition set_emails (f : gmap Uuid OutboundEmail.t -> gmap Uuid OutboundEmail.t) (d : ApiDb) : ApiDb :=
  with_app (set_notice_tables (set_outbound_emails f)) d.

Section mail.
Context (draw : ApiDb -> Uuid) (now : Z).
(** The order in which an [UPDATE .. RETURNING] answers, which rows other
    transactions hold, and what the mail server says of a mail. *)
Context (returning : list (Uuid * OutboundEmail.t) -> list (Uuid * OutboundEmail.t)) (locked : gset Uuid).
Context (answer : OutboundEmail.t -> result str unit).
Implicit Types (d : ApiDb) (e : OutboundEmail.t) (id : Uuid).

Definition new_email (n : NewEmail.t) : OutboundEmail.t :=
  {| OutboundEmail.to_address := NewEmail.to_ n; OutboundEmail.subject := NewEmail.subject n;
     OutboundEmail.text_body := NewEmail.text n; OutboundEmail.html_body := NewEmail.html n; OutboundEmail.attempts := 0;
     OutboundEmail.next_attempt_at := Some now; OutboundEmail.sent_at := None; OutboundEmail.last_error := None;
     OutboundEmail.created_at := now |}.
(** The insert, in a transaction of the caller. *)
Definition enqueue_email (n : NewEmail.t) : Tx ApiDb Uuid :=
  id ← drawn draw;
  taken ← tx_read (fun d => bool_decide (is_Some (Emails d !! id)));
  if taken : bool then tx_fail (Database ($"duplicate key value violates unique constraint"))
  else _ ← tx_query (fun d => (set_emails (<[id := new_email n]>) d, tt)); mret id.

(** [sent_at IS NULL AND next_attempt_at <= NOW()] *)
Definition email_due e : bool :=
  bool_decide (OutboundEmail.sent_at e = None) && match OutboundEmail.next_attempt_at e with Some at_ => at_ <=? now | None => false end.
(** [ORDER BY next_attempt_at] *)
Definition next_le (a b : Uuid * OutboundEmail.t) : Prop :=
  default 0 (OutboundEmail.next_attempt_at a.2) <= default 0 (OutboundEmail.next_attempt_at b.2).
#[global] Instance next_le_dec a b : Decision (next_le a b).
Proof. unfold next_le. apply _. Defined.
Definition due_emails d : list (Uuid * OutboundEmail.t) :=
  take (Z.to_nat MAIL_BATCH) (merge_sort next_le (filter (fun p => email_due p.2 = true /\ p.1 ∉ locked) (map_to_list (Emails d)))).
(** The rows as they are after the update. *)
Definition claim_emails d : ApiDb * list (Uuid * OutboundEmail.t) :=
  let rows := (fun p => (p.1, OutboundEmail.set_claimed (now + LEASE) p.2)) <$> due_emails d in
  (set_emails (fun m => list_to_map rows ∪ m) d, returning rows).

Definition mark_email_sent id : Svc ApiDb (result svc_fault unit) := svc_write (set_emails (alter (OutboundEmail.set_sent now) id)).
Definition mark_email_failed id (attempts : Z) (error : str) : Svc ApiDb (result svc_fault unit) :=
  let next := if attempts <? MAX_ATTEMPTS then Some (now + backoff attempts) else None in
  svc_write (set_emails (alter (OutboundEmail.set_failed next error) id)).

(** The mail server: a reply that is lost is an error of a mail it took. *)
Definition deliver_email e : Svc ApiDb (result str unit) :=
  r ← svc_call (fun d => match answer e with
    | Ok _ => (with_app (set_notice_tables (set_mailed (fun l => l ++ [(OutboundEmail.to_address e, OutboundEmail.subject e)]))) d, Ok tt)
    | Err error => (d, Err error)
    end);
  mret (match r with Ok r => r | Err f => Err (fault_text f) end).

(** How many were sent. *)
Definition flush_email (p : Uuid * OutboundEmail.t) : Svc ApiDb nat :=
  delivered ← deliver_email p.2;
  match delivered with
  | Ok _ => _ ← mark_email_sent p.1; mret 1%nat
  | Err error => _ ← mark_email_failed p.1 (OutboundEmail.attempts p.2) error; mret 0%nat
  end.
Fixpoint flush_emails (due : list (Uuid * OutboundEmail.t)) : Svc ApiDb nat :=
  match due with
  | [] => mret O
  | p :: due => sent ← flush_email p; more ← flush_emails due; mret (sent + more)%nat
  end.
Definition flush_due_emails : Svc ApiDb nat :=
  due ← svc_call claim_emails;
  match due with
  | Ok due => flush_emails due
  | Err _ => mret O
  end.
End mail.

(** ** What a mail goes through *)

Abbreviation Mailed d := (mailed (notice_tables (app d))).

Section laws.
Implicit Types (d : ApiDb) (e : OutboundEmail.t) (id : Uuid) (w : SvcWorld ApiDb).

Lemma emails_set f d : Emails (set_emails f d) = f (Emails d).
Proof. unfold set_emails. cbn. destruct (app d) as [? ? ? ? ? ? ? ? ? ? ? ? ? ? ? [] ? ?]. done. Qed.
Lemma mailed_set f d : Mailed (set_emails f d) = Mailed d.
Proof. unfold set_emails. cbn. destruct (app d) as [? ? ? ? ? ? ? ? ? ? ? ? ? ? ? [] ? ?]. done. Qed.
Lemma emails_mailed f d : Emails (with_app (set_notice_tables (set_mailed f)) d) = Emails d.
Proof. cbn. destruct (app d) as [? ? ? ? ? ? ? ? ? ? ? ? ? ? ? [] ? ?]. done. Qed.
Lemma mailed_mailed f d : Mailed (with_app (set_notice_tables (set_mailed f)) d) = f (Mailed d).
Proof. cbn. destruct (app d) as [? ? ? ? ? ? ? ? ? ? ? ? ? ? ? [] ? ?]. done. Qed.
Hint Rewrite emails_set mailed_set emails_mailed mailed_mailed : mail.

Lemma due_rows now locked d id e : (id, e) ∈ due_emails now locked d -> Emails d !! id = Some e /\ email_due now e = true.
Proof.
  unfold due_emails. intros Hp%elem_of_take. destruct Hp as (i & Hp%list_elem_of_lookup_2 & _).
  rewrite merge_sort_Permutation, list_elem_of_filter, elem_of_map_to_list in Hp. cbn in Hp. tauto.
Qed.
Lemma claimed_rows now locked d id e :
  (list_to_map ((fun p => (p.1, OutboundEmail.set_claimed (now + LEASE) p.2)) <$> due_emails now locked d) ∪ Emails d) !! id = Some e ->
  Emails d !! id = Some e \/
  exists e0, Emails d !! id = Some e0 /\ (id, e0) ∈ due_emails now locked d /\ e = OutboundEmail.set_claimed (now + LEASE) e0.
Proof.
  rewrite lookup_union_Some_raw. intros [He|[_ He]]; [right|by left].
  apply elem_of_list_to_map_2, list_elem_of_fmap in He as ([id' e0] & He & Hin). injection He as -> ->. exists e0.
  split_and!; [by eapply due_rows in Hin as []|done..].
Qed.
Lemma claim_keeps_rows now locked d id e : Emails d !! id = Some e ->
  exists e', (list_to_map ((fun p => (p.1, OutboundEmail.set_claimed (now + LEASE) p.2)) <$> due_emails now locked d) ∪ Emails d) !! id = Some e'.
Proof. intros He. match goal with |- exists e', ?o = _ => destruct o eqn:E end; [by eexists|]. apply lookup_union_None in E as [_ E]. congruence. Qed.

(** A row keeps what it says; once sent it stays so and is tried no more. *)
Definition same_mail e e' : Prop :=
  OutboundEmail.to_address e' = OutboundEmail.to_address e /\ OutboundEmail.subject e' = OutboundEmail.subject e /\
  OutboundEmail.text_body e' = OutboundEmail.text_body e /\
  (is_Some (OutboundEmail.sent_at e) -> is_Some (OutboundEmail.sent_at e') /\ OutboundEmail.attempts e' = OutboundEmail.attempts e).
Definition address e : str * str := (OutboundEmail.to_address e, OutboundEmail.subject e).
Definition taken d : Prop := forall id e, Emails d !! id = Some e -> is_Some (OutboundEmail.sent_at e) -> address e ∈ Mailed d.
Definition mail_kept d d' : Prop :=
  (taken d -> taken d') /\ Mailed d ⊆ Mailed d' /\
  forall id e, Emails d !! id = Some e -> exists e', Emails d' !! id = Some e' /\ same_mail e e'.

#[export] Instance mail_kept_preorder : PreOrder mail_kept.
Proof.
  split.
  - intros d. split_and!; [done..|]. intros id e He. exists e. by split_and!.
  - intros d1 d2 d3 (H1 & H2 & H3) (H4 & H5 & H6). split_and!; [by auto|by etransitivity|].
    intros id e He. destruct (H3 _ _ He) as (e2 & He2 & E1 & E2 & E3 & E4). destruct (H6 _ _ He2) as (e3 & He3 & F1 & F2 & F3 & F4).
    exists e3. split; [done|]. split_and!; [congruence..|]. intros Hs. destruct (E4 Hs) as [Hs2 ->%eq_sym]. by apply F4.
Qed.

Lemma mail_kept_claim now returning locked d : mail_kept d (claim_emails now returning locked d).1.
Proof.
  unfold claim_emails. cbn [fst]. unfold mail_kept, taken. autorewrite with mail. split_and!; [|done|].
  - intros Ht id e [He|(e0 & He & Hd & ->)]%claimed_rows Hs; [by eapply Ht|]. by apply (Ht id e0 He).
  - intros id e He. destruct (claim_keeps_rows now locked d id e He) as [e' He']. exists e'. split; [done|].
    apply claimed_rows in He' as [He'|(e0 & He' & Hd & ->)]; simplify_eq; [by split_and!|].
    split_and!; [done..|]. intros Hs. apply due_rows in Hd as [_ Hd]. unfold email_due in Hd. bool_hyps. 
    destruct Hs. congruence.
Qed.

(** Recording an outcome; a mail said to be sent was taken. *)
Lemma mail_kept_alter f id d :
  (forall e, Emails d !! id = Some e -> same_mail e (f e) /\ (is_Some (OutboundEmail.sent_at (f e)) ->
     is_Some (OutboundEmail.sent_at e) \/ address e ∈ Mailed d)) ->
  mail_kept d (set_emails (alter f id) d).
Proof.
  intros Hf. unfold mail_kept, taken. autorewrite with mail. split_and!; [|done|].
  - intros Ht id' e' He' Hs. apply lookup_alter_Some in He' as [(<- & e & He & ->)|[_ He]]; [|by eapply Ht].
    destruct (Hf e He) as [(E1 & E2 & _) Hs']. unfold address. rewrite E1, E2. destruct (Hs' Hs) as [Hs0|Hin]; [by apply (Ht id e)|done].
  - intros id' e He. destruct (decide (id = id')) as [<-|Hne].
    + exists (f e). rewrite lookup_alter_eq, He. split; [done|]. by apply Hf.
    + exists e. rewrite lookup_alter_ne by done. split; [done|]. by split_and!.
Qed.

(** *** Passes that interleave *)

Definition held (p : Uuid * OutboundEmail.t) d : Prop := exists e, Emails d !! p.1 = Some e /\ address e = address p.2.
Lemma held_kept p d d' : mail_kept d d' -> held p d -> held p d'.
Proof.
  intros (_ & _ & Hk) (e & He & Ha). destruct (Hk _ _ He) as (e' & He' & E1 & E2 & _). exists e'. split; [done|].
  unfold address in *. congruence.
Qed.
Lemma all_held_kept l d d' : mail_kept d d' -> taken d /\ Forall (fun p => held p d) l -> taken d' /\ Forall (fun p => held p d') l.
Proof. intros Hk [Ht Hl]. split; [by apply Hk|]. eapply Forall_impl; [exact Hl|]. intros p. by apply held_kept. Qed.
Lemma stable_held l : stable mail_kept (fun d => taken d /\ Forall (fun p => held p d) l).
Proof. intros d d'. apply all_held_kept. Qed.

Lemma kept_delivered a d : mail_kept d (with_app (set_notice_tables (set_mailed (fun l => l ++ [a]))) d).
Proof.
  unfold mail_kept, taken. autorewrite with mail. split_and!.
  - intros Ht id e He Hs. apply elem_of_app. left. by eapply Ht.
  - intros x Hx. apply elem_of_app. by left.
  - intros id e He. exists e. by split_and!.
Qed.
Lemma kept_failed id next error d : mail_kept d (set_emails (alter (OutboundEmail.set_failed next error) id) d).
Proof. apply mail_kept_alter. intros e He. split; [by split_and!|]. intros Hs. by left. Qed.
Lemma kept_sent now p d : held p d -> address p.2 ∈ Mailed d -> mail_kept d (set_emails (alter (OutboundEmail.set_sent now) p.1) d).
Proof.
  intros (e & He & Ha) Hm. apply mail_kept_alter. intros e' He'. rewrite He in He'. injection He' as <-. rewrite Ha. split; [|by right].
  split_and!; [done..|]. intros Hs. split; [by eexists|done].
Qed.

(** What is known of [l] whose mail may have been taken. *)
Definition pending_in (l : list (Uuid * OutboundEmail.t)) (a : list (str * str)) d : Prop :=
  (taken d /\ Forall (fun p => held p d) l) /\ a ⊆ Mailed d.
Lemma stable_pending l a : stable mail_kept (pending_in l a).
Proof. intros d d' Hk [H1 H2]. split; [by eapply all_held_kept|]. etransitivity; [exact H2|]. apply Hk. Qed.

Lemma deliver_email_triple answer p l : p ∈ l ->
  triple mail_kept (pending_in l []) (deliver_email answer p.2)
    (fun r => pending_in l (match r with Ok _ => [address p.2] | Err _ => [] end)).
Proof.
  intros Hp. unfold deliver_email.
  eapply (triple_bind mail_kept _ _ _ (fun r => pending_in l (match r with Ok (Ok _) => [address p.2] | _ => [] end))).
  - apply (triple_call mail_kept); [apply stable_pending|..].
    + intros d _. destruct (answer p.2) as [[]|]; [apply kept_delivered|reflexivity].
    + intros d [Hd _]. destruct (answer p.2) as [[]|]; cbn [fst snd]; [|split; [done|set_solver]].
      split; [eapply all_held_kept; [apply kept_delivered|done]|]. autorewrite with mail. set_solver.
    + intros d f Hd. split; [done|]. destruct (answer p.2) as [[]|]; [|done]. by apply (stable_pending _ _ d _ (kept_delivered _ _)).
  - intros [[[]|]|f]; by apply (triple_ret mail_kept).
Qed.
Lemma svc_write_triple (P : ApiDb -> Prop) (op : ApiDb -> ApiDb) : stable mail_kept P -> (forall d, P d -> mail_kept d (op d)) ->
  triple mail_kept P (svc_write op) (fun _ d => P d).
Proof.
  intros HS Hop. unfold svc_write. apply (triple_call mail_kept); cbn; [done|exact Hop|..].
  - intros d HP. eapply HS; [by apply Hop|done].
  - intros d f HP. split; [done|]. eapply HS; [by apply Hop|done].
Qed.
Lemma flush_email_triple now answer p l : p ∈ l ->
  triple mail_kept (pending_in l []) (flush_email now answer p) (fun _ => pending_in l []).
Proof.
  intros Hp. unfold flush_email. eapply (triple_bind mail_kept); [by apply deliver_email_triple|]. intros [[]|error].
  - eapply (triple_bind mail_kept _ _ _ (fun _ => pending_in l [address p.2])).
    + apply svc_write_triple; [apply stable_pending|]. intros d [[Ht Hl] Ha]. rewrite Forall_forall in Hl. apply kept_sent; [by apply Hl|set_solver].
    + intros _. apply (triple_ret mail_kept). intros d [Hd _]. split; [done|set_solver].
  - eapply (triple_bind mail_kept _ _ _ (fun _ => pending_in l [])); [|intros _; by apply (triple_ret mail_kept)].
    apply svc_write_triple; [apply stable_pending|]. intros d _. apply kept_failed.
Qed.
Lemma flush_emails_triple now answer l l' : l ⊆ l' ->
  triple mail_kept (pending_in l' []) (flush_emails now answer l) (fun _ => pending_in l' []).
Proof.
  induction l as [|p l IH]; intros Hl; cbn [flush_emails]; [by apply (triple_ret mail_kept)|].
  eapply (triple_bind mail_kept); [apply flush_email_triple; set_solver|]. intros n.
  eapply (triple_bind mail_kept); [apply IH; set_solver|]. intros m. by apply (triple_ret mail_kept).
Qed.

Context (now : Z) (returning : list (Uuid * OutboundEmail.t) -> list (Uuid * OutboundEmail.t)) (locked : gset Uuid).
Context (answer : OutboundEmail.t -> result str unit).

Lemma claim_holds d : (forall l, Permutation (returning l) l) -> taken d ->
  pending_in (claim_emails now returning locked d).2 [] (claim_emails now returning locked d).1.
Proof.
  intros Hr Ht. split; [|set_solver]. split; [by apply (mail_kept_claim now returning locked d)|]. apply Forall_forall.
  intros p Hp. cbn [claim_emails snd] in Hp. rewrite (Hr _) in Hp. apply list_elem_of_fmap in Hp as ([id e] & -> & Hd).
  apply due_rows in Hd as [He _]. eapply held_kept; [apply mail_kept_claim|]. by exists e.
Qed.

(** Whatever other workers do meanwhile, and whichever of its calls fail, a
    pass of the mail worker leaves no mail marked as sent that the mail server
    did not take; a mail that was sent stays so, with the text it had, and no
    pass tries it again. *)
Theorem sent_mail_was_taken w : (forall l, Permutation (returning l) l) -> rely mail_kept w -> taken (shared w) ->
  let w' := (flush_due_emails now returning locked answer w).2 in
  taken (shared w') /\
  forall id e, Emails (shared w) !! id = Some e -> is_Some (OutboundEmail.sent_at e) ->
    address e ∈ Mailed (shared w') /\
    exists e', Emails (shared w') !! id = Some e' /\ is_Some (OutboundEmail.sent_at e') /\
      OutboundEmail.attempts e' = OutboundEmail.attempts e /\ OutboundEmail.text_body e' = OutboundEmail.text_body e.
Proof.
  intros Hr Hw Ht w'. assert (HT : triple mail_kept taken (flush_due_emails now returning locked answer) (fun _ => taken)).
  { unfold flush_due_emails.
    eapply (triple_bind mail_kept _ _ _ (fun r d => match r with Ok l => pending_in l [] d | Err _ => taken d end)).
    - apply (triple_call mail_kept); [by intros d d' Hk; apply Hk|..].
      + intros d _. apply mail_kept_claim.
      + intros d Hd. by apply claim_holds.
      + intros d f Hd. split; [done|]. by apply (mail_kept_claim now returning locked d).
    - intros [l|f]; [|by apply (triple_ret mail_kept)].
      eapply triple_post; [|by apply (flush_emails_triple now answer l l)]. by intros n d [[H _] _]. }
  destruct (HT w Hw Ht) as ((_ & Hm & Hk) & _ & Ht'). split; [done|]. intros id e He Hs.
  destruct (Hk id e He) as (e' & He' & E1 & E2 & E3 & E4). destruct (E4 Hs) as [Hs' Ha].
  split; [apply Hm; by eapply Ht|]. by exists e'.
Qed.

(** *** Passes one after another *)

Definition undisturbed d : SvcWorld ApiDb := {| shared := d; agenda := [] |}.
(** At most eight attempts, the last of them settled. *)
Definition within e : Prop :=
  0 <= OutboundEmail.attempts e <= MAX_ATTEMPTS /\
  (OutboundEmail.attempts e = MAX_ATTEMPTS ->
   is_Some (OutboundEmail.sent_at e) \/ (OutboundEmail.next_attempt_at e = None /\ is_Some (OutboundEmail.last_error e))).
Definition all_within (P : Uuid -> Prop) d : Prop := forall id e, Emails d !! id = Some e -> P id -> within e.

Definition settled (now_ : Z) (answer_ : OutboundEmail.t -> result str unit) e : OutboundEmail.t -> OutboundEmail.t :=
  match answer_ e with
  | Ok _ => OutboundEmail.set_sent now_
  | Err error => OutboundEmail.set_failed (if OutboundEmail.attempts e <? MAX_ATTEMPTS then Some (now_ + backoff (OutboundEmail.attempts e)) else None) error
  end.
Lemma settled_within now_ answer_ e : 0 <= OutboundEmail.attempts e <= MAX_ATTEMPTS -> within (settled now_ answer_ e e).
Proof.
  intros Ha. unfold settled, within. destruct (answer_ e); cbn; [split; [done|by left]|]. split; [done|]. intros ->. right. by split.
Qed.
Lemma flush_email_quiet now_ answer_ p d : exists d',
  (flush_email now_ answer_ p (undisturbed d)).2 = undisturbed d' /\ Emails d' = alter (settled now_ answer_ p.2) p.1 (Emails d).
Proof.
  unfold flush_email, deliver_email, settled. rewrite !svc_bind_eq, svc_call_quiet by done.
  destruct (answer_ p.2) as [[]|error]; cbn -[mark_email_sent mark_email_failed]; rewrite !svc_bind_eq;
    unfold mark_email_sent, mark_email_failed, svc_write; rewrite svc_call_quiet by done; cbn -[set_emails]; eexists; (split; [done|]);
    by autorewrite with mail.
Qed.
Lemma flush_emails_quiet now_ answer_ l d : NoDup l.*1 ->
  (forall p, p ∈ l -> Emails d !! p.1 = Some p.2 /\ 0 <= OutboundEmail.attempts p.2 <= MAX_ATTEMPTS) -> all_within (fun id => id ∉ l.*1) d ->
  exists d', (flush_emails now_ answer_ l (undisturbed d)).2 = undisturbed d' /\ all_within (fun _ => True) d'.
Proof.
  revert d. induction l as [|p l IH]; intros d Hnd Hl Hw; cbn [flush_emails].
  - exists d. split; [done|]. intros id e He _. eapply Hw; [done|]. apply not_elem_of_nil.
  - rewrite svc_bind_eq. destruct (flush_email_quiet now_ answer_ p d) as (d1 & -> & E1). apply NoDup_cons in Hnd as [Hp Hnd].
    destruct (Hl p) as [Hrow Ha]; [by left|]. destruct (IH d1 Hnd) as (d' & E & Hw').
    + intros q Hq. rewrite E1, lookup_alter_ne; [by apply Hl; right|]. intros Heq. apply Hp. rewrite Heq. by apply list_elem_of_fmap_2.
    + intros id e. rewrite E1. destruct (decide (p.1 = id)) as [<-|Hne].
      * rewrite lookup_alter_eq, Hrow. intros He _. injection He as <-. by apply settled_within.
      * rewrite lookup_alter_ne by done. intros He Hid. eapply Hw; [done|]. by intros [?|?]%elem_of_cons.
    + exists d'. by rewrite svc_bind_eq, E.
Qed.

Lemma due_emails_NoDup now_ locked_ d : NoDup (due_emails now_ locked_ d).*1.
Proof.
  unfold due_emails. rewrite fmap_take. eapply sublist_NoDup; [|apply sublist_take]. rewrite merge_sort_Permutation.
  eapply sublist_NoDup; [apply (NoDup_fst_map_to_list (Emails d))|]. apply fmap_sublist, sublist_filter.
Qed.
Definition pass (returning_ : list (Uuid * OutboundEmail.t) -> list (Uuid * OutboundEmail.t)) d
    (p : Z * gset Uuid * (OutboundEmail.t -> result str unit)) : ApiDb :=
  shared (flush_due_emails p.1.1 returning_ p.1.2 p.2 (undisturbed d)).2.
Lemma pass_within d p : (forall l, Permutation (returning l) l) -> all_within (fun _ => True) d -> all_within (fun _ => True) (pass returning d p).
Proof.
  destruct p as [[now_ locked_] answer_]. intros Hr Hw. unfold pass, flush_due_emails. cbn [fst snd].
  rewrite svc_bind_eq, svc_call_quiet by done. cbn [fst snd shared undisturbed].
  set (rows := (fun p => (p.1, OutboundEmail.set_claimed (now_ + LEASE) p.2)) <$> due_emails now_ locked_ d).
  assert (Hids : rows.*1 = (due_emails now_ locked_ d).*1) by (unfold rows; by rewrite <-list_fmap_compose).
  destruct (flush_emails_quiet now_ answer_ (returning rows) (claim_emails now_ returning locked_ d).1) as (d' & E & Hd').
  - rewrite Hr, Hids. apply due_emails_NoDup.
  - intros p Hp. rewrite Hr in Hp. cbn [claim_emails fst]. rewrite emails_set. split.
    + apply lookup_union_Some_l, (elem_of_list_to_map_1 rows); [rewrite Hids; apply due_emails_NoDup|]. by destruct p.
    + apply list_elem_of_fmap in Hp as ([id e] & -> & He). apply due_rows in He as [He Hdue]. destruct (Hw _ _ He I) as [Ha Hm]. cbn.
      unfold email_due in Hdue. bool_hyps. destruct (decide (OutboundEmail.attempts e = MAX_ATTEMPTS)) as [E8|]; [|unfold MAX_ATTEMPTS in *; lia].
      destruct (Hm E8) as [[? ?]|[Hn _]]; [congruence|]. by rewrite Hn in *.
  - intros id e. cbn [claim_emails fst]. rewrite emails_set, Hr, Hids. intros [He|(e0 & He & Hd & ->)]%claimed_rows Hn; [by eapply Hw|].
    destruct Hn. apply list_elem_of_fmap. by exists (id, e0).
  - unfold rows in E. unfold claim_emails. cbn [fst snd]. unfold claim_emails in E. cbn [fst snd] in E. unfold undisturbed in *. by rewrite E.
Qed.

(** Passes of the worker that run one after another, at whatever times and
    whatever the mail server answers, try no mail more than eight times; one
    that was tried eight times was sent, or is parked with the error and no
    time of a next attempt. *)
Theorem a_mail_is_tried_eight_times d ps : (forall l, Permutation (returning l) l) -> all_within (fun _ => True) d ->
  forall id e, Emails (foldl (pass returning) d ps) !! id = Some e ->
    OutboundEmail.attempts e <= MAX_ATTEMPTS /\
    (OutboundEmail.attempts e = MAX_ATTEMPTS -> OutboundEmail.sent_at e = None ->
     OutboundEmail.next_attempt_at e = None /\ is_Some (OutboundEmail.last_error e)).
Proof.
  intros Hr Hw. assert (Hall : all_within (fun _ => True) (foldl (pass returning) d ps)).
  { clear -Hr Hw. revert d Hw. induction ps as [|p ps IH]; intros d Hw; [done|]. cbn [foldl]. by apply IH, pass_within. }
  intros id e He. destruct (Hall id e He I) as [Ha Hm]. split; [lia|]. intros E8 Hs. destruct (Hm E8) as [[? ?]|?]; [congruence|done].
Qed.
End laws.
#[export] Hint Rewrite emails_set mailed_set emails_mailed mailed_mailed : mail.

(** ** On sample tables *)

Module SampleMail.
Definition addressed_to (to_ : str) : OutboundEmail.t := new_email 0 {| NewEmail.to_ := to_; NewEmail.subject := $"hello"; NewEmail.text := $"body"; NewEmail.html := None |}.
Definition db : ApiDb := set_emails (fun _ => <[1%N := addressed_to ($"ana@example.com")]> {[2%N := addressed_to ($"nobody")]}) Authz.SampleTables.db.
Definition answer (e : OutboundEmail.t) : result str unit :=
  if str_eqb (OutboundEmail.to_address e) ($"nobody") then Err ($"no such mailbox") else Ok tt.
Definition in_order (l : list (Uuid * OutboundEmail.t)) : list (Uuid * OutboundEmail.t) := l.
Definition world : SvcWorld ApiDb := {| shared := (flush_due_emails 1 in_order ∅ answer (undisturbed db)).2.(shared); agenda := [] |}.
Definition day : Z := 24 * 60 * MINUTE.
Definition passes : list (Z * gset Uuid * (OutboundEmail.t -> result str unit)) := (fun k => (Z.of_nat k * day, ∅, answer)) <$> seq 0 12.
(** A worker that dies before it records the outcome. *)
Definition dying (d : ApiDb) (now_ : Z) : ApiDb :=
  shared (flush_due_emails now_ in_order {[1%N]} answer
    {| shared := d; agenda := [{| others := id; call_fault := None |}; {| others := id; call_fault := None |};
                               {| others := id; call_fault := Some (CallRefused ($"gone")) |}] |}).2.

(** Nothing bounds the attempts of a mail whose outcome is never recorded. *)
Lemma attempts_can_pass_the_maximum :
  (OutboundEmail.attempts <$> Emails (foldl dying db ((fun k => Z.of_nat k * 3 * MINUTE) <$> seq 0 9)) !! 2%N) = Some 9.
Proof. vm_compute. reflexivity. Qed.

Lemma sent_mail_was_taken_witness :
  let w' := (flush_due_emails day in_order ∅ answer world).2 in
  taken (shared w') /\ ($"ana@example.com", $"hello") ∈ Mailed (shared w').
Proof.
  destruct (sent_mail_was_taken day in_order ∅ answer world) as [H1 H2].
  - intros l. done.
  - constructor.
  - intros id e He Hs. vm_compute in He. destruct id as [|[[]|[]|]]; try discriminate; injection He as <-; vm_compute in Hs |- *.
    + by destruct Hs.
    + apply list_elem_of_here.
  - split; [exact H1|]. apply (H2 1%N (OutboundEmail.set_sent 1 (OutboundEmail.set_claimed (1 + LEASE) (addressed_to ($"ana@example.com"))))); [|by eexists].
    vm_compute. reflexivity.
Defined.
Lemma a_mail_is_tried_eight_times_witness :
  all_within (fun _ => True) db /\
  exists e, Emails (foldl (pass in_order) db passes) !! 2%N = Some e /\ OutboundEmail.attempts e = MAX_ATTEMPTS /\
    OutboundEmail.next_attempt_at e = None /\ is_Some (OutboundEmail.last_error e).
Proof.
  assert (Hw : all_within (fun _ => True) db).
  { intros id e He _. vm_compute in He. destruct id as [|[[]|[]|]]; try discriminate; injection He as <-; by vm_compute. }
  split; [exact Hw|]. destruct (Emails (foldl (pass in_order) db passes) !! 2%N) as [e|] eqn:E; [|by vm_compute in E].
  destruct (a_mail_is_tried_eight_times in_order db passes (fun l => Permutation_refl l) Hw 2%N e E) as [_ H].
  exists e. vm_compute in E. injection E as <-. split_and!; [reflexivity..|apply H; reflexivity].
Defined.
End SampleMail.
