(* ===== verification/Sessions.v ===== *)
(** * Sessions
    ([backend/api/src/sessions.rs], [middleware.rs], [rate_limit.rs],
    [auth/service/tokens.rs] and the rows of [auth/repo.rs] they use)

    A session is an access token and a refresh token with one identifier.  The
    refresh token has a row; the access token is believed until it expires,
    unless a mark in Redis revokes what was issued up to a moment. *)

From stdpp Require Import base tactics option numbers list gmap.
From Stdlib Require Import ZArith Lia String Ascii.
From S2P Require Import Prelude RustStr Json Errors Frames Publisher Sealed SessionKeys AuthStore ApiState Outbox AuditLog Tables Authz Membership.

(** What of the configuration signing in reads. *)
Module AuthConfig.
Record t := {
  jwt_keys : SigningKeys.t; secrets_keys : Keyring.t; access_token_expiry : Z; refresh_token_expiry : Z; require_admin_totp : bool;
  instance_name : str; public_url : str; login_attempts_per_email : Z; login_attempts_per_ip : Z; login_attempts_window_secs : Z;
  can_send_email : bool; write_rate_limit_multiplier : Z; admin_email : option str; admin_password : option str;
}.
End AuthConfig.

(** The JSON text of a mark, which [serde_json] writes and reads. *)
Class MarkText := { mark_to_string : RevocationMark.t -> str; mark_from_str : str -> option RevocationMark.t }.
Class MarkTextLaws (M : MarkText) := { mark_from_to : forall r, mark_from_str (mark_to_string r) = Some r }.

Module SessionScope.
Inductive t := All | AllExcept (jti : Uuid).
Definition survivor (s : t) : option Uuid := match s with All => None | AllExcept jti => Some jti end.
End SessionScope.

Module AuthTokens.
Record t := { access_token : str; refresh_token : str; expires_in : Z; user_id : Uuid; user : User.t }.
End AuthTokens.

Module RegistrationInvite.
Record t := { user_id : Uuid; email : str; invite_id : Uuid }.
End RegistrationInvite.

Inductive SessionState := SessionValid | SessionRevoked | SessionUnknown.

Inductive LimiterFailure := LimiterOpen | LimiterClosed.
Module Budget.
Record t := { name : str; max : Z; window_secs : Z }.
End Budget.

Definition API_REVOCATION_RETRIES : nat := 1.

Abbreviation Auth d := (auth_tables (app d)).
Definition set_auth (f : AuthTables -> AuthTables) (d : ApiDb) : ApiDb := with_app (set_auth_tables f) d.

Section sessions.
Context `{UuidText} `{Sealing} `{Jwt} `{MarkText}.
Context (entry_id : str -> list (str * str * Event) -> str) (config : AuthConfig.t) (draw : ApiDb -> Uuid) (now : Z).
Implicit Types (d : ApiDb) (t : AppTables) (u : Uuid) (token : str).

Definition utc_secs : Z := now / SECOND.

(** ** Redis *)

(** [INCR], and [EXPIRE] of a key that is new, as one script. *)
Definition count_attempt (key : str) (window : Z) d : ApiDb * Z :=
  match redis_counters (Auth d) !! key with
  | Some (n, expires) =>
      if now <? expires then (set_auth (set_redis_counters <[key := (n + 1, expires)]>) d, n + 1)
      else (set_auth (set_redis_counters <[key := (1, now + window * SECOND)]>) d, 1)
  | None => (set_auth (set_redis_counters <[key := (1, now + window * SECOND)]>) d, 1)
  end.
Definition redis_value (key : str) d : option str :=
  match redis_values (Auth d) !! key with
  | Some (v, expires) => if now <? expires then Some v else None
  | None => None
  end.
(** [SET EX], which Redis refuses for no time at all. *)
Definition set_value (key v : str) (ttl : Z) d : ApiDb :=
  if 0 <? ttl then set_auth (set_redis_values <[key := (v, now + ttl * SECOND)]>) d else d.

(** ** Limits ([rate_limit.rs]) *)

Definition too_many (window : Z) : AppError := TooManyRequests ($"Too many requests. Please try again later.") window.
Definition enforce (key : str) (max window : Z) (on_failure : LimiterFailure) : Api unit :=
  count ← svc_call (count_attempt key window);
  mret (match count with
        | Ok count => if max <? count then Err (too_many window) else Ok tt
        | Err _ =>
            match on_failure with
            | LimiterOpen => Ok tt
            | LimiterClosed => Err (ServiceUnavailable ($"Authentication is temporarily unavailable. Please try again."))
            end
        end).
(** [auth/routes.rs] *)
Definition check_rate_limit (key : str) (max window : Z) : Api unit := enforce key max window LimiterClosed.

Fixpoint contains (p s : str) : bool := starts_with p s || match s with [] => false | _ :: s => contains p s end.
Definition budget (name : string) (max window : Z) : Budget.t :=
  {| Budget.name := lit name; Budget.max := max; Budget.window_secs := window |}.
Definition BOT_READ : Budget.t := budget "bot-read" 300 60.
(** [None] for a method that only reads. *)
Definition budget_for (writes : bool) (path : str) : option Budget.t :=
  if negb writes then None
  else
    let path := default path (strip_prefix ($"/api") path) in
    Some (if contains ($"/reactions") path then budget "reaction" 240 60
          else if ends_with ($"/invites") path then budget "invite" 20 3600
          else if str_eqb path ($"/workspaces") then budget "workspace" 5 3600
          else if ends_with ($"/channels") path then budget "channel" 30 3600
          else if ends_with ($"/app-requests") path then budget "app-request" 10 3600
          else if ends_with ($"/messages") path || ends_with ($"/thread") path then budget "message" 120 60
          else budget "default" 120 60).
Definition write_rate_limit (writes : bool) (path : str) (auth : option AuthUser.t) : Api unit :=
  match auth with
  | None => mret (Ok tt)
  | Some auth =>
      let budget := match budget_for writes path with
                    | Some b => Some b
                    | None => if bool_decide (is_Some (AuthUser.bot auth)) then Some BOT_READ else None
                    end in
      match budget with
      | None => mret (Ok tt)
      | Some b =>
          enforce ($"rate_limit:write:" ++ Budget.name b ++ $":" ++ uuid_to_string (AuthUser.user_id auth))
            (Budget.max b * AuthConfig.write_rate_limit_multiplier config) (Budget.window_secs b) LimiterOpen
      end
  end.

(** ** Rows ([auth/repo.rs]) *)

Definition find_refresh_token (hash : str) t : option Uuid :=
  r ← refresh_tokens (auth_tables t) !! hash;
  if now <? RefreshToken.expires_at r then Some (RefreshToken.user_id r) else None.
Definition delete_refresh_token (hash : str) : AuthTables -> AuthTables := set_refresh_tokens (delete hash).
Definition delete_user_refresh_tokens u : AuthTables -> AuthTables :=
  set_refresh_tokens (filter (fun p : str * RefreshToken.t => RefreshToken.user_id p.2 <> u)).
Definition delete_user_refresh_tokens_except u (hash : str) : AuthTables -> AuthTables :=
  set_refresh_tokens (filter (fun p : str * RefreshToken.t => RefreshToken.user_id p.2 <> u \/ p.1 = hash)).

Definition auth_run (f : AuthTables -> AuthTables) : Tx ApiDb unit := run (set_auth_tables f).
Definition auth_write (f : AuthTables -> AuthTables) : Api unit := sql (fun d => (set_auth f d, tt)).
Definition store_refresh_token_tx u (hash : str) (expires : Z) : Tx ApiDb unit :=
  known ← read (fun t => bool_decide (is_Some (users t !! u)));
  if negb known then tx_fail (Database ($"insert or update on table violates foreign key constraint"))
  else
    taken ← read (fun t => bool_decide (is_Some (refresh_tokens (auth_tables t) !! hash)));
    if taken : bool then tx_fail (Database ($"duplicate key value violates unique constraint"))
    else auth_run (set_refresh_tokens <[hash := {| RefreshToken.user_id := u; RefreshToken.expires_at := expires |}]>).

(** ** Tokens ([auth/service/tokens.rs]) *)

Definition verify_token token : AppResult SessionClaims.t :=
  ok_or (Unauthorized ($"Invalid or expired token")) (decode_session (SigningKeys.verifying (AuthConfig.jwt_keys config)) utc_secs token).

Definition session_claims u (user : User.t) (jti : Uuid) (kind : string) (lifetime : Z) : SessionClaims.t :=
  {| SessionClaims.sub := u; SessionClaims.email := User.email user; SessionClaims.is_instance_admin := User.is_instance_admin user;
     SessionClaims.iat := utc_secs; SessionClaims.exp := (now + lifetime * SECOND) / SECOND; SessionClaims.jti := Some jti;
     SessionClaims.token_type := lit kind; SessionClaims.invite_id := None |}.
Definition sign (c : SessionClaims.t) (error : string) : AppResult str := ok_or (Internal (lit error)) (encode_session (AuthConfig.jwt_keys config) c).
(** Both tokens of a session. *)
Definition sign_session u (user : User.t) (jti : Uuid) : AppResult (str * str) :=
  access ← sign (session_claims u user jti "access" (AuthConfig.access_token_expiry config)) "Token generation failed";
  refresh ← sign (session_claims u user jti "refresh" (AuthConfig.refresh_token_expiry config)) "Token generation failed";
  Ok (access, refresh).
Definition refresh_expiry : Z := now + AuthConfig.refresh_token_expiry config * SECOND.
Definition tokens_of u (user : User.t) (tokens : str * str) : AuthTokens.t :=
  {| AuthTokens.access_token := tokens.1; AuthTokens.refresh_token := tokens.2; AuthTokens.expires_in := AuthConfig.access_token_expiry config;
     AuthTokens.user_id := u; AuthTokens.user := user |}.

Definition generate_tokens u (user : User.t) : Api AuthTokens.t :=
  jti ← svc_gets draw;
  tokens ←? mret (sign_session u user jti);
  _ ←? transaction (store_refresh_token_tx u (uuid_to_string jti) refresh_expiry);
  mret (Ok (tokens_of u user tokens)).

Definition rotate_tx u (old new : str) : Tx ApiDb unit :=
  _ ← auth_run (delete_refresh_token old); store_refresh_token_tx u new refresh_expiry.
Definition refresh_access_token token : Api AuthTokens.t :=
  claims ←? mret (verify_token token);
  if negb (str_eqb (SessionClaims.token_type claims) ($"refresh")) then mret (Err (Unauthorized ($"Invalid refresh token")))
  else
    jti ←? require (Unauthorized ($"Invalid refresh token")) (SessionClaims.jti claims);
    found ←? query (find_refresh_token (uuid_to_string jti));
    uid ←? require (Unauthorized ($"Refresh token has been revoked or expired")) found;
    if negb (bool_decide (uid = SessionClaims.sub claims)) then mret (Err (Unauthorized ($"Invalid refresh token")))
    else
      user ←? query (find_by_id (SessionClaims.sub claims));
      user ←? require (Unauthorized ($"User not found")) user;
      if negb (bool_decide (User.status user = Active)) then mret (Err (Unauthorized ($"Account is not active")))
      else
        new_jti ← svc_gets draw;
        tokens ←? mret (sign_session (SessionClaims.sub claims) user new_jti);
        _ ←? transaction (rotate_tx (SessionClaims.sub claims) (uuid_to_string jti) (uuid_to_string new_jti));
        mret (Ok (tokens_of (SessionClaims.sub claims) user tokens)).

(** It never fails. *)
Definition service_logout token : Api unit :=
  match verify_token token with
  | Ok claims =>
      match SessionClaims.jti claims with
      | Some jti => _ ← auth_write (delete_refresh_token (uuid_to_string jti)); mret (Ok tt)
      | None => mret (Ok tt)
      end
  | Err _ => mret (Ok tt)
  end.

Definition RESET_LIFETIME_SECS : Z := 3600.
Definition store_reset_jti_tx (jti u : Uuid) (expires : Z) : Tx ApiDb unit :=
  taken ← read (fun t => bool_decide (is_Some (password_reset_tokens (auth_tables t) !! jti)));
  if taken : bool then tx_fail (Database ($"duplicate key value violates unique constraint"))
  else auth_run (set_password_reset_tokens <[jti := {| ResetToken.user_id := u; ResetToken.expires_at := expires |}]>).
Definition generate_reset_token u : Api str :=
  jti ← svc_gets draw;
  token ←? mret (sign
    {| SessionClaims.sub := u; SessionClaims.email := []; SessionClaims.is_instance_admin := false; SessionClaims.iat := utc_secs;
       SessionClaims.exp := (now + RESET_LIFETIME_SECS * SECOND) / SECOND; SessionClaims.jti := Some jti;
       SessionClaims.token_type := $"reset"; SessionClaims.invite_id := None |} "Reset token generation failed");
  _ ←? transaction (store_reset_jti_tx jti u (now + RESET_LIFETIME_SECS * SECOND));
  mret (Ok token).
Definition consume_reset_jti (jti u : Uuid) d : ApiDb * bool :=
  match password_reset_tokens (Auth d) !! jti with
  | Some r =>
      if bool_decide (ResetToken.user_id r = u) && (now <? ResetToken.expires_at r) then
        (set_auth (set_password_reset_tokens (delete jti)) d, true)
      else (d, false)
  | None => (d, false)
  end.

Definition generate_registration_token u (email : str) (invite : Uuid) (expires : Z) : AppResult str :=
  sign {| SessionClaims.sub := u; SessionClaims.email := email; SessionClaims.is_instance_admin := false; SessionClaims.iat := utc_secs;
          SessionClaims.exp := expires / SECOND; SessionClaims.jti := None; SessionClaims.token_type := $"registration";
          SessionClaims.invite_id := Some invite |} "Registration token generation failed".
Definition bad_invite : AppError := Unauthorized ($"Invalid or expired invite").
Definition verify_registration_token token : AppResult SessionClaims.t :=
  match verify_token token with
  | Err _ => Err bad_invite
  | Ok claims => if str_eqb (SessionClaims.token_type claims) ($"registration") then Ok claims else Err bad_invite
  end.
Definition registration_invite token : AppResult RegistrationInvite.t :=
  claims ← verify_registration_token token;
  invite ← ok_or bad_invite (SessionClaims.invite_id claims);
  Ok {| RegistrationInvite.user_id := SessionClaims.sub claims; RegistrationInvite.email := SessionClaims.email claims;
        RegistrationInvite.invite_id := invite |}.

(** ** Revoking ([sessions.rs], [RevocationStore]) *)

Definition mark_key u : str := $"revoked:" ++ uuid_to_string u.
Definition mark_ttl : Z := Z.max (Z.max (AuthConfig.access_token_expiry config) (AuthConfig.refresh_token_expiry config)) 0.
Definition revocation_mark (scope : SessionScope.t) : RevocationMark.t :=
  {| RevocationMark.at_ := utc_secs; RevocationMark.except_jti := SessionScope.survivor scope |}.

Definition revoke_sessions u (scope : SessionScope.t) (reason : string) : Api unit :=
  _ ← auth_write (match SessionScope.survivor scope with
                  | None => delete_user_refresh_tokens u
                  | Some jti => delete_user_refresh_tokens_except u (uuid_to_string jti)
                  end);
  _ ← svc_write (set_value (mark_key u) (mark_to_string (revocation_mark scope)) mark_ttl);
  id ← svc_gets draw;
  _ ← publish entry_id now id ($"session.revoked")
    (JObject [uuid_field "user_id" u; ($"except_jti", uuid_opt (SessionScope.survivor scope)); ($"reason", JString (lit reason))]);
  mret (Ok tt).
Definition restore_sessions u : Svc ApiDb unit := _ ← svc_write (set_auth (set_redis_values (delete (mark_key u)))); mret tt.

(** What was not written as a mark revokes. *)
Definition decide_mark (claims : SessionClaims.t) (payload : str) : SessionState :=
  match mark_from_str payload with
  | Some mark => if RevocationMark.covers mark claims then SessionRevoked else SessionValid
  | None => SessionRevoked
  end.
Fixpoint lookup_mark (attempts : nat) (claims : SessionClaims.t) : Svc ApiDb SessionState :=
  match attempts with
  | O => mret SessionUnknown
  | S attempts =>
      found ← svc_read (redis_value (mark_key (SessionClaims.sub claims)));
      match found with
      | Ok (Some payload) => mret (decide_mark claims payload)
      | Ok None => mret SessionValid
      | Err _ => lookup_mark attempts claims
      end
  end.
Definition session_state (claims : SessionClaims.t) : Svc ApiDb SessionState := lookup_mark (S API_REVOCATION_RETRIES) claims.

(** ** Requests ([middleware.rs]) *)

Fixpoint find_part (f : str -> option str) (parts : list str) : option str :=
  match parts with [] => None | p :: parts => match f p with Some x => Some x | None => find_part f parts end end.
Definition extract_cookie_token (cookies : option str) : option str :=
  header ← cookies; find_part (fun part => strip_prefix ($"access_token=") (trim part)) (split_on 59 header).
Definition bearer_token (authorization : option str) : option str := value ← authorization; strip_prefix ($"Bearer ") value.

Definition scope_str (s : Scope) : str :=
  match s with
  | ChatWrite => $"chat:write" | ChatWritePublic => $"chat:write.public" | ChannelsRead => $"channels:read"
  | ChannelsHistory => $"channels:history" | GroupsHistory => $"groups:history" | ImWrite => $"im:write"
  | ReactionsWrite => $"reactions:write" | FilesWrite => $"files:write" | UsersRead => $"users:read" | Commands => $"commands"
  end.
Definition every_scope : list Scope :=
  [ChatWrite; ChatWritePublic; ChannelsRead; ChannelsHistory; GroupsHistory; ImWrite; ReactionsWrite; FilesWrite; UsersRead; Commands].
Definition parse_scope (s : str) : option Scope := head (filter (fun x => scope_str x = s) every_scope).
Definition parse_scopes (stored : list str) : list Scope := omap parse_scope stored.

(** [{:02x}] of each byte of the digest. *)
Definition hex_nibble (n : Z) : char := if n <? 10 then 48 + n else 87 + n.
Definition hash_token token : str := sha256 (as_bytes token) ≫= (fun b => [hex_nibble (b / 16); hex_nibble (b mod 16)]).
(** A workspace that was deleted is not active. *)
Definition authenticate_bot (hash : str) t : option (Uuid * BotToken.t) :=
  p ← head (filter (fun p : Uuid * BotApp.t => BotApp.token_hash p.2 = hash) (map_to_list (bot_apps (auth_tables t))));
  ws ← workspaces t !! BotApp.workspace_id p.2;
  if Workspace.is_active ws then
    Some (BotApp.bot_user_id p.2,
      {| BotToken.app_id := p.1; BotToken.workspace_id := BotApp.workspace_id p.2; BotToken.scopes := parse_scopes (BotApp.scopes p.2) |})
  else None.

Definition TOKEN_PREFIX : str := $"cbot-".
Definition auth_middleware (cookies authorization : option str) : Api AuthUser.t :=
  token ←? require (Unauthorized ($"Missing authentication"))
    (match extract_cookie_token cookies with Some token => Some token | None => bearer_token authorization end);
  if starts_with TOKEN_PREFIX token then
    found ←? query (authenticate_bot (hash_token token));
    bot ←? require (Unauthorized ($"Invalid bot token")) found;
    mret (Ok {| AuthUser.user_id := bot.1; AuthUser.is_instance_admin := false; AuthUser.jti := None; AuthUser.bot := Some bot.2 |})
  else
    claims ←? mret (verify_token token);
    if negb (str_eqb (SessionClaims.token_type claims) ($"access")) then mret (Err (Unauthorized ($"Invalid or expired token")))
    else
      state ← session_state claims;
      match state with
      | SessionRevoked => mret (Err (Unauthorized ($"Session revoked")))
      | SessionUnknown => mret (Err (ServiceUnavailable ($"Cannot verify the session right now. Please retry.")))
      | SessionValid =>
          mret (Ok {| AuthUser.user_id := SessionClaims.sub claims; AuthUser.is_instance_admin := SessionClaims.is_instance_admin claims;
                      AuthUser.jti := SessionClaims.jti claims; AuthUser.bot := None |})
      end.
Definition admin_middleware (auth : AuthUser.t) : AppResult unit :=
  if AuthUser.is_instance_admin auth then Ok tt else Err (Forbidden ($"Requires instance admin")).
(** The extractor of a route that is not for bots. *)
Definition person_only (auth : AuthUser.t) : AppResult AuthUser.t :=
  if bool_decide (is_Some (AuthUser.bot auth)) then Err (Forbidden ($"This route does not accept a bot token")) else Ok auth.
End sessions.
