(* ===== verification/SignIn.v ===== *)
(** * Signing in
    ([backend/api/src/auth/service/mod.rs], [auth/{routes,totp,totp_routes,
    totp_repo,email_code_routes,email_code_repo}.rs], parts of
    [auth/repo.rs], [auth/service/email.rs] and [admin/routes.rs])

    A password or an emailed code is the first factor, a code of an
    authenticator or a recovery code the second; with both a session is made.
    Around it: registering, recovering and changing a password, enrolling the
    second factor, suspending an account. *)

From stdpp Require Import base tactics option numbers list gmap sorting.
From Stdlib Require Import ZArith Lia String Ascii.
From S2P Require Import Prelude RustStr Json Errors Frames Publisher Validation ListForms Sealed SessionKeys AuthStore NoticeStore ApiState Outbox AuditLog Tables Authz Membership Mail Sessions.

(** Argon2: hashing with a salt, and a verifier of what parses as a hash. *)
Class Passwords := { argon2_hash : Uuid -> str -> option str; argon2_verifier : str -> option (str -> bool) }.
Class PasswordsLaws (P : Passwords) := {
  argon2_verifies : forall salt p h, argon2_hash salt p = Some h -> exists v, argon2_verifier h = Some v /\ v p = true;
}.
(** [totp_rs]: of a secret, an account and an issuer, the digits of a time in
    seconds and the address that enrols an authenticator; or the text of the
    error. *)
Class Totp := {
  totp_digits : str -> str -> str -> result str (Z -> str);
  totp_url : str -> str -> str -> result str str;
}.

Definition STEP_SECS : Z := 30.
Definition SKEW : Z := 1.
Definition RECOVERY_CODE_COUNT : nat := 10.
Definition CODE_LIFETIME_MINS : Z := 10.
Definition MAX_TRIES : Z := 5.

(** [None] is [PasswordRecovery::Handled]. *)
Abbreviation PasswordRecovery := (option (Uuid * User.t)).
Module CodeTry.
Record t := { code_hash : str; attempts : Z }.
End CodeTry.
Module CheckedCode.
Record t := { user_id : Uuid; user : User.t; code_hash : str }.
End CheckedCode.
Module TotpStatus.
Record t := { enrolled : bool; recovery_codes_remaining : Z; required : bool }.
End TotpStatus.

(** ** Codes of an authenticator ([totp.rs]) *)

(** [i64] division truncates. *)
Definition current_step (at_ : Z) : Z := Z.quot at_ STEP_SECS.
(** Bytes compared without stopping at the first that differs. *)
Definition codes_match (a b : str) : bool :=
  let a := as_bytes a in let b := as_bytes b in
  bool_decide (length a = length b) && (foldl (fun acc p => Z.lor acc (Z.lxor p.1 p.2)) 0 (zip a b) =? 0).
Fixpoint step_of (digits : Z -> str) (code : str) (steps : list Z) : option Z :=
  match steps with
  | [] => None
  | step :: steps =>
      if step <? 0 then step_of digits code steps
      else if codes_match (digits (step * STEP_SECS)) code then Some step else step_of digits code steps
  end.
Definition totp_of `{Totp} (secret email issuer : str) : AppResult (Z -> str) :=
  match totp_digits secret email issuer with Ok f => Ok f | Err e => Err (Internal e) end.
Definition matching_step `{Totp} (secret email issuer code : str) (at_ : Z) : AppResult (option Z) :=
  digits ← totp_of secret email issuer;
  let current := current_step at_ in
  Ok (step_of digits code [current; current - SKEW; current + SKEW]).
Definition verify_totp `{Totp} (secret email issuer code : str) (at_ : Z) : AppResult bool :=
  matched ← matching_step secret email issuer code at_; Ok (bool_decide (is_Some matched)).

(** Five random bytes each. *)
Definition recovery_code (b : bytes) : str :=
  let hex := b ≫= (fun b => [hex_nibble (b / 16); hex_nibble (b mod 16)]) in
  firstn 5 hex ++ $"-" ++ skipn 5 hex.
(** [{:06}] *)
Definition six_digits (n : Z) : str := (fun i => 48 + (n / 10 ^ i) mod 10) <$> [5; 4; 3; 2; 1; 0].

Section sign_in.
Context `{UuidText} `{Sealing} `{Jwt} `{MarkText} `{Passwords} `{Totp} `{CaseFolding}.
Context (entry_id : str -> list (str * str * Event) -> str) (config : AuthConfig.t) (draw : ApiDb -> Uuid) (now : Z).
Context (by_name : list Channel.t -> list Channel.t).
(** [lower] of the database, and what is drawn: salts, nonces, the secret of
    an authenticator, the bytes of recovery codes and the digits of a code. *)
Context (lower : str -> str) (draw_salt : ApiDb -> str -> Uuid) (draw_nonce : ApiDb -> bytes) (draw_secret : ApiDb -> str).
Context (draw_codes : ApiDb -> list bytes) (draw_digits : ApiDb -> Z).
(** The hash of a password nobody has. *)
Context (absent_user_hash : str).
(** The name of a workspace, which the tables here do not keep, and the page of
    an invitation, or the error of rendering it. *)
Context (workspace_name : Uuid -> str) (invite_page : str -> str -> result str str).
Implicit Types (d : ApiDb) (t : AppTables) (u : Uuid) (user : User.t) (email password code : str).

Abbreviation jwt_now := (utc_secs now).

(** ** Accounts ([auth/repo.rs]) *)

(** [email] is unique. *)
Definition find_by_email email t : option (Uuid * User.t) :=
  head (filter (fun p : Uuid * User.t => User.email p.2 = lower email /\ User.is_bot p.2 = false) (map_to_list (users t))).
Definition update_password u (hash : str) : Api unit := sql (fun d => (with_app (set_users (alter (User.set_password hash) u)) d, tt)).
(** [UPDATE .. RETURNING] *)
Definition activate u (hash name : str) : Api User.t :=
  user ←? sql (fun d => let d' := with_app (set_users (alter (User.set_activated hash name) u)) d in (d', users (app d') !! u));
  require row_not_found user.
Definition create_user_tx (user : User.t) : Tx ApiDb (Uuid * User.t) :=
  id ← drawn draw;
  taken ← read (fun t => bool_decide (is_Some (users t !! id)) || existsb (fun p => str_eqb (User.email p.2) (User.email user)) (map_to_list (users t)));
  if taken : bool then tx_fail (Database ($"duplicate key value violates unique constraint"))
  else _ ← run (set_users <[id := user]>); mret (id, user).
Definition create_user email (hash name : option str) (admin : bool) : Api (Uuid * User.t) :=
  transaction (create_user_tx
    {| User.email := lower email; User.display_name := name; User.status := Pending; User.is_bot := false; User.timezone := None;
       User.password_hash := hash; User.is_instance_admin := admin |}).
Definition has_identity u t : bool := existsb (fun p : (str * str) * Uuid => bool_decide (p.2 = u)) (map_to_list (oauth_accounts (auth_tables t))).
Definition reactivated u t : AppTables :=
  set_users (alter (fun user => User.set_status
    (if bool_decide (User.password_hash user = None) && negb (has_identity u t) then Pending else Active) user) u) t.

(** ** Passwords ([service/mod.rs]) *)

Definition hash_password password : Api str :=
  salt ← svc_gets (fun d => draw_salt d password);
  mret (ok_or (Internal ($"Password hashing failed")) (argon2_hash salt password)).
Definition verify_password password (hash : str) : AppResult bool :=
  match argon2_verifier hash with Some v => Ok (v password) | None => Err (Internal ($"Invalid password hash")) end.
Definition matches password (hash : str) : bool := default false (result_ok (verify_password password hash)).

Definition wrong_credentials : AppError := Unauthorized ($"Invalid email or password").
(** Why nobody signs in, in the words of the log. *)
Definition login_refusal (found : option (Uuid * User.t)) (password_matches : bool) : option string :=
  match found with
  | None => Some "no such account"%string
  | Some (_, user) =>
      if negb (bool_decide (User.status user = Active)) then Some "account is not active"%string
      else if bool_decide (User.password_hash user = None) then Some "account has no password set"%string
      else if negb password_matches then Some "wrong password"%string else None
  end.
Definition verify_password_only email password : Api (Uuid * User.t) :=
  _ ←? mret (validate_email email);
  found ←? query (find_by_email email);
  let hash := default absent_user_hash (found ≫= fun p => User.password_hash p.2) in
  match login_refusal found (matches password hash) with
  | Some _ => mret (Err wrong_credentials)
  | None => require wrong_credentials found
  end.
Definition service_login email password : Api AuthTokens.t :=
  user ←? verify_password_only email password; generate_tokens config draw now user.1 user.2.

Definition service_complete_registration u password (name : str) : Api AuthTokens.t :=
  _ ←? mret (validate_display_name name);
  found ←? query (find_by_id u);
  user ←? require (NotFound ($"User not found")) found;
  if negb (bool_decide (User.status user = Pending)) then mret (Err (BadRequest ($"Account is already activated")))
  else
    _ ←? mret (validate_password password);
    hash ←? hash_password password;
    user ←? activate u hash name;
    generate_tokens config draw now u user.

(** ** Mail ([service/email.rs]) *)

Definition queue_email (to_ subject text : str) (html : option str) : Api unit :=
  if AuthConfig.can_send_email config then
    _ ←? transaction (enqueue_email draw now {| NewEmail.to_ := to_; NewEmail.subject := subject; NewEmail.text := text; NewEmail.html := html |});
    mret (Ok tt)
  else mret (Ok tt).
Definition NL : str := [10].
Definition send_reset_email email (url : str) : Api unit :=
  queue_email email ($"Reset your password")
    ($"You requested a password reset." ++ NL ++ NL ++ $"Click the link below to reset your password:" ++ NL ++ url ++ NL ++ NL ++
     $"This link expires in 1 hour.") None.
Definition send_sso_reminder email : Api unit :=
  queue_email email ($"You sign in with SSO")
    ($"Somebody asked for a way into this account on " ++ AuthConfig.instance_name config ++ $"." ++ NL ++ NL ++
     $"This account signs in with single sign-on, so it has no password to reset and no sign-in code. Open " ++
     AuthConfig.public_url config ++ $" and choose Sign in with SSO." ++ NL) None.
Definition send_sign_in_code email code : Api unit :=
  let name := AuthConfig.instance_name config in
  queue_email email (code ++ $" is your " ++ name ++ $" sign-in code")
    ($"Your code to sign in to " ++ name ++ $" is:" ++ NL ++ NL ++ code ++ NL ++ NL ++
     $"It works once and expires in 10 minutes. If you did not ask for it, you can ignore this email." ++ NL) None.
Definition send_invite_email email (ws_name url : str) : Api unit :=
  match invite_page ws_name url with
  | Err e => mret (Err (Internal ($"Failed to render invite email: " ++ e)))
  | Ok page =>
      let name := AuthConfig.instance_name config in
      queue_email email ($"Join " ++ ws_name ++ $" on " ++ name)
        ($"You've been invited to join " ++ ws_name ++ $" on " ++ name ++ $"." ++ NL ++ NL ++ $"Open this link to get started:" ++ NL ++ url ++ NL)
        (Some page)
  end.

(** ** Recovering ([service/mod.rs], [workspace/service.rs]) *)

Definition forgot_password email : Api PasswordRecovery :=
  _ ←? mret (validate_email email);
  found ←? query (find_by_email email);
  match found with
  | None => mret (Ok None)
  | Some (u, user) =>
      if bool_decide (User.status user = Pending) then mret (Ok (Some (u, user)))
      else if bool_decide (User.password_hash user = None) then _ ← send_sso_reminder (User.email user); mret (Ok None)
      else
        token ← generate_reset_token config draw now u;
        _ ← match token with
            | Ok token => send_reset_email (User.email user) (AuthConfig.public_url config ++ $"/reset-password?token=" ++ token)
            | Err e => mret (Err e)
            end;
        mret (Ok None)
  end.
Definition service_reset_password (token new_password : str) : Api Uuid :=
  claims ←? mret (verify_token config now token);
  if negb (str_eqb (SessionClaims.token_type claims) ($"reset")) then mret (Err (Unauthorized ($"Invalid or expired token")))
  else
    jti ←? require (Unauthorized ($"Invalid or expired token")) (SessionClaims.jti claims);
    _ ←? mret (validate_password new_password);
    consumed ←? sql (consume_reset_jti now jti (SessionClaims.sub claims));
    if negb consumed then mret (Err (Unauthorized ($"reset link already used or expired")))
    else
      hash ←? hash_password new_password;
      _ ←? update_password (SessionClaims.sub claims) hash;
      mret (Ok (SessionClaims.sub claims)).
Definition service_change_password u (current new : str) : Api unit :=
  found ←? query (find_by_id u);
  user ←? require (NotFound ($"User not found")) found;
  hash ←? require (Unauthorized ($"Current password is incorrect")) (User.password_hash user);
  right ←? mret (verify_password current hash);
  if negb right then mret (Err (Unauthorized ($"Current password is incorrect")))
  else
    _ ←? mret (validate_password new);
    new_hash ←? hash_password new;
    update_password u new_hash.

Definition provision_user email : Api (Uuid * User.t) :=
  found ←? query (find_by_email email);
  match found with
  | Some user => mret (Ok user)
  | None => create_user email None None false
  end.
Definition create_instance_admin email password (name : str) : Api User.t :=
  hash ←? hash_password password;
  user ←? create_user email (Some hash) (Some name) true;
  activate user.1 hash name.
Definition bootstrap_admin : Api unit :=
  match AuthConfig.admin_email config, AuthConfig.admin_password config with
  | Some ((_ :: _) as email), Some ((_ :: _) as password) =>
      found ←? query (find_by_email email);
      match found with
      | Some _ => mret (Ok tt)
      | None => _ ←? create_instance_admin email password ($"Admin"); mret (Ok tt)
      end
  | _, _ => mret (Ok tt)
  end.

(** [ORDER BY created_at DESC LIMIT 1] *)
Definition newer_invite (a b : WorkspaceInvite.t) : Prop := WorkspaceInvite.created_at b <= WorkspaceInvite.created_at a.
#[global] Instance newer_invite_dec a b : Decision (newer_invite a b).
Proof. unfold newer_invite. apply _. Defined.
Definition find_live_email_invite email t : option WorkspaceInvite.t :=
  head (merge_sort newer_invite (filter (fun i => WorkspaceInvite.email i = Some (lower email) /\ not_expired now i = true /\ claimable_use i = true)
    (map_to_list (workspace_invites t)).*2)).
Definition invite_url (i : WorkspaceInvite.t) : Api str :=
  email ←? require (BadRequest ($"Only an email invite has a link of its own")) (WorkspaceInvite.email i);
  expires ←? require (BadRequest ($"This invite has expired"))
    (match WorkspaceInvite.expires_at i with Some e => if now <=? e then Some e else None | None => None end);
  if negb (claimable_use i) then mret (Err (BadRequest ($"This invite was already used")))
  else
    found ←? query (find_by_email email);
    user ←? require (NotFound ($"Nobody holds this invite any more")) found;
    token ←? mret (generate_registration_token config now user.1 email (WorkspaceInvite.id i) expires);
    mret (Ok (AuthConfig.public_url config ++ $"/invite/" ++ token)).
(** Whether the mail was sent is only shown. *)
Definition email_invite (i : WorkspaceInvite.t) (url : str) : Svc ApiDb unit :=
  match WorkspaceInvite.email i with
  | Some email =>
      if AuthConfig.can_send_email config then
        ws ← query (find_workspace_by_id (WorkspaceInvite.workspace_id i));
        match ws with
        | Ok (Some ws) => _ ← send_invite_email email (workspace_name (Workspace.id ws)) url; mret tt
        | _ => mret tt
        end
      else mret tt
  | None => mret tt
  end.
Definition resend_invite email : Api unit :=
  found ←? query (find_live_email_invite email);
  match found with
  | None => mret (Ok tt)
  | Some i => url ←? invite_url i; _ ← email_invite i url; mret (Ok tt)
  end.
End sign_in.
