(* ===== verification/SignInRoutes.v ===== *)
(** * The requests of signing in
    ([backend/api/src/auth/{routes,totp_repo,totp_routes,email_code_repo,
    email_code_routes}.rs], parts of [admin/routes.rs] and
    [scim/service.rs])

    The second factor and the emailed codes with their rows, and the requests
    that use them.  Cookies are left out: they carry the tokens that are
    answered. *)

From stdpp Require Import base tactics option numbers list gmap sorting.
From Stdlib Require Import ZArith Lia String Ascii.
From S2P Require Import Prelude RustStr Json Errors Frames Publisher Validation ListForms Sealed SessionKeys AuthStore NoticeStore ApiState Outbox AuditLog Tables Authz Membership Mail Sessions SignIn.

Section rows.
Context (now : Z).
Implicit Types (d : ApiDb) (t : AppTables) (u : Uuid).

(** ** Rows of the second factor ([totp_repo.rs]) *)

Definition find_totp u t : option TotpEnrolment.t := user_totp (auth_tables t) !! u.
(** [ON CONFLICT (user_id) DO UPDATE] *)
Definition start_enrolment u (s : Sealed.t) d : ApiDb :=
  set_auth (set_user_totp <[u :=
    {| TotpEnrolment.secret := {| Stored.ciphertext := Sealed.ciphertext s; Stored.nonce := Sealed.nonce s; Stored.key_id := Some (Sealed.key_id s) |};
       TotpEnrolment.confirmed_at := None; TotpEnrolment.last_used_step := None |}]>) d.
Definition confirm_totp u (step : Z) d : ApiDb := set_auth (set_user_totp (alter (TotpEnrolment.set_confirmed now step) u)) d.
(** [last_used_step IS NULL OR last_used_step < step] *)
Definition is_newer_step (step : Z) (e : TotpEnrolment.t) : bool :=
  match TotpEnrolment.last_used_step e with None => true | Some last => last <? step end.
Definition claim_step u (step : Z) d : ApiDb * bool :=
  match user_totp (Auth d) !! u with
  | Some e => if is_newer_step step e then (set_auth (set_user_totp <[u := TotpEnrolment.set_step step e]>) d, true) else (d, false)
  | None => (d, false)
  end.
Definition without_codes u : gmap Uuid RecoveryCode.t -> gmap Uuid RecoveryCode.t :=
  filter (fun p : Uuid * RecoveryCode.t => RecoveryCode.user_id p.2 <> u).
Definition disable_totp u d : ApiDb := set_auth (fun a => set_totp_recovery_codes (without_codes u) (set_user_totp (delete u) a)) d.
(** With the identifiers of the rows. *)
Definition replace_recovery_codes u (rows : list (Uuid * str)) d : ApiDb :=
  set_auth (set_totp_recovery_codes (fun m =>
    list_to_map ((fun r : Uuid * str => (r.1, {| RecoveryCode.user_id := u; RecoveryCode.code_hash := r.2; RecoveryCode.used_at := None |})) <$> rows)
    ∪ without_codes u m)) d.
Definition is_unused_of u (c : RecoveryCode.t) : bool := bool_decide (RecoveryCode.user_id c = u) && bool_decide (RecoveryCode.used_at c = None).
Definition unused_recovery_hashes u t : list (Uuid * str) :=
  (fun p : Uuid * RecoveryCode.t => (p.1, RecoveryCode.code_hash p.2)) <$>
    filter (fun p => is_unused_of u p.2 = true) (map_to_list (totp_recovery_codes (auth_tables t))).
Definition use_recovery_code (id : Uuid) d : ApiDb * bool :=
  match totp_recovery_codes (Auth d) !! id with
  | Some c =>
      match RecoveryCode.used_at c with
      | None => (set_auth (set_totp_recovery_codes <[id := RecoveryCode.set_used now c]>) d, true)
      | Some _ => (d, false)
      end
  | None => (d, false)
  end.
Definition count_passkeys u t : Z := Z.of_nat (length (filter (fun p : Uuid * Uuid => p.2 = u) (map_to_list (passkeys (auth_tables t))))).

(** ** Rows of emailed codes ([email_code_repo.rs]) *)

Definition replace_email_code u (hash : str) (lifetime_mins : Z) d : ApiDb :=
  set_auth (set_email_sign_in_codes <[u :=
    {| EmailCode.code_hash := hash; EmailCode.attempts := 0; EmailCode.expires_at := now + lifetime_mins * MINUTE; EmailCode.used_at := None |}]>) d.
Definition is_live_code (c : EmailCode.t) : bool := bool_decide (EmailCode.used_at c = None) && (now <? EmailCode.expires_at c).
Definition claim_try u (max_tries : Z) d : ApiDb * option CodeTry.t :=
  match email_sign_in_codes (Auth d) !! u with
  | Some c =>
      if is_live_code c && (EmailCode.attempts c <? max_tries) then
        let n := EmailCode.attempts c + 1 in
        (set_auth (set_email_sign_in_codes <[u := EmailCode.set_attempts n c]>) d,
         Some {| CodeTry.code_hash := EmailCode.code_hash c; CodeTry.attempts := n |})
      else (d, None)
  | None => (d, None)
  end.
Definition consume_email_code u (hash : str) d : ApiDb * bool :=
  match email_sign_in_codes (Auth d) !! u with
  | Some c =>
      if bool_decide (EmailCode.code_hash c = hash) && is_live_code c then
        (set_auth (set_email_sign_in_codes <[u := EmailCode.set_used now c]>) d, true)
      else (d, false)
  | None => (d, false)
  end.
End rows.

Section routes.
Context `{UuidText} `{Sealing} `{Jwt} `{MarkText} `{Passwords} `{Totp} `{CaseFolding}.
Context (entry_id : str -> list (str * str * Event) -> str) (config : AuthConfig.t) (draw : ApiDb -> Uuid) (now : Z).
Context (by_name : list Channel.t -> list Channel.t).
Context (lower : str -> str) (draw_salt : ApiDb -> str -> Uuid) (draw_nonce : ApiDb -> bytes) (draw_secret : ApiDb -> str).
Context (draw_codes : ApiDb -> list bytes) (draw_digits : ApiDb -> Z) (draw_rows : ApiDb -> list Uuid).
Context (absent_user_hash : str) (workspace_name : Uuid -> str) (invite_page : str -> str -> result str str).
Context (ip : option str).
Implicit Types (d : ApiDb) (t : AppTables) (u : Uuid) (user : User.t) (email password code : str).

Definition audited (a : AuditAction) u (details : json) : AuditEntry.t :=
  AuditEntry.with_details details (AuditEntry.resource u (AuditEntry.new a u)).
Definition audited_from (a : AuditAction) u (details : json) : AuditEntry.t := AuditEntry.with_ip ip (audited a u details).
Definition no_details : json := JObject [].
Definition stage_json (s : string) : json := JObject [($"stage", JString (lit s))].

(** ** The first factor ([routes.rs]) *)

Definition limit_sign_in email : Api unit :=
  let window := AuthConfig.login_attempts_window_secs config in
  _ ←? check_rate_limit now ($"rate_limit:login:" ++ to_lowercase email) (AuthConfig.login_attempts_per_email config) window;
  match ip with
  | Some ip => check_rate_limit now ($"rate_limit:login_ip:" ++ ip) (AuthConfig.login_attempts_per_ip config) window
  | None => mret (Ok tt)
  end.
Definition first_factor email password : Api (Uuid * User.t) :=
  _ ←? limit_sign_in email; verify_password_only lower absent_user_hash email password.

(** ** The second factor *)

Definition decrypt_secret (e : TotpEnrolment.t) : AppResult str :=
  let s := TotpEnrolment.secret e in
  open_sealed (AuthConfig.secrets_keys config) TOTP_SECRETS (Stored.ciphertext s) (Stored.nonce s) (Stored.key_id s).
Fixpoint try_recovery_codes u candidate (hashes : list (Uuid * str)) : Api bool :=
  match hashes with
  | [] => mret (Ok false)
  | (id, hash) :: hashes =>
      if matches candidate hash then
        used ←? sql (use_recovery_code now id);
        if used : bool then _ ← record now (audited TotpRecoveryUsed u no_details); mret (Ok true)
        else try_recovery_codes u candidate hashes
      else try_recovery_codes u candidate hashes
  end.
Definition consume_recovery_code u candidate : Api bool :=
  hashes ←? query (unused_recovery_hashes u); try_recovery_codes u candidate hashes.

Definition did_not_match : AppError := Unauthorized ($"That code did not match").
(** Whether the code is the second factor of somebody who enrolled one. *)
Definition accept_code u user (e : TotpEnrolment.t) code : Api bool :=
  secret ←? mret (decrypt_secret e);
  matched ←? mret (matching_step secret (User.email user) (AuthConfig.instance_name config) code (utc_secs now));
  match matched with
  | Some step => sql (claim_step u step)
  | None => consume_recovery_code u code
  end.
Definition second_factor u user (totp_code : option str) : Api unit :=
  enrolment ←? query (find_totp u);
  count ←? query (count_passkeys u);
  let active := match enrolment with Some e => TotpEnrolment.is_active e | None => false end in
  let has_passkeys := 0 <? count in
  if AuthConfig.require_admin_totp config && User.is_instance_admin user && negb active then
    if has_passkeys then mret (Err (Conflict ($"passkey_required")))
    else refuse ($"This instance requires admins to enrol a second factor before signing in")
  else
    match enrolment with
    | Some e =>
        if active then
          match totp_code with
          | Some ((_ :: _) as code) =>
              accepted ←? accept_code u user e code;
              if accepted : bool then mret (Ok tt)
              else _ ← record now (audited TotpFailed u (stage_json "login")); mret (Err did_not_match)
          | _ => mret (Err (Conflict (if has_passkeys then $"totp_or_passkey_required" else $"totp_required")))
          end
        else mret (Ok tt)
    | None => mret (Ok tt)
    end.

Definition login email password (totp_code : option str) : Api AuthTokens.t :=
  user ←? first_factor email password;
  _ ←? second_factor user.1 user.2 totp_code;
  generate_tokens config draw now user.1 user.2.

(** ** Emailed codes ([email_code_routes.rs]) *)

Definition offered : Api bool :=
  if AuthConfig.can_send_email config then query (fun t => email_code_sign_in (auth_tables t)) else mret (Ok false).
Definition refuse_when_off : Api unit :=
  on ←? offered;
  if on : bool then mret (Ok tt) else mret (Err (BadRequest ($"Signing in with an emailed code is off on this instance"))).
Definition wrong_code : AppError := Unauthorized ($"That code is wrong or has expired").

Definition send_code u user : Api unit :=
  digits ← svc_gets draw_digits;
  let code := six_digits digits in
  hash ←? hash_password draw_salt code;
  _ ←? sql (fun d => (replace_email_code now u hash CODE_LIFETIME_MINS d, tt));
  sent ← send_sign_in_code config draw now (User.email user) code;
  match sent with
  | Err _ => mret (Ok tt)
  | Ok _ => _ ← record now (audited_from EmailCodeSent u no_details); mret (Ok tt)
  end.
Definition request_email_code email : Api unit :=
  _ ←? refuse_when_off;
  _ ←? mret (validate_email email);
  _ ←? check_rate_limit now ($"rate_limit:email_code:" ++ to_lowercase email) 5 900;
  _ ←? match ip with
       | Some ip => check_rate_limit now ($"rate_limit:email_code_ip:" ++ ip) (AuthConfig.login_attempts_per_ip config) 900
       | None => mret (Ok tt)
       end;
  found ←? query (find_by_email lower email);
  match found with
  | None => mret (Ok tt)
  | Some (u, user) =>
      match User.status user with
      | Pending => _ ← resend_invite config draw now lower workspace_name invite_page (User.email user); mret (Ok tt)
      | Suspended => mret (Ok tt)
      | Active =>
          if bool_decide (User.password_hash user = None) then _ ← send_sso_reminder config draw now (User.email user); mret (Ok tt)
          else send_code u user
      end
  end.

Definition may_use_code (p : Uuid * User.t) : bool :=
  bool_decide (User.status p.2 = Active) && bool_decide (is_Some (User.password_hash p.2)).
Definition check_code email code : Api CheckedCode.t :=
  _ ←? refuse_when_off;
  _ ←? limit_sign_in email;
  found ←? query (find_by_email lower email);
  user ←? require wrong_code (match found with Some p => if may_use_code p then Some p else None | None => None end);
  attempt ←? sql (claim_try now user.1 MAX_TRIES);
  attempt ←? require wrong_code attempt;
  if matches (trim code) (CodeTry.code_hash attempt) then
    mret (Ok {| CheckedCode.user_id := user.1; CheckedCode.user := user.2; CheckedCode.code_hash := CodeTry.code_hash attempt |})
  else
    _ ← (if MAX_TRIES <=? CodeTry.attempts attempt then record now (audited_from EmailCodeExhausted user.1 no_details) else mret tt);
    mret (Err wrong_code).
Definition spend_code (c : CheckedCode.t) (stage : string) : Api unit :=
  spent ←? sql (consume_email_code now (CheckedCode.user_id c) (CheckedCode.code_hash c));
  if negb spent then mret (Err wrong_code)
  else _ ← record now (audited_from EmailCodeUsed (CheckedCode.user_id c) (stage_json stage)); mret (Ok tt).
Definition verify_email_code email code (totp_code : option str) : Api AuthTokens.t :=
  checked ←? check_code email code;
  _ ←? second_factor (CheckedCode.user_id checked) (CheckedCode.user checked) totp_code;
  _ ←? spend_code checked "sign_in";
  generate_tokens config draw now (CheckedCode.user_id checked) (CheckedCode.user checked).

(** ** Enrolling the second factor ([totp_routes.rs]) *)

Definition user_not_found : AppError := NotFound ($"User not found").
Definition must_keep_totp u user : Api bool :=
  if negb (AuthConfig.require_admin_totp config) || negb (User.is_instance_admin user) then mret (Ok false)
  else count ←? query (count_passkeys u); mret (Ok (count =? 0)).
Definition totp_status (auth : AuthUser.t) : Api TotpStatus.t :=
  let u := AuthUser.user_id auth in
  found ←? query (find_by_id u);
  user ←? require user_not_found found;
  enrolment ←? query (find_totp u);
  remaining ←? query (fun t => Z.of_nat (length (unused_recovery_hashes u t)));
  required ←? must_keep_totp u user;
  mret (Ok {| TotpStatus.enrolled := match enrolment with Some e => TotpEnrolment.is_active e | None => false end;
              TotpStatus.recovery_codes_remaining := remaining; TotpStatus.required := required |}).
(** The secret, and the address that enrols it. *)
Definition enrol (auth : AuthUser.t) : Api (str * str) :=
  let u := AuthUser.user_id auth in
  found ←? query (find_by_id u);
  user ←? require user_not_found found;
  secret ← svc_gets draw_secret;
  nonce ← svc_gets draw_nonce;
  sealed ←? mret (seal (AuthConfig.secrets_keys config) TOTP_SECRETS nonce secret);
  _ ←? sql (fun d => (start_enrolment u sealed d, tt));
  match totp_url secret (User.email user) (AuthConfig.instance_name config) with
  | Ok url => mret (Ok (secret, url))
  | Err e => mret (Err (Internal e))
  end.
(** A code that cannot be hashed has no row. *)
Fixpoint hash_codes (salts : str -> Uuid) (codes : list str) : list str :=
  match codes with
  | [] => []
  | c :: codes => match argon2_hash (salts c) c with Some h => h :: hash_codes salts codes | None => hash_codes salts codes end
  end.
Definition confirm_enrolment (auth : AuthUser.t) code : Api (list str) :=
  let u := AuthUser.user_id auth in
  found ←? query (find_by_id u);
  user ←? require user_not_found found;
  enrolment ←? query (find_totp u);
  e ←? require (BadRequest ($"Start an enrolment first")) enrolment;
  secret ←? mret (decrypt_secret e);
  matched ←? mret (matching_step secret (User.email user) (AuthConfig.instance_name config) code (utc_secs now));
  match matched with
  | None => _ ← record now (audited_from TotpFailed u (stage_json "enrolment")); mret (Err did_not_match)
  | Some step =>
      _ ←? sql (fun d => (confirm_totp now u step d, tt));
      bytes ← svc_gets draw_codes;
      let codes := recovery_code <$> bytes in
      salts ← svc_gets draw_salt;
      ids ← svc_gets draw_rows;
      _ ←? sql (fun d => (replace_recovery_codes u (zip ids (hash_codes salts codes)) d, tt));
      _ ← record now (audited_from TotpEnrolled u no_details);
      mret (Ok codes)
  end.
Definition disable_enrolment (auth : AuthUser.t) code : Api unit :=
  let u := AuthUser.user_id auth in
  found ←? query (find_by_id u);
  user ←? require user_not_found found;
  keep ←? must_keep_totp u user;
  if keep : bool then refuse ($"This instance requires a second factor for admins")
  else
    enrolment ←? query (find_totp u);
    e ←? require (BadRequest ($"No second factor is enrolled")) enrolment;
    secret ←? mret (decrypt_secret e);
    right ←? mret (verify_totp secret (User.email user) (AuthConfig.instance_name config) code (utc_secs now));
    if negb right then mret (Err did_not_match)
    else
      _ ←? sql (fun d => (disable_totp u d, tt));
      _ ← record now (audited_from TotpDisabled u no_details);
      mret (Ok tt).

(** ** Passwords and sessions ([routes.rs]) *)

Definition refresh (cookie authorization : option str) : Api AuthTokens.t :=
  token ←? require (Unauthorized ($"No refresh token")) (match cookie with Some token => Some token | None => bearer_token authorization end);
  refresh_access_token config draw now token.
Definition logout (cookie : option str) : Api unit :=
  _ ← match cookie with Some token => service_logout config now token | None => mret (Ok tt) end; mret (Ok tt).
Definition request_password_reset email : Api unit :=
  _ ←? check_rate_limit now ($"rate_limit:forgot:" ++ to_lowercase email) 5 900;
  recovery ←? forgot_password config draw now lower email;
  match recovery with
  | Some user => _ ← resend_invite config draw now lower workspace_name invite_page (User.email user.2); mret (Ok tt)
  | None => mret (Ok tt)
  end.
Definition reset_password (token password : str) : Api unit :=
  u ←? service_reset_password config now draw_salt token password;
  revoke_sessions entry_id config draw now u SessionScope.All "password reset".
Definition change_password (auth : AuthUser.t) (current new : str) : Api unit :=
  _ ←? service_change_password draw_salt (AuthUser.user_id auth) current new;
  let scope := match AuthUser.jti auth with Some jti => SessionScope.AllExcept jti | None => SessionScope.All end in
  revoke_sessions entry_id config draw now (AuthUser.user_id auth) scope "password changed".

(** ** Registering *)

Definition open_email_invite (invite : Uuid) email : Api WorkspaceInvite.t :=
  found ←? query (find_invite_by_id invite);
  i ←? require invalid_invite found;
  _ ←? mret (ensure_live now i email);
  mret (Ok i).
Definition complete_registration (token password name : str) : Api AuthTokens.t :=
  reg ←? mret (registration_invite config now token);
  _ ←? open_email_invite (RegistrationInvite.invite_id reg) (RegistrationInvite.email reg);
  tokens ←? service_complete_registration config draw now draw_salt (RegistrationInvite.user_id reg) password name;
  redeemed ←? redeem_email_invite draw now by_name (RegistrationInvite.invite_id reg) (RegistrationInvite.user_id reg) (RegistrationInvite.email reg);
  _ ← dispatch_all entry_id now redeemed.2;
  mret (Ok tokens).
Definition accept_email_invite (auth : AuthUser.t) (token : str) : Api (Uuid * str) :=
  reg ←? mret (registration_invite config now token);
  if negb (bool_decide (RegistrationInvite.user_id reg = AuthUser.user_id auth)) then refuse ($"This invite was issued to a different address")
  else
    redeemed ←? redeem_email_invite draw now by_name (RegistrationInvite.invite_id reg) (AuthUser.user_id auth) (RegistrationInvite.email reg);
    _ ← dispatch_all entry_id now redeemed.2;
    let ws := WorkspaceInvite.workspace_id redeemed.1 in
    found ←? query (find_workspace_by_id ws);
    _ ←? require invalid_invite found;
    _ ← record now (AuditEntry.resource ws (AuditEntry.workspace ws (AuditEntry.new InviteAccepted (AuthUser.user_id auth))));
    mret (Ok (ws, workspace_name ws)).

(** ** Suspending ([admin/routes.rs], [scim/service.rs]) *)

Definition set_user_status (s : UserStatus) u : Api unit := sql (fun d => (with_app (set_users (alter (User.set_status s) u)) d, tt)).
Definition delete_user_connections u : Api unit := auth_write (set_app_connections (filter (fun k : Uuid * Uuid * str => k.1.2 <> u))).
Definition acted_on (a : AuditAction) (actor u : Uuid) (details : json) : AuditEntry.t :=
  AuditEntry.with_details details (AuditEntry.with_ip ip (AuditEntry.resource u (AuditEntry.new a actor))).
Definition suspend_user (auth : AuthUser.t) u : Api unit :=
  _ ←? set_user_status Suspended u;
  _ ←? revoke_sessions entry_id config draw now u SessionScope.All "account suspended";
  _ ←? delete_user_connections u;
  _ ← stand_down None u Inactive;
  id ← svc_gets draw;
  _ ← publish entry_id now id ($"user.suspended") (JObject [uuid_field "user_id" u]);
  _ ← record now (acted_on UserSuspended (AuthUser.user_id auth) u no_details);
  mret (Ok tt).
Definition activate_user (auth : AuthUser.t) u : Api unit :=
  _ ←? sql (fun d => (with_app (reactivated u) d, tt));
  _ ← restore_sessions u;
  _ ← record now (acted_on UserActivated (AuthUser.user_id auth) u no_details);
  mret (Ok tt).
Definition update_instance_role (auth : AuthUser.t) u (admin : bool) : Api bool :=
  _ ←? sql (fun d => (with_app (set_users (alter (User.set_admin admin) u)) d, tt));
  _ ← record now (acted_on InstanceRoleChanged (AuthUser.user_id auth) u (JObject [($"is_instance_admin", JBool admin)]));
  mret (Ok admin).
End routes.
