(* ===== verification/SessionLaws.v ===== *)
(** * What holds of sessions
    ([backend/api/src/{sessions,middleware}.rs], [auth/service/tokens.rs])

    Who was signed out stays out, whatever fails meanwhile; and what two
    requests at once, or an administrator who changes their mind, leave open. *)

From stdpp Require Import base tactics option numbers list gmap.
From Stdlib Require Import ZArith Lia String Ascii.
From S2P Require Import Prelude RustStr Json Errors Frames Publisher ListForms Sealed SessionKeys AuthStore NoticeStore Mentions ApiState Outbox AuditLog Tables Authz Membership ApiLaws Mail Sessions SignIn SignInRoutes.

Abbreviation Refreshes d := (refresh_tokens (Auth d)).
Abbreviation Marks d := (redis_values (Auth d)).

Lemma auth_set f d : Auth (set_auth f d) = f (Auth d).
Proof. unfold set_auth. cbn. by destruct (app d). Qed.
Lemma users_set_auth f d : users (app (set_auth f d)) = users (app d).
Proof. unfold set_auth. cbn. by destruct (app d). Qed.
Lemma refreshes_set f a : refresh_tokens (set_refresh_tokens f a) = f (refresh_tokens a).
Proof. by destruct a. Qed.
Lemma refreshes_values f a : refresh_tokens (set_redis_values f a) = refresh_tokens a.
Proof. by destruct a. Qed.
Lemma values_set f a : redis_values (set_redis_values f a) = f (redis_values a).
Proof. by destruct a. Qed.
Lemma values_refreshes f a : redis_values (set_refresh_tokens f a) = redis_values a.
Proof. by destruct a. Qed.
Create HintDb auth.
#[export] Hint Rewrite auth_set users_set_auth refreshes_set refreshes_values values_set values_refreshes : auth.

(** Calls nothing interferes with. *)
Lemma sql_undisturbed {A} (op : ApiDb -> ApiDb * A) d : sql op (undisturbed d) = (Ok (op d).2, undisturbed (op d).1).
Proof. unfold sql. rewrite svc_bind_eq, svc_call_quiet by done. reflexivity. Qed.
Lemma auth_write_undisturbed f d : auth_write f (undisturbed d) = (Ok tt, undisturbed (set_auth f d)).
Proof. apply sql_undisturbed. Qed.
Lemma svc_write_undisturbed f d : svc_write f (undisturbed d : SvcWorld ApiDb) = (Ok tt, undisturbed (f d)).
Proof. unfold svc_write. by rewrite svc_call_quiet. Qed.
Lemma transaction_undisturbed {A} (m : Tx ApiDb A) d : transaction m (undisturbed d) =
  ((m d).1, undisturbed (match (m d).1 with Ok _ => (m d).2 | Err _ => d end)).
Proof. rewrite transaction_quiet by done. cbn. by destruct (m d) as [[]]. Qed.
Lemma require_eq {A} e (o : option A) (w : SvcWorld ApiDb) : require e o w = (ok_or e o, w).
Proof. done. Qed.

Section sessions.
Context `{UuidTextLaws} `{Sealing} `{JwtLaws} `{MarkTextLaws}.
Context (entry_id : str -> list (str * str * Event) -> str) (config : AuthConfig.t) (draw : ApiDb -> Uuid) (now : Z).
Context (raw_keys : str) (Hkeys : parse_signing raw_keys = Ok (AuthConfig.jwt_keys config)).
Implicit Types (d : ApiDb) (w : SvcWorld ApiDb) (u : Uuid) (token : str) (c : SessionClaims.t).

(** ** Tokens of the instance *)

Abbreviation issued c token := (encode_session (AuthConfig.jwt_keys config) c = Some token).

Lemma verify_issued at_ c token : issued c token ->
  (forall c', verify_token config at_ token = Ok c' -> c' = c /\ utc_secs at_ <= SessionClaims.exp c + JWT_LEEWAY) /\
  (utc_secs at_ <= SessionClaims.exp c -> verify_token config at_ token = Ok c).
Proof.
  intros E. pose proof (parse_signing_current _ _ Hkeys) as (public & Hp & Hv). unfold encode_session in E.
  assert (Ed : decode_session (SigningKeys.verifying (AuthConfig.jwt_keys config)) (utc_secs at_) token = jwt_decode public (utc_secs at_) token).
  { unfold decode_session. rewrite (decode_header_encode _ _ _ _ E). cbn. by rewrite Hv. }
  unfold verify_token. rewrite Ed. split.
  - intros c' Hc%ok_or_Ok. split; [by eapply jwt_decode_only|]. destruct (decide (utc_secs at_ <= SessionClaims.exp c + JWT_LEEWAY)) as [|Hlt]; [done|].
    erewrite jwt_decode_expired in Hc; [done|exact E|exact Hp|lia].
  - intros Hle. by erewrite jwt_decode_encode.
Qed.

(** ** Marks *)

(** What a mark says at a time. *)
Definition mark_says (at_ : Z) (entry : option (str * Z)) c : SessionState :=
  match entry with
  | Some (v, expires) => if at_ <? expires then decide_mark c v else SessionValid
  | None => SessionValid
  end.
(** The mark of a person stays, and a session that is gone does not come back. *)
Definition undone u (hash : str) : relation ApiDb := fun d d' =>
  Marks d' !! mark_key u = Marks d !! mark_key u /\ (Refreshes d !! hash = None -> Refreshes d' !! hash = None).
#[export] Instance undone_preorder u hash : PreOrder (undone u hash).
Proof. split; [done|]. intros d1 d2 d3 [] []. split; [congruence|auto]. Qed.

Lemma svc_read_rely {A} (Rel : relation ApiDb) (q : ApiDb -> A) w : PreOrder Rel -> rely Rel w -> exists r w', svc_read q w = (r, w') /\
  rely Rel w' /\ Rel (shared w) (shared w') /\ (r = Ok (q (shared w')) \/ exists f, r = Err f).
Proof.
  intros HR Hw. unfold svc_read, svc_call, rely in *. destruct (agenda w) as [|t s].
  - do 2 eexists. split; [done|]. split; [by constructor|]. split; [reflexivity|by left].
  - apply Forall_cons in Hw as [Ht Hs]. specialize (Ht (shared w)). destruct (call_fault t) as [[]|]; do 2 eexists; (split; [done|]); eauto.
Qed.

Lemma lookup_mark_says at_ hash n c w : rely (undone (SessionClaims.sub c) hash) w -> exists s w', lookup_mark at_ n c w = (s, w') /\
  rely (undone (SessionClaims.sub c) hash) w' /\ undone (SessionClaims.sub c) hash (shared w) (shared w') /\
  (s = SessionUnknown \/ s = mark_says at_ (Marks (shared w) !! mark_key (SessionClaims.sub c)) c).
Proof.
  revert w. induction n as [|n IH]; intros w Hw; cbn [lookup_mark]; [do 2 eexists; split; [done|]; split; [done|]; split; [reflexivity|by left]|].
  rewrite svc_bind_eq. destruct (svc_read_rely (undone (SessionClaims.sub c) hash) (redis_value at_ (mark_key (SessionClaims.sub c))) w _ Hw) as (r & w1 & -> & Hw1 & Hu1 & Hr).
  cbn [fst snd]. destruct Hr as [-> | [f ->]].
  - exists (mark_says at_ (Marks (shared w) !! mark_key (SessionClaims.sub c)) c), w1. pose proof (proj1 Hu1) as Hm.
    split; [|split; [done|]; split; [done|by right]]. unfold redis_value. rewrite Hm. destruct (Marks (shared w) !! _) as [[v e]|]; [|done]. cbn. by destruct (at_ <? e).
  - destruct (IH w1 Hw1) as (s & w' & E & Hw' & Hu' & Hs). exists s, w'. split; [exact E|]. split; [done|]. split; [by etransitivity|].
    by rewrite <-(proj1 Hu1).
Qed.

(** ** Requests *)

(** The token a request carries. *)
Definition carries (cookies authorization : option str) token : Prop :=
  match extract_cookie_token cookies with Some token => Some token | None => bearer_token authorization end = Some token.

Lemma middleware_issued at_ hash cookies authorization c token w : issued c token -> carries cookies authorization token ->
  starts_with TOKEN_PREFIX token = false -> rely (undone (SessionClaims.sub c) hash) w ->
  exists r w', auth_middleware config at_ cookies authorization w = (r, w') /\
  (forall a, r = Ok a -> utc_secs at_ <= SessionClaims.exp c + JWT_LEEWAY /\
     mark_says at_ (Marks (shared w) !! mark_key (SessionClaims.sub c)) c = SessionValid).
Proof.
  intros Hi Hc Hp Hw. unfold auth_middleware, carries in *. rewrite Hc. unfold require. cbn [ok_or]. rewrite and_then_eq. cbn [fst snd mret Svc_ret].
  rewrite Hp.
  destruct (verify_issued at_ c token Hi) as [Hv _]. rewrite and_then_eq. cbn [mret Svc_ret fst snd].
  destruct (verify_token config at_ token) as [c'|e]; [|by do 2 eexists]. destruct (Hv _ eq_refl) as [-> Hexp].
  destruct (str_eqb _ _); [|by do 2 eexists]. cbn [negb]. rewrite svc_bind_eq. unfold session_state.
  destruct (lookup_mark_says at_ hash (S API_REVOCATION_RETRIES) c w Hw) as (s & w' & -> & _ & _ & Hs). cbn [fst snd].
  destruct s; do 2 eexists; (split; [reflexivity|]); try done. intros a _. split; [done|]. by destruct Hs.
Qed.

(** ** Revoking *)

Lemma publish_alone id ty payload d : exists r d', publish entry_id now id ty payload (undisturbed d) = (r, undisturbed d') /\ app d' = app d.
Proof.
  unfold publish, emit, append_durable. rewrite and_then_eq. cbn [mret Svc_ret fst snd]. rewrite svc_bind_eq. unfold svc_write.
  rewrite svc_call_quiet by done. cbn. do 2 eexists. split; [reflexivity|done].
Qed.

Definition revoked_rows (scope : SessionScope.t) u : gmap str RefreshToken.t -> gmap str RefreshToken.t :=
  filter (fun p => RefreshToken.user_id p.2 <> u \/ uuid_to_string <$> SessionScope.survivor scope = Some p.1).

Lemma revoke_alone u scope reason d : 0 < mark_ttl config -> exists d',
  revoke_sessions entry_id config draw now u scope reason (undisturbed d) = (Ok tt, undisturbed d') /\
  Marks d' = <[mark_key u := (mark_to_string (revocation_mark now scope), now + mark_ttl config * SECOND)]> (Marks d) /\
  Refreshes d' = revoked_rows scope u (Refreshes d) /\ users (app d') = users (app d).
Proof.
  intros Httl. unfold revoke_sessions. rewrite svc_bind_eq, auth_write_undisturbed. cbn [fst snd].
  rewrite svc_bind_eq, svc_write_undisturbed. cbn [fst snd]. rewrite svc_bind_eq. unfold svc_gets. cbn [fst snd]. rewrite svc_bind_eq.
  match goal with |- context [set_value ?n ?a ?b ?c ?e] => set (d1 := set_value n a b c e) end.
  match goal with |- context [publish entry_id now ?id ?ty ?p] => destruct (publish_alone id ty p d1) as (r & d2 & -> & E2) end.
  exists d2. split; [reflexivity|]. rewrite E2. subst d1. unfold set_value. rewrite (proj2 (Z.ltb_lt _ _)) by done.
  destruct (SessionScope.survivor scope) as [jti|] eqn:Es; unfold delete_user_refresh_tokens_except, delete_user_refresh_tokens;
    autorewrite with auth; (split; [done|]; split; [|done]); unfold revoked_rows; apply map_filter_ext; intros k row _; cbn; rewrite Es; cbn; naive_solver.
Qed.

(** ** Refreshing *)

Lemma query_rely {A} (Rel : relation ApiDb) (q : AppTables -> A) w : PreOrder Rel -> rely Rel w -> exists r w', query q w = (r, w') /\
  rely Rel w' /\ Rel (shared w) (shared w') /\ (r = Ok (q (app (shared w'))) \/ exists e, r = Err e).
Proof.
  intros HR Hw. destruct (svc_read_rely Rel (fun d => q (app d)) w HR Hw) as (r & w' & E & Hw' & Hu & Hr).
  unfold query, sql_read, sql. unfold svc_read in E. rewrite svc_bind_eq, E. cbn [fst snd].
  destruct Hr as [-> | [f ->]]; do 2 eexists; (split; [reflexivity|]); split_and!; try done; [by left|right; by eexists].
Qed.

(** A refresh token without a row is not refreshed. *)
Lemma refresh_gone at_ u c token jti w : issued c token -> SessionClaims.jti c = Some jti -> rely (undone u (uuid_to_string jti)) w ->
  Refreshes (shared w) !! uuid_to_string jti = None -> forall a, (refresh_access_token config draw at_ token w).1 <> Ok a.
Proof.
  intros Hi Hj Hw Hn a. unfold refresh_access_token. rewrite and_then_eq. cbn [mret Svc_ret fst snd].
  destruct (verify_issued at_ c token Hi) as [Hv _]. destruct (verify_token config at_ token) as [c'|e]; [|done].
  destruct (Hv _ eq_refl) as [-> _]. destruct (str_eqb _ _); [|done]. cbn [negb]. rewrite and_then_eq, require_eq, Hj. cbn [ok_or fst snd].
  rewrite and_then_eq. destruct (query_rely _ (find_refresh_token at_ (uuid_to_string jti)) w _ Hw) as (r & w' & -> & _ & [_ Hu] & Hr). cbn [fst snd].
  destruct Hr as [-> | [e ->]]; [|done]. unfold find_refresh_token. rewrite (Hu Hn). cbn. by rewrite and_then_eq.
Qed.

End sessions.

(** ** An instance *)

Module SampleAuth.
#[export] Existing Instances SampleMentions.unary SampleMentions.unary_laws SampleSecrets.marking SampleSecrets.marking_laws.
(** A token is its parts one after another, a text after its length. *)
Definition put_str (s rest : str) : str := Z.of_nat (length s) :: s ++ rest.
Definition take_str (l : str) : option (str * str) := match l with n :: l => Some (firstn (Z.to_nat n) l, skipn (Z.to_nat n) l) | [] => None end.
Definition put_id (o : option Uuid) (rest : str) : str := match o with None => 0 :: rest | Some u => 1 :: Z.of_N u :: rest end.
Definition take_id (l : str) : option (option Uuid * str) :=
  match l with 1 :: u :: l => Some (Some (Z.to_N u), l) | _ :: l => Some (None, l) | [] => None end.
Lemma take_put_str s rest : take_str (put_str s rest) = Some (s, rest).
Proof. cbn. by rewrite Nat2Z.id, firstn_app, Nat.sub_diag, firstn_all, app_nil_r, skipn_app, skipn_all, Nat.sub_diag. Qed.
Lemma take_put_id o rest : take_id (put_id o rest) = Some (o, rest).
Proof. destruct o; cbn; [by rewrite N2Z.id|done]. Qed.
Definition token_of (h : JwtHeader.t) (key : bytes) (c : SessionClaims.t) : str :=
  (match JwtHeader.alg h with EdDSA => 1 | OtherAlgorithm => 0 end) ::
  (match JwtHeader.kid h with None => put_str [] | Some k => put_str (0 :: k) end) (put_str key
  (Z.of_N (SessionClaims.sub c) :: put_str (SessionClaims.email c)
  (Z.b2z (SessionClaims.is_instance_admin c) :: SessionClaims.iat c :: SessionClaims.exp c :: put_id (SessionClaims.jti c)
  (put_str (SessionClaims.token_type c) (put_id (SessionClaims.invite_id c) []))))).
Definition parts_of (token : str) : option (JwtHeader.t * bytes * SessionClaims.t) :=
  match token with
  | a :: l =>
      '(k, l) ← take_str l; '(key, l) ← take_str l;
      match l with
      | u :: l =>
          '(email, l) ← take_str l;
          match l with
          | admin :: iat :: exp :: l =>
              '(jti, l) ← take_id l; '(ty, l) ← take_str l; '(invite, _) ← take_id l;
              Some ({| JwtHeader.alg := if a =? 1 then EdDSA else OtherAlgorithm; JwtHeader.kid := match k with [] => None | _ :: k => Some k end |}, key,
                {| SessionClaims.sub := Z.to_N u; SessionClaims.email := email; SessionClaims.is_instance_admin := admin =? 1;
                   SessionClaims.iat := iat; SessionClaims.exp := exp; SessionClaims.jti := jti; SessionClaims.token_type := ty;
                   SessionClaims.invite_id := invite |})
          | _ => None
          end
      | [] => None
      end
  | [] => None
  end.
Lemma parts_of_token h key c : parts_of (token_of h key c) = Some (h, key, c).
Proof.
  destruct h as [a k], c as [u email admin iat exp jti ty invite]. unfold token_of, parts_of.
  cbn [JwtHeader.alg JwtHeader.kid SessionClaims.sub SessionClaims.email SessionClaims.is_instance_admin SessionClaims.iat SessionClaims.exp
    SessionClaims.jti SessionClaims.token_type SessionClaims.invite_id].
  destruct k as [k|]; rewrite take_put_str; cbn [mbind option_bind]; rewrite take_put_str; cbn [mbind option_bind]; rewrite take_put_str;
    cbn [mbind option_bind]; rewrite take_put_id; cbn [mbind option_bind]; rewrite take_put_str; cbn [mbind option_bind];
    rewrite take_put_id; cbn [mbind option_bind]; rewrite N2Z.id; destruct a, admin; done.
Qed.
#[export] Instance jwt : Jwt := {|
  ed25519_public := fun key => if Z.of_nat (length key) =? 32 then Some key else None;
  decode_header := fun token => '(h, _, _) ← parts_of token; Some h;
  jwt_encode := fun h c key => Some (token_of h key c);
  jwt_decode := fun public now token => '(_, key, c) ← parts_of token;
    if bool_decide (key = public) && (now <=? SessionClaims.exp c + JWT_LEEWAY) then Some c else None;
  base64_encode := fun b => b;
|}.
#[export] Instance jwt_laws : JwtLaws jwt.
Proof.
  split; cbn.
  - intros h c key token [= <-]. by rewrite parts_of_token.
  - intros h c key public token now [= <-] Hp Hle. rewrite parts_of_token. cbn. destruct (_ =? _); [|done]. injection Hp as <-.
    rewrite bool_decide_eq_true_2 by done. cbn. by rewrite (proj2 (Z.leb_le _ _)) by (unfold JWT_LEEWAY; lia).
  - intros h c c' key public token now [= <-] Hp. rewrite parts_of_token. cbn. destruct (bool_decide _ && _); [by intros [= ->]|done].
  - intros h c key public token now [= <-] Hp Hlt. rewrite parts_of_token. cbn.
    rewrite (proj2 (Z.leb_gt _ _)) by (unfold JWT_LEEWAY in *; lia). by rewrite andb_false_r.
Qed.
#[export] Instance mark_text : MarkText := {|
  mark_to_string := fun r => match RevocationMark.except_jti r with None => [RevocationMark.at_ r] | Some j => [RevocationMark.at_ r; Z.of_N j] end;
  mark_from_str := fun s => match s with
    | [a] => Some {| RevocationMark.at_ := a; RevocationMark.except_jti := None |}
    | [a; j] => Some {| RevocationMark.at_ := a; RevocationMark.except_jti := Some (Z.to_N j) |}
    | _ => None end;
|}.
#[export] Instance mark_text_laws : MarkTextLaws mark_text.
Proof. split. intros [a [j|]]; cbn; [by rewrite N2Z.id|done]. Qed.
#[export] Instance passwords : Passwords := {|
  argon2_hash := fun salt p => Some (Z.of_N salt :: p);
  argon2_verifier := fun h => match h with _ :: p => Some (fun q => str_eqb q p) | [] => None end;
|}.
#[export] Instance passwords_laws : PasswordsLaws passwords.
Proof. split. intros salt p h [= <-]. eexists. split; [done|]. unfold str_eqb. by rewrite bool_decide_eq_true_2. Qed.
#[export] Instance folding : CaseFolding := {| to_lowercase := fun s => s |}.

Definition raw_keys : str := $"a:0123456789abcdef0123456789abcdef".
Definition keys : SigningKeys.t := {|
  SigningKeys.current := $"a"; SigningKeys.encoding := $"0123456789abcdef0123456789abcdef";
  SigningKeys.verifying := from_public [($"a", $"0123456789abcdef0123456789abcdef")] |}.
Lemma keys_parsed : parse_signing raw_keys = Ok keys.
Proof. vm_compute. reflexivity. Qed.
Definition config : AuthConfig.t := {|
  AuthConfig.jwt_keys := keys; AuthConfig.secrets_keys := SampleSecrets.ring; AuthConfig.access_token_expiry := 900;
  AuthConfig.refresh_token_expiry := 604800; AuthConfig.require_admin_totp := false; AuthConfig.instance_name := $"Chat";
  AuthConfig.public_url := $"https://chat.example.com"; AuthConfig.login_attempts_per_email := 10; AuthConfig.login_attempts_per_ip := 30;
  AuthConfig.login_attempts_window_secs := 900; AuthConfig.can_send_email := true; AuthConfig.write_rate_limit_multiplier := 1;
  AuthConfig.admin_email := None; AuthConfig.admin_password := None |}.

(** Ana has an account and a password. *)
Definition password : str := $"correct horse".
Definition ana : User.t :=
  {| User.email := $"ana@example.com"; User.display_name := None; User.status := Active; User.is_bot := false; User.timezone := None;
     User.password_hash := Some (7 :: password); User.is_instance_admin := true |}.
Definition db : ApiDb := with_app (set_users (fun _ => {[1%N := ana]})) Authz.SampleTables.db.
Definition SEC : Z := 1000000.
(** With the identifier of the session that is drawn. *)
Definition session (at_ : Z) (jti : Uuid) (d : ApiDb) : AppResult AuthTokens.t * SvcWorld ApiDb :=
  generate_tokens config (fun _ => jti) (at_ * SEC) 1%N ana (undisturbed d).
Definition tokens_in (r : AppResult AuthTokens.t) : str * str :=
  match r with Ok t => (AuthTokens.access_token t, AuthTokens.refresh_token t) | Err _ => ([], []) end.
Definition db1 : ApiDb := shared (session 100 10 db).2.
Definition first_session : str * str := tokens_in (session 100 10 db).1.
Definition quiet : SvcTick ApiDb := {| others := id; call_fault := None |}.
(** Others do this before the last of the calls of a refresh. *)
Definition before_the_last (f : ApiDb -> ApiDb) (d : ApiDb) : SvcWorld ApiDb :=
  {| shared := d; agenda := [quiet; quiet; {| others := f; call_fault := None |}] |}.
Definition refresh_at (at_ : Z) (jti : Uuid) (token : str) (w : SvcWorld ApiDb) : AppResult AuthTokens.t * SvcWorld ApiDb :=
  refresh_access_token config (fun _ => jti) (at_ * SEC) token w.
Definition revoke_at (at_ : Z) (d : ApiDb) : ApiDb :=
  shared (revoke_sessions Outbox.SampleOutbox.entry_id config (fun _ => 50%N) (at_ * SEC) 1%N SessionScope.All "password reset" (undisturbed d)).2.
Definition admitted (at_ : Z) (token : str) (d : ApiDb) : bool :=
  is_ok (auth_middleware config (at_ * SEC) None (Some ($"Bearer " ++ token)) (undisturbed d)).1.
Definition somebody : AuthUser.t :=
  {| AuthUser.user_id := 2%N; AuthUser.is_instance_admin := true; AuthUser.jti := None; AuthUser.bot := None |}.
End SampleAuth.
Import SampleAuth.

(** A refresh token is used twice.  Two refreshes at once both find the row of
    the token, and each leaves a session of its own. *)
Theorem a_refresh_token_is_used_twice :
  let other d := shared (refresh_at 200 12 first_session.2 (undisturbed d)).2 in
  let '(r, w) := refresh_at 200 11 first_session.2 (before_the_last other db1) in
  is_ok r = true /\ size (Refreshes db1) = 1%nat /\ size (Refreshes (shared w)) = 2%nat /\
  is_ok (refresh_at 200 13 first_session.2 (undisturbed (shared w))).1 = false.
Proof. vm_compute. done. Qed.

(** A refresh outlives a password reset.  One under way while the sessions are
    revoked puts a row back, so that whoever holds the old refresh token is let
    in from the next second on, and refreshes for as long as they like. *)
Theorem a_refresh_outlives_a_revocation :
  let '(r, w) := refresh_at 200 11 first_session.2 (before_the_last (revoke_at 200) db1) in
  let again := refresh_at 201 12 (tokens_in r).2 (undisturbed (shared w)) in
  admitted 200 (tokens_in r).1 (shared w) = false /\
  is_ok again.1 = true /\ admitted 202 (tokens_in again.1).1 (shared again.2) = true.
Proof. vm_compute. done. Qed.

(** Activating an account lets the sessions of before its suspension in again:
    it deletes the mark, and with it whatever else the mark revoked. *)
Theorem activating_lets_revoked_sessions_in :
  let suspended := revoke_at 200 db1 in
  let activated := shared (activate_user (300 * SEC) None somebody 1%N (undisturbed suspended)).2 in
  admitted 299 first_session.1 suspended = false /\ admitted 301 first_session.1 activated = true.
Proof. vm_compute. done. Qed.

(** Who is no instance admin any more passes for one until their access token
    expires: what the token claims is believed. *)
Theorem a_demoted_admin_passes_for_one :
  let demoted := shared (update_instance_role (200 * SEC) None somebody 1%N false (undisturbed db1)).2 in
  User.is_instance_admin <$> users (app demoted) !! 1%N = Some false /\
  match (auth_middleware config (300 * SEC) None (Some ($"Bearer " ++ first_session.1)) (undisturbed demoted)).1 with
  | Ok auth => admin_middleware auth = Ok tt
  | Err _ => False
  end.
Proof. vm_compute. done. Qed.

