(* ===== verification/SignInLaws.v ===== *)
(** * What holds of signing in
    ([backend/api/src/auth/{routes,totp_routes,totp_repo,email_code_routes,
    email_code_repo}.rs])

    Nobody is let in on less than every factor they have; what was used as a
    second factor is not used again; an emailed code takes five guesses; and
    asking for a way in tells nothing about who has an account. *)

From stdpp Require Import base tactics option numbers list gmap sorting.
From Stdlib Require Import ZArith Lia String Ascii.
From S2P Require Import Prelude RustStr Json Errors Frames Publisher Validation ListForms Sealed SessionKeys AuthStore NoticeStore Mentions ApiState Outbox AuditLog Tables Authz Membership ApiLaws Mail Sessions SignIn SignInRoutes SessionLaws.

Abbreviation Enrolments d := (user_totp (Auth d)).
Abbreviation RecoveryCodes d := (totp_recovery_codes (Auth d)).
Abbreviation EmailCodes d := (email_sign_in_codes (Auth d)).

Lemma totp_set f a : user_totp (set_user_totp f a) = f (user_totp a).
Proof. by destruct a. Qed.
Lemma totp_codes f a : user_totp (set_totp_recovery_codes f a) = user_totp a.
Proof. by destruct a. Qed.
Lemma codes_set f a : totp_recovery_codes (set_totp_recovery_codes f a) = f (totp_recovery_codes a).
Proof. by destruct a. Qed.
Lemma codes_totp f a : totp_recovery_codes (set_user_totp f a) = totp_recovery_codes a.
Proof. by destruct a. Qed.
Lemma email_codes_set f a : email_sign_in_codes (set_email_sign_in_codes f a) = f (email_sign_in_codes a).
Proof. by destruct a. Qed.
#[export] Hint Rewrite totp_set totp_codes codes_set codes_totp email_codes_set : auth.

(** ** Guesses *)

(** What is gathered of two strings is nothing if they are the same. *)
Lemma gathered_differences (l : list (Z * Z)) acc :
  foldl (fun acc p => Z.lor acc (Z.lxor p.1 p.2)) acc l = 0 <-> acc = 0 /\ Forall (fun p => p.1 = p.2) l.
Proof.
  revert acc. induction l as [|[x y] l IH]; intros acc; cbn [foldl].
  - split; [by intros ->|by intros []].
  - rewrite IH, Z.lor_eq_0_iff, Z.lxor_eq_0_iff, Forall_cons. cbn. tauto.
Qed.
Lemma zip_same {A} (l k : list A) : length l = length k -> Forall (fun p => p.1 = p.2) (zip l k) -> l = k.
Proof.
  revert k. induction l as [|x l IH]; intros [|y k] Hlen; try done. cbn. intros [Hxy Hl]%Forall_cons. cbn in Hxy.
  f_equal; [done|]. apply IH; [by injection Hlen|done].
Qed.
Lemma same_zip {A} (l : list A) : Forall (fun p => p.1 = p.2) (zip l l).
Proof. by induction l; constructor. Qed.

(** Comparing every byte is comparing. *)
Lemma codes_match_spec a b : Forall is_char a -> Forall is_char b -> codes_match a b = true <-> a = b.
Proof.
  intros Ha Hb. unfold codes_match. rewrite andb_true_iff, bool_decide_eq_true, Z.eqb_eq, gathered_differences. split.
  - intros (Hlen & _ & Hall). pose proof (zip_same _ _ Hlen Hall) as E.
    pose proof (from_utf8_as_bytes a Ha) as H. rewrite E, (from_utf8_as_bytes b Hb) in H. by injection H.
  - intros ->. split; [done|]. split; [done|]. apply same_zip.
Qed.

(** ** What was used is spent *)

(** What requests do to second factors, one transaction after another, however
    the requests are interleaved: codes are accepted, and factors are enrolled,
    confirmed, given recovery codes and taken off ([totp_repo.rs]). *)
Inductive FactorStep :=
| ClaimsStep (u : Uuid) (step : Z)
| UsesCode (now : Z) (id : Uuid)
| Enrols (u : Uuid) (s : Sealed.t)
| Confirms (now : Z) (u : Uuid) (step : Z)
| GivesCodes (u : Uuid) (rows : list (Uuid * str))
| TakesOff (u : Uuid)
| ElseFactor (f : ApiDb -> ApiDb).

Definition factor_step (s : FactorStep) (d : ApiDb) : ApiDb * bool :=
  match s with
  | ClaimsStep u step => claim_step u step d
  | UsesCode now id => use_recovery_code now id d
  | Enrols u s => (start_enrolment u s d, false)
  | Confirms now u step => (confirm_totp now u step d, false)
  | GivesCodes u rows => (replace_recovery_codes u rows d, false)
  | TakesOff u => (disable_totp u d, false)
  | ElseFactor f => (f d, false)
  end.
(** The steps of somebody's codes that were accepted, the recovery codes that
    were, and the recovery codes that were given out. *)
Fixpoint steps_accepted (u : Uuid) (ss : list FactorStep) (d : ApiDb) : list Z :=
  match ss with
  | [] => []
  | s :: ss =>
      let '(d', accepted) := factor_step s d in
      match s with
      | ClaimsStep v step => if accepted && bool_decide (v = u) then [step] else []
      | _ => []
      end ++ steps_accepted u ss d'
  end.
Fixpoint codes_accepted (ss : list FactorStep) (d : ApiDb) : list Uuid :=
  match ss with
  | [] => []
  | s :: ss =>
      let '(d', accepted) := factor_step s d in
      match s with UsesCode _ id => if accepted then [id] else [] | _ => [] end ++ codes_accepted ss d'
  end.
Definition codes_given (ss : list FactorStep) : list Uuid :=
  ss ≫= fun s => match s with GivesCodes _ rows => rows.*1 | _ => [] end.

Section spent.
Implicit Types (d : ApiDb) (u id : Uuid).

Definition last_step u d : option Z := Enrolments d !! u ≫= TotpEnrolment.last_used_step.
Definition after_last (last : option Z) (step : Z) : Prop := match last with None => True | Some l => l < step end.
Definition usable id d : Prop := exists c, RecoveryCodes d !! id = Some c /\ RecoveryCode.used_at c = None.

(** What neither changes the last step of anybody nor makes a recovery code
    usable, as the pass that seals the secrets again. *)
Definition factors_kept : relation ApiDb := fun d d' =>
  (forall u, last_step u d' = last_step u d) /\ forall id, usable id d' -> usable id d.
#[export] Instance factors_kept_preorder : PreOrder factors_kept.
Proof. split; [done|]. intros d1 d2 d3 [E1 H1] [E2 H2]. split; [congruence|eauto]. Qed.
Definition kept_by (s : FactorStep) : Prop := match s with ElseFactor f => forall d, factors_kept d (f d) | _ => True end.
(** Not of those that replace, confirm or delete the enrolment of somebody. *)
Definition enrolment_stays u (s : FactorStep) : Prop :=
  match s with Enrols v _ | Confirms _ v _ | TakesOff v => v <> u | _ => True end.

Lemma claim_step_last u v step d : let '(d', ok) := claim_step v step d in
  RecoveryCodes d' = RecoveryCodes d /\
  (ok && bool_decide (v = u) = true -> after_last (last_step u d) step /\ last_step u d' = Some step) /\
  (ok && bool_decide (v = u) = false -> last_step u d' = last_step u d).
Proof.
  unfold claim_step, last_step. destruct (Enrolments d !! v) as [e|] eqn:Ev; [|done]. destruct (is_newer_step step e) eqn:En; [|done].
  autorewrite with auth. split; [done|]. case_bool_decide as Hv; cbn [andb].
  - subst v. split; [|done]. intros _. rewrite lookup_insert_eq, Ev. cbn. split; [|done]. unfold is_newer_step in En.
    destruct (TotpEnrolment.last_used_step e); cbn; [by apply Z.ltb_lt|done].
  - split; [done|]. intros _. by rewrite lookup_insert_ne.
Qed.
Lemma use_code_spent now id d : let '(d', ok) := use_recovery_code now id d in
  Enrolments d' = Enrolments d /\
  (ok = true -> usable id d /\ forall id', usable id' d' -> usable id' d /\ id' <> id) /\ (ok = false -> d' = d).
Proof.
  unfold use_recovery_code, usable. destruct (RecoveryCodes d !! id) as [c|] eqn:Ec; [|done]. destruct (RecoveryCode.used_at c) eqn:Eu; [done|].
  autorewrite with auth. split; [done|]. split; [|done]. intros _. split; [by exists c|]. intros id' (c' & Hc & Hu).
  apply lookup_insert_Some in Hc as [[_ <-]|[Hne Hc]]; [done|]. split; [by exists c'|done].
Qed.

(** What the requests that set a factor up do to the last step of others. *)
Lemma set_up_last u s d : kept_by s -> enrolment_stays u s ->
  match s with ClaimsStep _ _ => True | _ => last_step u (factor_step s d).1 = last_step u d end.
Proof.
  destruct s as [v step|now id|v s|now v step|v rows|v|f]; cbn [kept_by enrolment_stays factor_step fst]; intros Hk Hu; [done| | | | | |by apply Hk].
  - pose proof (use_code_spent now id d) as H. destruct (use_recovery_code now id d) as [d' ok]. cbn [fst]. unfold last_step. by rewrite (proj1 H).
  - unfold last_step, start_enrolment. autorewrite with auth. by rewrite lookup_insert_ne.
  - unfold last_step, confirm_totp. autorewrite with auth. by rewrite lookup_alter_ne.
  - unfold last_step, replace_recovery_codes. by autorewrite with auth.
  - unfold last_step, disable_totp. autorewrite with auth. by rewrite lookup_delete_ne.
Qed.
Lemma steps_accepted_sorted u ss d : Forall kept_by ss -> Forall (enrolment_stays u) ss ->
  StronglySorted Z.lt (steps_accepted u ss d) /\ Forall (after_last (last_step u d)) (steps_accepted u ss d).
Proof.
  intros Hk. revert d. induction Hk as [|s ss Hs _ IH]; intros d Hss; cbn [steps_accepted]; [split; constructor|]. apply Forall_cons in Hss as [Hu Hss].
  pose proof (set_up_last u s d Hs Hu) as Hlast. destruct s as [v step|now id|v s|now v step|v rows|v|f];
    try (destruct (factor_step _ d) as [d' ok]; cbn [fst app] in *; rewrite <- Hlast; by apply IH). clear Hlast. cbn [factor_step].
  pose proof (claim_step_last u v step d) as H. destruct (claim_step v step d) as [d' ok]. destruct H as (_ & Hyes & Hno).
  destruct (IH d' Hss) as [H1 H2]. destruct (ok && bool_decide (v = u)); [|rewrite Hno in H2 by done; done].
  destruct Hyes as [Hafter Hl]; [done|]. rewrite Hl in H2. cbn [app]. split; constructor; try done.
  eapply Forall_impl; [exact H2|]. cbn. intros x Hx. destruct (last_step u d); cbn in *; [lia|done].
Qed.

(** What makes a recovery code usable. *)
Lemma step_usable id s d : kept_by s -> usable id (factor_step s d).1 -> usable id d \/ id ∈ codes_given [s].
Proof.
  destruct s as [v step|now id'|v s|now v step|v rows|v|f]; cbn [kept_by factor_step fst]; intros Hk.
  - pose proof (claim_step_last v v step d) as H. destruct (claim_step v step d) as [d' ok]. cbn [fst]. unfold usable. rewrite (proj1 H). by left.
  - pose proof (use_code_spent now id' d) as H. destruct (use_recovery_code now id' d) as [d' [|]]; destruct H as (_ & Hyes & Hno); cbn [fst].
    + intros Hid. left. by apply Hyes.
    + rewrite Hno by done. by left.
  - unfold usable, start_enrolment. autorewrite with auth. by left.
  - unfold usable, confirm_totp. autorewrite with auth. by left.
  - unfold usable, replace_recovery_codes. autorewrite with auth. intros (c & [Hc|[_ Hc]]%lookup_union_Some_raw & Hu).
    + right. apply elem_of_list_to_map_2 in Hc. apply list_elem_of_fmap in Hc as (r & [= -> _] & Hr). cbn. rewrite app_nil_r. by apply list_elem_of_fmap_2.
    + left. apply map_lookup_filter_Some in Hc as [Hc _]. by exists c.
  - unfold usable, disable_totp. autorewrite with auth. intros (c & [Hc _]%map_lookup_filter_Some & Hu). left. by exists c.
  - intros Hid. left. by apply (Hk d).
Qed.
Lemma codes_accepted_usable ss d : Forall kept_by ss -> NoDup (codes_given ss) -> (forall id, id ∈ codes_given ss -> ~ usable id d) ->
  NoDup (codes_accepted ss d) /\ forall id, id ∈ codes_accepted ss d -> usable id d \/ id ∈ codes_given ss.
Proof.
  intros Hk. revert d. induction Hk as [|s ss Hs _ IH]; intros d Hdup Hnew; cbn [codes_accepted]; [split; [constructor|set_solver]|].
  assert (E : codes_given (s :: ss) = codes_given [s] ++ codes_given ss) by (unfold codes_given; cbn; by rewrite app_nil_r).
  rewrite E in *. apply NoDup_app in Hdup as (_ & Hsep & Hdup). pose proof (fun id => step_usable id s d Hs) as Hst.
  destruct (factor_step s d) as [d' ok] eqn:Es. cbn [fst] in Hst. destruct (IH d' Hdup) as [H1 H2].
  { intros id Hid [Hd|Hg]%Hst; [apply (Hnew id); set_solver|by apply (Hsep id)]. }
  assert (Hrest : forall id, id ∈ codes_accepted ss d' -> usable id d \/ id ∈ codes_given [s] ++ codes_given ss).
  { intros id [[Hd|Hg]%Hst|Hg]%H2; set_solver. }
  destruct s as [v step|now id|v s|now v step|v rows|v|f]; cbn [app]; try by split. destruct ok; cbn [app]; [|by split].
  cbn [factor_step] in Es. pose proof (use_code_spent now id d) as H. rewrite Es in H. destruct H as (_ & [Hid Hno] & _); [done|]. split.
  - constructor; [|done]. intros [Hd|Hg]%H2; [by apply (Hno id)|]. apply (Hnew id); [set_solver|done].
  - intros id' [->|Hin]%elem_of_cons; [by left|by apply Hrest].
Qed.

(** C27: A second factor is used once.  However the requests that accept codes
    and that enrol, confirm and take off second factors are interleaved: no
    recovery code is accepted twice, as those given out have identifiers of
    their own; and for as long as nobody starts, confirms or takes off the
    enrolment of an account, the steps of the codes that are accepted for it
    strictly increase and are after the last one accepted or confirmed before,
    so that no code is accepted twice, nor an older one. *)
Theorem a_second_factor_is_used_once ss d : Forall kept_by ss -> NoDup (codes_given ss) -> (forall id, id ∈ codes_given ss -> ~ usable id d) ->
  NoDup (codes_accepted ss d) /\
  forall u, Forall (enrolment_stays u) ss ->
    StronglySorted Z.lt (steps_accepted u ss d) /\ NoDup (steps_accepted u ss d) /\ Forall (after_last (last_step u d)) (steps_accepted u ss d).
Proof.
  intros Hss Hdup Hnew. split; [by apply codes_accepted_usable|]. intros u Hu.
  destruct (steps_accepted_sorted u ss d Hss Hu) as [Hs Ha]. split; [exact Hs|]. split; [|exact Ha].
  clear Ha. induction Hs as [|x l _ IH Hx]; constructor; [|done]. intros Hin. rewrite Forall_forall in Hx. specialize (Hx x Hin). lia.
Qed.

(** ** Guessing an emailed code *)

Inductive CodeStep :=
| TriesCode (now : Z)
| SpendsCode (now : Z) (hash : str)
| ElseCode (f : ApiDb -> ApiDb).
Definition code_step u (s : CodeStep) d : ApiDb * (nat * nat) :=
  match s with
  | TriesCode now => let '(d', try) := claim_try now u MAX_TRIES d in (d', (if bool_decide (is_Some try) then 1 else 0, 0))%nat
  | SpendsCode now hash => let '(d', ok) := consume_email_code now u hash d in (d', (0, if ok then 1 else 0))%nat
  | ElseCode f => (f d, (0, 0)%nat)
  end.
(** How many guesses were allowed, and how often the code was spent. *)
Fixpoint code_uses u (ss : list CodeStep) d : nat * nat :=
  match ss with
  | [] => (0, 0)%nat
  | s :: ss =>
      let '(d', (n, m)) := code_step u s d in
      let '(ns, ms) := code_uses u ss d' in (n + ns, m + ms)%nat
  end.
Definition code_kept u (s : CodeStep) : Prop := match s with ElseCode f => forall d, EmailCodes (f d) !! u = EmailCodes d !! u | _ => True end.

(** What is left of a code. *)
Definition tries_left u d : nat := match EmailCodes d !! u with Some c => Z.to_nat (MAX_TRIES - EmailCode.attempts c) | None => 0 end.
Definition unspent u d : nat := match EmailCodes d !! u with Some c => if bool_decide (EmailCode.used_at c = None) then 1 else 0 | None => 0 end.

Lemma code_step_left u s d : code_kept u s -> let '(d', (n, m)) := code_step u s d in
  (n + tries_left u d' <= tries_left u d)%nat /\ (m + unspent u d' <= unspent u d)%nat.
Proof.
  unfold tries_left, unspent. destruct s as [now|now hash|f]; cbn [code_step code_kept]; intros Hk.
  - unfold claim_try. destruct (EmailCodes d !! u) as [c|] eqn:Ec; [|rewrite Ec; by split].
    destruct (is_live_code now c && (EmailCode.attempts c <? MAX_TRIES)) eqn:El; [|rewrite Ec; by split].
    autorewrite with auth. rewrite lookup_insert_eq. cbn. apply andb_true_iff in El as [_ El]. apply Z.ltb_lt in El. split; [lia|done].
  - unfold consume_email_code. destruct (EmailCodes d !! u) as [c|] eqn:Ec; [|rewrite Ec; by split].
    destruct (bool_decide (EmailCode.code_hash c = hash) && is_live_code now c) eqn:El; [|rewrite Ec; by split].
    autorewrite with auth. rewrite lookup_insert_eq. cbn. apply andb_true_iff in El as [_ El]. unfold is_live_code in El.
    apply andb_true_iff in El as [El _]. rewrite El. done.
  - rewrite Hk. split; lia.
Qed.

(** C28: An emailed code takes five guesses.  However the requests that check a
    code are interleaved, from the moment a code is mailed until the next one
    at most five of them get to compare theirs, and at most one spends it. *)
Theorem an_emailed_code_takes_five_guesses u now hash ss d : Forall (code_kept u) ss ->
  let '(tried, spent) := code_uses u ss (replace_email_code now u hash CODE_LIFETIME_MINS d) in (tried <= 5 /\ spent <= 1)%nat.
Proof.
  intros Hss. assert (Hall : forall d, let '(n, m) := code_uses u ss d in (n <= tries_left u d /\ m <= unspent u d)%nat).
  { clear d. induction Hss as [|s ss Hs _ IH]; intros d; cbn [code_uses]; [split; lia|].
    pose proof (code_step_left u s d Hs) as H. destruct (code_step u s d) as [d' [n m]]. specialize (IH d'). destruct (code_uses u ss d'). lia. }
  specialize (Hall (replace_email_code now u hash CODE_LIFETIME_MINS d)). destruct (code_uses _ _ _) as [n m].
  unfold tries_left, unspent, replace_email_code in Hall. autorewrite with auth in Hall. rewrite lookup_insert_eq in Hall. done.
Qed.
End spent.

(** ** Factors of an account *)

Module SampleFactors.
Definition enrolment : TotpEnrolment.t :=
  {| TotpEnrolment.secret := {| Stored.ciphertext := []; Stored.nonce := []; Stored.key_id := None |}; TotpEnrolment.confirmed_at := Some 0;
     TotpEnrolment.last_used_step := Some 3 |}.
Definition recovery : RecoveryCode.t := {| RecoveryCode.user_id := 1%N; RecoveryCode.code_hash := $"hash"; RecoveryCode.used_at := None |}.
Definition db : ApiDb :=
  set_auth (fun a => set_user_totp (fun _ => {[1%N := enrolment]}) (set_totp_recovery_codes (fun _ => {[7%N := recovery]}) a)) SessionLaws.SampleAuth.db.
(** Two requests with one code, one with an older, a recovery code twice, and
    meanwhile somebody else, who confirms a factor and is given codes. *)
Definition sealed : Sealed.t := {| Sealed.ciphertext := []; Sealed.nonce := []; Sealed.key_id := [] |}.
Definition requests : list FactorStep :=
  [ClaimsStep 1%N 5; Enrols 2%N sealed; ClaimsStep 1%N 5; Confirms 5 2%N 9; GivesCodes 2%N [(8%N, $"other")]; ClaimsStep 1%N 4; UsesCode 10 7%N;
   UsesCode 11 8%N; ElseFactor id; UsesCode 20 7%N; UsesCode 21 8%N; ClaimsStep 2%N 9; ClaimsStep 1%N 6; TakesOff 2%N].
(** Six guesses, of which the last two spend. *)
Definition guesses : list CodeStep :=
  [TriesCode 10; TriesCode 10; TriesCode 11; ElseCode id; TriesCode 12; TriesCode 13; TriesCode 14; SpendsCode 14 ($"hash"); SpendsCode 15 ($"hash")].
End SampleFactors.

(** Confirming writes its step whatever was accepted before, so that a code
    that was used is accepted again. *)
Example confirming_lowers_the_last_step :
  steps_accepted 1%N [ClaimsStep 1%N 5; ClaimsStep 1%N 5; Confirms 10 1%N 4; ClaimsStep 1%N 5] SampleFactors.db = [5; 5].
Proof. vm_compute. done. Qed.

Lemma a_second_factor_is_used_once_witness :
  steps_accepted 1%N SampleFactors.requests SampleFactors.db = [5; 6] /\ codes_accepted SampleFactors.requests SampleFactors.db = [7%N; 8%N] /\
  NoDup (codes_accepted SampleFactors.requests SampleFactors.db) /\ StronglySorted Z.lt (steps_accepted 1%N SampleFactors.requests SampleFactors.db).
Proof.
  split; [vm_compute; reflexivity|]. split; [vm_compute; reflexivity|].
  destruct (a_second_factor_is_used_once SampleFactors.requests SampleFactors.db) as [H1 H2].
  - repeat constructor; by eauto.
  - repeat constructor; set_solver.
  - intros id Hid (c & Hc & _). apply list_elem_of_singleton in Hid as ->. vm_compute in Hc. discriminate.
  - split; [exact H1|]. apply (H2 1%N). repeat constructor; done.
Defined.

Lemma an_emailed_code_takes_five_guesses_witness :
  code_uses 1%N SampleFactors.guesses (replace_email_code 0 1%N ($"hash") CODE_LIFETIME_MINS SampleFactors.db) = (5, 1)%nat /\
  let '(tried, spent) := code_uses 1%N SampleFactors.guesses (replace_email_code 0 1%N ($"hash") CODE_LIFETIME_MINS SampleFactors.db) in
  (tried <= 5 /\ spent <= 1)%nat.
Proof.
  split; [vm_compute; reflexivity|].
  refine (an_emailed_code_takes_five_guesses 1%N 0 ($"hash") SampleFactors.guesses SampleFactors.db _). repeat constructor.
Defined.
