(* ===== verification/LoginLaws.v ===== *)
(** * What it takes to sign in
    ([login] and [second_factor] of [backend/api/src/auth/routes.rs])

    Nobody gets the tokens of an account without every factor it has, and a
    request that is refused leaves no session. *)

From stdpp Require Import base tactics option numbers list gmap sorting.
From Stdlib Require Import ZArith Lia String Ascii.
From S2P Require Import Prelude RustStr Json Errors Frames Publisher Validation ListForms Sealed SessionKeys AuthStore NoticeStore Mentions ApiState Outbox AuditLog Tables Authz Membership ApiLaws Mail Sessions SignIn SignInRoutes SessionLaws SignInLaws.

Section login.
Context `{UuidText} `{Sealing} `{Jwt} `{MarkText} `{Passwords} `{Totp} `{CaseFolding}.
Context (config : AuthConfig.t) (draw : ApiDb -> Uuid) (now : Z) (lower : str -> str) (absent_user_hash : str) (ip : option str).
Implicit Types (d : ApiDb) (u : Uuid) (user : User.t) (email password code : str).

(** ** What the parts of a request leave *)

(** Only counters and the audit log differ. *)
Definition counters_only : relation ApiDb := fun d d' =>
  users (app d') = users (app d) /\ set_redis_counters (fun _ => ∅) (Auth d') = set_redis_counters (fun _ => ∅) (Auth d).
#[export] Instance counted_preorder : PreOrder counters_only.
Proof. split; [done|]. intros d1 d2 d3 [] []. split; congruence. Qed.
Lemma counted_of {A} (part : AuthTables -> A) d d' : (forall f a, part (set_redis_counters f a) = part a) -> counters_only d d' -> part (Auth d') = part (Auth d).
Proof. intros Hp [_ E]. by rewrite <-(Hp (fun _ => ∅) (Auth d')), E, Hp. Qed.

Lemma counted_set f d : counters_only d (set_auth (set_redis_counters f) d).
Proof. split; [by autorewrite with auth|]. rewrite auth_set. by destruct (Auth d). Qed.
Lemma record_undisturbed e d : exists d', record now e (undisturbed d) = (tt, undisturbed d') /\ users (app d') = users (app d) /\ Auth d' = Auth d.
Proof.
  unfold record, svc_ignore, change. rewrite svc_bind_eq, svc_write_undisturbed. eexists. split; [reflexivity|].
  unfold with_app. cbn. by destruct (app d).
Qed.
Lemma enforce_undisturbed key max window on_failure d : exists r d', enforce now key max window on_failure (undisturbed d) = (r, undisturbed d') /\ counters_only d d'.
Proof.
  unfold enforce. rewrite svc_bind_eq, svc_call_quiet by done. cbn [fst snd shared undisturbed]. do 2 eexists. split; [reflexivity|].
  unfold count_attempt. destruct (redis_counters _ !! _) as [[n e]|]; [destruct (_ <? _)|]; apply counted_set.
Qed.
Lemma limit_undisturbed email d : exists r d', limit_sign_in config now ip email (undisturbed d) = (r, undisturbed d') /\ counters_only d d'.
Proof.
  unfold limit_sign_in, check_rate_limit. rewrite and_then_eq.
  match goal with |- context [enforce now ?k ?m ?w ?f (undisturbed d)] => destruct (enforce_undisturbed k m w f d) as (r & d1 & -> & Hc1) end.
  cbn [fst snd]. destruct r as [[]|e]; [|by do 2 eexists]. destruct ip as [a|]; [|by do 2 eexists].
  match goal with |- context [enforce now ?k ?m ?w ?f (undisturbed d1)] => destruct (enforce_undisturbed k m w f d1) as (r & d2 & -> & Hc2) end.
  do 2 eexists. split; [reflexivity|]. by etransitivity.
Qed.

(** ** The password *)

Definition password_right d email password u user : Prop :=
  find_by_email lower email (app d) = Some (u, user) /\ User.status user = Active /\
  exists hash, User.password_hash user = Some hash /\ matches password hash = true.

Lemma verify_password_undisturbed email password d : exists r, verify_password_only lower absent_user_hash email password (undisturbed d) = (r, undisturbed d) /\
  forall u user, r = Ok (u, user) -> password_right d email password u user.
Proof.
  unfold verify_password_only. rewrite and_then_eq. cbn [mret Svc_ret fst snd]. destruct (validate_email email) as [[]|e]; [|by eexists].
  rewrite and_then_eq, query_quiet by done. cbn [fst snd shared undisturbed]. destruct (find_by_email lower email (app d)) as [[u user]|] eqn:Ef; [|by eexists].
  unfold login_refusal. cbn [mbind option_bind]. destruct (bool_decide_reflect (User.status user = Active)) as [Hs|]; [|by eexists].
  cbn [negb]. case_bool_decide as Hh; [by eexists|]. destruct (User.password_hash user) as [hash|] eqn:Eh; [|done].
  cbn [snd]. rewrite Eh. cbn [default from_option id].
  destruct (matches password hash) eqn:Em; cbn [negb]; [|by eexists]. eexists. split; [reflexivity|]. intros ? ? [= <- <-].
  split; [done|]. split; [done|]. by exists hash.
Qed.

(** ** The second factor *)

(** A code of the authenticator for a step no code was accepted for yet. *)
Definition authenticator_code d d' u user (e : TotpEnrolment.t) code : Prop :=
  exists secret digits step,
    decrypt_secret config e = Ok secret /\ totp_digits secret (User.email user) (AuthConfig.instance_name config) = Ok digits /\
    0 <= step /\ Z.abs (step - current_step (utc_secs now)) <= SKEW /\ as_bytes (digits (step * STEP_SECS)) = as_bytes code /\
    after_last (TotpEnrolment.last_used_step e) step /\ find_totp u (app d') = Some (TotpEnrolment.set_step step e).
(** A recovery code of theirs that was not used. *)
Definition recovery_code_given d d' u code : Prop :=
  exists id c, RecoveryCodes d !! id = Some c /\ RecoveryCode.user_id c = u /\ RecoveryCode.used_at c = None /\
    matches code (RecoveryCode.code_hash c) = true /\ RecoveryCodes d' !! id = Some (RecoveryCode.set_used now c).
Definition second_factor_given d d' u user (totp_code : option str) : Prop :=
  match find_totp u (app d) with
  | Some e =>
      if TotpEnrolment.is_active e
      then exists code, totp_code = Some code /\ (authenticator_code d d' u user e code \/ recovery_code_given d d' u code)
      else AuthConfig.require_admin_totp config && User.is_instance_admin user = false
  | None => AuthConfig.require_admin_totp config && User.is_instance_admin user = false
  end.

Lemma codes_match_bytes a b : codes_match a b = true -> as_bytes a = as_bytes b.
Proof.
  unfold codes_match. rewrite andb_true_iff, bool_decide_eq_true, Z.eqb_eq, gathered_differences. intros (Hlen & _ & Hall). by apply zip_same.
Qed.
Lemma step_of_Some digits code steps step : step_of digits code steps = Some step ->
  step ∈ steps /\ 0 <= step /\ as_bytes (digits (step * STEP_SECS)) = as_bytes code.
Proof.
  induction steps as [|s steps IH]; [done|]. cbn [step_of]. destruct (Z.ltb_spec s 0) as [|Hs]; [intros Hr%IH; set_solver|].
  destruct (codes_match _ _) eqn:Em; [|intros Hr%IH; set_solver]. intros [= <-]. split; [set_solver|]. split; [done|]. by apply codes_match_bytes.
Qed.
Lemma matching_step_Some secret email issuer code at_ step : matching_step secret email issuer code at_ = Ok (Some step) ->
  exists digits, totp_digits secret email issuer = Ok digits /\ 0 <= step /\ Z.abs (step - current_step at_) <= SKEW /\
    as_bytes (digits (step * STEP_SECS)) = as_bytes code.
Proof.
  unfold matching_step, totp_of. destruct (totp_digits _ _ _) as [digits|e]; [|done]. cbn [mbind result_bind].
  remember [_; _; _] as steps eqn:El. intros Hs. injection Hs as Hs. apply step_of_Some in Hs as (Hin & Hpos & Hd).
  exists digits. split; [done|]. split; [done|]. split; [|done]. subst steps. unfold SKEW in *.
  rewrite !elem_of_cons, elem_of_nil in Hin. lia.
Qed.

Lemma try_codes_undisturbed u code hashes d :
  Forall (fun p : Uuid * str => exists c, RecoveryCodes d !! p.1 = Some c /\ RecoveryCode.user_id c = u /\ RecoveryCode.code_hash c = p.2 /\
    RecoveryCode.used_at c = None) hashes ->
  exists r d', try_recovery_codes now u code hashes (undisturbed d) = (r, undisturbed d') /\
    users (app d') = users (app d) /\ Refreshes d' = Refreshes d /\ (r = Ok true -> recovery_code_given d d' u code).
Proof.
  induction 1 as [|[id hash] hashes (c & Hc & Hu & Hh & Hn) _ IH]; cbn [try_recovery_codes]; [by do 2 eexists|].
  cbn [fst snd] in Hc, Hh. subst hash. destruct (matches code (RecoveryCode.code_hash c)) eqn:Em; [|exact IH].
  rewrite and_then_eq, sql_undisturbed. cbn [fst snd]. unfold use_recovery_code. rewrite Hc, Hn. cbn [fst snd]. rewrite svc_bind_eq.
  match goal with |- context [record now ?e (undisturbed ?x)] => destruct (record_undisturbed e x) as (d' & -> & Hus & Ha) end.
  cbn [fst snd mret Svc_ret]. exists (Ok true), d'. split; [done|]. rewrite Hus, Ha. autorewrite with auth.
  split; [done|]. split; [by destruct (Auth d)|]. intros _. exists id, c. do 4 (split; [done|]). rewrite Ha. autorewrite with auth. by rewrite lookup_insert_eq.
Qed.
Lemma unused_hashes_rows u d : Forall (fun p : Uuid * str => exists c, RecoveryCodes d !! p.1 = Some c /\ RecoveryCode.user_id c = u /\
  RecoveryCode.code_hash c = p.2 /\ RecoveryCode.used_at c = None) (unused_recovery_hashes u (app d)).
Proof.
  apply Forall_forall. intros p ([id c] & -> & [Hp Hin]%list_elem_of_filter)%list_elem_of_fmap. apply elem_of_map_to_list in Hin.
  apply andb_true_iff in Hp as [Hu Hn]. apply bool_decide_eq_true in Hu, Hn. by exists c.
Qed.

Lemma accept_code_undisturbed u user e code d : find_totp u (app d) = Some e -> exists r d', accept_code config now u user e code (undisturbed d) = (r, undisturbed d') /\
  users (app d') = users (app d) /\ Refreshes d' = Refreshes d /\
  (r = Ok true -> authenticator_code d d' u user e code \/ recovery_code_given d d' u code).
Proof.
  intros He. unfold accept_code. rewrite and_then_eq. cbn [mret Svc_ret fst snd]. destruct (decrypt_secret config e) as [secret|f] eqn:Es; [|by do 2 eexists].
  rewrite and_then_eq. cbn [mret Svc_ret fst snd]. destruct (matching_step secret _ _ code _) as [[step|]|f] eqn:Em; [| |by do 2 eexists].
  - apply matching_step_Some in Em as (digits & Hd & Hpos & Hnear & Hcode). rewrite sql_undisturbed. unfold claim_step. unfold find_totp in He. rewrite He.
    destruct (is_newer_step step e) eqn:En; cbn [fst snd]; [|by do 2 eexists]. do 2 eexists. split; [reflexivity|]. autorewrite with auth.
    split; [done|]. split; [by destruct (Auth d)|]. intros _. left. exists secret, digits, step. do 5 (split; [done|]). split.
    + unfold is_newer_step in En. destruct (TotpEnrolment.last_used_step e); cbn; [by apply Z.ltb_lt|done].
    + unfold find_totp. autorewrite with auth. by rewrite lookup_insert_eq.
  - unfold consume_recovery_code. rewrite and_then_eq, query_quiet by done. cbn [fst snd shared undisturbed].
    destruct (try_codes_undisturbed u code _ d (unused_hashes_rows u d)) as (r & d' & -> & Hus & Hr & Hok). do 2 eexists. split; [reflexivity|]. auto.
Qed.

Lemma second_factor_undisturbed u user totp_code d : exists r d', second_factor config now u user totp_code (undisturbed d) = (r, undisturbed d') /\
  users (app d') = users (app d) /\ Refreshes d' = Refreshes d /\ (r = Ok tt -> second_factor_given d d' u user totp_code).
Proof.
  unfold second_factor. rewrite and_then_eq, query_quiet by done. cbn [fst snd shared undisturbed]. rewrite and_then_eq, query_quiet by done.
  cbn [fst snd shared undisturbed]. unfold second_factor_given. destruct (find_totp u (app d)) as [e|] eqn:Ee; [destruct (TotpEnrolment.is_active e) eqn:Ea|].
  - rewrite andb_false_r. destruct totp_code as [[|c code]|]; [by do 2 eexists| |by do 2 eexists]. rewrite and_then_eq.
    destruct (accept_code_undisturbed u user e (c :: code) d Ee) as (r & d' & -> & Hus & Hr & Hok). cbn [fst snd].
    destruct r as [[]|f]; [|rewrite svc_bind_eq|by do 2 eexists].
    + do 2 eexists. split; [reflexivity|]. do 2 (split; [done|]). intros _. exists (c :: code). auto.
    + match goal with |- context [record now ?e (undisturbed ?x)] => destruct (record_undisturbed e x) as (d2 & -> & Hus2 & Ha2) end.
      exists (Err did_not_match), d2. split; [done|]. by rewrite Hus2, Ha2.
  - rewrite andb_true_r. destruct (_ && _); [destruct (0 <? _); by do 2 eexists|]. by do 2 eexists.
  - rewrite andb_true_r. destruct (_ && _); [destruct (0 <? _); by do 2 eexists|]. by do 2 eexists.
Qed.

(** ** The session *)

Lemma store_token_alone u hash expires d : match store_refresh_token_tx u hash expires d with
  | (Ok _, d') => d' = set_auth (set_refresh_tokens <[hash := {| RefreshToken.user_id := u; RefreshToken.expires_at := expires |}]>) d /\
      Refreshes d !! hash = None /\ is_Some (users (app d) !! u)
  | (Err _, _) => True
  end.
Proof.
  destruct (store_refresh_token_tx u hash expires d) as [[[]|e] d'] eqn:E; [|done]. unfold store_refresh_token_tx in E. rewrite tx_bind_Ok in E. destruct E as (known & d1 & Hk & E).
  apply tx_read_Ok in Hk as [-> ->]. case_bool_decide as Hu; cbn [negb] in E; [|by apply tx_fail_Ok in E].
  rewrite tx_bind_Ok in E. destruct E as (taken & d1 & Ht & E). apply tx_read_Ok in Ht as [-> ->]. case_bool_decide as Hr; [by apply tx_fail_Ok in E|].
  injection E as <-. split; [done|]. split; [|done]. by apply eq_None_not_Some.
Qed.

Definition new_session d d' u user (tokens : AuthTokens.t) : Prop :=
  exists jti access refresh, sign_session config now u user jti = Ok (access, refresh) /\ tokens = tokens_of config u user (access, refresh) /\
    Refreshes d !! uuid_to_string jti = None /\
    Refreshes d' = <[uuid_to_string jti := {| RefreshToken.user_id := u; RefreshToken.expires_at := refresh_expiry config now |}]> (Refreshes d).
Lemma generate_undisturbed u user d : exists r d', generate_tokens config draw now u user (undisturbed d) = (r, undisturbed d') /\
  Enrolments d' = Enrolments d /\ RecoveryCodes d' = RecoveryCodes d /\
  match r with Ok tokens => new_session d d' u user tokens | Err _ => d' = d end.
Proof.
  unfold generate_tokens. rewrite svc_bind_eq. unfold svc_gets. cbn [fst snd shared undisturbed]. rewrite and_then_eq. cbn [mret Svc_ret fst snd].
  destruct (sign_session config now u user (draw d)) as [[access refresh]|e] eqn:Es; [|by do 2 eexists]. rewrite and_then_eq, transaction_undisturbed.
  cbn [fst snd]. match goal with |- context [store_refresh_token_tx ?a ?b ?c d] => pose proof (store_token_alone a b c d) as Hst; destruct (store_refresh_token_tx a b c d) as [[[]|e] d'] end;
    cbn [fst snd]; [|by do 2 eexists]. destruct Hst as (-> & Hn & _). do 2 eexists. split; [reflexivity|]. autorewrite with auth.
  split; [by destruct (Auth d)|]. split; [by destruct (Auth d)|]. exists (draw d), access, refresh. do 3 (split; [done|]). by autorewrite with auth.
Qed.

Lemma password_right_counted d d1 email password u user : counters_only d d1 -> password_right d1 email password u user -> password_right d email password u user.
Proof. unfold password_right, find_by_email. by intros [-> _]. Qed.
Lemma second_factor_moved d1 d2 d3 d u user totp_code :
  Enrolments d1 = Enrolments d -> RecoveryCodes d1 = RecoveryCodes d -> Enrolments d3 = Enrolments d2 -> RecoveryCodes d3 = RecoveryCodes d2 ->
  second_factor_given d1 d2 u user totp_code -> second_factor_given d d3 u user totp_code.
Proof. unfold second_factor_given, authenticator_code, recovery_code_given, find_totp. by intros -> -> -> ->. Qed.
Lemma new_session_from d0 d d' u user tokens : Refreshes d = Refreshes d0 -> new_session d d' u user tokens -> new_session d0 d' u user tokens.
Proof. unfold new_session. by intros ->. Qed.

(** C26: A sign-in needs every factor.  Alone, whoever gets the tokens of an
    account by its password gave the address and the password of an active
    account, and, where a second factor is enrolled, a code of the
    authenticator for a step after the last that was accepted, which is now the
    last, or a recovery code not used before, which now is; an administrator
    without one gets in only where the instance does not require it.  The
    tokens are those of one new session of that account; and a request that is
    refused leaves the sessions as they were. *)
Theorem a_sign_in_needs_every_factor email password totp_code d :
  exists r d', login config draw now lower absent_user_hash ip email password totp_code (undisturbed d) = (r, undisturbed d') /\
  match r with
  | Ok tokens => exists u user, password_right d email password u user /\ second_factor_given d d' u user totp_code /\ new_session d d' u user tokens
  | Err _ => Refreshes d' = Refreshes d
  end.
Proof.
  unfold login, first_factor. rewrite and_then_eq, and_then_eq.
  destruct (limit_undisturbed email d) as (r & d1 & -> & Hc1). cbn [fst snd].
  pose proof (counted_of refresh_tokens d d1 ltac:(by intros f []) Hc1) as Hr1.
  destruct r as [[]|e]; [|by do 2 eexists].
  destruct (verify_password_undisturbed email password d1) as (r & -> & Hp). cbn [fst snd]. destruct r as [[u user]|e]; [|by do 2 eexists].
  rewrite and_then_eq. cbn [fst snd]. destruct (second_factor_undisturbed u user totp_code d1) as (r & d2 & -> & _ & Hr2 & Hsf). cbn [fst snd].
  destruct r as [[]|e]; [|do 2 eexists; split; [reflexivity|congruence]].
  destruct (generate_undisturbed u user d2) as (r & d3 & -> & He & Hrc & Hg). exists r, d3. split; [done|].
  destruct r as [tokens|e]; [|congruence]. exists u, user. split; [exact (password_right_counted _ _ _ _ _ _ Hc1 (Hp _ _ eq_refl))|]. split; [|apply (new_session_from d d2); [congruence|exact Hg]].
  apply (second_factor_moved d1 d2); [| |exact He|exact Hrc|exact (Hsf eq_refl)].
  - apply (counted_of user_totp); [by intros f []|done].
  - apply (counted_of totp_recovery_codes); [by intros f []|done].
Qed.
End login.

(** ** Asking *)

Section asking.
Context `{UuidText} `{Jwt} `{Passwords} `{CaseFolding}.
Context (config : AuthConfig.t) (draw : ApiDb -> Uuid) (now : Z) (lower : str -> str) (draw_salt : ApiDb -> str -> Uuid) (draw_digits : ApiDb -> Z).
Context (absent_user_hash : str) (workspace_name : Uuid -> str) (invite_page : str -> str -> result str str) (ip : option str).
Implicit Types (d : ApiDb) (u : Uuid) (user : User.t) (email password : str).

Abbreviation Counters d := (redis_counters (Auth d)).

(** What is counters_only is answered alike. *)
Lemma enforce_alike key max window on_failure d1 d2 : Counters d1 = Counters d2 -> exists r d1' d2',
  enforce now key max window on_failure (undisturbed d1) = (r, undisturbed d1') /\
  enforce now key max window on_failure (undisturbed d2) = (r, undisturbed d2') /\
  Counters d1' = Counters d2' /\ counters_only d1 d1' /\ counters_only d2 d2'.
Proof.
  intros E. destruct (enforce_undisturbed now key max window on_failure d1) as (r1 & d1' & E1 & C1).
  destruct (enforce_undisturbed now key max window on_failure d2) as (r2 & d2' & E2 & C2).
  assert (Hr : r1 = r2 /\ Counters d1' = Counters d2'); [|destruct Hr as [-> Hd]; by exists r2, d1', d2'].
  unfold enforce in E1, E2. rewrite svc_bind_eq, svc_call_quiet in E1, E2 by done. cbn [fst snd shared undisturbed mret Svc_ret] in E1, E2.
  unfold count_attempt in E1, E2. rewrite E in E1.
  destruct (Counters d2 !! key) as [[n e]|]; [destruct (_ <? e)|]; cbn [fst snd] in E1, E2; injection E1 as <- <-; injection E2 as <- <-;
    (split; [done|]); rewrite !auth_set; revert E; by destruct (Auth d1), (Auth d2); cbn; intros ->.
Qed.
Lemma limit_alike email d1 d2 : Counters d1 = Counters d2 -> exists r d1' d2',
  limit_sign_in config now ip email (undisturbed d1) = (r, undisturbed d1') /\ limit_sign_in config now ip email (undisturbed d2) = (r, undisturbed d2').
Proof.
  intros E. unfold limit_sign_in, check_rate_limit. rewrite !and_then_eq.
  match goal with |- context [enforce now ?k ?m ?w ?f (undisturbed d1)] => destruct (enforce_alike k m w f d1 d2 E) as (r & d1' & d2' & -> & -> & E' & _) end.
  cbn [fst snd]. destruct r as [[]|e]; [|by do 3 eexists]. destruct ip as [a|]; [|by do 3 eexists].
  match goal with |- context [enforce now ?k ?m ?w ?f (undisturbed d1')] => destruct (enforce_alike k m w f d1' d2' E') as (r & d1'' & d2'' & -> & -> & _) end.
  by do 3 eexists.
Qed.

(** Whom a reset is asked for is not told, and nor is why a password is not
    enough. *)
Lemma forgot_answer email d : match validate_email email with
  | Ok _ => exists who, (forgot_password config draw now lower email (undisturbed d)).1 = Ok who
  | Err e => (forgot_password config draw now lower email (undisturbed d)).1 = Err e
  end.
Proof.
  unfold forgot_password. rewrite and_then_eq. cbn [mret Svc_ret fst snd]. destruct (validate_email email) as [[]|e]; [|done].
  rewrite and_then_eq, query_quiet by done. cbn [fst snd]. destruct (find_by_email _ _ _) as [[u user]|]; [|by eexists].
  destruct (bool_decide _); [by eexists|]. destruct (bool_decide _); rewrite ?svc_bind_fst; by eexists.
Qed.
Lemma refused_password email password d e : (verify_password_only lower absent_user_hash email password (undisturbed d)).1 = Err e ->
  e = match validate_email email with Ok _ => wrong_credentials | Err e => e end.
Proof.
  unfold verify_password_only. rewrite and_then_eq. cbn [mret Svc_ret fst snd]. destruct (validate_email email) as [[]|e']; [|by intros [= ->]].
  rewrite and_then_eq, query_quiet by done. cbn [fst snd]. destruct (login_refusal _ _); [by intros [= <-]|].
  unfold require. destruct (find_by_email _ _ _); [done|by intros [= <-]].
Qed.

(** Argon2 hashes whatever it is given. *)
Definition hashes_all : Prop := forall salt p, is_Some (argon2_hash salt p).

Lemma send_code_answer u user d : hashes_all -> (send_code config draw now draw_salt draw_digits ip u user (undisturbed d)).1 = Ok tt.
Proof.
  intros Hh. unfold send_code. rewrite svc_bind_eq. unfold svc_gets. cbn [fst snd]. rewrite and_then_eq. unfold hash_password. rewrite svc_bind_eq.
  unfold svc_gets. cbn [fst snd shared undisturbed mret Svc_ret]. destruct (Hh (draw_salt d (six_digits (draw_digits d))) (six_digits (draw_digits d))) as [h ->].
  cbn [ok_or]. rewrite and_then_eq, sql_undisturbed. cbn [fst snd]. rewrite svc_bind_fst.
  destruct (send_sign_in_code _ _ _ _ _ _) as [[[]|e] w]; cbn [fst snd]; [by rewrite svc_bind_fst|done].
Qed.
Lemma refuse_when_off_undisturbed d : refuse_when_off config (undisturbed d) =
  (if AuthConfig.can_send_email config && email_code_sign_in (Auth d) then Ok tt
   else Err (BadRequest ($"Signing in with an emailed code is off on this instance")), undisturbed d).
Proof.
  unfold refuse_when_off, offered. rewrite and_then_eq. destruct (AuthConfig.can_send_email config); [|done].
  rewrite query_quiet by done. cbn [fst snd shared undisturbed]. by destruct (email_code_sign_in _).
Qed.
Definition code_asked email : Api unit :=
  found ←? query (find_by_email lower email);
  match found with
  | None => mret (Ok tt)
  | Some (u, user) =>
      match User.status user with
      | Pending => _ ← resend_invite config draw now lower workspace_name invite_page (User.email user); mret (Ok tt)
      | Suspended => mret (Ok tt)
      | Active =>
          if bool_decide (User.password_hash user = None) then _ ← send_sso_reminder config draw now (User.email user); mret (Ok tt)
          else send_code config draw now draw_salt draw_digits ip u user
      end
  end.
Lemma code_asked_answer email d : hashes_all -> (code_asked email (undisturbed d)).1 = Ok tt.
Proof.
  intros Hh. unfold code_asked. rewrite and_then_eq, query_quiet by done. cbn [fst snd shared undisturbed].
  destruct (find_by_email _ _ _) as [[u user]|]; [|done]. destruct (User.status user); [by rewrite svc_bind_fst| |done].
  destruct (bool_decide _); [by rewrite svc_bind_fst|]. by apply send_code_answer.
Qed.
Lemma asked_code_answer email d1 d2 : hashes_all -> Counters d1 = Counters d2 -> email_code_sign_in (Auth d1) = email_code_sign_in (Auth d2) ->
  (request_email_code config draw now lower draw_salt draw_digits workspace_name invite_page ip email (undisturbed d1)).1 =
  (request_email_code config draw now lower draw_salt draw_digits workspace_name invite_page ip email (undisturbed d2)).1.
Proof.
  intros Hh E Hon. unfold request_email_code. fold (code_asked email). rewrite !and_then_eq, !refuse_when_off_undisturbed, Hon. cbn [fst snd].
  destruct (_ && _); [|done]. rewrite ?and_then_eq. cbn [mret Svc_ret fst snd]. destruct (validate_email email) as [[]|e]; [|done].
  unfold check_rate_limit. rewrite ?and_then_eq. cbn [mret Svc_ret fst snd].
  match goal with |- context [enforce now ?k ?m ?w ?f (undisturbed d1)] => destruct (enforce_alike k m w f d1 d2 E) as (r & d1' & d2' & -> & -> & E' & _) end.
  cbn [fst snd]. destruct r as [[]|e]; [|done]. rewrite ?and_then_eq. destruct ip as [a|].
  - match goal with |- context [enforce now ?k ?m ?w ?f (undisturbed d1')] => destruct (enforce_alike k m w f d1' d2' E') as (r & d1'' & d2'' & -> & -> & _) end.
    cbn [fst snd]. destruct r as [[]|e]; [|done]. rewrite !code_asked_answer by done. done.
  - cbn [mret Svc_ret fst snd]. by rewrite !code_asked_answer.
Qed.

(** C30: Asking tells nothing.  Alone, a request to reset a password, or for a
    code by mail, is answered the same whatever accounts there are, given the
    same counts of earlier requests, and the same switch for the codes; and
    when an address and a password are refused, the refusal is the same too. *)
Theorem asking_tells_nothing email d1 d2 : Counters d1 = Counters d2 ->
  (request_password_reset config draw now lower workspace_name invite_page email (undisturbed d1)).1 =
  (request_password_reset config draw now lower workspace_name invite_page email (undisturbed d2)).1 /\
  (hashes_all -> email_code_sign_in (Auth d1) = email_code_sign_in (Auth d2) ->
   (request_email_code config draw now lower draw_salt draw_digits workspace_name invite_page ip email (undisturbed d1)).1 =
   (request_email_code config draw now lower draw_salt draw_digits workspace_name invite_page ip email (undisturbed d2)).1) /\
  forall password e1 e2,
    (first_factor config now lower absent_user_hash ip email password (undisturbed d1)).1 = Err e1 ->
    (first_factor config now lower absent_user_hash ip email password (undisturbed d2)).1 = Err e2 -> e1 = e2.
Proof.
  intros E. split; [|split; [intros Hh Hon; by apply asked_code_answer|]].
  - unfold request_password_reset, check_rate_limit. rewrite !and_then_eq.
    match goal with |- context [enforce now ?k ?m ?w ?f (undisturbed d1)] => destruct (enforce_alike k m w f d1 d2 E) as (r & d1' & d2' & -> & -> & _) end.
    cbn [fst snd]. destruct r as [[]|e]; [|done]. rewrite ?and_then_eq. pose proof (forgot_answer email d1') as F1. pose proof (forgot_answer email d2') as F2.
    destruct (validate_email email) as [[]|e]; [|by rewrite F1, F2]. destruct F1 as (who1 & ->), F2 as (who2 & ->).
    destruct who1, who2; by rewrite ?svc_bind_fst.
  - intros password e1 e2. unfold first_factor. rewrite !and_then_eq. destruct (limit_alike email d1 d2 E) as (r & d1' & d2' & -> & ->).
    cbn [fst snd]. destruct r as [[]|e]; [|by intros [= <-] [= <-]]. intros ->%refused_password ->%refused_password. done.
Qed.
End asking.

(** ** An account with two factors *)

Module SampleLogin.
Export SessionLaws.SampleAuth.
(** The digits of a time are the secret and the time. *)
#[export] Instance digits : Totp := {| totp_digits := fun secret _ _ => Ok (fun t => t :: secret); totp_url := fun secret _ _ => Ok secret |}.
Definition same (s : str) : str := s.
Definition sealed : Sealed.t := match seal SampleSecrets.ring TOTP_SECRETS SampleSecrets.nonce ($"S3CRET") with Ok s => s | Err _ => {| Sealed.ciphertext := []; Sealed.nonce := []; Sealed.key_id := [] |} end.
Definition enrolled : ApiDb := set_auth (fun a => set_email_code_sign_in true a) (confirm_totp 0 1%N 3 (start_enrolment 1%N sealed db)).
(** At five minutes, in the tenth step. *)
Definition at_ : Z := 300 * SEC.
Definition code : str := 300 :: $"S3CRET".
Definition log_in (totp_code : option str) (d : ApiDb) : AppResult AuthTokens.t * SvcWorld ApiDb :=
  login config (fun _ => 10%N) at_ same [0] None ($"ana@example.com") password totp_code (undisturbed d).
Definition ana_session : AuthUser.t :=
  {| AuthUser.user_id := 1%N; AuthUser.is_instance_admin := true; AuthUser.jti := None; AuthUser.bot := None |}.
Definition enrol_again (d : ApiDb) : ApiDb := shared (enrol config (fun _ => SampleSecrets.nonce) (fun _ => $"OTHER") ana_session (undisturbed d)).2.
Definition log_in_later (totp_code : option str) (d : ApiDb) : AppResult AuthTokens.t * SvcWorld ApiDb :=
  login config (fun _ => 11%N) at_ same [0] None ($"ana@example.com") password totp_code (undisturbed d).
(** With the code of the ninth step. *)
Definition confirm_before (d : ApiDb) : AppResult (list str) * SvcWorld ApiDb :=
  confirm_enrolment config at_ (fun _ _ => 0%N) (fun _ => [[1]]) (fun _ => [8%N]) None ana_session (270 :: $"S3CRET") (undisturbed d).
End SampleLogin.
Import SampleLogin.

(** With both factors, and with one of them. *)
Example ana_signs_in : is_ok (log_in (Some code) enrolled).1 = true /\ (log_in None enrolled).1 = Err (Conflict ($"totp_required")) /\
  (log_in (Some code) (shared (log_in (Some code) enrolled).2)).1 = Err did_not_match.
Proof. vm_compute. done. Qed.

(** Whoever has a session takes the second factor off: starting an enrolment
    again replaces the one that is confirmed by one that is not, which asks for
    no code and leaves nothing in the audit log, and from then on the password
    is enough. *)
Theorem enrolling_again_takes_the_factor_off :
  (log_in None enrolled).1 = Err (Conflict ($"totp_required")) /\ is_ok (log_in None (enrol_again enrolled)).1 = true /\
  audit_log (app (enrol_again enrolled)) = audit_log (app enrolled).
Proof. vm_compute. done. Qed.

(** Confirming a factor that is confirmed, with the code before the one that
    signed in, sets the last step back: the code that was used signs in
    again. *)
Theorem confirming_again_reopens_a_code :
  let used := shared (log_in (Some code) enrolled).2 in
  (log_in (Some code) used).1 = Err did_not_match /\
  is_ok (confirm_before used).1 = true /\ is_ok (log_in_later (Some code) (shared (confirm_before used).2)).1 = true.
Proof. vm_compute. done. Qed.

Lemma asking_tells_nothing_witness : let nobody := with_app (set_users (fun _ => ∅)) db in
  find_by_email same ($"ana@example.com") (app db) <> None /\ find_by_email same ($"ana@example.com") (app nobody) = None /\
  (request_password_reset config (fun _ => 10%N) at_ same (fun _ => []) (fun _ _ => Ok []) ($"ana@example.com") (undisturbed db)).1 =
  (request_password_reset config (fun _ => 10%N) at_ same (fun _ => []) (fun _ _ => Ok []) ($"ana@example.com") (undisturbed nobody)).1.
Proof.
  intros nobody. split; [vm_compute; done|]. split; [vm_compute; done|].
  refine (proj1 (asking_tells_nothing config (fun _ => 10%N) at_ same (fun _ _ => 0%N) (fun _ => 0) [0] (fun _ => []) (fun _ _ => Ok []) None ($"ana@example.com") db nobody _)).
  vm_compute. reflexivity.
Defined.
