(* ===== verification/Messaging.v ===== *)
(** * Messages and what is unread
    ([backend/api/src/messaging/{repo,publisher,models}.rs],
    [threads/repo.rs])

    The statements and transactions over messages, and the counters of what
    is unread that the rows of members carry: a message that is sent bumps
    them, one that is deleted lowers them, reading clears them and a job
    counts them again.  Counters are unbounded here; the database refuses a
    count beyond 32 bits. *)

From stdpp Require Import base tactics option numbers list gmap sorting.
From Stdlib Require Import ZArith Lia String Ascii.
From S2P Require Import Prelude RustStr Json Errors Frames Publisher ListStore MessageStore ApiState Outbox AuditLog Tables Authz Membership.

Module NewMessage.
Record t := {
  channel_id : Uuid; user_id : Uuid; content : str; thread_parent_id : option Uuid; also_in_channel : bool;
  forwarded_from : option Uuid; client_message_id : option Uuid; mentioned : list Uuid;
}.
End NewMessage.

Module MarkedRead.
Record t := { boundary : option Uuid; before : option Uuid; before_at : option Z }.
End MarkedRead.

Module ReadState.
Record t := { channel_id : Uuid; unread_count : Z; mention_count : Z; last_read_message_id : option Uuid }.
End ReadState.

Module ReplyFollows.
Record t := {
  root_message_id : Uuid; workspace_id : Uuid; replier_id : Uuid; root_author_id : Uuid; mentioned : list Uuid; replied_at : Z;
}.
End ReplyFollows.

(** ** Seats *)

Module Seat.
Implicit Types m : ChannelMember.t.
Definition set_counts (unread mentions : Z) m : ChannelMember.t :=
  {| ChannelMember.channel_id := ChannelMember.channel_id m; ChannelMember.user_id := ChannelMember.user_id m;
     ChannelMember.role := ChannelMember.role m; ChannelMember.joined_at := ChannelMember.joined_at m;
     ChannelMember.unread_count := unread;
     ChannelMember.reading :=
       let r := ChannelMember.reading m in
       {| Reading.last_read_at := Reading.last_read_at r; Reading.last_read_message_id := Reading.last_read_message_id r;
          Reading.is_starred := Reading.is_starred r; Reading.muted := Reading.muted r;
          Reading.mention_count := mentions; Reading.notify_level := Reading.notify_level r |} |}.
Definition set_position (at_ : Z) (message : option Uuid) m : ChannelMember.t :=
  {| ChannelMember.channel_id := ChannelMember.channel_id m; ChannelMember.user_id := ChannelMember.user_id m;
     ChannelMember.role := ChannelMember.role m; ChannelMember.joined_at := ChannelMember.joined_at m;
     ChannelMember.unread_count := ChannelMember.unread_count m;
     ChannelMember.reading :=
       let r := ChannelMember.reading m in
       {| Reading.last_read_at := Some at_; Reading.last_read_message_id := message;
          Reading.is_starred := Reading.is_starred r; Reading.muted := Reading.muted r;
          Reading.mention_count := Reading.mention_count r; Reading.notify_level := Reading.notify_level r |} |}.
Definition mentions m : Z := Reading.mention_count (ChannelMember.reading m).
Definition last_read_at m : option Z := Reading.last_read_at (ChannelMember.reading m).
Definition last_read_msg m : option Uuid := Reading.last_read_message_id (ChannelMember.reading m).
End Seat.

(** [UPDATE channel_members .. WHERE]: the seats in [p], by their key. *)
Definition update_seats (p : Uuid * Uuid -> ChannelMember.t -> bool) (f : Uuid * Uuid -> ChannelMember.t -> ChannelMember.t)
    : AppTables -> AppTables :=
  set_channel_members (map_imap (fun k m => Some (if p k m then f k m else m))).

(** [last_read_at IS NULL OR created_at > last_read_at] *)
Definition not_read_at (at_ : Z) (m : ChannelMember.t) : bool :=
  match Seat.last_read_at m with None => true | Some read_at => read_at <? at_ end.

Section messaging.
Context `{UuidText}.
Context (draw : ApiDb -> Uuid) (now : Z) (show_time : Z -> str).
Implicit Types (t : AppTables) (m : Message.t) (ch u ws : Uuid).

Definition message_read {A} (q : MessageTables -> A) : Tx ApiDb A := read (fun t => q (message_tables t)).
Definition message_run (f : MessageTables -> MessageTables) : Tx ApiDb unit := run (set_message_tables f).

(** ** Writing a message *)

(** What a row refers to: its channel, its author and its parent. *)
Definition message_refers m t : bool :=
  bool_decide (is_Some (channels t !! Message.channel_id m)) && bool_decide (is_Some (users t !! Message.user_id m)) &&
  match Message.thread_parent_id m with
  | Some p => bool_decide (is_Some (messages (message_tables t) !! p))
  | None => true
  end.

(** [INSERT INTO messages]: [None] when a unique index refuses the row. *)
Definition insert_message (row : Uuid -> Message.t) : Tx ApiDb (option Message.t) :=
  id ← drawn draw;
  taken ← message_read (fun t : MessageTables => bool_decide (is_Some (messages t !! id)) ||
            client_id_taken (Message.channel_id (row id)) (Message.client_message_id (row id)) t);
  if taken : bool then mret None
  else
    there ← read (message_refers (row id));
    if negb there then foreign_key
    else _ ← message_run (put_message (row id)); mret (Some (row id)).

Definition unique_violation {A} : Tx ApiDb A := tx_fail (Database ($"duplicate key value violates unique constraint")).
Definition or_violation {A} (o : option A) : Tx ApiDb A := match o with Some a => mret a | None => unique_violation end.

Definition new_row_of ch u (client : option Uuid) (content : str) (metadata : json) (parent : option Uuid) (id : Uuid) : Message.t :=
  {| Message.id := id; Message.channel_id := ch; Message.user_id := u; Message.client_message_id := client;
     Message.content := content; Message.metadata := metadata; Message.thread_parent_id := parent;
     Message.reply_count := 0; Message.is_pinned := false; Message.created_at := now; Message.updated_at := now;
     Message.deleted_at := None |}.

(** [jsonb_strip_nulls(jsonb_build_object(..))] *)
Definition sent_metadata (also_in_channel : bool) (forwarded_from : option Uuid) : json := JObject (
  (if also_in_channel then [(ALSO_IN_CHANNEL, JBool true)] else []) ++
  match forwarded_from with
  | Some source => [($"forwarded_from", JObject [uuid_field "message_id" source])]
  | None => []
  end).

Definition bump (mentioned : list Uuid) (k : Uuid * Uuid) (m : ChannelMember.t) : ChannelMember.t :=
  Seat.set_counts (ChannelMember.unread_count m + 1) (Seat.mentions m + if bool_decide (k.2 ∈ mentioned) then 1 else 0) m.
Definition bump_unread ch (author : Uuid) (mentioned : list Uuid) : Tx ApiDb unit :=
  run (update_seats (fun k _ => bool_decide (k.1 = ch) && negb (bool_decide (k.2 = author))) (bump mentioned)).

Definition create_message_in (new : NewMessage.t) : Tx ApiDb (option Message.t) :=
  msg ← insert_message (new_row_of (NewMessage.channel_id new) (NewMessage.user_id new) (NewMessage.client_message_id new)
          (NewMessage.content new)
          (sent_metadata (NewMessage.also_in_channel new && bool_decide (is_Some (NewMessage.thread_parent_id new)))
             (NewMessage.forwarded_from new))
          (NewMessage.thread_parent_id new));
  match msg with
  | None => mret None
  | Some msg =>
      _ ← match NewMessage.thread_parent_id new with
          | Some parent => message_run (one_more_reply parent)
          | None => mret tt
          end;
      _ ← (if bool_decide (NewMessage.thread_parent_id new = None) || NewMessage.also_in_channel new
           then bump_unread (NewMessage.channel_id new) (NewMessage.user_id new) (NewMessage.mentioned new)
           else mret tt);
      mret (Some msg)
  end.

Definition create_bot_message_in ch (posted_by : Uuid) (content : str) (metadata : json) (mentioned : list Uuid) : Tx ApiDb Message.t :=
  msg ← insert_message (new_row_of ch posted_by None content metadata None);
  msg ← or_violation msg;
  _ ← bump_unread ch posted_by mentioned;
  mret msg.

Definition create_system_message_in ch u (content : str) (metadata : json) : Tx ApiDb Message.t :=
  msg ← insert_message (new_row_of ch u None content metadata None);
  or_violation msg.

(** ** Changing a message *)

(** [UPDATE .. RETURNING] of one row. *)
Definition change_message (f : Message.t -> Message.t) (id : Uuid) : Tx ApiDb Message.t :=
  _ ← message_run (alter_message f id);
  m ← message_read (fun t : MessageTables => messages t !! id);
  tx_require (Database ($"no rows returned by a query that expected to return at least one row")) m.

Definition insert_edit (id : Uuid) (editor : Uuid) : Tx ApiDb unit :=
  m ← message_read (fun t : MessageTables => messages t !! id);
  match m with
  | None => mret tt
  | Some m =>
      edit ← drawn draw;
      taken ← message_read (fun t : MessageTables => bool_decide (is_Some (message_edits t !! edit)));
      if taken : bool then unique_violation
      else
        there ← read (fun t => bool_decide (is_Some (users t !! editor)));
        if negb there then foreign_key
        else message_run (set_message_edits (<[edit := keep_edit now edit editor m]>))
  end.

Definition update_message_in (id : Uuid) (content : str) (edited_by : Uuid) : Tx ApiDb Message.t :=
  _ ← insert_edit id edited_by;
  _ ← message_run (prune_edits id);
  change_message (Message.set_content content now) id.

Definition soft_delete_message_in (id : Uuid) : Tx ApiDb (option Message.t) :=
  deleted ← message_read (soft_delete now id);
  _ ← message_run (fun _ => deleted.1);
  mret deleted.2.

Definition set_pinned_in (id : Uuid) (pinned : bool) : Tx ApiDb Message.t := change_message (Message.set_pinned pinned) id.
Definition set_attachments_in (id : Uuid) (attachments : json) : Tx ApiDb Message.t :=
  change_message (Message.set_metadata (set_attachments attachments)) id.
Definition reset_unfurls_in (id : Uuid) : Tx ApiDb Message.t :=
  change_message (Message.set_metadata (jsonb_remove ($"unfurls_source"))) id.
Definition hide_unfurls_in (id : Uuid) : Tx ApiDb Message.t :=
  change_message (Message.set_metadata (fun d => jsonb_concat (jsonb_remove ($"unfurls") d) (JObject [($"unfurls_hidden", JBool true)]))) id.

(** [None] when the person reacted so already. *)
Definition add_reaction_in (message u : Uuid) (emoji : str) : Tx ApiDb (option Reaction.t) :=
  id ← drawn draw;
  let r := {| Reaction.id := id; Reaction.message_id := message; Reaction.user_id := u; Reaction.emoji := emoji;
              Reaction.created_at := now |} in
  taken ← message_read (fun t : MessageTables => bool_decide (is_Some (reactions t !! id)) ||
                                 existsb (reacted message u emoji) (map_to_list (reactions t)).*2);
  if taken : bool then mret None
  else
    there ← read (fun t => bool_decide (is_Some (messages (message_tables t) !! message)) && bool_decide (is_Some (users t !! u)));
    if negb there then foreign_key
    else _ ← message_run (set_reactions (<[id := r]>)); mret (Some r).
Definition remove_reaction_in (message u : Uuid) (emoji : str) : Tx ApiDb unit := message_run (unreact message u emoji).

(** ** What is unread *)

(** Whether [m] is no later than [n]: [(created_at, id) <= (created_at, id)]. *)
Definition up_to (n : Message.t) m : bool := bool_decide (precedes m n) || bool_decide (Message.created_at m = Message.created_at n /\ Message.id m = Message.id n).

Definition boundary_of ch (message : Uuid) t : option Uuid :=
  n ← messages (message_tables t) !! message;
  if bool_decide (Message.channel_id n = ch) then newest ch (up_to n) (message_tables t) else None.

Definition read_to (message : option Uuid) (m : ChannelMember.t) : ChannelMember.t :=
  Seat.set_counts 0 0 (Seat.set_position now message m).

Definition mark_read_in ch u (message : Uuid) : Tx ApiDb (option MarkedRead.t) :=
  seat ← read (fun t => channel_members t !! (ch, u));
  match seat with
  | None => mret None
  | Some seat =>
      boundary ← read (boundary_of ch message);
      _ ← run (set_channel_members (<[(ch, u) := read_to boundary seat]>));
      let moved := (0 <? ChannelMember.unread_count seat) && negb (bool_decide (Seat.last_read_msg seat = boundary)) in
      mret (Some {| MarkedRead.boundary := boundary;
                    MarkedRead.before := if moved then Seat.last_read_msg seat else None;
                    MarkedRead.before_at := if moved then Seat.last_read_at seat else None |})
  end.

(** The seats of a person in a workspace that have something unread, with the
    newest message of each. *)
Definition unread_seats ws u t : list (Uuid * (ChannelMember.t * Uuid)) :=
  omap (fun p : Uuid * Uuid * ChannelMember.t =>
      let '(ch, x, m) := p in
      if bool_decide (x = u /\ in_workspace t ws ch) && ((0 <? ChannelMember.unread_count m) || (0 <? Seat.mentions m))
      then (fun n => (ch, (m, n))) <$> newest ch (fun _ => true) (message_tables t) else None)
    (map_to_list (channel_members t)).
Definition mark_workspace_read_in ws u : Tx ApiDb (list ReadState.t) :=
  seats ← read (unread_seats ws u);
  _ ← run (set_channel_members (fun cm => foldr (fun s cm => <[(s.1, u) := read_to (Some s.2.2) s.2.1]> cm) cm seats));
  mret ((fun s => {| ReadState.channel_id := s.1; ReadState.unread_count := 0; ReadState.mention_count := 0;
                     ReadState.last_read_message_id := Some s.2.2 |}) <$> seats).

(** The messages from the target on that count for a person. *)
Definition from_on ch (n : Message.t) m : bool :=
  bool_decide (Message.channel_id m = ch) && is_live m && in_feed m && (Message.created_at n <=? Message.created_at m).

Definition mark_unread_in ch u (message : Uuid) : Tx ApiDb (option ReadState.t) :=
  target ← message_read (fun t : MessageTables => n ← find_message message t; if bool_decide (Message.channel_id n = ch) then Some n else None);
  seat ← read (fun t => channel_members t !! (ch, u));
  match target, seat with
  | Some n, Some seat =>
      previous ← message_read (newest ch (fun m => bool_decide (precedes m n)));
      unread ← message_read (count_if (fun m => from_on ch n m && negb (bool_decide (Message.user_id m = u))));
      mentions ← message_read (mentions_in u (from_on ch n));
      _ ← run (set_channel_members (<[(ch, u) :=
            Seat.set_counts unread mentions (Seat.set_position (Message.created_at n - 1) previous seat)]>));
      mret (Some {| ReadState.channel_id := ch; ReadState.unread_count := unread; ReadState.mention_count := mentions;
                    ReadState.last_read_message_id := previous |})
  | _, _ => mret None
  end.

(** [GREATEST(unread_count - 1, 0)] *)
Definition lower (_ : Uuid * Uuid) (m : ChannelMember.t) : ChannelMember.t :=
  Seat.set_counts (Z.max (ChannelMember.unread_count m - 1) 0) (Seat.mentions m) m.
Definition drop_unread_for_message ch (message author : Uuid) : Tx ApiDb unit :=
  m ← message_read (fun t : MessageTables => messages t !! message);
  match m with
  | Some m =>
      if in_feed m then
        run (update_seats (fun k s => bool_decide (k.1 = ch) && negb (bool_decide (k.2 = author)) && not_read_at (Message.created_at m) s) lower)
      else mret tt
  | None => mret tt
  end.

(** The channels somebody wrote in lately. *)
Definition recent (since_hours : Z) ch t : bool :=
  bool_decide (is_Some (channels t !! ch)) &&
  existsb (fun m => bool_decide (Message.channel_id m = ch) && (now - since_hours * 3600 * SECOND <? Message.created_at m))
    (all_messages (message_tables t)).
Definition truth t (k : Uuid * Uuid) (m : ChannelMember.t) : Z := unread_truth k.1 k.2 (Seat.last_read_at m) (message_tables t).
Definition drifted (since_hours : Z) t (k : Uuid * Uuid) (m : ChannelMember.t) : bool :=
  recent since_hours k.1 t && negb (ChannelMember.unread_count m =? truth t k m).
Definition recount t (k : Uuid * Uuid) (m : ChannelMember.t) : ChannelMember.t := Seat.set_counts (truth t k m) (Seat.mentions m) m.
Definition reconcile_unread_counts (since_hours : Z) : Tx ApiDb Z :=
  wrong ← read (fun t => filter (fun p => drifted since_hours t p.1 p.2 = true) (channel_members t));
  _ ← run (fun t => update_seats (drifted since_hours t) (recount t) t);
  mret (Z.of_nat (size wrong)).

(** ** Following a thread *)

Definition follows_run (f : gmap (Uuid * Uuid) ThreadFollow.t -> gmap (Uuid * Uuid) ThreadFollow.t) : Tx ApiDb unit :=
  message_run (set_thread_follows f).
Definition is_member ws u t : bool := bool_decide (is_Some (workspace_members t !! (ws, u))).

(** [ON CONFLICT (user_id, root_message_id)] *)
Definition upsert_follow (k : Uuid * Uuid) (row : ThreadFollow.t) (again : ThreadFollow.t -> ThreadFollow.t)
    : gmap (Uuid * Uuid) ThreadFollow.t -> gmap (Uuid * Uuid) ThreadFollow.t :=
  partial_alter (fun there => Some match there with Some f => again f | None => row end) k.

Definition follow_on_reply_in (f : ReplyFollows.t) : Tx ApiDb unit :=
  let ws := ReplyFollows.workspace_id f in let root := ReplyFollows.root_message_id f in
  let replier := ReplyFollows.replier_id f in let at_ := ReplyFollows.replied_at f in
  let missed := follow_row ws (at_ - 1) in
  here ← read (is_member ws replier);
  _ ← (if here : bool then follows_run (upsert_follow (replier, root) (follow_row ws at_) (follow_again (Some at_))) else mret tt);
  author ← read (fun t => is_member ws (ReplyFollows.root_author_id f) t && negb (bool_decide (ReplyFollows.root_author_id f = replier)));
  _ ← (if author : bool then follows_run (upsert_follow (ReplyFollows.root_author_id f, root) missed id) else mret tt);
  others ← read (fun t => filter (fun u => is_member ws u t = true /\ u <> replier) (ReplyFollows.mentioned f));
  follows_run (fun fs => foldr (fun u => upsert_follow (u, root) missed (follow_again None)) fs others).

(** ** Events ([publisher.rs]) *)

Definition bool_json (b : bool) : json := JBool b.
Definition message_json m : json := JObject [
  uuid_field "id" (Message.id m); uuid_field "channel_id" (Message.channel_id m); uuid_field "user_id" (Message.user_id m);
  ($"client_message_id", uuid_opt (Message.client_message_id m)); ($"content", JString (Message.content m));
  ($"metadata", Message.metadata m); ($"thread_parent_id", uuid_opt (Message.thread_parent_id m));
  ($"reply_count", int_json (Message.reply_count m)); ($"is_pinned", bool_json (Message.is_pinned m));
  ($"created_at", time_json show_time (Message.created_at m)); ($"updated_at", time_json show_time (Message.updated_at m));
  ($"deleted_at", match Message.deleted_at m with Some at_ => time_json show_time at_ | None => JNull end)].

Definition message_created_payload (message : json) ws (mentioned : list Uuid) : json :=
  obj_insert ($"mentioned_user_ids") (JArray ((fun u => JString (uuid_to_string u)) <$> mentioned))
    (obj_insert ($"workspace_id") (JString (uuid_to_string ws)) message).
Definition stage_message_created m ws (mentioned : list Uuid) : Tx ApiDb Staged :=
  stage_in draw now "message.created" ws (message_created_payload (message_json m) ws mentioned).
Definition stage_message_updated m ws : Tx ApiDb Staged := stage_in draw now "message.updated" ws (message_json m).
Definition stage_message_deleted (message ch ws : Uuid) : Tx ApiDb Staged :=
  stage_in draw now "message.deleted" ws (JObject [uuid_field "message_id" message; uuid_field "channel_id" ch]).
Definition stage_message_pinned (message ch ws : Uuid) (pinned : bool) : Tx ApiDb Staged :=
  stage_in draw now "message.pinned" ws
    (JObject [uuid_field "message_id" message; uuid_field "channel_id" ch; ($"pinned", JBool pinned)]).
Definition reaction_json (r : Reaction.t) : json := JObject [
  uuid_field "id" (Reaction.id r); uuid_field "message_id" (Reaction.message_id r); uuid_field "user_id" (Reaction.user_id r);
  ($"emoji", JString (Reaction.emoji r)); ($"created_at", time_json show_time (Reaction.created_at r))].
Definition stage_reaction_added (r : Reaction.t) ch ws : Tx ApiDb Staged :=
  stage_in draw now "reaction.added" ws (obj_insert ($"channel_id") (JString (uuid_to_string ch)) (reaction_json r)).
Definition stage_reaction_removed (message ch ws u : Uuid) (emoji : str) : Tx ApiDb Staged :=
  stage_in draw now "reaction.removed" ws
    (JObject [uuid_field "message_id" message; uuid_field "channel_id" ch; uuid_field "user_id" u; ($"emoji", JString emoji)]).
Definition read_state_payload u ws (r : ReadState.t) : json := JObject [
  uuid_field "user_id" u; uuid_field "workspace_id" ws; uuid_field "channel_id" (ReadState.channel_id r);
  ($"unread_count", int_json (ReadState.unread_count r)); ($"mention_count", int_json (ReadState.mention_count r));
  ($"last_read_message_id", uuid_opt (ReadState.last_read_message_id r))].
End messaging.

(** Messages in the public channel of [Authz.SampleTables]. *)
Module SampleMessages.
Definition message (id u : Uuid) (at_ : Z) (content : str) (parent : option Uuid) : Message.t :=
  {| Message.id := id; Message.channel_id := 30%N; Message.user_id := u; Message.client_message_id := Some (id + 1000)%N;
     Message.content := content; Message.metadata := JObject []; Message.thread_parent_id := parent; Message.reply_count := 0;
     Message.is_pinned := false; Message.created_at := at_; Message.updated_at := at_; Message.deleted_at := None |}.
Definition seat (u : Uuid) (unread : Z) : ChannelMember.t :=
  Seat.set_counts unread 0 (Authz.SampleTables.membership 30%N u ChannelRole.Member).
Definition keyed (rows : list Message.t) : gmap Uuid Message.t := list_to_map ((fun m => (Message.id m, m)) <$> rows).
Definition seated (seats : list ChannelMember.t) : gmap (Uuid * Uuid) ChannelMember.t :=
  list_to_map ((fun s => ((ChannelMember.channel_id s, ChannelMember.user_id s), s)) <$> seats).
Definition tables (rows : list Message.t) (seats : list ChannelMember.t) : AppTables :=
  set_message_tables (set_messages (fun _ => keyed rows)) (set_channel_members (fun _ => seated seats) Authz.SampleTables.tables).
Definition db (rows : list Message.t) (seats : list ChannelMember.t) : ApiDb :=
  with_app (fun _ => tables rows seats) Authz.SampleTables.db.
End SampleMessages.
