(* ===== verification/Files.v ===== *)
(** * Files of messages
    ([backend/api/src/files/{service,storage,repo,models,routes}.rs])

    The objects of the store, the rows that name them and who may read and
    remove them.  The store is the set of its keys: what an object holds is not
    modelled, nor is how an upload arrives. *)

From stdpp Require Import base tactics option numbers list gmap sorting.
From Stdlib Require Import ZArith Lia String Ascii.
From S2P Require Import Prelude RustStr Json Errors Frames Publisher FileNames ListStore MessageStore ApiState Outbox AuditLog Tables Authz Membership Messaging.

Definition MAX_ATTACHMENTS : nat := 10.
Definition DRAFT_SWEEP_BATCH : Z := 200.

Module NewFile.
Record t := {
  user_id : Uuid; workspace_id : Uuid; message_id : option Uuid; filename : str; storage_key : str; mime_type : str;
  size_bytes : Z; draft_until : option Z; thumbnail_key : option str; width : option Z; height : option Z;
}.
End NewFile.

Module CopiedObject.
Record t := { source : FileRecord.t; storage_key : str; thumbnail_key : option str }.
End CopiedObject.

Module Attachment.
Record t := {
  id : Uuid; filename : str; mime_type : str; size_bytes : Z; url : str; thumbnail_url : option str;
  width : option Z; height : option Z;
}.
Section serde.
Context `{UuidText}.
Definition to_json (a : t) : json := JObject (
  [uuid_field "id" (id a); ($"filename", JString (filename a)); ($"mime_type", JString (mime_type a));
   ($"size_bytes", int_json (size_bytes a)); ($"url", JString (url a))] ++
  match thumbnail_url a with Some u => [($"thumbnail_url", JString u)] | None => [] end ++
  match width a with Some w => [($"width", int_json w)] | None => [] end ++
  match height a with Some h => [($"height", int_json h)] | None => [] end).

(** [#[serde(default)]] of an optional field: absent and [null] are [None], a
    value of another type is an error. *)
Definition optional {A} (f : json -> option A) (v : option json) : option (option A) :=
  match v with None | Some JNull => Some None | Some v => Some <$> f v end.
Definition i32_of (v : json) : option Z := as_i64 v ≫= i32_try_from.
Definition text_of (v : option json) : option str := v ≫= as_str.
Definition build (id_ filename_ mime size url_ thumb w h : option json) : option t :=
  match text_of id_ ≫= uuid_parse, text_of filename_, text_of mime, size ≫= as_i64, text_of url_,
        optional as_str thumb, optional i32_of w, optional i32_of h with
  | Some id_, Some filename_, Some mime, Some size, Some url_, Some thumb, Some w, Some h =>
      Some {| id := id_; filename := filename_; mime_type := mime; size_bytes := size; url := url_; thumbnail_url := thumb;
              width := w; height := h |}
  | _, _, _, _, _, _, _, _ => None
  end.
(** A structure reads from an object by its names or from an array by
    position. *)
Definition of_json (v : json) : option t :=
  match v with
  | JObject _ => build (get ($"id") v) (get ($"filename") v) (get ($"mime_type") v) (get ($"size_bytes") v) (get ($"url") v)
                   (get ($"thumbnail_url") v) (get ($"width") v) (get ($"height") v)
  | JArray l => if Nat.leb (length l) 8 then build (l !! 0%nat) (l !! 1%nat) (l !! 2%nat) (l !! 3%nat) (l !! 4%nat) (l !! 5%nat) (l !! 6%nat) (l !! 7%nat)
                else None
  | _ => None
  end.
End serde.
End Attachment.

Section storage.
(** [object_store::path::Path::parse] takes the key. *)
Context (path_parses : str -> bool).

Definition parse_key (key : str) : AppResult unit :=
  if starts_with ($"/") key || negb (path_parses key) then Err (BadRequest ($"invalid path")) else Ok tt.
Definition storage_error {A} (action : str) (f : svc_fault) : AppResult A :=
  Err (Internal ($"Storage " ++ action ++ $" failed: " ++ fault_text f)).
Definition with_objects (f : gset str -> gset str) (d : ApiDb) : ApiDb := with_app (set_message_tables (set_objects f)) d.

Definition copy_object (from to : str) : Api unit :=
  _ ←? mret (parse_key from);
  _ ←? mret (parse_key to);
  copied ← svc_call (fun d : ApiDb =>
    if bool_decide (from ∈ objects (message_tables (app d))) then (with_objects (union {[to]}) d, true) else (d, false));
  mret (match copied with
        | Ok true => Ok tt
        | Ok false => Err (NotFound ($"File not found"))
        | Err f => storage_error ($"copy") f
        end).
(** Some stores tell that the object was not there; nobody asks. *)
Definition delete_object (key : str) : Api unit :=
  _ ←? mret (parse_key key);
  gone ← svc_write (with_objects (fun o => o ∖ {[key]}));
  mret (match gone with Ok _ => Ok tt | Err f => storage_error ($"delete") f end).
(** A failure is logged. *)
Definition delete_logged (key : str) : Svc ApiDb unit := svc_ignore (delete_object key).

Definition keys_of (key : str) (thumbnail : option str) : list str := key :: option_list thumbnail.
Definition discard_copies (copied : list CopiedObject.t) : Svc ApiDb unit :=
  svc_each (copied ≫= fun c => keys_of (CopiedObject.storage_key c) (CopiedObject.thumbnail_key c)) delete_logged.
Definition purge_objects (records : list FileRecord.t) : Svc ApiDb unit :=
  svc_each (records ≫= fun r => keys_of (FileRecord.storage_key r) (FileRecord.thumbnail_key r)) delete_logged.

(** ** Copies for a forwarded message *)

Context `{UuidText}.
(** The identifiers drawn for the keys of the n-th copy. *)
Context (fresh : nat -> Uuid * Uuid).

Definition object_key (ws id : Uuid) (filename : str) : str :=
  uuid_to_string ws ++ $"/" ++ uuid_to_string id ++ $"/" ++ storage_name filename.
Definition last_segment (key : str) : str := after_last (Z.eqb 47) key.

Definition copy_one (n : nat) (source : FileRecord.t) (ws : Uuid) : Api (str * option str) :=
  let storage_key := object_key ws (fresh n).1 (last_segment (FileRecord.storage_key source)) in
  _ ←? copy_object (FileRecord.storage_key source) storage_key;
  match FileRecord.thumbnail_key source with
  | None => mret (Ok (storage_key, None))
  | Some thumbnail =>
      let thumbnail_key := object_key ws (fresh n).2 (last_segment thumbnail) in
      copied ← copy_object thumbnail thumbnail_key;
      match copied with
      | Ok _ => mret (Ok (storage_key, Some thumbnail_key))
      | Err e => _ ← delete_object storage_key; mret (Err e)
      end
  end.
Fixpoint copy_each (sources : list FileRecord.t) (ws : Uuid) (copied : list CopiedObject.t) : Api (list CopiedObject.t) :=
  match sources with
  | [] => mret (Ok copied)
  | source :: sources =>
      keys ← copy_one (length copied) source ws;
      match keys with
      | Ok (key, thumbnail) =>
          copy_each sources ws (copied ++ [{| CopiedObject.source := source; CopiedObject.storage_key := key; CopiedObject.thumbnail_key := thumbnail |}])
      | Err e => _ ← discard_copies copied; mret (Err e)
      end
  end.
Definition copy_objects (sources : list FileRecord.t) (ws : Uuid) : Api (list CopiedObject.t) := copy_each sources ws [].
End storage.

(** ** Rows *)

Section rows.
Context `{UuidText} (entry_id : str -> list (str * str * Event) -> str) (draw : ApiDb -> Uuid) (now : Z) (show_time : Z -> str).
(** The address of the installation, the parser of keys. *)
Context (public_address : str) (path_parses : str -> bool).

Definition public_url (key : str) : str := public_address ++ $"/api/files/download/" ++ key.

Definition attachment (f : FileRecord.t) : Attachment.t :=
  {| Attachment.id := FileRecord.id f; Attachment.filename := FileRecord.filename f; Attachment.mime_type := FileRecord.mime_type f;
     Attachment.size_bytes := FileRecord.size_bytes f; Attachment.url := public_url (FileRecord.storage_key f);
     Attachment.thumbnail_url := public_url <$> FileRecord.thumbnail_key f; Attachment.width := FileRecord.width f;
     Attachment.height := FileRecord.height f |}.
Definition json_of (l : list Attachment.t) : json := JArray (Attachment.to_json <$> l).
Definition attachments_json (records : list FileRecord.t) : json := json_of (attachment <$> records).
Definition attachments_in (metadata : json) : list Attachment.t :=
  match get ($"attachments") metadata with
  | Some (JArray l) => default [] (mapM Attachment.of_json l)
  | _ => []
  end.

Definition check_attachment_ids (ids : list Uuid) : AppResult unit :=
  if Nat.ltb MAX_ATTACHMENTS (length ids) then Err (Validation ($"A message can carry at most 10 files"))
  else if negb (bool_decide (NoDup ids)) then Err (Validation ($"The same file is attached twice"))
  else Ok tt.

(** [sort_by_key] of the place in the list asked for. *)
Definition place (ids : list Uuid) (f : FileRecord.t) : nat :=
  match position (fun id => bool_decide (id = FileRecord.id f)) ids with Some i => S i | None => 0 end.
Definition place_le (ids : list Uuid) (a b : FileRecord.t) : Prop := (place ids a <= place ids b)%nat.
#[global] Instance place_le_dec ids a b : Decision (place_le ids a b).
Proof. unfold place_le. apply _. Defined.

Definition claim_drafts_in (ids : list Uuid) (message ws u : Uuid) : Tx ApiDb (list FileRecord.t) :=
  match ids with
  | [] => mret []
  | _ =>
      claimed ← message_read (claim_drafts ids message ws u);
      _ ← message_run (fun _ => claimed.1);
      if negb (Nat.eqb (length claimed.2) (length ids)) then
        tx_fail (Validation ($"Attach only files you uploaded here and have not sent yet"))
      else mret (merge_sort (place_le ids) claimed.2)
  end.

Definition file_row (new : NewFile.t) (id : Uuid) : FileRecord.t :=
  {| FileRecord.id := id; FileRecord.message_id := NewFile.message_id new; FileRecord.user_id := NewFile.user_id new;
     FileRecord.workspace_id := NewFile.workspace_id new; FileRecord.filename := NewFile.filename new;
     FileRecord.storage_key := NewFile.storage_key new; FileRecord.mime_type := NewFile.mime_type new;
     FileRecord.size_bytes := NewFile.size_bytes new; FileRecord.thumbnail_key := NewFile.thumbnail_key new;
     FileRecord.width := NewFile.width new; FileRecord.height := NewFile.height new; FileRecord.created_at := now;
     FileRecord.draft_until := NewFile.draft_until new |}.
Definition file_refers (new : NewFile.t) (t : AppTables) : bool :=
  bool_decide (is_Some (users t !! NewFile.user_id new)) && bool_decide (is_Some (workspaces t !! NewFile.workspace_id new)) &&
  match NewFile.message_id new with Some m => bool_decide (is_Some (messages (message_tables t) !! m)) | None => true end.
Definition create_file_in (new : NewFile.t) : Tx ApiDb FileRecord.t :=
  id ← drawn draw;
  taken ← message_read (fun t : MessageTables => bool_decide (is_Some (files t !! id)));
  if taken : bool then unique_violation
  else
    there ← read (file_refers new);
    if negb there then foreign_key
    else _ ← message_run (set_files (<[id := file_row new id]>)); mret (file_row new id).

Definition copy_row (message ws u : Uuid) (c : CopiedObject.t) : NewFile.t :=
  {| NewFile.user_id := u; NewFile.workspace_id := ws; NewFile.message_id := Some message;
     NewFile.filename := FileRecord.filename (CopiedObject.source c); NewFile.storage_key := CopiedObject.storage_key c;
     NewFile.mime_type := FileRecord.mime_type (CopiedObject.source c); NewFile.size_bytes := FileRecord.size_bytes (CopiedObject.source c);
     NewFile.draft_until := None; NewFile.thumbnail_key := CopiedObject.thumbnail_key c;
     NewFile.width := FileRecord.width (CopiedObject.source c); NewFile.height := FileRecord.height (CopiedObject.source c) |}.
Definition record_copies_in (copied : list CopiedObject.t) (message ws u : Uuid) : Tx ApiDb (list FileRecord.t) :=
  tx_each (fun c => create_file_in (copy_row message ws u c)) copied.

(** [DELETE .. WHERE message_id = .. RETURNING] *)
Definition delete_for_message (message : Uuid) (t : MessageTables) : MessageTables * list FileRecord.t :=
  delete_from_message_except message [] t.
Definition delete_for_channel_message (message : Uuid) : Svc ApiDb unit :=
  gone ← svc_call (fun d : ApiDb =>
    let '(t, records) := delete_for_message message (message_tables (app d)) in (with_app (set_message_tables (fun _ => t)) d, records));
  match gone with
  | Ok records => purge_objects path_parses records
  | Err _ => mret tt
  end.

(** *** Drafts nobody sent *)

Definition expired (f : FileRecord.t) : bool :=
  match FileRecord.draft_until f with Some at_ => at_ <? now | None => false end && bool_decide (FileRecord.message_id f = None).
Definition draft_le (a b : FileRecord.t) : Prop := default 0 (FileRecord.draft_until a) <= default 0 (FileRecord.draft_until b).
#[global] Instance draft_le_dec a b : Decision (draft_le a b).
Proof. unfold draft_le. apply _. Defined.
Definition delete_expired_drafts (limit : Z) (t : MessageTables) : MessageTables * list FileRecord.t :=
  let gone := take (Z.to_nat limit) (merge_sort draft_le (filter (fun f => expired f = true) (map_to_list (files t)).*2)) in
  (set_files (filter (fun p => p.1 ∉ FileRecord.id <$> gone)) t, gone).
(** Batches until one is empty; the number swept. *)
Fixpoint sweep_expired_drafts (fuel : nat) (swept : nat) : Svc ApiDb (option nat) :=
  match fuel with
  | O => mret None
  | S fuel =>
      gone ← svc_call (fun d : ApiDb =>
        let '(t, records) := delete_expired_drafts DRAFT_SWEEP_BATCH (message_tables (app d)) in
        (with_app (set_message_tables (fun _ => t)) d, records));
      match gone with
      | Ok [] => mret (Some swept)
      | Ok records => _ ← purge_objects path_parses records; sweep_expired_drafts fuel (swept + length records)
      | Err _ => mret (Some swept)
      end
  end.

Definition hold_draft (ids : list Uuid) (ws u : Uuid) (until : Z) (id : Uuid) (f : FileRecord.t) : FileRecord.t :=
  if bool_decide (id ∈ ids) && is_draft ws u f then
    {| FileRecord.id := FileRecord.id f; FileRecord.message_id := FileRecord.message_id f; FileRecord.user_id := FileRecord.user_id f;
       FileRecord.workspace_id := FileRecord.workspace_id f; FileRecord.filename := FileRecord.filename f;
       FileRecord.storage_key := FileRecord.storage_key f; FileRecord.mime_type := FileRecord.mime_type f;
       FileRecord.size_bytes := FileRecord.size_bytes f; FileRecord.thumbnail_key := FileRecord.thumbnail_key f;
       FileRecord.width := FileRecord.width f; FileRecord.height := FileRecord.height f;
       FileRecord.created_at := FileRecord.created_at f; FileRecord.draft_until := Some until |}
  else f.
Definition hold_drafts (ids : list Uuid) (ws u : Uuid) (until : Z) : Api Z :=
  sql (fun d => (with_app (set_message_tables (set_files (map_imap (fun id f => Some (hold_draft ids ws u until id f))))) d,
    Z.of_nat (size (drafts_of ids ws u (message_tables (app d)))))).

(** Everything somebody uploaded, objects first. *)
Definition erase_uploads (u : Uuid) : Api Z :=
  records ←? query (fun t => filter (fun f => FileRecord.user_id f = u) (map_to_list (files (message_tables t))).*2);
  _ ← purge_objects path_parses records;
  sql (fun d : ApiDb =>
    let gone := filter (fun p => p.1 ∈ FileRecord.id <$> records) (files (message_tables (app d))) in
    (with_app (set_message_tables (set_files (fun f => f ∖ gone))) d, Z.of_nat (size gone))).

(** ** Who may read and remove a file ([routes.rs]) *)

Definition find_file (id : Uuid) : Api FileRecord.t :=
  f ←? query (fun t => files (message_tables t) !! id);
  require (NotFound ($"File not found")) f.
Definition channel_id_for_message (message : Uuid) : Api (option Uuid) :=
  query (fun t => Message.channel_id <$> messages (message_tables t) !! message).
Definition channel_of_file (f : FileRecord.t) : Api (option Uuid) :=
  match FileRecord.message_id f with Some message => channel_id_for_message message | None => mret (Ok None) end.

Definition require_file_access (f : FileRecord.t) (u : Uuid) : Api unit :=
  channel ←? channel_of_file f;
  match channel with
  | Some channel => _ ←? require_channel_access channel u; mret (Ok tt)
  | None =>
      if bool_decide (FileRecord.user_id f = u) then _ ←? require_workspace_member (FileRecord.workspace_id f) u; mret (Ok tt)
      else refuse ($"Not allowed to read this file")
  end.
Definition require_file_moderator (f : FileRecord.t) (u : Uuid) (member : WorkspaceMember.t) : Api unit :=
  if has_at_least (WorkspaceMember.role member) Admin then mret (Ok tt)
  else
    channel ←? channel_of_file f;
    match channel with
    | Some channel => channel ←? find_channel channel; require_channel_moderator channel u
    | None => refuse ($"Requires the uploader, a channel admin or a workspace admin")
    end.
Definition require_open_channel (f : FileRecord.t) : Api unit :=
  channel ←? channel_of_file f;
  match channel with
  | Some channel => channel ←? find_channel channel; mret (require_not_archived channel)
  | None => mret (Ok tt)
  end.

Definition get_file_meta (auth : AuthUser.t) (id : Uuid) : Api (FileRecord.t * str) :=
  f ←? find_file id;
  _ ←? require_file_access f (AuthUser.user_id auth);
  mret (Ok (f, public_url (FileRecord.storage_key f))).

(** The row a key of an upload names; avatars, icons and emoji have keys of
    their own. *)
Definition find_by_storage_key (key : str) (t : MessageTables) : option FileRecord.t :=
  head (filter (fun f => FileRecord.storage_key f = key \/ FileRecord.thumbnail_key f = Some key) (map_to_list (files t)).*2).

Definition update_and_announce (ws : Uuid) (change : Tx ApiDb Message.t) : Api Message.t :=
  done ←? transaction (
    msg ← change;
    staged ← stage_message_updated draw now show_time msg ws;
    mret (msg, staged));
  _ ← dispatch entry_id now done.2;
  mret (Ok done.1).

Definition detach_from_message (message file_id : Uuid) : Api unit :=
  found ←? query (fun t => find_message message (message_tables t));
  match found with
  | None => mret (Ok tt)
  | Some m =>
      let remaining := filter (fun a => Attachment.id a <> file_id) (attachments_in (Message.metadata m)) in
      channel ←? find_channel (Message.channel_id m);
      _ ←? update_and_announce (Channel.workspace_id channel) (set_attachments_in message (json_of remaining));
      mret (Ok tt)
  end.

Definition delete_file (auth : AuthUser.t) (ip : option str) (id : Uuid) : Api unit :=
  f ←? find_file id;
  member ←? require_workspace_member (FileRecord.workspace_id f) (AuthUser.user_id auth);
  let moderated := negb (bool_decide (FileRecord.user_id f = AuthUser.user_id auth)) in
  _ ←? (if moderated then require_file_moderator f (AuthUser.user_id auth) member else mret (Ok tt));
  _ ←? require_open_channel f;
  _ ← purge_objects path_parses [f];
  _ ←? sql (fun d => (with_app (set_message_tables (set_files (delete id))) d, tt));
  _ ←? match FileRecord.message_id f with Some message => detach_from_message message id | None => mret (Ok tt) end;
  _ ← record now (audit_entry ip FileDeleted (AuthUser.user_id auth) (FileRecord.workspace_id f) id
    (JObject [($"filename", JString (FileRecord.filename f)); uuid_field "uploader_id" (FileRecord.user_id f); ($"moderated", JBool moderated)]));
  mret (Ok tt).
End rows.
