(* ===== verification/Threads.v ===== *)
(** * Threads people follow ([backend/api/src/threads/{routes,repo,models}.rs])

    Who follows a thread and how much of it they have not read. *)

From stdpp Require Import base tactics option numbers list gmap sorting.
From Stdlib Require Import ZArith Lia String Ascii.
From S2P Require Import Prelude RustStr Json Errors Frames Publisher ListStore MessageStore ApiState Outbox AuditLog Tables Authz Membership Messaging.

Module ThreadState.
Record t := { root_message_id : Uuid; following : bool; unread_count : Z }.
End ThreadState.
Module FollowerState.
Record t := { user_id : Uuid; following : bool; unread_count : Z }.
End FollowerState.
Module FollowedThread.
Record t := { root_message_id : Uuid; unread_count : Z; last_read_at : Z; last_reply_at : Z }.
End FollowedThread.
Module ThreadSummary.
Record t := { root : Message.t; latest_replies : list Message.t; unread_count : Z; last_read_at : Z; last_reply_at : Z }.
End ThreadSummary.
Module ThreadPage.
Record t := { data : list ThreadSummary.t; next_cursor : option Z }.
End ThreadPage.

Definition LATEST_REPLIES : Z := 3.

(** [unwrap_or(default).clamp(low, high)] *)
Definition limited (default_ low high : Z) (limit : option Z) : Z := Z.max low (Z.min high (default default_ limit)).

Section threads.
Context `{UuidText} (entry_id : str -> list (str * str * Event) -> str) (draw : ApiDb -> Uuid) (now : Z).
(** The order the database gives rows that no [ORDER BY] tells apart. *)
Context (any_order : list FollowedThread.t -> list FollowedThread.t).
Implicit Types (t : AppTables) (u ws root ch : Uuid).

Definition live_replies root t : list Message.t :=
  filter (fun m => Message.thread_parent_id m = Some root /\ Message.deleted_at m = None) (all_messages (message_tables t)).
Definition latest_at root t : option Z :=
  foldr (fun m at_ => Some (match at_ with Some a => Z.max a (Message.created_at m) | None => Message.created_at m end)) None (live_replies root t).

(** Whether a follower still sees the thread. *)
Definition sees_root (k : Uuid * Uuid) (f : ThreadFollow.t) t : bool :=
  match r ← messages (message_tables t) !! k.2; c ← channels t !! Message.channel_id r; Some (r, c),
        workspace_members t !! (ThreadFollow.workspace_id f, k.1) with
  | Some (r, c), Some (role, _) =>
      bool_decide (is_Some (channel_members t !! (Message.channel_id r, k.1))) ||
      (bool_decide (Channel.channel_type c = Public) && negb (bool_decide (role = Guest)))
  | _, _ => false
  end.
Definition follows_in u ws (k : Uuid * Uuid) (f : ThreadFollow.t) t : bool :=
  bool_decide (k.1 = u) && bool_decide (ThreadFollow.workspace_id f = ws) && ThreadFollow.following f && sees_root k f t.
Definition unread_of (k : Uuid * Uuid) (f : ThreadFollow.t) t : Z := unread_replies k.2 k.1 (ThreadFollow.last_read_at f) (message_tables t).

(** The rows of [list_followed] before their order. *)
Definition followed_rows u ws t : list FollowedThread.t :=
  omap (fun p : Uuid * Uuid * ThreadFollow.t =>
    if follows_in u ws p.1 p.2 t then
      (fun at_ => {| FollowedThread.root_message_id := p.1.2; FollowedThread.unread_count := unread_of p.1 p.2 t;
                     FollowedThread.last_read_at := ThreadFollow.last_read_at p.2; FollowedThread.last_reply_at := at_ |}) <$> latest_at p.1.2 t
    else None) (map_to_list (thread_follows (message_tables t))).
(** [ORDER BY latest.at DESC] *)
Definition later_reply (a b : FollowedThread.t) : Prop := FollowedThread.last_reply_at b <= FollowedThread.last_reply_at a.
#[global] Instance later_reply_dec a b : Decision (later_reply a b).
Proof. unfold later_reply. apply _. Defined.
Definition before_time (cursor : option Z) (f : FollowedThread.t) : bool :=
  match cursor with None => true | Some at_ => FollowedThread.last_reply_at f <? at_ end.
Definition list_followed u ws (cursor : option Z) (limit : Z) t : list FollowedThread.t :=
  take (Z.to_nat limit) (merge_sort later_reply (any_order (filter (fun f => before_time cursor f = true) (followed_rows u ws t)))).

Definition unread_thread_count u ws t : Z :=
  Z.of_nat (length (filter (fun p : Uuid * Uuid * ThreadFollow.t =>
    (follows_in u ws p.1 p.2 t && existsb (fun m => negb (bool_decide (Message.user_id m = u)) && (ThreadFollow.last_read_at p.2 <? Message.created_at m))
       (live_replies p.1.2 t) : bool) = true) (map_to_list (thread_follows (message_tables t))))).

Definition messages_by_ids (ids : list Uuid) t : list Message.t :=
  Message.redacted <$> filter (fun m => Message.id m ∈ ids) (all_messages (message_tables t)).
(** The newest replies of a thread, oldest first. *)
Definition latest_replies root (per_thread : Z) t : list Message.t :=
  reverse (take (Z.to_nat per_thread) (merge_sort newest_first (live_replies root t))).

Definition follower_states root t : list FollowerState.t :=
  omap (fun p : Uuid * Uuid * ThreadFollow.t =>
    if bool_decide (p.1.2 = root) && ThreadFollow.following p.2 then
      Some {| FollowerState.user_id := p.1.1; FollowerState.following := ThreadFollow.following p.2; FollowerState.unread_count := unread_of p.1 p.2 t |}
    else None) (map_to_list (thread_follows (message_tables t))).
Definition reply_recipients root (sender : option Uuid) t : list Uuid :=
  omap (fun p : Uuid * Uuid * ThreadFollow.t =>
    if bool_decide (p.1.2 = root) && ThreadFollow.following p.2 && negb (bool_decide (Some p.1.1 = sender)) && sees_root p.1 p.2 t
    then Some p.1.1 else None) (map_to_list (thread_follows (message_tables t))).

(** [GREATEST(last_read_at, NOW())] *)
Definition read_now (f : ThreadFollow.t) : ThreadFollow.t :=
  {| ThreadFollow.workspace_id := ThreadFollow.workspace_id f; ThreadFollow.following := ThreadFollow.following f;
     ThreadFollow.last_read_at := Z.max (ThreadFollow.last_read_at f) now |}.
Definition follow_set (following : bool) (f : ThreadFollow.t) : ThreadFollow.t :=
  {| ThreadFollow.workspace_id := ThreadFollow.workspace_id f; ThreadFollow.following := following;
     ThreadFollow.last_read_at := ThreadFollow.last_read_at f |}.
Definition change_follows (f : gmap (Uuid * Uuid) ThreadFollow.t -> gmap (Uuid * Uuid) ThreadFollow.t) (d : ApiDb) : ApiDb :=
  with_app (set_message_tables (set_thread_follows f)) d.
Definition mark_follow_read u root : Api (option ThreadState.t) :=
  sql (fun d => (change_follows (alter read_now (u, root)) d,
    (fun f => {| ThreadState.root_message_id := root; ThreadState.following := ThreadFollow.following f; ThreadState.unread_count := 0 |})
      <$> thread_follows (message_tables (app d)) !! (u, root))).
(** The membership and the root have to exist. *)
Definition set_following_in u ws root (following : bool) : Tx ApiDb ThreadState.t :=
  there ← read (fun t => is_member ws u t && bool_decide (is_Some (messages (message_tables t) !! root)));
  if negb there then foreign_key
  else
    _ ← follows_run (upsert_follow (u, root) (follow_set following (follow_row ws now)) (follow_set following));
    saved ← message_read (fun t : MessageTables => thread_follows t !! (u, root));
    saved ← tx_require row_not_found saved;
    unread ← read (unread_of (u, root) saved);
    mret {| ThreadState.root_message_id := root; ThreadState.following := ThreadFollow.following saved;
            ThreadState.unread_count := if ThreadFollow.following saved then unread else 0 |}.

(** ** Routes *)

Definition announce_thread u ws (thread : ThreadState.t) : Svc ApiDb unit :=
  id ← svc_gets draw;
  svc_ignore (publish entry_id now id ($"thread.read_state") (JObject [
    uuid_field "user_id" u; uuid_field "workspace_id" ws; uuid_field "root_message_id" (ThreadState.root_message_id thread);
    ($"following", JBool (ThreadState.following thread)); ($"unread_count", int_json (ThreadState.unread_count thread))])).
Definition announce_reply root ws : Svc ApiDb unit :=
  followers ← query (follower_states root);
  match followers with
  | Err _ => mret tt
  | Ok followers => svc_each followers (fun f => announce_thread (FollowerState.user_id f) ws
      {| ThreadState.root_message_id := root; ThreadState.following := FollowerState.following f;
         ThreadState.unread_count := FollowerState.unread_count f |})
  end.

Definition thread_of (message u : Uuid) : Api (Message.t * Uuid) :=
  let missing := NotFound ($"Thread not found") in
  m ←? query (fun t => find_root message (message_tables t));
  m ←? require missing m;
  root ←? match Message.thread_parent_id m with
          | Some parent => r ←? query (fun t => find_root parent (message_tables t)); require missing r
          | None => mret (Ok m)
          end;
  access ←? require_channel_access (Message.channel_id root) u;
  mret (Ok (root, Channel.workspace_id (ChannelAccess.channel access))).

(** The roots and the replies are read by two queries after the rows. *)
Definition list_threads (auth : AuthUser.t) ws (cursor : option Z) (limit : option Z) : Api ThreadPage.t :=
  _ ←? require_workspace_member ws (AuthUser.user_id auth);
  let limit := limited 20 1 50 limit in
  followed ←? query (list_followed (AuthUser.user_id auth) ws cursor limit);
  let ids := FollowedThread.root_message_id <$> followed in
  roots ←? query (messages_by_ids ids);
  replies ←? query (fun t => ids ≫= fun root => latest_replies root LATEST_REPLIES t);
  let summaries := omap (fun f =>
    root ← head (filter (fun m => Message.id m = FollowedThread.root_message_id f) roots);
    Some {| ThreadSummary.root := root;
            ThreadSummary.latest_replies := filter (fun m => Message.thread_parent_id m = Some (FollowedThread.root_message_id f)) replies;
            ThreadSummary.unread_count := FollowedThread.unread_count f; ThreadSummary.last_read_at := FollowedThread.last_read_at f;
            ThreadSummary.last_reply_at := FollowedThread.last_reply_at f |}) followed in
  mret (Ok {| ThreadPage.data := summaries;
              ThreadPage.next_cursor := if Z.of_nat (length followed) =? limit then FollowedThread.last_reply_at <$> last followed else None |}).

Definition unread_threads (auth : AuthUser.t) ws : Api Z :=
  _ ←? require_workspace_member ws (AuthUser.user_id auth);
  query (unread_thread_count (AuthUser.user_id auth) ws).

Definition mark_thread_read (auth : AuthUser.t) (root_id : Uuid) : Api ThreadState.t :=
  found ←? thread_of root_id (AuthUser.user_id auth);
  let root := Message.id found.1 in
  _ ←? sql (fun d => (with_app (set_message_tables (mark_thread_notices (AuthUser.user_id auth) root)) d, tt));
  marked ←? mark_follow_read (AuthUser.user_id auth) root;
  let thread := default {| ThreadState.root_message_id := root; ThreadState.following := false; ThreadState.unread_count := 0 |} marked in
  _ ← announce_thread (AuthUser.user_id auth) found.2 thread;
  mret (Ok thread).

Definition set_following u (root_id : Uuid) (following : bool) : Api ThreadState.t :=
  found ←? thread_of root_id u;
  thread ←? transaction (set_following_in u found.2 (Message.id found.1) following);
  _ ← announce_thread u found.2 thread;
  mret (Ok thread).
Definition follow_thread (auth : AuthUser.t) (root_id : Uuid) : Api ThreadState.t := set_following (AuthUser.user_id auth) root_id true.
Definition unfollow_thread (auth : AuthUser.t) (root_id : Uuid) : Api ThreadState.t := set_following (AuthUser.user_id auth) root_id false.
End threads.

(** ** What a badge counts *)

Lemma length_filter_omap {A B} (P : A -> bool) (f : A -> option B) (Q : B -> bool) (l : list A) :
  (forall x, x ∈ l -> P x = match f x with Some y => Q y | None => false end) ->
  length (filter (fun x => P x = true) l) = length (filter (fun y => Q y = true) (omap f l)).
Proof.
  induction l as [|x l IH]; intros Hl; [done|]. rewrite filter_cons, (Hl x) by left. cbn [omap].
  assert (E : length (filter (fun x => P x = true) l) = length (filter (fun y => Q y = true) (omap f l))) by (apply IH; intros y Hy; apply Hl; by right).
  change (list_omap A B f (x :: l)) with (omap f (x :: l)). cbn.
  destruct (f x) as [y|]; [|by rewrite decide_False by done].
  rewrite filter_cons. destruct (Q y); [rewrite !decide_True by done; cbn; by rewrite E|by rewrite !decide_False by done].
Qed.

Lemma some_exists {A} (P : A -> bool) (l : list A) : (0 <? Z.of_nat (length (filter P l))) = existsb P l.
Proof.
  induction l as [|x l IH]; [done|]. rewrite filter_cons. cbn [existsb].
  destruct (P x); [rewrite decide_True by done; cbn [length]; apply Z.ltb_lt; lia|by rewrite decide_False by (by intros [])].
Qed.
Lemma existsb_filter {A} (P : A -> Prop) `{!forall x, Decision (P x)} (q : A -> bool) (l : list A) :
  existsb q (filter P l) = existsb (fun x => bool_decide (P x) && q x) l.
Proof. induction l as [|x l IH]; [done|]. rewrite filter_cons. cbn. case_decide; case_bool_decide; try done; cbn; by rewrite IH. Qed.

Section badges.
Implicit Types (t : AppTables) (u ws root : Uuid).

Lemma unread_of_some k f t : (0 <? unread_of k f t) =
  existsb (fun m => negb (bool_decide (Message.user_id m = k.1)) && (ThreadFollow.last_read_at f <? Message.created_at m)) (live_replies k.2 t).
Proof.
  unfold unread_of, unread_replies, count_if, live_replies. rewrite some_exists, existsb_filter.
  induction (all_messages (message_tables t)) as [|m l IH]; [done|]. cbn. rewrite IH. f_equal. unfold is_live.
  repeat case_bool_decide; try done; naive_solver.
Qed.
Lemma latest_at_Some root t : is_Some (latest_at root t) <-> live_replies root t <> [].
Proof. unfold latest_at. destruct (live_replies root t) as [|m l]; cbn; split; [by intros []|done|done|by eexists]. Qed.

(** The badge of threads counts what the page shows.  The number of unread
    threads of a person is the number of threads of the page, all its parts
    taken together, that show something unread. *)
Theorem the_badge_counts_the_page u ws t :
  unread_thread_count u ws t = Z.of_nat (length (filter (fun f => 0 < FollowedThread.unread_count f) (followed_rows u ws t))).
Proof.
  unfold unread_thread_count, followed_rows. f_equal.
  rewrite (list_filter_iff (fun f => 0 < FollowedThread.unread_count f) (fun f => (0 <? FollowedThread.unread_count f) = true))
    by (intros f; symmetry; apply Z.ltb_lt).
  apply length_filter_omap. intros [k f] _. cbn [fst snd]. destruct (follows_in u ws k f t) eqn:Ef; [|done]. cbn.
  assert (k.1 = u) as <-.
  { unfold follows_in in Ef. rewrite !andb_true_iff, bool_decide_eq_true in Ef. tauto. }
  rewrite <-unread_of_some. destruct (latest_at k.2 t) as [at_|] eqn:El; [done|]. cbn.
  apply Z.ltb_ge. unfold unread_of, unread_replies, count_if.
  assert (Hnone : live_replies k.2 t = []).
  { destruct (live_replies k.2 t) as [|m l] eqn:E; [done|]. assert (H : is_Some (latest_at k.2 t)) by (apply latest_at_Some; by rewrite E).
    rewrite El in H. by destruct H. }
  pose proof (unread_of_some k f t) as Hu. rewrite Hnone in Hu. cbn in Hu. by apply Z.ltb_ge in Hu.
Qed.
End badges.

(** ** Pages of threads *)

Section pages.
Context (any_order : list FollowedThread.t -> list FollowedThread.t) (any_order_perm : forall l, any_order l ≡ₚ l).
Implicit Types (t : AppTables) (u ws : Uuid).

Lemma elem_of_followed u ws cursor limit t f :
  f ∈ list_followed any_order u ws cursor limit t -> f ∈ followed_rows u ws t /\ before_time cursor f = true.
Proof.
  unfold list_followed. intros Hf%subseteq_take. revert Hf. rewrite merge_sort_Permutation, any_order_perm, list_elem_of_filter. tauto.
Qed.

(** Pages of threads can skip a thread.  When two threads were last replied
    to at the same instant and a page ends between them, the one left out is on
    none of the pages that follow, whose cursor is that instant or before. *)
Theorem a_tied_thread_is_skipped u ws (cursor : option Z) (limit limit' at_ : Z) t (l f : FollowedThread.t) :
  last (list_followed any_order u ws cursor limit t) = Some l ->
  f ∈ followed_rows u ws t -> FollowedThread.last_reply_at f = FollowedThread.last_reply_at l -> f ∉ list_followed any_order u ws cursor limit t ->
  at_ <= FollowedThread.last_reply_at l ->
  before_time cursor f = true /\ f ∉ list_followed any_order u ws (Some at_) limit' t.
Proof.
  intros Hl Hf E Hn Hat. apply last_Some_elem_of, elem_of_followed in Hl as [_ Hl]. split.
  - unfold before_time in *. by rewrite E.
  - intros [_ Hb%Z.ltb_lt]%elem_of_followed. lia.
Qed.
End pages.

(** Two threads whose last replies came at once, and a page of one thread. *)
Module SampleThreads.
Definition follows (root : Uuid) : (Uuid * Uuid) * ThreadFollow.t := ((2%N, root), follow_row 20%N 0).
Definition tables : AppTables :=
  set_message_tables (set_thread_follows (fun _ => list_to_map [follows 51%N; follows 52%N]))
    (SampleMessages.tables [SampleMessages.message 51 1 1 ($"a") None; SampleMessages.message 52 1 2 ($"b") None;
       SampleMessages.message 61 1 10 ($"c") (Some 51%N); SampleMessages.message 62 1 10 ($"d") (Some 52%N)] []).
Definition thread (root : Uuid) : FollowedThread.t :=
  {| FollowedThread.root_message_id := root; FollowedThread.unread_count := 1; FollowedThread.last_read_at := 0; FollowedThread.last_reply_at := 10 |}.
End SampleThreads.

Lemma a_tied_thread_is_skipped_witness :
  exists shown hidden, list_followed (fun l => l) 2%N 20%N None 1 SampleThreads.tables = [SampleThreads.thread shown] /\
    SampleThreads.thread hidden ∈ followed_rows 2%N 20%N SampleThreads.tables /\
    SampleThreads.thread hidden ∉ list_followed (fun l => l) 2%N 20%N (Some 10) 50 SampleThreads.tables.
Proof.
  assert (Hrows : followed_rows 2%N 20%N SampleThreads.tables = [SampleThreads.thread 51; SampleThreads.thread 52] \/
                  followed_rows 2%N 20%N SampleThreads.tables = [SampleThreads.thread 52; SampleThreads.thread 51]).
  { vm_compute. (left; reflexivity) || (right; reflexivity). }
  assert (exists shown hidden, list_followed (fun l => l) 2%N 20%N None 1 SampleThreads.tables = [SampleThreads.thread shown] /\
    shown <> hidden /\ SampleThreads.thread hidden ∈ followed_rows 2%N 20%N SampleThreads.tables) as (shown & hidden & Hp & Hne & Hin).
  { assert (Hp : list_followed (fun l => l) 2%N 20%N None 1 SampleThreads.tables = [SampleThreads.thread 51] \/
                 list_followed (fun l => l) 2%N 20%N None 1 SampleThreads.tables = [SampleThreads.thread 52]) by
      (vm_compute; (left; reflexivity) || (right; reflexivity)).
    destruct Hp as [Hp|Hp]; [exists 51%N, 52%N|exists 52%N, 51%N]; (split; [exact Hp|]); (split; [done|]); destruct Hrows as [-> | ->]; set_solver. }
  exists shown, hidden. split; [exact Hp|]. split; [exact Hin|].
  refine (proj2 (a_tied_thread_is_skipped (fun l => l) (fun l => reflexivity l) 2%N 20%N None 1 50 10 SampleThreads.tables
    (SampleThreads.thread shown) (SampleThreads.thread hidden) _ Hin eq_refl _ _)).
  - by rewrite Hp.
  - rewrite Hp. intros E%list_elem_of_singleton. by injection E as ->.
  - cbn. lia.
Defined.
