(* ===== verification/MessageRoutes.v ===== *)
(** * The endpoints of messages ([backend/api/src/messaging/routes.rs],
    [presence.rs], [bots/mod.rs])

    Sending, editing, deleting, pinning, reacting, reading: each endpoint reads
    the rows it decides on one query at a time, changes them in one
    transaction with the event it stages, and then publishes the event.  The
    online people of a workspace are what Redis answers at that moment. *)

From stdpp Require Import base tactics option numbers list gmap sorting.
From Stdlib Require Import ZArith Lia String Ascii.
From S2P Require Import Prelude RustStr Json Errors Frames Publisher Validation ListForms ListStore MessageStore Mentions ApiState Outbox AuditLog Tables Authz Membership Messaging Files Threads.

Module SendMessageRequest.
Record t := {
  content : str; thread_parent_id : option Uuid; also_to_channel : bool; client_message_id : option Uuid;
  attachment_ids : list Uuid; forwarded_from : option Uuid;
}.
Definition validate (r : t) : AppResult unit :=
  _ ← validate_message_body (content r);
  match client_message_id r with Some id => validate_client_message_id id | None => Ok tt end.
End SendMessageRequest.

Module UpdateMessageRequest.
Record t := { content : str; attachment_ids : option (list Uuid) }.
End UpdateMessageRequest.

Module MessagePage.
Record t := {
  data : list (Message.t * list Reaction.t); unread_notifications : option Z; last_read_before : option Uuid;
  last_read_before_at : option Z;
}.
End MessagePage.

Module UnreadGroup.
Record t := {
  channel_id : Uuid; channel_name : option str; channel_type : ChannelType; muted : bool; unread_count : Z; mention_count : Z;
  last_activity_at : Z; messages : list Message.t;
}.
End UnreadGroup.
Module UnreadsPage.
Record t := { data : list UnreadGroup.t; next_offset : option Z }.
End UnreadsPage.
Definition UNREADS_PER_CHANNEL : Z := 20.

Inductive LocationKind := KindDm | KindGroupDm | KindChannel.
Module MessageLocation.
Record t := { workspace_id : Uuid; channel_id : Uuid; kind : LocationKind; thread_parent_id : option Uuid; joined : bool }.
End MessageLocation.

(** ** Callers ([bots]) *)

Definition scope_as_str (s : Scope) : str :=
  match s with
  | ChatWrite => $"chat:write" | ChatWritePublic => $"chat:write.public" | ChannelsRead => $"channels:read"
  | ChannelsHistory => $"channels:history" | GroupsHistory => $"groups:history" | ImWrite => $"im:write"
  | ReactionsWrite => $"reactions:write" | FilesWrite => $"files:write" | UsersRead => $"users:read" | Commands => $"commands"
  end.
(** [Caller::scoped] *)
Definition scoped (auth : AuthUser.t) (s : Scope) : AppResult AuthUser.t :=
  match AuthUser.bot auth with
  | Some bot => if BotToken.allows bot s then Ok auth
                else Err (Forbidden ($"This bot token does not have the " ++ scope_as_str s ++ $" scope"))
  | None => Ok auth
  end.
Definition history_scope (c : Channel.t) : Scope :=
  match Channel.channel_type c with Public => ChannelsHistory | _ => GroupsHistory end.

(** ** Texts *)

(** [str::lines]: a line ends with a newline, and a carriage return before it
    is not of the line. *)
Fixpoint lines_from (line s : str) : list str :=
  match s with
  | [] => match line with [] => [] | _ => [line] end
  | c :: s => if c =? 10 then default line (strip_suffix [13] line) :: lines_from [] s else lines_from (line ++ [c]) s
  end.
Definition lines (s : str) : list str := lines_from [] s.
Fixpoint join (sep : str) (l : list str) : str :=
  match l with [] => [] | [s] => s | s :: l => s ++ sep ++ join sep l end.

(** What a message that forwards another says itself. *)
Definition addressed_text (content : str) (forwarded : bool) : str :=
  if forwarded then join [10] (filter (fun line => starts_with ($">") (trim_start line) = false) (lines content)) else content.

(** What [send_message] found out before it writes. *)
Module Prepared.
Record t := { new : NewMessage.t; workspace : Uuid; forwarded : list FileRecord.t; root : option Message.t }.
End Prepared.

Section routes.
Context `{UuidText, Alphanumeric} (entry_id : str -> list (str * str * Event) -> str) (draw : ApiDb -> Uuid) (now : Z).
Context (show_time : Z -> str) (public_address : str) (path_parses : str -> bool) (fresh : nat -> Uuid * Uuid).
(** What [ZRANGEBYSCORE presence:ws:..] answers. *)
Context (present : Uuid -> list str).
Context (ip : option str).
Implicit Types (auth : AuthUser.t) (ch u ws id : Uuid) (m : Message.t).

Definition user_of auth : Uuid := AuthUser.user_id auth.
Definition find_live id (what : str) : Api Message.t :=
  m ←? query (fun t => find_message id (message_tables t));
  require (NotFound what) m.
Definition find_existing id : Api Message.t := find_live id ($"Message not found").

(** ** Who is mentioned *)

(** [presence::online_user_ids]: nobody when the lookup fails. *)
Definition online_user_ids ws : Svc ApiDb (list Uuid) :=
  members ← svc_read (fun _ : ApiDb => present ws);
  mret (match members with Ok members => omap uuid_parse members | Err _ => [] end).

(** [.ok().flatten()], [.unwrap_or(..)]. *)
Definition or_else {A} (otherwise : A) (r : Api A) : Svc ApiDb A := r ← r; mret (match r with Ok a => a | Err _ => otherwise end).
Definition list_channel_member_ids ch : Api (list Uuid) :=
  query (fun t => omap (fun k : Uuid * Uuid => if bool_decide (k.1 = ch) then Some k.2 else None) (map_to_list (channel_members t)).*1).

Definition reachable (online : option (list Uuid)) u : bool := match online with Some l => bool_decide (u ∈ l) | None => true end.

Definition expand_mentions ch (author : Uuid) (content : str) : Svc ApiDb (list Uuid) :=
  let named := extract_mentioned_user_ids content in
  let broadcast := extract_broadcast_mentions content in
  let groups := extract_group_mentions content in
  let here_only := broadcast_here broadcast && negb (broadcast_channel broadcast) in
  channel ← (if any broadcast || negb (bool_decide (groups = [])) then or_else None (query (find_channel_by_id ch)) else mret None);
  may_broadcast ← match channel with
                  | Some channel => if any broadcast then or_else false (can_broadcast channel author) else mret false
                  | None => mret false
                  end;
  everyone ← (if may_broadcast : bool then
      members ← or_else [] (list_channel_member_ids ch);
      online ← match here_only, channel with
               | true, Some channel => online ← online_user_ids (Channel.workspace_id channel); mret (Some online)
               | true, None => mret (Some [])
               | false, _ => mret None
               end;
      mret (filter (fun u => reachable online u = true) members)
    else mret []);
  grouped ← match groups, channel with
            | _ :: _, Some channel =>
                in_group ← or_else [] (query (fun t => member_ids_for_groups (Channel.workspace_id channel) groups (message_tables t)));
                match in_group with
                | [] => mret []
                | _ => in_channel ← or_else [] (list_channel_member_ids ch); mret (filter (fun u => u ∈ in_channel) in_group)
                end
            | _, _ => mret []
            end;
  mret (sort_ids (filter (fun u => u <> author) (named ++ everyone ++ grouped))).

(** ** Sending *)

Definition thread_root ch (parent_id : Uuid) : Api Message.t :=
  let gone := NotFound ($"This thread was deleted") in
  parent ←? query (fun t => find_root parent_id (message_tables t));
  parent ←? require gone parent;
  if negb (bool_decide (Message.channel_id parent = ch)) then mret (Err (Validation ($"Thread parent is not in this channel")))
  else match Message.thread_parent_id parent with
       | Some root_id => root ←? query (fun t => find_root root_id (message_tables t)); require gone root
       | None => mret (Ok parent)
       end.

Definition forwarded_files (source_id u : Uuid) : Api (list FileRecord.t) :=
  source ←? find_live source_id ($"The forwarded message is gone");
  _ ←? require_channel_access (Message.channel_id source) u;
  query (fun t => for_message source_id (message_tables t)).

Definition attach_in m (attachment_ids : list Uuid) (copied : list CopiedObject.t) ws u : Tx ApiDb Message.t :=
  claimed ← claim_drafts_in attachment_ids (Message.id m) ws u;
  copies ← record_copies_in draw now copied (Message.id m) ws u;
  match claimed ++ copies with
  | [] => mret m
  | records => set_attachments_in (Message.id m) (attachments_json public_address records)
  end.

(** How the transaction of [send_message] ends; all but the first are rolled
    back. *)
Inductive send_outcome :=
| Sent (m : Message.t) (staged : Staged)
| Duplicate
| NotCreated (e : AppError)
| NotAttached (e : AppError)
| NotFinished (e : AppError).

Definition follow_and_stage m (new : NewMessage.t) ws (root : option Message.t) : Tx ApiDb Staged :=
  _ ← match root with
      | Some root => follow_on_reply_in
          {| ReplyFollows.root_message_id := Message.id root; ReplyFollows.workspace_id := ws;
             ReplyFollows.replier_id := NewMessage.user_id new; ReplyFollows.root_author_id := Message.user_id root;
             ReplyFollows.mentioned := NewMessage.mentioned new; ReplyFollows.replied_at := Message.created_at m |}
      | None => mret tt
      end;
  stage_message_created draw now show_time m ws (NewMessage.mentioned new).
Definition send_tx (new : NewMessage.t) (attachment_ids : list Uuid) (copied : list CopiedObject.t) ws (root : option Message.t)
    (d : ApiDb) : ApiDb * send_outcome :=
  match create_message_in draw now new d with
  | (Err e, _) => (d, NotCreated e)
  | (Ok None, _) => (d, Duplicate)
  | (Ok (Some m), d1) =>
      match attach_in m attachment_ids copied ws (NewMessage.user_id new) d1 with
      | (Err e, _) => (d, NotAttached e)
      | (Ok m, d2) =>
          match follow_and_stage m new ws root d2 with
          | (Err e, _) => (d, NotFinished e)
          | (Ok staged, d3) => (d3, Sent m staged)
          end
      end
  end.

Definition too_many_files : AppError := Validation ($"A message can carry at most 10 files").
Definition empty_message : AppError := Validation ($"Message content cannot be empty").

(** Everything [send_message] finds out before it writes. *)
Definition prepare auth ch (req : SendMessageRequest.t) : Api Prepared.t :=
  auth ←? mret (scoped auth ChatWrite);
  _ ←? mret (SendMessageRequest.validate req);
  _ ←? mret (check_attachment_ids (SendMessageRequest.attachment_ids req));
  access ←? require_channel_post_as ch auth;
  let channel := ChannelAccess.channel access in
  let addressed := addressed_text (SendMessageRequest.content req) (bool_decide (is_Some (SendMessageRequest.forwarded_from req))) in
  _ ←? (if mentions_everyone addressed then require_broadcast channel (user_of auth) else mret (Ok tt));
  forwarded ←? match SendMessageRequest.forwarded_from req with
               | Some source_id => forwarded_files source_id (user_of auth)
               | None => mret (Ok [])
               end;
  if Nat.ltb MAX_ATTACHMENTS (length (SendMessageRequest.attachment_ids req) + length forwarded) then mret (Err too_many_files)
  else if bool_decide (trim (SendMessageRequest.content req) = [] /\ SendMessageRequest.attachment_ids req = [] /\ forwarded = [])
  then mret (Err empty_message)
  else
    root ←? match SendMessageRequest.thread_parent_id req with
            | Some parent_id => root ←? thread_root ch parent_id; mret (Ok (Some root))
            | None => mret (Ok None)
            end;
    mentioned ← expand_mentions ch (user_of auth) addressed;
    mret (Ok {| Prepared.new := {| NewMessage.channel_id := ch; NewMessage.user_id := user_of auth;
                                   NewMessage.content := SendMessageRequest.content req; NewMessage.thread_parent_id := Message.id <$> root;
                                   NewMessage.also_in_channel := SendMessageRequest.also_to_channel req;
                                   NewMessage.forwarded_from := SendMessageRequest.forwarded_from req;
                                   NewMessage.client_message_id := SendMessageRequest.client_message_id req;
                                   NewMessage.mentioned := mentioned |};
                Prepared.workspace := Channel.workspace_id channel; Prepared.forwarded := forwarded; Prepared.root := root |}).

(** Whether a fault struck before the files were attached. *)
Context (struck_early : svc_fault -> bool).

Definition send_message auth ch (req : SendMessageRequest.t) : Api Message.t :=
  p ←? prepare auth ch req;
  let ws := Prepared.workspace p in
  copied ←? copy_objects path_parses fresh (Prepared.forwarded p) ws;
  let fail (e : AppError) : Api Message.t := _ ← discard_copies path_parses copied; mret (Err e) in
  outcome ← svc_call (send_tx (Prepared.new p) (SendMessageRequest.attachment_ids req) copied ws (Prepared.root p));
  match outcome with
  | Ok (Sent m staged) =>
      _ ← dispatch entry_id now staged;
      _ ← match Prepared.root p with Some root => announce_reply entry_id draw now (Message.id root) ws | None => mret tt end;
      mret (Ok m)
  | Ok Duplicate =>
      match SendMessageRequest.client_message_id req with
      | Some client_id =>
          _ ← discard_copies path_parses copied;
          existing ←? query (fun t => find_by_client_id ch client_id (message_tables t));
          require (Conflict ($"Message id already in use")) existing
      | None => fail (Database ($"duplicate key value violates unique constraint"))
      end
  | Ok (NotCreated e) | Ok (NotAttached e) => fail e
  | Ok (NotFinished e) => mret (Err e)
  | Err f => if struck_early f then fail (Database (fault_text f)) else mret (Err (Database (fault_text f)))
  end.

(** ** Editing *)

Definition open_channel_of m : Api Channel.t :=
  channel ←? find_channel (Message.channel_id m);
  _ ←? mret (require_not_archived channel);
  mret (Ok channel).
Definition announce_change ws (change : Tx ApiDb Message.t) : Api Message.t := update_and_announce entry_id draw now show_time ws change.

Definition update_message auth id (req : UpdateMessageRequest.t) : Api Message.t :=
  auth ←? mret (scoped auth ChatWrite);
  _ ←? mret (validate_message_body (UpdateMessageRequest.content req));
  existing ←? find_existing id;
  if negb (bool_decide (Message.user_id existing = user_of auth)) then refuse ($"Can only edit your own messages")
  else if bool_decide (is_Some (get ($"poll") (Message.metadata existing))) then mret (Err (Validation ($"A poll cannot be edited")))
  else
    let current := attachments_in (Message.metadata existing) in
    let kept := (fun keep => filter (fun a => Attachment.id a ∈ keep) current) <$> UpdateMessageRequest.attachment_ids req in
    let remaining := match kept with Some kept => length kept | None => length current end in
    if bool_decide (trim (UpdateMessageRequest.content req) = [] /\ remaining = 0%nat) then mret (Err empty_message)
    else
      channel ←? open_channel_of existing;
      done ←? transaction (
        m ← update_message_in draw now id (UpdateMessageRequest.content req) (user_of auth);
        changed ← match kept with
                  | Some kept =>
                      if Nat.eqb (length kept) (length current) then mret (m, [])
                      else
                        removed ← message_read (delete_from_message_except id (Attachment.id <$> kept));
                        _ ← message_run (fun _ => removed.1);
                        m ← set_attachments_in id (json_of kept);
                        mret (m, removed.2)
                  | None => mret (m, [])
                  end;
        staged ← stage_message_updated draw now show_time changed.1 (Channel.workspace_id channel);
        mret (changed, staged));
      _ ← purge_objects path_parses done.1.2;
      _ ← dispatch entry_id now done.2;
      mret (Ok done.1.1).

Definition change_previews auth id (refusal : string) (change : Tx ApiDb Message.t) : Api Message.t :=
  existing ←? find_existing id;
  if negb (bool_decide (Message.user_id existing = user_of auth)) then refuse (lit refusal)
  else
    channel ←? open_channel_of existing;
    announce_change (Channel.workspace_id channel) change.
Definition refresh_unfurls auth id : Api unit :=
  _ ←? change_previews auth id "Only the author can refresh a message's previews" (reset_unfurls_in id); mret (Ok tt).
Definition hide_unfurls auth id : Api Message.t :=
  change_previews auth id "Only the author can remove a message's previews" (hide_unfurls_in id).

Definition message_history auth id : Api (list MessageEdit.t) :=
  m ←? find_existing id;
  access ←? require_channel_access (Message.channel_id m) (user_of auth);
  let ws := Channel.workspace_id (ChannelAccess.channel access) in
  _ ←? (if bool_decide (Message.user_id m = user_of auth) then mret (Ok tt)
        else
          _ ←? require_workspace_role ws (user_of auth) Admin;
          _ ← record now (audit_entry ip MessageHistoryRead (user_of auth) ws id (JObject [uuid_field "author_id" (Message.user_id m)]));
          mret (Ok tt));
  query (fun t => list_edits id (message_tables t)).

(** ** Deleting, pinning *)

Definition is_channel_admin ch u (t : AppTables) : bool :=
  match channel_members t !! (ch, u) with Some s => bool_decide (ChannelMember.role s = ChannelRole.Admin) | None => false end.
Definition is_workspace_admin_for_channel ch u (t : AppTables) : bool :=
  match channels t !! ch with
  | Some c => match workspace_members t !! (Channel.workspace_id c, u) with
              | Some (role, _) => bool_decide (role = Admin \/ role = Owner)
              | None => false
              end
  | None => false
  end.
(** The rule of the repository, not that of [authz]. *)
Definition repo_can_moderate_channel ch u : Api bool :=
  ch_admin ←? query (is_channel_admin ch u);
  if ch_admin : bool then mret (Ok true) else query (is_workspace_admin_for_channel ch u).

Definition delete_message_tx id ch ws : Tx ApiDb (Staged * option Staged) :=
  parent ← soft_delete_message_in now id;
  staged ← stage_message_deleted draw now id ch ws;
  parent_staged ← match parent with
                  | Some parent => s ← stage_message_updated draw now show_time parent ws; mret (Some s)
                  | None => mret None
                  end;
  mret (staged, parent_staged).

Definition delete_message auth id : Api unit :=
  auth ←? mret (scoped auth ChatWrite);
  existing ←? find_existing id;
  let ch := Message.channel_id existing in
  let author := Message.user_id existing in
  _ ←? (if bool_decide (author = user_of auth) then mret (Ok tt)
        else
          can_mod ←? repo_can_moderate_channel ch (user_of auth);
          if can_mod : bool then mret (Ok tt) else refuse ($"Can only delete your own messages"));
  channel ←? open_channel_of existing;
  let ws := Channel.workspace_id channel in
  _ ← svc_ignore (transaction (drop_unread_for_message ch id author));
  staged ←? transaction (delete_message_tx id ch ws);
  _ ← delete_for_channel_message path_parses id;
  _ ← dispatch entry_id now staged.1;
  _ ← match staged.2 with Some s => dispatch entry_id now s | None => mret tt end;
  _ ← record now (audit_entry ip MessageDeleted (user_of auth) ws id
    (JObject [uuid_field "channel_id" ch; uuid_field "author_id" author; ($"moderated", JBool (negb (bool_decide (author = user_of auth))))]));
  mret (Ok tt).

Definition change_pin auth id (pinned : bool) : Api unit :=
  existing ←? find_existing id;
  can_mod ←? repo_can_moderate_channel (Message.channel_id existing) (user_of auth);
  if negb can_mod then refuse ($"Requires channel or workspace admin")
  else
    channel ←? open_channel_of existing;
    staged ←? transaction (
      m ← set_pinned_in id pinned;
      stage_message_pinned draw now id (Message.channel_id m) (Channel.workspace_id channel) pinned);
    _ ← dispatch entry_id now staged;
    mret (Ok tt).
Definition pin_message auth id : Api unit := change_pin auth id true.
Definition unpin_message auth id : Api unit := change_pin auth id false.
Definition list_pins auth ch : Api (list Message.t) :=
  _ ←? require_channel_access ch (user_of auth);
  query (fun t => pinned_in ch (message_tables t)).

(** ** Reactions *)

Definition list_reactions auth id : Api (list Reaction.t) :=
  m ←? find_existing id;
  _ ←? require_channel_access (Message.channel_id m) (user_of auth);
  query (fun t => reactions_to id (message_tables t)).

Definition reacting auth id : Api (Message.t * Channel.t) :=
  m ←? find_existing id;
  access ←? require_channel_access (Message.channel_id m) (user_of auth);
  _ ←? mret (require_not_archived (ChannelAccess.channel access));
  mret (Ok (m, ChannelAccess.channel access)).
Definition add_reaction auth id (emoji : str) : Api Reaction.t :=
  auth ←? mret (scoped auth ReactionsWrite);
  _ ←? mret (validate_reaction_emoji emoji);
  on ←? reacting auth id;
  let ws := Channel.workspace_id on.2 in
  _ ←? match custom_emoji_name emoji with
       | Some name =>
           there ←? query (fun t => emoji_there ws name (message_tables t));
           if there : bool then mret (Ok tt) else mret (Err (Validation ($":" ++ name ++ $": is not an emoji in this workspace")))
       | None => mret (Ok tt)
       end;
  done ←? transaction (
    reaction ← add_reaction_in draw now id (user_of auth) emoji;
    reaction ← tx_require (Conflict ($"You already reacted with this emoji")) reaction;
    staged ← stage_reaction_added draw now show_time reaction (Message.channel_id on.1) ws;
    mret (reaction, staged));
  _ ← dispatch entry_id now done.2;
  mret (Ok done.1).
Definition remove_reaction auth id (emoji : str) : Api unit :=
  auth ←? mret (scoped auth ReactionsWrite);
  on ←? reacting auth id;
  staged ←? transaction (
    _ ← remove_reaction_in id (user_of auth) emoji;
    stage_reaction_removed draw now id (Message.channel_id on.1) (Channel.workspace_id on.2) (user_of auth) emoji);
  _ ← dispatch entry_id now staged;
  mret (Ok tt).

(** ** Reading *)

(** [publish_read_state]: a failure is logged. *)
Definition publish_read_state u ws (r : ReadState.t) : Svc ApiDb unit :=
  id ← svc_gets draw;
  svc_ignore (publish_scoped entry_id now id ($"channel.read_state") ws (read_state_payload u ws r)).

Definition read_up_to (access : ChannelAccess.t) u (message : Uuid) : Api (option MarkedRead.t) :=
  let ch := Channel.id (ChannelAccess.channel access) in
  let ws := Channel.workspace_id (ChannelAccess.channel access) in
  marked ←? transaction (mark_read_in now ch u message);
  _ ←? sql (fun d => (with_app (set_message_tables (mark_channel_read u ws ch)) d, tt));
  _ ← publish_read_state u ws {| ReadState.channel_id := ch; ReadState.unread_count := 0; ReadState.mention_count := 0;
                                 ReadState.last_read_message_id := marked ≫= MarkedRead.boundary |};
  mret (Ok marked).

Definition with_reactions (l : list Message.t) : Api (list (Message.t * list Reaction.t)) :=
  query (fun t => (fun m => (m, reactions_to (Message.id m) (message_tables t))) <$> l).
Definition unread_notifications u ws (t : MessageTables) : Z :=
  Z.of_nat (length (filter (fun n => Notification.user_id n = u /\ Notification.workspace_id n = ws /\ Notification.is_read n = false)
    (map_to_list (notifications t)).*2)).

Definition list_messages auth ch (limit : option Z) (cursor : option Uuid) (mark_read : option bool) : Api MessagePage.t :=
  access ←? require_channel_access ch (user_of auth);
  auth ←? mret (scoped auth (history_scope (ChannelAccess.channel access)));
  listed ←? query (fun t => list_channel_messages ch (limited 50 1 200 limit) cursor (message_tables t));
  data ←? with_reactions listed;
  match head listed with
  | Some newest =>
      if bool_decide (mark_read = Some true) && bool_decide (cursor = None) then
        marked ←? read_up_to access (user_of auth) (Message.id newest);
        unread ←? query (fun t => unread_notifications (user_of auth) (Channel.workspace_id (ChannelAccess.channel access)) (message_tables t));
        mret (Ok {| MessagePage.data := data; MessagePage.unread_notifications := Some unread;
                    MessagePage.last_read_before := marked ≫= MarkedRead.before; MessagePage.last_read_before_at := marked ≫= MarkedRead.before_at |})
      else mret (Ok {| MessagePage.data := data; MessagePage.unread_notifications := None; MessagePage.last_read_before := None;
                       MessagePage.last_read_before_at := None |})
  | None => mret (Ok {| MessagePage.data := data; MessagePage.unread_notifications := None; MessagePage.last_read_before := None;
                        MessagePage.last_read_before_at := None |})
  end.

Definition list_thread auth id (limit : option Z) (cursor : option Uuid) : Api (list (Message.t * list Reaction.t)) :=
  root ←? query (fun t => find_root id (message_tables t));
  root ←? require (NotFound ($"Message not found")) root;
  access ←? require_channel_access (Message.channel_id root) (user_of auth);
  _ ←? mret (scoped auth (history_scope (ChannelAccess.channel access)));
  listed ←? query (fun t => list_thread_messages id (limited 50 1 200 limit) cursor (message_tables t));
  with_reactions listed.

Definition locate_message auth id : Api MessageLocation.t :=
  let not_found := NotFound ($"Message not found") in
  m ←? query (fun t => find_root id (message_tables t));
  m ←? require not_found m;
  access ← require_channel_access (Message.channel_id m) (user_of auth);
  match access with
  | Ok access =>
      let channel := ChannelAccess.channel access in
      mret (Ok {| MessageLocation.workspace_id := Channel.workspace_id channel; MessageLocation.channel_id := Message.channel_id m;
                  MessageLocation.kind := match Channel.channel_type channel with Dm => KindDm | GroupDm => KindGroupDm | _ => KindChannel end;
                  MessageLocation.thread_parent_id := Message.thread_parent_id m;
                  MessageLocation.joined := bool_decide (is_Some (ChannelAccess.channel_member access)) |})
  | Err (Forbidden _) => mret (Err not_found)
  | Err e => mret (Err e)
  end.

Definition route_mark_read auth ch (message : Uuid) : Api unit :=
  access ←? require_channel_access ch (user_of auth);
  _ ←? read_up_to access (user_of auth) message;
  mret (Ok tt).
Definition route_mark_workspace_read auth ws : Api unit :=
  _ ←? require_workspace_member ws (user_of auth);
  changed ←? transaction (mark_workspace_read_in now ws (user_of auth));
  _ ←? sql (fun d => (with_app (set_message_tables (mark_channels_read (user_of auth) ws)) d, tt));
  _ ← svc_each changed (publish_read_state (user_of auth) ws);
  mret (Ok tt).
Definition route_mark_unread auth ch (message : Uuid) : Api ReadState.t :=
  access ←? require_channel_access ch (user_of auth);
  read ←? transaction (mark_unread_in ch (user_of auth) message);
  read ←? require (NotFound ($"Message not found in this channel")) read;
  _ ← publish_read_state (user_of auth) (Channel.workspace_id (ChannelAccess.channel access)) read;
  mret (Ok read).

(** *** What is unread in a workspace *)

(** The newest live message of a channel, replies included. *)
Definition last_activity ch (t : AppTables) : option Z :=
  foldr (fun m at_ => Some (match at_ with Some a => Z.max a (Message.created_at m) | None => Message.created_at m end)) None
    (filter (fun m => Message.channel_id m = ch /\ Message.deleted_at m = None) (all_messages (message_tables t))).
Definition unread_group (t : AppTables) (p : Uuid * Uuid * ChannelMember.t) : option UnreadGroup.t :=
  c ← channels t !! p.1.1;
  at_ ← last_activity p.1.1 t;
  Some {| UnreadGroup.channel_id := p.1.1; UnreadGroup.channel_name := Channel.name c; UnreadGroup.channel_type := Channel.channel_type c;
          UnreadGroup.muted := Reading.muted (ChannelMember.reading p.2); UnreadGroup.unread_count := ChannelMember.unread_count p.2;
          UnreadGroup.mention_count := Seat.mentions p.2; UnreadGroup.last_activity_at := at_; UnreadGroup.messages := [] |}.
(** [ORDER BY muted, created_at DESC, id] *)
Definition group_le (a b : UnreadGroup.t) : Prop :=
  let key g := (Z.b2z (UnreadGroup.muted g), - UnreadGroup.last_activity_at g, UnreadGroup.channel_id g) in
  (key a).1.1 < (key b).1.1 \/ ((key a).1.1 = (key b).1.1 /\ ((key a).1.2 < (key b).1.2 \/
    ((key a).1.2 = (key b).1.2 /\ ((key a).2 <= (key b).2)%N))).
#[global] Instance group_le_dec a b : Decision (group_le a b).
Proof. unfold group_le. apply _. Defined.
Definition grouped ws u (t : AppTables) (p : Uuid * Uuid * ChannelMember.t) : bool :=
  bool_decide (p.1.2 = u) && (0 <? ChannelMember.unread_count p.2) &&
  match channels t !! p.1.1 with Some c => bool_decide (Channel.workspace_id c = ws) && negb (Channel.is_archived c) | None => false end.
Definition unread_groups ws u (t : AppTables) : list UnreadGroup.t :=
  merge_sort group_le (omap (unread_group t) (filter (fun p => grouped ws u t p = true) (map_to_list (channel_members t)))).
Definition list_unread_channels ws u (limit offset : Z) (t : AppTables) : list UnreadGroup.t :=
  take (Z.to_nat limit) (drop (Z.to_nat offset) (unread_groups ws u t)).
(** Of messages at one time, the ones a limit keeps are the database's choice. *)
Definition newest_unread ch u (per_channel : Z) (t : AppTables) : list Message.t :=
  match channel_members t !! (ch, u) with
  | Some s => reverse (take (Z.to_nat per_channel) (merge_sort newest_first
      (filter (fun m => unread_by ch u (Seat.last_read_at s) m = true) (all_messages (message_tables t)))))
  | None => []
  end.
Definition with_messages (l : list Message.t) (g : UnreadGroup.t) : UnreadGroup.t :=
  {| UnreadGroup.channel_id := UnreadGroup.channel_id g; UnreadGroup.channel_name := UnreadGroup.channel_name g;
     UnreadGroup.channel_type := UnreadGroup.channel_type g; UnreadGroup.muted := UnreadGroup.muted g;
     UnreadGroup.unread_count := UnreadGroup.unread_count g; UnreadGroup.mention_count := UnreadGroup.mention_count g;
     UnreadGroup.last_activity_at := UnreadGroup.last_activity_at g; UnreadGroup.messages := l |}.
Definition list_unreads auth ws (limit offset : option Z) : Api UnreadsPage.t :=
  _ ←? require_workspace_member ws (user_of auth);
  let limit := limited 20 1 50 limit in
  let offset := Z.max (default 0 offset) 0 in
  groups ←? query (list_unread_channels ws (user_of auth) (limit + 1) offset);
  let next_offset := if limit <? Z.of_nat (length groups) then Some (offset + limit) else None in
  let groups := take (Z.to_nat limit) groups in
  data ←? query (fun t => (fun g => with_messages (newest_unread (UnreadGroup.channel_id g) (user_of auth) UNREADS_PER_CHANNEL t) g) <$> groups);
  mret (Ok {| UnreadsPage.data := data; UnreadsPage.next_offset := next_offset |}).
End routes.
