(* ===== verification/Notices.v ===== *)
(** * Notifications
    ([backend/api/src/notifications/{consumer,repo,email,routes}.rs],
    [push/{sender,repo,routes}.rs])

    A worker reads the events of messages, of calls and of lists; it decides
    whom an event is for and why, keeps a row of what happened, publishes a
    frame, queues a mail and pushes to the browsers of a person who is not
    looking. *)

From stdpp Require Import base tactics option numbers list gmap sorting.
From Stdlib Require Import ZArith Lia String Ascii DecimalString.
From S2P Require Import Prelude RustStr Json Errors Frames Publisher MessageStore PollStore NoticeStore Mentions ApiState Outbox AuditLog Tables Authz Membership ApiLaws Mail Messaging Files Threads MessageRoutes.

Module Recipient.
Record t := { user_id : Uuid; level : NotifyLevel.t; muted : bool; direct : bool }.
End Recipient.

Module Reason.
Inductive t := Mention | Reply | Direct | Keyword | Message.
#[global] Instance eq_dec : EqDecision t.
Proof. solve_decision. Defined.
End Reason.

Module Signals.
Record t := { mentioned : bool; following : bool; keyword : bool; in_thread : bool }.
End Signals.

Module Notice.
Record t := { activity : option NotificationType.t; kind : str; title : str; email : bool }.
End Notice.

Module Origin.
Record t := {
  workspace_id : option Uuid; channel_id : option str; channel_uuid : option Uuid; message_id : option str;
  thread_parent_id : option str; in_channel : bool; sender_id : option str; content : str; list_item : option (Uuid * Uuid);
}.
(** [..origin] with another message. *)
Definition at_message (message : option str) (o : t) : t :=
  {| workspace_id := workspace_id o; channel_id := channel_id o; channel_uuid := channel_uuid o; message_id := message;
     thread_parent_id := thread_parent_id o; in_channel := in_channel o; sender_id := sender_id o; content := content o;
     list_item := list_item o |}.
End Origin.

Module Names.
Record t := { sender : str; channel : str }.
Definition set_sender (sender_ : str) (n : t) : t := {| sender := sender_; channel := channel n |}.
End Names.

Module SubscribeRequest.
Record t := { endpoint : str; p256dh : str; auth : str; user_agent : option str }.
End SubscribeRequest.

Module DueDigest.
Record t := {
  user_id : Uuid; workspace_id : Uuid; email : str; mentions : Z; direct_messages : Z; channels : list str; senders : list str;
  channel_id : option Uuid; message_id : option Uuid;
}.
End DueDigest.

Definition RING_MAX_AGE : Z := 60 * SECOND.
Definition ITEM_TITLE_MAX_CHARS : Z := 120.
Definition DIGEST_WINDOW : Z := 300 * SECOND.

(** ** Whom an event is for *)

Section decisions.
Context `{UuidText}.
Implicit Types (payload : json) (r : Recipient.t) (s : Signals.t).

(** [payload.pointer("/a/b")] *)
Definition pointer2 (a b : str) (v : json) : option json := get a v ≫= get b.
Definition METADATA : str := $"metadata".

Definition also_in_channel payload : bool := default false (pointer2 METADATA ALSO_IN_CHANNEL payload ≫= as_bool).
Definition ids_in payload (key : str) : list Uuid :=
  match get key payload ≫= as_array with
  | Some ids => omap (fun v => as_str v ≫= uuid_parse) ids
  | None => []
  end.
Definition mentioned_ids payload : list Uuid := ids_in payload ($"mentioned_user_ids").
Definition origin_of payload (content : str) : Origin.t :=
  {| Origin.workspace_id := get_uuid ($"workspace_id") payload; Origin.channel_id := get_str ($"channel_id") payload;
     Origin.channel_uuid := get_uuid ($"channel_id") payload; Origin.message_id := get_str ($"id") payload;
     Origin.thread_parent_id := get_str ($"thread_parent_id") payload; Origin.in_channel := also_in_channel payload;
     Origin.sender_id := get_str ($"user_id") payload; Origin.content := content; Origin.list_item := None |}.

Definition reason_for r s : option Reason.t :=
  if Recipient.muted r || bool_decide (Recipient.level r = NotifyLevel.Nothing) then None
  else
    let everything := bool_decide (Recipient.level r = NotifyLevel.All) && negb (Signals.in_thread s) in
    if Signals.mentioned s then Some Reason.Mention
    else if Signals.following s then Some Reason.Reply
    else if everything && Recipient.direct r then Some Reason.Direct
    else if Signals.keyword s then Some Reason.Keyword
    else if everything then Some Reason.Message
    else None.

Definition notice (n : Names.t) (reason : Reason.t) (keyword : option str) : Notice.t :=
  match reason with
  | Reason.Mention => {| Notice.activity := Some NotificationType.Mention; Notice.kind := $"mention";
                         Notice.title := $"You were mentioned"; Notice.email := true |}
  | Reason.Reply => {| Notice.activity := Some NotificationType.Reply; Notice.kind := $"reply";
                       Notice.title := $"New reply in a thread"; Notice.email := false |}
  | Reason.Direct => {| Notice.activity := Some NotificationType.Dm; Notice.kind := $"dm"; Notice.title := Names.sender n;
                        Notice.email := true |}
  | Reason.Keyword => {| Notice.activity := Some NotificationType.Keyword; Notice.kind := $"keyword";
                         Notice.title := $"Matched " ++ [34] ++ default [] keyword ++ [34] ++
                           match Names.channel n with [] => [] | channel => $" in #" ++ channel end;
                         Notice.email := false |}
  | Reason.Message => {| Notice.activity := None; Notice.kind := $"message";
                         Notice.title := Names.sender n ++ $" in #" ++ Names.channel n; Notice.email := false |}
  end.

(** [{n}] *)
Definition count_text (n : nat) : str := lit (NilZero.string_of_uint (Nat.to_uint n)).
Definition preview_text payload : str :=
  let content := trim (default [] (get_str ($"content") payload)) in
  match content with
  | _ :: _ => content
  | [] =>
      match attachments_in (default JNull (get METADATA payload)) with
      | [] => []
      | [only] => [128206] ++ $" " ++ Attachment.filename only
      | many => [128206] ++ $" " ++ count_text (length many) ++ $" files"
      end
  end.
End decisions.

(** ** The worker *)

Section worker.
Context `{UuidText}.
Context (draw : ApiDb -> Uuid) (now : Z).
(** What the columns and functions of the database answer that the tables here
    do not keep: the default level of a member, whether one wants mails, until
    when one is paused at a time, whose keyword a text has, and the name of a profile. *)
Context (notify_default : Uuid -> Uuid -> NotifyLevel.t) (mention_emails : Uuid -> Uuid -> bool) (paused_until : Uuid -> Uuid -> Z -> option Z).
Context (keywords_in : Uuid -> option Uuid -> str -> list (Uuid * str)) (profile_name : Uuid -> Uuid -> option str).
(** The expiries of a person's activity in Redis, whether push is configured,
    and what the push service answers: a status, or an error. *)
Context (activity : Uuid -> list Z) (configured : bool) (push_answer : str -> option Z).
Implicit Types (t : AppTables) (ch u ws : Uuid) (payload : json) (o : Origin.t) (n : Notice.t).

(** *** Rows ([repo.rs]) *)

Definition notification_row u ws (kind : NotificationType.t) (title : str) (body : option str) (data : json) : Notification.t :=
  {| Notification.user_id := u; Notification.workspace_id := ws; Notification.notification_type := NotificationType.as_str kind;
     Notification.title := title; Notification.body := body; Notification.data := data; Notification.is_read := false;
     Notification.created_at := now |}.
(** [INSERT .. ON CONFLICT DO NOTHING RETURNING] *)
Definition create_in (row : Notification.t) : Tx ApiDb (option Notification.t) :=
  id ← drawn draw;
  conflict ← message_read (fun t : MessageTables => bool_decide (is_Some (notifications t !! id)) || notified row t);
  if conflict : bool then mret None
  else
    there ← read (references_exist (Notification.workspace_id row) (Notification.user_id row));
    if negb there then foreign_key
    else _ ← message_run (set_notifications (<[id := row]>)); mret (Some row).
Definition create_notification (row : Notification.t) : Api (option Notification.t) := transaction (create_in row).

Definition recipient_of ch (c : Channel.t) (author : option Uuid) t (p : Uuid * Uuid * ChannelMember.t) : option Recipient.t :=
  let ws := Channel.workspace_id c in
  let direct := bool_decide (Channel.channel_type c = Dm) || bool_decide (Channel.channel_type c = GroupDm) in
  if bool_decide (p.1.1 = ch) && negb (bool_decide (Some p.1.2 = author)) && is_member ws p.1.2 t then
    Some {| Recipient.user_id := p.1.2;
            Recipient.level := effective_level (Reading.notify_level (ChannelMember.reading p.2) ≫= NotifyLevel.of_str) (notify_default ws p.1.2) direct;
            Recipient.muted := Reading.muted (ChannelMember.reading p.2); Recipient.direct := direct |}
  else None.
Definition recipients ch (author : option Uuid) t : list Recipient.t :=
  match channels t !! ch with
  | Some c => omap (recipient_of ch c author t) (map_to_list (channel_members t))
  | None => []
  end.

Definition is_dnd_active ws u : Api bool := query (fun _ => bool_decide (is_Some (paused_until ws u now))).
Definition unread_count_everywhere u : Api Z :=
  query (fun t => unread_everywhere (fun ws => is_member ws u t) u (message_tables t)).

(** *** Mails that wait ([email.rs]) *)

Definition enqueue_pending (p : PendingMention.t) : Svc ApiDb unit :=
  wants ← or_else false (query (fun _ => mention_emails (PendingMention.workspace_id p) (PendingMention.user_id p)));
  if negb wants then mret tt
  else svc_ignore (transaction (
    there ← read (fun t => references_exist (PendingMention.workspace_id p) (PendingMention.user_id p) t &&
      match PendingMention.channel_id p with Some ch => bool_decide (is_Some (channels t !! ch)) | None => true end);
    if negb there then foreign_key else run (set_notice_tables (set_pending (enqueue_mention p))))).

(** *** Push ([sender.rs], [push/repo.rs]) *)

(** [ORDER BY created_at] *)
Definition older_subscription (a b : str * PushSubscription.t) : Prop := PushSubscription.created_at a.2 <= PushSubscription.created_at b.2.
#[global] Instance older_subscription_dec a b : Decision (older_subscription a b).
Proof. unfold older_subscription. apply _. Defined.
Definition subscriptions_of u t : list (str * PushSubscription.t) :=
  merge_sort older_subscription (filter (fun p => PushSubscription.user_id p.2 = u) (map_to_list (push_subscriptions (notice_tables t)))).
Definition change_subscriptions (f : gmap str PushSubscription.t -> gmap str PushSubscription.t) : Svc ApiDb unit :=
  svc_ignore (change (set_notice_tables (set_push_subscriptions f))).

(** One request to the push service; it reports a subscription that is gone
    with 404 or 410. *)
Definition push_to (payload : PushPayload.t) (p : str * PushSubscription.t) : Svc ApiDb unit :=
  sent ← change (set_notice_tables (set_pushes (fun l => l ++ [(p.1, payload)])));
  match sent, push_answer p.1 with
  | Err _, _ | _, None => mret tt
  | Ok _, Some status =>
      if (status =? 410) || (status =? 404) then change_subscriptions (delete p.1)
      else if (200 <=? status) && (status <? 300) then change_subscriptions (alter (PushSubscription.set_used now) p.1)
      else mret tt
  end.
Definition push_to_user u (payload : PushPayload.t) : Svc ApiDb unit :=
  if negb configured then mret tt
  else
    subscriptions ← query (subscriptions_of u);
    match subscriptions with
    | Ok subscriptions => svc_each subscriptions (push_to payload)
    | Err _ => mret tt
    end.

(** [presence::is_active] *)
Definition is_active u : Svc ApiDb bool :=
  expiries ← svc_read (fun _ : ApiDb => activity u);
  mret (match expiries with Ok l => existsb (fun at_ => now / SECOND <? at_) l | Err _ => false end).

(** *** Telling one person *)

Definition str_json (o : option str) : json := match o with Some s => JString s | None => JNull end.
Definition with_list_item o (fields : json) : json :=
  match Origin.list_item o with
  | Some (list, item) => obj_insert ($"item_id") (JString (uuid_to_string item)) (obj_insert ($"list_id") (JString (uuid_to_string list)) fields)
  | None => fields
  end.
Definition notice_data o : json :=
  let data := JObject [($"channel_id", str_json (Origin.channel_id o)); ($"message_id", str_json (Origin.message_id o));
                       ($"thread_parent_id", str_json (Origin.thread_parent_id o))] in
  with_list_item o (if Origin.in_channel o then obj_insert ($"in_channel") (JBool true) data else data).
Definition notice_frame u ws o n : json := JObject [
  ($"event_type", JString ($"notification.push"));
  ($"payload", with_list_item o (JObject [
    uuid_field "user_id" u; uuid_field "workspace_id" ws; ($"channel_id", str_json (Origin.channel_id o));
    ($"message_id", str_json (Origin.message_id o)); ($"thread_parent_id", str_json (Origin.thread_parent_id o));
    ($"title", JString (Notice.title n)); ($"body", JString (Origin.content o)); ($"kind", JString (Notice.kind n))]))].
Definition publish_frame (frame : json) : Svc ApiDb unit := svc_ignore (change (set_notice_tables (set_frames (fun l => l ++ [frame])))).

Definition push_payload ws o n (badge : Z) : PushPayload.t :=
  {| PushPayload.title := Notice.title n; PushPayload.body := PushPayload.preview (Origin.content o);
     PushPayload.workspace_id := Some (uuid_to_string ws); PushPayload.channel_id := Origin.channel_id o;
     PushPayload.message_id := Origin.message_id o; PushPayload.thread_parent_id := Origin.thread_parent_id o;
     PushPayload.badge_count := badge |}.
Definition pending_mention u ws o (names : Names.t) n : PendingMention.t :=
  {| PendingMention.user_id := u; PendingMention.workspace_id := ws; PendingMention.channel_id := Origin.channel_uuid o;
     PendingMention.message_id := Origin.message_id o ≫= uuid_parse; PendingMention.sender_name := Names.sender names;
     PendingMention.channel_name := Names.channel names;
     PendingMention.direct := bool_decide (Notice.activity n = Some NotificationType.Dm); PendingMention.created_at := now |}.

Definition keep_activity u ws o n : Svc ApiDb unit :=
  match Notice.activity n with
  | Some kind => svc_ignore (create_notification (notification_row u ws kind (Notice.title n) (Some (Origin.content o)) (notice_data o)))
  | None => mret tt
  end.
Definition push_unless_active u ws o n : Svc ApiDb unit :=
  looking ← is_active u;
  if looking : bool then mret tt
  else badge ← or_else 0 (unread_count_everywhere u); push_to_user u (push_payload ws o n badge).
Definition deliver_notice o (names : Names.t) u n : Svc ApiDb unit :=
  match Origin.workspace_id o with
  | None => mret tt
  | Some ws =>
      _ ← keep_activity u ws o n;
      paused ← or_else false (is_dnd_active ws u);
      if paused : bool then mret tt
      else
        _ ← publish_frame (notice_frame u ws o n);
        _ ← (if Notice.email n then enqueue_pending (pending_mention u ws o names n) else mret tt);
        push_unless_active u ws o n
  end.

(** *** [message.created] *)

Definition sender_name o : Svc ApiDb (option str) :=
  match Origin.workspace_id o, Origin.sender_id o ≫= uuid_parse with
  | Some ws, Some id => or_else None (query (fun _ => profile_name ws id))
  | None, Some id => or_else None (query (fun t => find_by_id id t ≫= User.display_name))
  | _, None => mret None
  end.
Definition channel_name o : Svc ApiDb (option str) :=
  match Origin.channel_uuid o with
  | Some id => or_else None (query (fun t => find_channel_by_id id t ≫= Channel.name))
  | None => mret None
  end.
Definition names_of o : Svc ApiDb Names.t :=
  sender ← sender_name o;
  channel ← channel_name o;
  mret {| Names.sender := default ($"Somebody") sender; Names.channel := default [] channel |}.

(** The keyword of a person that a message has; a map from the person. *)
Definition keyword_matches ch (author : option Uuid) payload : Svc ApiDb (gmap Uuid str) :=
  let content := addressed_text (default [] (get_str ($"content") payload)) (bool_decide (is_Some (pointer2 METADATA ($"forwarded_from") payload))) in
  match trim content with
  | [] => mret ∅
  | _ => matches ← or_else [] (query (fun _ => keywords_in ch author content)); mret (foldl (fun m p => <[p.1 := p.2]> m) ∅ matches)
  end.

(** Those who follow the thread and are not in the channel are told of
    mentions. *)
Definition outsiders (members : list Recipient.t) (followers : gset Uuid) : list Recipient.t :=
  (fun u => {| Recipient.user_id := u; Recipient.level := NotifyLevel.Mentions; Recipient.muted := false; Recipient.direct := false |}) <$>
    filter (fun u => u ∉ Recipient.user_id <$> members) (elements followers).
Definition reasons_of (members : list Recipient.t) (followers mentioned : gset Uuid) (keywords : gmap Uuid str) (in_thread : bool)
    : list (Uuid * Reason.t) :=
  omap (fun r =>
    let u := Recipient.user_id r in
    (fun reason => (u, reason)) <$> reason_for r
      {| Signals.mentioned := bool_decide (u ∈ mentioned); Signals.following := bool_decide (u ∈ followers);
         Signals.keyword := bool_decide (is_Some (keywords !! u)); Signals.in_thread := in_thread |})
    (members ++ outsiders members followers).

(** A reply is at the root of its thread. *)
Definition place_of_notice o (reason : Reason.t) : Origin.t :=
  if bool_decide (reason = Reason.Reply) then Origin.at_message (Origin.thread_parent_id o) o else o.
Definition notify_message payload : Svc ApiDb unit :=
  let o := origin_of payload (preview_text payload) in
  match Origin.channel_uuid o, Origin.sender_id o ≫= uuid_parse with
  | Some ch, Some sender =>
      let bot := pointer2 METADATA ($"bot") payload in
      let author := match bot ≫= get ($"hook_id") with Some _ => None | None => Some sender end in
      members ← query (recipients ch author);
      match members with
      | Err _ => mret tt
      | Ok members =>
          let root := Origin.thread_parent_id o ≫= uuid_parse in
          followers ← match root with
                      | Some root => l ← or_else [] (query (reply_recipients root author)); mret (list_to_set l)
                      | None => mret ∅
                      end;
          keywords ← keyword_matches ch author payload;
          let reasons := reasons_of members followers (list_to_set (mentioned_ids payload)) keywords
                           (bool_decide (is_Some root) && negb (Origin.in_channel o)) in
          match reasons with
          | [] => mret tt
          | _ =>
              names ← names_of o;
              let names := match bot ≫= get_str ($"name") with Some name => Names.set_sender name names | None => names end in
              svc_each reasons (fun p => deliver_notice (place_of_notice o p.2) names p.1 (notice names p.2 (keywords !! p.1)))
          end
      end
  | _, _ => mret tt
  end.

(** *** [huddle.ring] *)

Definition ring_data (huddle : Uuid) payload : json :=
  JObject [uuid_field "huddle_id" huddle; ($"from_user_id", default JNull (get ($"from_user_id") payload))].
Definition ring_row u ws (huddle : Uuid) payload : Notification.t :=
  notification_row u ws NotificationType.Call ($"Incoming huddle") (Some ($"Someone is starting a huddle")) (ring_data huddle payload).
Definition ring_frame u ws : json := JObject [
  ($"event_type", JString ($"notification.push"));
  ($"payload", JObject [uuid_field "user_id" u; uuid_field "workspace_id" ws; ($"title", JString ($"Incoming huddle"));
                        ($"body", JString ($"Someone is starting a huddle")); ($"kind", JString ($"call"))])].
Definition notify_ring (e : Event) : Svc ApiDb unit :=
  if RING_MAX_AGE <? now - timestamp e then mret tt
  else
    match get_uuid ($"to_user_id") (payload e), get_uuid ($"workspace_id") (payload e), get_uuid ($"huddle_id") (payload e) with
    | Some u, Some ws, Some huddle =>
        created ← create_notification (ring_row u ws huddle (payload e));
        match created with
        | Ok (Some _) =>
            paused ← or_else false (is_dnd_active ws u);
            if paused : bool then mret tt else publish_frame (ring_frame u ws)
        | _ => mret tt
        end
    | _, _, _ => mret tt
    end.

(** *** [list.comment_upserted], [list.assigned] *)

Definition clipped_title (title : str) : str :=
  if ITEM_TITLE_MAX_CHARS <? chars_count title then take (Z.to_nat (ITEM_TITLE_MAX_CHARS - 1)) title ++ [8230] else title.
(** [sort], [dedup] *)
Definition candidates_of (ids : list Uuid) (actor : Uuid) : list Uuid := dedup (merge_sort N.le (filter (fun u => u <> actor) ids)).
Definition channel_members_among ch (ids : list Uuid) t : list Uuid :=
  omap (fun k : Uuid * Uuid => if bool_decide (k.1 = ch) && bool_decide (k.2 ∈ ids) then Some k.2 else None) (map_to_list (channel_members t)).*1.
Definition notify_list (e : Event) : Svc ApiDb unit :=
  let p := payload e in
  match get_uuid ($"list_id") p, get_uuid ($"item_id") p with
  | Some list_id, Some item_id =>
      let item_title := clipped_title (default ($"Untitled") (get_str ($"item_title") p)) in
      let list_title := default [] (get_str ($"list_title") p) in
      let assigned := str_eqb (event_type e) ($"list.assigned") in
      let actor := get_str (if assigned then $"actor_id" else $"author_id") p in
      let named := if assigned then ids_in p ($"assignee_ids") else mentioned_ids p in
      let body := if assigned then $"in " ++ list_title else default [] (pointer2 ($"comment") ($"content") p ≫= as_str) in
      match actor ≫= uuid_parse with
      | None => mret tt
      | Some actor_id =>
          let candidates := candidates_of named actor_id in
          match candidates with
          | [] => mret tt
          | _ =>
              readers ← match get_uuid ($"channel_id") p with
                        | Some ch => query (channel_members_among ch candidates)
                        | None => mret (Ok (filter (fun u => u ∈ candidates) (option_list (get_uuid ($"owner_id") p))))
                        end;
              match readers with
              | Err _ | Ok [] => mret tt
              | Ok readers =>
                  let o := {| Origin.workspace_id := get_uuid ($"workspace_id") p; Origin.channel_id := get_str ($"channel_id") p;
                              Origin.channel_uuid := get_uuid ($"channel_id") p; Origin.message_id := None; Origin.thread_parent_id := None;
                              Origin.in_channel := false; Origin.sender_id := actor; Origin.content := body;
                              Origin.list_item := Some (list_id, item_id) |} in
                  names ← names_of o;
                  let n := {| Notice.activity := Some NotificationType.List; Notice.kind := $"list";
                              Notice.title := Names.sender names ++ (if assigned then $" assigned you to " else $" mentioned you on ") ++ item_title;
                              Notice.email := false |} in
                  svc_each readers (fun u => deliver_notice o names u n)
              end
          end
      end
  | _, _ => mret tt
  end.

(** One event of the stream; it is acknowledged whatever happens. *)
Definition consume (e : Event) : Svc ApiDb unit :=
  if str_eqb (event_type e) ($"message.created") then notify_message (payload e)
  else if str_eqb (event_type e) ($"huddle.ring") then notify_ring e
  else if str_eqb (event_type e) ($"list.comment_upserted") || str_eqb (event_type e) ($"list.assigned") then notify_list e
  else mret tt.

(** ** Routes *)

Definition DEFAULT_PAGE : Z := 50.
Definition MAX_PAGE : Z := 200.
(** [ORDER BY created_at DESC] *)
Definition newer_notice (a b : Notification.t) : Prop := Notification.created_at b <= Notification.created_at a.
#[global] Instance newer_notice_dec a b : Decision (newer_notice a b).
Proof. unfold newer_notice. apply _. Defined.
Definition notices_for u ws (limit offset : Z) (t : MessageTables) : list Notification.t :=
  take (Z.to_nat limit) (drop (Z.to_nat offset)
    (merge_sort newer_notice (filter (fun n : Notification.t => Notification.user_id n = u /\ Notification.workspace_id n = ws) (map_to_list (notifications t)).*2))).
Definition list_notifications (auth : AuthUser.t) ws (limit offset : option Z) : Api (list Notification.t) :=
  _ ←? require_workspace_member ws (AuthUser.user_id auth);
  query (fun t => notices_for (AuthUser.user_id auth) ws (Z.max 1 (Z.min MAX_PAGE (default DEFAULT_PAGE limit))) (Z.max 0 (default 0 offset)) (message_tables t)).

(** [UPDATE .. SET is_read = true], with how many rows it touched. *)
Definition read_notices (p : Uuid * Notification.t -> bool) : Api Z :=
  sql (fun d : ApiDb =>
    (with_app (set_message_tables (set_notifications (map_imap (fun id (n : Notification.t) => Some (if p (id, n) then Notification.set_read n else n))))) d,
     Z.of_nat (size (filter (fun x => p x = true) (notifications (message_tables (app d))))))).
Definition mark_notifications_read (auth : AuthUser.t) (ids : list Uuid) : Api Z :=
  read_notices (fun x => bool_decide (x.1 ∈ ids) && bool_decide (Notification.user_id x.2 = AuthUser.user_id auth)).
Definition of_member u ws (n : Notification.t) : bool := bool_decide (Notification.user_id n = u) && bool_decide (Notification.workspace_id n = ws) && negb (Notification.is_read n).
Definition mark_all_notifications_read (auth : AuthUser.t) ws : Api Z :=
  _ ←? require_workspace_member ws (AuthUser.user_id auth);
  read_notices (fun x => of_member (AuthUser.user_id auth) ws x.2).
Definition mark_channel_notifications_read (auth : AuthUser.t) ws ch : Api Z :=
  _ ←? require_workspace_member ws (AuthUser.user_id auth);
  read_notices (fun x => of_member (AuthUser.user_id auth) ws x.2 && text_is ($"channel_id") (uuid_to_string ch) (Notification.data x.2) &&
                         in_channel_notice (Notification.data x.2)).
Definition unread_notice_count (auth : AuthUser.t) ws : Api Z :=
  _ ←? require_workspace_member ws (AuthUser.user_id auth);
  query (fun t => Z.of_nat (size (filter (fun x : Uuid * Notification.t => of_member (AuthUser.user_id auth) ws x.2 = true) (notifications (message_tables t))))).

(** [set_channel_level]: the member's level, if the seat is there. *)
Definition with_level (level : option NotifyLevel.t) (m : ChannelMember.t) : ChannelMember.t :=
  let r := ChannelMember.reading m in
  {| ChannelMember.channel_id := ChannelMember.channel_id m; ChannelMember.user_id := ChannelMember.user_id m;
     ChannelMember.role := ChannelMember.role m; ChannelMember.joined_at := ChannelMember.joined_at m;
     ChannelMember.unread_count := ChannelMember.unread_count m;
     ChannelMember.reading := {| Reading.last_read_at := Reading.last_read_at r; Reading.last_read_message_id := Reading.last_read_message_id r;
       Reading.is_starred := Reading.is_starred r; Reading.muted := Reading.muted r; Reading.mention_count := Reading.mention_count r;
       Reading.notify_level := NotifyLevel.as_str <$> level |} |}.
Definition set_channel_notify_level (auth : AuthUser.t) ch (level : option NotifyLevel.t) : Api (option NotifyLevel.t * NotifyLevel.t) :=
  let u := AuthUser.user_id auth in
  c ←? find_channel ch;
  set ←? sql (fun d : ApiDb =>
    let t := app d in
    if bool_decide (is_Some (channel_members t !! (ch, u))) && match channels t !! ch with Some c => is_member (Channel.workspace_id c) u t | None => false end
    then (with_app (set_channel_members (alter (with_level level) (ch, u))) d,
          (fun c => (level, effective_level level (notify_default (Channel.workspace_id c) u)
             (bool_decide (Channel.channel_type c = Dm) || bool_decide (Channel.channel_type c = GroupDm)))) <$> channels t !! ch)
    else (d, None));
  require (Forbidden ($"Not a member of this channel")) set.

(** *** Subscriptions of browsers *)

Definition upsert_subscription u (req : SubscribeRequest.t) (endpoint : str) : Tx ApiDb Uuid :=
  id ← drawn draw;
  there ← read (fun t => bool_decide (is_Some (users t !! u)));
  if negb there then foreign_key
  else
    let row := {| PushSubscription.id := id; PushSubscription.user_id := u; PushSubscription.p256dh := SubscribeRequest.p256dh req;
                  PushSubscription.auth := SubscribeRequest.auth req; PushSubscription.user_agent := SubscribeRequest.user_agent req;
                  PushSubscription.created_at := now; PushSubscription.last_used_at := None |} in
    _ ← run (set_notice_tables (set_push_subscriptions (partial_alter (fun there => Some match there with
          | Some s => PushSubscription.rekeyed u (SubscribeRequest.p256dh req) (SubscribeRequest.auth req) (SubscribeRequest.user_agent req) s
          | None => row
          end) endpoint)));
    saved ← read (fun t => push_subscriptions (notice_tables t) !! endpoint);
    s ← tx_require row_not_found saved;
    mret (PushSubscription.id s).
Definition subscribe_push (auth : AuthUser.t) (req : SubscribeRequest.t) : Api Uuid :=
  let endpoint := SubscribeRequest.endpoint req in
  if bool_decide (trim endpoint = []) || bool_decide (SubscribeRequest.p256dh req = []) || bool_decide (SubscribeRequest.auth req = []) then
    mret (Err (Validation ($"A subscription needs an endpoint and both keys")))
  else if negb (starts_with ($"https://") endpoint) then mret (Err (Validation ($"Push endpoints are https")))
  else transaction (upsert_subscription (AuthUser.user_id auth) req (trim endpoint)).
Definition unsubscribe_push (auth : AuthUser.t) (endpoint : str) : Api unit :=
  _ ←? sql (fun d : ApiDb => (with_app (set_notice_tables (set_push_subscriptions
    (filter (fun p => ~ (p.1 = endpoint /\ PushSubscription.user_id p.2 = AuthUser.user_id auth))))) d, tt));
  mret (Ok tt).
Definition list_subscriptions (auth : AuthUser.t) : Api (list (str * PushSubscription.t)) := query (subscriptions_of (AuthUser.user_id auth)).
End worker.

(** ** The digest of mails ([email.rs]) *)

Section digest.
Context `{UuidText}.
Context (draw : ApiDb -> Uuid) (now : Z) (paused_until : Uuid -> Uuid -> Z -> option Z) (public_url : str).
(** [ARRAY_AGG(DISTINCT ..)] under the collation of the database. *)
Context (distinct : list str -> list str).
Implicit Types (p : PendingMention.t) (t : AppTables) (u ws : Uuid).

Definition cutoff : Z := now - DIGEST_WINDOW.
Definition waited p : bool := PendingMention.created_at p <=? cutoff.
(** There is an unread notification of the message. *)
Definition still_unread (t : MessageTables) p : bool :=
  existsb (fun n => bool_decide (Notification.user_id n = PendingMention.user_id p) && negb (Notification.is_read n) &&
    match PendingMention.message_id p with Some m => text_is ($"message_id") (uuid_to_string m) (Notification.data n) | None => false end)
    (map_to_list (notifications t)).*2.
Definition set_waiting (f : list PendingMention.t -> list PendingMention.t) : AppTables -> AppTables := set_notice_tables (set_pending f).
Definition drop_read t : AppTables :=
  set_waiting (filter (fun p => (waited p && negb (still_unread (message_tables t) p) : bool) = false)) t.

Definition of_person u ws p : bool := bool_decide (PendingMention.user_id p = u) && bool_decide (PendingMention.workspace_id p = ws).
Definition only {A} (l : list A) : option A := match l with [x] => Some x | _ => None end.
Definition digest_of (email : str) u ws (l : list PendingMention.t) : DueDigest.t :=
  let named := filter (fun p => PendingMention.direct p = false) l in
  {| DueDigest.user_id := u; DueDigest.workspace_id := ws; DueDigest.email := email; DueDigest.mentions := Z.of_nat (length named);
     DueDigest.direct_messages := Z.of_nat (length (filter (fun p => PendingMention.direct p = true) l));
     DueDigest.channels := distinct (PendingMention.channel_name <$> named); DueDigest.senders := distinct (PendingMention.sender_name <$> l);
     DueDigest.channel_id := only l ≫= PendingMention.channel_id; DueDigest.message_id := only l ≫= PendingMention.message_id |}.
Definition digest_for t (k : Uuid * Uuid) : option DueDigest.t :=
  person ← users t !! k.1;
  if User.is_bot person || bool_decide (is_Some (paused_until k.2 k.1 now)) then None
  else Some (digest_of (User.email person) k.1 k.2
         (filter (fun p => waited p = true /\ of_person k.1 k.2 p = true) (pending_mention_emails (notice_tables t)))).
(** [GROUP BY user_id, workspace_id, email], in no order. *)
Definition groups t : gset (Uuid * Uuid) :=
  list_to_set ((fun p => (PendingMention.user_id p, PendingMention.workspace_id p)) <$>
    filter (fun p => waited p = true) (pending_mention_emails (notice_tables t))).
Definition due_digests t : list DueDigest.t := omap (digest_for t) (elements (groups t)).

Definition counted (n : Z) (one many : str) : str :=
  count_text (Z.to_nat n) ++ $" " ++ if n =? 1 then one else many.
Definition what_happened (g : DueDigest.t) : str :=
  let dms := counted (DueDigest.direct_messages g) ($"direct message") ($"direct messages") in
  let mentions := counted (DueDigest.mentions g) ($"mention") ($"mentions") in
  if DueDigest.mentions g =? 0 then $"You have " ++ dms
  else if DueDigest.direct_messages g =? 0 then $"You have " ++ mentions
  else $"You have " ++ mentions ++ $" and " ++ dms.
Definition subject_for (g : DueDigest.t) : str :=
  if (DueDigest.mentions g =? 1) && (DueDigest.direct_messages g =? 0) then $"You were mentioned"
  else if DueDigest.direct_messages g =? 0 then $"You were mentioned " ++ count_text (Z.to_nat (DueDigest.mentions g)) ++ $" times"
  else if (DueDigest.mentions g =? 0) && (DueDigest.direct_messages g =? 1) then $"You have a direct message"
  else what_happened g.
Definition body_for (g : DueDigest.t) : str :=
  let people := filter (fun s => s <> []) (DueDigest.senders g) in
  let places := (fun c => $"#" ++ c) <$> filter (fun c => c <> []) (DueDigest.channels g) in
  let workspace := public_url ++ $"/app/" ++ uuid_to_string (DueDigest.workspace_id g) in
  join [10] ([what_happened g ++ $" while you were away."] ++
    match people with [] => [] | _ => [$"From: " ++ join ($", ") people] end ++
    match places with [] => [] | _ => [$"In: " ++ join ($", ") places] end ++
    [[]; match DueDigest.channel_id g, DueDigest.message_id g with
         | Some channel, Some message => $"Open it: " ++ workspace ++ $"/" ++ uuid_to_string channel ++ $"/" ++ uuid_to_string message
         | _, _ => $"Open the workspace: " ++ workspace
         end]).

Definition claim_digest u ws : Tx ApiDb nat :=
  let mine p := waited p && of_person u ws p in
  claimed ← read (fun t => length (filter (fun p => mine p = true) (pending_mention_emails (notice_tables t))));
  _ ← run (set_waiting (filter (fun p => mine p = false)));
  mret claimed.
(** Whether the mail was queued. *)
Definition send_digest (g : DueDigest.t) : Api bool :=
  transaction (
    claimed ← claim_digest (DueDigest.user_id g) (DueDigest.workspace_id g);
    if Nat.eqb claimed 0 then mret false
    else
      _ ← enqueue_email draw now {| NewEmail.to_ := DueDigest.email g; NewEmail.subject := subject_for g; NewEmail.text := body_for g; NewEmail.html := None |};
      mret true).
Fixpoint send_digests (l : list DueDigest.t) : Svc ApiDb nat :=
  match l with
  | [] => mret O
  | g :: l => sent ← send_digest g; more ← send_digests l; mret (match sent with Ok true => S more | _ => more end)
  end.
Definition flush_digests : Svc ApiDb nat :=
  _ ← svc_ignore (change drop_read);
  due ← query due_digests;
  match due with Ok due => send_digests due | Err _ => mret O end.
End digest.
