(* ===== verification/NoticeLaws.v ===== *)
(** * What holds of notifications
    ([backend/api/src/notifications/{consumer,repo,email}.rs])

    Whom a message is for and why; that an event which is delivered again adds
    no row and no mail; and that a mention that stays unread is mailed. *)

From stdpp Require Import base tactics option numbers list gmap sorting.
From Stdlib Require Import ZArith Lia String Ascii.
From S2P Require Import Prelude RustStr Json Errors Frames Publisher MessageStore NoticeStore Mentions ApiState Outbox AuditLog Tables Authz Membership ApiLaws Mail Messaging Files Threads MessageRoutes Notices.

Abbreviation Rows d := (notifications (message_tables (app d))).
Abbreviation Waiting d := (pending_mention_emails (notice_tables (app d))).

(** ** The state apart from notifications *)

Definition rest (t : AppTables) : AppTables := set_notice_tables (fun _ => no_notices) (set_message_tables (set_notifications (fun _ => ∅)) t).

Section fields.
Implicit Types (t : AppTables).
Lemma rest_notices f t : rest (set_notice_tables f t) = rest t.
Proof. by destruct t. Qed.
Lemma rest_rows f t : rest (set_message_tables (set_notifications f) t) = rest t.
Proof. destruct t as [? ? ? ? ? ? ? ? ? ? ? ? ? [] ? ? ? ?]. done. Qed.
Lemma messages_notices f t : message_tables (set_notice_tables f t) = message_tables t.
Proof. by destruct t. Qed.
Lemma notices_notices f t : notice_tables (set_notice_tables f t) = f (notice_tables t).
Proof. by destruct t. Qed.
Lemma notices_rows f t : notice_tables (set_message_tables f t) = notice_tables t.
Proof. by destruct t. Qed.
Lemma messages_rows f t : message_tables (set_message_tables f t) = f (message_tables t).
Proof. by destruct t. Qed.
Lemma rows_rows f (m : MessageTables) : notifications (set_notifications f m) = f (notifications m).
Proof. by destruct m. Qed.
Lemma waiting_pending f (n : NoticeTables) : pending_mention_emails (set_pending f n) = f (pending_mention_emails n).
Proof. by destruct n. Qed.
Lemma waiting_subscriptions f (n : NoticeTables) : pending_mention_emails (set_push_subscriptions f n) = pending_mention_emails n.
Proof. by destruct n. Qed.
Lemma waiting_frames f (n : NoticeTables) : pending_mention_emails (set_frames f n) = pending_mention_emails n.
Proof. by destruct n. Qed.
Lemma waiting_pushes f (n : NoticeTables) : pending_mention_emails (set_pushes f n) = pending_mention_emails n.
Proof. by destruct n. Qed.
Lemma waiting_emails f (n : NoticeTables) : pending_mention_emails (set_outbound_emails f n) = pending_mention_emails n.
Proof. by destruct n. Qed.
End fields.
#[export] Hint Rewrite rest_notices rest_rows messages_notices notices_notices notices_rows messages_rows rows_rows waiting_pending
  waiting_subscriptions waiting_frames waiting_pushes waiting_emails : notice.

(** Nothing anybody reads of notifications changes. *)
Definition still (d d' : ApiDb) : Prop := rest (app d') = rest (app d) /\ Rows d' = Rows d /\ Waiting d' = Waiting d.
(** Rows and mails are only added. *)
Definition grows (d d' : ApiDb) : Prop := rest (app d') = rest (app d) /\ Rows d ⊆ Rows d' /\ Waiting d `prefix_of` Waiting d'.
#[export] Instance still_preorder : PreOrder still.
Proof. split; [by intros d|]. intros a b c (H1 & H2 & H3) (H4 & H5 & H6). split_and!; congruence. Qed.
#[export] Instance grows_preorder : PreOrder grows.
Proof.
  split; [by intros d|]. intros a b c (H1 & H2 & H3) (H4 & H5 & H6). split_and!; [congruence|by etransitivity..].
Qed.
Lemma still_grows d d' : still d d' -> grows d d'.
Proof. intros (H1 & H2 & H3). split_and!; [done|by rewrite H2|by rewrite H3]. Qed.

(** ** A worker alone *)

(** From a state of [P] the step alone ends in one of [Q]. *)
Definition alone_to {A} (P : ApiDb -> Prop) (m : Svc ApiDb A) (Q : A -> ApiDb -> Prop) : Prop :=
  forall d, P d -> exists a d', m (undisturbed d) = (a, undisturbed d') /\ Q a d'.

Section alone.
Lemma alone_ret {A} (P : ApiDb -> Prop) (a : A) (Q : A -> ApiDb -> Prop) : (forall d, P d -> Q a d) -> alone_to P (mret a) Q.
Proof. intros HQ d HP. exists a, d. auto. Qed.
Lemma alone_bind {A B} P (m : Svc ApiDb A) (f : A -> Svc ApiDb B) Q S :
  alone_to P m Q -> (forall a, alone_to (Q a) (f a) S) -> alone_to P (m ≫= f) S.
Proof.
  intros Hm Hf d HP. destruct (Hm d HP) as (a & d1 & E & HQ). destruct (Hf a d1 HQ) as (b & d2 & E2 & HS).
  exists b, d2. by rewrite svc_bind_eq, E.
Qed.
Lemma alone_call {A} (P : ApiDb -> Prop) (op : ApiDb -> ApiDb * A) (Q : result svc_fault A -> ApiDb -> Prop) :
  (forall d, P d -> Q (Ok (op d).2) (op d).1) -> alone_to P (svc_call op) Q.
Proof. intros HQ d HP. exists (Ok (op d).2), (op d).1. split; [by rewrite svc_call_quiet|auto]. Qed.
Lemma alone_transaction {A} (P : ApiDb -> Prop) (m : Tx ApiDb A) (Q : AppResult A -> ApiDb -> Prop) :
  (forall d, P d -> match m d with (Ok a, d') => Q (Ok a) d' | (Err e, _) => Q (Err e) d end) -> alone_to P (transaction m) Q.
Proof.
  intros HQ d HP. specialize (HQ d HP). rewrite transaction_quiet by done. cbn [shared undisturbed].
  destruct (m d) as [[a|e] d']; unfold undisturbed; eauto.
Qed.
Lemma alone_query {A} (P : ApiDb -> Prop) (q : AppTables -> A) (Q : AppResult A -> ApiDb -> Prop) :
  (forall d, P d -> Q (Ok (q (app d))) d) -> alone_to P (query q) Q.
Proof. intros HQ d HP. exists (Ok (q (app d))), d. rewrite query_quiet by done. auto. Qed.
Lemma alone_post {A} P (m : Svc ApiDb A) (Q Q' : A -> ApiDb -> Prop) :
  alone_to P m Q -> (forall a d, Q a d -> Q' a d) -> alone_to P m Q'.
Proof. intros Hm HQ d HP. destruct (Hm d HP) as (a & d' & E & H). eauto. Qed.
Lemma alone_pre {A} (P P' : ApiDb -> Prop) (m : Svc ApiDb A) Q : (forall d, P' d -> P d) -> alone_to P m Q -> alone_to P' m Q.
Proof. intros HP Hm d Hd. by apply Hm, HP. Qed.
Lemma alone_each {A} (l : list A) (f : A -> Svc ApiDb unit) (I : ApiDb -> Prop) :
  (forall x, x ∈ l -> alone_to I (f x) (fun _ => I)) -> alone_to I (svc_each l f) (fun _ => I).
Proof.
  intros Hf. induction l as [|x l IH]; cbn; [by apply alone_ret|].
  eapply alone_bind; [apply Hf; left|]. intros a. apply IH. intros y Hy. apply Hf. by right.
Qed.
Lemma svc_each_fmap {A B} (g : A -> B) (f : B -> Svc ApiDb unit) l w : svc_each (g <$> l) f w = svc_each l (fun x => f (g x)) w.
Proof.
  revert w. induction l as [|x l IH]; intros w; [done|]. cbn [fmap list_fmap svc_each]. rewrite !svc_bind_eq. apply IH.
Qed.
End alone.
Ltac alone_step :=
  match goal with
  | |- alone_to _ (svc_ignore _) _ => unfold svc_ignore
  | |- alone_to _ (or_else _ _) _ => unfold or_else
  | |- alone_to _ (change _) _ => unfold change
  | |- alone_to _ (svc_read _) _ => unfold svc_read
  | |- alone_to _ (svc_write _) _ => unfold svc_write
  | |- alone_to ?P (svc_call _) _ => refine (alone_call P _ (fun _ => P) _)
  | |- alone_to ?P (query _) _ => refine (alone_query P _ (fun _ => P) _)
  | |- alone_to ?P (transaction _) _ => refine (alone_transaction P _ (fun _ => P) _)
  | |- alone_to ?P (mbind _ _) _ => refine (alone_bind P _ _ (fun _ => P) _ _ _); [|intros ?]
  | |- alone_to _ (mret _) _ => apply alone_ret
  | |- alone_to _ (if ?b then _ else _) _ => destruct b eqn:?
  | |- alone_to _ (match ?x with _ => _ end) _ => destruct x eqn:?
  end.

(** A step that, alone, leaves notifications as they are. *)
Definition calms {A} (m : Svc ApiDb A) : Prop := forall d, exists a d', m (undisturbed d) = (a, undisturbed d') /\ still d d'.
Section calms.
Lemma calms_ret {A} (a : A) : calms (mret a).
Proof. intros d. by exists a, d. Qed.
Lemma calms_bind {A B} (m : Svc ApiDb A) (f : A -> Svc ApiDb B) : calms m -> (forall a, calms (f a)) -> calms (m ≫= f).
Proof.
  intros Hm Hf d. destruct (Hm d) as (a & d1 & E & H1). destruct (Hf a d1) as (b & d2 & E2 & H2). exists b, d2.
  rewrite svc_bind_eq, E. split; [done|]. by etransitivity.
Qed.
Lemma calms_call {A} (op : ApiDb -> ApiDb * A) : (forall d, still d (op d).1) -> calms (svc_call op).
Proof. intros Hop d. exists (Ok (op d).2), (op d).1. split; [by rewrite svc_call_quiet|done]. Qed.
Lemma calms_notices f : (forall n, pending_mention_emails (f n) = pending_mention_emails n) -> calms (change (set_notice_tables f)).
Proof.
  intros Hf. apply calms_call. intros d. unfold still. cbn. autorewrite with notice. by rewrite Hf.
Qed.
Lemma calms_query {A} (q : AppTables -> A) : calms (query q).
Proof. intros d. eexists _, d. by rewrite query_quiet. Qed.
Lemma calms_each {A} (l : list A) (f : A -> Svc ApiDb unit) : (forall x, calms (f x)) -> calms (svc_each l f).
Proof. intros Hf. induction l as [|x l IH]; cbn; [apply calms_ret|]. by apply calms_bind. Qed.
Lemma alone_calms {A} (X : ApiDb -> Prop) (m : Svc ApiDb A) : calms m -> (forall d d', still d d' -> X d -> X d') -> alone_to X m (fun _ => X).
Proof. intros Hm HX d Hd. destruct (Hm d) as (a & d' & E & Hs). exists a, d'. split; [done|]. by eapply HX. Qed.
End calms.
Ltac calms_step :=
  match goal with
  | |- calms (svc_ignore _) => unfold svc_ignore
  | |- calms (or_else _ _) => unfold or_else
  | |- calms (mbind _ _) => apply calms_bind; [|intros ?]
  | |- calms (mret _) => apply calms_ret
  | |- calms (query _) => apply calms_query
  | |- calms (svc_read _) => apply calms_call; intros ?; reflexivity
  | |- calms (change (set_notice_tables _)) => apply calms_notices; intros ?; by autorewrite with notice
  | |- calms (svc_each _ _) => apply calms_each; intros ?
  | |- calms (if ?b then _ else _) => destruct b
  | |- calms (match ?x with _ => _ end) => destruct x
  end.

(** ** Telling one person *)

Section deliver.
Context `{UuidText} (draw : ApiDb -> Uuid) (now : Z).
Context (mention_emails : Uuid -> Uuid -> bool) (paused_until : Uuid -> Uuid -> Z -> option Z).
Context (activity : Uuid -> list Z) (configured : bool) (push_answer : str -> option Z).
Implicit Types (d : ApiDb) (o : Origin.t) (n : Notice.t) (u ws : Uuid) (row : Notification.t) (p : PendingMention.t).
#[local] Abbreviation deliver := (deliver_notice draw now mention_emails paused_until activity configured push_answer).

(** The row, or one the index takes it for, is there; or what it refers to is
    not. *)
Definition row_settled row d : Prop :=
  notified row (message_tables (app d)) = true \/ references_exist (Notification.workspace_id row) (Notification.user_id row) (app d) = false.
Definition mail_refers p (t : AppTables) : bool :=
  references_exist (PendingMention.workspace_id p) (PendingMention.user_id p) t &&
  match PendingMention.channel_id p with Some ch => bool_decide (is_Some (channels t !! ch)) | None => true end.
Definition mail_settled p d : Prop :=
  mention_emails (PendingMention.workspace_id p) (PendingMention.user_id p) = false \/ queued p (Waiting d) = true \/ mail_refers p (app d) = false.

Lemma references_rest ws u t : references_exist ws u (rest t) = references_exist ws u t.
Proof. by destruct t. Qed.
Lemma mail_refers_rest p t : mail_refers p (rest t) = mail_refers p t.
Proof. by destruct t. Qed.
Lemma notified_grows row (m m' : MessageTables) : notifications m ⊆ notifications m' -> notified row m = true -> notified row m' = true.
Proof.
  unfold notified. intros Hs. rewrite !existsb_exists. intros (x & Hx & E). exists x. split; [|done].
  apply list_elem_of_In in Hx. apply list_elem_of_In. apply list_elem_of_fmap in Hx as ([id x'] & -> & Hx%elem_of_map_to_list).
  apply list_elem_of_fmap. exists (id, x'). split; [done|]. apply elem_of_map_to_list. by eapply lookup_weaken.
Qed.
Lemma row_settled_grows row d d' : grows d d' -> row_settled row d -> row_settled row d'.
Proof.
  intros (Hr & Hs & _) [Hn|Hn]; [left; by eapply notified_grows|right]. by rewrite <-references_rest, Hr, references_rest.
Qed.
Lemma queued_app p l l' : queued p l = true -> queued p (l ++ l') = true.
Proof. unfold queued. rewrite existsb_app. by intros ->. Qed.
Lemma mail_settled_grows p d d' : grows d d' -> mail_settled p d -> mail_settled p d'.
Proof.
  intros (Hr & _ & [l Hl]) [Hn|[Hn|Hn]]; [by left|right; left|right; right].
  - rewrite Hl. by apply queued_app.
  - by rewrite <-mail_refers_rest, Hr, mail_refers_rest.
Qed.

(** A second row of the same kind about the same message is none. *)
Lemma duplicates_refl row s : text_at ($"message_id") (Notification.data row) = Some s -> duplicates row row = true.
Proof. intros E. unfold duplicates, same_at, str_eqb. rewrite E, !bool_decide_eq_true_2 by done. done. Qed.
Lemma duplicates_settled row row' d : (forall x, duplicates row x = duplicates row' x) ->
  Notification.workspace_id row = Notification.workspace_id row' -> Notification.user_id row = Notification.user_id row' ->
  row_settled row d -> row_settled row' d.
Proof.
  intros Hd Hw Hu. unfold row_settled, notified. rewrite Hw, Hu. intros [E|E]; [left|by right].
  rewrite existsb_exists in *. destruct E as (x & Hx & E). exists x. by rewrite <-Hd.
Qed.

Lemma create_in_Ok row d : (forall d, Rows d !! draw d = None) ->
  match create_in draw row d with
  | (Ok _, d') => grows d d' /\ Waiting d' = Waiting d /\ (row_settled row d -> still d d') /\ (duplicates row row = true -> row_settled row d')
  | (Err _, _) => row_settled row d
  end.
Proof.
  intros Hfresh. unfold create_in, drawn, message_read, message_run, read, run, tx_read, tx_query, mbind, Tx_bind, mret, Tx_ret. cbn.
  rewrite Hfresh, bool_decide_eq_false_2 by (by intros [? ?]). cbn. destruct (notified row (message_tables (app d))) eqn:En; cbn.
  - split_and!; [done..|]. intros _. by left.
  - destruct (references_exist _ _ _) eqn:Er; cbn; [|by right]. unfold grows, still, row_settled. cbn. autorewrite with notice.
    assert (Hsub : Rows d ⊆ <[draw d := row]> (Rows d)) by (by apply insert_subseteq).
    split_and!; [done|done|done|done|intros [?|?]; congruence|]. intros Hd. left. unfold notified. rewrite rows_rows, existsb_exists.
    exists row. split; [|done]. apply list_elem_of_In, list_elem_of_fmap. exists (draw d, row). split; [done|].
    apply elem_of_map_to_list, lookup_insert_eq.
Qed.

(** What a person was told is settled when the step is done. *)
Definition activity_row o n u : option Notification.t :=
  ws ← Origin.workspace_id o; kind ← Notice.activity n;
  Some (notification_row now u ws kind (Notice.title n) (Some (Origin.content o)) (notice_data o)).
Definition waiting_mail o (names : Names.t) n u : option PendingMention.t :=
  ws ← Origin.workspace_id o;
  if Notice.email n && bool_decide (paused_until ws u now = None) then Some (pending_mention now u ws o names n) else None.
Definition row_told o n u d : Prop := forall row, activity_row o n u = Some row -> row_settled row d.
Definition mail_told o names n u d : Prop := forall p, waiting_mail o names n u = Some p -> mail_settled p d.
Lemma row_told_grows o n u d d' : grows d d' -> row_told o n u d -> row_told o n u d'.
Proof. intros Hg Ht row Hr. eapply row_settled_grows; eauto. Qed.
Lemma mail_told_grows o names n u d d' : grows d d' -> mail_told o names n u d -> mail_told o names n u d'.
Proof. intros Hg Ht p Hp. eapply mail_settled_grows; eauto. Qed.

Lemma calms_frame f : calms (publish_frame f).
Proof. unfold publish_frame. repeat calms_step. Qed.
Lemma calms_push u ws o n : calms (push_unless_active now activity configured push_answer u ws o n).
Proof. unfold push_unless_active, is_active, unread_count_everywhere, push_to_user, push_to, change_subscriptions. repeat calms_step. Qed.

(** What holds on the way: only growth, and none of the rows or the mails that
    were settled. *)
Definition on_the_way (d0 : ApiDb) (rows mails : Prop) d : Prop := grows d0 d /\ (rows -> Rows d = Rows d0) /\ (mails -> Waiting d = Waiting d0).
Lemma on_the_way_still d0 rows mails d d' : still d d' -> on_the_way d0 rows mails d -> on_the_way d0 rows mails d'.
Proof.
  intros Hs (H1 & H2 & H3). split; [etransitivity; [done|by apply still_grows]|]. destruct Hs as (_ & -> & ->). done.
Qed.

Lemma keep_activity_alone d0 rows mails u ws o n : Origin.workspace_id o = Some ws -> (forall d, Rows d !! draw d = None) ->
  (rows -> row_told o n u d0) ->
  alone_to (fun d => d = d0) (keep_activity draw now u ws o n)
    (fun _ d => on_the_way d0 rows mails d /\ (forall row, activity_row o n u = Some row -> duplicates row row = true -> row_settled row d)).
Proof.
  intros Hws Hfresh Ht. unfold keep_activity, row_told, activity_row in *. rewrite Hws in *. cbn in *. destruct (Notice.activity n) as [kind|].
  - unfold svc_ignore, create_notification. set (row := notification_row _ _ _ _ _ _ _) in *.
    eapply (alone_bind _ _ _ (fun _ d => on_the_way d0 rows mails d /\ (duplicates row row = true -> row_settled row d))).
    + apply alone_transaction. intros d ->. pose proof (create_in_Ok row d0 Hfresh) as Hc. destruct (create_in draw row d0) as [[r|e] d'].
      * destruct Hc as (Hg & Hw & Hs & Hd). split; [|done]. split; [done|]. split; [|done]. intros Hto. by apply Hs, Ht.
      * split; [by split|done].
    + intros r. apply alone_ret. intros d [H1 H2]. split; [done|]. by intros row' [= <-].
  - apply alone_ret. intros d ->. by split.
Qed.

Lemma enqueue_alone (X : ApiDb -> Prop) d0 rows mails p : (mails -> mail_settled p d0) ->
  (forall d d', grows d d' -> X d -> X d') ->
  alone_to (fun d => on_the_way d0 rows mails d /\ X d) (enqueue_pending mention_emails p)
    (fun _ d => on_the_way d0 rows mails d /\ X d /\ (is_Some (PendingMention.message_id p) -> mail_settled p d)).
Proof.
  intros Ht HX. unfold enqueue_pending, or_else.
  eapply (alone_bind _ _ _ (fun wants d => wants = mention_emails (PendingMention.workspace_id p) (PendingMention.user_id p) /\ on_the_way d0 rows mails d /\ X d)).
  { eapply (alone_bind _ _ _ (fun r d => r = Ok (mention_emails (PendingMention.workspace_id p) (PendingMention.user_id p)) /\ on_the_way d0 rows mails d /\ X d));
      [by apply alone_query|]. intros r. apply alone_ret. by intros d [-> Hd]. }
  intros wants. destruct wants; cbn [negb].
  - unfold svc_ignore. eapply (alone_bind _ _ _ (fun _ => _)); [|intros a; apply alone_ret; intros d Hd; exact Hd].
    apply alone_transaction. intros d (Hw & (Hg & Hr & Hm) & Hx). unfold read, run, tx_read, tx_query, mbind, Tx_bind, mret, Tx_ret. cbn.
    change (references_exist _ _ (app d) && _) with (mail_refers p (app d)). destruct (mail_refers p (app d)) eqn:Er; cbn.
    + assert (Hgd : grows d (with_app (set_notice_tables (set_pending (enqueue_mention p))) d)).
      { unfold grows. cbn. autorewrite with notice. split_and!; [done..|]. unfold enqueue_mention. destruct (queued p _); [done|]. by eexists. }
      split_and!; [split; [by etransitivity|]|by eapply HX|].
      * cbn. autorewrite with notice. split; [done|]. intros Hto. assert (Hq : mail_settled p d) by (eapply mail_settled_grows; [done|by apply Ht]).
        destruct Hq as [Hq|[Hq|Hq]]; [congruence| |congruence]. unfold enqueue_mention. rewrite Hq. by apply Hm.
      * intros [m Hm']. right. left. cbn. autorewrite with notice. unfold enqueue_mention. destruct (queued p (Waiting d)) eqn:Eq; [done|].
        unfold queued. rewrite existsb_app. apply orb_true_iff. right. cbn. rewrite Hm', !bool_decide_eq_true_2 by done. done.
    + split_and!; [by split|done|]. intros _. by right; right.
  - apply alone_ret. intros d (Hw & Ho & Hx). split_and!; [done..|]. intros _. by left.
Qed.

(** The row and the mail say which message they are about. *)
Definition identified o n : Prop :=
  (forall u row, activity_row o n u = Some row -> duplicates row row = true) /\
  (Notice.email n = true -> is_Some (Origin.message_id o ≫= uuid_parse)).

Lemma deliver_alone d0 o names u n : (forall d, Rows d !! draw d = None) ->
  alone_to (fun d => d = d0) (deliver o names u n)
    (fun _ d => on_the_way d0 (row_told o n u d0) (mail_told o names n u d0) d /\ (identified o n -> row_told o n u d /\ mail_told o names n u d)).
Proof.
  intros Hfresh. unfold deliver_notice. destruct (Origin.workspace_id o) as [ws|] eqn:Hws.
  2: { apply alone_ret. intros d ->. split; [by split|]. intros _. unfold row_told, mail_told, activity_row, waiting_mail. rewrite Hws. by split. }
  set (rows := row_told o n u d0). set (mails := mail_told o names n u d0).
  set (kept d := forall row, activity_row o n u = Some row -> duplicates row row = true -> row_settled row d).
  assert (Hkept : forall d d', grows d d' -> kept d -> kept d') by (intros d d' Hg Hk row Hr Hd; eapply row_settled_grows; eauto).
  set (Inv d := on_the_way d0 rows mails d /\ kept d).
  assert (Hinv : forall d d', still d d' -> Inv d -> Inv d').
  { intros d d' Hs [H1 H2]. split; [by eapply on_the_way_still|]. eapply Hkept; [by apply still_grows|done]. }
  eapply alone_bind; [by apply (keep_activity_alone d0 rows mails)|]. intros [].
  eapply (alone_bind _ _ _ (fun paused d => paused = bool_decide (is_Some (paused_until ws u now)) /\ Inv d)).
  { unfold or_else, is_dnd_active. eapply (alone_bind _ _ _ (fun r d => r = Ok (bool_decide (is_Some (paused_until ws u now))) /\ Inv d)).
    - by apply alone_query.
    - intros r. apply alone_ret. by intros d [-> Hd]. }
  intros paused. destruct (decide (paused = bool_decide (is_Some (paused_until ws u now)))) as [->|Hne]; [|by intros d [? _]].
  case_bool_decide as Hp.
  { apply alone_ret. intros d (_ & Ho & Hk). split; [done|]. intros [Hid _]. split; [intros row Hr; by apply Hk, (Hid u)|].
    unfold mail_told, waiting_mail. rewrite Hws. cbn. rewrite (bool_decide_eq_false_2 (_ = None)) by (intros E; rewrite E in Hp; by destruct Hp).
    by rewrite andb_false_r. }
  eapply (alone_bind _ _ _ (fun _ => Inv)).
  { eapply alone_pre; [|apply alone_calms; [apply calms_frame|exact Hinv]]. by intros d [_ Hd]. }
  intros []. assert (Hwm : waiting_mail o names n u = if Notice.email n then Some (pending_mention now u ws o names n) else None).
  { unfold waiting_mail. rewrite Hws. cbn. rewrite bool_decide_eq_true_2 by (by apply eq_None_not_Some). by rewrite andb_true_r. }
  set (mailed d := forall p, waiting_mail o names n u = Some p -> is_Some (PendingMention.message_id p) -> mail_settled p d).
  eapply (alone_bind _ _ _ (fun _ d => Inv d /\ mailed d)).
  - destruct (Notice.email n) eqn:Ee.
    + eapply alone_post; [apply (enqueue_alone kept d0 rows mails); [|done]|].
      * intros Ht. by apply Ht.
      * intros a d (H1 & H2 & H3). split; [done|]. intros p. rewrite Hwm. by intros [= <-].
    + apply alone_ret. intros d Hd. split; [done|]. intros p. by rewrite Hwm.
  - intros []. eapply (alone_post _ _ (fun _ d => Inv d /\ mailed d)).
    + apply alone_calms; [apply calms_push|]. intros d d' Hs [H1 H2]. split; [by eapply Hinv|].
      intros p Hw Hm. eapply mail_settled_grows; [by apply still_grows|by apply H2].
    + intros _ d [[Ho Hk] Hm]. split; [done|]. intros [Hid He]. split; [intros row Hr; by apply Hk, (Hid u)|]. intros p Hw. apply Hm; [done|].
      rewrite Hwm in Hw. destruct (Notice.email n); [|done]. injection Hw as <-. by apply He.
Qed.

(** ** Telling everybody *)

Definition telling : Type := Origin.t * Names.t * Uuid * Notice.t.
Definition tell (x : telling) : Svc ApiDb unit := deliver x.1.1.1 x.1.1.2 x.1.2 x.2.
Definition told_row (x : telling) d : Prop := row_told x.1.1.1 x.2 x.1.2 d.
Definition told_mail (x : telling) d : Prop := mail_told x.1.1.1 x.1.1.2 x.2 x.1.2 d.
Lemma tell_all_alone d0 (l : list telling) : (forall d, Rows d !! draw d = None) ->
  alone_to (fun d => d = d0) (svc_each l tell)
    (fun _ d => on_the_way d0 (forall x, x ∈ l -> told_row x d0) (forall x, x ∈ l -> told_mail x d0) d /\
                ((forall x, x ∈ l -> identified x.1.1.1 x.2) -> forall x, x ∈ l -> told_row x d /\ told_mail x d)).
Proof.
  intros Hfresh. revert d0. induction l as [|x l IH]; intros d0; cbn [svc_each].
  - apply alone_ret. intros d ->. split; [by split|]. by intros _ x Hx%not_elem_of_nil.
  - intros d ->. destruct (deliver_alone d0 x.1.1.1 x.1.1.2 x.1.2 x.2 Hfresh d0 eq_refl) as (a & d1 & E1 & (Hg1 & Hr1 & Hm1) & Ht1).
    destruct (IH d1 d1 eq_refl) as (b & d2 & E2 & (Hg2 & Hr2 & Hm2) & Ht2). exists b, d2. split.
    { rewrite svc_bind_eq. change (tell x (undisturbed d0) = (a, undisturbed d1)) in E1. by rewrite E1. }
    split; [split; [by etransitivity|split; intros Hall]|].
    + rewrite Hr2; [apply Hr1, Hall; left|]. intros y Hy. eapply row_told_grows; [exact Hg1|]. apply Hall. by right.
    + rewrite Hm2; [apply Hm1, Hall; left|]. intros y Hy. eapply mail_told_grows; [exact Hg1|]. apply Hall. by right.
    + intros Hid y [->|Hy]%elem_of_cons.
      * destruct Ht1 as [H1 H2]; [apply Hid; left|]. by split; [eapply row_told_grows|eapply mail_told_grows].
      * apply Ht2; [|done]. intros z Hz. apply Hid. by right.
Qed.
End deliver.

(** ** What a message is told to whom *)

Section plan.
Context `{UuidText} (notify_default : Uuid -> Uuid -> NotifyLevel.t).
Context (keywords_in : Uuid -> option Uuid -> str -> list (Uuid * str)) (profile_name : Uuid -> Uuid -> option str).
Implicit Types (t : AppTables) (d : ApiDb) (o : Origin.t).

Lemma or_else_query {A} (x : A) (q : AppTables -> A) d : or_else x (query q) (undisturbed d) = (q (app d), undisturbed d).
Proof. unfold or_else. rewrite svc_bind_eq, query_quiet by done. done. Qed.

Definition sender_in o t : option str :=
  match Origin.workspace_id o, Origin.sender_id o ≫= uuid_parse with
  | Some ws, Some id => profile_name ws id
  | None, Some id => find_by_id id t ≫= User.display_name
  | _, None => None
  end.
Definition channel_in o t : option str :=
  match Origin.channel_uuid o with Some id => find_channel_by_id id t ≫= Channel.name | None => None end.
Definition names_in o t : Names.t := {| Names.sender := default ($"Somebody") (sender_in o t); Names.channel := default [] (channel_in o t) |}.
Lemma names_of_reads o d : names_of profile_name o (undisturbed d) = (names_in o (app d), undisturbed d).
Proof.
  unfold names_of, sender_name, channel_name, names_in, sender_in, channel_in.
  destruct (Origin.workspace_id o), (Origin.sender_id o ≫= uuid_parse), (Origin.channel_uuid o);
    by rewrite !svc_bind_eq, ?or_else_query; cbn [fst snd]; rewrite ?or_else_query.
Qed.
Definition keywords_of ch (author : option Uuid) (payload : json) : gmap Uuid str :=
  let content := addressed_text (default [] (get_str ($"content") payload)) (bool_decide (is_Some (pointer2 METADATA ($"forwarded_from") payload))) in
  match trim content with [] => ∅ | _ => foldl (fun m p => <[p.1 := p.2]> m) ∅ (keywords_in ch author content) end.
Lemma keyword_matches_reads ch author payload d :
  keyword_matches keywords_in ch author payload (undisturbed d) = (keywords_of ch author payload, undisturbed d).
Proof. unfold keyword_matches, keywords_of. destruct (trim _); [done|]. rewrite svc_bind_eq. by rewrite or_else_query. Qed.

(** Who wrote the message, when it is a person that is not to be told of it. *)
Definition author_of (payload : json) : option Uuid :=
  match pointer2 METADATA ($"bot") payload ≫= get ($"hook_id") with Some _ => None | None => get_str ($"user_id") payload ≫= uuid_parse end.
Definition followers_of (payload : json) t : gset Uuid :=
  match get_str ($"thread_parent_id") payload ≫= uuid_parse with
  | Some root => list_to_set (reply_recipients root (author_of payload) t)
  | None => ∅
  end.
Definition in_thread_only (payload : json) : bool :=
  bool_decide (is_Some (get_str ($"thread_parent_id") payload ≫= uuid_parse)) && negb (also_in_channel payload).
Definition reasons_in ch (payload : json) t : list (Uuid * Reason.t) :=
  reasons_of (recipients notify_default ch (author_of payload) t) (followers_of payload t) (list_to_set (mentioned_ids payload))
    (keywords_of ch (author_of payload) payload) (in_thread_only payload).
Definition plan (payload : json) t : list telling :=
  let o := origin_of payload (preview_text payload) in
  match Origin.channel_uuid o, Origin.sender_id o ≫= uuid_parse with
  | Some ch, Some _ =>
      let names := match pointer2 METADATA ($"bot") payload ≫= get_str ($"name") with
                   | Some name => Names.set_sender name (names_in o t)
                   | None => names_in o t
                   end in
      (fun p => (place_of_notice o p.2, names, p.1, notice names p.2 (keywords_of ch (author_of payload) payload !! p.1))) <$> reasons_in ch payload t
  | _, _ => []
  end.

Lemma plan_rest payload t : plan payload (rest t) = plan payload t.
Proof. destruct t as [? ? ? ? ? ? ? ? ? ? ? ? ? [] ? ? ? ?]. reflexivity. Qed.

Context (draw : ApiDb -> Uuid) (now : Z) (mention_emails : Uuid -> Uuid -> bool) (paused_until : Uuid -> Uuid -> Z -> option Z).
Context (activity : Uuid -> list Z) (configured : bool) (push_answer : str -> option Z).
#[local] Abbreviation tell_one := (tell draw now mention_emails paused_until activity configured push_answer).
#[local] Abbreviation handle := (notify_message draw now notify_default mention_emails paused_until keywords_in profile_name activity configured push_answer).

Lemma notify_message_plan payload d : (handle payload (undisturbed d)).2 = (svc_each (plan payload (app d)) tell_one (undisturbed d)).2.
Proof.
  unfold notify_message, plan. set (o := origin_of payload (preview_text payload)).
  destruct (Origin.channel_uuid o) as [ch|]; [|done]. destruct (Origin.sender_id o ≫= uuid_parse) as [sender|] eqn:Es; [|done].
  rewrite svc_bind_eq, query_quiet by done. cbn [fst snd shared undisturbed]. rewrite svc_each_fmap.
  assert (Ea : match pointer2 METADATA ($"bot") payload ≫= get ($"hook_id") with Some _ => None | None => Some sender end = author_of payload).
  { unfold author_of. destruct (_ ≫= get _); [done|]. done. }
  rewrite Ea. rewrite svc_bind_eq.
  assert (Ef : (match Origin.thread_parent_id o ≫= uuid_parse with
     | Some root => l ← or_else [] (query (reply_recipients root (author_of payload))); mret (list_to_set l)
     | None => mret ∅ end : Svc ApiDb (gset Uuid)) (undisturbed d) = (followers_of payload (app d), undisturbed d)).
  { unfold followers_of. change (Origin.thread_parent_id o) with (get_str ($"thread_parent_id") payload).
    destruct (get_str ($"thread_parent_id") payload ≫= uuid_parse); [|done]. by rewrite svc_bind_eq, or_else_query. }
  rewrite Ef. cbn [fst snd]. rewrite svc_bind_eq, keyword_matches_reads. cbn [fst snd].
  change (bool_decide (is_Some (Origin.thread_parent_id o ≫= uuid_parse)) && negb (Origin.in_channel o)) with (in_thread_only payload).
  change (reasons_of _ _ _ _ _) with (reasons_in ch payload (app d)).
  destruct (reasons_in ch payload (app d)) as [|r rs] eqn:Er; [done|]. by rewrite svc_bind_eq, names_of_reads.
Qed.
End plan.

Section redelivery.
Context `{UuidText} (draw : ApiDb -> Uuid) (notify_default : Uuid -> Uuid -> NotifyLevel.t).
Context (mention_emails : Uuid -> Uuid -> bool) (paused_until : Uuid -> Uuid -> Z -> option Z).
Context (keywords_in : Uuid -> option Uuid -> str -> list (Uuid * str)) (profile_name : Uuid -> Uuid -> option str).
Implicit Types (t : AppTables) (d : ApiDb) (o : Origin.t) (payload : json).

Lemma notice_data_message o s : Origin.message_id o = Some s -> Origin.list_item o = None -> text_at ($"message_id") (notice_data o) = Some s.
Proof. intros Hm Hl. unfold notice_data, with_list_item, text_at. rewrite Hm, Hl. destruct (Origin.in_channel o); reflexivity. Qed.

Lemma reason_is_reply r s : reason_for r s = Some Reason.Reply -> Signals.following s = true.
Proof. unfold reason_for. repeat case_match; congruence. Qed.
Lemma elem_of_reasons members followers mentioned keywords in_thread u reason :
  (u, reason) ∈ reasons_of members followers mentioned keywords in_thread <->
  exists r, r ∈ members ++ outsiders members followers /\ Recipient.user_id r = u /\
    reason_for r {| Signals.mentioned := bool_decide (u ∈ mentioned); Signals.following := bool_decide (u ∈ followers);
                    Signals.keyword := bool_decide (is_Some (keywords !! u)); Signals.in_thread := in_thread |} = Some reason.
Proof.
  unfold reasons_of. rewrite list_elem_of_omap. split.
  - intros (r & Hr & (x & Ex & E)%fmap_Some). injection E as -> ->. by exists r.
  - intros (r & Hr & <- & E). exists r. split; [done|]. by rewrite E.
Qed.

Lemma plan_identified payload t x : is_Some (get_uuid ($"id") payload) ->
  x ∈ plan notify_default keywords_in profile_name payload t -> identified 0 x.1.1.1 x.2.
Proof.
  intros [mid Hid]. unfold plan. set (o := origin_of payload (preview_text payload)).
  destruct (Origin.channel_uuid o) as [ch|]; [|by intros ?%not_elem_of_nil]. destruct (_ ≫= uuid_parse); [|by intros ?%not_elem_of_nil].
  intros ([u reason] & -> & Hin)%list_elem_of_fmap. cbn [fst snd].
  assert (Hm : exists s, Origin.message_id (place_of_notice o reason) = Some s).
  { unfold place_of_notice. case_bool_decide as Hr.
    - subst. unfold reasons_in in Hin. apply elem_of_reasons in Hin as (r & _ & _ & Hr%reason_is_reply). cbn in Hr. apply bool_decide_eq_true in Hr.
      unfold followers_of in Hr. cbn. destruct (get_str ($"thread_parent_id") payload); [by eexists|]. cbn in Hr. set_solver.
    - cbn. unfold get_uuid, get_str in *. destruct (get ($"id") payload ≫= as_str); [by eexists|done]. }
  destruct Hm as [s Hm]. split.
  - intros u' row. unfold activity_row. destruct (Origin.workspace_id _) as [ws|]; [|done]. cbn.
    destruct (Notice.activity _) as [kind|]; [|done]. cbn. intros [= <-]. eapply duplicates_refl. cbn.
    apply notice_data_message; [done|]. unfold place_of_notice. by case_bool_decide.
  - intros He. unfold place_of_notice. rewrite bool_decide_eq_false_2 by (intros ->; by cbn in He). cbn. unfold get_uuid, get_str in *. by rewrite Hid.
Qed.

Lemma identified_now now now' o n : identified now o n -> identified now' o n.
Proof.
  intros [H1 H2]. split; [|done]. intros u row. unfold activity_row in *. specialize (H1 u).
  destruct (Origin.workspace_id o) as [ws|]; [|done]. cbn in *. destruct (Notice.activity n) as [kind|]; [|done]. cbn in *.
  specialize (H1 _ eq_refl). by intros [= <-].
Qed.
(** The rows there were are there, whatever became of them, and nothing they
    refer to has come into being; and so for the mails that wait. *)
Definition rows_stay d d' : Prop :=
  (forall row, notified row (message_tables (app d)) = true -> notified row (message_tables (app d')) = true) /\
  (forall ws u, references_exist ws u (app d') = true -> references_exist ws u (app d) = true).
Definition mails_stay d d' : Prop :=
  (forall p, queued p (Waiting d) = true -> queued p (Waiting d') = true) /\
  (forall p, mail_refers p (app d') = true -> mail_refers p (app d) = true).

Lemma told_row_later now now' (x : telling) d d' : rows_stay d d' -> told_row now x d -> told_row now' x d'.
Proof.
  destruct x as [[[o names] u] n]. unfold told_row, row_told, activity_row. cbn [fst snd]. intros [Hn Hr] H1 row. revert H1.
  destruct (Origin.workspace_id o) as [ws|]; [cbn|done]. destruct (Notice.activity n) as [kind|]; [cbn|done]. intros H1 [= <-].
  apply (duplicates_settled (notification_row now u ws kind (Notice.title n) (Some (Origin.content o)) (notice_data o))); [done..|].
  destruct (H1 _ eq_refl) as [H2|H2]; [left; by apply Hn|right]. destruct (references_exist _ _ (app d')) eqn:E; [|done].
  apply Hr in E. congruence.
Qed.
Lemma told_mail_later now now' emails emails' paused paused' (x : telling) d d' : mails_stay d d' ->
  (forall ws u, emails' ws u = true -> paused' ws u now' = None -> emails ws u = true /\ paused ws u now = None) ->
  told_mail now emails paused x d -> told_mail now' emails' paused' x d'.
Proof.
  destruct x as [[[o names] u] n]. unfold told_mail, mail_told, waiting_mail. cbn [fst snd]. intros [Hq Hr] Hon H1 p. revert H1.
  destruct (Origin.workspace_id o) as [ws|]; [cbn|done]. destruct (Notice.email n); [cbn [andb]|done]. intros H1.
  destruct (decide (paused' ws u now' = None)) as [Ep|Ep]; [rewrite (bool_decide_eq_true_2 _ Ep)|by rewrite (bool_decide_eq_false_2 _ Ep)].
  intros [= <-]. unfold mail_settled. cbn. destruct (emails' ws u) eqn:Ee; [|by left].
  destruct (Hon ws u Ee Ep) as [Ee1 Ep1]. rewrite bool_decide_eq_true_2 in H1 by done. right. destruct (H1 _ eq_refl) as [H2|[H2|H2]].
  - cbn in H2. congruence.
  - left. apply (Hq _ H2).
  - right. destruct (mail_refers _ (app d')) eqn:E; [|done]. apply Hr in E. change (mail_refers (pending_mention now u ws o names n) (app d) = true) in E. congruence.
Qed.

(** C40: A message that is handed to a worker a second time leaves no second
    row, and no second mail.  Whenever the second run is, whether the people
    look at the application by then or not, and whatever was read, added or
    sent meanwhile: if the same people are to be told the same things, and the
    rows of the first run are there, read or not, no row is added, whoever
    paused or resumed; and if moreover the mails of the first run still wait
    and nobody gets mails who got none before, for a pause or by choice, no
    mail is queued.  Each run is alone. *)
Theorem a_redelivered_message_adds_nothing now activity configured push_answer payload d :
  (forall d, Rows d !! draw d = None) -> is_Some (get_uuid ($"id") payload) ->
  let d1 := shared (notify_message draw now notify_default mention_emails paused_until keywords_in profile_name activity configured push_answer
              payload (undisturbed d)).2 in
  Rows d ⊆ Rows d1 /\
  forall now' notify_default' mention_emails' paused_until' keywords_in' profile_name' activity' configured' push_answer' d',
    plan notify_default' keywords_in' profile_name' payload (app d') = plan notify_default keywords_in profile_name payload (app d1) ->
    rows_stay d1 d' ->
    let d2 := shared (notify_message draw now' notify_default' mention_emails' paused_until' keywords_in' profile_name' activity' configured' push_answer'
                payload (undisturbed d')).2 in
    Rows d2 = Rows d' /\
    (mails_stay d1 d' ->
     (forall ws u, mention_emails' ws u = true -> paused_until' ws u now' = None -> mention_emails ws u = true /\ paused_until ws u now = None) ->
     Waiting d2 = Waiting d').
Proof.
  intros Hfresh Hid. rewrite notify_message_plan. set (l := plan _ _ _ _ _).
  destruct (tell_all_alone draw now mention_emails paused_until activity configured push_answer d l Hfresh d eq_refl)
    as (a & d1 & E1 & (Hg & _ & _) & Ht). rewrite E1. cbn [snd shared undisturbed]. split; [apply Hg|].
  intros now' nd' me' pu' kw' pn' activity' configured' push_answer' d' Hplan Hstay. rewrite notify_message_plan.
  assert (Hl : plan nd' kw' pn' payload (app d') = l).
  { rewrite Hplan, <-plan_rest, (proj1 Hg), plan_rest. done. }
  rewrite Hl. destruct (tell_all_alone draw now' me' pu' activity' configured' push_answer' d' l Hfresh d' eq_refl)
    as (b & d3 & E3 & (_ & Hr & Hm) & _). rewrite E3. cbn [snd shared undisturbed].
  assert (Htold : forall x, x ∈ l -> told_row now x d1 /\ told_mail now mention_emails paused_until x d1).
  { intros x Hx. apply Ht; [|done]. intros y Hy. eapply identified_now, plan_identified; done. }
  split.
  - apply Hr. intros x Hx. eapply told_row_later; [exact Hstay|by apply Htold].
  - intros Hmails Hon. apply Hm. intros x Hx. eapply told_mail_later; [exact Hmails|exact Hon|by apply Htold].
Qed.

(** *** Whom it is for *)

Lemma NoDup_omap_inj {A B C} (f : A -> option B) (g : B -> C) (l : list A) : NoDup l ->
  (forall x y a b, x ∈ l -> y ∈ l -> f x = Some a -> f y = Some b -> g a = g b -> x = y) -> NoDup (g <$> omap f l).
Proof.
  induction l as [|x l IH]; intros Hnd Hinj; [constructor|]. apply NoDup_cons in Hnd as [Hx Hnd].
  assert (IH' : NoDup (g <$> omap f l)) by (apply IH; [done|]; intros y z a b Hy Hz; apply Hinj; by right). cbn.
  destruct (f x) as [b|] eqn:Ef; [|done]. cbn. apply NoDup_cons. split; [|done]. intros (c & E & Hc)%list_elem_of_fmap.
  apply list_elem_of_omap in Hc as (y & Hy & Hc). apply Hx. by rewrite (Hinj x y b c); [|left|right|..].
Qed.
Lemma elem_of_recipients ch author t r : r ∈ recipients notify_default ch author t <->
  exists c u m, channels t !! ch = Some c /\ channel_members t !! (ch, u) = Some m /\ recipient_of notify_default ch c author t ((ch, u), m) = Some r.
Proof.
  unfold recipients. destruct (channels t !! ch) as [c|]; [|split; [by intros ?%not_elem_of_nil|by intros (? & ? & ? & ? & _)]].
  rewrite list_elem_of_omap. split.
  - intros ([[ch' u] m] & Hm%elem_of_map_to_list & E). exists c, u, m. pose proof E as E'. unfold recipient_of in E'. cbn in E'.
    destruct (decide (ch' = ch)) as [->|Hne]; [done|]. by rewrite bool_decide_eq_false_2 in E' by done.
  - intros (c' & u & m & [= <-] & Hm & E). exists ((ch, u), m). by rewrite elem_of_map_to_list.
Qed.
Lemma recipient_of_user ch c author t p r : recipient_of notify_default ch c author t p = Some r ->
  Recipient.user_id r = p.1.2 /\ p.1.1 = ch /\ Some p.1.2 <> author.
Proof.
  unfold recipient_of. destruct (bool_decide (p.1.1 = ch) && _ && _) eqn:E; [|done]. intros [= <-]. bool_hyps. done.
Qed.
Lemma recipients_NoDup ch author t : NoDup (Recipient.user_id <$> recipients notify_default ch author t).
Proof.
  unfold recipients. destruct (channels t !! ch) as [c|]; [|constructor]. apply NoDup_omap_inj; [apply NoDup_map_to_list|].
  intros [[c1 u1] m1] [[c2 u2] m2] a b H1%elem_of_map_to_list H2%elem_of_map_to_list (E1 & E2 & _)%recipient_of_user (E3 & E4 & _)%recipient_of_user E.
  cbn in *. assert (u1 = u2) by congruence. subst. by assert (m1 = m2) as -> by congruence; rewrite E.
Qed.
Lemma outsiders_users members followers : Recipient.user_id <$> outsiders members followers = filter (fun u => u ∉ Recipient.user_id <$> members) (elements followers).
Proof. unfold outsiders. rewrite <-list_fmap_compose. apply list_fmap_id. Qed.
Lemma told_NoDup members followers : NoDup (Recipient.user_id <$> members) -> NoDup (Recipient.user_id <$> members ++ outsiders members followers).
Proof.
  intros Hm. rewrite fmap_app, outsiders_users. apply NoDup_app. split_and!; [done| |apply NoDup_filter, NoDup_elements].
  intros u Hu [Hn _]%list_elem_of_filter. done.
Qed.
Lemma reasons_NoDup members followers mentioned keywords in_thread : NoDup (Recipient.user_id <$> members) ->
  NoDup (reasons_of members followers mentioned keywords in_thread).*1.
Proof.
  intros Hm. pose proof (told_NoDup members followers Hm) as Hnd. unfold reasons_of. apply NoDup_omap_inj; [by eapply NoDup_fmap_1|].
  intros x y a b Hx Hy (? & _ & ->)%fmap_Some (? & _ & ->)%fmap_Some E. cbn in E.
  apply list_elem_of_lookup in Hx as [i Hi], Hy as [j Hj].
  assert (i = j) as <-; [|congruence].
  eapply (NoDup_lookup _ i j (Recipient.user_id x) Hnd); rewrite list_lookup_fmap; [by rewrite Hi|rewrite Hj; cbn; congruence].
Qed.

(** The table of reasons: the first row that applies. *)
Definition first_reason (silenced everything direct : bool) (s : Signals.t) : option Reason.t :=
  if silenced then None
  else snd <$> head (filter (fun row => row.1 = true)
    [(Signals.mentioned s, Reason.Mention); (Signals.following s, Reason.Reply); (everything && direct, Reason.Direct);
     (Signals.keyword s, Reason.Keyword); (everything, Reason.Message)]).
Lemma reason_for_first r s : reason_for r s =
  first_reason (Recipient.muted r || bool_decide (Recipient.level r = NotifyLevel.Nothing))
    (bool_decide (Recipient.level r = NotifyLevel.All) && negb (Signals.in_thread s)) (Recipient.direct r) s.
Proof.
  unfold reason_for, first_reason. destruct (_ || _); [done|]. destruct (Signals.mentioned s), (Signals.following s), (_ && negb _), (Recipient.direct r), (Signals.keyword s); reflexivity.
Qed.
(** What is known of a person when the message comes. *)
Definition signals_of ch payload t u : Signals.t :=
  {| Signals.mentioned := bool_decide (u ∈ (list_to_set (mentioned_ids payload) : gset Uuid)); Signals.following := bool_decide (u ∈ followers_of payload t);
     Signals.keyword := bool_decide (is_Some (keywords_of keywords_in ch (author_of payload) payload !! u)); Signals.in_thread := in_thread_only payload |}.

(** C39: Everybody is told of a message at most once and its author not at all.
    A member of the channel is told for the first reason that applies, in the
    order mention, reply, direct message, keyword, any message; not at all when
    the channel is muted or at the level of nothing; and of any message only at
    the level of all, where it is not kept in its thread. *)
Theorem people_are_told_once payload ch t : let l := reasons_in notify_default keywords_in ch payload t in
  NoDup l.*1 /\ (forall u reason, (u, reason) ∈ l -> author_of payload <> Some u) /\
  forall c u m, channels t !! ch = Some c -> channel_members t !! (ch, u) = Some m -> is_member (Channel.workspace_id c) u t = true ->
    author_of payload <> Some u ->
    let direct := bool_decide (Channel.channel_type c = Dm) || bool_decide (Channel.channel_type c = GroupDm) in
    let level := effective_level (Reading.notify_level (ChannelMember.reading m) ≫= NotifyLevel.of_str) (notify_default (Channel.workspace_id c) u) direct in
    forall reason, (u, reason) ∈ l <->
      first_reason (Reading.muted (ChannelMember.reading m) || bool_decide (level = NotifyLevel.Nothing))
        (bool_decide (level = NotifyLevel.All) && negb (in_thread_only payload)) direct (signals_of ch payload t u) = Some reason.
Proof.
  intros l. pose proof (recipients_NoDup ch (author_of payload) t) as Hnd. split_and!; [by apply reasons_NoDup|..].
  - intros u reason (r & Hr & <- & _)%elem_of_reasons. apply elem_of_app in Hr as [Hr|Hr].
    + apply elem_of_recipients in Hr as (c & u & m & _ & _ & (-> & _ & Hne)%recipient_of_user). cbn in *. congruence.
    + apply (list_elem_of_fmap_2 Recipient.user_id) in Hr. rewrite outsiders_users in Hr. apply list_elem_of_filter in Hr as [_ Hr%elem_of_elements].
      unfold followers_of in Hr. destruct (_ ≫= uuid_parse); [|set_solver]. apply elem_of_list_to_set, list_elem_of_omap in Hr as ([[u0 root0] f] & _ & E).
      destruct (_ && _) eqn:Eb; [|done]. injection E as <-. bool_hyps. cbn in *. congruence.
  - intros c u m Hc Hm Hin Hne direct level reason.
    set (r := {| Recipient.user_id := u; Recipient.level := level; Recipient.muted := Reading.muted (ChannelMember.reading m); Recipient.direct := direct |}).
    assert (Hr : r ∈ recipients notify_default ch (author_of payload) t).
    { apply elem_of_recipients. exists c, u, m. split_and!; [done..|]. unfold recipient_of. cbn. rewrite Hin, bool_decide_eq_true_2 by done.
      rewrite bool_decide_eq_false_2 by congruence. done. }
    unfold l, reasons_in. rewrite elem_of_reasons. change (first_reason _ _ _ _) with
      (first_reason (Recipient.muted r || bool_decide (Recipient.level r = NotifyLevel.Nothing))
        (bool_decide (Recipient.level r = NotifyLevel.All) && negb (Signals.in_thread (signals_of ch payload t u))) (Recipient.direct r) (signals_of ch payload t u)).
    rewrite <-reason_for_first. split; [|intros E; exists r; split_and!; [by apply elem_of_app; left|done..]].
    intros (r' & Hr' & Hu & E). assert (r' = r) as ->; [|done].
    pose proof (told_NoDup _ (followers_of payload t) Hnd) as Hall.
    apply list_elem_of_lookup in Hr' as [i Hi]. assert (Hr2 : r ∈ recipients notify_default ch (author_of payload) t ++
      outsiders (recipients notify_default ch (author_of payload) t) (followers_of payload t)) by (by apply elem_of_app; left).
    apply list_elem_of_lookup in Hr2 as [j Hj].
    assert (i = j) as <-; [|congruence].
    eapply (NoDup_lookup _ i j u Hall); rewrite list_lookup_fmap; [by rewrite Hi; cbn; rewrite Hu|by rewrite Hj].
Qed.

(** *** Replies to a thread *)

(** The row of a reply is about the root of its thread, and there is at
    most one of a kind about a message: once a follower has one, read or not,
    no later reply of the thread leaves another. *)
Theorem later_replies_leave_no_row now activity configured push_answer d o names u keyword id row s :
  (forall d, Rows d !! draw d = None) -> Origin.list_item o = None -> Origin.thread_parent_id o = Some s ->
  Rows d !! id = Some row -> Notification.user_id row = u -> Notification.notification_type row = $"reply" ->
  text_at ($"message_id") (Notification.data row) = Some s ->
  Rows (shared (deliver_notice draw now mention_emails paused_until activity configured push_answer
    (place_of_notice o Reason.Reply) names u (notice names Reason.Reply keyword) (undisturbed d)).2) = Rows d.
Proof.
  intros Hfresh Hl Hs Hrow Hu Hk Hm. unfold place_of_notice. rewrite bool_decide_eq_true_2 by done. rewrite Hs.
  set (o' := Origin.at_message (Some s) o). set (n := notice names Reason.Reply keyword).
  destruct (deliver_alone draw now mention_emails paused_until activity configured push_answer d o' names u n Hfresh d eq_refl)
    as (a & d' & E & (_ & Hst & _) & _). rewrite E. cbn [snd shared undisturbed]. apply Hst.
  unfold row_told, activity_row. destruct (Origin.workspace_id o') as [ws|]; [|done]. cbn. intros row' [= <-]. left. unfold notified.
    apply existsb_exists. exists row. split; [apply list_elem_of_In, list_elem_of_fmap; exists (id, row); by rewrite elem_of_map_to_list|].
    unfold duplicates, same_at. cbn [notification_row Notification.user_id Notification.notification_type Notification.data].
    rewrite (notice_data_message o' s), Hm, Hu, Hk by done. unfold str_eqb. by rewrite !bool_decide_eq_true_2 by done.
Qed.
End redelivery.

(** ** The digest of mails *)

Section digest.
Context `{UuidText} (draw : ApiDb -> Uuid) (now : Z) (paused_until : Uuid -> Uuid -> Z -> option Z) (public_url : str).
Context (distinct : list str -> list str).
Implicit Types (d : ApiDb) (p : PendingMention.t) (g : DueDigest.t) (t : AppTables).

Definition mine g p : bool := waited now p && of_person (DueDigest.user_id g) (DueDigest.workspace_id g) p.
Definition digest_mail g : OutboundEmail.t :=
  new_email now {| NewEmail.to_ := DueDigest.email g; NewEmail.subject := subject_for g; NewEmail.text := body_for public_url g; NewEmail.html := None |}.

Lemma waiting_set f d : Waiting (with_app (set_waiting f) d) = f (Waiting d).
Proof. unfold set_waiting. cbn. by autorewrite with notice. Qed.
Lemma emails_waiting f d : Emails (with_app (set_waiting f) d) = Emails d.
Proof. unfold set_waiting. cbn. rewrite notices_notices. by destruct (notice_tables _). Qed.
Lemma waiting_set_emails f d : Waiting (set_emails f d) = Waiting d.
Proof. unfold set_emails. cbn. by autorewrite with notice. Qed.

Lemma send_digest_alone g d : (forall d, Emails d !! draw d = None) -> exists r d',
  send_digest draw now public_url g (undisturbed d) = (r, undisturbed d') /\ Emails d ⊆ Emails d' /\
  Waiting d' = filter (fun p => mine g p = false) (Waiting d) /\
  (forall p, p ∈ Waiting d -> mine g p = true -> exists id, Emails d !! id = None /\ Emails d' !! id = Some (digest_mail g)).
Proof.
  intros Hfresh. unfold send_digest. rewrite transaction_quiet by done. cbn [shared undisturbed].
  unfold claim_digest, enqueue_email, drawn, read, run, tx_read, tx_query, mbind, Tx_bind, mret, Tx_ret. cbn -[filter set_waiting set_emails].
  change (fun p => waited now p && of_person (DueDigest.user_id g) (DueDigest.workspace_id g) p) with (mine g).
  change (filter (fun p => (waited now p && of_person (DueDigest.user_id g) (DueDigest.workspace_id g) p)%bool = true) (Waiting d))
    with (filter (fun p => mine g p = true) (Waiting d)).
  change (fun p => (waited now p && of_person (DueDigest.user_id g) (DueDigest.workspace_id g) p)%bool = false) with (fun p => mine g p = false).
  set (d1 := with_app (set_waiting (filter (fun p => mine g p = false))) d).
  destruct (Nat.eqb _ 0) eqn:E; cbn -[filter set_waiting set_emails].
  - exists (Ok false), d1. split; [done|]. unfold d1. rewrite waiting_set, emails_waiting. split_and!; [done..|].
    intros p Hp Hm. apply Nat.eqb_eq, length_zero_iff_nil in E. exfalso. apply (not_elem_of_nil p). rewrite <-E. by apply list_elem_of_filter.
  - change (with_app (set_waiting _) d) with d1. rewrite Hfresh, bool_decide_eq_false_2 by (by intros [? ?]). cbn -[filter set_waiting set_emails].
    exists (Ok true), (set_emails <[draw d1 := digest_mail g]> d1). split; [done|]. rewrite waiting_set_emails, emails_set.
    pose proof (Hfresh d1) as Hf. unfold d1 in *. rewrite waiting_set, emails_waiting in *. split_and!; [by apply insert_subseteq|done|].
    intros p _ _. eexists. split; [exact Hf|apply lookup_insert_eq].
Qed.
Lemma send_digests_alone (l : list DueDigest.t) d : (forall d, Emails d !! draw d = None) ->
  NoDup ((fun g => (DueDigest.user_id g, DueDigest.workspace_id g)) <$> l) -> exists r d',
  send_digests draw now public_url l (undisturbed d) = (r, undisturbed d') /\ Emails d ⊆ Emails d' /\
  (forall p, p ∈ Waiting d' <-> p ∈ Waiting d /\ forall g, g ∈ l -> mine g p = false) /\
  (forall g p, g ∈ l -> p ∈ Waiting d -> mine g p = true -> exists id, Emails d !! id = None /\ Emails d' !! id = Some (digest_mail g)).
Proof.
  intros Hfresh. revert d. induction l as [|g l IH]; intros d Hnd; cbn [send_digests].
  - exists O, d. split_and!; [done..| |by intros g p Hg%not_elem_of_nil]. intros p. split; [|tauto]. intros Hp. split; [done|]. by intros g Hg%not_elem_of_nil.
  - rewrite svc_bind_eq. destruct (send_digest_alone g d Hfresh) as (r & d1 & -> & He1 & Hw1 & Hm1). cbn [fst snd].
    rewrite fmap_cons in Hnd. apply NoDup_cons in Hnd as [Hg Hnd]. rewrite svc_bind_eq. destruct (IH d1 Hnd) as (n & d2 & -> & He2 & Hw2 & Hm2).
    eexists _, d2. split; [done|]. split_and!; [by etransitivity| |].
    + intros p. rewrite Hw2, Hw1, list_elem_of_filter. setoid_rewrite elem_of_cons. naive_solver.
    + intros g' p [->|Hg']%elem_of_cons Hp Hm.
      * destruct (Hm1 p Hp Hm) as (id & Hn & Hi). exists id. split; [done|]. by eapply lookup_weaken.
      * destruct (Hm2 g' p Hg') as (id & Hn & Hi); [rewrite Hw1; apply list_elem_of_filter; split; [|done]|done|].
        -- destruct (mine g p) eqn:Eg; [|done]. destruct Hg. apply list_elem_of_fmap. exists g'. split; [|done].
           unfold mine, of_person in *. bool_hyps. congruence.
        -- exists id. split; [|done]. eapply lookup_weaken_None; [done|]. exact He1.
Qed.

Lemma due_digests_keys t : NoDup ((fun g => (DueDigest.user_id g, DueDigest.workspace_id g)) <$> due_digests now paused_until distinct t).
Proof.
  unfold due_digests. apply NoDup_omap_inj; [apply NoDup_elements|]. intros [u ws] [u' ws'] a b _ _. unfold digest_for. cbn.
  destruct (users t !! u), (users t !! u'); cbn; try done. repeat case_match; try done. intros [= <-] [= <-]. by cbn.
Qed.

Lemma person_digest t p person : p ∈ pending_mention_emails (notice_tables t) -> waited now p = true ->
  users t !! PendingMention.user_id p = Some person -> User.is_bot person = false -> paused_until (PendingMention.workspace_id p) (PendingMention.user_id p) now = None ->
  exists g, g ∈ due_digests now paused_until distinct t /\ mine g p = true /\ DueDigest.email g = User.email person.
Proof.
  intros Hp Hw Hu Hb Hn. eexists. unfold due_digests. rewrite list_elem_of_omap. split.
  - exists (PendingMention.user_id p, PendingMention.workspace_id p). split.
    + unfold groups. apply elem_of_elements, elem_of_list_to_set, list_elem_of_fmap. exists p. split; [done|]. by apply list_elem_of_filter.
    + unfold digest_for. cbn. rewrite Hu. cbn. rewrite Hb, Hn, bool_decide_eq_false_2 by (by intros [? ?]). done.
  - split; [|done]. unfold mine, of_person. cbn. by rewrite Hw, !bool_decide_eq_true_2 by done.
Qed.
Lemma due_digest_person t g p : g ∈ due_digests now paused_until distinct t -> mine g p = true ->
  waited now p = true /\ paused_until (PendingMention.workspace_id p) (PendingMention.user_id p) now = None /\
  exists person, users t !! PendingMention.user_id p = Some person /\ User.is_bot person = false.
Proof.
  unfold due_digests. intros ([u ws] & _ & E)%list_elem_of_omap Hm. unfold digest_for in E. cbn in E.
  destruct (users t !! u) as [person|] eqn:Hu; [cbn in E|done]. destruct (User.is_bot person || _) eqn:Eb; [done|]. injection E as <-.
  unfold mine, of_person in Hm. cbn in Hm. bool_hyps. subst. split_and!; [done|by apply eq_None_not_Some|by exists person].
Qed.

(** A pass of the digest, when nothing else runs: a mention or a direct
    message that waited five minutes and is still unread leaves the queue with
    a mail to the person's address written in the same transaction, unless the
    person is a bot or has notifications paused, and then it stays; one that
    was read leaves it; one that did not wait that long stays. *)
Theorem unread_mentions_are_mailed d p : (forall d, Emails d !! draw d = None) -> p ∈ Waiting d ->
  let d' := shared (flush_digests draw now paused_until public_url distinct (undisturbed d)).2 in
  (p ∈ Waiting d' <->
     waited now p = false \/
     still_unread (message_tables (app d)) p = true /\
       (is_Some (paused_until (PendingMention.workspace_id p) (PendingMention.user_id p) now) \/
        forall person, users (app d) !! PendingMention.user_id p = Some person -> User.is_bot person = true)) /\
  (p ∉ Waiting d' -> still_unread (message_tables (app d)) p = true -> exists person id e,
     users (app d) !! PendingMention.user_id p = Some person /\ Emails d !! id = None /\ Emails d' !! id = Some e /\
     OutboundEmail.to_address e = User.email person /\ OutboundEmail.sent_at e = None).
Proof.
  intros Hfresh Hp. unfold flush_digests, svc_ignore. rewrite !svc_bind_eq, change_quiet by done. cbn [fst snd shared].
  set (d1 := with_app (drop_read now) (shared (undisturbed d))).
  assert (Hw1 : forall q, q ∈ Waiting d1 <-> q ∈ Waiting d /\ (waited now q && negb (still_unread (message_tables (app d)) q)) = false).
  { intros q. unfold d1, drop_read. cbn [shared undisturbed]. change (with_app (fun t => set_waiting ?f t) d) with (with_app (set_waiting f) d).
    unfold set_waiting. cbn -[filter]. autorewrite with notice. rewrite list_elem_of_filter. tauto. }
  assert (He1 : Emails d1 = Emails d) by (unfold d1, drop_read, set_waiting; cbn -[filter]; rewrite notices_notices; by destruct (notice_tables _)).
  assert (Hu1 : users (app d1) = users (app d)) by (unfold d1, drop_read, set_waiting; cbn -[filter]; by destruct (app d)).
  change {| shared := d1; agenda := [] |} with (undisturbed d1). rewrite query_quiet by done. cbn [fst snd shared undisturbed].
  change {| shared := d1; agenda := [] |} with (undisturbed d1).
  change ((mret tt : Svc ApiDb unit) (undisturbed d1)).2 with (undisturbed d1). change (shared (undisturbed d1)) with d1.   destruct (send_digests_alone (due_digests now paused_until distinct (app d1)) d1 Hfresh (due_digests_keys _)) as (n & d2 & -> & _ & Hw2 & Hm2).
  cbn [snd shared undisturbed]. assert (Hstays : forall g, g ∈ due_digests now paused_until distinct (app d1) -> mine g p = true ->
      waited now p = true /\ paused_until (PendingMention.workspace_id p) (PendingMention.user_id p) now = None /\
      exists person, users (app d) !! PendingMention.user_id p = Some person /\ User.is_bot person = false).
  { intros g Hg Hm. rewrite <-Hu1. by eapply due_digest_person. }
  assert (Hall : p ∈ Waiting d2 <-> waited now p = false \/ still_unread (message_tables (app d)) p = true /\
       (is_Some (paused_until (PendingMention.workspace_id p) (PendingMention.user_id p) now) \/
        forall person, users (app d) !! PendingMention.user_id p = Some person -> User.is_bot person = true)).
  { rewrite Hw2, Hw1. destruct (waited now p) eqn:Ew; cbn; [|split; [by left|]; intros _; split; [done|]; intros g Hg; by destruct (mine g p) eqn:Em; [apply Hstays in Em as [? _]|]].
    destruct (still_unread _ p) eqn:Es; cbn; [|split; [intros [[_ ?] _]; done|intros [?|[? _]]; done]].
    split.
    - intros [_ Hno]. right. split; [done|]. destruct (paused_until _ _) eqn:Epu; [left; by eexists|right]. intros person Hper.
      destruct (User.is_bot person) eqn:Eb; [done|]. destruct (person_digest (app d1) p person) as (g & Hg & Hm & _); [|done|by rewrite Hu1|done..|].
      { apply Hw1. by rewrite Ew, Es. } by rewrite (Hno g Hg) in Hm.
    - intros [?|[_ Hor]]; [done|]. split; [done|]. intros g Hg. destruct (mine g p) eqn:Em; [|done].
      destruct (Hstays g Hg Em) as (_ & Hn & person & Hper & Hb). destruct Hor as [[? ?]|Hbot]; [congruence|]. by rewrite (Hbot _ Hper) in Hb. }
  split; [exact Hall|]. intros Hgone Hs. destruct (waited now p) eqn:Ew; [|by destruct Hgone; apply Hall; left].
  assert (Hp1 : p ∈ Waiting d1) by (apply Hw1; by rewrite Ew, Hs).
  destruct (paused_until (PendingMention.workspace_id p) (PendingMention.user_id p) now) eqn:Epu; [destruct Hgone; apply Hall; right; split; [done|]; left; by eexists|].
  destruct (users (app d) !! PendingMention.user_id p) as [person|] eqn:Hper; [|destruct Hgone; apply Hall; right; split; [done|]; right; by intros ? [=]].
  destruct (User.is_bot person) eqn:Eb; [destruct Hgone; apply Hall; right; split; [done|]; right; by intros ? [= <-]|].
  destruct (person_digest (app d1) p person) as (g & Hg & Hm & Hmail); [done|done|by rewrite Hu1|done..|].
  destruct (Hm2 g p Hg Hp1 Hm) as (id & Hn & Hi). exists person, id, (digest_mail g). rewrite <-He1. by split_and!.
Qed.
End digest.

(** ** On sample tables *)

(** An identifier no row of a table has. *)
Definition next_id {A} (m : gmap Uuid A) : Uuid := N.succ (foldr N.max 0%N (map_to_list m).*1).
Lemma next_id_fresh {A} (m : gmap Uuid A) : m !! next_id m = None.
Proof.
  destruct (m !! next_id m) as [x|] eqn:E; [|done]. apply elem_of_map_to_list in E. apply (list_elem_of_fmap_2 fst) in E. cbn in E.
  assert (Hall : forall l k, k ∈ l -> (k <= foldr N.max 0%N l)%N).
  { induction l as [|y l IH]; intros k; [by intros ?%not_elem_of_nil|]. cbn. intros [->|Hk]%elem_of_cons; [lia|]. apply IH in Hk. lia. }
  apply Hall in E. unfold next_id in E. lia.
Qed.

Module SampleNotices.
#[export] Existing Instances SampleMentions.unary.
Definition seat (u : Uuid) : ChannelMember.t := Authz.SampleTables.membership 30%N u ChannelRole.Member.
Definition tables : AppTables := set_channel_members (fun _ => <[(30%N, 1%N) := seat 1]> (<[(30%N, 2%N) := seat 2]> {[(30%N, 3%N) := seat 3]})) Authz.SampleTables.tables.
Definition db : ApiDb := with_app (fun _ => tables) Authz.SampleTables.db.
Definition draw (d : ApiDb) : Uuid := next_id (Rows d).
Definition draw_mail (d : ApiDb) : Uuid := next_id (Emails d).
Definition default_level (_ u : Uuid) : NotifyLevel.t := if bool_decide (u = 3%N) then NotifyLevel.All else NotifyLevel.Mentions.
Definition wants (_ _ : Uuid) : bool := true.
Definition unpaused (_ _ : Uuid) (_ : Z) : option Z := None.
Definition no_keywords (_ : Uuid) (_ : option Uuid) (_ : str) : list (Uuid * str) := [].
Definition nameless (_ _ : Uuid) : option str := None.
Definition away (_ : Uuid) : list Z := [].
Definition no_push (_ : str) : option Z := None.
Definition id_text (u : Uuid) : json := JString (uuid_to_string u).
(** The first person mentions the second in the channel. *)
Definition payload : json := JObject [($"id", id_text 60); ($"channel_id", id_text 30); ($"workspace_id", id_text 20); ($"user_id", id_text 1);
  ($"content", JString ($"hello")); ($"mentioned_user_ids", JArray [id_text 2])].
Definition told_once : ApiDb :=
  shared (notify_message draw 100 default_level wants unpaused no_keywords nameless away false no_push payload (undisturbed db)).2.
Definition reply : Notification.t :=
  {| Notification.user_id := 2%N; Notification.workspace_id := 20%N; Notification.notification_type := $"reply"; Notification.title := [];
     Notification.body := None; Notification.data := JObject [($"message_id", id_text 60)]; Notification.is_read := true; Notification.created_at := 0 |}.
Definition replied : ApiDb := with_app (set_message_tables (set_notifications (fun _ => {[9%N := reply]}))) db.
Definition place : Origin.t :=
  {| Origin.workspace_id := Some 20%N; Origin.channel_id := Some (uuid_to_string 30%N); Origin.channel_uuid := Some 30%N;
     Origin.message_id := Some (uuid_to_string 61%N); Origin.thread_parent_id := Some (uuid_to_string 60%N); Origin.in_channel := false;
     Origin.sender_id := Some (uuid_to_string 1%N); Origin.content := $"again"; Origin.list_item := None |}.
Definition names : Names.t := {| Names.sender := $"Ana"; Names.channel := $"c" |}.
Definition queued_mention : PendingMention.t := hd {| PendingMention.user_id := 0%N; PendingMention.workspace_id := 0%N; PendingMention.channel_id := None;
  PendingMention.message_id := None; PendingMention.sender_name := []; PendingMention.channel_name := []; PendingMention.direct := false;
  PendingMention.created_at := 0 |} (Waiting told_once).
Definition in_order (l : list str) : list str := l.
End SampleNotices.
Import SampleNotices.

(** Everybody reads what they were told. *)
Definition read_all (d : ApiDb) : ApiDb := with_app (set_message_tables (set_notifications (fmap Notification.set_read))) d.
Lemma read_all_stays d : rows_stay d (read_all d) /\ mails_stay d (read_all d).
Proof.
  assert (Hr : forall ws u, references_exist ws u (app (read_all d)) = references_exist ws u (app d)).
  { intros ws u. rewrite <- references_rest. unfold read_all. cbn. by rewrite rest_rows, references_rest. }
  split; split.
  - intros row. unfold notified, read_all. cbn. autorewrite with notice. rewrite map_to_list_fmap, !existsb_exists. intros (x & Hx & E).
    exists (Notification.set_read x). split; [|exact E]. apply list_elem_of_In, list_elem_of_fmap in Hx as ([id y] & -> & Hy).
    apply list_elem_of_In, list_elem_of_fmap. exists (id, Notification.set_read y). split; [done|]. apply list_elem_of_fmap. by exists (id, y).
  - intros ws u. by rewrite Hr.
  - intros p. unfold read_all. cbn. by autorewrite with notice.
  - intros p. rewrite <- (mail_refers_rest p (app (read_all d))). unfold read_all. cbn. by rewrite rest_rows, mail_refers_rest.
Qed.

Lemma a_redelivered_message_adds_nothing_witness :
  size (Rows told_once) = 1%nat /\ length (Waiting told_once) = 1%nat /\
  let d2 := shared (notify_message draw 200 default_level wants unpaused no_keywords nameless away true no_push payload (undisturbed (read_all told_once))).2 in
  Rows d2 = Rows (read_all told_once) /\ Waiting d2 = Waiting (read_all told_once).
Proof.
  split; [vm_compute; reflexivity|]. split; [vm_compute; reflexivity|]. destruct (read_all_stays told_once) as [Hr Hm].
  assert (Hplan : plan default_level no_keywords nameless payload (app (read_all told_once)) = plan default_level no_keywords nameless payload (app told_once)).
  { unfold read_all. cbn. by rewrite <- (plan_rest _ _ _ _ (set_message_tables _ _)), rest_rows, plan_rest. }
  destruct (proj2 (a_redelivered_message_adds_nothing draw default_level wants unpaused no_keywords nameless 100 away false no_push payload db
    (fun d => next_id_fresh (Rows d)) (ltac:(by eexists)))
    200 default_level wants unpaused no_keywords nameless away true no_push (read_all told_once) Hplan Hr) as [H1 H2].
  split; [exact H1|]. apply H2; [exact Hm|done].
Defined.

(** A message that is handed over a second time after a pause has ended is
    mailed to whom the pause spared. *)
Definition paused_at_first (_ _ : Uuid) (at_ : Z) : option Z := if at_ <? 150 then Some 150 else None.
Theorem an_ended_pause_mails_a_redelivered_message :
  let run now d := shared (notify_message draw now default_level wants paused_at_first no_keywords nameless away false no_push payload (undisturbed d)).2 in
  size (Rows (run 100 db)) = 1%nat /\ Waiting (run 100 db) = [] /\
  size (Rows (run 200 (run 100 db))) = 1%nat /\ PendingMention.user_id <$> Waiting (run 200 (run 100 db)) = [2%N].
Proof. vm_compute. done. Qed.
(** And after the digest was sent it waits to be mailed again. *)
Theorem a_digest_lets_a_redelivery_mail_again :
  let mailed := shared (flush_digests draw_mail (DIGEST_WINDOW + 100) unpaused [] in_order (undisturbed told_once)).2 in
  let again := shared (notify_message draw (DIGEST_WINDOW + 200) default_level wants unpaused no_keywords nameless away false no_push payload (undisturbed mailed)).2 in
  size (Emails mailed) = 1%nat /\ Waiting mailed = [] /\ PendingMention.message_id <$> Waiting again = [Some 60%N] /\ size (Rows again) = 1%nat.
Proof. vm_compute. done. Qed.
Lemma people_are_told_once_witness :
  reasons_in default_level no_keywords 30%N payload tables = [(2%N, Reason.Mention); (3%N, Reason.Message)] /\
  NoDup (reasons_in default_level no_keywords 30%N payload tables).*1.
Proof. split; [vm_compute; reflexivity|]. apply (people_are_told_once default_level no_keywords payload 30%N tables). Defined.
Lemma later_replies_leave_no_row_witness :
  Rows (shared (deliver_notice draw 100 wants unpaused away false no_push (place_of_notice place Reason.Reply) names 2%N
    (notice names Reason.Reply None) (undisturbed replied)).2) = {[9%N := reply]}.
Proof.
  exact (later_replies_leave_no_row draw wants unpaused 100 away false no_push replied place names 2%N None 9%N reply (uuid_to_string 60%N)
    (fun d => next_id_fresh (Rows d)) eq_refl eq_refl eq_refl eq_refl eq_refl eq_refl).
Defined.
Lemma unread_mentions_are_mailed_witness :
  let d' := shared (flush_digests draw_mail (DIGEST_WINDOW + 100) unpaused [] in_order (undisturbed told_once)).2 in
  queued_mention ∉ Waiting d' /\ exists id e, Emails d' !! id = Some e /\ OutboundEmail.to_address e = $"a@b.c".
Proof.
  assert (Hw : queued_mention ∈ Waiting told_once) by (vm_compute; apply list_elem_of_here).
  destruct (unread_mentions_are_mailed draw_mail (DIGEST_WINDOW + 100) unpaused [] in_order told_once queued_mention (fun d => next_id_fresh (Emails d)) Hw) as [H1 H2].
  assert (Hgone : queued_mention ∉ Waiting (shared (flush_digests draw_mail (DIGEST_WINDOW + 100) unpaused [] in_order (undisturbed told_once)).2)).
  { rewrite H1. intros [E|[_ [[x E]|E]]]; [by vm_compute in E|discriminate|]. by specialize (E _ eq_refl). }
  split; [exact Hgone|]. destruct (H2 Hgone) as (person & id & e & Hp & _ & He & Ha & _); [vm_compute; reflexivity|].
  exists id, e. split; [exact He|]. rewrite Ha. vm_compute in Hp. by injection Hp as <-.
Defined.

(** *** What the code does not promise *)

(** The row of a list event says no message, so nothing makes it unique. *)
Definition assigned_event : Event :=
  {| Frames.event_id := 70%N; Frames.event_type := $"list.assigned"; Frames.timestamp := 0; Frames.stream_id := None;
     Frames.payload := JObject [($"list_id", id_text 40); ($"item_id", id_text 41); ($"channel_id", id_text 30); ($"workspace_id", id_text 20); ($"actor_id", id_text 1);
                         ($"assignee_ids", JArray [id_text 2])] |}.
Lemma a_redelivered_list_event_repeats :
  let once d := shared (notify_list draw 100 wants unpaused nameless away false no_push assigned_event (undisturbed d)).2 in
  size (Rows (once db)) = 1%nat /\ size (Rows (once (once db))) = 2%nat.
Proof. vm_compute. split; reflexivity. Qed.

(** What a browser subscribed with is trimmed; what it unsubscribes with is
    not. *)
Lemma unsubscribing_misses_blanks :
  let endpoint := $"https://push " in
  let w := (subscribe_push draw 100 (Authz.SampleTables.caller 2%N)
    {| SubscribeRequest.endpoint := endpoint; SubscribeRequest.p256dh := $"k"; SubscribeRequest.auth := $"a"; SubscribeRequest.user_agent := None |} (undisturbed db)).2 in
  let '(r, w') := unsubscribe_push (Authz.SampleTables.caller 2%N) endpoint w in
  r = Ok tt /\ size (push_subscriptions (notice_tables (app (shared w')))) = 1%nat.
Proof. vm_compute. split; reflexivity. Qed.
