(* ===== verification/Scheduled.v ===== *)
(** * Scheduled messages
    ([backend/api/src/scheduled/{models,repo,routes,executor}.rs])

    A message that is to be sent later is a row; a dispatcher claims the rows
    that are due and sends each as its author, who is told when it cannot be
    sent.  The author may change the time, cancel, or send at once. *)

From stdpp Require Import base tactics option numbers list gmap sorting.
From Stdlib Require Import ZArith Lia String Ascii.
From S2P Require Import Prelude RustStr Json Errors Frames Publisher Validation ListForms MessageStore NoticeStore Mentions ApiState Outbox AuditLog Tables Authz Membership ApiLaws Mail Messaging Files Threads MessageRoutes Notices.

Definition MAX_SCHEDULE_AHEAD_DAYS : Z := 120.
Definition SCHEDULE_BATCH : Z := 100.
Definition HOUR : Z := 60 * MINUTE.
Definition DAY : Z := 24 * HOUR.

Module CreateScheduledMessageRequest.
Record t := {
  channel_id : Uuid; content : str; send_at : Z; attachment_ids : list Uuid; thread_parent_id : option Uuid; also_to_channel : bool;
}.
End CreateScheduledMessageRequest.

Module NewScheduledMessage.
Record t := {
  workspace_id : Uuid; user_id : Uuid; channel_id : Uuid; content : str; send_at : Z; attachment_ids : list Uuid;
  thread_parent_id : option Uuid; also_in_channel : bool;
}.
End NewScheduledMessage.

Module DeliveryFailure.
Inductive t := NotAuthorized | AuthorInactive | ChannelArchived | WorkspaceUnavailable | ThreadGone | Internal (detail : AppError).
Definition as_str (f : t) : str :=
  match f with
  | NotAuthorized => $"not_authorized" | AuthorInactive => $"author_inactive" | ChannelArchived => $"channel_archived"
  | WorkspaceUnavailable => $"workspace_unavailable" | ThreadGone => $"thread_gone" | Internal _ => $"internal_error"
  end.
Definition author_message (f : t) : str :=
  match f with
  | NotAuthorized => $"You no longer have access to the destination."
  | AuthorInactive => $"Your account is suspended."
  | ChannelArchived => $"The channel has been archived."
  | WorkspaceUnavailable => $"The workspace is no longer available."
  | ThreadGone => $"The thread it replied to is gone."
  | Internal _ => $"The server could not deliver it."
  end.
Definition tell_the_author (f : t) : bool := match f with Internal _ | AuthorInactive => false | _ => true end.
End DeliveryFailure.
Abbreviation Delivery A := (Svc ApiDb (result DeliveryFailure.t A)).

(** [map_err(..)?] *)
Definition or_failure {A} (f : AppError -> DeliveryFailure.t) (m : Api A) : Delivery A :=
  r ← m; mret (match r with Ok a => Ok a | Err e => Err (f e) end).

Abbreviation Queue d := (scheduled_messages (app d)).
Definition set_queue (f : gmap Uuid ScheduledMessage.t -> gmap Uuid ScheduledMessage.t) (d : ApiDb) : ApiDb := with_app (set_scheduled_messages f) d.

Section scheduled.
Context `{UuidText, Alphanumeric}.
Context (entry_id : str -> list (str * str * Event) -> str) (draw : ApiDb -> Uuid) (now : Z) (show_time : Z -> str).
Context (public_address : str) (present : Uuid -> list str).
(** The order of an [UPDATE .. RETURNING], and the rows others hold. *)
Context (returning : list ScheduledMessage.t -> list ScheduledMessage.t) (locked : gset Uuid).
Implicit Types (auth : AuthUser.t) (ch u ws id : Uuid) (m : Message.t) (s : ScheduledMessage.t) (d : ApiDb) (t : AppTables).

(** ** Rows ([repo.rs]) *)

Definition row_of (n : NewScheduledMessage.t) id : ScheduledMessage.t :=
  {| ScheduledMessage.id := id; ScheduledMessage.workspace_id := NewScheduledMessage.workspace_id n;
     ScheduledMessage.user_id := NewScheduledMessage.user_id n; ScheduledMessage.channel_id := NewScheduledMessage.channel_id n;
     ScheduledMessage.content := NewScheduledMessage.content n; ScheduledMessage.send_at := NewScheduledMessage.send_at n;
     ScheduledMessage.sent_at := None; ScheduledMessage.canceled_at := None; ScheduledMessage.failure := None;
     ScheduledMessage.created_at := now; ScheduledMessage.attachment_ids := NewScheduledMessage.attachment_ids n;
     ScheduledMessage.thread_parent_id := NewScheduledMessage.thread_parent_id n;
     ScheduledMessage.also_in_channel := NewScheduledMessage.also_in_channel n |}.
Definition insert_scheduled (n : NewScheduledMessage.t) : Tx ApiDb ScheduledMessage.t :=
  id ← drawn draw;
  taken ← read (fun t => bool_decide (is_Some (scheduled_messages t !! id)));
  if taken : bool then unique_violation
  else
    there ← read (fun t => references_exist (NewScheduledMessage.workspace_id n) (NewScheduledMessage.user_id n) t &&
              bool_decide (is_Some (channels t !! NewScheduledMessage.channel_id n)));
    if negb there then foreign_key
    else _ ← run (set_scheduled_messages (<[id := row_of n id]>)); mret (row_of n id).
Definition find_scheduled id t : option ScheduledMessage.t := scheduled_messages t !! id.

Definition send_le (a b : ScheduledMessage.t) : Prop := ScheduledMessage.send_at a <= ScheduledMessage.send_at b.
#[global] Instance send_le_dec a b : Decision (send_le a b).
Proof. unfold send_le. apply _. Defined.
Definition is_sent s : bool := bool_decide (is_Some (ScheduledMessage.sent_at s)).
Definition has_failed s : bool := bool_decide (is_Some (ScheduledMessage.failure s)).
Definition is_canceled s : bool := bool_decide (is_Some (ScheduledMessage.canceled_at s)).
(** [ORDER BY send_at] *)
Definition list_pending_for_user ws u t : list ScheduledMessage.t :=
  merge_sort send_le (filter (fun s => (bool_decide (ScheduledMessage.workspace_id s = ws) && bool_decide (ScheduledMessage.user_id s = u) &&
    negb (is_canceled s) && (negb (is_sent s) || has_failed s) : bool) = true) (map_to_list (scheduled_messages t)).*2).

(** [UPDATE .. WHERE id RETURNING] through [fetch_one]. *)
Definition update_scheduled (f : ScheduledMessage.t -> ScheduledMessage.t) id : Tx ApiDb ScheduledMessage.t :=
  _ ← run (set_scheduled_messages (alter f id));
  s ← read (find_scheduled id);
  tx_require row_not_found s.
Definition repo_reschedule id (send_at : Z) : Api ScheduledMessage.t := transaction (update_scheduled (ScheduledMessage.set_rescheduled send_at) id).
Definition repo_cancel id : Api unit := sql (fun d => (set_queue (alter (ScheduledMessage.set_canceled now) id) d, tt)).
Definition record_failure id (failure : str) : Svc ApiDb unit := svc_ignore (change (set_scheduled_messages (alter (ScheduledMessage.set_failure failure) id))).

Definition scheduled_due s : bool := negb (is_sent s) && negb (is_canceled s) && (ScheduledMessage.send_at s <=? now).
Definition due_scheduled d : list (Uuid * ScheduledMessage.t) :=
  take (Z.to_nat SCHEDULE_BATCH) (merge_sort (fun a b : Uuid * ScheduledMessage.t => send_le a.2 b.2)
    (filter (fun p => scheduled_due p.2 = true /\ p.1 ∉ locked) (map_to_list (Queue d)))).
Definition claim_due_messages d : ApiDb * list ScheduledMessage.t :=
  let rows := (fun p => (p.1, ScheduledMessage.set_sent now p.2)) <$> due_scheduled d in
  (set_queue (fun q => list_to_map rows ∪ q) d, returning rows.*2).
Definition claimable_now s : bool := negb (is_canceled s) && (negb (is_sent s) || has_failed s).
Definition claim_message_now id d : ApiDb * option ScheduledMessage.t :=
  match Queue d !! id with
  | Some s => if claimable_now s then (set_queue (<[id := ScheduledMessage.set_sent_now now s]>) d, Some (ScheduledMessage.set_sent_now now s)) else (d, None)
  | None => (d, None)
  end.

(** ** Requests ([routes.rs]) *)

Definition send_at_in_window (value : Z) : AppResult unit :=
  if value <=? now then Err (Validation ($"Scheduled time must be in the future"))
  else if now + MAX_SCHEDULE_AHEAD_DAYS * DAY <? value then Err (Validation ($"Messages can be scheduled at most 120 days ahead"))
  else Ok tt.
Definition attachments_kept_until (send_at : Z) : Z := send_at + DAY.
Definition draft_deadline : Z := now + 24 * HOUR.

Definition require_target_access auth ws ch (content : str) : Api unit :=
  channel ←? find_channel ch;
  if negb (bool_decide (Channel.workspace_id channel = ws)) then mret (Err (Validation ($"Channel does not belong to this workspace")))
  else
    _ ←? require_channel_post ch (user_of auth);
    if mentions_everyone content then require_broadcast channel (user_of auth) else mret (Ok tt).
Definition hold_attachments (ids : list Uuid) ws u (until : Z) : Api unit :=
  match ids with
  | [] => mret (Ok tt)
  | _ =>
      held ←? hold_drafts ids ws u until;
      if negb (held =? Z.of_nat (length ids)) then mret (Err (Validation ($"Attach only files you uploaded here and have not sent yet")))
      else mret (Ok tt)
  end.
Definition list_scheduled auth ws : Api (list ScheduledMessage.t) := query (list_pending_for_user ws (user_of auth)).

Definition create_scheduled auth ws (req : CreateScheduledMessageRequest.t) : Api ScheduledMessage.t :=
  let ch := CreateScheduledMessageRequest.channel_id req in
  let content := CreateScheduledMessageRequest.content req in
  let ids := CreateScheduledMessageRequest.attachment_ids req in
  _ ←? mret (validate_message_body content);
  _ ←? mret (send_at_in_window (CreateScheduledMessageRequest.send_at req));
  _ ←? mret (check_attachment_ids ids);
  if bool_decide (trim content = [] /\ ids = []) then mret (Err empty_message)
  else
    _ ←? require_target_access auth ws ch content;
    root ←? match CreateScheduledMessageRequest.thread_parent_id req with
            | Some parent => root ←? thread_root ch parent; mret (Ok (Some (Message.id root)))
            | None => mret (Ok None)
            end;
    _ ←? hold_attachments ids ws (user_of auth) (attachments_kept_until (CreateScheduledMessageRequest.send_at req));
    transaction (insert_scheduled
      {| NewScheduledMessage.workspace_id := ws; NewScheduledMessage.user_id := user_of auth; NewScheduledMessage.channel_id := ch;
         NewScheduledMessage.content := content; NewScheduledMessage.send_at := CreateScheduledMessageRequest.send_at req;
         NewScheduledMessage.attachment_ids := ids; NewScheduledMessage.thread_parent_id := root;
         NewScheduledMessage.also_in_channel := CreateScheduledMessageRequest.also_to_channel req && bool_decide (is_Some root) |}).

Definition owned_open id u : Api ScheduledMessage.t :=
  s ←? query (find_scheduled id);
  s ←? require (NotFound ($"Scheduled message not found")) s;
  if negb (bool_decide (ScheduledMessage.user_id s = u)) then refuse ($"Can only manage your own scheduled messages")
  else if is_sent s && negb (has_failed s) then mret (Err (Conflict ($"That message has already been sent")))
  else if is_canceled s then mret (Err (Conflict ($"That message was already canceled")))
  else mret (Ok s).

Definition reschedule auth id (send_at : Z) : Api ScheduledMessage.t :=
  _ ←? mret (send_at_in_window send_at);
  s ←? owned_open id (user_of auth);
  _ ←? hold_attachments (ScheduledMessage.attachment_ids s) (ScheduledMessage.workspace_id s) (user_of auth) (attachments_kept_until send_at);
  repo_reschedule id send_at.
Definition cancel_scheduled auth id : Api unit :=
  s ←? owned_open id (user_of auth);
  _ ←? repo_cancel id;
  match ScheduledMessage.attachment_ids s with
  | [] => mret (Ok tt)
  | ids => _ ←? hold_drafts ids (ScheduledMessage.workspace_id s) (user_of auth) draft_deadline; mret (Ok tt)
  end.

(** ** Delivery ([executor.rs]) *)

(** Whether the author may still send it. *)
Definition authorize_channel s ch : Delivery unit :=
  stopped ←? or_failure DeliveryFailure.Internal (still_acting (ScheduledMessage.workspace_id s) (ScheduledMessage.user_id s) None);
  if bool_decide (stopped = Some Inactive) then mret (Err DeliveryFailure.AuthorInactive)
  else
    access ←? or_failure (fun _ => DeliveryFailure.NotAuthorized) (require_channel_access ch (ScheduledMessage.user_id s));
    if Channel.is_archived (ChannelAccess.channel access) then mret (Err DeliveryFailure.ChannelArchived)
    else if negb (ChannelAccess.can_post access) then mret (Err DeliveryFailure.NotAuthorized)
    else
      workspace ←? or_failure DeliveryFailure.Internal (query (find_workspace_by_id (Channel.workspace_id (ChannelAccess.channel access))));
      match workspace with
      | Some ws => if Workspace.is_active ws then mret (Ok tt) else mret (Err DeliveryFailure.WorkspaceUnavailable)
      | None => mret (Err DeliveryFailure.WorkspaceUnavailable)
      end.

Definition scheduled_new s ch (root : option Message.t) (mentioned : list Uuid) : NewMessage.t :=
  {| NewMessage.channel_id := ch; NewMessage.user_id := ScheduledMessage.user_id s; NewMessage.content := ScheduledMessage.content s;
     NewMessage.thread_parent_id := Message.id <$> root; NewMessage.also_in_channel := ScheduledMessage.also_in_channel s;
     NewMessage.forwarded_from := None; NewMessage.client_message_id := None; NewMessage.mentioned := mentioned |}.
Definition deliver_tx s (new : NewMessage.t) (root : option Message.t) : Tx ApiDb Staged :=
  created ← create_message_in draw now new;
  created ← or_violation created;
  m ← attach_in draw now public_address created (ScheduledMessage.attachment_ids s) [] (ScheduledMessage.workspace_id s) (ScheduledMessage.user_id s);
  follow_and_stage draw now show_time m new (ScheduledMessage.workspace_id s) root.
Definition root_for s ch : Delivery (option Message.t) :=
  match ScheduledMessage.thread_parent_id s with
  | Some parent => root ←? or_failure (fun _ => DeliveryFailure.ThreadGone) (thread_root ch parent); mret (Ok (Some root))
  | None => mret (Ok None)
  end.
Definition deliver_to_channel s ch : Delivery unit :=
  _ ←? authorize_channel s ch;
  root ←? root_for s ch;
  mentioned ← expand_mentions present ch (ScheduledMessage.user_id s) (ScheduledMessage.content s);
  staged ←? or_failure DeliveryFailure.Internal (transaction (deliver_tx s (scheduled_new s ch root mentioned) root));
  _ ← dispatch entry_id now staged;
  _ ← match root with Some root => announce_reply entry_id draw now (Message.id root) (ScheduledMessage.workspace_id s) | None => mret tt end;
  mret (Ok tt).

Definition FAILURE_TITLE : str := $"Scheduled message was not delivered".
Definition failure_row s (f : DeliveryFailure.t) : Notification.t :=
  notification_row now (ScheduledMessage.user_id s) (ScheduledMessage.workspace_id s) NotificationType.System FAILURE_TITLE
    (Some (DeliveryFailure.author_message f))
    (JObject [uuid_field "scheduled_message_id" (ScheduledMessage.id s); uuid_field "channel_id" (ScheduledMessage.channel_id s);
              ($"failure", JString (DeliveryFailure.as_str f))]).
Definition notify_author s (f : DeliveryFailure.t) : Svc ApiDb unit :=
  _ ← create_notification draw (failure_row s f);
  id ← svc_gets draw;
  svc_ignore (Outbox.publish entry_id now id ($"notification.push") (JObject [
    uuid_field "user_id" (ScheduledMessage.user_id s); uuid_field "workspace_id" (ScheduledMessage.workspace_id s);
    uuid_field "channel_id" (ScheduledMessage.channel_id s); ($"title", JString FAILURE_TITLE);
    ($"body", JString (DeliveryFailure.author_message f)); ($"kind", JString ($"system"))])).
Definition deliver_now s : Delivery unit :=
  result ← deliver_to_channel s (ScheduledMessage.channel_id s);
  match result with
  | Ok _ => mret (Ok tt)
  | Err f =>
      _ ← record_failure (ScheduledMessage.id s) (DeliveryFailure.as_str f);
      _ ← (if DeliveryFailure.tell_the_author f then notify_author s f else mret tt);
      mret (Err f)
  end.

Definition send_now auth id : Api unit :=
  _ ←? owned_open id (user_of auth);
  claimed ←? sql (claim_message_now id);
  claimed ←? require (Conflict ($"That message is already on its way")) claimed;
  sent ← deliver_now claimed;
  mret (match sent with Ok _ => Ok tt | Err f => Err (Conflict (DeliveryFailure.author_message f)) end).

(** One round of the dispatcher. *)
Definition dispatch_due : Svc ApiDb unit :=
  due ← svc_call claim_due_messages;
  match due with
  | Ok due => svc_each due (fun s => svc_ignore (deliver_now s))
  | Err _ => mret tt
  end.
End scheduled.
