(* ===== verification/Polls.v ===== *)
(** * Polls
    ([backend/api/src/polls/{service,repo,routes}.rs])

    A poll is created with the message that shows it; a vote and a closing lock
    the poll, change its rows and write the new summary into the message, all in
    one transaction. *)

From stdpp Require Import base tactics option numbers list gmap sorting.
From Stdlib Require Import ZArith Lia String Ascii.
From S2P Require Import Prelude RustStr Json Errors Frames Publisher ListForms ListStore MessageStore PollStore Mentions ApiState Outbox AuditLog Tables Authz Membership Messaging Files Threads MessageRoutes.

Module PollPlace.
Record t := { poll : Poll.t; channel_id : Uuid; workspace_id : Uuid; message_deleted : bool }.
End PollPlace.

Definition DUE_BATCH : Z := 100.

Section polls.
Context `{UuidText, Alphanumeric, CaseFolding}.
Context (entry_id : str -> list (str * str * Event) -> str) (draw : ApiDb -> Uuid) (now : Z) (show_time : Z -> str).
Context (present : Uuid -> list str).
Implicit Types (auth : AuthUser.t) (ch u ws id poll : Uuid) (m : Message.t) (p : Poll.t).

(** ** Statements *)

Definition poll_read {A} (q : PollTables -> A) : Tx ApiDb A := read (fun t => q (poll_tables t)).
Definition poll_run (f : PollTables -> PollTables) : Tx ApiDb unit := run (set_poll_tables f).

(** The options of a new poll, at positions from [position] on. *)
Fixpoint insert_options poll (position : nat) (labels : list str) : Tx ApiDb unit :=
  match labels with
  | [] => mret tt
  | label :: labels =>
      id ← drawn draw;
      taken ← poll_read (fun t : PollTables => bool_decide (is_Some (poll_options t !! id)));
      if taken : bool then unique_violation
      else
        _ ← poll_run (set_poll_options (<[id := {| PollOption.poll_id := poll; PollOption.position := position; PollOption.label := label |}]>));
        insert_options poll (S position) labels
  end.
Definition create_poll_in (message created_by : Uuid) (d : PollDraft.t) : Tx ApiDb Poll.t :=
  id ← drawn draw;
  taken ← poll_read (fun t : PollTables => bool_decide (is_Some (polls t !! id)) ||
                       existsb (fun p => bool_decide (Poll.message_id p = message)) (map_to_list (polls t)).*2);
  if taken : bool then unique_violation
  else
    there ← read (fun t => bool_decide (is_Some (messages (message_tables t) !! message)) && bool_decide (is_Some (users t !! created_by)));
    if negb there then foreign_key
    else
      let p := {| Poll.id := id; Poll.message_id := message; Poll.question := PollDraft.question d;
                  Poll.multiple_choice := PollDraft.multiple_choice d; Poll.anonymous := PollDraft.anonymous d;
                  Poll.closes_at := PollDraft.closes_at d; Poll.closed_at := None; Poll.created_by := created_by |} in
      _ ← poll_run (set_polls (<[id := p]>));
      _ ← insert_options id 0 (PollDraft.options d);
      mret p.

Definition place_of id (t : AppTables) : option PollPlace.t :=
  p ← polls (poll_tables t) !! id;
  m ← messages (message_tables t) !! Poll.message_id p;
  c ← channels t !! Message.channel_id m;
  Some {| PollPlace.poll := p; PollPlace.channel_id := Message.channel_id m; PollPlace.workspace_id := Channel.workspace_id c;
          PollPlace.message_deleted := negb (is_live m) |}.

(** [SELECT .. FOR UPDATE] *)
Definition lock_in poll : Tx ApiDb Poll.t := p ← poll_read (fun t : PollTables => polls t !! poll); tx_require row_not_found p.

Definition insert_vote p u (option : Uuid) : Tx ApiDb unit :=
  let single := negb (Poll.multiple_choice p) in
  taken ← poll_read (fun t : PollTables => bool_decide (is_Some (poll_votes t !! (option, u))) ||
    (single && existsb (fun v => bool_decide (v.1.2 = u /\ PollVote.poll_id v.2 = Poll.id p) && PollVote.single_choice v.2) (map_to_list (poll_votes t))));
  if taken : bool then unique_violation
  else
    there ← read (fun t => bool_decide (PollOption.poll_id <$> poll_options (poll_tables t) !! option = Some (Poll.id p)) && bool_decide (is_Some (users t !! u)));
    if negb there then foreign_key
    else poll_run (set_poll_votes (<[(option, u) := {| PollVote.poll_id := Poll.id p; PollVote.single_choice := single; PollVote.created_at := now |}]>)).
Definition withdraw_vote poll u : PollTables -> PollTables :=
  set_poll_votes (filter (fun v => ~ (PollVote.poll_id v.2 = poll /\ v.1.2 = u))).
Definition replace_vote_in p u (option_ids : list Uuid) : Tx ApiDb unit :=
  _ ← poll_run (withdraw_vote (Poll.id p) u);
  _ ← tx_each (insert_vote p u) option_ids;
  mret tt.

Definition close_in poll : Tx ApiDb Poll.t :=
  _ ← poll_run (set_polls (alter (Poll.close now) poll));
  p ← poll_read (fun t : PollTables => polls t !! poll);
  tx_require row_not_found p.

(** *** The summary in the message *)

Definition time_opt (at_ : option Z) : json := match at_ with Some at_ => time_json show_time at_ | None => JNull end.
Definition option_json (o : PollOptionCount.t) : json := JObject [
  uuid_field "id" (PollOptionCount.id o); ($"label", JString (PollOptionCount.label o)); ($"votes", int_json (PollOptionCount.votes o))].
Definition summary_json (s : PollSummary.t) : json := JObject [
  uuid_field "id" (PollSummary.id s); ($"question", JString (PollSummary.question s));
  ($"multiple_choice", JBool (PollSummary.multiple_choice s)); ($"anonymous", JBool (PollSummary.anonymous s));
  ($"closes_at", time_opt (PollSummary.closes_at s)); ($"closed_at", time_opt (PollSummary.closed_at s));
  uuid_field "created_by" (PollSummary.created_by s); ($"options", JArray (option_json <$> PollSummary.options s));
  ($"voters", int_json (PollSummary.voters s))].

Definition set_poll (poll : json) (metadata : json) : json := jsonb_concat metadata (JObject [($"poll", poll)]).
Definition set_poll_in (message : Uuid) (poll : json) : Tx ApiDb Message.t := change_message (Message.set_metadata (set_poll poll)) message.
Definition write_summary p : Tx ApiDb (Message.t * PollSummary.t) :=
  s ← poll_read (summary_of p);
  m ← set_poll_in (Poll.message_id p) (summary_json s);
  mret (m, s).

(** ** Service *)

Definition create_poll_tx (new : NewMessage.t) (d : PollDraft.t) ws (root : option Message.t) : Tx ApiDb (Message.t * Staged) :=
  m ← create_message_in draw now new;
  m ← or_violation m;
  p ← create_poll_in (Message.id m) (NewMessage.user_id new) d;
  written ← write_summary p;
  _ ← match root with
      | Some root => follow_on_reply_in
          {| ReplyFollows.root_message_id := Message.id root; ReplyFollows.workspace_id := ws; ReplyFollows.replier_id := NewMessage.user_id new;
             ReplyFollows.root_author_id := Message.user_id root; ReplyFollows.mentioned := NewMessage.mentioned new;
             ReplyFollows.replied_at := Message.created_at written.1 |}
      | None => mret tt
      end;
  staged ← stage_message_created draw now show_time written.1 ws (NewMessage.mentioned new);
  mret (written.1, staged).

Definition create_poll u ch (req : CreatePollRequest.t) : Api Message.t :=
  d ←? mret (poll_draft req now);
  access ←? require_channel_post ch u;
  let channel := ChannelAccess.channel access in
  _ ←? (if mentions_everyone (PollDraft.question d) then require_broadcast channel u else mret (Ok tt));
  root ←? match CreatePollRequest.thread_parent_id req with
          | Some parent => root ←? thread_root ch parent; mret (Ok (Some root))
          | None => mret (Ok None)
          end;
  mentioned ← expand_mentions present ch u (PollDraft.question d);
  let ws := Channel.workspace_id channel in
  done ←? transaction (create_poll_tx {| NewMessage.channel_id := ch; NewMessage.user_id := u; NewMessage.content := PollDraft.question d;
                                    NewMessage.thread_parent_id := Message.id <$> root; NewMessage.also_in_channel := false;
                                    NewMessage.forwarded_from := None; NewMessage.client_message_id := None;
                                    NewMessage.mentioned := mentioned |} d ws root);
  _ ← dispatch entry_id now done.2;
  _ ← match root with Some root => announce_reply entry_id draw now (Message.id root) ws | None => mret tt end;
  mret (Ok done.1).

Definition poll_gone : AppError := NotFound ($"Poll not found").
Definition find_place poll : Api PollPlace.t :=
  place ←? query (place_of poll);
  require poll_gone (place ← place; if PollPlace.message_deleted place then None else Some place).
Definition find_readable poll u : Api PollPlace.t :=
  place ←? find_place poll;
  _ ←? require_channel_access (PollPlace.channel_id place) u;
  mret (Ok place).

Definition vote_tx u poll ws (option_ids_ : list Uuid) : Tx ApiDb (list Uuid * PollSummary.t * Staged) :=
  p ← lock_in poll;
  if Poll.is_closed p now then tx_fail (Conflict ($"This poll is closed"))
  else
    offered ← poll_read (option_ids poll);
    let chosen := filter (fun o => o ∈ option_ids_) offered in
    if negb (bool_decide (option_ids_ ⊆ offered)) then tx_fail (Validation ($"That option is not in this poll"))
    else if negb (Poll.multiple_choice p) && Nat.ltb 1 (length chosen) then tx_fail (Validation ($"This poll takes one answer"))
    else
      _ ← replace_vote_in p u chosen;
      written ← write_summary p;
      staged ← stage_message_updated draw now show_time written.1 ws;
      mret (chosen, written.2, staged).
Definition cast_vote u poll (option_ids_ : list Uuid) : Api (list Uuid * PollSummary.t) :=
  place ←? find_readable poll u;
  channel ←? find_channel (PollPlace.channel_id place);
  _ ←? mret (require_not_archived channel);
  done ←? transaction (vote_tx u poll (PollPlace.workspace_id place) option_ids_);
  _ ← dispatch entry_id now done.2;
  mret (Ok done.1).

(** [None] when the poll was closed already. *)
Definition close_poll_tx poll ws : Tx ApiDb (option (PollSummary.t * Staged)) :=
  p ← lock_in poll;
  if bool_decide (is_Some (Poll.closed_at p)) then mret None
  else
    p ← close_in (Poll.id p);
    written ← write_summary p;
    staged ← stage_message_updated draw now show_time written.1 ws;
    mret (Some (written.2, staged)).
Definition close_place (place : PollPlace.t) : Api (option PollSummary.t) :=
  done ←? transaction (close_poll_tx (Poll.id (PollPlace.poll place)) (PollPlace.workspace_id place));
  match done with
  | None => mret (Ok None)
  | Some done => _ ← dispatch entry_id now done.2; mret (Ok (Some done.1))
  end.
Definition close_by u poll : Api PollSummary.t :=
  place ←? find_place poll;
  channel ←? (if bool_decide (Poll.created_by (PollPlace.poll place) = u) then
                access ←? require_channel_access (PollPlace.channel_id place) u; mret (Ok (ChannelAccess.channel access))
              else
                channel ←? find_channel (PollPlace.channel_id place);
                _ ←? require_channel_moderator channel u;
                mret (Ok channel));
  _ ←? mret (require_not_archived channel);
  closed ←? close_place place;
  require (Conflict ($"This poll is already closed")) closed.

Fixpoint close_each (ids : list Uuid) (closed : nat) : Svc ApiDb nat :=
  match ids with
  | [] => mret closed
  | poll :: ids =>
      place ← query (place_of poll);
      match place with
      | Ok (Some place) =>
          r ← close_place place;
          close_each ids (match r with Ok (Some _) => S closed | _ => closed end)
      | _ => close_each ids closed
      end
  end.
Definition close_due : Svc ApiDb nat :=
  ids ← query (fun t => due_polls now DUE_BATCH (poll_tables t));
  match ids with Ok ids => close_each ids 0 | Err _ => mret 0%nat end.

(** ** Routes *)

Definition route_my_vote auth poll : Api (list Uuid) :=
  _ ←? find_readable poll (AuthUser.user_id auth);
  query (fun t => my_vote poll (AuthUser.user_id auth) (poll_tables t)).
Definition list_voters auth poll : Api (list (Uuid * list Uuid)) :=
  place ←? find_readable poll (AuthUser.user_id auth);
  if Poll.anonymous (PollPlace.poll place) then refuse ($"This poll is anonymous")
  else query (fun t => voters_by_option poll (poll_tables t)).
End polls.
