(* ===== verification/MessageLaws.v ===== *)
(** * Counters follow the messages
    ([backend/api/src/messaging/{repo,reconcile}.rs])

    What the statements of [Messaging] keep: a message counts its live replies,
    and the row of a member counts what the member has not read. *)

From stdpp Require Import base tactics option numbers list gmap sorting.
From Stdlib Require Import ZArith Lia String Ascii.
From S2P Require Import Prelude RustStr Json Errors Frames Publisher ListStore MessageStore ApiState Outbox AuditLog Tables Authz Membership ApiLaws Messaging.

(** ** Counting *)

Abbreviation MessageMap := (gmap Uuid Message.t).
Abbreviation SeatMap := (gmap (Uuid * Uuid) ChannelMember.t).
Abbreviation Mt d := (messages (message_tables (app d))).
Abbreviation Cm d := (channel_members (app d)).

Definition tally (p : Message.t -> bool) (M : MessageMap) : Z := Z.of_nat (length (filter p (map_to_list M).*2)).

Section tallies.
Implicit Types (p q : Message.t -> bool) (M : MessageMap) (m : Message.t).

Lemma tally_insert p M k m : M !! k = None -> tally p (<[k := m]> M) = tally p M + Z.b2z (p m).
Proof.
  intros Hk. unfold tally. rewrite map_to_list_insert by done. rewrite fmap_cons, filter_cons. cbn [snd].
  destruct (p m); [rewrite decide_True by done|rewrite decide_False by (by intros [])]; cbn; lia.
Qed.
Lemma tally_ext p q M : (forall k m, M !! k = Some m -> p m = q m) -> tally p M = tally q M.
Proof.
  intros Hpq. unfold tally. do 2 f_equal.
  assert (Hl : forall m, m ∈ (map_to_list M).*2 -> p m = q m).
  { intros m ([k x] & -> & Hm%elem_of_map_to_list)%list_elem_of_fmap. by apply (Hpq k). }
  induction (map_to_list M).*2 as [|m l IH]; [done|]. rewrite !filter_cons, IH by (intros x Hx; apply Hl; by right).
  rewrite (Hl m) by left. done.
Qed.
Lemma tally_delete p M k m : M !! k = Some m -> tally p M = tally p (delete k M) + Z.b2z (p m).
Proof. intros Hk. rewrite <-(insert_delete_id M k m Hk) at 1. apply tally_insert, lookup_delete_eq. Qed.
Lemma tally_alter p M k m f : M !! k = Some m -> tally p (alter f k M) = tally p M - Z.b2z (p m) + Z.b2z (p (f m)).
Proof.
  intros Hk. rewrite (tally_delete p (alter f k M) k (f m)) by (by rewrite lookup_alter_eq, Hk).
  rewrite delete_alter_eq. rewrite (tally_delete p M k m Hk). lia.
Qed.
Lemma tally_alter_same p M k f : (forall m, p (f m) = p m) -> tally p (alter f k M) = tally p M.
Proof.
  intros Hf. destruct (M !! k) as [m|] eqn:E; [rewrite (tally_alter _ _ _ m) by done; rewrite Hf; lia|].
  by rewrite alter_id by (intros m Hm; congruence).
Qed.
Lemma tally_nonneg p M : 0 <= tally p M.
Proof. unfold tally. lia. Qed.
Lemma tally_none p M : (forall k m, M !! k = Some m -> p m = false) -> tally p M = 0.
Proof.
  intros Hp. rewrite (tally_ext p (fun _ => false)) by done. unfold tally.
  induction (map_to_list M).*2 as [|m l IH]; [done|]. rewrite filter_cons, decide_False by (by intros []). exact IH.
Qed.
End tallies.

(** ** What holds of messages and seats *)

(** A live reply to a message. *)
Definition replies (root : Uuid) (m : Message.t) : bool := bool_decide (Message.thread_parent_id m = Some root) && is_live m.
(** What a member has not read. *)
Definition unread_in (M : MessageMap) (k : Uuid * Uuid) (s : ChannelMember.t) : Z :=
  tally (unread_by k.1 k.2 (Seat.last_read_at s)) M.

(** The same, but for messages that are being deleted: the request has lowered
    the counts and not yet deleted the message. *)
Definition counts_for (P : gset Uuid) (ch u : Uuid) (last : option Z) (m : Message.t) : bool :=
  unread_by ch u last m && negb (bool_decide (Message.id m ∈ P)).
Definition unread_but (P : gset Uuid) (M : MessageMap) (k : Uuid * Uuid) (s : ChannelMember.t) : Z :=
  tally (counts_for P k.1 k.2 (Seat.last_read_at s)) M.

Record right (P : gset Uuid) (now : Z) (M : MessageMap) (C : SeatMap) : Prop := {
  right_ids : forall k m, M !! k = Some m -> Message.id m = k;
  right_parents : forall k m p, M !! k = Some m -> Message.thread_parent_id m = Some p -> p <> k /\ is_Some (M !! p);
  right_replies : forall k m, M !! k = Some m -> Message.reply_count m = tally (replies k) M;
  right_counts : forall k s, C !! k = Some s -> ChannelMember.unread_count s = unread_but P M k s;
  right_past : forall k m, M !! k = Some m -> Message.created_at m <= now;
  right_read : forall k s at_, C !! k = Some s -> Seat.last_read_at s = Some at_ -> at_ <= now;
  right_pending : forall id, id ∈ P -> exists m, M !! id = Some m /\ is_live m = true;
}.

(** A change of a message that no counter looks at. *)
Record inert (f : Message.t -> Message.t) : Prop := {
  inert_id : forall m, Message.id (f m) = Message.id m;
  inert_channel : forall m, Message.channel_id (f m) = Message.channel_id m;
  inert_user : forall m, Message.user_id (f m) = Message.user_id m;
  inert_parent : forall m, Message.thread_parent_id (f m) = Message.thread_parent_id m;
  inert_created : forall m, Message.created_at (f m) = Message.created_at m;
  inert_live : forall m, is_live (f m) = is_live m;
  inert_feed : forall m, in_feed (f m) = in_feed m;
}.

Section counters.
Implicit Types (P : gset Uuid) (M : MessageMap) (C : SeatMap) (k : Uuid * Uuid) (m : Message.t) (s : ChannelMember.t).

Lemma inert_unread f ch u last m : inert f -> unread_by ch u last (f m) = unread_by ch u last m.
Proof. intros [_ Hc Hu _ Ht Hl Hf]. unfold unread_by. by rewrite Hc, Hu, Ht, Hl, Hf. Qed.
Lemma inert_replies f root m : inert f -> replies root (f m) = replies root m.
Proof. intros [_ _ _ Hp _ Hl _]. unfold replies. by rewrite Hp, Hl. Qed.
Lemma inert_counts P f ch u last m : inert f -> counts_for P ch u last (f m) = counts_for P ch u last m.
Proof. intros Hf. unfold counts_for. by rewrite inert_unread, (inert_id f Hf). Qed.
Lemma unread_but_alter P f M id k s : inert f -> unread_but P (alter f id M) k s = unread_but P M k s.
Proof. intros Hf. apply tally_alter_same. intros m. by apply inert_counts. Qed.
Lemma unread_but_none M k s : unread_but ∅ M k s = unread_in M k s.
Proof. apply tally_ext. intros i m _. unfold counts_for. rewrite bool_decide_eq_false_2 by set_solver. apply andb_true_r. Qed.

(** What [replies] and [unread_by] read of a message. *)
Lemma set_reply_count_inert f : inert (Message.set_reply_count f).
Proof. by split. Qed.
Lemma set_content_inert content now : inert (Message.set_content content now).
Proof. by split. Qed.
Lemma set_pinned_inert b : inert (Message.set_pinned b).
Proof. by split. Qed.
Lemma one_reply_less_inert : inert one_reply_less.
Proof. by split. Qed.
Lemma set_metadata_inert f : (forall d, text_at ALSO_IN_CHANNEL (f d) = text_at ALSO_IN_CHANNEL d) -> inert (Message.set_metadata f).
Proof. intros Hf. split; try done. intros m. unfold in_feed, text_is. cbn. by rewrite Hf. Qed.

Lemma text_at_concat key j v : key <> j -> forall d, text_at key (jsonb_concat d (JObject [(j, v)])) = text_at key d.
Proof. intros Hne []; try done. unfold text_at. cbn. by rewrite assoc_insert_ne. Qed.
Lemma text_at_remove key j : key <> j -> forall d, text_at key (jsonb_remove j d) = text_at key d.
Proof. intros Hne []; try done. unfold text_at. cbn. by rewrite assoc_remove_ne. Qed.
Lemma set_attachments_inert a : inert (Message.set_metadata (set_attachments a)).
Proof.
  apply set_metadata_inert. intros d. unfold set_attachments.
  destruct a as [| | | |[|]|]; (apply text_at_concat || apply text_at_remove); discriminate.
Qed.

Lemma right_mono P now now' M C : now <= now' -> right P now M C -> right P now' M C.
Proof.
  intros Hn [A B D E F G L]. split; try done.
  - intros k m Hm. specialize (F k m Hm). lia.
  - intros k s at_ Hs Ha. specialize (G k s at_ Hs Ha). lia.
Qed.

Lemma lookup_alter_inert f M id (k : Uuid) m : inert f -> alter f id M !! k = Some m ->
  exists m0, M !! k = Some m0 /\ Message.id m = Message.id m0 /\ Message.thread_parent_id m = Message.thread_parent_id m0 /\
    Message.created_at m = Message.created_at m0 /\ (m = m0 \/ m = f m0).
Proof.
  intros Hf. destruct (decide (id = k)) as [->|Hne].
  - rewrite lookup_alter_eq. intros (m0 & Hm & ->)%fmap_Some. exists m0. split; [done|].
    rewrite (inert_id f Hf), (inert_parent f Hf), (inert_created f Hf). auto.
  - rewrite lookup_alter_ne by done. intros Hm. exists m. auto 6.
Qed.

Lemma right_inert P now f M C id : inert f -> (forall m, Message.reply_count (f m) = Message.reply_count m) ->
  right P now M C -> right P now (alter f id M) C.
Proof.
  intros Hf Hr [A B D E F G L]. split; try done.
  - intros k m (m0 & Hm & -> & _)%lookup_alter_inert; [by apply A|done].
  - intros k m p (m0 & Hm & _ & -> & _)%lookup_alter_inert Hp; [|done]. destruct (B _ _ _ Hm Hp) as [? [x Hx]]. split; [done|].
    apply lookup_alter_is_Some. by exists x.
  - intros k m (m0 & Hm & _ & _ & _ & Hor)%lookup_alter_inert; [|done].
    rewrite tally_alter_same by (intros x; by apply inert_replies). rewrite <-(D _ _ Hm).
    destruct Hor as [->| ->]; [done|apply Hr].
  - intros k s Hs. rewrite unread_but_alter by done. by apply E.
  - intros k m (m0 & Hm & _ & _ & -> & _)%lookup_alter_inert; [|done]. by eapply F.
  - intros i (m & Hm & Hl)%L. destruct (decide (id = i)) as [->|]; [|exists m; by rewrite lookup_alter_ne].
    exists (f m). by rewrite lookup_alter_eq, Hm, (inert_live f Hf).
Qed.

(** *** A message is written *)

Definition add_message (M : MessageMap) (m : Message.t) : MessageMap :=
  match Message.thread_parent_id m with
  | Some p => alter (Message.set_reply_count (Z.add 1)) p (<[Message.id m := m]> M)
  | None => <[Message.id m := m]> M
  end.
(** The seats with one more unread where the message is. *)
Definition seats_with (g : Uuid * Uuid -> ChannelMember.t -> ChannelMember.t) C : SeatMap := map_imap (fun k s => Some (g k s)) C.

Lemma lookup_seats_with g C k : seats_with g C !! k = g k <$> C !! k.
Proof. unfold seats_with. rewrite map_lookup_imap. by destruct (C !! k). Qed.

Lemma add_message_tally p M m : (forall f x, p (Message.set_reply_count f x) = p x) -> M !! Message.id m = None ->
  tally p (add_message M m) = tally p M + Z.b2z (p m).
Proof.
  intros Hp Hm. unfold add_message. destruct (Message.thread_parent_id m) as [r|].
  - rewrite tally_alter_same by (intros; apply Hp). by apply tally_insert.
  - by apply tally_insert.
Qed.

Lemma lookup_add_message M m (k : Uuid) x : Message.thread_parent_id m <> Some (Message.id m) -> M !! Message.id m = None ->
  add_message M m !! k = Some x ->
  (k = Message.id m /\ x = m) \/
  (k <> Message.id m /\ exists x0, M !! k = Some x0 /\
     x = (if bool_decide (Message.thread_parent_id m = Some k) then Message.set_reply_count (Z.add 1) x0 else x0)).
Proof.
  intros Hself Hm. unfold add_message. destruct (decide (k = Message.id m)) as [->|Hne].
  - intros Hx. left. split; [done|]. destruct (Message.thread_parent_id m) as [r|]; [rewrite lookup_alter_ne in Hx by congruence|];
      rewrite lookup_insert_eq in Hx; congruence.
  - intros Hx. right. split; [done|]. destruct (Message.thread_parent_id m) as [r|].
    + destruct (decide (r = k)) as [->|Hr].
      * rewrite lookup_alter_eq, lookup_insert_ne in Hx by done. apply fmap_Some in Hx as (x0 & Hx0 & ->).
        exists x0. by rewrite bool_decide_eq_true_2.
      * rewrite lookup_alter_ne, lookup_insert_ne in Hx by done. exists x. by rewrite bool_decide_eq_false_2 by congruence.
    + rewrite lookup_insert_ne in Hx by done. exists x. by rewrite bool_decide_eq_false_2.
Qed.

Lemma right_add P now now' M C m g :
  right P now M C -> now <= now' -> M !! Message.id m = None -> Message.created_at m = now' -> is_live m = true ->
  Message.reply_count m = 0 -> (forall p, Message.thread_parent_id m = Some p -> is_Some (M !! p)) ->
  (forall k s, Seat.last_read_at (g k s) = Seat.last_read_at s) ->
  (forall k s, C !! k = Some s -> ChannelMember.unread_count (g k s) =
     ChannelMember.unread_count s + Z.b2z (unread_by k.1 k.2 (Seat.last_read_at s) m)) ->
  right P now' (add_message M m) (seats_with g C).
Proof.
  intros [A B D E F G L] Hn Hm Ht Hl Hz Hp Hg Hu.
  assert (Hself : Message.thread_parent_id m <> Some (Message.id m)).
  { intros Hs. destruct (Hp _ Hs) as [x Hx]. congruence. }
  assert (Hsome : forall p, is_Some (M !! p) -> is_Some (add_message M m !! p)).
  { intros p [x Hx]. assert (is_Some (<[Message.id m := m]> M !! p)) by (rewrite lookup_insert_is_Some; destruct (decide (Message.id m = p)); auto).
    unfold add_message. destruct (Message.thread_parent_id m); [by apply lookup_alter_is_Some|done]. }
  split.
  - intros k x Hx%lookup_add_message; [|done..]. destruct Hx as [[-> ->]|(_ & x0 & Hx0 & ->)]; [done|].
    case_bool_decide; cbn; by apply A.
  - intros k x p Hx%lookup_add_message Hpx; [|done..]. destruct Hx as [[-> ->]|(_ & x0 & Hx0 & ->)].
    + split; [congruence|]. apply Hsome. by apply Hp.
    + assert (Hp0 : Message.thread_parent_id x0 = Some p) by (by case_bool_decide). destruct (B _ _ _ Hx0 Hp0). auto.
  - intros k x Hx%lookup_add_message; [|done..]. rewrite add_message_tally by done. unfold replies at 2. rewrite Hl.
    destruct Hx as [[-> ->]|(Hne & x0 & Hx0 & ->)].
    + rewrite bool_decide_eq_false_2 by done. rewrite Hz, tally_none; [done|]. intros k x Hx. unfold replies.
      apply andb_false_iff. left. apply bool_decide_eq_false. intros Hpx. destruct (B _ _ _ Hx Hpx) as [_ [y Hy]]. congruence.
    + case_bool_decide; cbn; rewrite (D _ _ Hx0); lia.
  - intros k s. rewrite lookup_seats_with. intros (s0 & Hs & ->)%fmap_Some. unfold unread_but. rewrite add_message_tally by done.
    rewrite Hg, (Hu _ _ Hs), (E _ _ Hs). unfold counts_for at 2. rewrite bool_decide_eq_false_2 by (intros (x & Hx & _)%L; congruence).
    by rewrite andb_true_r.
  - intros k x Hx%lookup_add_message; [|done..]. destruct Hx as [[-> ->]|(_ & x0 & Hx0 & ->)]; [lia|].
    assert (Message.created_at x0 <= now) by (by eapply F). case_bool_decide; cbn; lia.
  - intros k s at_. rewrite lookup_seats_with. intros (s0 & Hs & ->)%fmap_Some. rewrite Hg. intros Ha.
    specialize (G _ _ _ Hs Ha). lia.
  - intros i (x & Hx & Hxl)%L. assert (Hne : i <> Message.id m) by congruence.
    unfold add_message. destruct (Message.thread_parent_id m) as [r|]; [|exists x; by rewrite lookup_insert_ne].
    destruct (decide (r = i)) as [->|]; [|exists x; by rewrite lookup_alter_ne, lookup_insert_ne].
    exists (Message.set_reply_count (Z.add 1) x). by rewrite lookup_alter_eq, lookup_insert_ne, Hx.
Qed.

(** *** A message is deleted *)

Definition without_message (now : Z) M (id : Uuid) : MessageMap :=
  match M !! id with
  | Some m => match Message.thread_parent_id m with
              | Some p => alter one_reply_less p (alter (Message.set_deleted now) id M)
              | None => alter (Message.set_deleted now) id M
              end
  | None => M
  end.

Lemma deleted_tally now p M id m : (forall x, p (one_reply_less x) = p x) -> M !! id = Some m ->
  tally p (without_message now M id) = tally p M - Z.b2z (p m) + Z.b2z (p (Message.set_deleted now m)).
Proof.
  intros Hp Hm. unfold without_message. rewrite Hm. destruct (Message.thread_parent_id m).
  - rewrite tally_alter_same by done. by apply tally_alter.
  - by apply tally_alter.
Qed.

Lemma lookup_without_message now M id m (k : Uuid) x : M !! id = Some m -> Message.thread_parent_id m <> Some id ->
  without_message now M id !! k = Some x ->
  (k = id /\ x = Message.set_deleted now m) \/
  (k <> id /\ exists x0, M !! k = Some x0 /\ x = (if bool_decide (Message.thread_parent_id m = Some k) then one_reply_less x0 else x0)).
Proof.
  intros Hm Hself. unfold without_message. rewrite Hm. intros Hx.
  assert (Hk : forall y, alter (Message.set_deleted now) id M !! k = Some y ->
    (k = id /\ y = Message.set_deleted now m) \/ (k <> id /\ M !! k = Some y)).
  { intros y. destruct (decide (k = id)) as [->|Hne]; [rewrite lookup_alter_eq, Hm|rewrite lookup_alter_ne by done]; cbn; [|auto].
    intros [= <-]. auto. }
  destruct (Message.thread_parent_id m) as [p|].
  - destruct (decide (p = k)) as [->|Hp].
    + rewrite lookup_alter_eq in Hx. apply fmap_Some in Hx as (y & Hy & ->). destruct (Hk _ Hy) as [[-> _]|[Hne Hy']]; [done|].
      right. split; [done|]. exists y. by rewrite bool_decide_eq_true_2.
    + rewrite lookup_alter_ne in Hx by done. destruct (Hk _ Hx) as [|[Hne Hy']]; [auto|]. right. split; [done|].
      exists x. by rewrite bool_decide_eq_false_2 by congruence.
  - destruct (Hk _ Hx) as [|[Hne Hy']]; [auto|]. right. split; [done|]. exists x. by rewrite bool_decide_eq_false_2.
Qed.

(** A message counts as long as no request is deleting it. *)
Lemma unread_but_one P M k s id m : M !! id = Some m -> (forall i x, M !! i = Some x -> Message.id x = i) -> id ∉ P ->
  unread_but P M k s = unread_but ({[id]} ∪ P) M k s + Z.b2z (unread_by k.1 k.2 (Seat.last_read_at s) m).
Proof.
  intros Hm Hids Hid. unfold unread_but. rewrite !(tally_delete _ M id m Hm). unfold counts_for at 2 4. rewrite (Hids _ _ Hm).
  rewrite bool_decide_eq_false_2 by done. rewrite bool_decide_eq_true_2 by set_solver. cbn. rewrite andb_true_r, andb_false_r. cbn.
  rewrite (tally_ext (counts_for P k.1 k.2 (Seat.last_read_at s)) (counts_for ({[id]} ∪ P) k.1 k.2 (Seat.last_read_at s))); [lia|].
  intros i x [Hne Hx]%lookup_delete_Some. unfold counts_for. rewrite (Hids _ _ Hx).
  rewrite (bool_decide_ext (i ∈ P) (i ∈ {[id]} ∪ P)) by set_solver. done.
Qed.

(** The first half of a deletion. *)
Lemma right_lowered P now M C id m g :
  right P now M C -> M !! id = Some m -> is_live m = true -> id ∉ P ->
  (forall k s, Seat.last_read_at (g k s) = Seat.last_read_at s) ->
  (forall k s, C !! k = Some s -> ChannelMember.unread_count (g k s) =
     ChannelMember.unread_count s - Z.b2z (unread_by k.1 k.2 (Seat.last_read_at s) m)) ->
  right ({[id]} ∪ P) now M (seats_with g C).
Proof.
  intros [A B D E F G L] Hm Hl Hid Hg Hu. split; try done.
  - intros k s. rewrite lookup_seats_with. intros (s0 & Hs & ->)%fmap_Some. rewrite (Hu _ _ Hs), (E _ _ Hs).
    rewrite (unread_but_one P M k s0 id m) by done. unfold unread_but. rewrite Hg. lia.
  - intros k s at_. rewrite lookup_seats_with. intros (s0 & Hs & ->)%fmap_Some. rewrite Hg. intros Ha. exact (G _ _ _ Hs Ha).
  - intros i [->%elem_of_singleton|Hi]%elem_of_union; [by exists m|by apply L].
Qed.

(** And the second. *)
Lemma right_without P now M C id m :
  right P now M C -> M !! id = Some m -> is_live m = true -> id ∈ P ->
  right (P ∖ {[id]}) now (without_message now M id) C.
Proof.
  intros [A B D E F G L] Hm Hl Hid.
  assert (Hself : Message.thread_parent_id m <> Some id) by (intros Hs; by destruct (B _ _ _ Hm Hs)).
  assert (Hsome : forall p, is_Some (M !! p) -> is_Some (without_message now M id !! p)).
  { intros p Hp. unfold without_message. rewrite Hm. destruct (Message.thread_parent_id m); by rewrite !lookup_alter_is_Some. }
  assert (Hdead : forall q x, is_live (Message.set_deleted q x) = false) by done.
  split.
  - intros k x Hx%(lookup_without_message _ _ _ m); [|done..]. destruct Hx as [[-> ->]|(_ & x0 & Hx0 & ->)]; [cbn; by apply A|].
    case_bool_decide; cbn; by apply A.
  - intros k x p Hx%(lookup_without_message _ _ _ m) Hpx; [|done..].
    assert (Hp0 : exists x0, M !! k = Some x0 /\ Message.thread_parent_id x0 = Some p).
    { destruct Hx as [[-> ->]|(_ & x0 & Hx0 & ->)]; [by exists m|]. exists x0. by case_bool_decide. }
    destruct Hp0 as (x0 & Hx0 & Hp0). destruct (B _ _ _ Hx0 Hp0). auto.
  - intros k x Hx%(lookup_without_message _ _ _ m); [|done..]. rewrite (deleted_tally _ _ _ _ m) by done.
    assert (Hbits : Z.b2z (replies k m) = Z.b2z (bool_decide (Message.thread_parent_id m = Some k)) /\
                    Z.b2z (replies k (Message.set_deleted now m)) = 0).
    { unfold replies. rewrite Hl, Hdead, andb_false_r, andb_true_r. done. }
    destruct Hbits as [Hb ->]. pose proof (tally_delete (replies k) M id m Hm) as Ht. pose proof (tally_nonneg (replies k) (delete id M)).
    destruct Hx as [[-> ->]|(Hne & x0 & Hx0 & ->)].
    + rewrite Hb, bool_decide_eq_false_2 by done. cbn. rewrite (D _ _ Hm). lia.
    + rewrite Hb in *. case_bool_decide; cbn in *; rewrite (D _ _ Hx0); lia.
  - intros k s Hs. rewrite (E _ _ Hs). assert (Hsplit : {[id]} ∪ P ∖ {[id]} = P) by (apply leibniz_equiv; set_unfold; intros i; destruct (decide (i = id)); naive_solver).
    pose proof (unread_but_one (P ∖ {[id]}) M k s id m Hm A ltac:(set_solver)) as Hone. rewrite Hsplit in Hone.
    unfold unread_but in *. rewrite (deleted_tally _ (counts_for (P ∖ {[id]}) k.1 k.2 (Seat.last_read_at s)) _ _ m) by done.
    assert (counts_for (P ∖ {[id]}) k.1 k.2 (Seat.last_read_at s) (Message.set_deleted now m) = false) as ->.
    { unfold counts_for, unread_by. by rewrite Hdead, andb_false_r. }
    unfold counts_for at 3. rewrite (A _ _ Hm), bool_decide_eq_false_2 by set_solver. cbn. rewrite andb_true_r. lia.
  - intros k x Hx%(lookup_without_message _ _ _ m); [|done..]. destruct Hx as [[-> ->]|(_ & x0 & Hx0 & ->)]; [exact (F _ _ Hm)|].
    case_bool_decide; exact (F _ _ Hx0).
  - exact G.
  - intros i [(x & Hx & Hxl)%L Hne%not_elem_of_singleton]%elem_of_difference. unfold without_message. rewrite Hm.
    assert (Hi : alter (Message.set_deleted now) id M !! i = Some x) by by rewrite lookup_alter_ne.
    destruct (Message.thread_parent_id m) as [p|]; [|by exists x]. destruct (decide (p = i)) as [->|]; [|exists x; by rewrite lookup_alter_ne].
    exists (one_reply_less x). by rewrite lookup_alter_eq, Hi.
Qed.

(** *** Seats alone *)

Lemma right_seats P now M C C' :
  right P now M C ->
  (forall k s, C' !! k = Some s -> ChannelMember.unread_count s = unread_but P M k s /\
     forall at_, Seat.last_read_at s = Some at_ -> at_ <= now) ->
  right P now M C'.
Proof. intros [A B D E F G L] Hs. split; try done; intros k s; [apply Hs|]. intros at_ Hk Ha. exact (proj2 (Hs _ _ Hk) _ Ha). Qed.

Lemma right_one_seat P now M C k s :
  right P now M C -> ChannelMember.unread_count s = unread_but P M k s -> (forall at_, Seat.last_read_at s = Some at_ -> at_ <= now) ->
  right P now M (<[k := s]> C).
Proof.
  intros HR Hu Ha. apply (right_seats _ _ _ C); [done|]. intros k' s'. rewrite lookup_insert_Some.
  intros [[<- <-]|[_ Hs]]; [done|]. split; [by eapply right_counts|]. intros at_ Hat. by eapply right_read.
Qed.

(** Nothing is unread for somebody who read now. *)
Lemma unread_read_to P now M C k b s : right P now M C -> unread_but P M k (read_to now b s) = 0.
Proof.
  intros HR. apply tally_none. intros i m Hm. unfold counts_for, unread_by. cbn. apply andb_false_iff. left.
  apply andb_false_iff. right. apply Z.ltb_ge. by eapply right_past.
Qed.
End counters.

(** ** What a statement changes *)

Section fields.
Implicit Types (t : AppTables) (mt : MessageTables).
Lemma app_with (f : AppTables -> AppTables) (d : ApiDb) : app (with_app f d) = f (app d).
Proof. done. Qed.
Lemma tables_set f t : message_tables (set_message_tables f t) = f (message_tables t).
Proof. by destruct t. Qed.
Lemma seats_set_tables f t : channel_members (set_message_tables f t) = channel_members t.
Proof. by destruct t. Qed.
Lemma tables_set_seats f t : message_tables (set_channel_members f t) = message_tables t.
Proof. by destruct t. Qed.
Lemma seats_set f t : channel_members (set_channel_members f t) = f (channel_members t).
Proof. by destruct t. Qed.
Lemma messages_set f mt : messages (set_messages f mt) = f (messages mt).
Proof. by destruct mt. Qed.
Lemma messages_set_edits f mt : messages (set_message_edits f mt) = messages mt.
Proof. by destruct mt. Qed.
Lemma messages_set_reactions f mt : messages (set_reactions f mt) = messages mt.
Proof. by destruct mt. Qed.
Lemma messages_set_follows f mt : messages (set_thread_follows f mt) = messages mt.
Proof. by destruct mt. Qed.
Lemma messages_set_files f mt : messages (set_files f mt) = messages mt.
Proof. by destruct mt. Qed.
Lemma messages_set_notifications f mt : messages (set_notifications f mt) = messages mt.
Proof. by destruct mt. Qed.
End fields.

Create Rewrite HintDb msg_rw.
#[export] Hint Rewrite app_with tables_set seats_set_tables tables_set_seats seats_set messages_set messages_set_edits
  messages_set_reactions messages_set_follows messages_set_files messages_set_notifications : msg_rw.

Lemma message_read_Ok {A} (q : MessageTables -> A) (d : ApiDb) a d' :
  message_read q d = (Ok a, d') <-> a = q (message_tables (app d)) /\ d' = d.
Proof. apply read_Ok. Qed.
Lemma message_run_Ok f (d : ApiDb) a d' : message_run f d = (Ok a, d') <-> d' = with_app (set_message_tables f) d.
Proof. apply run_Ok. Qed.

(** Opens the statements that ran, tables of messages included. *)
Ltac inv_msg :=
  repeat (progress inv_tx || match goal with
  | E : message_read _ _ = (Ok _, _) |- _ => apply message_read_Ok in E as [? ?]; subst
  | E : message_run _ _ = (Ok _, _) |- _ => apply message_run_Ok in E; subst
  | E : tx_require _ _ _ = (Ok _, _) |- _ => apply tx_require_Ok in E as [? ?]; subst
  | E : drawn _ _ = (Ok _, _) |- _ => apply drawn_Ok in E as [? ?]; subst
  | E : unique_violation _ = (Ok _, _) |- _ => apply tx_fail_Ok in E as []
  end).

Abbreviation holds P n d := (right P n (Mt d) (Cm d)).

Section statements.
#[local] Set Default Proof Using "Type".
Context `{UuidText} (draw : ApiDb -> Uuid) (now : Z).
Implicit Types (P : gset Uuid) (d : ApiDb) (m : Message.t).

Lemma insert_message_Ok row d o d' : insert_message draw row d = (Ok o, d') ->
  match o with
  | None => d' = d
  | Some m => m = row (draw d) /\ Mt d !! draw d = None /\
      client_id_taken (Message.channel_id m) (Message.client_message_id m) (message_tables (app d)) = false /\
      message_refers m (app d) = true /\ d' = with_app (set_message_tables (put_message m)) d
  end.
Proof.
  unfold insert_message. intros E. inv_msg.
  - done.
  - match goal with E : false = _ |- _ => symmetry in E end. bool_hyps. match goal with E : ~ is_Some _ |- _ => apply eq_None_not_Some in E end. by split_and!.
Qed.

Lemma update_seats_eq p f t : channel_members (update_seats p f t) = seats_with (fun k s => if p k s then f k s else s) (channel_members t).
Proof. unfold update_seats, seats_with. by autorewrite with msg_rw. Qed.

(** Whether a message that is sent counts in the channel is whether its row
    says so. *)
Lemma sent_in_feed also forwarded parent u client content ch id :
  in_feed (new_row_of now ch u client content (sent_metadata (also && bool_decide (is_Some parent)) forwarded) parent id) =
  bool_decide (parent = None) || also.
Proof.
  unfold in_feed, new_row_of. cbn. destruct parent as [p|]; cbn; [|done].
  destruct also, forwarded; reflexivity.
Qed.

Lemma create_message_in_Ok new d o d' : create_message_in draw now new d = (Ok o, d') ->
  match o with
  | None => d' = d
  | Some m =>
      m = new_row_of now (NewMessage.channel_id new) (NewMessage.user_id new) (NewMessage.client_message_id new) (NewMessage.content new)
            (sent_metadata (NewMessage.also_in_channel new && bool_decide (is_Some (NewMessage.thread_parent_id new)))
               (NewMessage.forwarded_from new)) (NewMessage.thread_parent_id new) (draw d) /\
      Mt d !! Message.id m = None /\
      client_id_taken (Message.channel_id m) (Message.client_message_id m) (message_tables (app d)) = false /\
      (forall p, Message.thread_parent_id m = Some p -> is_Some (Mt d !! p)) /\
      Mt d' = add_message (Mt d) m /\
      Cm d' = seats_with (fun k s => if in_feed m && bool_decide (k.1 = Message.channel_id m) && negb (bool_decide (k.2 = Message.user_id m))
                                     then bump (NewMessage.mentioned new) k s else s) (Cm d) /\
      outbox d' = outbox d
  end.
Proof.
  unfold create_message_in. intros E. inv_msg. rename x into o1.
  match goal with E : insert_message _ _ _ = _ |- _ => apply insert_message_Ok in E; rename E into Hi end.
  destruct o1 as [m|]; [|by inv_msg]. destruct Hi as (-> & Hid & Hc & Href & ->).
  set (m := new_row_of _ _ _ _ _ _ _ _) in *.
  assert (Hf : bool_decide (NewMessage.thread_parent_id new = None) || NewMessage.also_in_channel new = in_feed m)
    by (symmetry; apply sent_in_feed).
  assert (Hp : forall p, Message.thread_parent_id m = Some p -> is_Some (Mt d !! p)).
  { intros p Hp. unfold message_refers in Href. rewrite Hp in Href. apply andb_true_iff in Href as [_ Href].
    by apply bool_decide_eq_true in Href. }
  apply tx_bind_Ok in E as (? & x1 & E1 & E). apply tx_bind_Ok in E as (? & x2 & E2 & E). rewrite Hf in E2.
  apply tx_ret_Ok in E as [-> ->].
  assert (Hd : Mt x1 = add_message (Mt d) m /\ Cm x1 = Cm d /\ outbox x1 = outbox d).
  { change (NewMessage.thread_parent_id new) with (Message.thread_parent_id m) in E1. unfold add_message, put_message in *.
    destruct (Message.thread_parent_id m); inv_msg; unfold one_more_reply, alter_message; by autorewrite with msg_rw. }
  destruct Hd as (HM & HC & Ho).
  assert (Hx : Mt x2 = Mt x1 /\ outbox x2 = outbox x1 /\ Cm x2 = seats_with (fun k s =>
    if in_feed m && bool_decide (k.1 = Message.channel_id m) && negb (bool_decide (k.2 = Message.user_id m))
    then bump (NewMessage.mentioned new) k s else s) (Cm x1)).
  { destruct (in_feed m); unfold bump_unread in *; inv_msg.
    - rewrite app_with, update_seats_eq. unfold update_seats. by autorewrite with msg_rw.
    - split_and!; [done..|]. apply map_eq. intros k. rewrite lookup_seats_with. by destruct (_ !! k). }
  destruct Hx as (HM2 & Ho2 & HC2). split_and!; try done; congruence.
Qed.

(** *** What each operation keeps *)

(** The counts of the seats a new message bumps. *)
Lemma bump_unread_by mentioned ch u m k s :
  Message.channel_id m = ch -> Message.user_id m = u -> is_live m = true ->
  (forall at_, Seat.last_read_at s = Some at_ -> at_ < Message.created_at m) ->
  ChannelMember.unread_count (if in_feed m && bool_decide (k.1 = ch) && negb (bool_decide (k.2 = u)) then bump mentioned k s else s) =
  ChannelMember.unread_count s + Z.b2z (unread_by k.1 k.2 (Seat.last_read_at s) m).
Proof.
  intros Hc Hu Hl Hr. unfold unread_by. rewrite Hc, Hu, Hl.
  rewrite (bool_decide_ext (ch = k.1) (k.1 = ch)), (bool_decide_ext (u = k.2) (k.2 = u)) by done.
  assert (match Seat.last_read_at s with Some at_ => at_ <? Message.created_at m | None => true end = true) as ->.
  { destruct (Seat.last_read_at s) as [a|]; [apply Z.ltb_lt; by apply Hr|done]. }
  destruct (in_feed m), (bool_decide (k.1 = ch)), (bool_decide (k.2 = u)); cbn; lia.
Qed.

Lemma add_seat_read m mentioned k s :
  Seat.last_read_at (if in_feed m && bool_decide (k.1 = Message.channel_id m) && negb (bool_decide (k.2 = Message.user_id m))
                     then bump mentioned k s else s) = Seat.last_read_at s.
Proof. by destruct (_ && _). Qed.

Lemma create_message_in_right P before new d o d' : before < now -> holds P before d ->
  create_message_in draw now new d = (Ok o, d') -> holds P now d'.
Proof.
  intros Hn HR E%create_message_in_Ok. destruct o as [m|]; [|subst; apply (right_mono _ before); [lia|done]].
  destruct E as (Hm & Hid & _ & Hp & -> & -> & _). assert (Ht : Message.created_at m = now) by by subst m.
  assert (Hl : is_live m = true) by by subst m.
  apply (right_add _ before); try done; [lia|by subst m|intros k s; apply add_seat_read|].
  intros k s Hs. apply bump_unread_by; try done. intros at_ Ha. rewrite Ht. pose proof (right_read _ _ _ _ HR _ _ _ Hs Ha). lia.
Qed.

Lemma create_bot_message_in_right P before ch u content metadata mentioned d m d' : before < now -> holds P before d ->
  create_bot_message_in draw now ch u content metadata mentioned d = (Ok m, d') -> holds P now d'.
Proof.
  intros Hn HR E. unfold create_bot_message_in, or_violation in E. inv_msg.
  match goal with E : insert_message _ _ _ = _ |- _ => apply insert_message_Ok in E; rename E into Hi end.
  destruct x as [m'|]; [|by inv_msg]. destruct Hi as (Hm' & Hid & _ & Href & ->). unfold bump_unread in *. inv_msg.
  rewrite app_with, update_seats_eq. unfold update_seats, put_message. autorewrite with msg_rw.
  assert (Ha : add_message (Mt d) (new_row_of now ch u None content metadata None (draw d)) =
    <[Message.id (new_row_of now ch u None content metadata None (draw d)) := new_row_of now ch u None content metadata None (draw d)]> (Mt d))
    by done.
  rewrite <-Ha. apply (right_add _ before); try done; [lia|intros k s; by case_match|].
  intros k s Hs. apply (bump_unread_by mentioned ch u (new_row_of now ch u None content metadata None (draw d))); try done.
  cbn. intros at_ Hat.
  pose proof (right_read _ _ _ _ HR _ _ _ Hs Hat). lia.
Qed.

Lemma change_message_right P f id d m d' : inert f -> (forall m, Message.reply_count (f m) = Message.reply_count m) -> holds P now d ->
  change_message f id d = (Ok m, d') -> holds P now d' /\ Cm d' = Cm d /\ exists m0, Mt d !! id = Some m0 /\ m = f m0.
Proof.
  intros Hf Hr HR E. unfold change_message in E. inv_msg. unfold alter_message in *. autorewrite with msg_rw in *.
  split_and!; [by apply right_inert|done|]. match goal with E : _ = Some m |- _ => rewrite lookup_alter_eq in E; apply fmap_Some in E end.
  naive_solver.
Qed.

Lemma update_message_in_right P id content u d m d' : holds P now d ->
  update_message_in draw now id content u d = (Ok m, d') -> holds P now d'.
Proof.
  intros HR E. unfold update_message_in in E. inv_msg.
  match goal with E : insert_edit _ _ _ _ _ = _ |- _ => rename E into Ei end.
  match goal with E : change_message _ _ _ = _ |- _ => apply (change_message_right P) in E; [tauto|apply set_content_inert|done|] end.
  unfold prune_edits. autorewrite with msg_rw. unfold insert_edit in Ei. inv_msg.
  destruct (Mt d !! id); inv_msg; autorewrite with msg_rw; done.
Qed.

Lemma soft_delete_messages id mt : messages (soft_delete now id mt).1 =
  match find_message id mt with Some _ => without_message now (messages mt) id | None => messages mt end.
Proof.
  unfold soft_delete, find_message, without_message. destruct (messages mt !! id) as [m|]; [|done]. cbn.
  destruct (is_live m); [|done]. destruct (Message.thread_parent_id m); cbn; unfold alter_message; by autorewrite with msg_rw.
Qed.

(** The two halves of deleting a message, which a request runs one after the
    other, in transactions of their own. *)
Lemma lowered_right P id m d d1 : holds P now d -> Mt d !! id = Some m -> is_live m = true -> id ∉ P ->
  drop_unread_for_message (Message.channel_id m) id (Message.user_id m) d = (Ok tt, d1) -> holds ({[id]} ∪ P) now d1.
Proof.
  intros HR Hm Hl Hid E1. unfold drop_unread_for_message in E1. inv_msg. rewrite Hm in E1.
  assert (H1 : message_tables (app d1) = message_tables (app d) /\ Cm d1 =
    seats_with (fun k s => if in_feed m && (bool_decide (k.1 = Message.channel_id m) && negb (bool_decide (k.2 = Message.user_id m)) &&
       not_read_at (Message.created_at m) s) then lower k s else s) (Cm d)).
  { destruct (in_feed m); inv_msg.
    - rewrite app_with, update_seats_eq. unfold update_seats. by autorewrite with msg_rw.
    - split; [done|]. apply map_eq. intros k. rewrite lookup_seats_with. by destruct (_ !! k). }
  destruct H1 as [H1 HC1]. rewrite H1, HC1.
  apply (right_lowered _ _ _ _ _ m); try done; [intros k s; by destruct (_ && _)|]. intros k s Hs.
  pose proof (right_counts _ _ _ _ HR _ _ Hs) as Hk. rewrite (unread_but_one P _ k s id m) in Hk; [|done|exact (right_ids _ _ _ _ HR)|done].
  pose proof (tally_nonneg (counts_for ({[id]} ∪ P) k.1 k.2 (Seat.last_read_at s)) (Mt d)).
  assert (Hb : unread_by k.1 k.2 (Seat.last_read_at s) m = in_feed m && (bool_decide (k.1 = Message.channel_id m) && negb (bool_decide (k.2 = Message.user_id m)) &&
       not_read_at (Message.created_at m) s)).
  { unfold unread_by, not_read_at. rewrite Hl, (bool_decide_ext (Message.channel_id m = k.1) (k.1 = Message.channel_id m)),
      (bool_decide_ext (Message.user_id m = k.2) (k.2 = Message.user_id m)) by done.
    destruct (bool_decide (k.1 = Message.channel_id m)), (in_feed m), (bool_decide (k.2 = Message.user_id m)); done. }
  unfold unread_but in *. rewrite <-Hb in *. destruct (unread_by _ _ _ m); cbn in *; lia.
Qed.
Lemma deleted_right P id d o d2 : holds P now d -> id ∈ P -> soft_delete_message_in now id d = (Ok o, d2) -> holds (P ∖ {[id]}) now d2.
Proof.
  intros HR Hid E. destruct (right_pending _ _ _ _ HR id Hid) as (m & Hm & Hl). unfold soft_delete_message_in in E. inv_msg.
  autorewrite with msg_rw. rewrite soft_delete_messages. unfold find_message. rewrite Hm. cbn. rewrite Hl. by apply (right_without _ _ _ _ _ m).
Qed.

Lemma mark_read_in_right P ch u message d o d' : holds P now d -> mark_read_in now ch u message d = (Ok o, d') -> holds P now d'.
Proof.
  intros HR E. unfold mark_read_in in E. inv_msg. destruct (Cm d !! (ch, u)) as [s|]; inv_msg; autorewrite with msg_rw; [|done].
  apply right_one_seat; [done|symmetry; by eapply unread_read_to|]. intros at_ [= <-]. lia.
Qed.

Lemma read_seats_right P u (l : list (Uuid * (ChannelMember.t * Uuid))) M C : right P now M C ->
  right P now M (foldr (fun s C => <[(s.1, u) := read_to now (Some s.2.2) s.2.1]> C) C l).
Proof.
  intros HR. induction l as [|x l IH]; cbn; [done|]. apply right_one_seat; [done|symmetry; by eapply unread_read_to|].
  intros at_ [= <-]. lia.
Qed.

Lemma mark_workspace_read_in_right P ws u d l d' : holds P now d -> mark_workspace_read_in now ws u d = (Ok l, d') -> holds P now d'.
Proof.
  intros HR E. unfold mark_workspace_read_in in E. inv_msg. autorewrite with msg_rw. by apply read_seats_right.
Qed.

Lemma mark_unread_in_right ch u message d o d' : holds ∅ now d -> mark_unread_in ch u message d = (Ok o, d') -> holds ∅ now d'.
Proof.
  intros HR E. unfold mark_unread_in in E. inv_msg. unfold find_message in E. destruct (Mt d !! message) as [n|] eqn:En; cbn in E; [|by inv_msg].
  destruct (is_live n); cbn in E; [|by inv_msg]. case_bool_decide; [|by inv_msg].
  destruct (Cm d !! (ch, u)) as [s|]; inv_msg; autorewrite with msg_rw; [|done]. apply right_one_seat; [done| |].
  - rewrite unread_but_none. cbn. unfold unread_in. cbn. apply tally_ext. intros k m _. unfold from_on, unread_by.
    rewrite (andb_comm _ (Message.created_at n <=? Message.created_at m)).
    assert ((Message.created_at n <=? Message.created_at m) = (Message.created_at n - 1 <? Message.created_at m)) as ->.
    { destruct (Z.leb_spec (Message.created_at n) (Message.created_at m)), (Z.ltb_spec (Message.created_at n - 1) (Message.created_at m)); done || lia. }
    destruct (bool_decide (Message.channel_id m = Message.channel_id n)), (is_live m), (in_feed m), (bool_decide (Message.user_id m = u)),
      (Message.created_at n - 1 <? Message.created_at m); done.
  - intros at_ [= <-]. pose proof (right_past _ _ _ _ HR _ _ En). lia.
Qed.

Lemma reconcile_seats hours d n d' : reconcile_unread_counts now hours d = (Ok n, d') ->
  Mt d' = Mt d /\ n = Z.of_nat (size (filter (fun p => drifted now hours (app d) p.1 p.2 = true) (Cm d))) /\
  Cm d' = seats_with (fun k s => if drifted now hours (app d) k s then recount (app d) k s else s) (Cm d).
Proof.
  intros E. unfold reconcile_unread_counts in E. inv_msg. rewrite app_with, update_seats_eq. unfold update_seats. by autorewrite with msg_rw.
Qed.

Lemma reconcile_right hours d n d' : holds ∅ now d -> reconcile_unread_counts now hours d = (Ok n, d') -> holds ∅ now d'.
Proof.
  intros HR (HM & _ & HC)%reconcile_seats. rewrite HM, HC. apply (right_seats _ _ _ (Cm d)); [done|]. intros k s.
  rewrite lookup_seats_with. intros (s0 & Hs & ->)%fmap_Some. destruct (drifted _ _ _ k s0).
  - split; [by rewrite unread_but_none|]. intros at_ Ha. by eapply right_read.
  - split; [by eapply right_counts|]. intros at_ Ha. by eapply right_read.
Qed.

(** ** Histories *)

(** What requests and jobs do to messages and seats, a transaction each: a
    request to delete a message first lowers the counts, then deletes. *)
Inductive change :=
| Sent (new : NewMessage.t)
| BotSent (channel user : Uuid) (content : str) (metadata : json) (mentioned : list Uuid)
| Edited (message : Uuid) (content : str) (editor : Uuid)
| Lowered (message : Uuid)
| Deleted (message : Uuid)
| Pinned (message : Uuid) (pinned : bool)
| Attached (message : Uuid) (attachments : json)
| Reacted (message user : Uuid) (emoji : str)
| Unreacted (message user : Uuid) (emoji : str)
| Followed (reply : ReplyFollows.t)
| ReadUpTo (channel user message : Uuid)
| ReadAll (workspace user : Uuid)
| MarkedUnread (channel user message : Uuid)
| Reconciled (since_hours : Z).
End statements.

Definition drop_result {A} (m : Tx ApiDb A) : Tx ApiDb unit := _ ← m; mret tt.

Definition apply_change `{UuidText} (draw : ApiDb -> Uuid) (now : Z) (c : change) : Tx ApiDb unit :=
  match c with
  | Sent new => drop_result (create_message_in draw now new)
  | BotSent ch u content metadata mentioned => drop_result (create_bot_message_in draw now ch u content metadata mentioned)
  | Edited id content editor => drop_result (update_message_in draw now id content editor)
  | Lowered id =>
      m ← message_read (find_message id);
      m ← tx_require (NotFound ($"Message not found")) m;
      drop_unread_for_message (Message.channel_id m) id (Message.user_id m)
  | Deleted id => drop_result (soft_delete_message_in now id)
  | Pinned id b => drop_result (set_pinned_in id b)
  | Attached id a => drop_result (set_attachments_in id a)
  | Reacted id u emoji => drop_result (add_reaction_in draw now id u emoji)
  | Unreacted id u emoji => remove_reaction_in id u emoji
  | Followed f => follow_on_reply_in f
  | ReadUpTo ch u id => drop_result (mark_read_in now ch u id)
  | ReadAll ws u => drop_result (mark_workspace_read_in now ws u)
  | MarkedUnread ch u id => drop_result (mark_unread_in ch u id)
  | Reconciled hours => drop_result (reconcile_unread_counts now hours)
  end.

(** The messages that are being deleted after a change: a request has lowered
    the counts and not yet deleted the message. *)
Definition being_deleted (c : change) (P : gset Uuid) : gset Uuid :=
  match c with Lowered id => {[id]} ∪ P | Deleted id => P ∖ {[id]} | _ => P end.
(** No request deletes a message it has not found. *)
Definition may_happen (c : change) (P : gset Uuid) : bool := match c with Deleted id => bool_decide (id ∈ P) | _ => true end.

(** A history of transactions, each at its instant; one that is refused leaves
    nothing.  With the messages that are being deleted. *)
Fixpoint history `{UuidText} (draw : ApiDb -> Uuid) (l : list (Z * change)) (P : gset Uuid) (d : ApiDb) : gset Uuid * ApiDb :=
  match l with
  | [] => (P, d)
  | (now, c) :: l =>
      if may_happen c P then
        match apply_change draw now c d with
        | (Ok _, d') => history draw l (being_deleted c P) d'
        | (Err _, _) => history draw l P d
        end
      else history draw l P d
  end.

(** Nothing recounts while a message is being deleted, and nobody deletes it
    twice at once.  Everything else may come between. *)
Fixpoint orderly (Q : gset Uuid) (l : list change) : Prop :=
  match l with
  | [] => True
  | c :: l =>
      match c with
      | Lowered id => id ∉ Q
      | MarkedUnread _ _ _ | Reconciled _ => Q = ∅
      | _ => True
      end /\ orderly (being_deleted c Q) l
  end.

Section histories.
Context `{UuidText} (draw : ApiDb -> Uuid).

Lemma drop_result_Ok {A} (m : Tx ApiDb A) d r d' : drop_result m d = (Ok r, d') -> exists a, m d = (Ok a, d').
Proof. unfold drop_result. intros E. inv_tx. eauto. Qed.

Lemma apply_change_right P before now c d r d' : before < now -> holds P before d -> may_happen c P = true -> orderly P [c] ->
  apply_change draw now c d = (Ok r, d') -> holds (being_deleted c P) now d'.
Proof.
  intros Hn HR Hmay [Ho _] E. assert (HR' : holds P now d) by (apply (right_mono _ before); [lia|done]).
  destruct c; cbn [apply_change being_deleted] in *; try (apply drop_result_Ok in E as [a E]).
  - by eapply create_message_in_right.
  - by eapply create_bot_message_in_right.
  - by eapply update_message_in_right.
  - inv_msg. destruct r. match goal with E : find_message _ _ = Some ?m |- _ => rename E into Em; rename m into m1 end.
    unfold find_message in Em. apply bind_Some in Em as (m0 & Hm & Hl). destruct (is_live m0) eqn:El; [|done]. injection Hl as ->.
    by eapply lowered_right.
  - apply bool_decide_eq_true in Hmay. by eapply deleted_right.
  - by apply (change_message_right now P) in E as [? _]; [|apply set_pinned_inert| |].
  - by apply (change_message_right now P) in E as [? _]; [|apply set_attachments_inert| |].
  - unfold add_reaction_in in E. inv_msg; autorewrite with msg_rw; done.
  - unfold remove_reaction_in, unreact in E. inv_msg. by autorewrite with msg_rw.
  - unfold follow_on_reply_in, follows_run in E. inv_msg; autorewrite with msg_rw; done.
  - by eapply mark_read_in_right.
  - by eapply mark_workspace_read_in_right.
  - subst P. by eapply mark_unread_in_right.
  - subst P. by eapply reconcile_right.
Qed.

(** Fewer messages being deleted only allows more. *)
Lemma orderly_fewer P Q l : P ⊆ Q -> orderly Q l -> orderly P l.
Proof.
  revert P Q. induction l as [|c l IH]; intros P Q HPQ; cbn; [done|]. intros [Hc Hl]. split; [destruct c; set_solver|].
  eapply IH; [|exact Hl]. destruct c; cbn; set_solver.
Qed.
Lemma history_right before (l : list (Z * change)) P d : StronglySorted Z.lt (before :: l.*1) -> orderly P l.*2 -> holds P before d ->
  exists now, holds (history draw l P d).1 now (history draw l P d).2.
Proof.
  revert before P d. induction l as [|[now c] l IH]; intros before P d Hs Ho HR; [by exists before|]. cbn [history].
  apply StronglySorted_inv in Hs as [Hs Hlt]. apply Forall_cons in Hlt as [Hlt _]. cbn in Hlt, Ho. destruct Ho as [Hc Ho].
  assert (Hstay : holds P now d) by (apply (right_mono _ before); [lia|done]).
  destruct (may_happen c P) eqn:Em.
  - destruct (apply_change draw now c d) as [[r|e] d'] eqn:E; [eapply IH; [exact Hs|exact Ho|by eapply apply_change_right]|].
    eapply IH; [exact Hs| |exact Hstay]. destruct c; try exact Ho; cbn in Ho; [eapply orderly_fewer; [|exact Ho]; set_solver|].
    unfold apply_change, drop_result, soft_delete_message_in in E. cbn in E. by repeat case_match.
  - destruct c; try discriminate Em. apply bool_decide_eq_false in Em. eapply IH; [exact Hs| |exact Hstay]. cbn in Ho.
    by rewrite difference_disjoint_L in Ho by set_solver.
Qed.

(** C4: Counters follow the messages.  However sending, editing, deleting,
    pinning and reading requests follow one another, a transaction at a time,
    each later than the one before, and whichever are refused, a message counts exactly its live replies, and
    the row of every member counts exactly the messages of others that the
    member has not read, but for those a request is deleting: it lowers the
    counts in one transaction and deletes in the next.  Anything may come
    between the two but a second deletion of the same message and what counts
    anew (the reconciler, and marking as unread); when no deletion is half
    done, the counts are those the reconciler would count.  A lowering that is
    lost, after which the request deletes all the same, is left out, as are two
    deletions of one message at once: [two_deletions_at_once_lower_twice]. *)
Theorem counters_follow_the_messages (before : Z) (l : list (Z * change)) (d : ApiDb) :
  StronglySorted Z.lt (before :: l.*1) -> orderly ∅ l.*2 -> holds ∅ before d ->
  let '(P, d') := history draw l ∅ d in let t := app d' in
  (forall id m, messages (message_tables t) !! id = Some m ->
     Message.reply_count m = count_if (fun r => bool_decide (Message.thread_parent_id r = Some id) && is_live r) (message_tables t)) /\
  (forall k s, channel_members t !! k = Some s -> ChannelMember.unread_count s = unread_but P (messages (message_tables t)) k s) /\
  (P = ∅ -> forall k s, channel_members t !! k = Some s -> ChannelMember.unread_count s = truth t k s /\
     forall now hours, drifted now hours t k s = false).
Proof.
  intros Hs Ho HR. pose proof (history_right before l ∅ d Hs Ho HR) as [now HR']. destruct (history draw l ∅ d) as [P d'].
  cbn [fst snd] in HR'. cbv zeta. split_and!.
  - intros id m Hm. exact (right_replies _ _ _ _ HR' _ _ Hm).
  - intros k s Hk. exact (right_counts _ _ _ _ HR' _ _ Hk).
  - intros -> k s Hk. pose proof (right_counts _ _ _ _ HR' _ _ Hk) as Hc. rewrite unread_but_none in Hc. split; [exact Hc|].
    intros n hours. unfold drifted. rewrite Hc. assert ((unread_in (Mt d') k s =? truth (app d') k s) = true) as -> by (apply Z.eqb_eq; reflexivity).
    apply andb_false_r.
Qed.
End histories.

(** ** The reconciler *)

Section reconciler.
Context `{UuidText} (draw : ApiDb -> Uuid).

Lemma drifted_same now hours (t t' : AppTables) k s s' :
  messages (message_tables t') = messages (message_tables t) -> channels t' = channels t ->
  Seat.last_read_at s' = Seat.last_read_at s -> ChannelMember.unread_count s' = ChannelMember.unread_count s ->
  drifted now hours t' k s' = drifted now hours t k s.
Proof.
  intros HM HC Ha Hu. unfold drifted, recent, truth, unread_truth, count_if, all_messages. by rewrite HM, HC, Ha, Hu.
Qed.
Lemma drifted_recount now hours t t' k s :
  messages (message_tables t') = messages (message_tables t) -> drifted now hours t' k (recount t k s) = false.
Proof.
  intros HM. unfold drifted. assert (ChannelMember.unread_count (recount t k s) = truth t' k (recount t k s)) as ->.
  { cbn. unfold truth, unread_truth, count_if, all_messages. by rewrite HM. }
  rewrite Z.eqb_refl. apply andb_false_r.
Qed.

(** C14: The reconciler restores the counts.  From any state, however wrong, a
    run of the reconciler succeeds and reports how many seats of the recent
    channels counted wrong; afterwards none does, each of them counts what its
    member has not read, every other seat, and all else a seat keeps, is as it
    was, and a second run corrects nothing. *)
Theorem reconciling_restores_the_counts (now hours : Z) (d : ApiDb) :
  exists n d', reconcile_unread_counts now hours d = (Ok n, d') /\
    n = Z.of_nat (size (filter (fun p => drifted now hours (app d) p.1 p.2 = true) (Cm d))) /\
    Mt d' = Mt d /\
    (forall k, Cm d' !! k = (fun s => if drifted now hours (app d) k s then recount (app d) k s else s) <$> Cm d !! k) /\
    (forall k s, Cm d !! k = Some s -> drifted now hours (app d) k s = true ->
       exists s', Cm d' !! k = Some s' /\ ChannelMember.unread_count s' = unread_in (Mt d) k s) /\
    (forall k s, Cm d' !! k = Some s -> drifted now hours (app d') k s = false) /\
    reconcile_unread_counts now hours d' = (Ok 0, d').
Proof.
  destruct (reconcile_unread_counts now hours d) as [[n|e] d'] eqn:E; [|discriminate E].
  assert (Hch : channels (app d') = channels (app d)).
  { unfold reconcile_unread_counts in E. inv_msg. rewrite app_with. unfold update_seats, set_channel_members. by destruct (app d). }
  pose proof (reconcile_seats now hours d n d' E) as (HM & Hn & HC). exists n, d'.
  assert (Hnone : forall k s, Cm d' !! k = Some s -> drifted now hours (app d') k s = false).
  { intros k s. rewrite HC, lookup_seats_with. intros (s0 & Hs & ->)%fmap_Some. destruct (drifted now hours (app d) k s0) eqn:Ed.
    - by apply drifted_recount.
    - by rewrite (drifted_same now hours (app d) (app d') k s0 s0) by done. }
  split_and!; try done.
  - intros k. by rewrite HC, lookup_seats_with.
  - intros k s Hs Hdr. exists (recount (app d) k s). by rewrite HC, lookup_seats_with, Hs; cbn; rewrite Hdr.
  - unfold reconcile_unread_counts, read, tx_read, run, tx_query, mbind, Tx_bind, mret, Tx_ret. cbn.
    assert (filter (fun p => drifted now hours (app d') p.1 p.2 = true) (Cm d') = ∅) as ->.
    { apply map_empty. intros k. apply map_lookup_filter_None. right. intros s Hs. cbn. by rewrite (Hnone _ _ Hs). }
    rewrite map_size_empty. f_equal. destruct d' as [a b c0 e f ap]. unfold with_app. cbn in *. f_equal.
    unfold update_seats, set_channel_members. destruct ap. cbn in *. f_equal. apply map_eq. intros k. rewrite map_lookup_imap.
    destruct (channel_members !! k) as [s|] eqn:Es; [|done]. cbn. by rewrite (Hnone _ _ Es).
Qed.

(** The reconciler tells a newcomer of the history.  Somebody who takes a
    seat in a channel starts with nothing unread; at the next run of the
    reconciler, in a channel somebody wrote in lately, every message others
    ever wrote there becomes unread for them. *)
Theorem a_newcomer_is_told_of_the_history (joined now hours : Z) (ch u : Uuid) (role : ChannelRole.t) (s : ChannelMember.t) (d d1 : ApiDb) :
  add_channel_member_tx joined ch u role d = (Ok (Some s), d1) -> recent now hours ch (app d) = true ->
  ChannelMember.unread_count s = 0 /\ Cm d1 !! (ch, u) = Some s /\
  exists n d2 s', reconcile_unread_counts now hours d1 = (Ok n, d2) /\ Cm d2 !! (ch, u) = Some s' /\
    ChannelMember.unread_count s' = count_if (fun m => bool_decide (Message.channel_id m = ch) && is_live m && in_feed m &&
      negb (bool_decide (Message.user_id m = u))) (message_tables (app d)).
Proof.
  intros E Hr. unfold add_channel_member_tx in E. inv_tx; try discriminate.
  match goal with E : Some _ = Some _ |- _ => injection E as -> end. set (s := seat joined ch u role).
  set (d1 := with_app (set_channel_members <[(ch, u) := s]>) d).
  assert (Hs : Cm d1 !! (ch, u) = Some s) by (subst d1; autorewrite with msg_rw; apply lookup_insert_eq).
  assert (Ht : recent now hours ch (app d1) = true).
  { rewrite <-Hr. unfold recent. subst d1. autorewrite with msg_rw. by destruct (app d). }
  split_and!; [done|done|]. destruct (reconcile_unread_counts now hours d1) as [[n|e] d2] eqn:E2; [|discriminate E2].
  pose proof (reconcile_seats now hours d1 n d2 E2) as (_ & _ & HC). exists n, d2.
  eexists. split; [done|]. rewrite HC, lookup_seats_with, Hs. split; [reflexivity|].
  assert (Hk : ChannelMember.unread_count (if drifted now hours (app d1) (ch, u) s then recount (app d1) (ch, u) s else s) =
    truth (app d1) (ch, u) s).
  { unfold drifted. cbn [fst]. rewrite Ht. destruct (Z.eqb_spec (ChannelMember.unread_count s) (truth (app d1) (ch, u) s)); done. }
  rewrite Hk. unfold truth. subst d1. autorewrite with msg_rw. unfold unread_truth, unread_by. cbn.
  apply tally_ext. intros k m _. by rewrite andb_true_r.
Qed.
End reconciler.

(** ** A history *)

Module SampleHistory.
Definition draw (d : ApiDb) : Uuid := (1001 + N.of_nat (size (Mt d)))%N.
Definition said (u : Uuid) (content : str) (parent : option Uuid) : NewMessage.t :=
  {| NewMessage.channel_id := 30%N; NewMessage.user_id := u; NewMessage.content := content; NewMessage.thread_parent_id := parent;
     NewMessage.also_in_channel := false; NewMessage.forwarded_from := None; NewMessage.client_message_id := None; NewMessage.mentioned := [] |}.
Definition start : ApiDb := SampleMessages.db [] [SampleMessages.seat 1 0; SampleMessages.seat 2 0].
(** The second person reads the first message, a reply to it follows, then
    three messages of which one is deleted while the last is sent; a refused
    change is among them. *)
Definition changes : list (Z * change) :=
  [(10, Sent (said 1 ($"a") None)); (20, ReadUpTo 30%N 2%N 1001%N); (30, Sent (said 1 ($"re") (Some 1001%N)));
   (40, Sent (said 1 ($"b") None)); (50, Sent (said 1 ($"c") None)); (60, Edited 77%N ($"x") 1%N); (70, Lowered 1003%N); (80, Sent (said 1 ($"d") None)); (90, Deleted 1003%N)].
Definition finish : ApiDb := (history draw changes ∅ start).2.
End SampleHistory.

Lemma no_messages_right (before : Z) : holds ∅ before SampleHistory.start.
Proof.
  split.
  1, 3, 5: intros k m Hm; vm_compute in Hm; discriminate Hm.
  - intros k m q Hm. vm_compute in Hm. discriminate Hm.
  - intros k s Hs. vm_compute in Hs |- *. repeat case_match; by simplify_eq/=.
  - intros k s at_ Hs. vm_compute in Hs. repeat case_match; by simplify_eq/=.
  - set_solver.
Qed.
Lemma counters_follow_the_messages_witness :
  ChannelMember.unread_count <$> channel_members (app SampleHistory.finish) !! (30%N, 2%N) = Some 2 /\
  let '(P, d') := history SampleHistory.draw SampleHistory.changes ∅ SampleHistory.start in
  P = ∅ /\ forall k s, channel_members (app d') !! k = Some s -> ChannelMember.unread_count s = truth (app d') k s.
Proof.
  split; [vm_compute; reflexivity|].
  pose proof (@counters_follow_the_messages Outbox.SampleOutbox.uuid SampleHistory.draw 0 SampleHistory.changes SampleHistory.start
    ltac:(repeat constructor; cbn; lia) ltac:(cbn; repeat split; set_solver) (no_messages_right 0)) as H.
  assert (HP : (history SampleHistory.draw SampleHistory.changes ∅ SampleHistory.start).1 = ∅) by (vm_compute; reflexivity).
  destruct (history SampleHistory.draw SampleHistory.changes ∅ SampleHistory.start) as [P d']. cbn [fst] in HP.
  destruct H as (_ & _ & Hc). split; [exact HP|]. intros k s Hs. exact (proj1 (Hc HP k s Hs)).
Defined.

Lemma a_newcomer_is_told_of_the_history_witness :
  let d := SampleMessages.db [SampleMessages.message 51 1 10 ($"a") None; SampleMessages.message 52 1 20 ($"b") None] [SampleMessages.seat 1 0] in
  exists d1 n d2 s', add_channel_member_tx 30 30%N 2%N ChannelRole.Member d = (Ok (Some (seat 30 30%N 2%N ChannelRole.Member)), d1) /\
    reconcile_unread_counts 40 24 d1 = (Ok n, d2) /\ Cm d2 !! (30%N, 2%N) = Some s' /\ ChannelMember.unread_count s' = 2.
Proof.
  cbv zeta. set (d := SampleMessages.db _ _). destruct (add_channel_member_tx 30 30%N 2%N ChannelRole.Member d) as [r d1] eqn:E.
  assert (r = Ok (Some (seat 30 30%N 2%N ChannelRole.Member))) as -> by (vm_compute in E; by injection E as <- _).
  destruct (a_newcomer_is_told_of_the_history 30 40 24 30%N 2%N ChannelRole.Member _ d d1 E eq_refl) as (_ & _ & n & d2 & s' & ? & ? & Hs').
  exists d1, n, d2, s'. repeat split; [done|done|]. rewrite Hs'. reflexivity.
Defined.
