(* ===== verification/MessageReads.v ===== *)
(** * Reading messages back
    ([backend/api/src/messaging/{repo,routes}.rs])

    Earlier versions of a message, and the pages of a channel. *)

From stdpp Require Import base tactics option numbers list gmap sorting.
From Stdlib Require Import ZArith Lia String Ascii.
From S2P Require Import Prelude RustStr Json Errors ListStore ListInvariant MessageStore ApiState Outbox Tables Authz Membership ApiLaws Messaging MessageLaws.

(** ** Sorted tables *)

Section listing.
Context {A : Type} (le : relation A) `{!forall x y, Decision (le x y)} `{!Transitive le} `{!Total le} (key : A -> Uuid).
Context (le_key : forall x y, le x y -> le y x -> key x = key y).

(** Rows with distinct keys have one sorted order. *)
Lemma sorted_once (l l' : list A) : (forall x y, x ∈ l -> y ∈ l -> key x = key y -> x = y) ->
  l ≡ₚ l' -> StronglySorted le l -> StronglySorted le l' -> l = l'.
Proof.
  intros Hk Hp Hs Hs'. apply (StronglySorted_unique_strong le); [|done..].
  intros x y Hx Hy Hxy Hyx. apply Hk; [done|by rewrite Hp|by apply le_key].
Qed.

Lemma sorted_sort (l l' : list A) : (forall x y, x ∈ l -> y ∈ l -> key x = key y -> x = y) ->
  l ≡ₚ l' -> StronglySorted le l' -> merge_sort le l = l'.
Proof.
  intros Hk Hp Hs. apply sorted_once; [| |apply StronglySorted_merge_sort; apply _|done].
  - intros x y. rewrite !merge_sort_Permutation. apply Hk.
  - by rewrite merge_sort_Permutation.
Qed.
End listing.

Lemma StronglySorted_filter {A} (R : relation A) (P : A -> Prop) `{!forall x, Decision (P x)} (l : list A) :
  StronglySorted R l -> StronglySorted R (filter P l).
Proof.
  induction 1 as [|x l Hs IH Hx]; [constructor|]. rewrite filter_cons. case_decide; [|done].
  constructor; [done|]. apply Forall_forall. intros y [_ Hy]%list_elem_of_filter. by eapply Forall_forall.
Qed.
Lemma StronglySorted_take {A} (R : relation A) n (l : list A) : StronglySorted R l -> StronglySorted R (take n l).
Proof. intros Hs. rewrite <-(take_drop n l) in Hs. by apply StronglySorted_app in Hs as (_ & ? & _). Qed.

Lemma filter_none {A} (P : A -> Prop) `{!forall x, Decision (P x)} (l : list A) : (forall x, x ∈ l -> ~ P x) -> filter P l = [].
Proof.
  induction l as [|x l IH]; intros Hl; [done|]. rewrite filter_cons, decide_False by (apply Hl; by left).
  apply IH. intros y Hy. apply Hl. by right.
Qed.

(** ** Earlier versions *)

#[export] Instance edit_le_trans : Transitive edit_le.
Proof. unfold edit_le. intros x y z. lia. Qed.
#[export] Instance edit_le_total : Total edit_le.
Proof. unfold edit_le. intros x y. lia. Qed.

(** The table of earlier versions is keyed by their identifiers. *)
Definition keyed_edits (t : MessageTables) : Prop := forall k e, message_edits t !! k = Some e -> MessageEdit.id e = k.

Section edits.
Implicit Types (t : MessageTables) (e : MessageEdit.t).

Lemma edit_key e e' : edit_le e e' -> edit_le e' e -> MessageEdit.id e = MessageEdit.id e'.
Proof. unfold edit_le. lia. Qed.

Lemma elem_of_edits message t e : e ∈ list_edits message t <-> MessageEdit.message_id e = message /\ exists k, message_edits t !! k = Some e.
Proof. unfold list_edits. rewrite merge_sort_Permutation. apply (elem_of_rows (fun e => MessageEdit.message_id e = message)). Qed.

Lemma edits_distinct message t e e' : keyed_edits t -> e ∈ list_edits message t -> e' ∈ list_edits message t ->
  MessageEdit.id e = MessageEdit.id e' -> e = e'.
Proof.
  intros Hk [_ [k He]]%elem_of_edits [_ [k' He']]%elem_of_edits E. pose proof (Hk _ _ He). pose proof (Hk _ _ He'). congruence.
Qed.

Lemma rows_NoDup {A} (key : A -> Uuid) (P : A -> Prop) `{!forall x, Decision (P x)} (m : gmap Uuid A) :
  (forall k x, m !! k = Some x -> key x = k) -> NoDup (filter P (map_to_list m).*2).
Proof.
  intros Hm. apply NoDup_filter. apply (NoDup_fmap_1 key).
  assert (key <$> (map_to_list m).*2 = (map_to_list m).*1) as ->; [|apply NoDup_fst_map_to_list].
  rewrite <-list_fmap_compose. apply list_fmap_ext. intros i [k x] Hi. cbn. apply Hm, elem_of_map_to_list. by eapply list_elem_of_lookup_2.
Qed.

Lemma edits_NoDup message t : keyed_edits t -> NoDup (list_edits message t).
Proof. intros Hk. unfold list_edits. rewrite merge_sort_Permutation. by apply (rows_NoDup MessageEdit.id). Qed.

(** A list of the edits of a message in their order. *)
Lemma list_edits_eq message t l : keyed_edits t -> NoDup l -> StronglySorted edit_le l ->
  (forall e, e ∈ l <-> MessageEdit.message_id e = message /\ exists k, message_edits t !! k = Some e) -> list_edits message t = l.
Proof.
  intros Hk Hnd Hs Hl. apply (sorted_once edit_le MessageEdit.id edit_key); [| | |done].
  - intros x y. by apply edits_distinct.
  - apply NoDup_Permutation; [by apply edits_NoDup|done|]. intros e. by rewrite elem_of_edits, Hl.
  - apply StronglySorted_merge_sort; apply _.
Qed.

Lemma prune_lookup message t k e : keyed_edits t ->
  message_edits (prune_edits message t) !! k = Some e <->
  message_edits t !! k = Some e /\ (MessageEdit.message_id e = message -> e ∈ take MAX_STORED_EDITS (list_edits message t)).
Proof.
  intros Hk. unfold prune_edits, set_message_edits. destruct t as [ms es rs fs fi ns gs gm em ob]. cbn.
  rewrite map_lookup_filter_Some. cbn. set (t := Build_MessageTables _ _ _ _ _ _ _ _ _ _) in *.
  split; intros [He Hor]; (split; [done|]); intros Hm; specialize (Hor Hm).
  - apply list_elem_of_fmap in Hor as (e' & Ek & He'). assert (e' = e) as <-; [|done].
    apply (edits_distinct message t); [done| | |by rewrite <-Ek, (Hk _ _ He)].
    + eapply subseteq_take, He'.
    + apply elem_of_edits. split; [done|by exists k].
  - apply list_elem_of_fmap. exists e. by rewrite (Hk _ _ He).
Qed.

Lemma prune_keyed message t : keyed_edits t -> keyed_edits (prune_edits message t).
Proof. intros Hk k e [He _]%prune_lookup; [by apply Hk|done]. Qed.

Lemma prune_list message t : keyed_edits t -> list_edits message (prune_edits message t) = take MAX_STORED_EDITS (list_edits message t).
Proof.
  intros Hk. apply list_edits_eq; [by apply prune_keyed| | |].
  - eapply sublist_NoDup; [apply edits_NoDup, Hk|apply sublist_take].
  - apply StronglySorted_take, StronglySorted_merge_sort; apply _.
  - intros e. split.
    + intros He. assert (He' : e ∈ list_edits message t) by (eapply subseteq_take, He). apply elem_of_edits in He' as [Hm [k Hek]].
      split; [done|]. exists k. by apply prune_lookup.
    + intros [Hm [k [He Hor]%prune_lookup]]; auto.
Qed.

(** A version newer than all others comes first. *)
Lemma insert_edit_list message t id e : keyed_edits t -> message_edits t !! id = None -> MessageEdit.id e = id ->
  MessageEdit.message_id e = message -> (forall e', e' ∈ list_edits message t -> MessageEdit.edited_at e' < MessageEdit.edited_at e) ->
  list_edits message (set_message_edits (<[id := e]>) t) = e :: list_edits message t.
Proof.
  intros Hk Hid He Hm Hnew.
  assert (Hl : forall k x, message_edits (set_message_edits (<[id := e]>) t) !! k = Some x <->
    (k = id /\ x = e) \/ (k <> id /\ message_edits t !! k = Some x)).
  { intros k x. destruct t. cbn. rewrite lookup_insert_Some. naive_solver. }
  apply list_edits_eq.
  - intros k x [[-> ->]|[_ Hx]]%Hl; [done|by apply Hk].
  - constructor; [|by apply edits_NoDup]. intros Hin. specialize (Hnew e Hin). lia.
  - constructor; [apply StronglySorted_merge_sort; apply _|]. apply Forall_forall. intros x Hx. left. by apply Hnew.
  - intros x. rewrite elem_of_cons, elem_of_edits. split.
    + intros [->|[Hx [k Hk']]]; [split; [done|]; exists id; apply Hl; by left|]. split; [done|]. exists k. apply Hl. right. split; [|done].
      intros ->. congruence.
    + intros [Hx [k [[_ ->]|[_ Hk']]%Hl]]; [by left|right; split; [done|by exists k]].
Qed.
End edits.

Section history.
#[local] Set Default Proof Using "Type".
Context `{UuidText} (draw : ApiDb -> Uuid) (now : Z).

Abbreviation Tb d := (message_tables (app d)).

(** What an edit does to the tables. *)
Lemma update_message_in_Ok id editor content d m d' : update_message_in draw now id content editor d = (Ok m, d') ->
  exists old edit, Mt d !! id = Some old /\ message_edits (Tb d) !! edit = None /\ m = Message.set_content content now old /\
    Tb d' = alter_message (Message.set_content content now) id
              (prune_edits id (set_message_edits (<[edit := keep_edit now edit editor old]>) (Tb d))).
Proof.
  intros E. unfold update_message_in in E. inv_msg.
  match goal with E : insert_edit _ _ _ _ _ = _ |- _ => rename E into Ei end.
  unfold change_message in E. inv_msg. unfold insert_edit in Ei. inv_msg. destruct (Mt d !! id) as [old|] eqn:Eold.
  - inv_msg. eexists old, _. split; [done|]. rewrite !app_with, !tables_set in *. split; [by eapply eq_None_not_Some, bool_decide_eq_false_1|]. split; [|done].
    match goal with E : Some m = _ |- _ => revert E | E : _ = Some m |- _ => revert E end. unfold alter_message, prune_edits. autorewrite with msg_rw.
    rewrite lookup_alter_eq, Eold. by intros [= <-].
  - inv_msg. match goal with E : Some m = _ |- _ => revert E | E : _ = Some m |- _ => revert E end.
    unfold alter_message, prune_edits. autorewrite with msg_rw. by rewrite lookup_alter_eq, Eold.
Qed.

Lemma edits_altered f id mt : message_edits (alter_message f id mt) = message_edits mt.
Proof. by destruct mt. Qed.
Lemma edits_set f mt : message_edits (set_message_edits f mt) = f (message_edits mt).
Proof. by destruct mt. Qed.

(** C15: An edit keeps what it replaces.  When a message is edited, its content
    at that time becomes the newest of its earlier versions, of which the fifty
    newest stay; the versions of other messages, and every other message, are
    as they were, and of the message itself only the content and the time of
    the change. *)
Theorem an_edit_keeps_what_it_replaces (id editor : Uuid) (content : str) (d d' : ApiDb) (m : Message.t) :
  keyed_edits (Tb d) -> (forall k x, Mt d !! k = Some x -> Message.id x = k) ->
  (forall e, e ∈ list_edits id (Tb d) -> MessageEdit.edited_at e < now) ->
  update_message_in draw now id content editor d = (Ok m, d') ->
  exists old e, Mt d !! id = Some old /\ m = Message.set_content content now old /\ Mt d' = <[id := m]> (Mt d) /\
    MessageEdit.previous_content e = Message.content old /\ MessageEdit.edited_by e = editor /\ MessageEdit.edited_at e = now /\
    list_edits id (Tb d') = take MAX_STORED_EDITS (e :: list_edits id (Tb d)) /\
    (forall k x, MessageEdit.message_id x <> id -> message_edits (Tb d') !! k = Some x <-> message_edits (Tb d) !! k = Some x).
Proof.
  intros Hk Hids Hnew (old & edit & Hold & Hfree & -> & HT)%update_message_in_Ok.
  set (e := keep_edit now edit editor old) in *. set (mt := set_message_edits (<[edit := e]>) (Tb d)) in *.
  assert (Hmt : keyed_edits mt).
  { intros k x. subst mt. rewrite edits_set, lookup_insert_Some. intros [[<- <-]|[_ Hx]]; [done|by apply Hk]. }
  assert (Hl : forall message, list_edits message (Tb d') = list_edits message (prune_edits id mt)).
  { intros message. rewrite HT. unfold list_edits. by rewrite edits_altered. }
  exists old, e. split_and!; try done.
  - rewrite HT. unfold alter_message, prune_edits. subst mt. autorewrite with msg_rw. apply map_eq. intros k.
    destruct (decide (k = id)) as [->|Hne]; [by rewrite lookup_alter_eq, lookup_insert_eq, Hold|by rewrite lookup_alter_ne, lookup_insert_ne].
  - rewrite Hl, prune_list by done. f_equal. apply insert_edit_list; [done..|apply Hids, Hold|exact Hnew].
  - intros k x Hx. rewrite HT, edits_altered, prune_lookup by done. subst mt. rewrite edits_set, lookup_insert_Some. split; [intros [[[-> <-]|[_ He]] _]; [|done]|].
    + by rewrite (Hids _ _ Hold : MessageEdit.message_id e = id) in Hx.
    + intros He. split; [right|done]. split; [|done]. intros <-. cbn in Hfree. congruence.
Qed.
End history.

(** ** Pages of a channel *)

#[export] Instance newest_first_trans : Transitive newest_first.
Proof. unfold newest_first, precedes. intros x y z. lia. Qed.
#[export] Instance newest_first_total : Total newest_first.
Proof. unfold newest_first, precedes. intros x y. lia. Qed.

(** A reader who asks for the messages before the last one they were given,
    until there are none. *)
Fixpoint pages (fuel : nat) (channel : Uuid) (limit : Z) (cursor : option Uuid) (t : MessageTables) : option (list (list Message.t)) :=
  match fuel with
  | O => None
  | S fuel =>
      match list_channel_messages channel limit cursor t with
      | [] => Some []
      | page => rest ← pages fuel channel limit (Message.id <$> last page) t; Some (page :: rest)
      end
  end.

Section paging.
Implicit Types (t : MessageTables) (m n : Message.t) (channel : Uuid).
Abbreviation keyed t := (forall k m, messages t !! k = Some m -> Message.id m = k).

(** The messages of a channel, newest first. *)
Definition feed channel t : list Message.t := merge_sort newest_first (filter (fun m => listed channel m = true) (all_messages t)).

Lemma newest_first_key m n : newest_first m n -> newest_first n m -> Message.id m = Message.id n.
Proof. unfold newest_first, precedes. lia. Qed.

Lemma all_messages_lookup t m : keyed t -> m ∈ all_messages t <-> messages t !! Message.id m = Some m.
Proof.
  intros Hk. unfold all_messages. split.
  - intros ([k x] & -> & Hx%elem_of_map_to_list)%list_elem_of_fmap. cbn. by rewrite (Hk _ _ Hx).
  - intros Hm. apply list_elem_of_fmap. exists (Message.id m, m). split; [done|]. by apply elem_of_map_to_list.
Qed.

Lemma feed_listed channel t m : m ∈ feed channel t <-> listed channel m = true /\ m ∈ all_messages t.
Proof. unfold feed. by rewrite merge_sort_Permutation, list_elem_of_filter. Qed.

Lemma feed_NoDup channel t : keyed t -> NoDup (feed channel t).
Proof. intros Hk. unfold feed. rewrite merge_sort_Permutation. by apply (rows_NoDup Message.id). Qed.

(** What a cursor leaves of them. *)
Lemma feed_before channel cursor t : keyed t ->
  merge_sort newest_first (filter (fun m => (listed channel m && before_cursor cursor t m : bool) = true) (all_messages t)) =
  filter (fun m => before_cursor cursor t m = true) (feed channel t).
Proof.
  intros Hk. apply (sorted_sort newest_first Message.id newest_first_key).
  - intros x y [_ Hx]%list_elem_of_filter [_ Hy]%list_elem_of_filter E.
    apply all_messages_lookup in Hx, Hy; [|done..]. rewrite E in Hx. congruence.
  - unfold feed. rewrite merge_sort_Permutation, list_filter_filter. apply reflexive_eq, list_filter_iff. intros m.
    rewrite andb_true_iff. tauto.
  - apply StronglySorted_filter, StronglySorted_merge_sort; apply _.
Qed.

Lemma after_last channel t l n l' : keyed t -> feed channel t = l ++ n :: l' ->
  filter (fun m => before_cursor (Some (Message.id n)) t m = true) (feed channel t) = l'.
Proof.
  intros Hk Hf. assert (Hn : messages t !! Message.id n = Some n).
  { apply all_messages_lookup; [done|]. apply (feed_listed channel). rewrite Hf. set_solver. }
  pose proof (feed_NoDup channel t Hk) as Hnd. assert (Hs : StronglySorted newest_first (feed channel t)) by (apply StronglySorted_merge_sort; apply _).
  assert (Hmem : forall x, x ∈ feed channel t -> messages t !! Message.id x = Some x).
  { intros x Hx. apply all_messages_lookup; [done|]. by eapply feed_listed. }
  rewrite Hf in *. apply NoDup_app in Hnd as (_ & Hdis & [Hn' _]%NoDup_cons). apply StronglySorted_app in Hs as (Hl & _ & [_ Hl']%StronglySorted_inv).
  rewrite Forall_forall in Hl'. rewrite filter_app, filter_cons. unfold before_cursor. rewrite Hn.
  rewrite (decide_False (P := bool_decide (precedes n n) = true)) by (rewrite bool_decide_eq_true; unfold precedes; lia).
  rewrite filter_none, filter_all; [done| |].
  - intros x Hx. apply bool_decide_eq_true. destruct (Hl' _ Hx) as [|[_ E]]; [done|]. exfalso. apply Hn'.
    assert (x = n) as <-; [|done]. assert (Hx' : x ∈ l ++ n :: l') by set_solver. specialize (Hmem _ Hx'). congruence.
  - intros x Hx. rewrite bool_decide_eq_true. intros Hp.
    assert (Hxn : newest_first x n) by (apply Hl; set_solver). unfold newest_first, precedes in *. lia.
Qed.

Lemma channel_page channel limit cursor t : keyed t ->
  list_channel_messages channel limit cursor t =
  Message.redacted <$> take (Z.to_nat limit) (filter (fun m => before_cursor cursor t m = true) (feed channel t)).
Proof. intros Hk. unfold list_channel_messages, page. by rewrite feed_before. Qed.

Lemma redacted_id m : Message.id (Message.redacted m) = Message.id m.
Proof. unfold Message.redacted. by destruct (Message.deleted_at m). Qed.

Lemma redacted_order m n : newest_first (Message.redacted m) (Message.redacted n) <-> newest_first m n.
Proof. unfold newest_first, precedes, Message.redacted. by destruct (Message.deleted_at m), (Message.deleted_at n). Qed.

(** From any point of the feed on, the pages are the rest of it. *)
Lemma pages_from channel limit t : keyed t -> 0 < limit -> forall fuel l cursor, (length l < fuel)%nat ->
  filter (fun m => before_cursor cursor t m = true) (feed channel t) = l -> (exists l0, feed channel t = l0 ++ l) ->
  exists ps, pages fuel channel limit cursor t = Some ps /\ concat ps = Message.redacted <$> l /\
    Forall (fun p => p <> [] /\ (length p <= Z.to_nat limit)%nat) ps.
Proof.
  intros Hk Hlim. induction fuel as [|fuel IH]; intros l cursor Hlen Hl [l0 Hl0]; [lia|]. cbn [pages].
  rewrite channel_page, Hl by done. destruct l as [|m l]; [rewrite take_nil; exists []; repeat constructor|].
  set (n := Z.to_nat limit) in *. assert (exists k, n = S k) as [k Ek] by (exists (pred n); lia).
  set (p := take n (m :: l)). assert (Hp : exists q x, p = q ++ [x]).
  { destruct p as [|y p'] eqn:Ep using rev_ind; [subst p; by rewrite Ek in Ep|eauto]. }
  destruct Hp as (q & x & Hp). assert (Hm : exists y r, Message.redacted <$> p = y :: r) by (subst p; rewrite Ek; cbn; eauto).
  destruct Hm as (y & r & Hm). rewrite Hm, <-Hm.
  assert (Hlast : Message.id <$> last (Message.redacted <$> p) = Some (Message.id x)).
  { rewrite fmap_last, Hp, last_snoc. cbn. by rewrite redacted_id. }
  rewrite Hlast. assert (Hf : feed channel t = (l0 ++ q) ++ x :: drop n (m :: l)).
  { by rewrite Hl0, <-(take_drop n (m :: l)) at 1; fold p; rewrite Hp, <-!app_assoc. }
  destruct (IH (drop n (m :: l)) (Some (Message.id x))) as (ps & -> & Hps & Hne).
  - rewrite length_drop. cbn [length] in *. lia.
  - by eapply after_last.
  - exists ((l0 ++ q) ++ [x]). by rewrite <-app_assoc.
  - eexists. split; [done|]. cbn [concat]. split; [rewrite Hps, <-fmap_app; subst p; by rewrite take_drop|].
    constructor; [|done]. split; [by rewrite Hm|]. rewrite length_fmap. subst p. rewrite length_take. lia.
Qed.

Lemma keyed_length t channel : keyed t -> (length (feed channel t) <= size (messages t))%nat.
Proof.
  intros Hk. unfold feed. rewrite merge_sort_Permutation. unfold all_messages. etrans; [apply length_filter|].
  by rewrite length_fmap, length_map_to_list.
Qed.

(** C10: Pages cover the channel.  Somebody who asks for a channel page by page,
    each time for what is before the last message given, is done after as many
    requests as there are messages at most; the pages, none empty or over the
    limit, give every message the channel lists exactly once, newest first,
    equal times included, and of a deleted message no content and no
    metadata. *)
Theorem pages_cover_the_channel channel limit t : keyed t -> 0 < limit ->
  exists ps, pages (S (size (messages t))) channel limit None t = Some ps /\
    Forall (fun p => p <> [] /\ (length p <= Z.to_nat limit)%nat) ps /\
    StronglySorted newest_first (concat ps) /\ NoDup (Message.id <$> concat ps) /\
    (forall m, m ∈ concat ps <-> exists k m0, messages t !! k = Some m0 /\ listed channel m0 = true /\ m = Message.redacted m0) /\
    (forall m, m ∈ concat ps -> Message.deleted_at m <> None -> Message.content m = [] /\ Message.metadata m = JObject []).
Proof.
  intros Hk Hlim. pose proof (keyed_length t channel Hk) as Hlen.
  destruct (pages_from channel limit t Hk Hlim (S (size (messages t))) (feed channel t) None) as (ps & Hps & Hc & Hf);
    [lia|by apply filter_all|by exists []|]. exists ps. rewrite Hc. split_and!; [done|done| | | |].
  - apply (StronglySorted_fmap _ newest_first); [intros x y; by rewrite redacted_order|]. apply StronglySorted_merge_sort; apply _.
  - rewrite <-list_fmap_compose. apply NoDup_fmap_2_strong; [|by apply feed_NoDup]. intros x y [_ Hx]%feed_listed [_ Hy]%feed_listed.
    cbn. rewrite !redacted_id. intros E. apply all_messages_lookup in Hx, Hy; [|done..]. rewrite E in Hx. congruence.
  - intros m. rewrite list_elem_of_fmap. split.
    + intros (m0 & -> & [Hl Hm]%feed_listed). exists (Message.id m0), m0. by rewrite <-all_messages_lookup.
    + intros (k & m0 & Hm & Hl & ->). exists m0. split; [done|]. apply feed_listed. split; [done|].
      apply all_messages_lookup; [done|]. by rewrite (Hk _ _ Hm).
  - intros m (m0 & -> & _)%list_elem_of_fmap. unfold Message.redacted. by destruct (Message.deleted_at m0) eqn:E.
Qed.
End paging.

(** ** A message edited twice, and a channel in pages *)

Module SampleReads.
Definition tables_of (d : ApiDb) : MessageTables := message_tables (app d).
Definition db : ApiDb := SampleMessages.db [SampleMessages.message 51 1 10 ($"a") None] [SampleMessages.seat 1 0].
Definition draw (d : ApiDb) : Uuid := (70 + N.of_nat (size (message_edits (tables_of d))))%N.
Definition edited : ApiDb := (update_message_in draw 20 51%N ($"b") 1%N db).2.
(** Two messages of one moment, and a deleted one that has a reply. *)
Definition channel : MessageTables :=
  message_tables (app (SampleMessages.db [SampleMessages.message 51 1 10 ($"a") None; SampleMessages.message 52 1 10 ($"b") None;
    Message.set_reply_count (fun _ => 1) (Message.set_deleted 30 (SampleMessages.message 53 1 20 ($"c") None)); SampleMessages.message 54 2 25 ($"re") (Some 53%N)] [])).
End SampleReads.

Lemma an_edit_keeps_what_it_replaces_witness :
  exists m d', update_message_in SampleReads.draw 30 51%N ($"c") 1%N SampleReads.edited = (Ok m, d') /\
    exists e, MessageEdit.previous_content e = $"b" /\ MessageEdit.edited_at e = 30 /\
      list_edits 51%N (SampleReads.tables_of d') = take MAX_STORED_EDITS (e :: list_edits 51%N (SampleReads.tables_of SampleReads.edited)) /\
      (MessageEdit.previous_content <$> list_edits 51%N (SampleReads.tables_of SampleReads.edited)) = [$"a"].
Proof.
  destruct (update_message_in SampleReads.draw 30 51%N ($"c") 1%N SampleReads.edited) as [[m|e] d'] eqn:E; [|vm_compute in E; discriminate E].
  destruct (an_edit_keeps_what_it_replaces SampleReads.draw 30 51%N 1%N ($"c") SampleReads.edited d' m)
    as (old & e & Hold & _ & _ & He & _ & Ht & Hl & _); [| | |exact E|].
  - refine (bool_decide_unpack (map_Forall (fun k x => MessageEdit.id x = k) (message_edits _)) _). vm_compute. exact I.
  - refine (bool_decide_unpack (map_Forall (fun k x => Message.id x = k) (messages _)) _). vm_compute. exact I.
  - intros x Hx. vm_compute in Hx. apply list_elem_of_singleton in Hx as ->. done.
  - exists m, d'. split; [done|]. exists e. vm_compute in Hold. injection Hold as <-. split_and!; [exact He|exact Ht|exact Hl|reflexivity].
Defined.

Lemma pages_cover_the_channel_witness :
  exists ps, pages 5 30%N 2 None SampleReads.channel = Some ps /\ length (concat ps) = 3%nat /\
    Forall (fun p => p <> [] /\ (length p <= 2)%nat) ps /\ NoDup (Message.id <$> concat ps).
Proof.
  destruct (pages_cover_the_channel 30%N 2 SampleReads.channel) as (ps & Hps & Hf & _ & Hn & _); [|lia|].
  - refine (bool_decide_unpack (map_Forall (fun k x => Message.id x = k) (messages _)) _). vm_compute. exact I.
  - exists ps. split; [exact Hps|]. split; [|by split]. vm_compute in Hps. injection Hps as <-. reflexivity.
Defined.
