(* ===== verification/SendLaws.v ===== *)
(** * Sending
    ([backend/api/src/messaging/routes.rs], [files/service.rs])

    What a sent message is, and what is left when sending one fails. *)

From stdpp Require Import base tactics option numbers list gmap sorting.
From Stdlib Require Import ZArith Lia String Ascii.
From S2P Require Import Prelude RustStr Json Errors Frames Publisher Validation ListForms ListStore MessageStore Mentions ApiState Outbox AuditLog Tables Authz Membership ApiLaws Messaging Files Threads MessageRoutes MessageLaws.

(** What a handler that succeeds answers. *)
Definition yields {D B} (m : Svc D (AppResult B)) (P : B -> Prop) : Prop := forall w a, (m w).1 = Ok a -> P a.

Section yielding.
Context {D : Type}.
Lemma yields_ret {B} (r : AppResult B) (P : B -> Prop) : (forall a, r = Ok a -> P a) -> yields (mret r : Svc D _) P.
Proof. intros Hr w a. apply Hr. Qed.
Lemma yields_then {B C} (m : Svc D (AppResult B)) (f : B -> Svc D (AppResult C)) P :
  (forall b, yields (f b) P) -> yields (x ←? m; f x) P.
Proof. intros Hf w a. rewrite and_then_eq. destruct (m w) as [[b|e] w']; cbn; [apply Hf|done]. Qed.
Lemma yields_check {B C} (r : AppResult B) (f : B -> Svc D (AppResult C)) P :
  (forall b, r = Ok b -> yields (f b) P) -> yields (x ←? mret r; f x) P.
Proof. intros Hf w a. rewrite and_then_eq. destruct r as [b|e]; cbn; [by apply Hf|done]. Qed.
Lemma yields_bind {A B} (m : Svc D A) (f : A -> Svc D (AppResult B)) P : (forall a, yields (f a) P) -> yields (m ≫= f) P.
Proof. intros Hf w b. rewrite svc_bind_eq. apply Hf. Qed.
Lemma triple_yields {B} (R : relation D) `{!PreOrder R} (P : D -> Prop) (m : Svc D (AppResult B)) (F : B -> Prop) :
  stable R P -> follows R m -> yields m F -> triple R P m (fun r d => P d /\ forall a, r = Ok a -> F a).
Proof.
  intros Hst Hm Hy w Hw HP. destruct (Hm w Hw) as [H1 H2]. split_and!; [done..|by eapply Hst|]. intros a. apply Hy.
Qed.
Lemma triple_pure {A} (R : relation D) (P : D -> Prop) (F : Prop) (m : Svc D A) Q :
  (F -> triple R P m Q) -> triple R (fun d => P d /\ F) m Q.
Proof. intros Hm w Hw [HP HF]. by apply Hm. Qed.
End yielding.

Lemma triple_answer {B} (R : relation ApiDb) `{!PreOrder R} (P : ApiDb -> Prop) (q : AppTables -> B) (F : B -> ApiDb -> Prop) :
  stable R P -> (forall d, P d -> F (q (app d)) d) -> triple R P (query q) (fun r d => P d /\ forall a, r = Ok a -> F a d).
Proof.
  intros Hst HF. unfold query, sql_read, sql.
  eapply (triple_bind R _ _ _ (fun r d => P d /\ forall a, r = Ok a -> F a d)).
  - apply (triple_call R); [done|reflexivity| |done]. intros d Hd. split; [done|]. intros a [= <-]. auto.
  - intros [a|f]; apply (triple_ret R); [|naive_solver]. intros d [Hd Ha]. split; [done|]. intros b [= <-]. auto.
Qed.
(** A step that keeps what holds. *)
Lemma triple_step {B C} (R : relation ApiDb) `{!PreOrder R} (P : ApiDb -> Prop) (m : Api B) (f : B -> Api C) S :
  stable R P -> follows R m -> (forall a, triple R P (f a) S) -> (forall e d, P d -> S (Err e) d) -> triple R P (x ←? m; f x) S.
Proof.
  intros Hst Hm Hf He. apply (triple_then R P m f (fun _ => P)); [|done..].
  eapply triple_post; [|by apply (triple_of_follows R)]. by intros [].
Qed.

Lemma triple_check {D B C} (R : relation D) `{!PreOrder R} (P : D -> Prop) (r : AppResult B) (f : B -> Svc D (AppResult C)) S :
  (forall a, r = Ok a -> triple R P (f a) S) -> (forall e d, P d -> S (Err e) d) -> triple R P (x ←? mret r; f x) S.
Proof. intros Hf He. destruct r as [a|e]; [by apply Hf|]. apply (triple_ret R). apply He. Qed.

(** Nothing joins a request that is alone. *)
Definition calm {D A} (m : Svc D A) : Prop := forall w, agenda w = [] -> agenda (m w).2 = [].

Section calmness.
Context {D : Type}.
Lemma calm_ret {A} (a : A) : calm (mret a : Svc D A).
Proof. by intros w. Qed.
Lemma calm_bind {A B} (m : Svc D A) (f : A -> Svc D B) : calm m -> (forall a, calm (f a)) -> calm (m ≫= f).
Proof. intros Hm Hf w Hw. rewrite svc_bind_eq. by apply Hf, Hm. Qed.
Lemma calm_call {A} (op : D -> D * A) : calm (svc_call op).
Proof. intros w Hw. by rewrite svc_call_quiet. Qed.
Lemma calm_each {A} (l : list A) (f : A -> Svc D unit) : (forall x, calm (f x)) -> calm (svc_each l f).
Proof. intros Hf. induction l as [|x l IH]; cbn; [apply calm_ret|apply calm_bind; auto]. Qed.
End calmness.

Create HintDb calm.
Ltac calm_step :=
  match goal with
  | |- calm (and_then _ _) => unfold and_then
  | |- calm (mbind _ _) => apply calm_bind; [|intros ?]
  | |- calm (mret _) => apply calm_ret
  | |- calm (svc_call _) => apply calm_call
  | |- calm (svc_each _ _) => apply calm_each; intros ?
  | |- calm (svc_read _) => unfold svc_read
  | |- calm (sql_read _) => unfold sql_read
  | |- calm (sql _) => unfold sql
  | |- calm (query _) => unfold query
  | |- calm (require _ _) => unfold require
  | |- calm (refuse _) => unfold refuse
  | |- calm (if ?b then _ else _) => destruct b
  | |- calm (match ?x with _ => _ end) => destruct x
  | |- calm _ => solve [auto with calm]
  end.
Ltac solve_calm := intros; repeat calm_step.

(** All but the objects of the store. *)
Definition apart_from_objects (d : ApiDb) : ApiDb := with_objects (fun _ => ∅) d.
Definition same_tables : relation ApiDb := fun d d' => apart_from_objects d' = apart_from_objects d.
#[export] Instance same_tables_preorder : PreOrder same_tables.
Proof. split; [done|]. intros a b c Hab Hbc. unfold same_tables in *. congruence. Qed.

Lemma same_tables_objects f d : same_tables d (with_objects f d).
Proof.
  unfold same_tables, apart_from_objects, with_objects, with_app. destruct d as [a b c e o []]. cbn. do 2 f_equal.
  by destruct message_tables.
Qed.
Lemma same_tables_messages d d' : same_tables d d' -> messages (message_tables (app d')) = messages (message_tables (app d)).
Proof.
  intros H. assert (Hm : forall x, messages (message_tables (app x)) = messages (message_tables (app (apart_from_objects x)))).
  { intros []. unfold apart_from_objects, with_objects, with_app, set_message_tables. cbn. destruct app. by destruct message_tables. }
  by rewrite Hm, H, <-Hm.
Qed.

Section sending.
Context `{UuidText, Alphanumeric} (entry_id : str -> list (str * str * Event) -> str) (draw : ApiDb -> Uuid) (now : Z).
Context (show_time : Z -> str) (public_address : str) (path_parses : str -> bool) (fresh : nat -> Uuid * Uuid).
Context (present : Uuid -> list str) (struck_early : svc_fault -> bool).
Implicit Types (auth : AuthUser.t) (ch u ws id : Uuid) (m : Message.t) (d : ApiDb).

(** ** What does not change the tables *)

Section reading.
Context (R : relation ApiDb) `{!PreOrder R}.
Lemma require_broadcast_follows channel u : follows R (require_broadcast channel u).
Proof. unfold require_broadcast, broadcast_refusal, access_to, workspace_rule, require, refuse. solve_follows. Qed.
Lemma can_broadcast_follows channel u : follows R (can_broadcast channel u).
Proof. unfold can_broadcast, broadcast_refusal, access_to, workspace_rule, require, refuse. solve_follows. Qed.
Lemma require_channel_post_as_follows ch auth : follows R (require_channel_post_as ch auth).
Proof. unfold require_channel_post_as, channel_access, require_posting, refuse, require. solve_follows. Qed.
#[local] Hint Resolve can_broadcast_follows : follows.
Lemma expand_mentions_follows ch u content : follows R (expand_mentions present ch u content).
Proof.
  unfold expand_mentions, or_else, online_user_ids, list_channel_member_ids.
  solve_follows; reflexivity.
Qed.
Lemma thread_root_follows ch parent : follows R (thread_root ch parent).
Proof. unfold thread_root, require. solve_follows. Qed.
Lemma forwarded_files_follows source u : follows R (forwarded_files source u).
Proof. unfold forwarded_files, find_live, require. solve_follows. Qed.
#[local] Hint Resolve require_broadcast_follows require_channel_post_as_follows expand_mentions_follows thread_root_follows
  forwarded_files_follows : follows.
Lemma prepare_follows auth ch req : follows R (prepare present auth ch req).
Proof.
  unfold prepare. solve_follows.
Qed.

Context (R_objects : forall f d, R d (with_objects f d)).
Lemma copy_object_follows from to : follows R (copy_object path_parses from to).
Proof. unfold copy_object. solve_follows. case_bool_decide; cbn; [apply R_objects|reflexivity]. Qed.
Lemma delete_object_follows key : follows R (delete_object path_parses key).
Proof. unfold delete_object. solve_follows. apply R_objects. Qed.
#[local] Hint Resolve copy_object_follows delete_object_follows : follows.
Lemma discard_copies_follows copied : follows R (discard_copies path_parses copied).
Proof. unfold discard_copies, delete_logged, svc_ignore. solve_follows. Qed.
#[local] Hint Resolve discard_copies_follows : follows.
Lemma copy_objects_follows sources ws : follows R (copy_objects path_parses fresh sources ws).
Proof.
  unfold copy_objects. generalize ([] : list CopiedObject.t). induction sources as [|source sources IH]; intros copied; cbn [copy_each].
  - solve_follows.
  - apply follows_bind; [apply _| |].
    + unfold copy_one. solve_follows.
    + intros [[key thumb]|e]; [apply IH|solve_follows].
Qed.
End reading.

(** ** What is sent *)

Lemma prepare_calm auth ch req : calm (prepare present auth ch req).
Proof.
  unfold prepare, require_channel_post_as, channel_access, find_channel, require_workspace_member, require_posting, require_broadcast,
    broadcast_refusal, access_to, workspace_rule, forwarded_files, find_live, require_channel_access, channel_access, find_channel,
    require_workspace_member, thread_root, expand_mentions, or_else, can_broadcast, broadcast_refusal, access_to, workspace_rule,
    online_user_ids, list_channel_member_ids.
  solve_calm.
Qed.

Lemma scoped_same auth scope auth' : scoped auth scope = Ok auth' -> auth' = auth.
Proof. unfold scoped. destruct (AuthUser.bot auth) as [bot|]; [destruct (BotToken.allows bot scope)|]; by intros [= ->]. Qed.

Lemma prepare_yields auth ch req : yields (prepare present auth ch req) (fun p =>
  NewMessage.channel_id (Prepared.new p) = ch /\ NewMessage.user_id (Prepared.new p) = user_of auth /\
  NewMessage.content (Prepared.new p) = SendMessageRequest.content req /\
  NewMessage.client_message_id (Prepared.new p) = SendMessageRequest.client_message_id req /\
  NewMessage.thread_parent_id (Prepared.new p) = Message.id <$> Prepared.root p).
Proof.
  unfold prepare. apply yields_check. intros auth' ->%scoped_same. repeat (apply yields_then; intros ?).
  destruct (Nat.ltb _ _); [by apply yields_ret|]. case_bool_decide; [by apply yields_ret|].
  apply yields_then. intros root. apply yields_bind. intros mentioned. apply yields_ret. by intros ? [= <-].
Qed.

(** Nobody else changes the tables; calls may fail. *)
Abbreviation undisturbed w := (rely same_tables w).

Lemma duplicate_sent new ids copied ws root client m d :
  NewMessage.client_message_id new = Some client -> find_by_client_id (NewMessage.channel_id new) client (message_tables (app d)) = Some m ->
  send_tx draw now show_time public_address new ids copied ws root d = (d, Duplicate).
Proof.
  intros Hc Hm. unfold send_tx. assert (create_message_in draw now new d = (Ok None, d)) as ->; [|done].
  unfold create_message_in, insert_message, drawn, message_read, read, tx_read, mbind, Tx_bind, mret, Tx_ret. cbn -[bool_decide].
  unfold client_id_taken. rewrite Hc, Hm, (bool_decide_eq_true_2 (is_Some (Some m))) by eauto. by rewrite orb_true_r.
Qed.

Lemma find_by_client_id_stable ch client m : stable same_tables (fun d => find_by_client_id ch client (message_tables (app d)) = Some m).
Proof. intros d d' HR. unfold find_by_client_id, all_messages. by rewrite (same_tables_messages _ _ HR). Qed.

(** C16: Resending changes nothing.  When a message with the client's identifier
    is in the channel, sending again, whatever is sent and however the calls
    fail, leaves every table as it was and publishes nothing; it answers the
    message that is there, or an error. *)
Theorem resending_changes_nothing auth ch (req : SendMessageRequest.t) (client : Uuid) m (w : SvcWorld ApiDb) :
  undisturbed w -> SendMessageRequest.client_message_id req = Some client ->
  find_by_client_id ch client (message_tables (app (shared w))) = Some m ->
  let '(r, w') := send_message entry_id draw now show_time public_address path_parses fresh present struck_early auth ch req w in
  same_tables (shared w) (shared w') /\ (r = Ok m \/ exists e, r = Err e).
Proof.
  intros Hw Hc Hm. set (P := fun d => find_by_client_id ch client (message_tables (app d)) = Some m).
  assert (Hst : stable same_tables P) by apply find_by_client_id_stable.
  set (Q := fun (r : AppResult Message.t) d => P d /\ (r = Ok m \/ exists e, r = Err e)).
  assert (HT : triple same_tables P (send_message entry_id draw now show_time public_address path_parses fresh present struck_early auth ch req) Q).
  { assert (Hfail : forall e d, P d -> Q (Err e) d) by (intros e d Hd; split; eauto).
    assert (Hdiscard : forall copied e, triple same_tables P (_ ← discard_copies path_parses copied; mret (Err e)) Q).
    { intros copied e. eapply (triple_bind same_tables).
      - apply triple_of_follows; [done|]. apply discard_copies_follows; [apply _|apply same_tables_objects].
      - intros []. apply (triple_ret same_tables). auto. }
    unfold send_message, and_then.
    eapply (triple_bind same_tables); [eapply triple_yields; [apply _|done|apply prepare_follows, _|apply prepare_yields]|].
    intros [p|e]; [|by apply (triple_ret same_tables); intros d [? _]; auto].
    apply triple_pre with (P := fun d => P d /\ NewMessage.channel_id (Prepared.new p) = ch /\
      NewMessage.client_message_id (Prepared.new p) = Some client);
      [intros d [Hd Hp]; destruct (Hp p eq_refl) as (? & _ & _ & ? & _); split_and!; congruence|].
    apply triple_pure. intros [Hch Hcl].
    eapply (triple_bind same_tables); [apply triple_of_follows; [done|]; apply copy_objects_follows; [apply _|apply same_tables_objects]|].
    intros [copied|e]; [|by apply (triple_ret same_tables); auto].
    eapply (triple_bind same_tables _ _ _ (fun r d => P d /\ forall o, r = Ok o -> o = Duplicate)).
    { apply (triple_call same_tables); [done|..].
      - intros d Hd. by rewrite (duplicate_sent _ _ _ _ _ client m) by (rewrite ?Hch; done).
      - intros d Hd. rewrite (duplicate_sent _ _ _ _ _ client m) by (rewrite ?Hch; done). split; [done|]. by intros o [= <-].
      - intros d f Hd. rewrite (duplicate_sent _ _ _ _ _ client m) by (rewrite ?Hch; done). by split. }
    intros [o|f].
    - apply (triple_pre same_tables (fun d => P d /\ o = Duplicate)); [by intros d [Hd Ho]; split; [|apply Ho]|]. apply triple_pure. intros ->. rewrite Hc.
      eapply (triple_bind same_tables); [apply triple_of_follows; [done|]; apply discard_copies_follows; [apply _|apply same_tables_objects]|].
      intros []. unfold and_then. eapply (triple_bind same_tables).
      { apply (triple_answer same_tables P _ (fun o _ => Some m = o)); [done|]. by intros d Hd. }
      intros [existing|e]; [|by apply (triple_ret same_tables); intros d [? _]; auto].
      apply (triple_ret same_tables). intros d [Hd He]. rewrite <-(He existing eq_refl). split; [done|]. by left.
    - destruct (struck_early f); [apply (triple_pre same_tables P); [by intros d [? _]|apply Hdiscard]|].
      apply (triple_ret same_tables). intros d [? _]. auto. }
  destruct (HT w Hw Hm) as (H1 & _ & H2). destruct (send_message _ _ _ _ _ _ _ _ _ _ _ _ w) as [r w']. cbn in *. unfold Q in H2. tauto.
Qed.

(** ** What a refused send leaves *)

Abbreviation alone d := ({| shared := d; agenda := [] |} : SvcWorld ApiDb).
Definition objects_of d : gset str := objects (message_tables (app d)).
Definition parses (key : str) : Prop := parse_key path_parses key = Ok tt.
Definition keys (copied : list CopiedObject.t) : list str :=
  copied ≫= fun c => keys_of (CopiedObject.storage_key c) (CopiedObject.thumbnail_key c).

Lemma with_objects_of f d : objects_of (with_objects f d) = f (objects_of d).
Proof. unfold objects_of, with_objects, with_app. destruct d as [a b c e o []]. cbn. by destruct message_tables. Qed.
Lemma with_objects_same f d : f (objects_of d) = objects_of d -> with_objects f d = d.
Proof.
  unfold objects_of, with_objects, with_app. destruct d as [a b c e o []]. cbn. destruct message_tables. cbn. by intros ->.
Qed.
Lemma with_objects_twice f g d : with_objects f (with_objects g d) = with_objects (fun o => f (g o)) d.
Proof. unfold with_objects, with_app. destruct d as [a b c e o []]. cbn. do 2 f_equal. by destruct message_tables. Qed.
Lemma with_objects_ext f g d : f (objects_of d) = g (objects_of d) -> with_objects f d = with_objects g d.
Proof. unfold objects_of, with_objects, with_app. destruct d as [a b c e o []]. cbn. destruct message_tables. cbn. by intros ->. Qed.

Lemma delete_object_alone key d : parses key ->
  delete_object path_parses key (alone d) = (Ok tt, alone (with_objects (fun o => o ∖ {[key]}) d)).
Proof. intros Hk. unfold delete_object. rewrite and_then_eq, Hk. cbn. rewrite svc_bind_eq. unfold svc_write. by rewrite svc_call_quiet. Qed.

Lemma delete_each_alone (l : list str) d : Forall parses l ->
  svc_each l (delete_logged path_parses) (alone d) = (tt, alone (with_objects (fun o => o ∖ list_to_set l) d)).
Proof.
  intros Hl. revert d. induction Hl as [|key l Hk _ IH]; intros d; cbn [svc_each list_to_set].
  - rewrite with_objects_same; [done|]. set_solver.
  - rewrite svc_bind_eq. unfold delete_logged, svc_ignore. rewrite svc_bind_eq, delete_object_alone by done. cbn.
    rewrite IH, with_objects_twice. do 2 f_equal. apply with_objects_ext. cbn. set_solver.
Qed.

Lemma copy_object_alone from to d :
  copy_object path_parses from to (alone d) = (Ok tt, alone (with_objects (union {[to]}) d)) /\ parses to \/
  exists e, copy_object path_parses from to (alone d) = (Err e, alone d).
Proof.
  unfold copy_object. rewrite and_then_eq. destruct (parse_key path_parses from) as [[]|e]; cbn; [|eauto].
  rewrite and_then_eq. unfold parses. destruct (parse_key path_parses to) as [[]|e] eqn:Et; cbn; [|eauto].
  rewrite svc_bind_eq, svc_call_quiet by done. cbn. case_bool_decide; cbn; eauto.
Qed.

(** The store with the copies in it. *)
Definition copied_into d (copied : list CopiedObject.t) : ApiDb := with_objects (union (list_to_set (keys copied))) d.
(** Keys nothing is stored under yet. *)
Definition fresh_keys d : Prop := forall n ws name, (object_key ws (fresh n).1 name ∉ objects_of d) /\ (object_key ws (fresh n).2 name ∉ objects_of d).
Definition clean d (copied : list CopiedObject.t) : Prop := Forall parses (keys copied) /\ Forall (fun k => k ∉ objects_of d) (keys copied).

Lemma discard_copies_alone d copied : clean d copied ->
  discard_copies path_parses copied (alone (copied_into d copied)) = (tt, alone d).
Proof.
  intros [Hp Hf]. unfold discard_copies. fold (keys copied). rewrite delete_each_alone by done. do 2 f_equal.
  unfold copied_into. rewrite with_objects_twice. apply with_objects_same. rewrite Forall_forall in Hf. set_solver.
Qed.

Lemma keys_app a b : keys (a ++ b) = keys a ++ keys b.
Proof. unfold keys. apply bind_app. Qed.
Lemma copied_into_app d a b : copied_into d (a ++ b) = with_objects (union (list_to_set (keys b))) (copied_into d a).
Proof. unfold copied_into. rewrite with_objects_twice, keys_app. apply with_objects_ext. rewrite list_to_set_app_L. set_solver. Qed.

Lemma copy_one_alone source ws d copied : fresh_keys d -> clean d copied ->
  (exists c, copy_one path_parses fresh (length copied) source ws (alone (copied_into d copied)) =
       (Ok (CopiedObject.storage_key c, CopiedObject.thumbnail_key c), alone (copied_into d (copied ++ [c]))) /\
     CopiedObject.source c = source /\ clean d (copied ++ [c])) \/
  exists e f, copy_one path_parses fresh (length copied) source ws (alone (copied_into d copied)) = (Err e, alone (with_objects f d)) /\
    f (objects_of d) ∖ list_to_set (keys copied) = objects_of d.
Proof.
  intros Hfresh [Hp Hf]. set (n := length copied). unfold copy_one. rewrite and_then_eq. set (key := object_key ws (fresh n).1 _).
  assert (Hkey : key ∉ objects_of d) by apply Hfresh. assert (Hf' : forall k, k ∈ keys copied -> k ∉ objects_of d) by by apply Forall_forall.
  destruct (copy_object_alone (FileRecord.storage_key source) key (copied_into d copied)) as [[-> Hkp]|[e ->]]; cbn [fst snd].
  2:{ right. exists e, (union (list_to_set (keys copied))). split; [done|]. set_solver. }
  destruct (FileRecord.thumbnail_key source) as [thumbnail|] eqn:Et.
  - set (tkey := object_key ws (fresh n).2 _). assert (Htkey : tkey ∉ objects_of d) by apply Hfresh. rewrite svc_bind_eq.
    destruct (copy_object_alone thumbnail tkey (with_objects (union {[key]}) (copied_into d copied))) as [[-> Htp]|[e ->]]; cbn [fst snd].
    + left. exists {| CopiedObject.source := source; CopiedObject.storage_key := key; CopiedObject.thumbnail_key := Some tkey |}.
      rewrite copied_into_app, with_objects_twice. split; [cbn; do 2 f_equal; apply with_objects_ext; cbn; set_solver|]. split; [done|].
      unfold clean. rewrite keys_app. split; apply Forall_app; (split; [done|]); by repeat constructor.
    + right. rewrite svc_bind_eq, delete_object_alone by done. cbn. exists e. unfold copied_into. rewrite !with_objects_twice.
      eexists. split; [done|]. cbn. set_solver.
  - left. exists {| CopiedObject.source := source; CopiedObject.storage_key := key; CopiedObject.thumbnail_key := None |}.
    rewrite copied_into_app. split; [cbn; do 2 f_equal; apply with_objects_ext; cbn; set_solver|]. split; [done|].
    unfold clean. rewrite keys_app. split; apply Forall_app; (split; [done|]); by repeat constructor.
Qed.

Lemma copy_each_alone sources ws d copied : fresh_keys d -> clean d copied ->
  (exists all, copy_each path_parses fresh sources ws copied (alone (copied_into d copied)) = (Ok all, alone (copied_into d all)) /\ clean d all) \/
  exists e, copy_each path_parses fresh sources ws copied (alone (copied_into d copied)) = (Err e, alone d).
Proof.
  intros Hfresh. revert copied. induction sources as [|source sources IH]; intros copied Hc; cbn [copy_each].
  - left. by exists copied.
  - rewrite svc_bind_eq. destruct (copy_one_alone source ws d copied Hfresh Hc) as [(c & -> & <- & Hc')|(e & f & -> & Hback)]; cbn [fst snd].
    + destruct c as [source' key thumb]. by apply IH.
    + right. exists e. rewrite svc_bind_eq. unfold discard_copies. fold (keys copied). destruct Hc as [Hp _].
      rewrite delete_each_alone by done. cbn. do 2 f_equal. rewrite with_objects_twice. by apply with_objects_same.
Qed.

Lemma copy_objects_alone sources ws d : fresh_keys d ->
  (exists all, copy_objects path_parses fresh sources ws (alone d) = (Ok all, alone (copied_into d all)) /\ clean d all) \/
  exists e, copy_objects path_parses fresh sources ws (alone d) = (Err e, alone d).
Proof.
  intros Hfresh. assert (Hd : copied_into d [] = d) by (apply with_objects_same; set_solver).
  pose proof (copy_each_alone sources ws d [] Hfresh) as Hc. rewrite Hd in Hc. apply Hc. by split.
Qed.

Lemma follows_succeeds new (root : option Message.t) m ws d : exists staged d', follow_and_stage draw now show_time m new ws root d = (Ok staged, d').
Proof.
  unfold follow_and_stage, follow_on_reply_in, follows_run, message_run, stage_message_created, stage_in, run, read, tx_query, tx_read, mbind, Tx_bind, mret, Tx_ret.
  destruct root as [root|]; cbn; [|by eexists _, _]. destruct (is_member _ _ _); cbn;
    match goal with |- context [if ?b then _ else _] => destruct b end; cbn; by eexists _, _.
Qed.

(** C9: A refused send leaves nothing.  When a request to send that nothing
    interferes with, and every call of which is answered, is refused, wherever
    that is, all is as it was: no message, no event, and none of the copies made
    for a forwarded message stays in the store.  Of calls that fail it says
    nothing: [a_lost_send_leaves_its_copies]. *)
Theorem a_refused_send_leaves_nothing auth ch (req : SendMessageRequest.t) d (e : AppError) (w : SvcWorld ApiDb) :
  fresh_keys d ->
  send_message entry_id draw now show_time public_address path_parses fresh present struck_early auth ch req (alone d) = (Err e, w) -> w = alone d.
Proof.
  intros Hfresh. unfold send_message. rewrite and_then_eq.
  destruct (prepare present auth ch req (alone d)) as [r w1] eqn:Ep.
  assert (w1 = alone d) as ->.
  { pose proof (prepare_calm auth ch req (alone d) eq_refl) as Hc. rewrite Ep in Hc.
    destruct (prepare_follows (@eq ApiDb) auth ch req (alone d)) as [Hs _]; [unfold rely; by apply Forall_nil_2|]. rewrite Ep in Hs. destruct w1. cbn in *. congruence. }
  destruct r as [p|e0]; cbn [fst snd]; [|by intros [= _ <-]]. rewrite and_then_eq.
  destruct (copy_objects_alone (Prepared.forwarded p) (Prepared.workspace p) d Hfresh) as [(copied & -> & Hclean)|[e0 ->]]; cbn [fst snd];
    [|by intros [= _ <-]].
  assert (Hfail : forall e0, (_ ← discard_copies path_parses copied; mret (Err e0) : Api Message.t) (alone (copied_into d copied)) = (Err e0, alone d)).
  { intros e0. rewrite svc_bind_eq, discard_copies_alone by done. done. }
  rewrite svc_bind_eq, svc_call_quiet by done. cbn [fst snd shared].
  destruct (send_tx _ _ _ _ _ _ _ _ _ (copied_into d copied)) as [d1 o] eqn:Eo. cbn [fst snd].
  unfold send_tx in Eo. destruct (create_message_in draw now (Prepared.new p) (copied_into d copied)) as [[[m|]|e1] d2].
  - destruct (attach_in _ _ _ m _ _ _ _ d2) as [[m'|e1] d3].
    + destruct (follows_succeeds (Prepared.new p) (Prepared.root p) m' (Prepared.workspace p) d3) as (staged & d4 & Es). rewrite Es in Eo.
      injection Eo as <- <-. rewrite svc_bind_eq, svc_bind_eq. discriminate.
    + injection Eo as <- <-. rewrite Hfail. by intros [= _ <-].
  - injection Eo as <- <-. destruct (SendMessageRequest.client_message_id req) as [client|]; [|rewrite Hfail; by intros [= _ <-]].
    rewrite svc_bind_eq, discard_copies_alone by done. rewrite and_then_eq, query_quiet by done. cbn. by intros [= _ <-].
  - injection Eo as <- <-. rewrite Hfail. by intros [= _ <-].
Qed.

(** ** Threads are one level deep *)

(** Every reply hangs from a message of its channel that is not a reply. *)
Definition threaded (M : gmap Uuid Message.t) : Prop :=
  (forall k x, M !! k = Some x -> Message.id x = k) /\
  forall k x p, M !! k = Some x -> Message.thread_parent_id x = Some p ->
    exists r, M !! p = Some r /\ Message.thread_parent_id r = None /\ Message.channel_id r = Message.channel_id x.
(** The messages that were there are, where they were and with the parents they
    had; what is written besides keeps threads one level deep. *)
Definition kept_in (M M' : gmap Uuid Message.t) : Prop :=
  (forall k x, M !! k = Some x -> exists x', M' !! k = Some x' /\
     Message.thread_parent_id x' = Message.thread_parent_id x /\ Message.channel_id x' = Message.channel_id x) /\
  (threaded M -> threaded M').
Definition threads_kept : relation ApiDb := fun d d' => kept_in (Mt d) (Mt d').

#[global] Instance kept_in_preorder : PreOrder kept_in.
Proof.
  split; [intros M; split; [eauto|done]|]. intros A B C [H1 H2] [H3 H4]. split; [|auto].
  intros k x Hx. destruct (H1 k x Hx) as (y & Hy & Ey & Fy). destruct (H3 k y Hy) as (z & Hz & Ez & Fz).
  exists z. split_and!; congruence.
Qed.
#[global] Instance threads_kept_preorder : PreOrder threads_kept.
Proof. split; unfold threads_kept; [by intros d|by intros a b c ? ?; etransitivity]. Qed.

(** A change that leaves the place of a message. *)
Definition in_place (f : Message.t -> Message.t) : Prop := forall x,
  Message.id (f x) = Message.id x /\ Message.thread_parent_id (f x) = Message.thread_parent_id x /\ Message.channel_id (f x) = Message.channel_id x.

Lemma lookup_alter_in_place f (id : Uuid) (M : gmap Uuid Message.t) (k : Uuid) x : in_place f -> alter f id M !! k = Some x ->
  exists x0, M !! k = Some x0 /\ Message.id x = Message.id x0 /\ Message.thread_parent_id x = Message.thread_parent_id x0 /\
    Message.channel_id x = Message.channel_id x0.
Proof.
  intros Hf. destruct (decide (id = k)) as [->|Hne]; [rewrite lookup_alter_eq|rewrite lookup_alter_ne by done; eauto].
  intros (x0 & Hx & ->)%fmap_Some. exists x0. destruct (Hf x0) as (? & ? & ?). auto.
Qed.
Lemma alter_kept f id (M : gmap Uuid Message.t) : in_place f -> kept_in M (alter f id M).
Proof.
  intros Hf. assert (Hfwd : forall k x, M !! k = Some x -> exists x', alter f id M !! k = Some x' /\
    Message.thread_parent_id x' = Message.thread_parent_id x /\ Message.channel_id x' = Message.channel_id x).
  { intros k x Hx. destruct (decide (id = k)) as [->|Hne]; [rewrite lookup_alter_eq, Hx|rewrite lookup_alter_ne by done; eauto].
    destruct (Hf x) as (? & ? & ?). eexists. eauto. }
  split; [exact Hfwd|]. intros [Hids Hpar]. split.
  - intros k x (x0 & Hx & -> & _)%lookup_alter_in_place; [by apply Hids|done].
  - intros k x p (x0 & Hx & _ & Ep & Ec)%lookup_alter_in_place Hp; [|done]. rewrite Ep in Hp. rewrite Ec.
    destruct (Hpar _ _ _ Hx Hp) as (r & Hr & Hrp & Hrc). destruct (Hfwd _ _ Hr) as (r' & ? & ? & ?). exists r'. split_and!; congruence.
Qed.
Lemma insert_kept m (M : gmap Uuid Message.t) : M !! Message.id m = None ->
  (forall p, Message.thread_parent_id m = Some p -> exists r, M !! p = Some r /\ Message.thread_parent_id r = None /\ Message.channel_id r = Message.channel_id m) ->
  kept_in M (<[Message.id m := m]> M).
Proof.
  intros Hnew Hm. assert (Hfwd : forall k x, M !! k = Some x -> <[Message.id m := m]> M !! k = Some x).
  { intros k x Hx. rewrite lookup_insert_ne; [done|congruence]. }
  split; [eauto|]. intros [Hids Hpar]. split.
  - intros k x [[<- <-]|[_ Hx]]%lookup_insert_Some; [done|by apply Hids].
  - intros k x p [[<- <-]|[_ Hx]]%lookup_insert_Some Hp.
    + destruct (Hm _ Hp) as (r & Hr & ? & ?). eauto.
    + destruct (Hpar _ _ _ Hx Hp) as (r & Hr & ? & ?). eauto.
Qed.

Lemma message_run_kept f : (forall t, kept_in (messages t) (messages (f t))) -> tx_follows threads_kept (message_run f).
Proof. intros Hf d. unfold message_run, run, tx_query, threads_kept. cbn. rewrite tables_set. apply Hf. Qed.
Lemma message_read_kept {A} (q : MessageTables -> A) : tx_follows threads_kept (message_read q).
Proof. unfold message_read, read. solve_tx_follows. Qed.
Lemma read_kept {A} (q : AppTables -> A) : tx_follows threads_kept (read q).
Proof. unfold read. solve_tx_follows. Qed.
Lemma drawn_kept : tx_follows threads_kept (drawn draw).
Proof. intros d. reflexivity. Qed.
Lemma tx_require_kept {A} e (o : option A) : tx_follows threads_kept (tx_require e o).
Proof. intros d. reflexivity. Qed.
Lemma stage_kept ty ws p : tx_follows threads_kept (stage_in draw now ty ws p).
Proof. intros d. unfold stage_in, tx_query, insert_row, threads_kept. cbn. reflexivity. Qed.
#[local] Hint Resolve message_read_kept read_kept drawn_kept tx_require_kept stage_kept : tx_follows.
#[local] Hint Extern 2 (tx_follows threads_kept (message_run _)) => apply message_run_kept; intros []; reflexivity : tx_follows.

Lemma change_message_kept f id : in_place f -> tx_follows threads_kept (change_message f id).
Proof.
  intros Hf. unfold change_message. solve_tx_follows. apply message_run_kept. intros t. unfold alter_message. autorewrite with msg_rw. by apply alter_kept.
Qed.
Lemma claim_drafts_in_kept ids id ws u : tx_follows threads_kept (claim_drafts_in ids id ws u).
Proof.
  unfold claim_drafts_in. destruct ids as [|i ids]; [solve_tx_follows|]. intros d.
  assert (Hd : threads_kept d (with_app (set_message_tables (fun _ => (claim_drafts (i :: ids) id ws u (message_tables (app d))).1)) d)).
  { unfold threads_kept. rewrite app_with, tables_set. unfold claim_drafts. cbn. by rewrite messages_set_files. }
  unfold message_read, message_run, read, run, tx_read, tx_query, mbind, Tx_bind. destruct (negb _); exact Hd.
Qed.
Lemma create_file_in_kept new : tx_follows threads_kept (create_file_in draw now new).
Proof. unfold create_file_in, unique_violation, foreign_key. solve_tx_follows. Qed.
Lemma record_copies_in_kept copied id ws u : tx_follows threads_kept (record_copies_in draw now copied id ws u).
Proof.
  unfold record_copies_in. induction copied as [|c copied IH]; cbn [tx_each]; [solve_tx_follows|].
  apply tx_follows_bind; [apply _|apply create_file_in_kept|intros f]. apply tx_follows_bind; [apply _|apply IH|intros fs]. solve_tx_follows.
Qed.
Lemma attach_in_kept m ids copied ws u : tx_follows threads_kept (attach_in draw now public_address m ids copied ws u).
Proof.
  unfold attach_in. apply tx_follows_bind; [apply _|apply claim_drafts_in_kept|intros claimed].
  apply tx_follows_bind; [apply _|apply record_copies_in_kept|intros copies]. destruct (claimed ++ copies); [solve_tx_follows|].
  apply change_message_kept. by intros x.
Qed.
Lemma follow_and_stage_kept m new ws root : tx_follows threads_kept (follow_and_stage draw now show_time m new ws root).
Proof. unfold follow_and_stage, follow_on_reply_in, follows_run, stage_message_created. solve_tx_follows. Qed.

Lemma send_tx_kept new ids copied ws root d :
  (forall p, NewMessage.thread_parent_id new = Some p -> exists r, Mt d !! p = Some r /\ Message.thread_parent_id r = None /\
     Message.channel_id r = NewMessage.channel_id new) ->
  threads_kept d (send_tx draw now show_time public_address new ids copied ws root d).1.
Proof.
  intros Hp. unfold send_tx. destruct (create_message_in draw now new d) as [[[m|]|e] d1] eqn:Ec; try reflexivity.
  apply create_message_in_Ok in Ec as (Em & Hnew & _ & _ & HM & _). assert (H1 : threads_kept d d1).
  { unfold threads_kept. rewrite HM. unfold add_message. assert (Hi : kept_in (Mt d) (<[Message.id m := m]> (Mt d))).
    { apply insert_kept; [done|]. intros p Hpm. subst m. by apply Hp. }
    destruct (Message.thread_parent_id m); [|done]. etransitivity; [exact Hi|]. by apply alter_kept. }
  pose proof (attach_in_kept m ids copied ws (NewMessage.user_id new) d1) as H2. destruct (attach_in _ _ _ m _ _ _ _ d1) as [[m'|e] d2]; [|reflexivity].
  pose proof (follow_and_stage_kept m' new ws root d2) as H3. destruct (follow_and_stage _ _ _ m' _ _ _ d2) as [[st|e] d3]; [|reflexivity].
  cbn in *. etransitivity; [exact H1|]. by etransitivity.
Qed.

(** A message read earlier is still there, in its place. *)
Definition at_place x d : Prop := exists y, Mt d !! Message.id x = Some y /\
  Message.thread_parent_id y = Message.thread_parent_id x /\ Message.channel_id y = Message.channel_id x.
Definition root_of ch x d : Prop := at_place x d /\ Message.thread_parent_id x = None /\ Message.channel_id x = ch.

Lemma at_place_stable x : stable threads_kept (at_place x).
Proof. intros d d' [Hk _] (y & Hy & Hp & Hc). destruct (Hk _ _ Hy) as (z & ? & ? & ?). exists z. split_and!; congruence. Qed.
Lemma threaded_stable : stable threads_kept (fun d => threaded (Mt d)).
Proof. intros d d' [_ Ht]. exact Ht. Qed.

Lemma find_root_place id d x : threaded (Mt d) -> find_root id (message_tables (app d)) = Some x ->
  Message.id x = id /\ at_place x d.
Proof.
  intros [Hids _]. unfold find_root. destruct (Mt d !! id) as [y|] eqn:Ey; cbn; [|done]. destruct (_ || _); [|done]. intros [= <-].
  assert (Message.id (Message.redacted y) = Message.id y /\ Message.thread_parent_id (Message.redacted y) = Message.thread_parent_id y /\
    Message.channel_id (Message.redacted y) = Message.channel_id y) as (Hi & Hp & Hc) by (unfold Message.redacted; by destruct (Message.deleted_at y)).
  rewrite Hi, (Hids _ _ Ey). split; [done|]. exists y. by rewrite Hi, Hp, Hc, (Hids _ _ Ey).
Qed.

Lemma thread_root_finds ch parent : triple threads_kept (fun d => threaded (Mt d)) (thread_root ch parent)
  (fun r d => threaded (Mt d) /\ forall x, r = Ok x -> root_of ch x d).
Proof.
  set (S := fun (r : AppResult Message.t) d => threaded (Mt d) /\ forall x, r = Ok x -> root_of ch x d).
  assert (Herr : forall e d, threaded (Mt d) -> S (Err e) d) by (intros e d Hd; by split).
  assert (Hread : forall id, triple threads_kept (fun d => threaded (Mt d)) (query (fun t => find_root id (message_tables t)))
    (fun r d => threaded (Mt d) /\ forall o, r = Ok o -> forall x, o = Some x -> Message.id x = id /\ at_place x d)).
  { intros id. apply (triple_answer threads_kept (fun d => threaded (Mt d)) _ (fun o d => forall x, o = Some x -> Message.id x = id /\ at_place x d));
      [apply threaded_stable|]. intros d Hd x. by apply find_root_place. }
  unfold thread_root. eapply (triple_bind threads_kept); [apply Hread|].
  intros [o|e]; [|apply (triple_ret threads_kept); intros d [Hd _]; auto].
  apply (triple_check threads_kept); [|by intros e d [Hd _]; auto]. intros x Ho.
  destruct o as [x'|]; [injection Ho as ->|done].
  apply (triple_pre threads_kept (fun d => threaded (Mt d) /\ at_place x d)); [intros d [Hd Hx]; split; [done|by eapply Hx]|].
  case_bool_decide as Hch; cbn [negb]; [|apply (triple_ret threads_kept); intros d [Hd _]; auto].
  destruct (Message.thread_parent_id x) as [root_id|] eqn:Ep; [|apply (triple_ret threads_kept); intros d [Hd Hx]; split; [done|]; by intros ? [= <-]].
  eapply (triple_bind threads_kept).
  { eapply (triple_frame threads_kept); [apply at_place_stable|apply Hread]. }
  intros [o|e]; [|apply (triple_ret threads_kept); intros d [[Hd _] _]; auto].
  apply (triple_ret threads_kept). intros d [[Hd Ho2] (y & Hy & Hyp & Hyc)]. split; [done|]. intros r Hr. destruct o as [r'|]; [injection Hr as ->|done].
  destruct (Ho2 _ eq_refl _ eq_refl) as [Hid Hr]. split; [done|]. destruct Hd as [_ Hpar]. rewrite Ep in Hyp.
  destruct (Hpar _ _ _ Hy Hyp) as (z & Hz & Hzp & Hzc). destruct Hr as (z' & Hz' & Hzp' & Hzc'). rewrite Hid in Hz'.
  split; congruence.
Qed.

Lemma prepare_roots auth ch req : triple threads_kept (fun d => threaded (Mt d)) (prepare present auth ch req)
  (fun r d => threaded (Mt d) /\ forall p, r = Ok p -> forall x, Prepared.root p = Some x -> root_of ch x d).
Proof.
  set (S := fun (r : AppResult Prepared.t) d => threaded (Mt d) /\ forall p, r = Ok p -> forall x, Prepared.root p = Some x -> root_of ch x d).
  assert (Herr : forall e d, threaded (Mt d) -> S (Err e) d) by (intros e d Hd; by split).
  unfold prepare. apply (triple_check threads_kept); [intros auth' ->%scoped_same|by auto].
  do 2 (apply (triple_check threads_kept); [intros _ _|by auto]).
  apply (triple_step threads_kept); [apply threaded_stable|apply require_channel_post_as_follows, _|intros access|by auto].
  apply (triple_step threads_kept); [apply threaded_stable| |intros _|by auto].
  { destruct (mentions_everyone _); [apply require_broadcast_follows, _|apply follows_ret, _]. }
  apply (triple_step threads_kept); [apply threaded_stable| |intros forwarded|by auto].
  { destruct (SendMessageRequest.forwarded_from req); [apply forwarded_files_follows, _|apply follows_ret, _]. }
  destruct (Nat.ltb _ _); [by apply (triple_ret threads_kept)|]. case_bool_decide; [by apply (triple_ret threads_kept)|].
  apply (triple_then threads_kept _ _ _ (fun root d => threaded (Mt d) /\ forall x, root = Some x -> root_of ch x d)); [| |by auto].
  - destruct (SendMessageRequest.thread_parent_id req) as [parent|]; [|by apply (triple_ret threads_kept)].
    eapply (triple_bind threads_kept); [apply thread_root_finds|].
    intros [x|e]; apply (triple_ret threads_kept); [|by intros d [Hd _]]. intros d [Hd Hx]. split; [done|]. intros ? [= <-]. by apply Hx.
  - intros root. eapply (triple_bind threads_kept).
    + apply triple_of_follows; [|apply expand_mentions_follows, _]. intros d d' HR [Hd Hr]. split; [by eapply threaded_stable|].
      intros x Hx. destruct (Hr x Hx) as [Ha ?]. split; [by eapply at_place_stable|done].
    + intros mentioned. apply (triple_ret threads_kept). intros d [Hd Hr]. split; [done|]. by intros p [= <-].
Qed.

Lemma threads_kept_app d d' : app d' = app d -> threads_kept d d'.
Proof. intros E. unfold threads_kept. by rewrite E. Qed.
Lemma threads_kept_objects f d : threads_kept d (with_objects f d).
Proof. unfold threads_kept. by rewrite (same_tables_messages _ _ (same_tables_objects f d)). Qed.

Lemma announce_reply_follows (R : relation ApiDb) `{!PreOrder R} root ws : (forall d d', app d' = app d -> R d d') ->
  follows R (announce_reply entry_id draw now root ws).
Proof.
  intros HR. unfold announce_reply, announce_thread, svc_ignore, publish. solve_follows. apply emit_follows; [apply _|done].
Qed.

(** C5: Threads are one level deep.  However requests to send interleave with
    each other and with anything that keeps messages where they are, a reply
    hangs from a message of its own channel that is not a reply itself, in
    every state a request leaves behind. *)
Theorem threads_are_one_level auth ch (req : SendMessageRequest.t) (w : SvcWorld ApiDb) :
  rely threads_kept w -> threaded (Mt (shared w)) ->
  let w' := (send_message entry_id draw now show_time public_address path_parses fresh present struck_early auth ch req w).2 in
  threads_kept (shared w) (shared w') /\ threaded (Mt (shared w')).
Proof.
  intros Hw Ht.
  assert (HT : triple threads_kept (fun d => threaded (Mt d))
    (send_message entry_id draw now show_time public_address path_parses fresh present struck_early auth ch req) (fun _ d => threaded (Mt d))).
  { unfold send_message. apply (triple_then threads_kept _ _ _ (fun p d => threaded (Mt d) /\
      (NewMessage.channel_id (Prepared.new p) = ch /\ NewMessage.thread_parent_id (Prepared.new p) = Message.id <$> Prepared.root p) /\
      forall x, Prepared.root p = Some x -> root_of ch x d)); [| |by auto].
    { intros v Hv HP. destruct (prepare_roots auth ch req v Hv HP) as (H1 & H2 & H3 & H4). split; [done|]. split; [done|].
      pose proof (prepare_yields auth ch req v) as Hy. destruct (prepare present auth ch req v) as [[p|e] v']; [|done]. cbn in *.
      destruct (Hy p eq_refl) as (? & _ & _ & _ & ?). naive_solver. }
    intros p. apply (triple_pre threads_kept (fun d => (threaded (Mt d) /\ forall x, Prepared.root p = Some x -> root_of ch x d) /\
      (NewMessage.channel_id (Prepared.new p) = ch /\ NewMessage.thread_parent_id (Prepared.new p) = Message.id <$> Prepared.root p))); [tauto|].
    apply triple_pure. intros [Hch Hpar].
    assert (Hst : stable threads_kept (fun d => threaded (Mt d) /\ forall x, Prepared.root p = Some x -> root_of ch x d)).
    { intros d d' HR [Hd Hr]. split; [by eapply threaded_stable|]. intros x Hx. destruct (Hr x Hx) as [Ha ?]. split; [by eapply at_place_stable|done]. }
    apply (triple_step threads_kept); [done|apply copy_objects_follows; [apply _|apply threads_kept_objects]| |by intros e d [? _]].
    intros copied. eapply (triple_bind threads_kept _ _ _ (fun _ d => threaded (Mt d))).
    - assert (Hsend : forall d, threaded (Mt d) /\ (forall x, Prepared.root p = Some x -> root_of ch x d) ->
        threads_kept d (send_tx draw now show_time public_address (Prepared.new p) (SendMessageRequest.attachment_ids req) copied
          (Prepared.workspace p) (Prepared.root p) d).1).
      { intros d [Hd Hr]. apply send_tx_kept. intros id Hid. rewrite Hpar in Hid. apply fmap_Some in Hid as (x & Hx & ->).
        destruct (Hr x Hx) as ((y & Hy & Hyp & Hyc) & Hxp & Hxc). exists y. split_and!; congruence. }
      apply (triple_call threads_kept); [done|exact Hsend| |].
      + intros d Hd. exact (threaded_stable _ _ (Hsend d Hd) (proj1 Hd)).
      + intros d f Hd. split; [by destruct Hd|]. exact (threaded_stable _ _ (Hsend d Hd) (proj1 Hd)).
    - intros outcome. eapply triple_post; [|apply triple_of_follows; [apply threaded_stable|]]; [by intros|].
      assert (Hd : forall e, follows threads_kept (_ ← discard_copies path_parses copied; mret (Err e) : Api Message.t)).
      { intros e. apply follows_bind; [apply _|apply discard_copies_follows; [apply _|apply threads_kept_objects]|]. intros []. apply follows_ret, _. }
      destruct outcome as [[m staged| |e|e|e]|f]; try apply Hd; [| |apply follows_ret, _|destruct (struck_early f); [apply Hd|apply follows_ret, _]].
      + apply follows_bind; [apply _|apply dispatch_follows; [apply _|apply threads_kept_app]|]. intros [].
        apply follows_bind; [apply _| |intros []; apply follows_ret, _].
        destruct (Prepared.root p); [apply announce_reply_follows; [apply _|apply threads_kept_app]|apply follows_ret, _].
      + destruct (SendMessageRequest.client_message_id req); [|apply Hd].
        apply follows_bind; [apply _|apply discard_copies_follows; [apply _|apply threads_kept_objects]|]. intros []. unfold require. solve_follows. apply query_follows, _. }
  destruct (HT w Hw Ht) as (H1 & _ & H2). done.
Qed.
End sending.

(** ** Messages that were there *)

Module SampleSends.
#[local] Instance letters : Alphanumeric := {| is_alphanumeric := is_ascii_alphanumeric |}.
(** An identifier of version 4. *)
Definition client : Uuid := N.shiftl 4 76.
Definition secret : Message.t :=
  {| Message.id := 51%N; Message.channel_id := 30%N; Message.user_id := 1%N; Message.client_message_id := Some client;
     Message.content := $"secret"; Message.metadata := JObject []; Message.thread_parent_id := None; Message.reply_count := 0;
     Message.is_pinned := false; Message.created_at := 10; Message.updated_at := 10; Message.deleted_at := Some 20 |}.
Definition db : ApiDb := SampleMessages.db [secret] [].
Definition draw (d : ApiDb) : Uuid := (1000 + Z.to_N (next_row d))%N.
Definition request (content : str) (client_id : option Uuid) : SendMessageRequest.t :=
  {| SendMessageRequest.content := content; SendMessageRequest.thread_parent_id := None; SendMessageRequest.also_to_channel := false;
     SendMessageRequest.client_message_id := client_id; SendMessageRequest.attachment_ids := []; SendMessageRequest.forwarded_from := None |}.
Definition send (u : Uuid) (req : SendMessageRequest.t) (d : ApiDb) : AppResult Message.t * SvcWorld ApiDb :=
  send_message Outbox.SampleOutbox.entry_id draw 100 (fun _ => []) [] (fun _ => true) (fun _ => (0%N, 0%N)) (fun _ => []) (fun _ => true)
    (Authz.SampleTables.caller u) 30%N req {| shared := d; agenda := [] |}.
Definition caller : Uuid -> AuthUser.t := Authz.SampleTables.caller.
Definition delete_51 (u : Uuid) (w : SvcWorld ApiDb) : AppResult unit * SvcWorld ApiDb :=
  delete_message Outbox.SampleOutbox.entry_id draw 100 (fun _ => []) (fun _ => true) None (caller u) 51%N w.
(** A tick without a fault, before which others do something. *)
Definition tick (f : ApiDb -> ApiDb) (fault : option svc_fault) : SvcTick ApiDb := {| others := f; call_fault := fault |}.
(** The owner deletes the message between two calls of a request. *)
Definition meanwhile (d : ApiDb) : ApiDb := shared (delete_51 1 {| shared := d; agenda := [] |}).2.
Definition unread_by_2 (d : ApiDb) : option Z := ChannelMember.unread_count <$> channel_members (app d) !! (30%N, 2%N).
Definition truth_for_2 (d : ApiDb) : Z := unread_truth 30%N 2%N None (message_tables (app d)).
Definition two_unread : ApiDb :=
  SampleMessages.db [SampleMessages.message 51 1 10 ($"a") None; SampleMessages.message 52 1 20 ($"b") None]
    [SampleMessages.seat 1 0; SampleMessages.seat 2 2].
(** A file of a message of the person, and its object. *)
Definition attached : FileRecord.t :=
  {| FileRecord.id := 70%N; FileRecord.message_id := Some 51%N; FileRecord.user_id := 1%N; FileRecord.workspace_id := 20%N;
     FileRecord.filename := $"a.txt"; FileRecord.storage_key := $"k/a.txt"; FileRecord.mime_type := $"text/plain"; FileRecord.size_bytes := 1;
     FileRecord.thumbnail_key := None; FileRecord.width := None; FileRecord.height := None; FileRecord.created_at := 10;
     FileRecord.draft_until := None |}.
Definition with_file : ApiDb :=
  with_app (set_message_tables (fun t => set_objects (fun _ => {[$"k/a.txt"]}) (set_files (fun _ => {[70%N := attached]}) t)))
    (SampleMessages.db [SampleMessages.message 51 1 10 ($"a") None] [SampleMessages.seat 1 0]).
Definition forward : SendMessageRequest.t :=
  {| SendMessageRequest.content := $"see"; SendMessageRequest.thread_parent_id := None; SendMessageRequest.also_to_channel := false;
     SendMessageRequest.client_message_id := None; SendMessageRequest.attachment_ids := []; SendMessageRequest.forwarded_from := Some 51%N |}.
Definition forwarding (ticks : list (SvcTick ApiDb)) : AppResult Message.t * SvcWorld ApiDb :=
  send_message Outbox.SampleOutbox.entry_id draw 100 (fun _ => []) [] (fun _ => true) (fun n => (N.of_nat n, 0%N)) (fun _ => []) (fun _ => false)
    (caller 1) 30%N forward {| shared := with_file; agenda := ticks |}.
(** The transaction of the send is lost. *)
Definition lost : list (SvcTick ApiDb) := replicate 9 (tick id None) ++ [tick id (Some (CallRefused []))].
(** Somebody without a seat anywhere, who wrote a message while there. *)
Definition after_leaving : ApiDb :=
  with_app (set_workspace_members (delete (20%N, 2%N))) (SampleMessages.db [SampleMessages.message 51 2 10 ($"a") None] []).
Definition edit (u : Uuid) (content : str) (d : ApiDb) : AppResult Message.t * SvcWorld ApiDb :=
  update_message Outbox.SampleOutbox.entry_id draw 100 (fun _ => []) (fun _ => true) (caller u) 51%N
    {| UpdateMessageRequest.content := content; UpdateMessageRequest.attachment_ids := None |} {| shared := d; agenda := [] |}.
Definition post (req : SendMessageRequest.t) (d : ApiDb) : AppResult Message.t * SvcWorld ApiDb :=
  send_message Outbox.SampleOutbox.entry_id draw 100 (fun _ => []) [] (fun _ => true) (fun n => (N.of_nat n, 0%N)) (fun _ => []) (fun _ => false)
    (caller 1) 30%N req {| shared := d; agenda := [] |}.
(** A file that is not there is attached besides what is forwarded. *)
Definition forward_and_attach : SendMessageRequest.t :=
  {| SendMessageRequest.content := $"see"; SendMessageRequest.thread_parent_id := None; SendMessageRequest.also_to_channel := false;
     SendMessageRequest.client_message_id := None; SendMessageRequest.attachment_ids := [77%N]; SendMessageRequest.forwarded_from := Some 51%N |}.
(** A message and its reply. *)
Definition thread : ApiDb :=
  SampleMessages.db [Message.set_reply_count (fun _ => 1) (SampleMessages.message 51 1 10 ($"a") None); SampleMessages.message 52 1 20 ($"re") (Some 51%N)] [SampleMessages.seat 1 0].
Definition reply_to_52 : SendMessageRequest.t :=
  {| SendMessageRequest.content := $"b"; SendMessageRequest.thread_parent_id := Some 52%N; SendMessageRequest.also_to_channel := false;
     SendMessageRequest.client_message_id := None; SendMessageRequest.attachment_ids := []; SendMessageRequest.forwarded_from := None |}.
End SampleSends.

(** A deleted message can be read back.  A message that was deleted, whose
    content no page and no lookup gives any more, is answered whole to anybody
    who may post in the channel and sends something with its client identifier,
    which every reader of the message was given. *)
Theorem a_deleted_message_can_be_read_back :
  find_message 51%N (message_tables (app SampleSends.db)) = None /\
  list_channel_messages 30%N 50 None (message_tables (app SampleSends.db)) = [] /\
  (SampleSends.send 2 (SampleSends.request ($"hi") (Some SampleSends.client)) SampleSends.db).1 = Ok SampleSends.secret /\
  Message.content SampleSends.secret = $"secret" /\ Message.user_id SampleSends.secret = 1%N.
Proof. vm_compute. repeat split. Qed.

(** Two deletions at once lower a counter twice.  When a request to delete
    a message and another that does the same meet, both succeed and the
    members who had not read it lose two from what they have not read, one of
    them for a message that is still there. *)
Theorem two_deletions_at_once_lower_twice :
  let '(r, w) := SampleSends.delete_51 1 {| shared := SampleSends.two_unread; agenda := [SampleSends.tick id None; SampleSends.tick SampleSends.meanwhile None] |} in
  r = Ok tt /\ SampleSends.unread_by_2 SampleSends.two_unread = Some (SampleSends.truth_for_2 SampleSends.two_unread) /\
  SampleSends.truth_for_2 (shared w) = 1 /\ SampleSends.unread_by_2 (shared w) = Some 0.
Proof. vm_compute. repeat split. Qed.

(** A send that is lost late leaves the copies it made.  When the
    transaction of a forwarded message is lost after its files were attached,
    the request fails and no message and no file is written, but the object
    copied for it stays in the store, under a key no row names. *)
Theorem a_lost_send_leaves_its_copies :
  let '(r, w) := SampleSends.forwarding SampleSends.lost in
  is_ok r = false /\ message_tables (app (shared w)) = set_objects (union {[object_key 20%N 0%N ($"a.txt")]}) (message_tables (app SampleSends.with_file)) /\
  ~ object_key 20%N 0%N ($"a.txt") ∈ objects_of SampleSends.with_file /\
  Forall (fun f => FileRecord.storage_key f <> object_key 20%N 0%N ($"a.txt")) (map_to_list (files (message_tables (app (shared w))))).*2.
Proof.
  vm_compute. split; [done|]. split; [done|]. split; [by intros [=]|]. repeat constructor. discriminate.
Qed.

(** Somebody who left can still edit.  A message is edited by its author
    without asking whether the author can still see its channel: one who has
    no seat in the workspace, whom the channel refuses, changes what its
    members read. *)
Theorem an_author_who_left_can_edit :
  is_ok (require_channel_access 30%N 2%N {| shared := SampleSends.after_leaving; agenda := [] |}).1 = false /\
  is_ok (SampleSends.edit 2%N ($"changed") SampleSends.after_leaving).1 = true /\
  Message.content <$> find_message 51%N (message_tables (app (shared (SampleSends.edit 2%N ($"changed") SampleSends.after_leaving).2))) = Some ($"changed").
Proof. vm_compute. repeat split. Qed.

Lemma resending_changes_nothing_witness :
  let '(r, w') := SampleSends.send 2 (SampleSends.request ($"hi") (Some SampleSends.client)) SampleSends.db in
  same_tables SampleSends.db (shared w') /\ r = Ok SampleSends.secret.
Proof.
  pose proof (@resending_changes_nothing Outbox.SampleOutbox.uuid SampleSends.letters Outbox.SampleOutbox.entry_id SampleSends.draw 100 (fun _ => []) []
    (fun _ => true) (fun _ => (0%N, 0%N)) (fun _ => []) (fun _ => true) (Authz.SampleTables.caller 2) 30%N (SampleSends.request ($"hi") (Some SampleSends.client))
    SampleSends.client SampleSends.secret {| shared := SampleSends.db; agenda := [] |}) as H.
  assert (Hr : (SampleSends.send 2 (SampleSends.request ($"hi") (Some SampleSends.client)) SampleSends.db).1 = Ok SampleSends.secret) by (vm_compute; reflexivity).
  unfold SampleSends.send in *. match goal with |- let '(_, _) := ?x in _ => destruct x as [r w'] end. split; [|exact Hr].
  apply H; [by apply Forall_nil|reflexivity|vm_compute; reflexivity].
Defined.

Lemma a_refused_send_leaves_nothing_witness :
  exists e w, SampleSends.post SampleSends.forward_and_attach SampleSends.with_file = (Err e, w) /\
    shared w = SampleSends.with_file.
Proof.
  destruct (SampleSends.post _ _) as [[m|e] w] eqn:E; [vm_compute in E; discriminate E|].
  exists e, w. split; [done|]. apply a_refused_send_leaves_nothing in E; [by rewrite E|].
  intros n ws name. unfold objects_of, SampleSends.with_file, object_key. cbn. rewrite !elem_of_singleton. split; intros E'; discriminate E'.
Defined.

Lemma threads_are_one_level_witness :
  let '(r, w) := SampleSends.post SampleSends.reply_to_52 SampleSends.thread in
  is_ok r = true /\ size (messages (message_tables (app (shared w)))) = 3%nat /\ threaded (messages (message_tables (app (shared w)))).
Proof.
  pose proof (@threads_are_one_level Outbox.SampleOutbox.uuid SampleSends.letters Outbox.SampleOutbox.entry_id SampleSends.draw 100 (fun _ => []) []
    (fun _ => true) (fun n => (N.of_nat n, 0%N)) (fun _ => []) (fun _ => false) (SampleSends.caller 1) 30%N SampleSends.reply_to_52
    {| shared := SampleSends.thread; agenda := [] |}) as H.
  unfold SampleSends.post. match goal with |- let '(_, _) := ?x in _ => destruct x as [r w] eqn:E end. cbn [snd] in H. destruct H as [_ H]; [by apply Forall_nil| |].
  - split; intros k x; [|intros p]; intros Hk%elem_of_map_to_list;
      (match type of Hk with _ ∈ ?l => let l' := eval vm_compute in l in replace l with l' in Hk by (vm_compute; reflexivity) end);
      rewrite !elem_of_cons, elem_of_nil in Hk; destruct Hk as [[= -> ->]|[[= -> ->]|[]]]; try done. intros [= <-]. eexists. split; [vm_compute; reflexivity|done].
  - split; [|split; [|exact H]]; vm_compute in E; injection E as <- <-; reflexivity.
Defined.
