(* ===== verification/MentionLaws.v ===== *)
(** * Whom a message reaches ([backend/api/src/messaging/routes.rs])

    The people [expand_mentions] finds, whatever fails on the way. *)

From stdpp Require Import base tactics option numbers list gmap sorting.
From Stdlib Require Import ZArith Lia String Ascii.
From S2P Require Import Prelude RustStr Json Errors Frames Publisher ListStore MessageStore Mentions ApiState Outbox AuditLog Tables Authz Membership ApiLaws Messaging Threads MessageRoutes SendLaws.

Lemma dedup_two (a b : N) (l : list N) : dedup (a :: b :: l) = if bool_decide (a = b) then dedup (b :: l) else a :: dedup (b :: l).
Proof. done. Qed.
Lemma elem_of_dedup (l : list N) x : x ∈ dedup l <-> x ∈ l.
Proof.
  induction l as [|a l IH]; [done|]. destruct l as [|b l]; [done|]. rewrite dedup_two. case_bool_decide as E.
  - subst b. rewrite IH. set_solver.
  - rewrite elem_of_cons, IH. by rewrite (elem_of_cons (b :: l)).
Qed.
Lemma dedup_sorted (l : list N) : StronglySorted N.le l -> StronglySorted N.lt (dedup l).
Proof.
  induction 1 as [|a l Hs IH Ha]; [constructor|]. destruct l as [|b l]; [by constructor|]. rewrite dedup_two. case_bool_decide as E; [done|].
  constructor; [done|]. apply Forall_forall. intros x Hx. apply (proj1 (elem_of_dedup _ _)) in Hx. apply StronglySorted_inv in Hs as [_ Hb].
  apply Forall_cons in Ha as [Hab _]. apply elem_of_cons in Hx as [->|Hx]; [lia|]. rewrite Forall_forall in Hb. specialize (Hb x Hx). lia.
Qed.
Lemma sort_ids_sorted l : StronglySorted N.lt (sort_ids l).
Proof. apply dedup_sorted, (StronglySorted_merge_sort N.le). Qed.
Lemma elem_of_sort_ids l x : x ∈ sort_ids l <-> x ∈ l.
Proof. unfold sort_ids. by rewrite elem_of_dedup, merge_sort_Permutation. Qed.

Section mentioned.
Context `{UuidText, Alphanumeric} (present : Uuid -> list str).
Implicit Types (ch u : Uuid) (d : ApiDb).

Abbreviation seats := (leaves channel_members).

Definition in_seats (C : gmap (Uuid * Uuid) ChannelMember.t) ch (l : list Uuid) : Prop := forall u, u ∈ l -> is_Some (C !! (ch, u)).

Lemma or_else_follows {A} (R : relation ApiDb) `{!PreOrder R} (otherwise : A) (r : Api A) : follows R r -> follows R (or_else otherwise r).
Proof. intros Hr. unfold or_else. apply follows_bind; [apply _|done|]. intros a. apply follows_ret, _. Qed.

(** The members a query found, or none. *)
Lemma members_found (C : gmap (Uuid * Uuid) ChannelMember.t) ch :
  triple seats (fun d => channel_members (app d) = C) (or_else [] (list_channel_member_ids ch))
    (fun l d => channel_members (app d) = C /\ in_seats C ch l).
Proof.
  unfold or_else. eapply (triple_bind seats).
  - apply (triple_answer seats (fun d => channel_members (app d) = C) _ (fun l _ => in_seats C ch l)).
    + intros d d' HR Hd. by rewrite HR.
    + intros d <- u ([c v] & Hk & Hs)%list_elem_of_omap. cbn in *. case_bool_decide; [|done]. simplify_eq.
      apply list_elem_of_fmap in Hk as ([k s] & -> & Hk%elem_of_map_to_list). by exists s.
  - intros [l|e]; apply (triple_ret seats); [intros d [Hd Hl]; by auto|]. intros d [Hd _]. split; [done|]. by intros u Hu%not_elem_of_nil.
Qed.

(** C38: A message reaches whom it names.  The people a message notifies are in
    order and each once, its author never among them; each is named in the
    text itself or sits in the channel at that moment, whether a broadcast or
    a group was mentioned and whatever lookup failed. *)
Theorem mentions_reach_the_named_and_the_seated ch (author : Uuid) (content : str) (w : SvcWorld ApiDb) :
  rely seats w ->
  let l := (expand_mentions present ch author content w).1 in
  StronglySorted N.lt l /\ (author ∉ l) /\
  forall u, u ∈ l -> u ∈ extract_mentioned_user_ids content \/ is_Some (channel_members (app (shared w)) !! (ch, u)).
Proof.
  intros Hw. set (C := channel_members (app (shared w))). set (P := fun d : ApiDb => channel_members (app d) = C).
  assert (HP : stable seats P) by (intros d d' HR Hd; unfold P in *; by rewrite HR).
  assert (HT : triple seats P (expand_mentions present ch author content) (fun l _ =>
    StronglySorted N.lt l /\ (author ∉ l) /\ forall u, u ∈ l -> u ∈ extract_mentioned_user_ids content \/ is_Some (C !! (ch, u)))).
  { assert (Hnone : forall Q : list Uuid -> ApiDb -> Prop, (forall d, P d -> Q [] d) -> triple seats P (mret []) Q) by (intros Q HQ; by apply (triple_ret seats)).
    assert (Hskip : forall A B (m : Svc ApiDb A) (f : A -> Svc ApiDb B) Q, follows seats m -> (forall a, triple seats P (f a) Q) -> triple seats P (m ≫= f) Q).
    { intros A B m f Q Hm Hf. eapply (triple_bind seats); [by apply triple_of_follows|done]. }
    assert (Hq : forall A (q : AppTables -> A) o, follows seats (or_else o (query q))).
    { intros A q o. apply or_else_follows, query_follows; apply _. }
    unfold expand_mentions. apply Hskip; [destruct (_ || _); [apply Hq|apply follows_ret, _]|intros channel].
    apply Hskip.
    { destruct channel; [destruct (any _)|]; try apply follows_ret, _. apply or_else_follows, can_broadcast_follows; apply _. }
    intros may. eapply (triple_bind seats _ _ _ (fun l d => P d /\ in_seats C ch l)).
    - destruct may; [|apply Hnone; intros d Hd; split; [done|by intros u Hu%not_elem_of_nil]].
      eapply (triple_bind seats); [apply members_found|]. intros members. apply triple_pure. intros Hm.
      apply Hskip.
      { destruct (_ && _), channel; try apply follows_ret, _. apply follows_bind; [apply _| |intros l; apply follows_ret, _].
        unfold online_user_ids. solve_follows. reflexivity. }
      intros online. apply (triple_ret seats). intros d Hd. split; [done|]. intros u [_ Hu]%list_elem_of_filter. auto.
    - intros everyone. apply triple_pure. intros He. eapply (triple_bind seats _ _ _ (fun l d => in_seats C ch l)).
      + destruct (extract_group_mentions content) as [|g gs], channel as [c|]; try by (apply (triple_ret seats); intros d Hd u Hu%not_elem_of_nil).
        apply Hskip; [apply Hq|]. intros in_group. destruct in_group as [|x in_group]; [by (apply (triple_ret seats); intros d Hd u Hu%not_elem_of_nil)|].
        eapply (triple_bind seats); [apply members_found|]. intros members. apply triple_pure. intros Hm. apply (triple_ret seats).
        intros d Hd u [Hu _]%list_elem_of_filter. auto.
      + intros grouped. apply (triple_ret seats). intros d Hg. split; [apply sort_ids_sorted|]. split.
        * rewrite elem_of_sort_ids, list_elem_of_filter. tauto.
        * intros u Hu. rewrite elem_of_sort_ids, list_elem_of_filter, !elem_of_app in Hu. destruct Hu as [_ [Hu|[Hu|Hu]]]; [by left|right; by apply He|right; by apply Hg]. }
  destruct (HT w Hw eq_refl) as (_ & _ & H1). exact H1.
Qed.
End mentioned.

Lemma mentions_reach_the_named_and_the_seated_witness :
  let d := SampleMessages.db [] [SampleMessages.seat 1 0; SampleMessages.seat 2 0] in
  let l := (@expand_mentions Outbox.SampleOutbox.uuid SampleSends.letters (fun _ => []) 30%N 1%N ($"@channel") {| shared := d; agenda := [] |}).1 in
  l = [2%N] /\ ~ 1%N ∈ l /\ is_Some (channel_members (app d) !! (30%N, 2%N)).
Proof.
  cbv zeta. set (d := SampleMessages.db _ _).
  destruct (@mentions_reach_the_named_and_the_seated Outbox.SampleOutbox.uuid SampleSends.letters (fun _ => []) 30%N 1%N ($"@channel")
    {| shared := d; agenda := [] |}) as (_ & Ha & Hs); [by apply Forall_nil|].
  split; [vm_compute; reflexivity|]. split; [exact Ha|].
  destruct (Hs 2%N) as [Hin|Hin]; [vm_compute; by left|vm_compute in Hin; by apply not_elem_of_nil in Hin|exact Hin].
Defined.
