(* ===== verification/PollLaws.v ===== *)
(** * What holds of polls
    ([backend/api/src/polls/{service,repo}.rs])

    The message of a poll shows the votes that were cast, and a closed poll
    takes none, however the requests interleave. *)

From stdpp Require Import base tactics option numbers list gmap sorting.
From Stdlib Require Import ZArith Lia String Ascii.
From S2P Require Import Prelude RustStr Json Errors Frames Publisher ListForms ListStore MessageStore PollStore Mentions ApiState Outbox AuditLog Tables Authz Membership ApiLaws Messaging Files Threads MessageRoutes Polls MessageLaws SendLaws.

Abbreviation Pt d := (poll_tables (app d)).

(** ** Tables of polls *)

Section store.
Implicit Types (t : PollTables) (poll u o : Uuid).

(** A vote is for an option of its poll. *)
Definition votes_fit t : Prop := forall o u v, poll_votes t !! (o, u) = Some v ->
  PollOption.poll_id <$> poll_options t !! o = Some (PollVote.poll_id v).
Definition ballots poll t : gmap (Uuid * Uuid) PollVote.t := filter (fun v => PollVote.poll_id v.2 = poll) (poll_votes t).
(** What two states agree on when a poll is the same in both. *)
Definition same_poll poll t t' : Prop := options_of poll t' = options_of poll t /\ ballots poll t' = ballots poll t.

#[local] Instance position_le_trans : Transitive position_le.
Proof. intros a b c. unfold position_le. lia. Qed.
#[local] Instance position_le_total : Total position_le.
Proof. intros a b. unfold position_le. lia. Qed.

Lemma elem_of_options poll t o x : (o, x) ∈ options_of poll t <-> poll_options t !! o = Some x /\ PollOption.poll_id x = poll.
Proof. unfold options_of. rewrite merge_sort_Permutation, list_elem_of_filter, elem_of_map_to_list. cbn. tauto. Qed.
Lemma elem_of_option_ids poll t o : o ∈ option_ids poll t <-> PollOption.poll_id <$> poll_options t !! o = Some poll.
Proof.
  unfold option_ids. rewrite list_elem_of_fmap. split.
  - intros ([o' x] & -> & [Hx <-]%elem_of_options). cbn. by rewrite Hx.
  - intros (x & Hx & ->)%fmap_Some. exists (o, x). split; [done|]. by apply elem_of_options.
Qed.
Lemma option_ids_NoDup poll t : NoDup (option_ids poll t).
Proof.
  unfold option_ids, options_of. apply (NoDup_fmap_fst); [|rewrite merge_sort_Permutation; apply NoDup_filter, NoDup_map_to_list].
  intros o x y. rewrite !merge_sort_Permutation, !list_elem_of_filter, !elem_of_map_to_list. intros [_ Hx] [_ Hy]. congruence.
Qed.

Lemma votes_for_ballots poll t o : votes_fit t -> o ∈ option_ids poll t -> votes_for o t = filter (fun v => v.1.1 = o) (ballots poll t).
Proof.
  intros Hf Ho%elem_of_option_ids. unfold votes_for, ballots. apply map_eq. intros [o' u]. rewrite map_lookup_filter, map_lookup_filter.
  destruct (filter _ _ !! (o', u)) as [v|] eqn:E; cbn.
  - apply map_lookup_filter_Some in E as [-> _]. cbn. done.
  - destruct (poll_votes t !! (o', u)) as [v|] eqn:Ev; [cbn|done]. case_guard as Ho'; [cbn in Ho'; subst|done].
    pose proof (Hf _ _ _ Ev) as Hv. rewrite Ho in Hv. injection Hv as Hv. rewrite map_lookup_filter_None in E.
    destruct E as [E|E]; [congruence|]. exfalso. by apply (E v Ev).
Qed.
Lemma voters_of_ballots poll t : voters_of poll t = set_map snd (dom (ballots poll t)).
Proof.
  apply set_eq. intros u. unfold voters_of, ballots. rewrite elem_of_list_to_set, list_elem_of_omap, elem_of_map. split.
  - intros ([[o u'] v] & Hv%elem_of_map_to_list & E). cbn in E. case_bool_decide; [|done]. injection E as ->. exists (o, u). split; [done|].
    apply elem_of_dom. exists v. by apply map_lookup_filter_Some.
  - intros ([o u'] & -> & [v Hv]%elem_of_dom). apply map_lookup_filter_Some in Hv as [Hv Hp]. exists ((o, u'), v).
    split; [by apply elem_of_map_to_list|]. cbn in *. by rewrite bool_decide_eq_true_2.
Qed.

(** The summary of a poll is about its options and its votes. *)
Lemma summary_same p t t' : votes_fit t -> votes_fit t' -> same_poll (Poll.id p) t t' -> summary_of p t' = summary_of p t.
Proof.
  intros Hf Hf' [Ho Hb]. unfold summary_of, voter_count. rewrite !voters_of_ballots, Hb. f_equal. unfold tally_of. rewrite Ho.
  apply list_fmap_ext. intros i [o x] Hi. cbn. do 2 f_equal.
  assert (Hin : o ∈ option_ids (Poll.id p) t) by (unfold option_ids; apply list_elem_of_fmap; exists (o, x); split; [done|by eapply list_elem_of_lookup_2]).
  assert (Hin' : o ∈ option_ids (Poll.id p) t') by (unfold option_ids in *; by rewrite Ho).
  by rewrite (votes_for_ballots _ _ _ Hf' Hin'), (votes_for_ballots _ _ _ Hf Hin), Hb.
Qed.

(** *** What the keys and constraints of the tables say *)

Record fit t : Prop := {
  fit_ids : forall k p, polls t !! k = Some p -> Poll.id p = k;
  fit_options : forall o x, poll_options t !! o = Some x -> is_Some (polls t !! PollOption.poll_id x);
  fit_positions : forall o x o' x', poll_options t !! o = Some x -> poll_options t !! o' = Some x' ->
    PollOption.poll_id x = PollOption.poll_id x' -> PollOption.position x = PollOption.position x' -> o = o';
  fit_votes : votes_fit t;
  fit_single : forall o o' u v v' p, poll_votes t !! (o, u) = Some v -> poll_votes t !! (o', u) = Some v' ->
    PollVote.poll_id v = PollVote.poll_id v' -> polls t !! PollVote.poll_id v = Some p -> Poll.multiple_choice p = false -> o = o';
}.

Lemma options_same poll t t' : fit t ->
  (forall o x, PollOption.poll_id x = poll -> poll_options t' !! o = Some x <-> poll_options t !! o = Some x) ->
  options_of poll t' = options_of poll t.
Proof.
  intros Hf Hx. assert (HP : options_of poll t' ≡ₚ options_of poll t).
  { unfold options_of. rewrite !merge_sort_Permutation. apply NoDup_Permutation; [apply NoDup_filter, NoDup_map_to_list..|].
    intros [o x]. rewrite !list_elem_of_filter, !elem_of_map_to_list. cbn. split; intros [H1 H2]; (split; [done|]); by apply Hx. }
  apply (StronglySorted_unique_strong position_le); [|apply StronglySorted_merge_sort; apply _..|done].
  intros [o x] [o' x'] H1 H2 H3 H4. rewrite HP in H1. apply elem_of_options in H1 as [H1 E1], H2 as [H2 E2]. unfold position_le in *. cbn in *.
  assert (o = o') as <- by (eapply (fit_positions t Hf); eauto; [congruence|lia]). congruence.
Qed.
Lemma ballots_same poll t t' :
  (forall k v, PollVote.poll_id v = poll -> poll_votes t' !! k = Some v <-> poll_votes t !! k = Some v) -> ballots poll t' = ballots poll t.
Proof.
  intros Hv. apply map_eq. intros k. apply option_eq. intros v. unfold ballots. rewrite !map_lookup_filter_Some. cbn.
  split; intros [H1 H2]; (split; [|done]); by apply Hv.
Qed.

(** *** Votes and voters *)

Lemma sum_of_parts (l : list Uuid) (B : gmap (Uuid * Uuid) PollVote.t) : NoDup l -> (forall k v, B !! k = Some v -> k.1 ∈ l) ->
  foldr Z.add 0 ((fun o => Z.of_nat (size (filter (fun v => v.1.1 = o) B))) <$> l) = Z.of_nat (size B).
Proof.
  revert B. induction l as [|o l IH]; intros B Hl Hin; cbn.
  - assert (B = ∅) as ->; [|done]. apply map_empty. intros k. destruct (B !! k) eqn:E; [|done]. by apply Hin, not_elem_of_nil in E.
  - apply NoDup_cons in Hl as [Ho Hl]. set (P := fun v : Uuid * Uuid * PollVote.t => v.1.1 = o).
    rewrite <-(map_filter_union_complement P B) at 2. rewrite map_size_disj_union by apply map_disjoint_filter_complement.
    rewrite Nat2Z.inj_add, <-(IH (filter (fun v => ~ P v) B)); [|done|].
    + f_equal. f_equal. apply list_fmap_ext. intros i o' Ho'%list_elem_of_lookup_2. do 2 f_equal. apply map_eq. intros k. apply option_eq. intros v.
      rewrite !map_lookup_filter_Some. unfold P. cbn. naive_solver.
    + intros k v [Hk Hne]%map_lookup_filter_Some. apply Hin in Hk. apply elem_of_cons in Hk as [Hk|]; [|done]. by destruct Hne.
Qed.
Lemma voters_of_list poll t : voters_of poll t = list_to_set ((fun k => k.2) <$> (map_to_list (ballots poll t)).*1).
Proof.
  rewrite voters_of_ballots. apply set_eq. intros u. rewrite elem_of_map, elem_of_list_to_set, list_elem_of_fmap. split.
  - intros (k & -> & [v Hv]%elem_of_dom). exists k. split; [done|]. apply list_elem_of_fmap. exists (k, v). split; [done|]. by apply elem_of_map_to_list.
  - intros (k & -> & ([k' v] & -> & Hv%elem_of_map_to_list)%list_elem_of_fmap). exists k'. split; [done|]. apply elem_of_dom. by exists v.
Qed.

(** In a poll of one answer the votes add up to the voters. *)
Definition votes_sum (s : PollSummary.t) : Z := foldr Z.add 0 (PollOptionCount.votes <$> PollSummary.options s).
Lemma one_answer_sums t p k : fit t -> polls t !! k = Some p -> Poll.multiple_choice p = false ->
  votes_sum (summary_of p t) = PollSummary.voters (summary_of p t).
Proof.
  intros Hf Hp Hm. pose proof (fit_ids t Hf _ _ Hp) as Hid. unfold votes_sum, summary_of, tally_of, voter_count. cbn.
  assert (E : foldr Z.add 0 (PollOptionCount.votes <$> ((fun o : Uuid * PollOption.t => {| PollOptionCount.id := o.1; PollOptionCount.label := PollOption.label o.2;
      PollOptionCount.votes := Z.of_nat (size (votes_for o.1 t)) |}) <$> options_of (Poll.id p) t)) =
    foldr Z.add 0 ((fun o => Z.of_nat (size (filter (fun v => v.1.1 = o) (ballots (Poll.id p) t)))) <$> option_ids (Poll.id p) t)).
  { f_equal. unfold option_ids. rewrite <-!list_fmap_compose. apply list_fmap_ext. intros i o Ho%list_elem_of_lookup_2. cbn. do 2 f_equal.
    apply votes_for_ballots; [apply Hf|]. unfold option_ids. apply list_elem_of_fmap. eauto. }
  rewrite E, sum_of_parts; [|apply option_ids_NoDup|].
  - rewrite voters_of_list, size_list_to_set, length_fmap, length_fmap, length_map_to_list; [done|].
    apply NoDup_fmap_2_strong; [|apply NoDup_fst_map_to_list].
    intros k1 k2 ([[o u] v] & -> & Hv%elem_of_map_to_list)%list_elem_of_fmap ([[o' u'] v'] & -> & Hv'%elem_of_map_to_list)%list_elem_of_fmap.
    cbn. intros <-. apply map_lookup_filter_Some in Hv as [Hv E1], Hv' as [Hv' E2]. cbn in *. f_equal.
    eapply (fit_single t Hf); eauto; [congruence|]. rewrite E1. by rewrite Hid.
  - intros [o u] v [Hv Ev]%map_lookup_filter_Some. cbn in *. apply elem_of_option_ids. rewrite (fit_votes t Hf _ _ _ Hv). by rewrite Ev.
Qed.
End store.

(** ** Statements and what they change *)

Section fields.
Implicit Types (t : AppTables).
Lemma polls_set f t : poll_tables (set_poll_tables f t) = f (poll_tables t).
Proof. by destruct t. Qed.
Lemma polls_set_messages f t : poll_tables (set_message_tables f t) = poll_tables t.
Proof. by destruct t. Qed.
Lemma messages_set_polls f t : message_tables (set_poll_tables f t) = message_tables t.
Proof. by destruct t. Qed.
Lemma polls_set_seats f t : poll_tables (set_channel_members f t) = poll_tables t.
Proof. by destruct t. Qed.
End fields.
#[export] Hint Rewrite polls_set polls_set_messages messages_set_polls polls_set_seats : msg_rw.

Lemma poll_read_Ok {A} (q : PollTables -> A) (d : ApiDb) a d' : poll_read q d = (Ok a, d') <-> a = q (Pt d) /\ d' = d.
Proof. apply read_Ok. Qed.
Lemma poll_run_Ok f (d : ApiDb) a d' : poll_run f d = (Ok a, d') <-> d' = with_app (set_poll_tables f) d.
Proof. apply run_Ok. Qed.

Ltac inv_poll :=
  repeat (progress inv_msg || match goal with
  | E : poll_read _ _ = (Ok _, _) |- _ => apply poll_read_Ok in E as [? ?]; subst
  | E : poll_run _ _ = (Ok _, _) |- _ => apply poll_run_Ok in E; subst
  end).

Section transactions.
Context `{UuidText, Alphanumeric, CaseFolding}.
Context (draw : ApiDb -> Uuid) (now : Z) (show_time : Z -> str).
Implicit Types (d : ApiDb) (p : Poll.t) (poll u ws : Uuid).

Definition ballot p : PollVote.t :=
  {| PollVote.poll_id := Poll.id p; PollVote.single_choice := negb (Poll.multiple_choice p); PollVote.created_at := now |}.

Lemma insert_votes_Ok p u (l : list Uuid) d r d' : tx_each (insert_vote now p u) l d = (Ok r, d') ->
  Mt d' = Mt d /\ polls (Pt d') = polls (Pt d) /\ poll_options (Pt d') = poll_options (Pt d) /\
  (forall o, o ∈ l -> PollOption.poll_id <$> poll_options (Pt d) !! o = Some (Poll.id p)) /\
  (forall o x, poll_votes (Pt d') !! (o, x) = if decide (x = u /\ o ∈ l) then Some (ballot p) else poll_votes (Pt d) !! (o, x)).
Proof.
  revert d r. induction l as [|o l IH]; intros d r E; cbn [tx_each] in E.
  - inv_poll. split_and!; [done..|by intros o Ho%not_elem_of_nil|]. intros o x. by rewrite decide_False by (by intros [_ Ho%not_elem_of_nil]).
  - apply tx_bind_Ok in E as ([] & d1 & E1 & E). apply tx_bind_Ok in E as (bs & d2 & E2 & E). inv_poll.
    unfold insert_vote in E1. inv_poll. bool_hyps. apply IH in E2 as (HM & HP & HO & Hl & HV).
    autorewrite with msg_rw in *. cbn in *. split_and!; [done..| |].
    + intros o' [->|Ho]%elem_of_cons; [done|by apply Hl].
    + intros o' x. rewrite HV. destruct (decide (x = u /\ o' ∈ l)) as [[-> Ho]|Hn].
      * rewrite decide_True; [done|]. split; [done|by right].
      * destruct (decide (x = u /\ o' = o)) as [[-> ->]|Hn2].
        -- rewrite decide_True; [by rewrite lookup_insert_eq|]. split; [done|by left].
        -- rewrite decide_False by (intros [-> [->|Ho]%elem_of_cons]; naive_solver). rewrite lookup_insert_ne; [done|naive_solver].
Qed.

Lemma change_message_Ok f id d m d' : change_message f id d = (Ok m, d') ->
  exists m0, Mt d !! id = Some m0 /\ m = f m0 /\ d' = with_app (set_message_tables (alter_message f id)) d.
Proof.
  unfold change_message. intros E. inv_poll. unfold alter_message in *. autorewrite with msg_rw in *. 
  match goal with E : _ !! id = Some m |- _ => rewrite lookup_alter_eq in E; apply fmap_Some in E as (m0 & Hm & ->) end. by exists m0.
Qed.
Lemma write_summary_Ok p d r d' : write_summary show_time p d = (Ok r, d') ->
  exists m0, Mt d !! Poll.message_id p = Some m0 /\
    r = (Message.set_metadata (set_poll (summary_json show_time (summary_of p (Pt d)))) m0, summary_of p (Pt d)) /\
    Pt d' = Pt d /\ Mt d' = <[Poll.message_id p := r.1]> (Mt d).
Proof.
  unfold write_summary, set_poll_in. intros E. inv_poll.
  match goal with E : change_message _ _ _ = _ |- _ => apply change_message_Ok in E as (m0 & Hm & -> & ->) end.
  exists m0. unfold alter_message. autorewrite with msg_rw. split_and!; [done..|]. cbn. apply map_eq. intros k.
  destruct (decide (k = Poll.message_id p)) as [->|Hne]; [by rewrite lookup_alter_eq, lookup_insert_eq, Hm|by rewrite lookup_alter_ne, lookup_insert_ne].
Qed.

(** The rest of a transaction. *)
Lemma stage_keeps ty ws x d s d' : stage_in draw now ty ws x d = (Ok s, d') -> app d' = app d.
Proof. pose proof (stage_in_leaves draw now (fun t => t) ty ws x d) as Hs. intros E. by rewrite E in Hs. Qed.

Lemma vote_tx_Ok u poll ws l d chosen s staged d' : vote_tx draw now show_time u poll ws l d = (Ok (chosen, s, staged), d') ->
  exists p m0, polls (Pt d) !! poll = Some p /\ Poll.is_closed p now = false /\
    chosen = filter (fun o => o ∈ l) (option_ids poll (Pt d)) /\ l ⊆ option_ids poll (Pt d) /\
    (Poll.multiple_choice p = false -> (length chosen <= 1)%nat) /\
    polls (Pt d') = polls (Pt d) /\ poll_options (Pt d') = poll_options (Pt d) /\
    (forall o x, poll_votes (Pt d') !! (o, x) = if decide (x = u /\ o ∈ chosen) then Some (ballot p)
       else v ← poll_votes (Pt d) !! (o, x); if decide (PollVote.poll_id v = Poll.id p /\ x = u) then None else Some v) /\
    s = summary_of p (Pt d') /\
    Mt d !! Poll.message_id p = Some m0 /\
    Mt d' = <[Poll.message_id p := Message.set_metadata (set_poll (summary_json show_time s)) m0]> (Mt d).
Proof.
  unfold vote_tx, lock_in. intros E. inv_poll.
  unfold replace_vote_in in *. inv_poll. bool_hyps.
  match goal with E : Some ?q = _ |- _ => rename q into p; symmetry in E; rename E into Hp end.
  match goal with E : (_, _, _) = _ |- _ => injection E as -> -> -> end.
  match goal with E : tx_each _ _ _ = _ |- _ => apply insert_votes_Ok in E as (HM & HP & HO & _ & HV) end.
  match goal with E : write_summary _ _ _ = _ |- _ => apply write_summary_Ok in E as (m0 & Hm & -> & HP2 & HM2) end.
  match goal with E : stage_message_updated _ _ _ _ _ _ = _ |- _ => unfold stage_message_updated in E; apply stage_keeps in E as Happ end.
  unfold withdraw_vote in *. autorewrite with msg_rw in *. cbn [set_poll_votes polls poll_options poll_votes fst snd] in *.
  rewrite Happ, HP2, HP, HO, HM2, HM in *. exists p, m0. split_and!; try done.
  - intros Hs. match goal with E : _ \/ _ |- _ => destruct E as [E|E] end; [by rewrite Hs in *|]. by apply Nat.ltb_ge.
  - intros o y. rewrite HV. case_decide; [done|]. apply option_eq. intros v. rewrite map_lookup_filter_Some, bind_Some. cbn.
    split; [intros [-> Hn]; exists v; split; [done|]; by rewrite decide_False|intros (v' & -> & Hv)]. case_decide; [done|]. by injection Hv as ->.
Qed.

Lemma close_tx_Ok poll ws d o d' : (forall k p, polls (Pt d) !! k = Some p -> Poll.id p = k) ->
  close_poll_tx draw now show_time poll ws d = (Ok o, d') ->
  exists p, polls (Pt d) !! poll = Some p /\
  match o with
  | None => is_Some (Poll.closed_at p) /\ d' = d
  | Some (s, _) => Poll.closed_at p = None /\ exists m0,
      polls (Pt d') = <[poll := Poll.close now p]> (polls (Pt d)) /\ poll_options (Pt d') = poll_options (Pt d) /\
      poll_votes (Pt d') = poll_votes (Pt d) /\ s = summary_of (Poll.close now p) (Pt d') /\
      Mt d !! Poll.message_id p = Some m0 /\
      Mt d' = <[Poll.message_id p := Message.set_metadata (set_poll (summary_json show_time s)) m0]> (Mt d)
  end.
Proof.
  intros Hids E. unfold close_poll_tx, lock_in in E. inv_poll.
  - match goal with E : Some ?q = _ |- _ => rename q into p; symmetry in E; rename E into Hp end. bool_hyps. by exists p.
  - match goal with E : Some ?q = _ |- _ => rename q into p; symmetry in E; rename E into Hp end. bool_hyps. exists p. split; [done|].
    split; [by apply eq_None_not_Some|].
    unfold close_in in *. inv_poll. pose proof (Hids _ _ Hp) as Hid.
    match goal with E : write_summary _ _ _ = _ |- _ => apply write_summary_Ok in E as (m0 & Hm & -> & HP2 & HM2) end.
    match goal with E : stage_message_updated _ _ _ _ _ _ = _ |- _ => unfold stage_message_updated in E; apply stage_keeps in E as Happ end.
    autorewrite with msg_rw in *. cbn [set_polls polls poll_options poll_votes fst snd] in *.
    match goal with E : Some _ = alter _ _ _ !! _ |- _ => rewrite lookup_alter_eq, ?Hid, Hp in E; injection E as -> end.
    exists m0. rewrite Happ, HP2, HM2. cbn [set_polls polls poll_options poll_votes]. split_and!; try done.
    apply map_eq. intros k. destruct (decide (k = poll)) as [->|Hne]; [by rewrite ?Hid, lookup_alter_eq, lookup_insert_eq, Hp|].
    rewrite lookup_alter_ne, lookup_insert_ne by congruence. done.
Qed.

Lemma insert_options_Ok poll n labels d r d' : insert_options draw poll n labels d = (Ok r, d') ->
  Mt d' = Mt d /\ polls (Pt d') = polls (Pt d) /\ poll_votes (Pt d') = poll_votes (Pt d) /\
  (forall o x, poll_options (Pt d) !! o = Some x -> poll_options (Pt d') !! o = Some x) /\
  (forall o x, poll_options (Pt d') !! o = Some x -> poll_options (Pt d) !! o = None -> PollOption.poll_id x = poll /\ (n <= PollOption.position x)%nat) /\
  (forall o x o' x', poll_options (Pt d') !! o = Some x -> poll_options (Pt d) !! o = None ->
     poll_options (Pt d') !! o' = Some x' -> poll_options (Pt d) !! o' = None -> PollOption.position x = PollOption.position x' -> o = o').
Proof.
  revert n d. induction labels as [|label labels IH]; intros n d E; cbn [insert_options] in E.
  - inv_poll. split_and!; try done; intros; congruence.
  - inv_poll. match goal with E : false = bool_decide _ |- _ => symmetry in E end. bool_hyps.
    match goal with E : insert_options _ _ _ _ _ = _ |- _ => apply IH in E as (HM & HP & HV & Hold & Hnew & Hpos) end.
    autorewrite with msg_rw in *. cbn [set_poll_options polls poll_options poll_votes] in *.
    match goal with E : ~ is_Some (_ !! ?i) |- _ => apply eq_None_not_Some in E; rename E into Hi; set (id := i) in * end.
    set (O := poll_options (Pt d)) in *. set (O' := poll_options (Pt d')) in *.
    assert (Hid : O' !! id = Some {| PollOption.poll_id := poll; PollOption.position := n; PollOption.label := label |}) by (apply Hold, lookup_insert_eq).
    split_and!; [done..| | |].
    + intros o x Hx. apply Hold. rewrite lookup_insert_ne; [done|congruence].
    + intros o x Hx Hn. destruct (decide (o = id)) as [->|Hne]; [rewrite Hid in Hx; injection Hx as <-; cbn; split; [done|lia]|].
      destruct (Hnew o x Hx) as [? ?]; [by rewrite lookup_insert_ne|]. split; [done|lia].
    + assert (Hfar : forall o x, O' !! o = Some x -> O !! o = None -> o <> id -> (S n <= PollOption.position x)%nat).
      { intros o x Hx Hn Hne. apply (Hnew o x Hx). by rewrite lookup_insert_ne. }
      intros o x o' x' Hx Hn Hx' Hn' Hpp. destruct (decide (o = id)) as [->|Hne], (decide (o' = id)) as [->|Hne']; [done| | |].
      * pose proof (Hfar _ _ Hx' Hn' Hne'). rewrite Hid in Hx. injection Hx as <-. cbn in *. lia.
      * pose proof (Hfar _ _ Hx Hn Hne). rewrite Hid in Hx'. injection Hx' as <-. cbn in *. lia.
      * apply (Hpos o x o' x'); try done; by rewrite lookup_insert_ne.
Qed.

(** What leaves the tables of polls and the messages alone. *)
Lemma create_message_in_polls new d r d' : create_message_in draw now new d = (r, d') -> Pt d' = Pt d.
Proof.
  assert (Hl : tx_follows (leaves poll_tables) (create_message_in draw now new)).
  { unfold create_message_in, insert_message, message_run, message_read, bump_unread, drawn, foreign_key. solve_tx_follows; try done.
    all: apply run_leaves; intros t; unfold update_seats; by autorewrite with msg_rw. }
  intros E. pose proof (Hl d) as Hd. by rewrite E in Hd.
Qed.
Lemma follow_on_reply_keeps f d r d' : follow_on_reply_in f d = (Ok r, d') -> Pt d' = Pt d /\ Mt d' = Mt d.
Proof. unfold follow_on_reply_in, follows_run. intros E. inv_poll; autorewrite with msg_rw; done. Qed.

Lemma create_poll_in_Ok message u dr d p d' : create_poll_in draw message u dr d = (Ok p, d') ->
  Poll.message_id p = message /\ Poll.closed_at p = None /\ Mt d' = Mt d /\ is_Some (Mt d !! message) /\
  polls (Pt d) !! Poll.id p = None /\ polls (Pt d') = <[Poll.id p := p]> (polls (Pt d)) /\ poll_votes (Pt d') = poll_votes (Pt d) /\
  (forall o x, poll_options (Pt d) !! o = Some x -> poll_options (Pt d') !! o = Some x) /\
  (forall o x, poll_options (Pt d') !! o = Some x -> poll_options (Pt d) !! o = None -> PollOption.poll_id x = Poll.id p) /\
  (forall o x o' x', poll_options (Pt d') !! o = Some x -> poll_options (Pt d) !! o = None ->
     poll_options (Pt d') !! o' = Some x' -> poll_options (Pt d) !! o' = None -> PollOption.position x = PollOption.position x' -> o = o').
Proof.
  unfold create_poll_in. intros E. inv_poll.
  repeat match goal with E : false = _ |- _ => symmetry in E end. bool_hyps.
  match goal with E : insert_options _ _ _ _ _ = _ |- _ => apply insert_options_Ok in E as (HM & HP & HV & Hold & Hnew & Hpos) end.
  autorewrite with msg_rw in *. cbn [set_polls polls poll_options poll_votes Poll.id Poll.message_id Poll.closed_at] in *.
  split_and!; try done; [by apply eq_None_not_Some|]. intros o x Hx Hn. by apply (Hnew o x Hx Hn).
Qed.

Definition grown t t' p : Prop :=
  polls t !! Poll.id p = None /\ polls t' = <[Poll.id p := p]> (polls t) /\ poll_votes t' = poll_votes t /\
  (forall o x, poll_options t !! o = Some x -> poll_options t' !! o = Some x) /\
  (forall o x, poll_options t' !! o = Some x -> poll_options t !! o = None -> PollOption.poll_id x = Poll.id p) /\
  (forall o x o' x', poll_options t' !! o = Some x -> poll_options t !! o = None ->
     poll_options t' !! o' = Some x' -> poll_options t !! o' = None -> PollOption.position x = PollOption.position x' -> o = o').

Lemma create_poll_tx_Ok new dr ws root d m staged d' : create_poll_tx draw now show_time new dr ws root d = (Ok (m, staged), d') ->
  exists p, Poll.message_id p = Message.id m /\ Poll.closed_at p = None /\ grown (Pt d) (Pt d') p /\
    Mt d !! Message.id m = None /\ Mt d' !! Message.id m = Some m /\
    get ($"poll") (Message.metadata m) = Some (summary_json show_time (summary_of p (Pt d'))) /\
    (forall k x, Mt d !! k = Some x -> exists x', Mt d' !! k = Some x' /\ Message.metadata x' = Message.metadata x).
Proof.
  unfold create_poll_tx. intros E. apply tx_bind_Ok in E as (o & d1 & E1 & E). pose proof (create_message_in_polls _ _ _ _ E1) as HP1.
  apply create_message_in_Ok in E1. apply tx_bind_Ok in E as (m1 & d1' & Ev & E). unfold or_violation in Ev. destruct o as [m1'|]; [|by inv_poll].
  apply tx_ret_Ok in Ev as [<- ->]. destruct E1 as (Em & Hid & _ & Hpar & HM1 & _ & _).
  apply tx_bind_Ok in E as (p & d2 & E2 & E). apply create_poll_in_Ok in E2 as (Hmid & Hopen & HM2 & _ & Hn & HPs & HVs & Hold & Hnew & Hpos).
  apply tx_bind_Ok in E as ([m3 s3] & d3 & E3 & E). apply write_summary_Ok in E3 as (m0 & Hm0 & E3 & HP3 & HM3). injection E3 as -> ->.
  apply tx_bind_Ok in E as ([] & d4 & E4 & E).
  assert (HPM : Pt d4 = Pt d3 /\ Mt d4 = Mt d3) by (destruct root; [by eapply follow_on_reply_keeps|by inv_poll]). destruct HPM as [HP4 HM4].
  apply tx_bind_Ok in E as (st & d5 & E5 & E). apply stage_keeps in E5 as Happ. apply tx_ret_Ok in E as [[= -> ->] ->].
  assert (Hself : Message.thread_parent_id m1 <> Some (Message.id m1)) by (intros Hs; apply Hpar in Hs; rewrite Hid in Hs; by destruct Hs).
  rewrite Hmid, HM2, HM1 in Hm0.
  assert (m0 = m1) as ->. { apply lookup_add_message in Hm0 as [[_ ?]|[? _]]; done. }
  exists p. unfold grown. rewrite Happ, HP4, HP3, HM4, HM3, HM2, HM1, HPs, HVs, HP1 in *. cbn [Message.set_metadata Message.id Message.metadata fst snd].
  split_and!; try done.
  - by rewrite Hmid, lookup_insert_eq.
  - rewrite Em. cbn. by rewrite assoc_insert_eq.
  - intros k x Hx. rewrite Hmid. destruct (decide (k = Message.id m1)) as [->|Hne]; [congruence|]. rewrite lookup_insert_ne by done.
    unfold add_message. destruct (Message.thread_parent_id m1) as [r|]; [|rewrite lookup_insert_ne by done; eauto].
    destruct (decide (r = k)) as [->|Hr]; [|rewrite lookup_alter_ne, lookup_insert_ne by done; eauto].
    rewrite lookup_alter_eq, lookup_insert_ne, Hx by done. eexists. by split.
Qed.
End transactions.

(** ** What every step keeps *)

Section kept.
Context `{UuidText} (show_time : Z -> str) (since : Z).
Implicit Types (d : ApiDb) (p : Poll.t) (poll u k : Uuid).

Lemma get_set_poll j j' (m : Message.t) : get ($"poll") (Message.metadata m) = Some j' ->
  get ($"poll") (Message.metadata (Message.set_metadata (set_poll j) m)) = Some j.
Proof. unfold set_poll. cbn. destruct (Message.metadata m); try done. intros _. cbn. by rewrite assoc_insert_eq. Qed.

(** What the message of a poll shows. *)
Definition shows p d : Prop := exists m, Mt d !! Poll.message_id p = Some m /\
  get ($"poll") (Message.metadata m) = Some (summary_json show_time (summary_of p (Pt d))).
Record sound d : Prop := {
  sound_fit : fit (Pt d);
  sound_apart : forall k k' p p', polls (Pt d) !! k = Some p -> polls (Pt d) !! k' = Some p' -> Poll.message_id p = Poll.message_id p' -> k = k';
  sound_shown : forall k p, polls (Pt d) !! k = Some p -> shows p d;
}.
(** The polls closed at [since] stay closed and keep their votes. *)
Definition closed_kept d d' : Prop := forall k p, polls (Pt d) !! k = Some p -> Poll.is_closed p since = true ->
  exists p', polls (Pt d') !! k = Some p' /\ Poll.is_closed p' since = true /\ ballots k (Pt d') = ballots k (Pt d).
Definition polls_kept : relation ApiDb := fun d d' => sound d -> sound d' /\ closed_kept d d'.
#[global] Instance polls_kept_preorder : PreOrder polls_kept.
Proof.
  split; [intros d Hd; split; [done|]; intros k p Hp Hc; by exists p|]. intros a b c Hab Hbc Ha. destruct (Hab Ha) as [Hb Kab], (Hbc Hb) as [Hc Kbc].
  split; [done|]. intros k p Hp Hcl. destruct (Kab k p Hp Hcl) as (q & Hq & Hq' & Eq). destruct (Kbc k q Hq Hq') as (r & ? & ? & Er).
  exists r. split_and!; [done..|congruence].
Qed.

(** A change of messages that leaves what they show of polls. *)
Definition messages_keep (M M' : gmap Uuid Message.t) : Prop := forall k m, M !! k = Some m ->
  exists m', M' !! k = Some m' /\ get ($"poll") (Message.metadata m') = get ($"poll") (Message.metadata m).
#[global] Instance messages_keep_preorder : PreOrder messages_keep.
Proof.
  split; [intros M k m Hm; by exists m|]. intros A B C HAB HBC k m Hm. destruct (HAB k m Hm) as (m' & Hm' & E), (HBC k m' Hm') as (m'' & ? & E').
  exists m''. split; [done|congruence].
Qed.
Lemma kept_of_messages d d' : Pt d' = Pt d -> messages_keep (Mt d) (Mt d') -> polls_kept d d'.
Proof.
  intros HP HM [Hf Ha Hs]. split; [|intros k p Hp Hc; exists p; by rewrite HP]. split; rewrite ?HP; [done..|].
  intros k p Hp. destruct (Hs k p Hp) as (m & Hm & E). destruct (HM _ _ Hm) as (m' & Hm' & E'). exists m'. rewrite HP. split; [done|congruence].
Qed.
Lemma kept_app d d' : app d' = app d -> polls_kept d d'.
Proof. intros E. apply kept_of_messages; by rewrite E. Qed.

(** One poll written, with what its message shows. *)
Lemma sound_step d d' k p : sound d -> fit (Pt d') -> polls (Pt d') = <[k := p]> (polls (Pt d)) ->
  (forall k' p', polls (Pt d) !! k' = Some p' -> k' <> k -> Poll.message_id p' <> Poll.message_id p /\ same_poll k' (Pt d) (Pt d')) ->
  (forall i m, Mt d !! i = Some m -> i <> Poll.message_id p -> exists m', Mt d' !! i = Some m' /\
     get ($"poll") (Message.metadata m') = get ($"poll") (Message.metadata m)) ->
  shows p d' -> sound d'.
Proof.
  intros [Hf Ha Hs] Hf' HP Ho HM Hp. split; [done| |].
  - intros i j q q'. rewrite HP. intros [[<- <-]|[Hi Hq]]%lookup_insert_Some [[<- <-]|[Hj Hq']]%lookup_insert_Some Hm; [done| | |by eapply Ha].
    + by destruct (Ho _ _ Hq' (not_eq_sym Hj)) as [[] _].
    + by destruct (Ho _ _ Hq (not_eq_sym Hi)) as [[] _].
  - intros i q. rewrite HP. intros [[<- <-]|[Hi Hq]]%lookup_insert_Some; [done|].
    destruct (Ho _ _ Hq (not_eq_sym Hi)) as [Hne Hsame], (Hs _ _ Hq) as (m & Hm & E), (HM _ m Hm Hne) as (m' & Hm' & E').
    exists m'. split; [done|]. rewrite E', E, (summary_same q (Pt d) (Pt d')); [done|apply Hf|apply Hf'|]. by rewrite (fit_ids _ Hf _ _ Hq).
Qed.
End kept.

Section steps.
Context `{UuidText, Alphanumeric, CaseFolding}.
Context (draw : ApiDb -> Uuid) (show_time : Z -> str).
Context (since now : Z) (Hnow : since <= now).
Implicit Types (d : ApiDb) (p : Poll.t) (poll u ws k : Uuid).
Local Abbreviation sound := (sound show_time).
Local Abbreviation kept := (polls_kept show_time since).

Lemma closed_later p : Poll.is_closed p since = true -> Poll.is_closed p now = true.
Proof.
  unfold Poll.is_closed. rewrite !orb_true_iff. intros [Hc|Hc]; [by left|right]. destruct (Poll.closes_at p); [|done]. apply Z.leb_le in Hc. apply Z.leb_le. lia.
Qed.
Lemma one_of (l : list Uuid) o o' : (length l <= 1)%nat -> o ∈ l -> o' ∈ l -> o = o'.
Proof. destruct l as [|a [|b l]]; cbn; [by intros _ ?%not_elem_of_nil| |lia]. by intros _ ->%list_elem_of_singleton ->%list_elem_of_singleton. Qed.

Lemma vote_tx_kept u poll ws l d r d' : vote_tx draw now show_time u poll ws l d = (Ok r, d') -> kept d d'.
Proof.
  destruct r as [[chosen s] staged]. intros E Hs. pose proof (sound_fit _ _ Hs) as Hf.
  apply vote_tx_Ok in E as (p & m0 & Hp & Hopen & Hch & _ & Hone & HP & HO & HV & -> & Hm & HM). pose proof (fit_ids _ Hf _ _ Hp) as Hid.
  destruct (sound_shown _ _ Hs _ _ Hp) as (m1 & Hm1 & Hshow). rewrite Hm in Hm1. injection Hm1 as <-.
  assert (Hin : forall o, o ∈ chosen -> PollOption.poll_id <$> poll_options (Pt d) !! o = Some poll).
  { intros o Ho. rewrite Hch in Ho. apply list_elem_of_filter in Ho as [_ Ho]. by apply elem_of_option_ids. }
  assert (HVot : forall o x v, poll_votes (Pt d') !! (o, x) = Some v ->
    (x = u /\ o ∈ chosen /\ v = ballot now p) \/ (poll_votes (Pt d) !! (o, x) = Some v /\ ~ (PollVote.poll_id v = poll /\ x = u))).
  { intros o x v. rewrite HV. case_decide as Hx; [intros [= <-]; left; naive_solver|]. intros (v' & Hv & E)%bind_Some. right. rewrite Hid in E.
    case_decide; [done|]. by injection E as <-. }
  assert (Hf' : fit (Pt d')).
  { split; rewrite ?HP, ?HO; try apply Hf.
    - intros o x v [(-> & Ho & ->)|[Hv _]]%HVot; [cbn; rewrite HO, Hid; by apply Hin|rewrite HO; by apply (fit_votes _ Hf) in Hv].
    - intros o o' x v v' q Hv Hv' Ep Hq Hm1. apply HVot in Hv as [(-> & Ho & ->)|[Hv Hn]], Hv' as [(Ex & Ho' & ->)|[Hv' Hn']].
      + apply (one_of chosen); try done. apply Hone. cbn in Hq. rewrite Hid, Hp in Hq. by injection Hq as ->.
      + exfalso. apply Hn'. split; [|done]. rewrite <-Ep. cbn. done.
      + exfalso. apply Hn. split; [|done]. rewrite Ep. cbn. done.
      + by eapply (fit_single _ Hf). }
  assert (Hoth : forall k, k <> poll -> ballots k (Pt d') = ballots k (Pt d)).
  { intros k Hk. apply ballots_same. intros [o x] v Ev. split; intros Hv.
    - apply HVot in Hv as [(-> & _ & ->)|[Hv _]]; [cbn in Ev; congruence|done].
    - rewrite HV. assert (~ (x = u /\ o ∈ chosen)) as Hn.
      { intros [-> Ho]. apply Hin in Ho. rewrite (fit_votes _ Hf _ _ _ Hv), Ev in Ho. congruence. }
      rewrite decide_False, Hv by done. cbn. rewrite decide_False; [done|]. rewrite Hid. naive_solver. }
  split.
  - apply (sound_step _ d _ poll p); try done.
    + rewrite HP. symmetry. by apply insert_id.
    + intros k q Hq Hk. split; [intros Em; apply Hk; by eapply (sound_apart _ _ Hs)|]. split; [|by apply Hoth].
      unfold options_of. by rewrite HO.
    + intros i m Hi Hne. exists m. by rewrite HM, lookup_insert_ne.
    + eexists. rewrite HM, lookup_insert_eq. split; [done|]. by eapply get_set_poll.
  - intros k q Hq Hc. exists q. rewrite HP. split_and!; [done..|]. apply Hoth. intros ->. apply closed_later in Hc. congruence.
Qed.

Lemma close_tx_kept poll ws d o d' : close_poll_tx draw now show_time poll ws d = (Ok o, d') -> kept d d'.
Proof.
  intros E Hs. pose proof (sound_fit _ _ Hs) as Hf. apply close_tx_Ok in E as (p & Hp & E); [|apply Hf].
  destruct o as [[s staged]|]; [|destruct E as [_ ->]; split; [done|]; intros k q Hq Hc; by exists q].
  destruct E as (Hopen & m0 & HP & HO & HV & -> & Hm & HM). pose proof (fit_ids _ Hf _ _ Hp) as Hid.
  destruct (sound_shown _ _ Hs _ _ Hp) as (m1 & Hm1 & Hshow). rewrite Hm in Hm1. injection Hm1 as <-.
  assert (Hb : forall k, ballots k (Pt d') = ballots k (Pt d)) by (intros k; unfold ballots; by rewrite HV).
  split.
  - apply (sound_step _ d _ poll (Poll.close now p)); try done.
    + split; rewrite ?HO, ?HV, ?HP; try apply Hf.
      * intros k q [[<- <-]|[_ Hq]]%lookup_insert_Some; [done|by apply Hf].
      * intros o x Hx. apply lookup_insert_is_Some'. right. by eapply (fit_options _ Hf).
      * intros o x v Hv. rewrite HO. rewrite HV in Hv. by apply (fit_votes _ Hf) in Hv.
      * intros o o' x v v' q Hv Hv' Ep [[Ek <-]|[_ Hq]]%lookup_insert_Some Hm1; [rewrite Ek in Hp|by eapply (fit_single _ Hf)].
        by eapply (fit_single _ Hf o o' x v v' p).
    + intros k q Hq Hk. split; [intros Em; apply Hk; by eapply (sound_apart _ _ Hs)|]. split; [|done]. unfold options_of. by rewrite HO.
    + intros i m Hi Hne. exists m. cbn in Hne. by rewrite HM, lookup_insert_ne.
    + eexists. cbn [Poll.message_id Poll.close]. rewrite HM, lookup_insert_eq. split; [done|]. by eapply get_set_poll.
  - intros k q Hq Hc. destruct (decide (k = poll)) as [->|Hk]; [|exists q; by rewrite HP, lookup_insert_ne].
    exists (Poll.close now p). rewrite HP, lookup_insert_eq. split_and!; done.
Qed.

Lemma grown_fit t t' p : fit t -> grown t t' p -> fit t'.
Proof.
  intros Hf (Hn & HP & HV & Hold & Hnew & Hpos).
  assert (Hcase : forall o x, poll_options t' !! o = Some x ->
    (poll_options t !! o = Some x /\ PollOption.poll_id x <> Poll.id p) \/ (poll_options t !! o = None /\ PollOption.poll_id x = Poll.id p)).
  { intros o x Hx. destruct (poll_options t !! o) as [y|] eqn:Ey; [left|right; eauto]. pose proof (Hold _ _ Ey) as Hy. rewrite Hx in Hy. injection Hy as ->.
    split; [done|]. intros E. destruct (fit_options _ Hf _ _ Ey). congruence. }
  split.
  - intros k q. rewrite HP. intros [[<- <-]|[_ Hq]]%lookup_insert_Some; [done|by apply Hf].
  - intros o x Hx. rewrite HP. apply lookup_insert_is_Some'. destruct (Hcase _ _ Hx) as [[Hx' _]|[_ <-]]; [right; by eapply (fit_options _ Hf)|by left].
  - intros o x o' x' Hx Hx' Ep Eq. destruct (Hcase _ _ Hx) as [[Ho Hp]|[Ho Hp]], (Hcase _ _ Hx') as [[Ho' Hp']|[Ho' Hp']];
      [by eapply (fit_positions _ Hf)|congruence|congruence|by eapply Hpos].
  - intros o u v. rewrite HV. intros Hv%(fit_votes _ Hf). apply fmap_Some in Hv as (x & Hx & ->). by rewrite (Hold _ _ Hx).
  - intros o o' u v v' q. rewrite HV, HP. intros Hv Hv' Ep [[Ek <-]|[_ Hq]]%lookup_insert_Some Hm; [|by eapply (fit_single _ Hf)].
    pose proof (fit_votes _ Hf _ _ _ Hv) as Hx. apply fmap_Some in Hx as (x & Hx & Ex). destruct (fit_options _ Hf _ _ Hx). congruence.
Qed.
Lemma grown_same t t' p k q : fit t -> grown t t' p -> polls t !! k = Some q -> same_poll k t t'.
Proof.
  intros Hf (Hn & HP & HV & Hold & Hnew & _) Hq. split; [|unfold ballots; by rewrite HV]. apply options_same; [done|].
  intros o x Ex. split; [|apply Hold]. intros Hx. destruct (poll_options t !! o) as [y|] eqn:Ey.
  - pose proof (Hold _ _ Ey). congruence.
  - pose proof (Hnew _ _ Hx Ey). congruence.
Qed.

Lemma create_poll_tx_kept new dr ws root d r d' : create_poll_tx draw now show_time new dr ws root d = (Ok r, d') -> kept d d'.
Proof.
  destruct r as [m staged]. intros E Hs. pose proof (sound_fit _ _ Hs) as Hf.
  apply create_poll_tx_Ok in E as (p & Hid & _ & Hg & Hfresh & Hm & Hshow & Hkeep). pose proof Hg as (Hn & HP & HV & _). split.
  - apply (sound_step _ d _ (Poll.id p) p); try done.
    + by eapply grown_fit.
    + intros k q Hq _. split; [|by eapply grown_same]. rewrite Hid. intros Em. destruct (sound_shown _ _ Hs _ _ Hq) as (x & Hx & _). congruence.
    + intros i x Hx _. destruct (Hkeep _ _ Hx) as (x' & Hx' & Ex). exists x'. by rewrite Ex.
    + exists m. by rewrite Hid.
  - intros k q Hq Hc. exists q. rewrite HP, lookup_insert_ne by congruence. unfold ballots. by rewrite HV.
Qed.

(** *** The other changes of messages *)

Lemma messages_keep_alter f (id : Uuid) M : (forall m, get ($"poll") (Message.metadata (f m)) = get ($"poll") (Message.metadata m)) ->
  messages_keep M (alter f id M).
Proof.
  intros Hf k m Hm. destruct (decide (id = k)) as [->|Hne]; [|exists m; by rewrite lookup_alter_ne]. exists (f m). by rewrite lookup_alter_eq, Hm.
Qed.
Lemma messages_keep_insert (id : Uuid) m M : M !! id = None -> messages_keep M (<[id := m]> M).
Proof. intros Hn k x Hx. exists x. rewrite lookup_insert_ne; [done|congruence]. Qed.
Lemma messages_keep_add M m : M !! Message.id m = None -> messages_keep M (add_message M m).
Proof.
  intros Hn. unfold add_message. etransitivity; [by apply messages_keep_insert|]. destruct (Message.thread_parent_id m); [|done]. by apply messages_keep_alter.
Qed.
Lemma messages_keep_without M id : messages_keep M (without_message now M id).
Proof.
  unfold without_message. destruct (M !! id) as [m|]; [|done].
  assert (Hd : messages_keep M (alter (Message.set_deleted now) id M)) by by apply messages_keep_alter.
  destruct (Message.thread_parent_id m); [|done]. etransitivity; [exact Hd|]. by apply messages_keep_alter.
Qed.
Lemma get_concat_other key j v (b : json) : key <> j -> get key (jsonb_concat b (JObject [(j, v)])) = get key b.
Proof. intros Hne. destruct b; try done. cbn. by rewrite assoc_insert_ne. Qed.
Lemma get_remove_other key j (b : json) : key <> j -> get key (jsonb_remove j b) = get key b.
Proof. intros Hne. destruct b; try done. cbn. by rewrite assoc_remove_ne. Qed.

Lemma change_message_keeps_polls f id d m d' : (forall x, get ($"poll") (Message.metadata (f x)) = get ($"poll") (Message.metadata x)) ->
  change_message f id d = (Ok m, d') -> kept d d'.
Proof.
  intros Hf E. apply change_message_Ok in E as (m0 & _ & _ & ->). apply kept_of_messages; autorewrite with msg_rw; [done|].
  unfold alter_message. autorewrite with msg_rw. by apply messages_keep_alter.
Qed.
Ltac same_messages := apply kept_of_messages; unfold update_seats, put_message; autorewrite with msg_rw; [done|try done].
Lemma apply_change_kept c d r d' : apply_change draw now c d = (Ok r, d') -> kept d d'.
Proof.
  intros E. destruct c; cbn [apply_change] in E; try (apply drop_result_Ok in E as [a E]).
  - pose proof (create_message_in_polls _ _ _ _ _ _ E) as HP. apply create_message_in_Ok in E. apply kept_of_messages; [done|].
    destruct a as [m|]; [|by subst d']. destruct E as (_ & Hn & _ & _ & -> & _). by apply messages_keep_add.
  - unfold create_bot_message_in, or_violation in E. inv_msg.
    match goal with E : insert_message _ _ _ = _ |- _ => apply insert_message_Ok in E; rename E into Hi end.
    destruct x as [m|]; [|by inv_msg]. destruct Hi as (Hm & Hid & _ & _ & ->). unfold bump_unread in *. inv_msg.
    same_messages. by apply messages_keep_insert.
  - unfold update_message_in in E. inv_msg.
    match goal with E : insert_edit _ _ _ _ _ = _ |- _ => rename E into Ei end.
    match goal with E : change_message _ _ _ = _ |- _ => apply change_message_keeps_polls in E as Hk; [|done] end.
    unfold insert_edit, prune_edits in *. inv_msg. destruct (Mt d !! message); inv_msg; (etransitivity; [|exact Hk]); by same_messages.
  - unfold drop_unread_for_message in E. inv_msg.
    destruct (Mt _ !! message) as [m'|]; [destruct (in_feed m')|]; inv_msg; by same_messages.
  - unfold soft_delete_message_in in E. inv_msg. apply kept_of_messages; autorewrite with msg_rw; [done|]. rewrite soft_delete_messages.
    destruct (find_message _ _); [|done]. apply messages_keep_without.
  - by eapply change_message_keeps_polls in E.
  - eapply change_message_keeps_polls in E; [done|]. intros x. unfold set_attachments. cbn.
    destruct attachments as [| | | |[|]|]; (apply get_concat_other || apply get_remove_other); discriminate.
  - unfold add_reaction_in in E. inv_msg; by same_messages.
  - unfold remove_reaction_in, unreact in E. inv_msg; by same_messages.
  - unfold follow_on_reply_in, follows_run in E. inv_msg; by same_messages.
  - unfold mark_read_in in E. inv_msg. destruct (Cm d !! _); inv_msg; by same_messages.
  - unfold mark_workspace_read_in in E. inv_msg; by same_messages.
  - unfold mark_unread_in in E. inv_msg. destruct (n ← _; _); [|by inv_msg]. destruct (Cm d !! _); inv_msg; by same_messages.
  - unfold reconcile_unread_counts in E. inv_msg; by same_messages.
Qed.
End steps.

(** ** Requests *)

Inductive PollCall :=
| Creates (user channel : Uuid) (req : CreatePollRequest.t)
| Votes (user poll : Uuid) (option_ids : list Uuid)
| Closes (user poll : Uuid)
| ClosesDue
| Changes (c : change).

Section requests.
Context `{UuidText, Alphanumeric, CaseFolding}.
Context (entry_id : str -> list (str * str * Event) -> str) (draw : ApiDb -> Uuid) (show_time : Z -> str) (present : Uuid -> list str).

(** One call, at its instant. *)
Definition poll_call (c : Z * PollCall) : Svc ApiDb unit :=
  match c.2 with
  | Creates u ch req => svc_ignore (create_poll entry_id draw c.1 show_time present u ch req)
  | Votes u poll l => svc_ignore (cast_vote entry_id draw c.1 show_time u poll l)
  | Closes u poll => svc_ignore (close_by entry_id draw c.1 show_time u poll)
  | ClosesDue => svc_ignore (close_due entry_id draw c.1 show_time)
  | Changes change => svc_ignore (transaction (apply_change draw c.1 change))
  end.

Section since.
Context (since : Z).
Local Abbreviation kept := (polls_kept show_time since).
Implicit Types (d : ApiDb) (u poll : Uuid).

#[local] Hint Extern 2 (PreOrder _) => apply _ : follows.
Lemma dispatch_kept now s : follows kept (dispatch entry_id now s : Svc ApiDb unit).
Proof. apply dispatch_follows; [apply _|apply kept_app]. Qed.
#[local] Hint Resolve dispatch_kept : follows.
#[local] Hint Resolve require_broadcast_follows expand_mentions_follows thread_root_follows : follows.

Lemma create_poll_kept now u ch req : since <= now -> follows kept (create_poll entry_id draw now show_time present u ch req).
Proof.
  intros Hn. unfold create_poll. apply then_pure_follows; [apply _|intros dr _]. solve_follows.
  - apply transaction_Ok_follows; [apply _|]. intros d r d' E. by eapply create_poll_tx_kept.
  - apply announce_reply_follows; [apply _|apply kept_app].
Qed.
Lemma cast_vote_kept now u poll l : since <= now -> follows kept (cast_vote entry_id draw now show_time u poll l).
Proof.
  intros Hn. unfold cast_vote, find_readable, find_place, require. solve_follows.
  apply transaction_Ok_follows; [apply _|]. intros d r d' E. by eapply vote_tx_kept.
Qed.
Lemma close_kept now place : since <= now -> follows kept (close_place entry_id draw now show_time place).
Proof.
  intros Hn. unfold close_place. solve_follows. apply transaction_Ok_follows; [apply _|]. intros d r d' E. by eapply close_tx_kept.
Qed.
Lemma close_by_kept now u poll : since <= now -> follows kept (close_by entry_id draw now show_time u poll).
Proof. intros Hn. pose proof close_kept. unfold close_by, find_place, require. solve_follows. all: eauto with follows. Qed.
Lemma close_each_kept now ids n : since <= now -> follows kept (close_each entry_id draw now show_time ids n).
Proof.
  intros Hn. pose proof close_kept. revert n. induction ids as [|poll ids IH]; intros n; cbn; solve_follows; eauto.
Qed.
Lemma poll_call_kept c : since <= c.1 -> follows kept (poll_call c).
Proof.
  destruct c as [now c]. cbn. intros Hn. unfold poll_call, svc_ignore. destruct c; cbn.
  - apply follows_bind; [apply _|by apply create_poll_kept|]. intros ?. apply follows_ret, _.
  - apply follows_bind; [apply _|by apply cast_vote_kept|]. intros ?. apply follows_ret, _.
  - apply follows_bind; [apply _|by apply close_by_kept|]. intros ?. apply follows_ret, _.
  - apply follows_bind; [apply _| |intros ?; apply follows_ret, _]. pose proof close_each_kept. unfold close_due. solve_follows; eauto.
  - apply follows_bind; [apply _| |intros ?; apply follows_ret, _].
    apply transaction_Ok_follows; [apply _|]. intros d r d' E. by eapply apply_change_kept.
Qed.
Lemma poll_calls_kept calls : Forall (fun c => since <= c.1) calls -> follows kept (svc_each calls poll_call).
Proof. intros Hc. apply follows_each; [apply _|]. intros c Hin. apply poll_call_kept. by eapply Forall_forall in Hc. Qed.

(** A poll that was closed. *)
Definition closed_at_since poll d : Prop := sound show_time d /\ exists p, polls (Pt d) !! poll = Some p /\ Poll.is_closed p since = true.
Lemma closed_stable poll : stable kept (closed_at_since poll).
Proof.
  intros d d' HR [Hs (p & Hp & Hc)]. destruct (HR Hs) as [Hs' Hk]. destruct (Hk _ _ Hp Hc) as (p' & ? & ? & _). split; [done|by exists p'].
Qed.
Lemma vote_on_closed now u poll l : since <= now ->
  triple kept (closed_at_since poll) (cast_vote entry_id draw now show_time u poll l) (fun r _ => exists e, r = Err e).
Proof.
  intros Hn. assert (Hst := closed_stable poll). unfold cast_vote.
  apply (triple_step kept); [done| |intros place|by eauto].
  { unfold find_readable, find_place, require. solve_follows. }
  apply (triple_step kept); [done|solve_follows|intros channel|by eauto].
  apply (triple_check kept); [intros _ _|by eauto].
  unfold and_then. eapply (triple_bind kept _ _ _ (fun r _ => exists e, r = Err e)).
  - apply transaction_triple; [apply _|done| |by eauto]. intros d [[chosen s] staged] d' [Hs (p & Hp & Hc)] E.
    apply vote_tx_Ok in E as (q & m0 & Hq & Hopen & _). rewrite Hp in Hq. injection Hq as <-. apply (closed_later since now) in Hc; [congruence|done].
  - intros [a|e]; [|by apply (triple_ret kept); eauto]. apply (triple_pre kept (fun d => True /\ False)); [by intros d (? & ?)|].
    apply triple_pure. intros [].
Qed.

(** C19: Polls show their votes.  However polls are created, voted on and closed,
    and messages sent, edited, deleted and read, by requests whose calls fail
    and interleave with anything that keeps this: the message of every poll is
    there and shows the summary of its rows, the votes of each option and the
    people who voted, and in a poll of one answer the votes add up to the
    people. *)
Theorem polls_show_their_votes (calls : list (Z * PollCall)) (w : SvcWorld ApiDb) :
  Forall (fun c => since <= c.1) calls -> rely kept w -> sound show_time (shared w) ->
  let t := app (shared (svc_each calls poll_call w).2) in
  forall k p, polls (poll_tables t) !! k = Some p ->
    Poll.id p = k /\
    (exists m, messages (message_tables t) !! Poll.message_id p = Some m /\
       get ($"poll") (Message.metadata m) = Some (summary_json show_time (summary_of p (poll_tables t)))) /\
    (Poll.multiple_choice p = false ->
       votes_sum (summary_of p (poll_tables t)) = PollSummary.voters (summary_of p (poll_tables t))).
Proof.
  intros Hc Hw Hs t k p Hp. destruct (poll_calls_kept calls Hc w Hw) as [Hk _]. destruct (Hk Hs) as [Hs' _].
  split_and!; [by eapply fit_ids; [apply Hs'|]|by eapply sound_shown|]. intros Hm. by eapply one_answer_sums; [apply Hs'| |].
Qed.

(** C20: A closed poll takes no votes.  A poll that is closed, by somebody or
    because its time is over, stays closed through any requests from then on,
    the votes in it are those it had, and whoever votes later is refused. *)
Theorem closed_polls_take_no_votes (calls : list (Z * PollCall)) (w : SvcWorld ApiDb) k p now u l :
  Forall (fun c => since <= c.1) calls -> rely kept w -> sound show_time (shared w) -> since <= now ->
  polls (Pt (shared w)) !! k = Some p -> Poll.is_closed p since = true ->
  let w' := (svc_each calls poll_call w).2 in
  (exists p', polls (Pt (shared w')) !! k = Some p' /\ Poll.is_closed p' since = true) /\
  (forall key v, PollVote.poll_id v = k ->
     poll_votes (Pt (shared w')) !! key = Some v <-> poll_votes (Pt (shared w)) !! key = Some v) /\
  (exists e, (cast_vote entry_id draw now show_time u k l w').1 = Err e).
Proof.
  intros Hc Hw Hs Hn Hp Hcl w'. destruct (poll_calls_kept calls Hc w Hw) as [Hk Hw']. destruct (Hk Hs) as [Hs' Hck].
  destruct (Hck _ _ Hp Hcl) as (p' & Hp' & Hcl' & Hb). fold w' in Hs', Hp', Hb, Hw'. split_and!; [by exists p'| |].
  - intros key v Hv. assert (Hl : ballots k (Pt (shared w')) !! key = Some v <-> ballots k (Pt (shared w)) !! key = Some v) by by rewrite Hb.
    unfold ballots in Hl. rewrite !map_lookup_filter_Some in Hl. cbn in Hl. tauto.
  - destruct (vote_on_closed now u k l Hn w' Hw') as (_ & _ & ?); [|done]. split; [done|by exists p'].
Qed.
End since.
End requests.

(** ** One vote *)

Section vote.
Context `{UuidText, Alphanumeric, CaseFolding}.
Context (draw : ApiDb -> Uuid) (show_time : Z -> str) (now : Z).
Implicit Types (d : ApiDb) (p : Poll.t) (poll u ws : Uuid) (l : list Uuid).

(** A person without votes in the poll. *)
Definition voteless p u t : Prop := forall o v, poll_votes t !! (o, u) = Some v -> PollVote.poll_id v <> Poll.id p.

Lemma insert_vote_succeeds p u o d : poll_votes (Pt d) !! (o, u) = None -> (Poll.multiple_choice p = false -> voteless p u (Pt d)) ->
  PollOption.poll_id <$> poll_options (Pt d) !! o = Some (Poll.id p) -> is_Some (users (app d) !! u) ->
  insert_vote now p u o d = (Ok tt, with_app (set_poll_tables (set_poll_votes (<[(o, u) := ballot now p]>))) d).
Proof.
  intros Hn Hv Ho Hu. unfold insert_vote, poll_read, poll_run, read, run, tx_read, tx_query, mbind, Tx_bind.
  rewrite Hn, bool_decide_eq_false_2 by (intros [? ?]; done). cbn [orb].
  destruct (_ && existsb _ _) eqn:Ee.
  - apply andb_true_iff in Ee as [Em%negb_true_iff Ee]. apply existsb_exists in Ee as ([[o' x] v] & Hin%list_elem_of_In%elem_of_map_to_list & Hb).
    cbn in Hb. apply andb_true_iff in Hb as [[-> Hb]%bool_decide_eq_true _]. by destruct (Hv Em _ _ Hin).
  - by rewrite (bool_decide_eq_true_2 _ Ho), (bool_decide_eq_true_2 _ Hu).
Qed.
Lemma insert_votes_succeed p u l d : NoDup l -> (Poll.multiple_choice p = false -> (length l <= 1)%nat) ->
  voteless p u (Pt d) -> votes_fit (Pt d) ->
  (forall o, o ∈ l -> PollOption.poll_id <$> poll_options (Pt d) !! o = Some (Poll.id p)) -> is_Some (users (app d) !! u) ->
  exists rs d', tx_each (insert_vote now p u) l d = (Ok rs, d').
Proof.
  intros Hl Hone Hv Hf Ho Hu.
  assert (Hn : forall o, o ∈ l -> poll_votes (Pt d) !! (o, u) = None).
  { intros o Hin. destruct (poll_votes (Pt d) !! (o, u)) as [v|] eqn:E; [|done]. pose proof (Hf _ _ _ E) as Hp. rewrite (Ho _ Hin) in Hp.
    injection Hp as Hp. by destruct (Hv _ _ E). }
  assert (Hsingle : Poll.multiple_choice p = false -> voteless p u (Pt d) \/ l = []) by auto. clear Hv Hf.
  revert d Hone Ho Hu Hn Hsingle. induction l as [|o l IH]; intros d Hone Ho Hu Hn Hsingle; cbn [tx_each]; [by eexists _, _|].
  apply NoDup_cons in Hl as [Hol Hl]. unfold mbind, Tx_bind at 1. rewrite insert_vote_succeeds; [|apply Hn; by left| |apply Ho; by left|done].
  - set (d1 := with_app _ d). destruct (IH Hl d1) as (rs & d' & E).
    + intros Hm. specialize (Hone Hm). cbn in Hone. lia.
    + intros o' Ho'. subst d1. autorewrite with msg_rw. apply Ho. by right.
    + subst d1. rewrite app_with. by destruct (app d).
    + intros o' Ho'. subst d1. autorewrite with msg_rw. cbn. rewrite lookup_insert_ne by congruence. apply Hn. by right.
    + intros Hm. right. specialize (Hone Hm). cbn in Hone. destruct l; [done|cbn in Hone; lia].
    + unfold mbind, Tx_bind in *. rewrite E. by eexists _, _.
  - intros Hm. by destruct (Hsingle Hm).
Qed.

Lemma filter_members {A} (P Q : A -> Prop) `{!forall x, Decision (P x), !forall x, Decision (Q x)} (l : list A) :
  (forall x, x ∈ l -> P x <-> Q x) -> filter P l = filter Q l.
Proof.
  induction l as [|x l IH]; intros HPQ; [done|]. rewrite !filter_cons. destruct (HPQ x) as [Hpq Hqp]; [by left|].
  rewrite IH by (intros y Hy; apply HPQ; by right). do 2 case_decide; tauto.
Qed.
Lemma option_ids_same poll t t' : poll_options t' = poll_options t -> option_ids poll t' = option_ids poll t.
Proof. intros E. unfold option_ids, options_of. by rewrite E. Qed.

(** A vote replaces the last one.  On an open poll somebody's vote for offered
    options, for one where the poll takes one answer, succeeds: what they
    voted is then those options in the order of the poll, what others voted
    and every other poll are as they were, and the message shows the new
    summary.  A closed poll, an option that is not offered and a second answer
    where one is taken are refused and leave all as it was. *)
Theorem a_vote_replaces_the_last poll u ws l d p :
  sound show_time d -> polls (Pt d) !! poll = Some p -> is_Some (users (app d) !! u) ->
  let offered := option_ids poll (Pt d) in
  let chosen := filter (fun o => o ∈ l) offered in
  let outcome := vote_tx draw now show_time u poll ws l d in
  if Poll.is_closed p now then outcome = (Err (Conflict ($"This poll is closed")), d)
  else if negb (bool_decide (l ⊆ offered)) then outcome = (Err (Validation ($"That option is not in this poll")), d)
  else if negb (Poll.multiple_choice p) && Nat.ltb 1 (length chosen) then outcome = (Err (Validation ($"This poll takes one answer")), d)
  else exists staged d', outcome = (Ok (chosen, summary_of p (Pt d'), staged), d') /\
    my_vote poll u (Pt d') = chosen /\
    (forall x, x <> u -> my_vote poll x (Pt d') = my_vote poll x (Pt d)) /\
    (forall key v, PollVote.poll_id v <> poll -> poll_votes (Pt d') !! key = Some v <-> poll_votes (Pt d) !! key = Some v) /\
    shows show_time p d'.
Proof.
  intros Hs Hp Hu offered chosen outcome. pose proof (sound_fit _ _ Hs) as Hf. pose proof (fit_ids _ Hf _ _ Hp) as Hid.
  assert (Hin : forall o, o ∈ chosen -> PollOption.poll_id <$> poll_options (Pt d) !! o = Some poll).
  { intros o [_ Ho]%list_elem_of_filter. by apply elem_of_option_ids. }
  assert (Hdone : Poll.is_closed p now = false -> l ⊆ offered -> (Poll.multiple_choice p = false -> (length chosen <= 1)%nat) ->
    exists r d', (_ ← replace_vote_in now p u chosen; written ← write_summary show_time p;
      staged ← stage_message_updated draw now show_time written.1 ws; mret (chosen, written.2, staged)) d = (Ok r, d')).
  { intros _ _ Hone. unfold replace_vote_in, poll_run, run, tx_query, mbind, Tx_bind, mret, Tx_ret. set (d1 := with_app _ d).
    assert (HP1 : Pt d1 = withdraw_vote (Poll.id p) u (Pt d)) by (subst d1; by autorewrite with msg_rw).
    assert (HM1 : Mt d1 = Mt d) by (subst d1; by autorewrite with msg_rw).
    destruct (insert_votes_succeed p u chosen d1) as (rs & d2 & E2).
    - apply NoDup_filter, option_ids_NoDup.
    - exact Hone.
    - intros o v. rewrite HP1. intros [Hv Hn]%map_lookup_filter_Some Hpv. by apply Hn.
    - intros o x v. rewrite HP1. intros [Hv _]%map_lookup_filter_Some. exact (fit_votes _ Hf _ _ _ Hv).
    - intros o Ho. rewrite HP1, Hid. by apply Hin.
    - subst d1. rewrite app_with. by destruct (app d).
    - rewrite E2. apply (insert_votes_Ok draw now show_time) in E2 as (HM2 & _). destruct (sound_shown _ _ Hs _ _ Hp) as (m0 & Hm0 & _).
      unfold write_summary, set_poll_in, change_message, message_run, message_read, poll_read, run, read, tx_require, tx_of, tx_query, tx_read, mbind, Tx_bind.
      autorewrite with msg_rw. unfold alter_message. autorewrite with msg_rw. rewrite lookup_alter_eq, HM2, HM1, Hm0. cbn. by eexists _, _. }
  assert (Hout : outcome = (if Poll.is_closed p now then tx_fail (Conflict ($"This poll is closed"))
    else if negb (bool_decide (l ⊆ offered)) then tx_fail (Validation ($"That option is not in this poll"))
    else if negb (Poll.multiple_choice p) && Nat.ltb 1 (length chosen) then tx_fail (Validation ($"This poll takes one answer"))
    else _ ← replace_vote_in now p u chosen; written ← write_summary show_time p;
      staged ← stage_message_updated draw now show_time written.1 ws; mret (chosen, written.2, staged)) d).
  { unfold outcome, vote_tx, lock_in, poll_read, read, tx_require, tx_of, tx_read, mbind, Tx_bind. rewrite Hp. cbn [ok_or].
    destruct (Poll.is_closed p now); done. }
  destruct (Poll.is_closed p now) eqn:Hc; [done|]. destruct (negb (bool_decide (l ⊆ offered))) eqn:Hl; [done|].
  destruct (negb (Poll.multiple_choice p) && _) eqn:Hm; [done|]. bool_hyps.
  destruct Hdone as ([[ch s] staged] & d' & Ed); [done|done| |].
  { intros Hmc. destruct Hm as [Hm|Hm]; [by rewrite Hmc in Hm|]. by apply Nat.ltb_ge. }
  rewrite Ed in Hout. pose proof Hout as E. unfold outcome in E. pose proof (vote_tx_kept draw show_time now now ltac:(lia) _ _ _ _ _ _ _ E Hs) as [Hs' _].
  apply vote_tx_Ok in E as (q & m0 & Hq & _ & -> & _ & _ & HP & HO & HV & -> & _). rewrite Hp in Hq. injection Hq as <-. fold offered chosen in HV.
  exists staged, d'. split; [done|]. assert (Hp' : polls (Pt d') !! poll = Some p) by by rewrite HP.
  split_and!; [| | |by eapply sound_shown].
  - unfold my_vote. rewrite (option_ids_same _ _ _ HO). apply filter_members. intros o Ho. rewrite HV.
    assert (Hch : o ∈ chosen <-> o ∈ l) by (unfold chosen; rewrite list_elem_of_filter; tauto). case_decide as Hx; cbn; [rewrite Hid; tauto|].
    split; [|tauto]. intros Hv. destruct (poll_votes (Pt d) !! (o, u)) as [v|] eqn:Ev; [|done]. cbn in Hv.
    rewrite Hid in Hv. case_decide as Hn; [done|]. cbn in Hv. injection Hv as Hv. tauto.
  - intros x Hx. unfold my_vote. rewrite (option_ids_same _ _ _ HO). apply filter_members. intros o Ho. rewrite HV, decide_False by tauto.
    destruct (poll_votes (Pt d) !! (o, x)) as [v|]; [|done]. cbn. by rewrite decide_False by tauto.
  - intros [o x] v Hv. rewrite HV. case_decide as Hx.
    + destruct Hx as [-> Ho]. split; [intros [= <-]; by destruct Hv|]. intros Hold. pose proof (fit_votes _ Hf _ _ _ Hold) as Hp2. rewrite (Hin _ Ho) in Hp2.
      congruence.
    + destruct (poll_votes (Pt d) !! (o, x)) as [v'|] eqn:Ev; [|done]. cbn. rewrite Hid. case_decide as Hn; [|done].
      split; [done|]. intros [= ->]. by destruct Hn.
Qed.
End vote.

(** ** A poll *)

Module SamplePolls.
#[local] Instance letters : Alphanumeric := {| is_alphanumeric := is_ascii_alphanumeric |}.
#[local] Instance folding : CaseFolding := { to_lowercase s := s }.
Definition draw (d : ApiDb) : Uuid :=
  (1000 + N.of_nat (size (Mt d) + size (polls (Pt d)) + size (poll_options (Pt d))))%N.
Definition show_time (_ : Z) : str := [].
Definition present (_ : Uuid) : list str := [].
(** Two people in a channel. *)
Definition start : ApiDb := SampleMessages.db [] [SampleMessages.seat 1 0; SampleMessages.seat 2 0].
Definition question : CreatePollRequest.t :=
  {| CreatePollRequest.question := $"Lunch?"; CreatePollRequest.options := [$"Soup"; $" Salad"]; CreatePollRequest.multiple_choice := false;
     CreatePollRequest.anonymous := false; CreatePollRequest.closes_at := Some 200; CreatePollRequest.thread_parent_id := None |}.
Definition calls : list (Z * PollCall) :=
  [(100, Creates 1%N 30%N question); (110, Votes 2%N 1001%N [1003%N]); (120, Votes 1%N 1001%N [1002%N]); (130, Votes 2%N 1001%N [1002%N]);
   (140, Changes (Edited 1000%N ($"Dinner?") 1%N))].
Definition later : list (Z * PollCall) := [(210, Votes 2%N 1001%N [1003%N]); (220, ClosesDue); (230, Closes 1%N 1001%N)].
Definition after (calls : list (Z * PollCall)) (d : ApiDb) : SvcWorld ApiDb :=
  (svc_each calls (poll_call Outbox.SampleOutbox.entry_id draw show_time present) {| shared := d; agenda := [] |}).2.
Lemma start_sound : sound show_time start.
Proof. by repeat split. Qed.
Definition voted : ApiDb := shared (after calls start).
Lemma voted_sound : sound show_time voted.
Proof.
  apply (poll_calls_kept Outbox.SampleOutbox.entry_id draw show_time present 0 calls); [repeat constructor; cbn; lia|by apply Forall_nil|apply start_sound].
Qed.
End SamplePolls.

(** The poll after the first calls, and the whole of its votes. *)
Definition sample_poll : Poll.t :=
  {| Poll.id := 1001%N; Poll.message_id := 1000%N; Poll.question := $"Lunch?"; Poll.multiple_choice := false; Poll.anonymous := false;
     Poll.closes_at := Some 200; Poll.closed_at := None; Poll.created_by := 1%N |}.

Lemma polls_show_their_votes_witness :
  let t := app (shared (SamplePolls.after SamplePolls.calls SamplePolls.start)) in
  PollOptionCount.votes <$> PollSummary.options (summary_of sample_poll (poll_tables t)) = [2; 0] /\
  PollSummary.voters (summary_of sample_poll (poll_tables t)) = 2 /\
  exists m, messages (message_tables t) !! 1000%N = Some m /\ Message.content m = $"Dinner?" /\
    get ($"poll") (Message.metadata m) = Some (summary_json SamplePolls.show_time (summary_of sample_poll (poll_tables t))).
Proof.
  destruct (@polls_show_their_votes Outbox.SampleOutbox.uuid SamplePolls.letters SamplePolls.folding Outbox.SampleOutbox.entry_id SamplePolls.draw
    SamplePolls.show_time SamplePolls.present 0 SamplePolls.calls {| shared := SamplePolls.start; agenda := [] |}) with (k := 1001%N) (p := sample_poll)
    as (_ & (m & Hm & Hs) & Hv);
    [repeat constructor; cbn; lia|by apply Forall_nil|apply SamplePolls.start_sound|vm_compute; reflexivity|].
  cbv zeta. assert (E : PollOptionCount.votes <$> PollSummary.options (summary_of sample_poll (poll_tables (app (shared (SamplePolls.after SamplePolls.calls SamplePolls.start))))) = [2; 0])
    by (vm_compute; reflexivity).
  split; [exact E|]. split; [etransitivity; [exact (eq_sym (Hv eq_refl))|exact (f_equal (foldr Z.add 0) E)]|].
  exists m. split; [exact Hm|]. split; [|exact Hs]. vm_compute in Hm. injection Hm as <-. reflexivity.
Defined.

Lemma closed_polls_take_no_votes_witness :
  let w' := SamplePolls.after SamplePolls.later SamplePolls.voted in
  PollVote.created_at <$> poll_votes (Pt (shared w')) !! (1002%N, 2%N) = Some 130 /\
  exists e, (cast_vote Outbox.SampleOutbox.entry_id SamplePolls.draw 300 SamplePolls.show_time 1%N 1001%N [1003%N] w').1 = Err e.
Proof.
  assert (Hp : polls (Pt SamplePolls.voted) !! 1001%N = Some sample_poll) by (vm_compute; reflexivity).
  assert (Hk : poll_votes (Pt SamplePolls.voted) !! (1002%N, 2%N) =
    Some {| PollVote.poll_id := 1001%N; PollVote.single_choice := true; PollVote.created_at := 130 |}) by (vm_compute; reflexivity).
  pose proof SamplePolls.voted_sound as Hs. cbv zeta. unfold SamplePolls.after. generalize dependent SamplePolls.voted. intros d Hp Hk Hs.
  destruct (@closed_polls_take_no_votes Outbox.SampleOutbox.uuid SamplePolls.letters SamplePolls.folding Outbox.SampleOutbox.entry_id SamplePolls.draw
    SamplePolls.show_time SamplePolls.present 205 SamplePolls.later {| shared := d; agenda := [] |} 1001%N sample_poll 300 1%N [1003%N]) as (_ & Hv & He);
    [repeat constructor; cbn; lia|by apply Forall_nil|exact Hs|lia|exact Hp|reflexivity|].
  split; [|exact He]. rewrite (proj2 (Hv _ {| PollVote.poll_id := 1001%N; PollVote.single_choice := true; PollVote.created_at := 130 |} eq_refl) Hk). reflexivity.
Defined.

Lemma a_vote_replaces_the_last_witness :
  let d := SamplePolls.voted in
  exists s staged d', vote_tx SamplePolls.draw 150 SamplePolls.show_time 2%N 1001%N 20%N [1003%N] d = (Ok ([1003%N], s, staged), d') /\
    my_vote 1001%N 2%N (Pt d) = [1002%N] /\ my_vote 1001%N 2%N (Pt d') = [1003%N] /\ my_vote 1001%N 1%N (Pt d') = [1002%N].
Proof.
  assert (Hp : polls (Pt SamplePolls.voted) !! 1001%N = Some sample_poll) by (vm_compute; reflexivity).
  assert (Ho : option_ids 1001%N (Pt SamplePolls.voted) = [1002%N; 1003%N]) by (vm_compute; reflexivity).
  assert (H2 : my_vote 1001%N 2%N (Pt SamplePolls.voted) = [1002%N]) by (vm_compute; reflexivity).
  assert (H1 : my_vote 1001%N 1%N (Pt SamplePolls.voted) = [1002%N]) by (vm_compute; reflexivity).
  assert (Hu : bool_decide (is_Some (users (app SamplePolls.voted) !! 2%N)) = true) by (vm_compute; reflexivity). apply bool_decide_eq_true in Hu.
  pose proof SamplePolls.voted_sound as Hs. cbv zeta. generalize dependent SamplePolls.voted. intros d Hp Ho H2 H1 Hu Hs.
  pose proof (@a_vote_replaces_the_last Outbox.SampleOutbox.uuid SamplePolls.draw SamplePolls.show_time 150 1001%N 2%N 20%N [1003%N] d sample_poll Hs Hp Hu) as Hv.
  cbv zeta in Hv. rewrite Ho in Hv. destruct Hv as (staged & d' & Hr & Hm & Hx & _).
  eexists _, staged, d'. split; [exact Hr|]. split; [done|]. split; [exact Hm|]. by rewrite (Hx 1%N).
Defined.
