(* ===== verification/ScheduledLaws.v ===== *)
(** * What holds of scheduled messages
    ([backend/api/src/scheduled/{repo,routes,executor}.rs])

    A message is handed to one worker, and a delivery is decided: the message
    is in its channel, as its author may still write it, or the row says why
    not and the author is told. *)

From stdpp Require Import base tactics option numbers list gmap sorting.
From Stdlib Require Import ZArith Lia String Ascii.
From S2P Require Import Prelude RustStr Json Errors Frames Publisher Validation ListForms ListStore MessageStore NoticeStore Mentions ApiState Outbox AuditLog Tables Authz Membership ApiLaws Mail Messaging Files Threads MessageRoutes MessageLaws SendLaws PollLaws Notices NoticeLaws Scheduled.

(** ** Claims *)

Section claims.
Implicit Types (d : ApiDb) (s : ScheduledMessage.t) (id : Uuid).

Lemma queue_set f d : Queue (set_queue f d) = f (Queue d).
Proof. unfold set_queue. cbn. by destruct (app d). Qed.

(** A row in somebody's hands: marked as sent, and no failure recorded. *)
Definition handed s : Prop := is_sent s = true /\ has_failed s = false.
(** Only a row that was marked as sent has a failure; identifiers are keys. *)
Definition rows_fit d : Prop := forall id s, Queue d !! id = Some s -> ScheduledMessage.id s = id /\ (has_failed s = true -> is_sent s = true).
(** Rows that are handed over stay so. *)
Definition hands_kept d d' : Prop :=
  (rows_fit d -> rows_fit d') /\ forall id s, Queue d !! id = Some s -> handed s -> exists s', Queue d' !! id = Some s' /\ handed s'.
#[export] Instance hands_kept_preorder : PreOrder hands_kept.
Proof.
  split; [intros d; split; [done|eauto]|]. intros a b c [H1 H2] [H3 H4]. split; [auto|]. intros id s Hs Hh.
  destruct (H2 _ _ Hs Hh) as (s' & Hs' & Hh'). by eapply H4.
Qed.

(** What may happen to the rows: a round of a dispatcher, a request to send at
    once, and whatever else leaves what was handed over. *)
Inductive happening :=
| ClaimsDue (now : Z) (locked : gset Uuid)
| ClaimsNow (now : Z) (id : Uuid)
| Elsewhere (f : ApiDb -> ApiDb).
Definition benign (h : happening) : Prop := match h with Elsewhere f => forall d, hands_kept d (f d) | _ => True end.
Definition happen (returning : list ScheduledMessage.t -> list ScheduledMessage.t) d (h : happening) : ApiDb * list Uuid :=
  match h with
  | ClaimsDue now locked => let '(d', rows) := claim_due_messages now returning locked d in (d', ScheduledMessage.id <$> rows)
  | ClaimsNow now id => let '(d', row) := claim_message_now now id d in (d', ScheduledMessage.id <$> option_list row)
  | Elsewhere f => (f d, [])
  end.
Fixpoint happenings (returning : list ScheduledMessage.t -> list ScheduledMessage.t) d (l : list happening) : list Uuid :=
  match l with
  | [] => []
  | h :: l => let '(d', ids) := happen returning d h in ids ++ happenings returning d' l
  end.

Lemma due_scheduled_rows now locked d id s : (id, s) ∈ due_scheduled now locked d -> Queue d !! id = Some s /\ scheduled_due now s = true.
Proof.
  unfold due_scheduled. intros Hp%elem_of_take. destruct Hp as (i & Hp%list_elem_of_lookup_2 & _).
  rewrite merge_sort_Permutation, list_elem_of_filter, elem_of_map_to_list in Hp. cbn in Hp. tauto.
Qed.
Lemma due_scheduled_NoDup now locked d : NoDup (due_scheduled now locked d).*1.
Proof.
  unfold due_scheduled. rewrite fmap_take. eapply sublist_NoDup; [|apply sublist_take]. rewrite merge_sort_Permutation.
  eapply sublist_NoDup; [apply (NoDup_fst_map_to_list (Queue d))|]. apply fmap_sublist, sublist_filter.
Qed.
Lemma claimed_queue now locked d id :
  (list_to_map ((fun p => (p.1, ScheduledMessage.set_sent now p.2)) <$> due_scheduled now locked d) ∪ Queue d) !! id =
  match Queue d !! id with
  | Some s => Some (if decide (id ∈ (due_scheduled now locked d).*1) then ScheduledMessage.set_sent now s else s)
  | None => None
  end.
Proof.
  set (rows := (fun p => (p.1, ScheduledMessage.set_sent now p.2)) <$> due_scheduled now locked d).
  assert (Hids : rows.*1 = (due_scheduled now locked d).*1) by (unfold rows; by rewrite <-list_fmap_compose).
  case_decide as Hin.
  - apply list_elem_of_fmap in Hin as ([id' s] & -> & Hin). pose proof (due_scheduled_rows _ _ _ _ _ Hin) as [Hs _]. cbn in *. rewrite Hs.
    apply lookup_union_Some_l, elem_of_list_to_map_1; [rewrite Hids; apply due_scheduled_NoDup|]. apply list_elem_of_fmap. by exists (id', s).
  - rewrite lookup_union_r; [by destruct (Queue d !! id)|]. apply not_elem_of_list_to_map_1. by rewrite Hids.
Qed.

Lemma claim_due_kept now returning locked d : hands_kept d (claim_due_messages now returning locked d).1.
Proof.
  unfold claim_due_messages. cbn [fst]. unfold hands_kept, rows_fit. rewrite queue_set. split.
  - intros Hf id s. rewrite claimed_queue. destruct (Queue d !! id) as [s0|] eqn:E; [|done]. intros [= <-]. destruct (Hf _ _ E) as [H1 H2].
    by case_decide.
  - intros id s Hs [H1 H2]. rewrite claimed_queue, Hs. eexists. split; [done|]. by case_decide.
Qed.
Lemma claim_now_kept now id d : hands_kept d (claim_message_now now id d).1.
Proof.
  unfold claim_message_now. destruct (Queue d !! id) as [s|] eqn:Es; [|reflexivity]. destruct (claimable_now s); [|reflexivity].
  unfold hands_kept, rows_fit. cbn [fst]. rewrite queue_set. split.
  - intros Hf id' s'. destruct (decide (id = id')) as [<-|Hne]; [rewrite lookup_insert_eq|rewrite lookup_insert_ne by done; apply Hf].
    intros [= <-]. destruct (Hf _ _ Es) as [H1 _]. by split.
  - intros id' s' Hs' Hh. destruct (decide (id = id')) as [<-|Hne]; [rewrite lookup_insert_eq; by eexists|rewrite lookup_insert_ne by done; eauto].
Qed.

(** What a claim takes was in nobody's hands, and is then. *)
Lemma happen_takes returning d h : (forall l, Permutation (returning l) l) -> benign h -> rows_fit d ->
  hands_kept d (happen returning d h).1 /\ NoDup (happen returning d h).2 /\
  forall id, id ∈ (happen returning d h).2 ->
    (forall s, Queue d !! id = Some s -> ~ handed s) /\ exists s, Queue (happen returning d h).1 !! id = Some s /\ handed s.
Proof.
  intros Hr Hb Hf. destruct h as [now locked|now id|f]; cbn [happen].
  - split; [exact (claim_due_kept now returning locked d)|]. cbn [claim_due_messages fst snd].
    set (rows := (fun p => (p.1, ScheduledMessage.set_sent now p.2)) <$> due_scheduled now locked d).
    assert (Hids : ScheduledMessage.id <$> rows.*2 = (due_scheduled now locked d).*1).
    { unfold rows. rewrite <-!list_fmap_compose. apply list_fmap_ext. intros i [id s] Hi%list_elem_of_lookup_2. cbn.
      apply due_scheduled_rows in Hi as [Hi _]. by apply Hf in Hi as [-> _]. }
    rewrite Hr, Hids. split; [apply due_scheduled_NoDup|]. intros id. rewrite Hr, Hids. intros Hin.
    rewrite queue_set. unfold rows. rewrite claimed_queue. pose proof Hin as Hin'. apply list_elem_of_fmap in Hin' as ([id' s] & -> & Hs). cbn [fst] in *.
    apply due_scheduled_rows in Hs as [Hs Hd]. rewrite Hs, decide_True by done. unfold scheduled_due in Hd.
    apply andb_prop in Hd as [[Hns%negb_true_iff _]%andb_prop _]. split; [intros s' [= <-] [Hc _]; congruence|]. eexists. split; [done|].
    split; [done|]. change (has_failed s = false). destruct (has_failed s) eqn:E; [|done]. apply Hf in Hs as [_ Hs]. rewrite Hs in Hns; done.
  - pose proof (claim_now_kept now id d) as Hk. destruct (claim_message_now now id d) as [d' row] eqn:Ed. split; [done|].
    revert Ed. clear Hk. unfold claim_message_now. destruct (Queue d !! id) as [s|] eqn:Es; [|intros [= <- <-]; split; [constructor|by intros ? ?%not_elem_of_nil]].
    destruct (claimable_now s) eqn:Ec; intros [= <- <-]; [|split; [constructor|by intros ? ?%not_elem_of_nil]]. cbn [fst snd option_list fmap list_fmap]. destruct (Hf _ _ Es) as [Hid _].
    split; [apply NoDup_singleton|]. intros id' Hi%list_elem_of_singleton.
    assert (id' = id) as -> by (rewrite Hi; exact Hid). rewrite queue_set, lookup_insert_eq, Es.
    split; [|by eexists]. intros s' [= <-] [H1 H2]. unfold claimable_now in Ec. rewrite H1, H2 in Ec. by rewrite andb_false_r in Ec.
  - split; [apply Hb|]. split; [constructor|]. by intros id ?%not_elem_of_nil.
Qed.

(** C21: However dispatchers and requests to send at once interleave, and with
    them whatever leaves alone what was handed over, no message is handed to
    two of them. *)
Theorem messages_are_handed_out_once returning d (l : list happening) : (forall l, Permutation (returning l) l) -> Forall benign l -> rows_fit d ->
  NoDup (happenings returning d l).
Proof.
  intros Hr Hl Hf. enough (NoDup (happenings returning d l) /\ forall id s, Queue d !! id = Some s -> handed s -> id ∉ happenings returning d l) by tauto.
  revert d Hf. induction Hl as [|h l Hb _ IH]; intros d Hf; cbn [happenings]; [by split; [constructor|intros; apply not_elem_of_nil]|].
  destruct (happen_takes returning d h Hr Hb Hf) as ([Hf' Hk] & Hnd & Ht). destruct (happen returning d h) as [d' ids]. cbn [fst snd] in *.
  destruct (IH d' (Hf' Hf)) as [Hnd' Hh']. split.
  - apply NoDup_app. split_and!; [done| |done]. intros id Hid. destruct (Ht id Hid) as [_ (s & Hs & Hh)]. by eapply Hh'.
  - intros id s Hs Hh. rewrite not_elem_of_app. split; [intros Hid; destruct (Ht id Hid) as [Hn _]; by apply (Hn s)|].
    destruct (Hk id s Hs Hh) as (s' & Hs' & Hh2). by eapply Hh'.
Qed.
End claims.

(** ** Deliveries *)

Lemma alone_follows {A} (R : relation ApiDb) (m : Svc ApiDb A) d : follows R m -> calm m ->
  exists a d', m (undisturbed d) = (a, undisturbed d') /\ R d d'.
Proof.
  intros Hf Hc. destruct (Hf (undisturbed d)) as [Hr _]; [by apply Forall_nil_2|]. pose proof (Hc (undisturbed d) eq_refl) as Ha.
  destruct (m (undisturbed d)) as [a [d' ag]]. cbn in *. subst ag. by exists a, d'.
Qed.

(** The author is active, may read the channel and write in it, and the
    workspace goes on. *)
Definition may_deliver (t : AppTables) (s : ScheduledMessage.t) : Prop :=
  (exists u, users t !! ScheduledMessage.user_id s = Some u /\ User.status u = Active) /\
  exists c m w, sees t (ScheduledMessage.channel_id s) (ScheduledMessage.user_id s) false c m /\ Channel.is_archived c = false /\
    (get_str ($"post_policy") (Channel.settings c) = Some ($"moderators") ->
       moderates t (ScheduledMessage.channel_id s) (ScheduledMessage.user_id s) m) /\
    workspaces t !! Channel.workspace_id c = Some w /\ Workspace.is_active w = true.

Section deliveries.
Context `{UuidText, Alphanumeric}.
Context (entry_id : str -> list (str * str * Event) -> str) (draw : ApiDb -> Uuid) (now : Z) (show_time : Z -> str).
Context (public_address : str) (present : Uuid -> list str).
Implicit Types (d : ApiDb) (s : ScheduledMessage.t) (id ch u ws : Uuid) (m : Message.t).

Lemma then_eq {D E B C} (m : Svc D (result E B)) (f : B -> Svc D (result E C)) w :
  (x ←? m; f x) w = match (m w).1 with Ok a => f a (m w).2 | Err e => (Err e, (m w).2) end.
Proof. unfold and_then. rewrite svc_bind_eq. by destruct (m w) as [[]]. Qed.
Lemma or_failure_answers {A} (V : relation ApiDb) f (m : Api A) q d : answers V m q ->
  or_failure f m (undisturbed d) = (match q d with Ok a => Ok a | Err e => Err (f e) end, undisturbed d).
Proof. intros E. unfold or_failure. by rewrite svc_bind_eq, (answers_quiet V m q (undisturbed d) E). Qed.

Lemma can_post_spec (a : ChannelAccess.t) (t : AppTables) ch u :
  ChannelAccess.channel_member a = channel_members t !! (ch, u) -> Channel.is_archived (ChannelAccess.channel a) = false ->
  ChannelAccess.can_post a = true <->
  (get_str ($"post_policy") (Channel.settings (ChannelAccess.channel a)) = Some ($"moderators") -> moderates t ch u (ChannelAccess.member a)).
Proof.
  intros Hcm Har. unfold ChannelAccess.can_post, ChannelAccess.post_policy. rewrite Har. unfold moderates. rewrite <-Hcm.
  pose proof (can_moderate_true a) as Hm. unfold ChannelAccess.role in Hm. destruct (get_str _ _) as [s|]; [|naive_solver].
  destruct (str_eqb s _) eqn:E; [apply str_eqb_true in E as ->; rewrite Hm; naive_solver|].
  split; [intros _ [= ->]|done]. by rewrite (proj2 (str_eqb_true _ _) eq_refl) in E.
Qed.

Lemma authorize_alone s d : exists r, authorize_channel s (ScheduledMessage.channel_id s) (undisturbed d) = (r, undisturbed d) /\
  match r with
  | Ok _ => may_deliver (app d) s
  | Err f => ~ may_deliver (app d) s /\ f <> DeliveryFailure.ThreadGone /\ (DeliveryFailure.tell_the_author f = false -> f = DeliveryFailure.AuthorInactive)
  end.
Proof.
  set (u := ScheduledMessage.user_id s). set (ch := ScheduledMessage.channel_id s). unfold authorize_channel. fold u ch.
  rewrite then_eq, (or_failure_answers _ _ _ _ _ (still_acting_answers _ _ _)).
  unfold still_acting_rule, find_by_id. cbn [fst snd]. unfold may_deliver. fold u ch.
  destruct (users (app d) !! u) as [usr|] eqn:Eu; cbn [negb fst snd];
    [|eexists; split; [done|]; split; [by intros [(? & [=] & _) _]|done]].
  destruct (bool_decide (User.status usr = Active)) eqn:Ea; bool_hyps;
    [|eexists; split; [done|]; split; [by intros [(? & [= <-] & ?) _]|done]].
  assert (Hst : forall (m : option WorkspaceMember.t), exists o, (match m with None => Ok (Some LeftWorkspace) | Some _ => Ok None end : AppResult _) = Ok o /\ o <> Some Inactive)
    by (intros []; by eexists).
  destruct (Hst (get_member (ScheduledMessage.workspace_id s) u (app d))) as (o & Ho & Hni).
  rewrite Ho. cbn [negb fst snd]. rewrite (bool_decide_eq_false_2 _ Hni).
  rewrite then_eq, (or_failure_answers _ _ _ _ _ (require_channel_access_answers _ _)). cbn [fst snd].
  assert (Hsees : forall c (m : WorkspaceMember.t), sees (app d) ch u false c m ->
    exists a, access_rule ch u false (app d) = Ok a /\ ChannelAccess.channel a = c /\ ChannelAccess.member a = m).
  { intros c m Hs. exists {| ChannelAccess.channel := c; ChannelAccess.member := m; ChannelAccess.channel_member := channel_members (app d) !! (ch, u) |}.
    split; [by apply access_rule_Ok|done]. }
  destruct (access_rule ch u false (app d)) as [a|e] eqn:Er; cbn [fst snd];
    [|eexists; split; [done|]; split; [by intros [_ (c & m & w & (a & [=] & _)%Hsees & _)]|done]].
  apply access_rule_Ok in Er as [Hs Hcm]. pose proof (can_post_spec a (app d) ch u Hcm) as Hpost.
  assert (Hone : forall c (m : WorkspaceMember.t), sees (app d) ch u false c m -> c = ChannelAccess.channel a /\ m = ChannelAccess.member a)
    by (intros c m (? & [= <-] & <- & <-)%Hsees; done).
  destruct (Channel.is_archived (ChannelAccess.channel a)) eqn:Har;
    [eexists; split; [done|]; split; [intros [_ (c & m & w & [-> ->]%Hone & ? & _)]; congruence|done]|].
  destruct (ChannelAccess.can_post a) eqn:Hp; cbn [negb];
    [|eexists; split; [done|]; split; [intros [_ (c & m & w & [-> ->]%Hone & _ & Hm & _)]; by apply Hpost in Hm|done]].
  rewrite then_eq. unfold or_failure at 1. rewrite svc_bind_eq, query_quiet by done. cbn [fst snd shared undisturbed mret].
  unfold find_workspace_by_id. destruct (workspaces (app d) !! _) as [w|] eqn:Ew; cbn;
    [|eexists; split; [done|]; split; [intros [_ (c & m & w & [-> ->]%Hone & _ & _ & ? & _)]; congruence|done]].
  destruct (Workspace.is_active w) eqn:Hact; eexists; (split; [done|]);
    [|split; [intros [_ (c & m & w' & [-> ->]%Hone & _ & _ & ? & ?)]; congruence|done]].
  split; [eauto|]. eexists _, _, w. split_and!; try done. by apply Hpost.
Qed.

Lemma root_alone s ch d : exists r, root_for s ch (undisturbed d) = (r, undisturbed d) /\
  match r with Ok o => is_Some o <-> is_Some (ScheduledMessage.thread_parent_id s) | Err f => f = DeliveryFailure.ThreadGone end.
Proof.
  unfold root_for. destruct (ScheduledMessage.thread_parent_id s) as [parent|]; [|by eexists].
  destruct (alone_follows eq (thread_root ch parent) d) as (r & d' & E & <-); [apply thread_root_follows, _|unfold thread_root; solve_calm|].
  rewrite then_eq. unfold or_failure. rewrite svc_bind_eq, E. cbn. destruct r as [root|e]; by eexists.
Qed.
Lemma mentions_alone ch u content d : exists l, expand_mentions present ch u content (undisturbed d) = (l, undisturbed d).
Proof.
  destruct (alone_follows eq (expand_mentions present ch u content) d) as (l & d' & E & <-); [apply expand_mentions_follows, _| |by exists l].
  unfold expand_mentions, or_else, can_broadcast, broadcast_refusal, access_to, workspace_rule, online_user_ids, list_channel_member_ids. solve_calm.
Qed.

(** The same message, but for what is attached to it. *)
Definition same_text m m' : Prop :=
  Message.id m' = Message.id m /\ Message.channel_id m' = Message.channel_id m /\ Message.user_id m' = Message.user_id m /\
  Message.content m' = Message.content m /\ Message.thread_parent_id m' = Message.thread_parent_id m.
Lemma claim_drafts_in_messages ids id ws u d r d' : claim_drafts_in ids id ws u d = (Ok r, d') -> Mt d' = Mt d.
Proof.
  unfold claim_drafts_in. intros E. destruct ids as [|i ids]; inv_msg; [done|]. rewrite app_with, tables_set. unfold claim_drafts. cbn. by rewrite messages_set_files.
Qed.
Lemma attach_in_Ok m ids ws u d m' d' : Mt d !! Message.id m = Some m -> attach_in draw now public_address m ids [] ws u d = (Ok m', d') ->
  Mt d' !! Message.id m = Some m' /\ same_text m m'.
Proof.
  unfold attach_in. intros Hm E. apply tx_bind_Ok in E as (claimed & d1 & E1%claim_drafts_in_messages & E).
  apply tx_bind_Ok in E as (copies & d2 & E2 & E). apply tx_ret_Ok in E2 as [-> ->]. rewrite app_nil_r in E.
  destruct claimed as [|f claimed]; [apply tx_ret_Ok in E as [-> ->]; by rewrite E1|].
  apply change_message_Ok in E as (m0 & Hm0 & -> & ->). rewrite E1, Hm in Hm0. injection Hm0 as <-. split; [|done].
  unfold alter_message. autorewrite with msg_rw. by rewrite E1, lookup_alter_eq, Hm.
Qed.

Lemma deliver_tx_queue s new root d r d' : deliver_tx draw now show_time public_address s new root d = (r, d') -> Queue d' = Queue d.
Proof.
  assert (Hl : tx_follows (leaves scheduled_messages) (deliver_tx draw now show_time public_address s new root)).
  { unfold deliver_tx, create_message_in, insert_message, bump_unread, or_violation, attach_in, claim_drafts_in, record_copies_in, tx_each,
      set_attachments_in, change_message, tx_require, follow_and_stage, follow_on_reply_in, follows_run, stage_message_created,
      message_run, message_read, drawn, foreign_key, unique_violation. solve_tx_follows; try done. }
  intros E. pose proof (Hl d) as Hd. by rewrite E in Hd.
Qed.
Lemma deliver_tx_Ok s new root d st d' : deliver_tx draw now show_time public_address s new root d = (Ok st, d') ->
  exists m, Mt d !! Message.id m = None /\ Mt d' !! Message.id m = Some m /\ Message.channel_id m = NewMessage.channel_id new /\
    Message.user_id m = NewMessage.user_id new /\ Message.content m = NewMessage.content new /\
    Message.thread_parent_id m = NewMessage.thread_parent_id new.
Proof.
  unfold deliver_tx. intros E. apply tx_bind_Ok in E as (o & d1 & E1%create_message_in_Ok & E).
  apply tx_bind_Ok in E as (m1 & d1' & Ev & E). unfold or_violation in Ev. destruct o as [m1'|]; [|by inv_msg].
  apply tx_ret_Ok in Ev as [<- ->]. destruct E1 as (Em & Hid & _ & Hpar & HM1 & _ & _).
  assert (Hself : Message.thread_parent_id m1 <> Some (Message.id m1)) by (intros Hs; apply Hpar in Hs; rewrite Hid in Hs; by destruct Hs).
  apply tx_bind_Ok in E as (m & d2 & E2 & E). apply attach_in_Ok in E2 as [Hm (H1 & H2 & H3 & H4 & H5)].
  2:{ rewrite HM1. unfold add_message. destruct (Message.thread_parent_id m1) as [p|] eqn:Ep; [|apply lookup_insert_eq].
    rewrite lookup_alter_ne, lookup_insert_eq by congruence. done. }
  exists m. rewrite H1, H2, H3, H4, H5. split_and!; try done; try by subst m1.
  unfold follow_and_stage in E. apply tx_bind_Ok in E as ([] & d3 & E3 & E). unfold stage_message_created in E. apply stage_keeps in E as ->.
  destruct root; [apply follow_on_reply_keeps in E3 as [_ ->]; done|]. by apply tx_ret_Ok in E3 as [_ ->].
Qed.

(** What was written is in its channel now, and was not before. *)
Definition is_sent_as s (M M' : gmap Uuid Message.t) : Prop :=
  exists m, M !! Message.id m = None /\ M' !! Message.id m = Some m /\ Message.channel_id m = ScheduledMessage.channel_id s /\
    Message.user_id m = ScheduledMessage.user_id s /\ Message.content m = ScheduledMessage.content s /\
    (is_Some (Message.thread_parent_id m) <-> is_Some (ScheduledMessage.thread_parent_id s)).

Lemma write_calm {D} (op : D -> D) : calm (svc_write op).
Proof. unfold svc_write. solve_calm. Qed.
Lemma gets_calm {D A} (q : D -> A) : calm (svc_gets q).
Proof. by intros w. Qed.
#[local] Hint Resolve write_calm gets_calm : calm.
Lemma emit_calm (e : Event) (ws : option Uuid) : calm (emit entry_id e ws : Api Event).
Proof. unfold emit, append_durable. solve_calm. Qed.
#[local] Hint Resolve emit_calm : calm.
Lemma dispatch_calm staged : calm (dispatch entry_id now staged : Svc ApiDb unit).
Proof. unfold dispatch, mark_published. solve_calm. Qed.
Lemma announced_alone staged (root : option Message.t) ws d : exists d',
  (_ ← dispatch entry_id now staged;
   _ ← match root with Some root => announce_reply entry_id draw now (Message.id root) ws | None => mret tt end;
   mret (Ok tt) : Delivery unit) (undisturbed d) = (Ok tt, undisturbed d') /\ app d' = app d.
Proof.
  destruct (alone_follows (leaves (fun t => t)) (dispatch entry_id now staged) d) as ([] & d1 & E1 & H1).
  { by apply dispatch_follows; [apply _|]. } { apply dispatch_calm. }
  destruct (alone_follows (leaves (fun t => t))
    (match root with Some root => announce_reply entry_id draw now (Message.id root) ws | None => mret tt end) d1) as ([] & d2 & E2 & H2).
  { destruct root; [by apply announce_reply_follows; [apply _|]|apply follows_ret, _]. }
  { destruct root; [|solve_calm]. unfold announce_reply, announce_thread, svc_ignore, publish. solve_calm. }
  exists d2. rewrite svc_bind_eq, E1. cbn [fst snd]. rewrite svc_bind_eq, E2. split; [done|]. unfold leaves in *. cbn in *. congruence.
Qed.

Lemma deliver_to_channel_alone s d : exists r d',
  deliver_to_channel entry_id draw now show_time public_address present s (ScheduledMessage.channel_id s) (undisturbed d) = (r, undisturbed d') /\
  match r with
  | Ok _ => may_deliver (app d) s /\ Queue d' = Queue d /\ is_sent_as s (Mt d) (Mt d')
  | Err f => d' = d /\ (may_deliver (app d) s -> f = DeliveryFailure.ThreadGone \/ exists e, f = DeliveryFailure.Internal e) /\
      (DeliveryFailure.tell_the_author f = false -> f = DeliveryFailure.AuthorInactive \/ exists e, f = DeliveryFailure.Internal e)
  end.
Proof.
  unfold deliver_to_channel. rewrite then_eq. destruct (authorize_alone s d) as (ra & -> & Ha). cbn [fst snd].
  destruct ra as [_|f]; [|exists (Err f), d; split; [done|]; destruct Ha as (Hn & _ & Ht); split_and!; [done|by intros ?%Hn|by auto]].
  rewrite then_eq. destruct (root_alone s (ScheduledMessage.channel_id s) d) as (rr & -> & Hr). cbn [fst snd].
  destruct rr as [root|f]; [|subst f; exists (Err DeliveryFailure.ThreadGone), d; split; [done|]; split_and!; [done|by left|done]].
  rewrite svc_bind_eq. destruct (mentions_alone (ScheduledMessage.channel_id s) (ScheduledMessage.user_id s) (ScheduledMessage.content s) d) as (l & ->).
  cbn [fst snd]. rewrite then_eq. unfold or_failure. rewrite svc_bind_eq, transaction_quiet by done. cbn [shared undisturbed].
  destruct (deliver_tx _ _ _ _ _ _ _ d) as [[st|e] d1] eqn:E; cbn [fst snd mret].
  2:{ exists (Err (DeliveryFailure.Internal e)), d. split; [done|]. split_and!; first [done|intros _; right; by eexists]. }
  change {| shared := d1; agenda := [] |} with (undisturbed d1).
  destruct (announced_alone st root (ScheduledMessage.workspace_id s) d1) as (d2 & Ean & Happ).
  exists (Ok tt), d2. split; [exact Ean|]. rewrite Happ. rewrite (deliver_tx_queue _ _ _ _ _ _ E). split_and!; [done..|].
  apply deliver_tx_Ok in E as (m & H1 & H2 & H3 & H4 & H5 & H6). exists m. split_and!; try done. rewrite H6. cbn. by rewrite fmap_is_Some.
Qed.

Lemma queue_rows f (t : AppTables) : scheduled_messages (set_message_tables f t) = scheduled_messages t.
Proof. by destruct t. Qed.
Lemma tables_queue f (t : AppTables) : message_tables (set_scheduled_messages f t) = message_tables t.
Proof. by destruct t. Qed.
Lemma queue_queue f (t : AppTables) : scheduled_messages (set_scheduled_messages f t) = f (scheduled_messages t).
Proof. by destruct t. Qed.
Lemma references_queue ws u f (t : AppTables) : references_exist ws u (set_scheduled_messages f t) = references_exist ws u t.
Proof. by destruct t. Qed.

(** Such a row is like no other: it is about no message and no call. *)
Lemma failure_is_new s f (t : MessageTables) : notified (failure_row now s f) t = false.
Proof.
  unfold notified. apply not_true_iff_false. rewrite existsb_exists. intros (x & _ & Hx). unfold duplicates in Hx.
  apply andb_prop in Hx as [_ Hx]. unfold same_at in Hx. cbn in Hx. done.
Qed.
Lemma create_new (row : Notification.t) d : Rows d !! draw d = None -> notified row (message_tables (app d)) = false ->
  references_exist (Notification.workspace_id row) (Notification.user_id row) (app d) = true ->
  create_in draw row d = (Ok (Some row), with_app (set_message_tables (set_notifications (<[draw d := row]>))) d).
Proof.
  intros Hid Hn Href. unfold create_in, drawn, message_read, message_run, read, run, tx_read, tx_query, mbind, Tx_bind, mret, Tx_ret. cbn [fst snd].
  rewrite Hid, bool_decide_eq_false_2 by (by intros [? ?]). rewrite Hn. cbn [orb]. by rewrite Href.
Qed.
Lemma notify_alone s f d : Rows d !! draw d = None ->
  references_exist (ScheduledMessage.workspace_id s) (ScheduledMessage.user_id s) (app d) = true -> exists d',
  notify_author entry_id draw now s f (undisturbed d) = (tt, undisturbed d') /\ Mt d' = Mt d /\ Queue d' = Queue d /\
  Rows d' = <[draw d := failure_row now s f]> (Rows d).
Proof.
  intros Hid Href. unfold notify_author. rewrite svc_bind_eq. unfold create_notification. rewrite transaction_quiet by done. cbn [shared undisturbed].
  rewrite create_new by (done || apply failure_is_new).
  match goal with |- context [{| shared := ?x; agenda := [] |}] => set (d1 := x); change {| shared := d1; agenda := [] |} with (undisturbed d1) end.
  rewrite svc_bind_eq. cbn [svc_gets fst snd]. unfold svc_ignore. rewrite svc_bind_eq. unfold publish.
  match goal with |- context [emit entry_id ?e None (undisturbed d1)] =>
    destruct (alone_follows (leaves (fun t => t)) (emit entry_id e None : Api Event) d1) as (r & d2 & E & Happ) end.
  { by apply emit_follows; [apply _|]. } { apply emit_calm. }
  rewrite E. exists d2. unfold leaves in Happ. rewrite Happ. split; [done|]. subst d1. rewrite app_with, queue_rows, messages_rows.
  by destruct (message_tables (app d)).
Qed.

Lemma record_alone id failure d : record_failure id failure (undisturbed d) =
  (tt, undisturbed (with_app (set_scheduled_messages (alter (ScheduledMessage.set_failure failure) id)) d)).
Proof. unfold record_failure, svc_ignore. by rewrite svc_bind_eq, change_quiet. Qed.

(** C22: A delivery is decided, one way or the other.  Alone, and with every call
    answered, it ends either with the message in its channel, as its author, who
    may still write it there by the checks of the executor (which do not ask
    whether the other side of a direct conversation left:
    [a_scheduled_message_reaches_who_left]), or with no message, the reason in
    the row, and a notification for the author, unless the account is suspended
    or the server failed; it is not refused to somebody who may write it for
    any other reason than that the thread is gone or the server failed.  What a
    lost call makes of it: [a_lost_failure_looks_like_a_delivery]. *)
Theorem a_delivery_is_decided s d : (forall d, Rows d !! draw d = None) -> Queue d !! ScheduledMessage.id s = Some s ->
  references_exist (ScheduledMessage.workspace_id s) (ScheduledMessage.user_id s) (app d) = true ->
  exists r d', deliver_now entry_id draw now show_time public_address present s (undisturbed d) = (r, undisturbed d') /\
  match r with
  | Ok _ => may_deliver (app d) s /\ is_sent_as s (Mt d) (Mt d') /\ Queue d' = Queue d
  | Err f => Mt d' = Mt d /\
      Queue d' = <[ScheduledMessage.id s := ScheduledMessage.set_failure (DeliveryFailure.as_str f) s]> (Queue d) /\
      (may_deliver (app d) s -> f = DeliveryFailure.ThreadGone \/ exists e, f = DeliveryFailure.Internal e) /\
      if DeliveryFailure.tell_the_author f then exists id, Rows d !! id = None /\ Rows d' = <[id := failure_row now s f]> (Rows d)
      else Rows d' = Rows d /\ (f = DeliveryFailure.AuthorInactive \/ exists e, f = DeliveryFailure.Internal e)
  end.
Proof.
  intros Hfresh Hs Href. unfold deliver_now. rewrite svc_bind_eq. destruct (deliver_to_channel_alone s d) as (r & d1 & -> & Hr). cbn [fst snd].
  destruct r as [_|f]; [destruct Hr as (? & ? & ?); by exists (Ok tt), d1|]. destruct Hr as (-> & Hmay & Htell).
  rewrite svc_bind_eq, record_alone. cbn [fst snd]. set (d1 := with_app _ d).
  assert (H1 : Mt d1 = Mt d /\ Rows d1 = Rows d /\ Queue d1 = <[ScheduledMessage.id s := ScheduledMessage.set_failure (DeliveryFailure.as_str f) s]> (Queue d) /\
    references_exist (ScheduledMessage.workspace_id s) (ScheduledMessage.user_id s) (app d1) = true).
  { subst d1. rewrite app_with, tables_queue, queue_queue, references_queue. split_and!; try done. apply map_eq. intros k.
    destruct (decide (k = ScheduledMessage.id s)) as [->|Hne]; [by rewrite lookup_alter_eq, lookup_insert_eq, Hs|by rewrite lookup_alter_ne, lookup_insert_ne]. }
  destruct H1 as (HM & HR & HQ & Href1). exists (Err f). destruct (DeliveryFailure.tell_the_author f).
  - destruct (notify_alone s f d1 (Hfresh d1) Href1) as (d2 & E & HM2 & HQ2 & HR2). exists d2. rewrite svc_bind_eq, E. split; [done|].
    rewrite HM2, HQ2, HR2, HM, HR. split_and!; [done..|]. exists (draw d1). split; [by rewrite <-HR|done].
  - exists d1. rewrite svc_bind_eq. split; [done|]. rewrite HM, HR. split_and!; auto.
Qed.
End deliveries.

(** ** Examples *)

Module SampleScheduled.
#[export] Existing Instances SampleMentions.unary.
#[export] Instance letters : Alphanumeric := {| is_alphanumeric := is_ascii_alphanumeric |}.
Definition row (ch u : Uuid) : ScheduledMessage.t :=
  {| ScheduledMessage.id := 70%N; ScheduledMessage.workspace_id := 20%N; ScheduledMessage.user_id := u; ScheduledMessage.channel_id := ch;
     ScheduledMessage.content := $"later"; ScheduledMessage.send_at := 50; ScheduledMessage.sent_at := None; ScheduledMessage.canceled_at := None;
     ScheduledMessage.failure := None; ScheduledMessage.created_at := 10; ScheduledMessage.attachment_ids := [];
     ScheduledMessage.thread_parent_id := None; ScheduledMessage.also_in_channel := false |}.
Definition db_of (s : ScheduledMessage.t) : ApiDb :=
  with_app (set_scheduled_messages (fun _ => {[70%N := s]})) (SampleMessages.db [] [SampleMessages.seat 1 0]).
Definition db : ApiDb := db_of (row 30 1).
Definition draw (d : ApiDb) : Uuid := next_id (Rows d).
Definition in_order (l : list ScheduledMessage.t) : list ScheduledMessage.t := l.
Definition deliver (s : ScheduledMessage.t) (d : ApiDb) : result DeliveryFailure.t unit * SvcWorld ApiDb :=
  deliver_now Outbox.SampleOutbox.entry_id draw 100 (fun _ => []) [] (fun _ => []) s (undisturbed d).
Definition quiet (f : ApiDb -> ApiDb) : SvcTick ApiDb := {| others := f; call_fault := None |}.
Definition round (now : Z) (d : ApiDb) : ApiDb * list ScheduledMessage.t := claim_due_messages now in_order ∅ d.
Definition left : Departure.t :=
  {| Departure.role := ChannelRole.Member; Departure.joined_at := 0; Departure.left_at := 5; Departure.reading := Reading.fresh |}.
(** A direct conversation of the first two people, which the second left with
    the workspace. *)
Definition direct : ApiDb :=
  with_app (fun t => set_conversation_departures (fun _ => {[(33%N, 2%N) := left]}) (set_workspace_members (delete (20%N, 2%N))
    (set_channels (<[33%N := Authz.SampleTables.channel 33 Dm (JObject [])]>)
    (set_channel_members (<[(33%N, 1%N) := Authz.SampleTables.membership 33 1 ChannelRole.Member]>) t)))) (db_of (row 33 1)).
Definition post_in_33 (d : ApiDb) : AppResult ChannelAccess.t := (require_channel_post 33%N 1%N (undisturbed d)).1.
End SampleScheduled.
Import SampleScheduled.

Lemma messages_are_handed_out_once_witness :
  happenings in_order db [ClaimsDue 100 ∅; ClaimsNow 110 70%N; Elsewhere id; ClaimsDue 120 ∅] = [70%N] /\
  NoDup (happenings in_order db [ClaimsDue 100 ∅; ClaimsNow 110 70%N; Elsewhere id; ClaimsDue 120 ∅]).
Proof.
  split; [vm_compute; reflexivity|]. apply (messages_are_handed_out_once in_order db); [done| |].
  - rewrite !Forall_cons. split_and!; [done|done|intros d; reflexivity|done|by apply Forall_nil].
  - intros id s Hs. change (({[70%N := row 30 1]} : gmap Uuid ScheduledMessage.t) !! id = Some s) in Hs. apply lookup_singleton_Some in Hs as [<- <-]. done.
Defined.
Lemma a_delivery_is_decided_witness : (deliver (row 30 1) db).1 = Ok tt /\ size (Mt (shared (deliver (row 30 1) db).2)) = 1%nat /\
  may_deliver (app db) (row 30 1).
Proof.
  split; [vm_compute; reflexivity|]. split; [vm_compute; reflexivity|].
  destruct (a_delivery_is_decided Outbox.SampleOutbox.entry_id draw 100 (fun _ => []) [] (fun _ => []) (row 30 1) db
    (fun d => next_id_fresh (Rows d)) ltac:(vm_compute; reflexivity) ltac:(vm_compute; reflexivity)) as (r & d' & E & Hr).
  assert (Er : r = Ok tt) by (apply (f_equal fst) in E; vm_compute in E; by rewrite <-E).
  subst r. apply Hr.
Defined.

(** A message that is being delivered can be put off, and is delivered again.
    When a dispatcher claims a message between the two queries of a request to
    change its time, the request is granted, what the claim had marked is gone,
    and a later round claims the message a second time. *)
Theorem a_message_is_claimed_twice :
  let '(r, w) := reschedule 60 (Authz.SampleTables.caller 1) 70%N 300
    {| shared := db; agenda := [quiet id; quiet (fun d => (round 100 d).1)] |} in
  (exists s, r = Ok s) /\ ScheduledMessage.id <$> (round 100 db).2 = [70%N] /\ ScheduledMessage.id <$> (round 400 (shared w)).2 = [70%N].
Proof. vm_compute. split; [by eexists|done]. Qed.

(** A scheduled message reaches a conversation whose other side left, where
    its author may not write any more. *)
Theorem a_scheduled_message_reaches_who_left :
  (exists why, post_in_33 direct = Err (Forbidden why)) /\ (deliver (row 33 1) direct).1 = Ok tt /\ size (Mt (shared (deliver (row 33 1) direct).2)) = 1%nat.
Proof. vm_compute. split_and!; [by eexists|done..]. Qed.

(** A message that was not delivered and whose reason was not recorded looks
    sent.  When the update that records the reason is lost as well, the row is
    marked as sent without a failure: it is not pending any more, and its
    author can neither send it nor change its time. *)
Theorem a_lost_failure_looks_like_a_delivery :
  let taken := (round 100 (db_of (row 32 1))).1 in
  let '(r, w) := deliver_now Outbox.SampleOutbox.entry_id draw 100 (fun _ => []) [] (fun _ => []) (ScheduledMessage.set_sent 100 (row 32 1))
    {| shared := taken; agenda := [quiet id; quiet id; quiet id; quiet id; quiet id; {| others := id; call_fault := Some (CallRefused []) |}] |} in
  r = Err DeliveryFailure.NotAuthorized /\ Mt (shared w) = ∅ /\ list_pending_for_user 20%N 1%N (app (shared w)) = [] /\
  exists why, (owned_open 70%N 1%N (undisturbed (shared w))).1 = Err (Conflict why).
Proof. vm_compute. split_and!; try done. by eexists. Qed.
