(* ===== verification/Conversations.v ===== *)
(** * Conversations
    ([backend/api/src/conversations/{models,repo,routes}.rs])

    A direct message and a group are channels nobody can browse: who sits in
    one takes part.  These operations find and open them. *)

From stdpp Require Import base tactics option numbers list gmap sorting.
From Stdlib Require Import ZArith Lia String Ascii.
From S2P Require Import Prelude RustStr Json Errors Frames Publisher Validation ListForms MessageStore NoticeStore Mentions ApiState Outbox AuditLog Tables Authz Membership ApiLaws Messaging Files Threads MessageRoutes Notices.

Definition MAX_GROUP_PARTICIPANTS : nat := 9.

Module ConversationKind.
Inductive t := Direct | Group.
#[export] Instance eq_dec : EqDecision t.
Proof. solve_decision. Defined.
Definition channel_type (k : t) : ChannelType := match k with Direct => Dm | Group => GroupDm end.
Definition of_type (ty : ChannelType) : option t := match ty with Dm => Some Direct | GroupDm => Some Group | Public | Private => None end.
Definition as_str (k : t) : str := match k with Direct => $"direct" | Group => $"group" end.
End ConversationKind.

Module Conversation.
Record t := {
  id : Uuid; workspace_id : Uuid; kind : ConversationKind.t; created_by : option Uuid; last_message_at : Z; created_at : Z;
}.
End Conversation.

Module DepartedParticipant.
Record t := { user_id : Uuid; display_name : option str; avatar_url : option str; left_at : Z }.
End DepartedParticipant.

Module ConversationSummary.
Record t := {
  id : Uuid; workspace_id : Uuid; kind : ConversationKind.t; last_message_at : Z; unread_count : Z; participant_ids : list Uuid;
  departed : list DepartedParticipant.t; notify_level : option NotifyLevel.t; effective_notify_level : NotifyLevel.t;
}.
End ConversationSummary.

Section conversations.
Context `{UuidText}.
Context (entry_id : str -> list (str * str * Event) -> str) (draw : ApiDb -> Uuid) (now : Z) (show_time : Z -> str).
(** Columns the tables here do not keep: the default level of a member, and
    the picture of an account. *)
Context (notify_default : Uuid -> Uuid -> NotifyLevel.t) (avatar_of : Uuid -> option str).
Implicit Types (t : AppTables) (c : Channel.t) (ch u ws : Uuid) (kind : ConversationKind.t).

(** ** Rows ([repo.rs]) *)

Definition is_dm c : bool := bool_decide (is_Some (ConversationKind.of_type (Channel.channel_type c))).
(** [MAX(created_at)], which is none of no rows. *)
Definition max_of (l : list Z) : option Z := match l with [] => None | x :: l => Some (foldr Z.max x l) end.
Definition last_message_at ch c t : Z :=
  default (Channel.created_at c)
    (max_of (Message.created_at <$> filter (fun m => Message.channel_id m = ch /\ is_live m = true) (map_to_list (messages (message_tables t))).*2)).
Definition into_conversation ch c (last : Z) : option Conversation.t :=
  kind ← ConversationKind.of_type (Channel.channel_type c);
  Some {| Conversation.id := ch; Conversation.workspace_id := Channel.workspace_id c; Conversation.kind := kind;
          Conversation.created_by := Channel.created_by c; Conversation.last_message_at := last;
          Conversation.created_at := Channel.created_at c |}.
Definition find_conversation ch t : option Conversation.t := c ← channels t !! ch; into_conversation ch c (last_message_at ch c t).

(** [ORDER BY c.created_at, c.id] *)
Definition opened_before (p q : Uuid * Channel.t) : Prop :=
  Channel.created_at p.2 < Channel.created_at q.2 \/ Channel.created_at p.2 = Channel.created_at q.2 /\ (p.1 <= q.1)%N.
#[global] Instance opened_before_dec p q : Decision (opened_before p q).
Proof. unfold opened_before. apply _. Defined.
Definition is_between ws (a b : Uuid) t (p : Uuid * Channel.t) : bool :=
  bool_decide (Channel.workspace_id p.2 = ws) && bool_decide (Channel.channel_type p.2 = Dm) &&
  bool_decide (is_Some (channel_members t !! (p.1, a))) && bool_decide (is_Some (channel_members t !! (p.1, b))).
Definition find_direct ws (a b : Uuid) t : option Conversation.t :=
  p ← head (merge_sort opened_before (filter (fun p => is_between ws a b t p = true) (map_to_list (channels t))));
  into_conversation p.1 p.2 (last_message_at p.1 p.2 t).

Definition conversation_row ch ws kind u : Channel.t :=
  {| Channel.id := ch; Channel.workspace_id := ws; Channel.name := None; Channel.channel_type := ConversationKind.channel_type kind;
     Channel.created_by := Some u; Channel.is_default := false; Channel.is_archived := false; Channel.settings := JObject [];
     Channel.created_at := now |}.
Definition insert_conversation ws kind u : Tx ApiDb Uuid :=
  ch ← drawn draw;
  taken ← read (fun t => bool_decide (is_Some (channels t !! ch)));
  if taken : bool then unique_violation
  else
    there ← read (references_exist ws u);
    if negb there then foreign_key
    else _ ← run (set_channels (<[ch := conversation_row ch ws kind u]>)); mret ch.
Definition open_in ws kind u (participants : list Uuid) : Tx ApiDb Conversation.t :=
  ch ← insert_conversation ws kind u;
  _ ← tx_each (fun p => add_channel_member_tx now ch p ChannelRole.Member) participants;
  mret {| Conversation.id := ch; Conversation.workspace_id := ws; Conversation.kind := kind; Conversation.created_by := Some u;
          Conversation.last_message_at := now; Conversation.created_at := now |}.

Definition share_a_channel (a b : Uuid) t : bool :=
  existsb (fun k : Uuid * Uuid => bool_decide (k.2 = a) && bool_decide (is_Some (channel_members t !! (k.1, b))))
    (map_to_list (channel_members t)).*1.

(** [ORDER BY joined_at, user_id] *)
Definition seated_before (p q : Uuid * ChannelMember.t) : Prop :=
  ChannelMember.joined_at p.2 < ChannelMember.joined_at q.2 \/ ChannelMember.joined_at p.2 = ChannelMember.joined_at q.2 /\ (p.1 <= q.1)%N.
#[global] Instance seated_before_dec p q : Decision (seated_before p q).
Proof. unfold seated_before. apply _. Defined.
Definition participant_ids ch t : list Uuid :=
  (merge_sort seated_before (omap (fun p : Uuid * Uuid * ChannelMember.t => if bool_decide (p.1.1 = ch) then Some (p.1.2, p.2) else None)
    (map_to_list (channel_members t)))).*1.

(** [ORDER BY d.left_at, d.user_id] *)
Definition left_earlier (p q : Uuid * Departure.t) : Prop :=
  Departure.left_at p.2 < Departure.left_at q.2 \/ Departure.left_at p.2 = Departure.left_at q.2 /\ (p.1 <= q.1)%N.
#[global] Instance left_earlier_dec p q : Decision (left_earlier p q).
Proof. unfold left_earlier. apply _. Defined.
Definition departed_of ch t : list DepartedParticipant.t :=
  omap (fun p : Uuid * Departure.t => u ← users t !! p.1;
    Some {| DepartedParticipant.user_id := p.1; DepartedParticipant.display_name := User.display_name u;
            DepartedParticipant.avatar_url := avatar_of p.1; DepartedParticipant.left_at := Departure.left_at p.2 |})
    (merge_sort left_earlier (departures_of ch t)).

Definition summary_for u t (p : Uuid * Channel.t) : option ConversationSummary.t :=
  mine ← channel_members t !! (p.1, u);
  _ ← workspace_members t !! (Channel.workspace_id p.2, u);
  kind ← ConversationKind.of_type (Channel.channel_type p.2);
  let stored := Reading.notify_level (ChannelMember.reading mine) ≫= NotifyLevel.of_str in
  Some {| ConversationSummary.id := p.1; ConversationSummary.workspace_id := Channel.workspace_id p.2; ConversationSummary.kind := kind;
          ConversationSummary.last_message_at := last_message_at p.1 p.2 t; ConversationSummary.unread_count := ChannelMember.unread_count mine;
          ConversationSummary.participant_ids := participant_ids p.1 t; ConversationSummary.departed := departed_of p.1 t;
          ConversationSummary.notify_level := stored;
          ConversationSummary.effective_notify_level := effective_level stored (notify_default (Channel.workspace_id p.2) u) true |}.
(** [ORDER BY 4 DESC] *)
Definition said_later (a b : ConversationSummary.t) : Prop := ConversationSummary.last_message_at b <= ConversationSummary.last_message_at a.
#[global] Instance said_later_dec a b : Decision (said_later a b).
Proof. unfold said_later. apply _. Defined.
Definition conversations_of ws u t : list ConversationSummary.t :=
  merge_sort said_later (omap (summary_for u t) (filter (fun p => Channel.workspace_id p.2 = ws) (map_to_list (channels t)))).

(** ** Requests ([routes.rs]) *)

Definition conversation_json (c : Conversation.t) : list (str * json) :=
  [uuid_field "id" (Conversation.id c); uuid_field "workspace_id" (Conversation.workspace_id c);
   ($"kind", JString (ConversationKind.as_str (Conversation.kind c))); ($"created_by", uuid_opt (Conversation.created_by c));
   ($"last_message_at", time_json show_time (Conversation.last_message_at c)); ($"created_at", time_json show_time (Conversation.created_at c))].
Definition conversation_event (participants : list Uuid) ws (c : Conversation.t) : json :=
  JObject (assoc_insert ($"participant_ids") (JArray ((fun u => JString (uuid_to_string u)) <$> participants))
    (assoc_insert ($"workspace_id") (JString (uuid_to_string ws))
    (assoc_insert ($"conversation_id") (JString (uuid_to_string (Conversation.id c))) (conversation_json c)))).
Definition open_tx ws kind u (everyone : list Uuid) : Tx ApiDb (Conversation.t * Staged) :=
  c ← open_in ws kind u everyone;
  staged ← stage_in draw now "conversation.created" ws (conversation_event everyone ws c);
  mret (c, staged).
Definition open_conversation ws kind u (everyone : list Uuid) : Api Conversation.t :=
  opened ←? transaction (open_tx ws kind u everyone);
  _ ← dispatch entry_id now opened.2;
  mret (Ok opened.1).
Definition open_direct ws u (other : Uuid) : Api Conversation.t :=
  existing ←? query (find_direct ws u other);
  match existing with
  | Some c => mret (Ok c)
  | None => open_conversation ws ConversationKind.Direct u [other; u]
  end.

Definition require_reachable (starter : WorkspaceMember.t) (other : Uuid) : Api unit :=
  member ← require_workspace_member (WorkspaceMember.workspace_id starter) other;
  reachable ←? match member with
               | Ok _ => if bool_decide (WorkspaceMember.role starter = Guest) then query (share_a_channel (WorkspaceMember.user_id starter) other)
                         else mret (Ok true)
               | Err _ => mret (Ok false)
               end;
  if negb reachable then refuse ($"You cannot start a conversation with that person") else mret (Ok tt).
Fixpoint require_each_reachable (starter : WorkspaceMember.t) (others : list Uuid) : Api unit :=
  match others with
  | [] => mret (Ok tt)
  | other :: others => _ ←? require_reachable starter other; require_each_reachable starter others
  end.

Definition others_named (u : Uuid) (ids : list Uuid) : list Uuid := dedup (merge_sort N.le (filter (fun id => id <> u) ids)).
Definition create_conversation (caller : AuthUser.t) ws (ids : list Uuid) : Api Conversation.t :=
  auth ←? mret (scoped caller ImWrite);
  let u := user_of auth in
  match others_named u ids with
  | [] => mret (Err (Validation ($"A conversation needs at least one other participant")))
  | others =>
      if Nat.ltb MAX_GROUP_PARTICIPANTS (length others + 1) then
        mret (Err (Validation ($"A conversation holds at most 9 people")))
      else
        starter ←? require_workspace_member ws u;
        _ ←? require_each_reachable starter others;
        match others with
        | [other] => open_direct ws u other
        | _ => open_conversation ws ConversationKind.Group u (others ++ [u])
        end
  end.
Definition list_conversations (auth : AuthUser.t) ws : Api (list ConversationSummary.t) :=
  _ ←? require_workspace_member ws (user_of auth);
  query (conversations_of ws (user_of auth)).
End conversations.
