(* ===== verification/Retention.v ===== *)
(** * Retention
    ([backend/api/src/retention/{repo,job,routes}.rs])

    What is kept how long, for a workspace and for a channel, and the nightly
    pass that deletes the rest in batches, or counts it. *)

From stdpp Require Import base tactics option numbers list gmap fin_sets sorting.
From Stdlib Require Import ZArith Lia String Ascii.
From S2P Require Import Prelude RustStr Json Errors Frames Publisher Validation ListForms Lists ListViews ListStore LaterStore MessageStore PollStore NoticeStore Mentions ApiState Outbox AuditLog Tables Authz Membership ApiLaws Messaging Files Threads MessageRoutes Notices Scheduled.

Definition PURGE_BATCH : nat := 500.
Definition MAX_BATCHES_PER_TABLE : nat := 200.

Module UpdateRetentionRequest.
Record t := { message_days : option Z; file_days : option Z; audit_days : option Z; notification_days : option Z; channel_overrides : bool }.
End UpdateRetentionRequest.

Module PurgeCounts.
Record t := {
  messages : Z; list_items : Z; list_comments : Z; lists : Z; files : Z; notifications : Z; audit : Z;
  reset_tokens : Z; refresh_tokens : Z; invites : Z; hook_executions : Z;
}.
Definition zero : t :=
  {| messages := 0; list_items := 0; list_comments := 0; lists := 0; files := 0; notifications := 0; audit := 0;
     reset_tokens := 0; refresh_tokens := 0; invites := 0; hook_executions := 0 |}.
Definition total (c : t) : Z :=
  messages c + list_items c + list_comments c + lists c + files c + notifications c + audit c + reset_tokens c + refresh_tokens c +
  invites c + hook_executions c.
Definition add (a b : t) : t :=
  {| messages := messages a + messages b; list_items := list_items a + list_items b; list_comments := list_comments a + list_comments b;
     lists := lists a + lists b; files := files a + files b; notifications := notifications a + notifications b; audit := audit a + audit b;
     reset_tokens := reset_tokens a + reset_tokens b; refresh_tokens := refresh_tokens a + refresh_tokens b; invites := invites a + invites b;
     hook_executions := hook_executions a + hook_executions b |}.
End PurgeCounts.

Module ChannelRetention.
Record t := { overrides_allowed : bool; workspace_message_days : option Z; channel : option ChannelOverride.t }.
End ChannelRetention.

(** ** What a deletion takes along ([ON DELETE]) *)

Section cascades.
Implicit Types (t : AppTables) (ids : gset Uuid).

Definition live_rows {A} (ids : gset Uuid) (m : gmap Uuid A) : gmap Uuid A := filter (fun p => p.1 ∉ ids) m.
(** Rows that refer to one of the identifiers go with it. *)
Definition spared {A} (ref : A -> option Uuid) ids (a : A) : bool := match ref a with Some id => negb (bool_decide (id ∈ ids)) | None => true end.
Definition without {A} (ref : A -> option Uuid) ids (m : gmap Uuid A) : gmap Uuid A :=
  filter (fun p => spared ref ids p.2 = true) m.

Definition unparented ids (m : Message.t) : Message.t :=
  match Message.thread_parent_id m with
  | Some p => if decide (p ∈ ids) then
      {| Message.id := Message.id m; Message.channel_id := Message.channel_id m; Message.user_id := Message.user_id m;
         Message.client_message_id := Message.client_message_id m; Message.content := Message.content m; Message.metadata := Message.metadata m;
         Message.thread_parent_id := None; Message.reply_count := Message.reply_count m; Message.is_pinned := Message.is_pinned m;
         Message.created_at := Message.created_at m; Message.updated_at := Message.updated_at m; Message.deleted_at := Message.deleted_at m |}
      else m
  | None => m
  end.
Definition detached ids (f : FileRecord.t) : FileRecord.t :=
  match FileRecord.message_id f with
  | Some m => if decide (m ∈ ids) then
      {| FileRecord.id := FileRecord.id f; FileRecord.message_id := None; FileRecord.user_id := FileRecord.user_id f;
         FileRecord.workspace_id := FileRecord.workspace_id f; FileRecord.filename := FileRecord.filename f;
         FileRecord.storage_key := FileRecord.storage_key f; FileRecord.mime_type := FileRecord.mime_type f;
         FileRecord.size_bytes := FileRecord.size_bytes f; FileRecord.thumbnail_key := FileRecord.thumbnail_key f;
         FileRecord.width := FileRecord.width f; FileRecord.height := FileRecord.height f; FileRecord.created_at := FileRecord.created_at f;
         FileRecord.draft_until := FileRecord.draft_until f |}
      else f
  | None => f
  end.

(** [DELETE FROM messages WHERE id = ANY(ids)] *)
Definition delete_messages ids t : AppTables :=
  let gone_polls : gset Uuid := dom (filter (fun p : Uuid * Poll.t => Poll.message_id p.2 ∈ ids) (polls (poll_tables t))) in
  set_later_items (without LaterRow.message_id ids)
  (set_poll_tables (fun pt =>
     set_poll_votes (filter (fun p : Uuid * Uuid * PollVote.t => PollVote.poll_id p.2 ∉ gone_polls))
     (set_poll_options (without (fun o => Some (PollOption.poll_id o)) gone_polls) (set_polls (live_rows gone_polls) pt)))
  (set_message_tables (fun mt =>
     set_files (fmap (detached ids))
     (set_thread_follows (filter (fun p : Uuid * Uuid * ThreadFollow.t => p.1.2 ∉ ids))
     (set_reactions (without (fun r => Some (Reaction.message_id r)) ids)
     (set_message_edits (without (fun e => Some (MessageEdit.message_id e)) ids)
     (set_messages (fun m => unparented ids <$> live_rows ids m) mt))))) t)).
(** [DELETE FROM list_items WHERE id = ANY(ids)] *)
Definition delete_list_items ids t : AppTables :=
  set_later_items (without LaterRow.list_item_id ids)
  (set_list_tables (fun lt => set_list_item_comments (without (fun c => Some (ListComment.item_id c)) ids) (set_list_items (live_rows ids) lt)) t).
(** [DELETE FROM lists WHERE id = ANY(ids)] *)
Definition delete_lists ids t : AppTables :=
  let items : gset Uuid := dom (filter (fun p : Uuid * (ListItem.t * option Z) => ListItem.list_id p.2.1 ∈ ids) (list_items (list_tables t))) in
  delete_list_items items (set_list_tables (fun lt =>
    set_list_columns (without (fun c => Some (ListColumn.list_id c)) ids) (set_list_views (without (fun v => Some (ListView.list_id v)) ids)
    (set_list_item_comments (without (fun c => Some (ListComment.list_id c)) ids) (set_lists (live_rows ids) lt)))) t).
End cascades.

Section retention.
Context `{UuidText, Alphanumeric}.
Context (entry_id : str -> list (str * str * Event) -> str) (draw : ApiDb -> Uuid) (now : Z) (show_time : Z -> str).
(** The order in which a statement with [LIMIT] and without [ORDER BY] finds its
    rows, and the rows of the tables that are not here (reset tokens, refresh
    tokens and executions of hooks) that are past their time. *)
Context (some_order : list Uuid -> list Uuid) (path_parses : str -> bool) (expired_elsewhere : Z * Z * Z) (ip : option str).
Implicit Types (t : AppTables) (ws ch u : Uuid) (d : ApiDb) (days : Z).

(** ** Periods ([repo.rs]) *)

(** The first instant a [timestamptz] can hold; before it a subtraction is an
    error of the database. *)
Definition FIRST_TIMESTAMP : Z := -210866803200 * SECOND.
Definition out_of_range {A} : AppResult A := Err (Database ($"timestamp out of range")).
(** [NOW() - make_interval(days => n)] *)
Definition days_ago days : AppResult Z := if FIRST_TIMESTAMP <=? now - days * DAY then Ok (now - days * DAY) else out_of_range.

Definition get_policy_row ws t : option RetentionPolicy.t := retention_policies (retention_tables t) !! ws.
Definition channel_override ch t : option ChannelOverride.t := channel_retention (retention_tables t) !! ch.
(** [CASE WHEN cr.channel_id IS NULL THEN $2 ELSE cr.message_days END] *)
Definition period_of (message_days : option Z) (overrides : bool) ch t : option Z :=
  match (if overrides then channel_override ch t else None) with Some o => ChannelOverride.message_days o | None => message_days end.
(** [GREATEST(m.created_at, (SELECT MAX(r.created_at) ..))] *)
Definition newest_of (p : Uuid * Message.t) t : Z :=
  foldr Z.max (Message.created_at p.2)
    (Message.created_at <$> filter (fun r => Message.thread_parent_id r = Some p.1) (map_to_list (messages (message_tables t))).*2).
Definition is_root_in ws t (p : Uuid * Message.t) : bool :=
  bool_decide (Message.thread_parent_id p.2 = None) &&
  match channels t !! Message.channel_id p.2 with Some c => bool_decide (Channel.workspace_id c = ws) | None => false end.
Definition thread_due ws message_days overrides t (p : Uuid * Message.t) : bool :=
  is_root_in ws t p &&
  match period_of message_days overrides (Message.channel_id p.2) t with
  | Some days => match days_ago days with Ok at_ => newest_of p t <? at_ | Err _ => false end
  | None => false
  end.
(** Whether a row makes the statement fail. *)
Definition period_overflows ws message_days overrides t (p : Uuid * Message.t) : bool :=
  is_root_in ws t p &&
  match period_of message_days overrides (Message.channel_id p.2) t with
  | Some days => match days_ago days with Ok _ => false | Err _ => true end
  | None => false
  end.
Definition due_threads ws message_days overrides t : list Uuid :=
  (filter (fun p => thread_due ws message_days overrides t p = true) (map_to_list (messages (message_tables t)))).*1.
Definition in_threads (roots : gset Uuid) (p : Uuid * Message.t) : Prop :=
  p.1 ∈ roots \/ match Message.thread_parent_id p.2 with Some r => r ∈ roots | None => False end.
#[global] Instance in_threads_dec roots p : Decision (in_threads roots p).
Proof. unfold in_threads. apply or_dec; [apply _|]. destruct (Message.thread_parent_id p.2); apply _. Defined.
Definition rows_of_threads (roots : list Uuid) t : gset Uuid := dom (filter (in_threads (list_to_set roots)) (messages (message_tables t))).
Definition overflows ws message_days overrides t : bool :=
  existsb (period_overflows ws message_days overrides t) (map_to_list (messages (message_tables t))).

Definition count_messages_past ws message_days overrides : Api Z :=
  counted ←? query (fun t => if overflows ws message_days overrides t then out_of_range
                             else Ok (Z.of_nat (size (rows_of_threads (due_threads ws message_days overrides t) t))));
  mret counted.
(** A statement that fails changes nothing. *)
Definition statement {A} (op : ApiDb -> AppResult (ApiDb * A)) : Api A :=
  done ←? sql (fun d => match op d with Ok (d', a) => (d', Ok a) | Err e => (d, Err e) end);
  mret done.
Definition purge_messages ws message_days overrides : Api Z :=
  statement (fun d =>
    if overflows ws message_days overrides (app d) then out_of_range
    else
      let ids := rows_of_threads (take PURGE_BATCH (some_order (due_threads ws message_days overrides (app d)))) (app d) in
      Ok (with_app (delete_messages ids) d, Z.of_nat (size ids))).

(** One batch of the rows of a table that are due. *)
Definition purge_rows (due : Z -> AppTables -> list Uuid) (delete : gset Uuid -> AppTables -> AppTables) days : Api Z :=
  statement (fun d =>
    at_ ← days_ago days;
    let ids := list_to_set (take PURGE_BATCH (some_order (due at_ (app d)))) in
    Ok (with_app (delete ids) d, Z.of_nat (size ids))).

Definition list_in ws t (list_id : Uuid) : bool :=
  match lists (list_tables t) !! list_id with Some l => bool_decide (List.workspace_id l.1 = ws) | None => false end.
Definition items_past ws (at_ : Z) t : list Uuid :=
  (filter (fun p : Uuid * (ListItem.t * option Z) => list_in ws t (ListItem.list_id p.2.1) = true /\ ListItem.updated_at p.2.1 < at_)
    (map_to_list (list_items (list_tables t)))).*1.
Definition comments_past ws (at_ : Z) t : list Uuid :=
  (filter (fun p : Uuid * ListComment.t => list_in ws t (ListComment.list_id p.2) = true /\ ListComment.created_at p.2 < at_)
    (map_to_list (list_item_comments (list_tables t)))).*1.
Definition lists_past ws (at_ : Z) t : list Uuid :=
  (filter (fun p : Uuid * (List.t * option Z) => List.workspace_id p.2.1 = ws /\ match p.2.2 with Some gone => gone <? at_ | None => false end = true)
    (map_to_list (lists (list_tables t)))).*1.
Definition notices_past ws (at_ : Z) t : list Uuid :=
  (filter (fun p : Uuid * Notification.t => Notification.workspace_id p.2 = ws /\ Notification.created_at p.2 < at_)
    (map_to_list (notifications (message_tables t)))).*1.
Definition files_due ws (at_ : Z) t : list Uuid :=
  (filter (fun p : Uuid * FileRecord.t => FileRecord.workspace_id p.2 = ws /\ FileRecord.created_at p.2 < at_)
    (map_to_list (files (message_tables t)))).*1.

Definition less_comments (n : Z) (i : ListItem.t) : ListItem.t :=
  {| ListItem.id := ListItem.id i; ListItem.list_id := ListItem.list_id i; ListItem.rank := ListItem.rank i; ListItem.values := ListItem.values i;
     ListItem.comment_count := Z.max (ListItem.comment_count i - n) 0; ListItem.created_by := ListItem.created_by i;
     ListItem.created_at := ListItem.created_at i; ListItem.updated_at := ListItem.updated_at i |}.
(** The comments go, and every item that loses some counts them. *)
Definition delete_list_comments (ids : gset Uuid) t : AppTables :=
  let gone := filter (fun p : Uuid * ListComment.t => p.1 ∈ ids) (list_item_comments (list_tables t)) in
  let lost item := Z.of_nat (size (filter (fun p : Uuid * ListComment.t => ListComment.item_id p.2 = item) gone)) in
  set_list_tables (fun lt => set_list_items (map_imap (fun id i => Some (if 0 <? lost id then (less_comments (lost id) i.1, i.2) else i)))
    (set_list_item_comments (live_rows ids) lt)) t.
Definition delete_notices (ids : gset Uuid) : AppTables -> AppTables := set_message_tables (set_notifications (live_rows ids)).

Definition purge_list_items ws : Z -> Api Z := purge_rows (items_past ws) delete_list_items.
Definition purge_list_comments ws : Z -> Api Z := purge_rows (comments_past ws) delete_list_comments.
Definition purge_deleted_lists ws : Z -> Api Z := purge_rows (lists_past ws) delete_lists.
Definition purge_notifications ws : Z -> Api Z := purge_rows (notices_past ws) delete_notices.
Definition count_past (due : Z -> AppTables -> list Uuid) days t : AppResult Z := at_ ← days_ago days; Ok (Z.of_nat (length (due at_ t))).
Definition count_lists_past ws days : Api (Z * Z * Z) :=
  counted ←? query (fun t =>
    items ← count_past (items_past ws) days t; gone ← count_past (lists_past ws) days t; comments ← count_past (comments_past ws) days t;
    Ok (items, gone, comments));
  mret counted.
Definition count_files_past ws days : Api Z := counted ←? query (count_past (files_due ws) days); mret counted.

(** An entry of the audit log has no key here: the first of those due go. *)
Definition audit_due ws (at_ : Z) (e : AuditEntry.t * Z) : bool := bool_decide (AuditEntry.workspace_id e.1 = Some ws) && (e.2 <? at_).
Fixpoint drop_due (due : AuditEntry.t * Z -> bool) (n : nat) (l : list (AuditEntry.t * Z)) : list (AuditEntry.t * Z) :=
  match n, l with
  | S n, e :: l => if due e then drop_due due n l else e :: drop_due due (S n) l
  | _, _ => l
  end.
Definition purge_audit ws days : Api Z :=
  statement (fun d =>
    at_ ← days_ago days;
    let kept := drop_due (audit_due ws at_) PURGE_BATCH (audit_log (app d)) in
    Ok (with_app (set_audit_log (fun _ => kept)) d, Z.of_nat (length (audit_log (app d)) - length kept))).

(** ** Tokens *)

Definition invite_expired (i : WorkspaceInvite.t) : bool := match WorkspaceInvite.expires_at i with Some at_ => at_ <? now | None => false end.
Definition expired_invites t : gset Uuid := dom (filter (fun p : Uuid * WorkspaceInvite.t => invite_expired p.2 = true) (workspace_invites t)).
Definition purge_expired_tokens : Api (Z * Z * Z * Z) :=
  reset ←? sql (fun d => (d, expired_elsewhere.1.1));
  refresh ←? sql (fun d => (d, expired_elsewhere.1.2));
  invites ←? sql (fun d => (with_app (set_workspace_invites (live_rows (expired_invites (app d)))) d, Z.of_nat (size (expired_invites (app d)))));
  executions ←? sql (fun d => (d, expired_elsewhere.2));
  mret (Ok (reset, refresh, invites, executions)).
Definition count_expired_tokens : Api (Z * Z * Z * Z) :=
  reset ←? query (fun _ => expired_elsewhere.1.1);
  refresh ←? query (fun _ => expired_elsewhere.1.2);
  invites ←? query (fun t => Z.of_nat (size (expired_invites t)));
  executions ←? query (fun _ => expired_elsewhere.2);
  mret (Ok (reset, refresh, invites, executions)).

(** ** The pass ([job.rs]) *)

Fixpoint purge_batches (n : nat) (batch : Api Z) (total : Z) : Svc ApiDb Z :=
  match n with
  | O => mret total
  | S n =>
      gone ← batch;
      match gone with
      | Ok k => if k =? 0 then mret total else purge_batches n batch (total + k)
      | Err _ => mret total
      end
  end.
Definition purge_loop (dry_run : bool) (batch : Api Z) : Svc ApiDb Z := if dry_run then mret 0 else purge_batches MAX_BATCHES_PER_TABLE batch 0.

Definition files_past ws days : Api (list (Uuid * FileRecord.t)) :=
  listed ←? query (fun t => at_ ← days_ago days;
    Ok (omap (fun id => f ← files (message_tables t) !! id; Some (id, f)) (take PURGE_BATCH (some_order (files_due ws at_ t)))));
  mret listed.
Definition delete_file_rows (ids : list Uuid) : Api Z :=
  match ids with
  | [] => mret (Ok 0)
  | _ => sql (fun d => (with_app (set_message_tables (set_files (live_rows (list_to_set ids)))) d,
                        Z.of_nat (size (filter (fun p : Uuid * FileRecord.t => p.1 ∈ ids) (files (message_tables (app d)))))))
  end.
Definition object_keys (f : FileRecord.t) : list str := keys_of (FileRecord.storage_key f) (FileRecord.thumbnail_key f).
Fixpoint purge_file_batches (n : nat) ws days (dry_run : bool) (total : Z) : Svc ApiDb Z :=
  match n with
  | O => mret total
  | S n =>
      batch ← files_past ws days;
      match batch with
      | Err _ | Ok [] => mret total
      | Ok batch =>
          if dry_run then mret (Z.of_nat (length batch))
          else
            _ ← svc_each batch (fun p => svc_each (object_keys p.2) (delete_logged path_parses));
            gone ← delete_file_rows batch.*1;
            match gone with Ok k => purge_file_batches n ws days dry_run (total + k) | Err _ => mret total end
      end
  end.
Definition purge_files ws days (dry_run : bool) : Svc ApiDb Z := purge_file_batches MAX_BATCHES_PER_TABLE ws days dry_run 0.

(** [unwrap_or] *)
Definition counted_or {A} (otherwise : A) (m : Api A) : Svc ApiDb A := r ← m; mret (match r with Ok a => a | Err _ => otherwise end).

Definition purge_policy_messages (dry_run : bool) (p : RetentionPolicy.t) : Svc ApiDb Z :=
  let ws := RetentionPolicy.workspace_id p in
  let message_days := RetentionPolicy.message_days p in
  let overrides := RetentionPolicy.channel_overrides p in
  if bool_decide (is_Some message_days) || overrides then
    gone ← purge_loop dry_run (purge_messages ws message_days overrides);
    if dry_run then counted ← counted_or 0 (count_messages_past ws message_days overrides); mret (gone + counted) else mret gone
  else mret 0.
(** Comments, items and lists. *)
Definition purge_policy_lists (dry_run : bool) ws days : Svc ApiDb (Z * Z * Z) :=
  comments ← purge_loop dry_run (purge_list_comments ws days);
  items ← purge_loop dry_run (purge_list_items ws days);
  gone ← purge_loop dry_run (purge_deleted_lists ws days);
  if dry_run then
    counted ← counted_or (0, 0, 0) (count_lists_past ws days);
    mret (comments + counted.2, items + counted.1.1, gone + counted.1.2)
  else mret (comments, items, gone).
Definition purge_details (c : PurgeCounts.t) : json :=
  JObject [($"messages", int_json (PurgeCounts.messages c)); ($"list_items", int_json (PurgeCounts.list_items c));
           ($"list_comments", int_json (PurgeCounts.list_comments c)); ($"lists", int_json (PurgeCounts.lists c));
           ($"files", int_json (PurgeCounts.files c)); ($"notifications", int_json (PurgeCounts.notifications c));
           ($"audit", int_json (PurgeCounts.audit c))].
Definition purge_workspace (dry_run : bool) (p : RetentionPolicy.t) : Svc ApiDb PurgeCounts.t :=
  let ws := RetentionPolicy.workspace_id p in
  gone_files ← match RetentionPolicy.file_days p with Some days => purge_files ws days dry_run | None => mret 0 end;
  gone_messages ← purge_policy_messages dry_run p;
  gone_lists ← match RetentionPolicy.message_days p with Some days => purge_policy_lists dry_run ws days | None => mret (0, 0, 0) end;
  gone_notices ← purge_loop dry_run (purge_notifications ws (RetentionPolicy.notification_days p));
  gone_audit ← purge_loop dry_run (purge_audit ws (RetentionPolicy.audit_days p));
  let counts := {|
    PurgeCounts.messages := gone_messages; PurgeCounts.list_items := gone_lists.1.2; PurgeCounts.list_comments := gone_lists.1.1;
    PurgeCounts.lists := gone_lists.2; PurgeCounts.files := gone_files; PurgeCounts.notifications := gone_notices; PurgeCounts.audit := gone_audit;
    PurgeCounts.reset_tokens := 0; PurgeCounts.refresh_tokens := 0; PurgeCounts.invites := 0; PurgeCounts.hook_executions := 0 |} in
  _ ← (if negb dry_run && (0 <? PurgeCounts.total counts) then
         record now (AuditEntry.with_details (purge_details counts) (AuditEntry.workspace ws (AuditEntry.new RetentionPurge ws)))
       else mret tt);
  mret counts.
Definition with_tokens (n : Z * Z * Z * Z) : PurgeCounts.t :=
  {| PurgeCounts.messages := 0; PurgeCounts.list_items := 0; PurgeCounts.list_comments := 0; PurgeCounts.lists := 0; PurgeCounts.files := 0;
     PurgeCounts.notifications := 0; PurgeCounts.audit := 0; PurgeCounts.reset_tokens := n.1.1.1; PurgeCounts.refresh_tokens := n.1.1.2;
     PurgeCounts.invites := n.1.2; PurgeCounts.hook_executions := n.2 |}.
Fixpoint purge_workspaces (dry_run : bool) (l : list RetentionPolicy.t) (counts : PurgeCounts.t) : Svc ApiDb PurgeCounts.t :=
  match l with
  | [] => mret counts
  | p :: l => ws ← purge_workspace dry_run p; purge_workspaces dry_run l (PurgeCounts.add counts ws)
  end.
Definition workspaces_with_policies : Api (list RetentionPolicy.t) := query (fun t => (map_to_list (retention_policies (retention_tables t))).*2).
Definition run_once (dry_run : bool) : Svc ApiDb PurgeCounts.t :=
  tokens ← (if dry_run then count_expired_tokens else purge_expired_tokens);
  let counts := match tokens with Ok n => with_tokens n | Err _ => PurgeCounts.zero end in
  policies ← workspaces_with_policies;
  match policies with Err _ => mret counts | Ok policies => purge_workspaces dry_run policies counts end.

(** ** Requests ([routes.rs]) *)

Definition AT_LEAST_ONE_DAY : AppError := BadRequest ($"A retention period is at least one day").
Definition below_one (days : option Z) : bool := match days with Some n => n <? 1 | None => false end.
Definition preview_policy (auth : AuthUser.t) ws (message_days file_days : option Z) (overrides : bool) : Api (Z * Z) :=
  _ ←? require_workspace_role ws (user_of auth) Owner;
  if below_one message_days || below_one file_days then mret (Err AT_LEAST_ONE_DAY)
  else
    counted ←? (if bool_decide (is_Some message_days) || overrides then count_messages_past ws message_days overrides else mret (Ok 0));
    gone ←? match file_days with Some days => count_files_past ws days | None => mret (Ok 0) end;
    mret (Ok (counted, gone)).
Definition get_policy (auth : AuthUser.t) ws : Api (option RetentionPolicy.t) :=
  _ ←? require_workspace_role ws (user_of auth) Admin;
  query (get_policy_row ws).

(** [retention_policies_positive] *)
Definition positive_policy (p : RetentionPolicy.t) : bool :=
  match RetentionPolicy.message_days p with Some n => 0 <? n | None => true end &&
  match RetentionPolicy.file_days p with Some n => 0 <? n | None => true end &&
  (0 <? RetentionPolicy.audit_days p) && (0 <? RetentionPolicy.notification_days p).
Definition policy_of ws u (req : UpdateRetentionRequest.t) : RetentionPolicy.t :=
  {| RetentionPolicy.workspace_id := ws; RetentionPolicy.message_days := UpdateRetentionRequest.message_days req;
     RetentionPolicy.file_days := UpdateRetentionRequest.file_days req;
     RetentionPolicy.audit_days := default 730 (UpdateRetentionRequest.audit_days req);
     RetentionPolicy.notification_days := default 90 (UpdateRetentionRequest.notification_days req);
     RetentionPolicy.channel_overrides := UpdateRetentionRequest.channel_overrides req; RetentionPolicy.updated_by := Some u;
     RetentionPolicy.updated_at := now |}.
Definition check_violation {A} : AppResult A := Err (Database ($"violates check constraint")).
Definition upsert_policy ws (req : UpdateRetentionRequest.t) u : Api RetentionPolicy.t :=
  statement (fun d =>
    if negb (positive_policy (policy_of ws u req)) then check_violation
    else if negb (references_exist ws u (app d)) then Err (Database ($"violates foreign key constraint"))
    else Ok (with_app (set_retention_tables (set_retention_policies (<[ws := policy_of ws u req]>))) d, policy_of ws u req)).

Definition days_json (o : option Z) : json := match o with Some n => int_json n | None => JNull end.
Definition policy_json (p : RetentionPolicy.t) : json :=
  JObject [uuid_field "workspace_id" (RetentionPolicy.workspace_id p); ($"message_days", days_json (RetentionPolicy.message_days p));
           ($"file_days", days_json (RetentionPolicy.file_days p)); ($"audit_days", int_json (RetentionPolicy.audit_days p));
           ($"notification_days", int_json (RetentionPolicy.notification_days p)); ($"channel_overrides", JBool (RetentionPolicy.channel_overrides p));
           ($"updated_by", uuid_opt (RetentionPolicy.updated_by p)); ($"updated_at", time_json show_time (RetentionPolicy.updated_at p))].
Definition or_null {A} (f : A -> json) (o : option A) : json := match o with Some a => f a | None => JNull end.
Definition update_policy (auth : AuthUser.t) ws (req : UpdateRetentionRequest.t) : Api (option RetentionPolicy.t) :=
  _ ←? require_workspace_role ws (user_of auth) Owner;
  before ←? query (get_policy_row ws);
  policy ←? upsert_policy ws req (user_of auth);
  _ ← record now (audit_entry ip RetentionChanged (user_of auth) ws ws
        (JObject [($"from", or_null policy_json before); ($"to", policy_json policy)]));
  mret (Ok (Some policy)).

Definition channel_retention_of (c : Channel.t) : Api ChannelRetention.t :=
  policy ←? query (get_policy_row (Channel.workspace_id c));
  own ←? query (channel_override (Channel.id c));
  mret (Ok {| ChannelRetention.overrides_allowed := match policy with Some p => RetentionPolicy.channel_overrides p | None => false end;
              ChannelRetention.workspace_message_days := policy ≫= RetentionPolicy.message_days;
              ChannelRetention.channel := own |}).
Definition require_overridable (c : Channel.t) u : Api unit :=
  _ ←? require_channel_moderator c u;
  match Channel.channel_type c with
  | Dm | GroupDm => mret (Err (BadRequest ($"Direct messages keep the workspace's period")))
  | _ => mret (Ok tt)
  end.
Definition describe (change : option ChannelOverride.t) : str :=
  match ChannelOverride.message_days <$> change with
  | Some (Some n) => if n =? 1 then $"set this channel to keep messages for 1 day"
                     else $"set this channel to keep messages for " ++ count_text (Z.to_nat n) ++ $" days"
  | Some None => $"set this channel to keep messages forever"
  | None => $"set this channel to follow the workspace's message retention"
  end.
Definition override_json (o : ChannelOverride.t) : json :=
  JObject [($"message_days", days_json (ChannelOverride.message_days o)); ($"updated_by", uuid_opt (ChannelOverride.updated_by o));
           ($"updated_at", time_json show_time (ChannelOverride.updated_at o))].
Definition retention_metadata (after : option ChannelOverride.t) : json :=
  JObject [($"kind", JString ($"retention_changed")); ($"message_days", days_json (after ≫= ChannelOverride.message_days));
           ($"follows_workspace", JBool (bool_decide (after = None)))].
Definition announce_tx (c : Channel.t) u (after : option ChannelOverride.t) : Tx ApiDb Staged :=
  m ← create_system_message_in draw now (Channel.id c) u (describe after) (retention_metadata after);
  stage_message_created draw now show_time m (Channel.workspace_id c) [].
Definition announce_retention (c : Channel.t) u (before after : option ChannelOverride.t) : Api unit :=
  staged ←? transaction (announce_tx c u after);
  _ ← dispatch entry_id now staged;
  _ ← record now (audit_entry ip RetentionChanged u (Channel.workspace_id c) (Channel.id c)
        (JObject [uuid_field "channel_id" (Channel.id c); ($"from", or_null override_json before); ($"to", or_null override_json after)]));
  mret (Ok tt).

Definition get_channel_retention (auth : AuthUser.t) ch : Api ChannelRetention.t :=
  access ←? require_channel_access ch (user_of auth);
  channel_retention_of (ChannelAccess.channel access).
Definition write_override ch (days : option Z) u : Api ChannelOverride.t :=
  let row := {| ChannelOverride.message_days := days; ChannelOverride.updated_by := Some u; ChannelOverride.updated_at := now |} in
  statement (fun d =>
    if match days with Some n => n <=? 0 | None => false end then check_violation
    else if negb (bool_decide (is_Some (channels (app d) !! ch)) && bool_decide (is_Some (users (app d) !! u))) then
      Err (Database ($"violates foreign key constraint"))
    else Ok (with_app (set_retention_tables (set_channel_retention (<[ch := row]>))) d, row)).
Definition clear_override ch : Api bool :=
  sql (fun d => (with_app (set_retention_tables (set_channel_retention (delete ch))) d, bool_decide (is_Some (channel_override ch (app d))))).
Definition put_channel_retention (auth : AuthUser.t) ch (days : option Z) : Api ChannelRetention.t :=
  c ←? find_channel ch;
  _ ←? require_overridable c (user_of auth);
  if below_one days then mret (Err AT_LEAST_ONE_DAY)
  else
    policy ←? query (get_policy_row (Channel.workspace_id c));
    if negb (match policy with Some p => RetentionPolicy.channel_overrides p | None => false end) then
      mret (Err (Conflict ($"The workspace owner has not allowed channels a period of their own")))
    else
      before ←? query (channel_override ch);
      after ←? write_override ch days (user_of auth);
      _ ←? (if bool_decide ((ChannelOverride.message_days <$> before) = Some (ChannelOverride.message_days after)) then mret (Ok tt)
            else announce_retention c (user_of auth) before (Some after));
      channel_retention_of c.
Definition clear_channel_retention (auth : AuthUser.t) ch : Api ChannelRetention.t :=
  c ←? find_channel ch;
  _ ←? require_overridable c (user_of auth);
  before ←? query (channel_override ch);
  _ ←? match before with
       | Some _ =>
           cleared ←? clear_override ch;
           if cleared : bool then announce_retention c (user_of auth) before None else mret (Ok tt)
       | None => mret (Ok tt)
       end;
  channel_retention_of c.
End retention.
