(* ===== verification/RetentionLaws.v ===== *)
(** * What holds of retention
    ([backend/api/src/retention/{repo,job}.rs])

    A pass deletes exactly the threads whose newest message is past the period
    of their channel, which is what a dry run counts. *)

From stdpp Require Import base tactics option numbers list gmap fin_sets sorting.
From Stdlib Require Import ZArith Lia String Ascii.
From S2P Require Import Prelude RustStr Json Errors Frames Publisher Validation ListForms Lists ListViews ListStore LaterStore MessageStore PollStore NoticeStore Mentions ApiState Outbox AuditLog Tables Authz Membership ApiLaws Mail Messaging Files Threads MessageRoutes MessageLaws SendLaws Notices NoticeLaws Scheduled Retention.

Section messages.
Context (now : Z) (some_order : list Uuid -> list Uuid).
Context (some_order_perm : forall l, Permutation (some_order l) l).
Context (ws : Uuid) (message_days : option Z) (overrides : bool).
Implicit Types (t : AppTables) (d : ApiDb) (m : Message.t).
#[local] Abbreviation M t := (messages (message_tables t)).
#[local] Abbreviation due_in t := (due_threads now ws message_days overrides t).
#[local] Abbreviation is_due t := (thread_due now ws message_days overrides t).

(** ** What a deletion of messages leaves *)

Definition same_places t t' : Prop := channels t' = channels t /\ retention_tables t' = retention_tables t.
Lemma delete_messages_places ids t : same_places t (delete_messages ids t).
Proof. by destruct t. Qed.
Lemma delete_messages_eq ids t : M (delete_messages ids t) = unparented ids <$> live_rows ids (M t).
Proof. destruct t as [? ? ? ? ? ? ? ? ? ? ? ? ? [] [] ? ? ?]. done. Qed.

Lemma elem_of_due t k : k ∈ due_in t <-> exists m, M t !! k = Some m /\ is_due t (k, m) = true.
Proof.
  unfold due_threads. rewrite list_elem_of_fmap. split.
  - intros ([k' m] & -> & Hp). apply list_elem_of_filter in Hp as [Hd Hp%elem_of_map_to_list]. by exists m.
  - intros (m & Hm & Hd). exists (k, m). split; [done|]. apply list_elem_of_filter. split; [done|]. by apply elem_of_map_to_list.
Qed.
Lemma due_NoDup t : NoDup (due_in t).
Proof. unfold due_threads. eapply sublist_NoDup; [apply (NoDup_fst_map_to_list (M t))|]. apply fmap_sublist, sublist_filter. Qed.
Lemma due_root t k m : is_due t (k, m) = true -> Message.thread_parent_id m = None.
Proof. unfold thread_due, is_root_in. intros E. bool_hyps. done. Qed.

Lemma elem_of_thread_rows (roots : list Uuid) t k : k ∈ rows_of_threads roots t <-> exists m, M t !! k = Some m /\
  (k ∈ roots \/ exists r, Message.thread_parent_id m = Some r /\ r ∈ roots).
Proof.
  unfold rows_of_threads. rewrite elem_of_dom. unfold is_Some. setoid_rewrite map_lookup_filter_Some. unfold in_threads. cbn.
  split; intros (m & Hm & Hr); exists m; (split; [done|]); rewrite elem_of_list_to_set in *.
  - destruct Hr as [Hr|Hr]; [by left|]. destruct (Message.thread_parent_id m) as [r|]; [|done]. right. exists r. by rewrite elem_of_list_to_set in Hr.
  - destruct Hr as [Hr|(r & -> & Hr)]; [by left|]. right. by rewrite elem_of_list_to_set.
Qed.

(** A thread is as old as the newest of its messages. *)
Lemma foldr_max_lt (x a : Z) (l : list Z) : foldr Z.max x l < a <-> x < a /\ forall y, y ∈ l -> y < a.
Proof.
  induction l as [|z l IH]; cbn; [split; [intros ?; split; [done|by intros y ?%not_elem_of_nil]|tauto]|].
  rewrite Z.max_lub_lt_iff, IH. split; [intros (? & ? & Hl); split; [done|]; intros y [->|Hy]%elem_of_cons; auto|].
  intros [Hx Hl]. split_and!; [apply Hl; left|done|intros y Hy; apply Hl; by right].
Qed.
Lemma newest_before t k m a : newest_of (k, m) t < a <->
  Message.created_at m < a /\ forall j r, M t !! j = Some r -> Message.thread_parent_id r = Some k -> Message.created_at r < a.
Proof.
  unfold newest_of. cbn [fst snd]. rewrite foldr_max_lt. apply and_iff_compat_l. split.
  - intros Hl j r Hj Hr. apply Hl. apply list_elem_of_fmap. exists r. split; [done|]. apply list_elem_of_filter. split; [done|].
    apply list_elem_of_fmap. exists (j, r). split; [done|]. by apply elem_of_map_to_list.
  - intros Hl y Hy. apply list_elem_of_fmap in Hy as (r & -> & Hy). apply list_elem_of_filter in Hy as [Hr Hy].
    apply list_elem_of_fmap in Hy as ([j r'] & -> & Hj%elem_of_map_to_list). by eapply Hl.
Qed.

(** What makes a thread due, and what makes the statement fail. *)
Lemma due_spec t k m : is_due t (k, m) = true <-> is_root_in ws t (k, m) = true /\
  exists days at_, period_of message_days overrides (Message.channel_id m) t = Some days /\ days_ago now days = Ok at_ /\
    Message.created_at m < at_ /\ forall j r, M t !! j = Some r -> Message.thread_parent_id r = Some k -> Message.created_at r < at_.
Proof.
  unfold thread_due. rewrite andb_true_iff. apply and_iff_compat_l. cbn [snd]. destruct (period_of _ _ _ t) as [days|]; [|split; [done|by intros (? & ? & ? & _)]].
  destruct (days_ago now days) as [at_|e] eqn:Ed; [|split; [done|]; intros (days' & at_ & [= <-] & E & _); congruence].
  rewrite Z.ltb_lt, newest_before. split; [intros H; exists days, at_; done|]. intros (days' & at2 & [= <-] & E & H). rewrite Ed in E. by injection E as <-.
Qed.

(** ** One batch *)

Section batch.
Context (t : AppTables) (roots : list Uuid).
Context (Ht : threaded (M t)) (Hroots : forall r, r ∈ roots -> r ∈ due_in t).
#[local] Abbreviation ids := (rows_of_threads roots t).
#[local] Abbreviation t' := (delete_messages ids t).

(** A message whose thread stays, stays as it was. *)
Lemma kept_row k m : M t' !! k = Some m <-> M t !! k = Some m /\ k ∉ ids.
Proof.
  rewrite delete_messages_eq, lookup_fmap, fmap_Some. unfold live_rows. split.
  - intros (m0 & Hm & ->). apply map_lookup_filter_Some in Hm as [Hm Hk]. cbn in Hk. split; [|done]. rewrite Hm. f_equal. unfold unparented.
    destruct (Message.thread_parent_id m0) as [p|] eqn:Ep; [|done]. destruct (decide (p ∈ ids)) as [Hp|]; [|done]. exfalso. apply Hk.
    apply elem_of_thread_rows in Hp as (mp & Hmp & Hp). destruct Ht as [_ Hone]. destruct (Hone _ _ _ Hm Ep) as (r & Hr & Hrn & _).
    rewrite Hmp in Hr. injection Hr as ->. apply elem_of_thread_rows. exists m0. split; [done|]. right. exists p. split; [done|].
    destruct Hp as [Hp|(q & Hq & _)]; [done|congruence].
  - intros [Hm Hk]. exists m. split; [by apply map_lookup_filter_Some|]. unfold unparented. destruct (Message.thread_parent_id m) as [p|] eqn:Ep; [|done].
    destruct (decide (p ∈ ids)) as [Hp|]; [|done]. exfalso. apply Hk. apply elem_of_thread_rows in Hp as (mp & Hmp & Hp). destruct Ht as [_ Hone].
    destruct (Hone _ _ _ Hm Ep) as (r & Hr & Hrn & _). rewrite Hmp in Hr. injection Hr as ->. apply elem_of_thread_rows. exists m. split; [done|].
    right. exists p. split; [done|]. destruct Hp as [Hp|(q & Hq & _)]; [done|congruence].
Qed.
Lemma kept_threaded : threaded (M t').
Proof.
  destruct Ht as [Hid Hone]. split; [intros k x [Hx _]%kept_row; by apply Hid|]. intros k x p [Hx Hk]%kept_row Hp.
  destruct (Hone _ _ _ Hx Hp) as (r & Hr & Hrn & Hc). exists r. split_and!; [|done|done]. apply kept_row. split; [done|].
  intros Hin. apply Hk. apply elem_of_thread_rows in Hin as (mr & Hmr & Hin). apply elem_of_thread_rows. exists x. split; [done|]. right. exists p. split; [done|].
  destruct Hin as [?|(q & Hq & _)]; [done|congruence].
Qed.

Lemma kept_root k m : k ∉ roots -> M t !! k = Some m -> Message.thread_parent_id m = None -> k ∉ ids.
Proof. intros Hk Hm Hn Hin. apply elem_of_thread_rows in Hin as (m' & Hm' & [?|(r & Hr & _)]); [done|]. congruence. Qed.
Lemma due_after k : k ∈ due_in t' <-> k ∈ due_in t /\ k ∉ roots.
Proof.
  destruct (delete_messages_places ids t) as [Hc Hret].
  assert (Hroot : forall k m, is_root_in ws t' (k, m) = is_root_in ws t (k, m)) by (intros; unfold is_root_in; by rewrite Hc).
  assert (Hper : forall ch, period_of message_days overrides ch t' = period_of message_days overrides ch t)
    by (intros; unfold period_of, channel_override; by rewrite Hret).
  assert (Hrep : forall k m, k ∉ ids -> M t !! k = Some m -> is_due t' (k, m) = true <-> is_due t (k, m) = true).
  { intros k0 m Hk Hm. rewrite !due_spec, Hroot, Hper. apply and_iff_compat_l.
    split; intros (days & at_ & H1 & H2 & H3 & H4); exists days, at_; (split_and!; [done..|]); intros j r Hj Hr; [|by apply kept_row in Hj as [Hj _]; eapply H4].
    apply (H4 j r); [|done]. apply kept_row. split; [done|]. intros Hin. apply elem_of_thread_rows in Hin as (r' & Hr' & Hin). rewrite Hj in Hr'. injection Hr' as <-.
    destruct Hin as [Hin|(q & Hq & Hin)]; [apply Hroots, elem_of_due in Hin as (r' & Hr' & Hd%due_root); congruence|].
    rewrite Hr in Hq. injection Hq as <-. apply Hk, elem_of_thread_rows. exists m. split; [done|by left]. }
  rewrite !elem_of_due. split.
  - intros (m & [Hm Hk]%kept_row & Hd). rewrite Hrep in Hd by done. split; [by exists m|]. intros Hin. apply Hk, elem_of_thread_rows. exists m. split; [done|by left].
  - intros [(m & Hm & Hd) Hk]. pose proof (due_root _ _ _ Hd) as Hn. pose proof (kept_root k m Hk Hm Hn) as Hk'. exists m.
    split; [by apply kept_row|by apply Hrep].
Qed.
Lemma overflows_after : overflows now ws message_days overrides t = false -> overflows now ws message_days overrides t' = false.
Proof.
  destruct (delete_messages_places ids t) as [Hc Hret]. unfold overflows. rewrite <-!not_true_iff_false, !existsb_exists. intros Hn ([k m] & Hin & Ho).
  apply Hn. exists (k, m). apply list_elem_of_In, elem_of_map_to_list, kept_row in Hin as [Hin _]. split; [by apply list_elem_of_In, elem_of_map_to_list|].
  unfold period_overflows, is_root_in, period_of, channel_override in *. by rewrite Hc, Hret in Ho.
Qed.
End batch.

(** ** All batches *)

Lemma purge_messages_alone d : overflows now ws message_days overrides (app d) = false ->
  let ids := rows_of_threads (take PURGE_BATCH (some_order (due_in (app d)))) (app d) in
  purge_messages now some_order ws message_days overrides (undisturbed d) =
    (Ok (Z.of_nat (size ids)), undisturbed (with_app (delete_messages ids) d)).
Proof.
  intros Ho ids. unfold purge_messages, statement, sql. rewrite and_then_eq, svc_bind_eq, svc_call_quiet by done. cbn [shared undisturbed].
  rewrite Ho. done.
Qed.
Lemma no_rows t : rows_of_threads [] t = ∅.
Proof. apply set_eq. intros k. rewrite elem_of_thread_rows. set_solver. Qed.
Lemma batch_split t (roots : list Uuid) : threaded (M t) -> (forall r, r ∈ roots -> r ∈ due_in t) ->
  let ids := rows_of_threads roots t in
  rows_of_threads (due_in t) t = ids ∪ rows_of_threads (due_in (delete_messages ids t)) (delete_messages ids t) /\
  ids ## rows_of_threads (due_in (delete_messages ids t)) (delete_messages ids t).
Proof.
  intros Ht Hr ids. split; [|intros k Hk (m & Hm & _)%elem_of_thread_rows; by apply kept_row in Hm as [_ Hn]].
  apply set_eq. intros k. rewrite elem_of_union. split.
  - intros Hk. destruct (decide (k ∈ ids)) as [|Hn]; [by left|right]. apply elem_of_thread_rows in Hk as (m & Hm & Hk). apply elem_of_thread_rows. exists m.
    split; [by apply kept_row|]. destruct Hk as [Hk|(r & Hp & Hk)]; [left|right; exists r; split; [done|]]; apply due_after; (try done); (split; [done|]);
      intros Hin; apply Hn, elem_of_thread_rows; exists m; (split; [done|]); [by left|right; eauto].
  - intros [Hk|Hk]; apply elem_of_thread_rows in Hk as (m & Hm & Hk); apply elem_of_thread_rows; exists m.
    + split; [done|]. destruct Hk as [Hk|(r & Hp & Hk)]; [left; auto|right; eauto].
    + apply kept_row in Hm as [Hm _]; [|done..]. split; [done|].
      destruct Hk as [Hk|(r & Hp & Hk)]; apply due_after in Hk as [Hk _]; (try done); [by left|right; eauto].
Qed.

Lemma first_due t r : r ∈ take PURGE_BATCH (some_order (due_in t)) -> r ∈ due_in t.
Proof.
  intros (i & Hi & _)%elem_of_take. apply list_elem_of_lookup_2 in Hi. by rewrite some_order_perm in Hi.
Qed.
(** A batch that finds nothing was the last; one that finds something leaves
    at most the rest. *)
Lemma batch_left t : threaded (M t) -> let roots := take PURGE_BATCH (some_order (due_in t)) in
  let ids := rows_of_threads roots t in
  (length (due_in (delete_messages ids t)) = length (due_in t) - PURGE_BATCH)%nat /\ (ids = ∅ -> due_in t = []).
Proof.
  intros Ht roots ids. assert (Hlen : length roots = Nat.min PURGE_BATCH (length (due_in t))) by (unfold roots; by rewrite length_take, some_order_perm).
  pose proof (due_after t roots Ht (first_due t)) as Hafter. fold ids in Hafter.
  assert (Hsplit : Permutation (due_in t) (roots ++ due_in (delete_messages ids t))).
  { apply NoDup_Permutation; [apply due_NoDup| |].
    - apply NoDup_app. split_and!; [|by intros k Hk [_ Hn]%Hafter|apply due_NoDup].
      eapply sublist_NoDup; [|apply sublist_take]. rewrite some_order_perm. apply due_NoDup.
    - intros k. rewrite elem_of_app, Hafter.
      split; [|intros [Hk|[Hk _]]; [by apply first_due|done]]. intros Hk. destruct (decide (k ∈ roots)); tauto. }
  apply Permutation_length in Hsplit as Hl. rewrite length_app in Hl. split; [lia|]. intros Hids.
  assert (roots = []) as Hr.
  { destruct roots as [|r roots'] eqn:Er; [done|exfalso]. assert (r ∈ due_in t) as Hd by (apply first_due; fold roots; rewrite Er; left).
    apply elem_of_due in Hd as (m & Hm & _). assert (r ∈ ids) as Hin by (apply elem_of_thread_rows; exists m; split; [done|left; left]).
    rewrite Hids in Hin. by apply not_elem_of_empty in Hin. }
  rewrite Hr in Hlen. destruct (due_in t); [done|]. cbn in Hlen. lia.
Qed.

Lemma purge_batches_alone n total d : threaded (M (app d)) -> overflows now ws message_days overrides (app d) = false ->
  (length (due_in (app d)) <= n * PURGE_BATCH)%nat -> exists d',
  purge_batches n (purge_messages now some_order ws message_days overrides) total (undisturbed d) =
    (total + Z.of_nat (size (rows_of_threads (due_in (app d)) (app d))), undisturbed d') /\
  (forall k m, M (app d') !! k = Some m <-> M (app d) !! k = Some m /\ k ∉ rows_of_threads (due_in (app d)) (app d)) /\
  due_in (app d') = [] /\ overflows now ws message_days overrides (app d') = false.
Proof.
  revert total d. induction n as [|n IH]; intros total d Ht Ho Hn; cbn [purge_batches].
  { assert (E : due_in (app d) = []) by (destruct (due_in (app d)); [done|cbn in Hn; lia]).
    exists d. rewrite E, no_rows, size_empty, Z.add_0_r. split_and!; [done| |done|done]. intros k m. set_solver. }
  rewrite svc_bind_eq, purge_messages_alone by done. cbn [fst snd]. set (roots := take PURGE_BATCH (some_order (due_in (app d)))).
  set (ids := rows_of_threads roots (app d)). assert (Hroots : forall r, r ∈ roots -> r ∈ due_in (app d)) by (intros; by apply first_due).
  destruct (batch_split (app d) roots Ht Hroots) as [Hrows Hdisj]. destruct (batch_left (app d) Ht) as [Hleft Hlast]. fold roots in Hleft, Hlast. fold ids in Hrows, Hdisj, Hleft, Hlast.
  pose proof (kept_row (app d) roots Ht) as Hkept. fold ids in Hkept. set (d1 := with_app (delete_messages ids) d).
  change (delete_messages ids (app d)) with (app d1) in Hrows, Hdisj, Hleft, Hkept.
  destruct (Z.eqb_spec (Z.of_nat (size ids)) 0) as [Hz|Hz].
  - assert (ids = ∅) as He by (apply leibniz_equiv, size_empty_inv; lia). exists d1. pose proof (Hlast He) as E0. rewrite E0 in Hleft.
    rewrite E0, no_rows, size_empty, Z.add_0_r. rewrite He in Hkept. split_and!; [done|exact Hkept| |by apply overflows_after].
    by apply length_zero_iff_nil.
  - destruct (IH (total + Z.of_nat (size ids)) d1) as (d' & E & Hd' & Hdue & Ho'); [by apply kept_threaded|by apply overflows_after|rewrite Hleft; rewrite Nat.mul_succ_l in Hn; lia|].
    exists d'. rewrite Hrows, size_union by done. split_and!; [rewrite E; f_equal; lia| |done|done].
    intros k m. rewrite Hd', Hkept. set_solver.
Qed.

(** Every message of the thread a message is in was written before the
    period of its channel, which is one of the workspace. *)
Definition thread_is_over t (k : Uuid) m : Prop :=
  let root := default k (Message.thread_parent_id m) in
  exists mr c days at_, M t !! root = Some mr /\ Message.thread_parent_id mr = None /\
    channels t !! Message.channel_id mr = Some c /\ Channel.workspace_id c = ws /\
    period_of message_days overrides (Message.channel_id mr) t = Some days /\ days_ago now days = Ok at_ /\
    Message.created_at mr < at_ /\ forall j r, M t !! j = Some r -> Message.thread_parent_id r = Some root -> Message.created_at r < at_.
Lemma over_due t k m : thread_is_over t k m <-> default k (Message.thread_parent_id m) ∈ due_in t.
Proof.
  unfold thread_is_over. rewrite elem_of_due. setoid_rewrite due_spec. unfold is_root_in. cbn [snd fst]. split.
  - intros (mr & c & days & at_ & Hm & Hn & Hc & Hw & H1 & H2 & H3 & H4). exists mr. split; [done|].
    rewrite Hc, !bool_decide_eq_true_2 by done. split; [done|]. by exists days, at_.
  - intros (mr & Hm & Hr & days & at_ & H1 & H2 & H3 & H4). apply andb_prop in Hr as [Hn Hr]. apply bool_decide_eq_true in Hn.
    destruct (channels t !! _) as [c|] eqn:Ec; [|done]. apply bool_decide_eq_true in Hr. by exists mr, c, days, at_.
Qed.
Lemma rows_over t k m : threaded (M t) -> M t !! k = Some m -> k ∈ rows_of_threads (due_in t) t <-> thread_is_over t k m.
Proof.
  intros [_ Hone] Hm. rewrite elem_of_thread_rows, over_due. destruct (Message.thread_parent_id m) as [p|] eqn:Ep; cbn.
  - split; [|intros Hd; exists m; split; [done|]; right; eauto].
    intros (m' & Hm' & [Hd|(r & Hr & Hd)]); rewrite Hm in Hm'; injection Hm' as <-; [|rewrite Ep in Hr; by injection Hr as <-].
    apply elem_of_due in Hd as (m2 & Hm2 & Hd%due_root). congruence.
  - split; [intros (m' & Hm' & [Hd|(r & Hr & _)])|intros Hd; exists m; by split; [|left]]; [done|]. rewrite Hm in Hm'. congruence.
Qed.

(** C24: A pass removes what a dry run counts.  With threads one level deep,
    periods the database can subtract and no more threads than two hundred
    batches take, a pass over the messages of a workspace that nothing
    interferes with ends and reports the number that was counted; a message
    that was there stays, as it was, exactly unless the newest message of its
    thread is older than the period of its channel; and counting again gives
    none. *)
Theorem a_pass_removes_what_was_counted d : threaded (M (app d)) -> overflows now ws message_days overrides (app d) = false ->
  (length (due_in (app d)) <= MAX_BATCHES_PER_TABLE * PURGE_BATCH)%nat -> exists n d',
  count_messages_past now ws message_days overrides (undisturbed d) = (Ok n, undisturbed d) /\
  purge_loop false (purge_messages now some_order ws message_days overrides) (undisturbed d) = (n, undisturbed d') /\
  (forall k m, M (app d') !! k = Some m <-> M (app d) !! k = Some m /\ ~ thread_is_over (app d) k m) /\
  count_messages_past now ws message_days overrides (undisturbed d') = (Ok 0, undisturbed d').
Proof.
  intros Ht Ho Hn. destruct (purge_batches_alone MAX_BATCHES_PER_TABLE 0 d Ht Ho Hn) as (d' & E & Hd' & Hdue & Ho').
  exists (Z.of_nat (size (rows_of_threads (due_in (app d)) (app d)))), d'. unfold count_messages_past.
  rewrite !and_then_eq, !query_quiet by done. cbn [fst snd shared undisturbed]. rewrite Ho, Ho', Hdue, no_rows. split_and!; [done|exact E| |done].
  intros k m. rewrite Hd'. split; intros [Hm Hk]; (split; [done|]); by rewrite rows_over in *.
Qed.
End messages.

(** ** Examples *)

Module SampleRetention.
#[export] Existing Instances SampleMentions.unary.
Definition in_order (l : list Uuid) : list Uuid := l.
(** The spring of 2026, and a message of the day before. *)
Definition today : Z := 1776000000 * SECOND.
Definition yesterday : Z := today - DAY.
Definition quiet (f : ApiDb -> ApiDb) : SvcTick ApiDb := {| others := f; call_fault := None |}.
(** An old thread, whose reply is old too, and one with a reply of yesterday. *)
Definition old_and_new : ApiDb :=
  SampleMessages.db [SampleMessages.message 51 1 10 ($"a") None; SampleMessages.message 52 2 20 ($"re") (Some 51%N);
                     SampleMessages.message 53 1 30 ($"b") None; SampleMessages.message 54 2 yesterday ($"re") (Some 53%N)] [].
Definition purge (days : option Z) (overrides : bool) (d : ApiDb) : Z * SvcWorld ApiDb :=
  purge_loop false (purge_messages today in_order 20%N days overrides) (undisturbed d).
Definition left_in (w : SvcWorld ApiDb) : list Uuid := (map_to_list (messages (message_tables (app (shared w))))).*1.
Definition unread_of_2 (d : ApiDb) : option Z := ChannelMember.unread_count <$> channel_members (app d) !! (30%N, 2%N).
(** The owner allows channels a period of their own. *)
Definition policy : RetentionPolicy.t :=
  {| RetentionPolicy.workspace_id := 20%N; RetentionPolicy.message_days := Some 30; RetentionPolicy.file_days := Some 30;
     RetentionPolicy.audit_days := 730; RetentionPolicy.notification_days := 90; RetentionPolicy.channel_overrides := true;
     RetentionPolicy.updated_by := Some 1%N; RetentionPolicy.updated_at := 0 |}.
Definition with_policy (d : ApiDb) : ApiDb := with_app (set_retention_tables (set_retention_policies (<[20%N := policy]>))) d.
Definition put (u ch : Uuid) (days : Z) (d : ApiDb) : AppResult ChannelRetention.t * SvcWorld ApiDb :=
  put_channel_retention Outbox.SampleOutbox.entry_id (fun d => next_id (messages (message_tables (app d)))) today (fun _ => []) None
    (Authz.SampleTables.caller u) ch (Some days) (undisturbed d).
(** Files, and a notification, of long ago. *)
Definition old_file (id : Uuid) : FileRecord.t :=
  {| FileRecord.id := id; FileRecord.message_id := None; FileRecord.user_id := 1%N; FileRecord.workspace_id := 20%N;
     FileRecord.filename := []; FileRecord.storage_key := []; FileRecord.mime_type := []; FileRecord.size_bytes := 1;
     FileRecord.thumbnail_key := None; FileRecord.width := None; FileRecord.height := None; FileRecord.created_at := 10;
     FileRecord.draft_until := None |}.
Definition old_notice : Notification.t :=
  {| Notification.user_id := 1%N; Notification.workspace_id := 20%N; Notification.notification_type := []; Notification.title := [];
     Notification.body := None; Notification.data := JObject []; Notification.is_read := true; Notification.created_at := 10 |}.
Definition many_files : ApiDb :=
  with_policy (with_app (set_message_tables (fun mt => set_notifications (fun _ => {[9%N := old_notice]})
    (set_files (fun _ => list_to_map ((fun n => (N.of_nat n, old_file (N.of_nat n))) <$> seq 1 501)) mt))) Authz.SampleTables.db).
Definition pass (dry_run : bool) (d : ApiDb) : PurgeCounts.t := (run_once today in_order (fun _ => true) (0, 0, 0) dry_run (undisturbed d)).1.
End SampleRetention.
Import SampleRetention.

Lemma a_pass_removes_what_was_counted_witness :
  purge (Some 30) false old_and_new = (2, (purge (Some 30) false old_and_new).2) /\ left_in (purge (Some 30) false old_and_new).2 = [54%N; 53%N] /\
  exists d', count_messages_past today 20%N (Some 30) false (undisturbed d') = (Ok 0, undisturbed d') /\ left_in (undisturbed d') = [54%N; 53%N].
Proof.
  assert (H2 : (purge (Some 30) false old_and_new).1 = 2 /\ left_in (purge (Some 30) false old_and_new).2 = [54%N; 53%N]) by (vm_compute; done).
  destruct H2 as [H2 Hids]. split; [by rewrite <-H2 at 1; destruct (purge (Some 30) false old_and_new)|]. split; [done|].
  destruct (a_pass_removes_what_was_counted today in_order (fun l => Permutation_refl l) 20%N (Some 30) false old_and_new) as (n & d' & _ & E & _ & E2).
  - clear H2 Hids. split; intros k x; [|intros p]; intros Hk%elem_of_map_to_list;
      (match type of Hk with _ ∈ ?l => let l' := eval vm_compute in l in replace l with l' in Hk by (vm_compute; reflexivity) end);
      rewrite !elem_of_cons, elem_of_nil in Hk; destruct Hk as [[= -> ->]|[[= -> ->]|[[= -> ->]|[[= -> ->]|[]]]]]; try done;
      intros [= <-]; eexists; (split; [vm_compute; reflexivity|done]).
  - vm_compute. reflexivity.
  - apply (Nat.le_trans _ (1 * 1)); [vm_compute; lia|]. apply Nat.mul_le_mono; [unfold MAX_BATCHES_PER_TABLE|unfold PURGE_BATCH]; lia.
  - exists d'. split; [done|]. unfold purge in Hids. by rewrite E in Hids.
Defined.

(** What is purged stays unread.  A pass deletes two messages a member had not
    read; the seat goes on counting two. *)
Theorem purged_messages_stay_unread :
  let w := (purge (Some 30) false SampleSends.two_unread).2 in
  left_in w = [] /\ unread_of_2 (shared w) = Some 2 /\ SampleSends.truth_for_2 (shared w) = 0.
Proof. vm_compute. done. Qed.

(** A period that is too long stops every deletion.  A moderator of one
    channel gives it a period of three million days, which is accepted; the
    database cannot subtract it, so nothing of the workspace is purged, in that
    channel or in another, though its messages are due. *)
Theorem a_long_period_stops_the_purge :
  let due := with_policy old_and_new in
  (purge (Some 30) true due).1 = 2 /\
  let '(r, w) := put 1 30 3000000 due in
  is_ok r = true /\ (purge (Some 30) true (shared w)).1 = 0.
Proof. vm_compute. done. Qed.

(** A dry run counts less than the pass removes. *)
Theorem a_dry_run_counts_less :
  PurgeCounts.files (pass true many_files) = 500 /\ PurgeCounts.files (pass false many_files) = 501 /\
  PurgeCounts.notifications (pass true many_files) = 0 /\ PurgeCounts.notifications (pass false many_files) = 1.
Proof. vm_compute. done. Qed.
