(* ===== verification/ConversationLaws.v ===== *)
(** * What holds of conversations
    ([backend/api/src/conversations/{repo,routes}.rs])

    A conversation that is opened seats whom was named and its starter, all
    reachable; and the direct conversation of two people, once opened, is found
    again by either of them. *)

From stdpp Require Import base tactics option numbers list gmap sorting.
From Stdlib Require Import ZArith Lia String Ascii.
From S2P Require Import Prelude RustStr Json Errors Frames Publisher Validation ListForms MessageStore NoticeStore Mentions ApiState Outbox AuditLog Tables Authz Membership ApiLaws Mail Messaging Files Threads MessageRoutes MessageLaws SendLaws MentionLaws PollLaws Notices NoticeLaws Scheduled ScheduledLaws Conversations.

Abbreviation Rooms d := (channels (app d)).
Abbreviation Seats d := (channel_members (app d)).

Section conversations.
Context `{UuidText}.
Context (entry_id : str -> list (str * str * Event) -> str) (draw : ApiDb -> Uuid) (now : Z) (show_time : Z -> str).
Implicit Types (t : AppTables) (d : ApiDb) (ch u ws : Uuid) (c : Conversation.t) (kind : ConversationKind.t).

(** Whom a member may start a conversation with. *)
Definition reachable_from t ws u (other : Uuid) : Prop :=
  exists m m', get_member ws u t = Some m /\ get_member ws other t = Some m' /\
    (WorkspaceMember.role m = Guest -> share_a_channel u other t = true).

Lemma get_member_id ws u t m : get_member ws u t = Some m -> WorkspaceMember.workspace_id m = ws /\ WorkspaceMember.user_id m = u.
Proof. unfold get_member. intros E. repeat (case_match || (apply bind_Some in E as (? & ? & E))); simplify_eq; done. Qed.

Lemma require_member_alone ws u d : require_workspace_member ws u (undisturbed d) =
  (match get_member ws u (app d) with Some m => Ok m | None => Err (Forbidden ($"Not a member of this workspace")) end, undisturbed d).
Proof. unfold require_workspace_member. rewrite and_then_eq, query_quiet by done. cbn. by destruct (get_member ws u (app d)). Qed.

Lemma require_reachable_alone ws u m other d : get_member ws u (app d) = Some m -> exists r,
  require_reachable m other (undisturbed d) = (r, undisturbed d) /\ (r = Ok tt -> reachable_from (app d) ws u other).
Proof.
  intros Hm. pose proof (get_member_id _ _ _ _ Hm) as [Hws Hu]. unfold require_reachable. rewrite Hws, Hu, svc_bind_eq, require_member_alone. cbn [fst snd].
  unfold reachable_from. destruct (get_member ws other (app d)) as [m'|] eqn:Em; [|by eexists].
  rewrite and_then_eq. case_bool_decide as Hg; [|eexists; split; [done|]; intros _; exists m, m'; naive_solver].
  rewrite query_quiet by done. cbn. destruct (share_a_channel u other (app d)) eqn:Es; eexists; (split; [done|]); [|done].
  intros _. by exists m, m'.
Qed.
Lemma require_each_alone ws u m others d : get_member ws u (app d) = Some m -> exists r,
  require_each_reachable m others (undisturbed d) = (r, undisturbed d) /\ (r = Ok tt -> Forall (reachable_from (app d) ws u) others).
Proof.
  intros Hm. induction others as [|o others IH]; cbn [require_each_reachable]; [exists (Ok tt); split; [done|by intros _]|].
  rewrite and_then_eq. destruct (require_reachable_alone ws u m o d Hm) as ([[]|e] & -> & Hr); cbn [fst snd]; [|by eexists].
  destruct IH as (r & -> & Hrs). exists r. split; [done|]. intros E. constructor; auto.
Qed.

(** ** What is written *)

Lemma seat_each_Ok ch l d r d' : tx_each (fun p => add_channel_member_tx now ch p ChannelRole.Member) l d = (Ok r, d') ->
  Rooms d' = Rooms d /\ (forall k x, Seats d !! k = Some x -> Seats d' !! k = Some x) /\
  (forall x, is_Some (Seats d' !! (ch, x)) <-> is_Some (Seats d !! (ch, x)) \/ x ∈ l) /\
  (forall k, k.1 <> ch -> Seats d' !! k = Seats d !! k).
Proof.
  revert d r. induction l as [|p l IH]; intros d r E; cbn [tx_each] in E.
  - apply tx_ret_Ok in E as [-> ->]. split_and!; try done. intros x. set_solver.
  - apply tx_bind_Ok in E as (s & d1 & E1 & E). apply tx_bind_Ok in E as (rest & d2 & E2 & E). apply tx_ret_Ok in E as [-> ->].
    apply IH in E2 as (HR & Hold & Hnew & Hoth).
    assert (H1 : Rooms d1 = Rooms d /\ (forall k x, Seats d !! k = Some x -> Seats d1 !! k = Some x) /\
      (forall x, is_Some (Seats d1 !! (ch, x)) <-> is_Some (Seats d !! (ch, x)) \/ x = p) /\ (forall k, k.1 <> ch -> Seats d1 !! k = Seats d !! k)).
    { unfold add_channel_member_tx in E1. apply tx_bind_Ok in E1 as (o & d0 & [-> ->]%read_Ok & E1).
      destruct (channel_members (app d) !! (ch, p)) as [there|] eqn:Et.
      - apply tx_ret_Ok in E1 as [-> ->]. split_and!; try done. intros x. split; [by left|]. intros [?| ->]; [done|by eexists].
      - apply tx_bind_Ok in E1 as (ok & d0 & [-> ->]%read_Ok & E1). destruct (negb _); [by apply tx_fail_Ok in E1|].
        apply tx_bind_Ok in E1 as ([] & d0 & ->%run_Ok & E1). apply tx_ret_Ok in E1 as [-> ->]. rewrite !app_with.
        assert (Hs : forall f, channel_members (set_channel_members f (app d)) = f (Seats d)) by (intros f; by destruct (app d)).
        rewrite Hs. split_and!; [by destruct (app d)| | |].
        + intros k x Hk. rewrite lookup_insert_ne; [done|congruence].
        + intros x. destruct (decide (x = p)) as [->|Hne]; [rewrite lookup_insert_eq; split; [by right|by eexists]|].
          rewrite lookup_insert_ne by congruence. naive_solver.
        + intros k Hk. rewrite lookup_insert_ne; [done|]. intros <-. by apply Hk. }
    destruct H1 as (HR1 & Hold1 & Hnew1 & Hoth1). split_and!.
    + congruence.
    + eauto.
    + intros x. rewrite Hnew, Hnew1. set_solver.
    + intros k Hk. rewrite Hoth by done. by apply Hoth1.
Qed.

(** A new conversation, and who sits in it. *)
Definition opened_for kind ws u (everyone : list Uuid) d c d' : Prop :=
  Rooms d !! Conversation.id c = None /\ Conversation.kind c = kind /\ Conversation.workspace_id c = ws /\
  Rooms d' = <[Conversation.id c := conversation_row now (Conversation.id c) ws kind u]> (Rooms d) /\
  (forall x, is_Some (Seats d' !! (Conversation.id c, x)) <-> is_Some (Seats d !! (Conversation.id c, x)) \/ x ∈ everyone) /\
  (forall k, k.1 <> Conversation.id c -> Seats d' !! k = Seats d !! k).

Lemma open_tx_Ok ws kind u everyone d c st d' : open_tx draw now show_time ws kind u everyone d = (Ok (c, st), d') ->
  opened_for kind ws u everyone d c d'.
Proof.
  unfold open_tx. intros E. apply tx_bind_Ok in E as (c' & d1 & E1 & E). apply tx_bind_Ok in E as (st' & d2 & E2%stage_keeps & E).
  apply tx_ret_Ok in E as [[= <- <-] ->]. unfold open_in in E1. apply tx_bind_Ok in E1 as (ch & d3 & E3 & E1).
  apply tx_bind_Ok in E1 as (seats & d4 & E4%seat_each_Ok & E1). apply tx_ret_Ok in E1 as [-> ->].
  unfold insert_conversation in E3. apply tx_bind_Ok in E3 as (i & d5 & [-> ->]%drawn_Ok & E3).
  apply tx_bind_Ok in E3 as (taken & d5 & [-> ->]%read_Ok & E3). case_bool_decide as Ht; [by inv_msg|].
  apply tx_bind_Ok in E3 as (there & d5 & [-> ->]%read_Ok & E3). destruct (negb _); [by inv_msg|].
  apply tx_bind_Ok in E3 as ([] & d5 & ->%run_Ok & E3). apply tx_ret_Ok in E3 as [-> ->].
  destruct E4 as (HR & _ & Hnew & Hoth). rewrite app_with in *. unfold opened_for. rewrite E2. cbn [Conversation.id Conversation.kind Conversation.workspace_id].
  assert (Hc : forall f, channels (set_channels f (app d)) = f (Rooms d)) by (intros f; by destruct (app d)).
  assert (Hs : forall f, channel_members (set_channels f (app d)) = Seats d) by (intros f; by destruct (app d)).
  rewrite HR, Hc. rewrite Hs in *. split_and!; try done. by apply eq_None_not_Some.
Qed.

Lemma open_alone ws kind u everyone d : exists r d', open_conversation entry_id draw now show_time ws kind u everyone (undisturbed d) = (r, undisturbed d') /\
  match r with Ok c => opened_for kind ws u everyone d c d' | Err _ => d' = d end.
Proof.
  unfold open_conversation. rewrite and_then_eq, transaction_quiet by done. cbn [shared undisturbed].
  destruct (open_tx _ _ _ _ _ _ _ d) as [[[c st]|e] d1] eqn:E; cbn [fst snd]; [|by eexists _, d]. apply open_tx_Ok in E.
  change {| shared := d1; agenda := [] |} with (undisturbed d1). rewrite svc_bind_eq.
  destruct (alone_follows (leaves (fun t => t)) (dispatch entry_id now st) d1) as ([] & d2 & E2 & Happ).
  { by apply dispatch_follows; [apply _|]. } { apply dispatch_calm. }
  rewrite E2. exists (Ok c), d2. split; [done|]. unfold leaves in Happ. unfold opened_for in *. by rewrite Happ.
Qed.

(** ** The direct conversation of two people *)

Lemma head_sorted (l : list (Uuid * Channel.t)) p : head (merge_sort opened_before l) = Some p -> p ∈ l.
Proof. intros E. rewrite <-(merge_sort_Permutation opened_before l). destruct (merge_sort _ _) as [|q l']; [done|]. injection E as ->. left. Qed.
Lemma head_nonempty (l : list (Uuid * Channel.t)) p : p ∈ l -> is_Some (head (merge_sort opened_before l)).
Proof.
  intros Hp. assert (Hp' : p ∈ merge_sort opened_before l) by by rewrite (merge_sort_Permutation opened_before l).
  destruct (merge_sort _ _); [by apply not_elem_of_nil in Hp'|by eexists].
Qed.
Lemma elem_of_between ws a b t p : p ∈ filter (fun p => is_between ws a b t p = true) (map_to_list (channels t)) <->
  is_between ws a b t p = true /\ channels t !! p.1 = Some p.2.
Proof. rewrite list_elem_of_filter. destruct p as [k c]. by rewrite elem_of_map_to_list. Qed.
Lemma between_Dm ws a b t p : is_between ws a b t p = true -> Channel.workspace_id p.2 = ws /\ Channel.channel_type p.2 = Dm.
Proof. unfold is_between. intros E. bool_hyps. auto. Qed.

Lemma find_direct_between ws a b t c : find_direct ws a b t = Some c ->
  Conversation.workspace_id c = ws /\ Conversation.kind c = ConversationKind.Direct /\
  exists room, channels t !! Conversation.id c = Some room /\ is_between ws a b t (Conversation.id c, room) = true.
Proof.
  unfold find_direct. intros (p & Hp%head_sorted & E)%bind_Some. apply elem_of_between in Hp as [Hb Hp].
  pose proof (between_Dm _ _ _ _ _ Hb) as [Hw Ht]. unfold into_conversation in E. rewrite Ht in E. injection E as <-. cbn.
  split_and!; [done..|]. exists p.2. by destruct p.
Qed.
Lemma find_direct_None ws a b t p : find_direct ws a b t = None -> channels t !! p.1 = Some p.2 -> is_between ws a b t p = false.
Proof.
  intros E Hp. destruct (is_between ws a b t p) eqn:Eb; [|done]. destruct (head_nonempty _ p (proj2 (elem_of_between ws a b t p) (conj Eb Hp))) as [q Hq].
  unfold find_direct in E. rewrite Hq in E. cbn in E. apply head_sorted, elem_of_between in Hq as [Hq _]. apply between_Dm in Hq as [_ Ht].
  unfold into_conversation in E. by rewrite Ht in E.
Qed.
Lemma find_direct_only ws a b t ch room : channels t !! ch = Some room -> is_between ws a b t (ch, room) = true ->
  (forall p, channels t !! p.1 = Some p.2 -> is_between ws a b t p = true -> p.1 = ch) -> exists c, find_direct ws a b t = Some c /\ Conversation.id c = ch.
Proof.
  intros Hch Hb Honly. destruct (head_nonempty _ (ch, room) (proj2 (elem_of_between ws a b t (ch, room)) (conj Hb Hch))) as [q Hq].
  unfold find_direct. rewrite Hq. cbn. apply head_sorted, elem_of_between in Hq as [Hqb Hq]. pose proof (between_Dm _ _ _ _ _ Hqb) as [_ Ht].
  unfold into_conversation. rewrite Ht. cbn. eexists. split; [done|]. cbn. by apply Honly.
Qed.

(** Where rooms and seats are the same, so is the conversation found; and it
    does not matter which of the two looks. *)
Definition same_rooms t t' : Prop := channels t' = channels t /\ channel_members t' = channel_members t.
Lemma between_same ws a b t t' p : same_rooms t t' -> is_between ws a b t' p = is_between ws a b t p.
Proof. intros [_ E]. unfold is_between. by rewrite E. Qed.
Lemma between_sym ws a b t p : is_between ws a b t p = is_between ws b a t p.
Proof. unfold is_between. rewrite <-!andb_assoc. do 2 f_equal. apply andb_comm. Qed.
Lemma filter_between ws a b t t' : (forall p, is_between ws a b t' p = is_between ws a b t p) -> forall l : list (Uuid * Channel.t),
  filter (fun p => is_between ws a b t' p = true) l = filter (fun p => is_between ws a b t p = true) l.
Proof. intros E l. apply list_filter_iff. intros p. by rewrite E. Qed.
Lemma find_direct_same ws a b t t' : same_rooms t t' -> Conversation.id <$> find_direct ws a b t' = Conversation.id <$> find_direct ws a b t.
Proof.
  intros Hs. unfold find_direct. rewrite (proj1 Hs), (filter_between ws a b t t') by (intros p; by apply between_same).
  destruct (head _) as [p|]; [|done]. cbn. unfold into_conversation. by destruct (ConversationKind.of_type _).
Qed.
Lemma find_direct_sym ws a b t : find_direct ws a b t = find_direct ws b a t.
Proof.
  unfold find_direct. f_equal. do 2 f_equal. apply list_filter_iff. intros p. by rewrite between_sym.
Qed.

Lemma opened_is_found ws u other d c d' : find_direct ws u other (app d) = None -> opened_for ConversationKind.Direct ws u [other; u] d c d' ->
  exists c', find_direct ws u other (app d') = Some c' /\ Conversation.id c' = Conversation.id c.
Proof.
  intros Hn (Hid & Hk & Hw & HR & HS & Ho). eapply find_direct_only; [by rewrite HR, lookup_insert_eq| |].
  - unfold is_between. cbn. rewrite !bool_decide_eq_true_2; [done| | |done|done]; apply HS; right; set_solver.
  - intros p Hp Hb. destruct (decide (p.1 = Conversation.id c)) as [->|Hne]; [done|]. exfalso.
    rewrite HR, lookup_insert_ne in Hp by done. apply (find_direct_None _ _ _ _ _ Hn) in Hp.
    unfold is_between in *. by rewrite !Ho, Hp in Hb.
Qed.

Lemma elem_of_others_named u ids x : x ∈ others_named u ids <-> x ∈ ids /\ x <> u.
Proof. unfold others_named. rewrite elem_of_dedup, merge_sort_Permutation, list_elem_of_filter. tauto. Qed.

Lemma open_direct_alone ws u other d : exists r d', open_direct entry_id draw now show_time ws u other (undisturbed d) = (r, undisturbed d') /\
  match r with
  | Ok c => (d' = d /\ find_direct ws u other (app d) = Some c \/
             find_direct ws u other (app d) = None /\ opened_for ConversationKind.Direct ws u [other; u] d c d') /\
            exists c', find_direct ws u other (app d') = Some c' /\ Conversation.id c' = Conversation.id c
  | Err _ => d' = d
  end.
Proof.
  unfold open_direct. rewrite and_then_eq, query_quiet by done. cbn [fst snd shared undisturbed].
  destruct (find_direct ws u other (app d)) as [c|] eqn:Ef; [exists (Ok c), d; split; [done|]; split; [by left|by exists c]|].
  destruct (open_alone ws ConversationKind.Direct u [other; u] d) as (r & d' & E & Hr). exists r, d'. split; [exact E|].
  destruct r as [c|e]; [|done]. split; [by right|]. by eapply opened_is_found.
Qed.

Lemma check_eq {D B C} (r : AppResult B) (f : B -> Svc D (AppResult C)) w :
  (x ←? mret r; f x) w = match r with Ok a => f a w | Err e => (Err e, w) end.
Proof. by destruct r. Qed.
(** Nothing was written. *)
Ltac refused := eexists (Err _), _; split; reflexivity.

(** Only rooms have seats. *)
Definition seats_have_rooms d : Prop := forall ch x, is_Some (Seats d !! (ch, x)) -> is_Some (Rooms d !! ch).

Lemma others_seated kind ws u ids everyone d c d' : seats_have_rooms d -> (forall x, x ∈ everyone <-> x = u \/ x ∈ others_named u ids) ->
  opened_for kind ws u everyone d c d' -> forall x, is_Some (Seats d' !! (Conversation.id c, x)) <-> x = u \/ x ∈ ids.
Proof.
  intros Hr He (Hid & _ & _ & _ & HS & _) x. rewrite HS, He, elem_of_others_named. split.
  - intros [Hx|[->|[Hx _]]]; [apply Hr in Hx; rewrite Hid in Hx; by destruct Hx|by left|by right].
  - intros Hx. right. destruct (decide (x = u)) as [->|Hne]; [by left|]. destruct Hx as [->|Hx]; [by left|by right].
Qed.

(** C23: A conversation is with whom was named.  A request to open one that
    nothing interferes with and that is granted names one to eight others, each
    of whom its author may reach.  Either nothing is written and it is the
    direct conversation the two have, or a conversation is new, in the
    workspace, and exactly its author and those named sit in it; nobody else's
    seat changes.  The direct conversation of two people is found by both from
    then on, for as long as rooms and seats stay.  A refusal writes nothing. *)
Theorem a_conversation_is_with_whom_was_named (caller : AuthUser.t) ws (ids : list Uuid) d : seats_have_rooms d ->
  let u := user_of caller in let others := others_named u ids in
  exists r d', create_conversation entry_id draw now show_time caller ws ids (undisturbed d) = (r, undisturbed d') /\
  match r with
  | Err _ => d' = d
  | Ok c =>
      (1 <= length others <= 8)%nat /\ Forall (reachable_from (app d) ws u) others /\ Conversation.workspace_id c = ws /\
      (d' = d \/ Rooms d !! Conversation.id c = None /\
         Rooms d' = <[Conversation.id c := conversation_row now (Conversation.id c) ws (Conversation.kind c) u]> (Rooms d) /\
         (forall x, is_Some (Seats d' !! (Conversation.id c, x)) <-> x = u \/ x ∈ ids) /\
         (forall k, k.1 <> Conversation.id c -> Seats d' !! k = Seats d !! k)) /\
      (Conversation.kind c = ConversationKind.Direct <-> length others = 1%nat) /\
      forall other, others = [other] -> forall t, same_rooms (app d') t ->
        Conversation.id <$> find_direct ws u other t = Some (Conversation.id c) /\
        Conversation.id <$> find_direct ws other u t = Some (Conversation.id c)
  end.
Proof.
  intros Hrooms u others. unfold create_conversation. rewrite check_eq.
  destruct (scoped caller ImWrite) as [auth|e] eqn:Es; [apply scoped_same in Es as ->|refused]. fold u others.
  destruct others as [|o os] eqn:Eo; [refused|]. destruct (Nat.ltb_spec MAX_GROUP_PARTICIPANTS (length (o :: os) + 1)) as [|Hlen]; [refused|].
  unfold MAX_GROUP_PARTICIPANTS in Hlen. rewrite then_eq, require_member_alone. cbn [fst snd].
  destruct (get_member ws u (app d)) as [m|] eqn:Em; [|refused]. rewrite then_eq.
  destruct (require_each_alone ws u m (o :: os) d Em) as ([[]|e] & -> & Hreach); [|refused]. cbn [fst snd]. specialize (Hreach eq_refl).
  assert (Hothers : forall x, x ∈ o :: os <-> x ∈ others_named u ids) by (intros x; by rewrite <-Eo).
  destruct os as [|o2 os].
  - destruct (open_direct_alone ws u o d) as (r & d' & E & Hr). exists r, d'. split; [exact E|]. destruct r as [c|e]; [|done].
    destruct Hr as [Hr (c' & Hc' & Hid)]. pose proof (find_direct_between _ _ _ _ _ Hc') as (Hw' & _ & _).
    assert (Hk : Conversation.workspace_id c = ws /\ Conversation.kind c = ConversationKind.Direct).
    { destruct Hr as [[_ Hf]|[_ (_ & ? & ? & _)]]; [apply find_direct_between in Hf as (? & ? & _)|]; done. }
    destruct Hk as [Hw Hk]. rewrite Hk. cbn [length]. split_and!; [lia|lia|done|done| |done|].
    + destruct Hr as [[? _]|[_ Ho]]; [by left|right]. pose proof (others_seated ConversationKind.Direct ws u ids [o; u] d c d' Hrooms) as Hs.
      pose proof Ho as (H1 & _ & _ & H4 & _ & H6). split_and!; [done|done| |done].
      apply Hs; [|done]. intros x. rewrite <-Hothers. set_solver.
    + intros other [= <-] t Ht. rewrite (find_direct_sym ws o u), (find_direct_same ws u o _ _ Ht), Hc'. cbn. by rewrite Hid.
  - destruct (open_alone ws ConversationKind.Group u ((o :: o2 :: os) ++ [u]) d) as (r & d' & E & Hr). exists r, d'. split; [exact E|].
    destruct r as [c|e]; [|done]. pose proof Hr as (H1 & Hk & Hw & H4 & _ & H6). rewrite Hk. cbn [length] in *.
    split_and!; [lia|lia|done|done| |split; [done|lia]|done]. right. split_and!; [done|done| |done].
    eapply others_seated; [done| |done]. intros x. rewrite <-Hothers. set_solver.
Qed.
End conversations.

(** ** Examples *)

Module SampleConversations.
#[export] Existing Instances SampleMentions.unary.
Definition db : ApiDb := Authz.SampleTables.db.
Definition draw (d : ApiDb) : Uuid := (1000 + N.of_nat (size (Rooms d)) + Z.to_N (next_row d))%N.
Definition ask (u : Uuid) (ids : list Uuid) (w : SvcWorld ApiDb) : AppResult Conversation.t * SvcWorld ApiDb :=
  create_conversation Outbox.SampleOutbox.entry_id draw 100 (fun _ => []) (Authz.SampleTables.caller u) 20%N ids w.
(** The second person opens the conversation meanwhile. *)
Definition meanwhile (d : ApiDb) : ApiDb := shared (ask 2 [1%N] (undisturbed d)).2.
Definition quiet (f : ApiDb -> ApiDb) : SvcTick ApiDb := {| others := f; call_fault := None |}.
Definition between (t : AppTables) : nat := length (filter (fun p => is_between 20%N 1%N 2%N t p = true) (map_to_list (channels t))).
End SampleConversations.
Import SampleConversations.

Lemma a_conversation_is_with_whom_was_named_witness :
  exists c, (ask 1 [2%N; 1%N; 2%N] (undisturbed db)).1 = Ok c /\ Conversation.kind c = ConversationKind.Direct /\
    forall t, same_rooms (app (shared (ask 1 [2%N; 1%N; 2%N] (undisturbed db)).2)) t ->
      Conversation.id <$> find_direct 20%N 2%N 1%N t = Some (Conversation.id c).
Proof.
  destruct (a_conversation_is_with_whom_was_named Outbox.SampleOutbox.entry_id draw 100 (fun _ => []) (Authz.SampleTables.caller 1) 20%N
    [2%N; 1%N; 2%N] db) as (r & d' & E & Hr).
  { intros ch x [s Hs]. change (({[(32%N, 3%N) := Authz.SampleTables.membership 32%N 3%N ChannelRole.Member]} : gmap (Uuid * Uuid) ChannelMember.t) !! (ch, x) = Some s) in Hs.
    apply lookup_singleton_Some in Hs as [[= <- <-] _]. vm_compute. by eexists. }
  assert (E1 : (ask 1 [2%N; 1%N; 2%N] (undisturbed db)).1 = r) by (unfold ask; by rewrite E).
  assert (E2 : shared (ask 1 [2%N; 1%N; 2%N] (undisturbed db)).2 = d') by (unfold ask; by rewrite E).
  destruct r as [c|e]; [|exfalso; vm_compute in E1; discriminate]. exists c. split; [done|].
  destruct Hr as (_ & _ & _ & _ & Hk & Hf). split; [apply Hk; vm_compute; reflexivity|]. intros t Ht. rewrite E2 in Ht. eapply Hf; [vm_compute; reflexivity|done].
Defined.

(** Two requests at once open two conversations.  When two people open their
    direct conversation at the same moment, neither finds one and both create
    it. *)
Theorem two_requests_open_two_conversations :
  let '(r, w) := ask 1 [2%N] {| shared := db; agenda := [quiet id; quiet id; quiet id; quiet meanwhile] |} in
  (exists c, r = Ok c) /\ between (app (shared w)) = 2%nat.
Proof. vm_compute. split; [by eexists|done]. Qed.
