(* ===== verification/LaterSync.v ===== *)
(** * Due dates of lists in Later
    ([backend/api/src/later/{repo,reminders,routes}.rs])

    The item of a list that is due by tomorrow waits in Later for everybody it
    is assigned to.  [list_due_assignments] is the function of the database
    that says for whom; [sync_list_due] brings the rows of Later in step with
    it, in one statement: a value that cannot be cast, or a row that would
    refer to nothing, refuses all of it.  Dates are days, numbered. *)

From stdpp Require Import base tactics option numbers list gmap sorting.
From Stdlib Require Import ZArith Lia String Ascii.
From S2P Require Import Prelude RustStr Json Errors Frames Publisher Lists ListForms ListViews ListStore LaterStore MessageStore ApiState Outbox Tables Authz Membership.

(** What the database makes of texts and time zones: [text::DATE],
    [text::UUID], [(time AT TIME ZONE zone)::DATE] (a zone it does not know is
    an error), [(day + TIME '09:00') AT TIME ZONE zone]. *)
Class PgText := {
  cast_date : str -> option Z;
  cast_uuid : str -> option Uuid;
  local_day : str -> Z -> option Z;
  nine_on : Z -> str -> Z;
}.

Module DueAssignment.
Record t := {
  workspace_id : Uuid; channel_id : option Uuid; item_id : Uuid; user_id : Uuid; title : str; due : Z; today : Z; remind_at : Z;
}.
End DueAssignment.

Module LaterAudience.
Record t := { user_id : Uuid; workspace_id : Uuid }.
End LaterAudience.
#[export] Instance LaterAudience_eq_dec : EqDecision LaterAudience.t.
Proof. solve_decision. Defined.


Section later.
Context `{UuidText} `{JsonText} `{PgText}.
Context (entry_id : str -> list (str * str * Frames.Event) -> str) (draw : ApiDb -> Uuid) (now : Z).
Implicit Types (t : AppTables) (i : ListItem.t).

(** ** [list_due_assignments] *)

(** [values ->> id] *)
Definition cell_text (id : Uuid) i : option str :=
  v ← get (uuid_to_string id) (ListItem.values i);
  match v with
  | JNull => None
  | JString s => Some s
  | JBool b => Some (if b then $"true" else $"false")
  | v => Some (json_to_string v)
  end.

Definition cast {A} (f : str -> option A) (text : option str) : AppResult (option A) :=
  match text with
  | None => Ok None
  | Some text => match f text with Some a => Ok (Some a) | None => Err (Database ($"invalid input syntax")) end
  end.

Definition first_of (kind : ColumnKind) (columns : list ListColumn.t) : option ListColumn.t :=
  head (filter (fun c => ListColumn.kind c = kind) columns).

(** [COALESCE(NULLIF(btrim(values ->> text), ''), 'Untitled')] *)
Definition due_title (columns : list ListColumn.t) i : str :=
  match (c ← first_of Text columns; btrim <$> cell_text (ListColumn.id c) i) with
  | Some [] | None => $"Untitled"
  | Some title => title
  end.
(** The first checkbox is there and checked. *)
Definition checked_off (columns : list ListColumn.t) i : bool :=
  match first_of Checkbox columns with
  | Some c => bool_decide (cell_text (ListColumn.id c) i = Some ($"true"))
  | None => false
  end.
Definition may_read_list (l : List.t) (u : Uuid) t : bool :=
  match List.channel_id l with
  | None => bool_decide (List.created_by l = u)
  | Some ch => bool_decide (is_Some (channel_members t !! (ch, u)))
  end.
Definition zone_of (u : User.t) : str := match User.timezone u with Some [] | None => $"UTC" | Some tz => tz end.

(** The assignment of one item by one person column. *)
Definition due_by t (l : List.t) (columns : list ListColumn.t) i (due : Z) (person : ListColumn.t) : AppResult (list DueAssignment.t) :=
  u ← cast cast_uuid (cell_text (ListColumn.id person) i);
  match u with
  | None => Ok []
  | Some u =>
      match users t !! u with
      | None => Ok []
      | Some user =>
          today ← ok_or (Database ($"time zone not recognized")) (local_day (zone_of user) now);
          Ok (if (due <=? today + 1) && negb (checked_off columns i) && may_read_list l u t
              then [{| DueAssignment.workspace_id := List.workspace_id l; DueAssignment.channel_id := List.channel_id l;
                       DueAssignment.item_id := ListItem.id i; DueAssignment.user_id := u;
                       DueAssignment.title := due_title columns i; DueAssignment.due := due; DueAssignment.today := today;
                       DueAssignment.remind_at := nine_on due (zone_of user) |}]
              else [])
      end
  end.

(** The assignments of one item: none when its due date is not set. *)
Definition due_of_item t (l : List.t) (columns : list ListColumn.t) (dc : ListColumn.t) i : AppResult (list DueAssignment.t) :=
  due ← cast cast_date (cell_text (ListColumn.id dc) i);
  match due with
  | None => Ok []
  | Some due => collect (due_by t l columns i due) (filter (fun c => ListColumn.kind c = Person) columns)
  end.

Definition due_of_column t (dc : ListColumn.t) : AppResult (list DueAssignment.t) :=
  let lt := list_tables t in
  match find_list (ListColumn.list_id dc) lt with
  | None => Ok []
  | Some l => collect (due_of_item t l (columns_of (List.id l) lt) dc) (items_of (List.id l) lt)
  end.

Definition list_due_assignments (only_list : option Uuid) t : AppResult (list DueAssignment.t) :=
  collect (due_of_column t)
    (filter (fun c => ListColumn.due c = true /\ (only_list = None \/ only_list = Some (ListColumn.list_id c)))
       (map_to_list (list_columns (list_tables t))).*2).

(** ** [LaterRepo::sync_list_due] *)

(** The row the unique index on (user, item) finds. *)
Definition row_for (u item : Uuid) t : option LaterRow.t :=
  head (filter (fun r => LaterRow.user_id r = u /\ LaterRow.list_item_id r = Some item) (map_to_list (later_items t)).*2).

Definition names (d : DueAssignment.t) (u item : Uuid) : bool :=
  bool_decide (DueAssignment.user_id d = u) && bool_decide (DueAssignment.item_id d = item).

Definition audience (r : LaterRow.t) : LaterAudience.t :=
  {| LaterAudience.user_id := LaterRow.user_id r; LaterAudience.workspace_id := LaterRow.workspace_id r |}.

(** What a row refers to is there. *)
Definition refers (r : LaterRow.t) t : bool :=
  bool_decide (is_Some (workspace_members t !! (LaterRow.workspace_id r, LaterRow.user_id r))) &&
  bool_decide (is_Some (users t !! LaterRow.created_by r)) &&
  match LaterRow.message_id r with Some m => bool_decide (is_Some (messages (message_tables t) !! m)) | None => true end &&
  match LaterRow.channel_id r with Some ch => bool_decide (is_Some (channels t !! ch)) | None => true end &&
  match LaterRow.list_item_id r with Some i => bool_decide (is_Some (list_items (list_tables t) !! i)) | None => true end.

(** [INSERT]: a row under an identifier drawn for it. *)
Definition insert_later (row : Uuid -> LaterRow.t) : Tx ApiDb LaterRow.t :=
  r ← tx_read (fun d => row (draw d));
  taken ← read (fun t => bool_decide (is_Some (later_items t !! LaterRow.id r)));
  there ← read (refers r);
  if taken : bool then tx_fail (Database ($"duplicate key value violates unique constraint"))
  else if negb there then foreign_key
  else
    _ ← run (set_later_items (<[LaterRow.id r := r]>));
    mret r.

Definition due_row (d : DueAssignment.t) (id : Uuid) : LaterRow.t :=
  new_row now id (DueAssignment.workspace_id d) (DueAssignment.user_id d) (DueAssignment.user_id d) None
    (DueAssignment.channel_id d) (Some (DueAssignment.item_id d)) (Some (DueAssignment.title d)) (Some (DueAssignment.remind_at d)).

(** [ON CONFLICT DO NOTHING] of one assignment. *)
Definition add_due (d : DueAssignment.t) : Tx ApiDb (option LaterAudience.t) :=
  there ← read (row_for (DueAssignment.user_id d) (DueAssignment.item_id d));
  match there with
  | Some _ => mret None
  | None => row ← insert_later (due_row d); mret (Some (audience row))
  end.

(** The rows in progress that no assignment names any more. *)
Definition no_longer_due (only_list : option Uuid) (due : list DueAssignment.t) t (r : LaterRow.t) : Prop :=
  match LaterRow.list_item_id r with
  | None => False
  | Some item =>
      LaterRow.status r = $"in_progress" /\
      (only_list = None \/ only_list = (fun i : ListItem.t * option Z => ListItem.list_id i.1) <$> list_items (list_tables t) !! item) /\
      existsb (fun d => names d (LaterRow.user_id r) item) due = false
  end.
#[global] Instance no_longer_due_dec only_list due t r : Decision (no_longer_due only_list due t r).
Proof. unfold no_longer_due. destruct (LaterRow.list_item_id r); apply _. Defined.

Definition sync_list_due_tx (only_list : option Uuid) : Tx ApiDb (list LaterAudience.t) :=
  assignments ← read (list_due_assignments only_list);
  due ← tx_of assignments;
  gone ← read (fun t => filter (fun p => no_longer_due only_list due t p.2) (later_items t));
  added ← tx_each add_due (filter (fun d => DueAssignment.today d <= DueAssignment.due d) due);
  _ ← run (set_later_items (fun m => m ∖ gone));
  mret (remove_dups (omap id added ++ (audience <$> (map_to_list gone).*2))).

(** [routes::announce] *)
Definition announce_later (u ws : Uuid) : Svc ApiDb unit :=
  id ← svc_gets draw;
  _ ← publish entry_id now id ($"later.updated") (JObject [uuid_field "user_id" u; uuid_field "workspace_id" ws]);
  mret tt.

(** [reminders::sync_list_due] *)
Definition sync_list_due (only_list : option Uuid) : Svc ApiDb unit :=
  changed ← transaction (sync_list_due_tx only_list);
  match changed with
  | Ok changed => svc_each changed (fun a => announce_later (LaterAudience.user_id a) (LaterAudience.workspace_id a))
  | Err _ => mret tt
  end.
End later.
