(* ===== verification/ListService.v ===== *)
(** * Lists as requests change them
    ([backend/api/src/lists/{service,repo}.rs])

    A handler checks who asks, opens a transaction, takes the lock of the list
    and rewrites its rows; every change is staged as an event of the list.  A
    query a transaction makes outside of itself sees the state of its commit.
    Writing an item, and changing a column, brings Later in step with the due
    dates of the list. *)

From stdpp Require Import base tactics option numbers list gmap sorting.
From Stdlib Require Import ZArith Lia String Ascii.
From S2P Require Import Prelude RustStr Json Errors Rank Lists ListForms ListViews ListStore Mentions MessageStore ApiState Outbox Tables Authz Membership LaterSync.

Module NewColumn.
Record t := { name : str; kind : ColumnKind; options : ColumnOptionsInput.t }.
End NewColumn.
Module CreateListRequest.
Record t := { title : str; description : str; channel_id : option Uuid; columns : list NewColumn.t }.
End CreateListRequest.
Module UpdateListRequest.
Record t := { title : option str; description : option str }.
End UpdateListRequest.
Module UpdateColumnRequest.
Record t := {
  name : option str; kind : option ColumnKind; options : option ColumnOptionsInput.t; hidden : option bool;
  due : option bool; confirm_cleared : option Z;
}.
End UpdateColumnRequest.
Module ColumnChangePreview.
Record t := { kind : ColumnKind; options : ColumnOptionsInput.t }.
End ColumnChangePreview.
Module CreateViewRequest.
Record t := { name : str; kind : ViewKind; config : ViewConfig.t }.
End CreateViewRequest.
Module UpdateViewRequest.
Record t := { name : option str; kind : option ViewKind; config : option ViewConfig.t }.
End UpdateViewRequest.
Module CreateItemRequest.
Record t := { values : list (str * json); after_id : option Uuid }.
End CreateItemRequest.
Record ListDetail := { list : List.t; columns : Datatypes.list ListColumn.t; views : Datatypes.list ListView.t }.
Record ConversionCounts := { counted_converted : Z; counted_cleared : Z }.

Section service.
Context `{UuidText} `{JsonText} `{CalendarDate} `{CaseFolding} `{FloatText} `{PgText}.
Context (entry_id : str -> Datatypes.list (str * str * Frames.Event) -> str) (draw : ApiDb -> Uuid) (now : Z).
(** The identifiers drawn for the choices of the columns of a request. *)
Context (fresh : nat -> nat -> Uuid).
(** How times are written in JSON. *)
Context (show_time : Z -> str).

Definition sync_due (only_list : option Uuid) : Svc ApiDb unit := sync_list_due entry_id draw now only_list.

Definition list_not_found : AppError := NotFound ($"List not found").

(** ** JSON of the rows *)

Definition list_json (l : List.t) : json := JObject [
  uuid_field "id" (List.id l); uuid_field "workspace_id" (List.workspace_id l); ($"channel_id", uuid_opt (List.channel_id l));
  ($"title", JString (List.title l)); ($"description", JString (List.description l));
  uuid_field "created_by" (List.created_by l); ($"created_at", time_json show_time (List.created_at l));
  ($"updated_at", time_json show_time (List.updated_at l))].

Definition kind_json (k : ColumnKind) : json := JString match k with
  | Text => $"text" | Number => $"number" | Select => $"select" | MultiSelect => $"multi_select"
  | Person => $"person" | Date => $"date" | Checkbox => $"checkbox" | Link => $"link" end.
Definition color_json (c : ChoiceColor) : json := JString match c with
  | Gray => $"gray" | Red => $"red" | Orange => $"orange" | Yellow => $"yellow" | Green => $"green"
  | Blue => $"blue" | Purple => $"purple" | Pink => $"pink" end.
Definition format_json (f : NumberFormat) : json := JObject (
  [($"style", JString match style f with Plain => $"plain" | Percent => $"percent" | Currency => $"currency" end);
   ($"decimals", int_json (decimals f))] ++
  match currency f with Some c => [($"currency", JString c)] | None => [] end).
Definition options_json (o : ColumnOptions) : json := JObject (
  match choices o with
  | [] => []
  | cs => [($"choices", JArray ((fun c => JObject [uuid_field "id" (Choice.id c); ($"label", JString (Choice.label c));
             ($"color", color_json (Choice.color c))]) <$> cs))]
  end ++ match number o with Some f => [($"number", format_json f)] | None => [] end).
Definition column_json (c : ListColumn.t) : json := JObject [
  uuid_field "id" (ListColumn.id c); uuid_field "list_id" (ListColumn.list_id c);
  ($"position", int_json (ListColumn.position c)); ($"name", JString (ListColumn.name c));
  ($"kind", kind_json (ListColumn.kind c)); ($"options", options_json (ListColumn.options c));
  ($"hidden", JBool (ListColumn.hidden c)); ($"due", JBool (ListColumn.due c))].

Definition op_json (o : FilterOp) : json := JString match o with
  | Contains => $"contains" | Is => $"is" | IsNot => $"is_not" | ListViews.Lt => $"lt" | ListViews.Gt => $"gt"
  | ThisWeek => $"this_week" | Overdue => $"overdue" | IsEmpty => $"empty" | NotEmpty => $"not_empty"
  | Checked => $"checked" | Unchecked => $"unchecked" end.
Definition config_json (c : ViewConfig.t) : json := JObject (
  match ViewConfig.group_by c with Some u => [uuid_field "group_by" u] | None => [] end ++
  [($"sort", JArray ((fun s => JObject [uuid_field "column_id" (SortRule.column_id s);
     ($"direction", JString match SortRule.direction s with Asc => $"asc" | Desc => $"desc" end)]) <$> ViewConfig.sort c));
   ($"filters", JArray ((fun r => JObject ([uuid_field "column_id" (FilterRule.column_id r); ($"op", op_json (FilterRule.op r))] ++
     (if is_null (FilterRule.value r) then [] else [($"value", FilterRule.value r)]))) <$> ViewConfig.filters c))]).
Definition view_json (v : ListView.t) : json := JObject [
  uuid_field "id" (ListView.id v); uuid_field "list_id" (ListView.list_id v); ($"position", int_json (ListView.position v));
  ($"name", JString (ListView.name v));
  ($"kind", JString match ListView.kind v with Table => $"table" | Board => $"board" end);
  ($"config", config_json (ListView.config v)); uuid_field "created_by" (ListView.created_by v);
  ($"created_at", time_json show_time (ListView.created_at v)); ($"updated_at", time_json show_time (ListView.updated_at v))].

Definition item_json (i : ListItem.t) : json := JObject [
  uuid_field "id" (ListItem.id i); uuid_field "list_id" (ListItem.list_id i); ($"rank", JString (ListItem.rank i));
  ($"values", ListItem.values i); ($"comment_count", int_json (ListItem.comment_count i));
  uuid_field "created_by" (ListItem.created_by i); ($"created_at", time_json show_time (ListItem.created_at i));
  ($"updated_at", time_json show_time (ListItem.updated_at i))].
Definition comment_json (c : ListComment.t) : json := JObject [
  uuid_field "id" (ListComment.id c); uuid_field "item_id" (ListComment.item_id c);
  uuid_field "list_id" (ListComment.list_id c); uuid_field "user_id" (ListComment.user_id c);
  ($"content", JString (ListComment.content c)); ($"created_at", time_json show_time (ListComment.created_at c));
  ($"edited_at", match ListComment.edited_at c with Some t => time_json show_time t | None => JNull end)].

(** ** Who may *)

Definition authorize (user_id : Uuid) (l : List.t) (write : bool) : Api unit :=
  match List.channel_id l with
  | Some channel_id =>
      if write then _ ←? require_channel_post channel_id user_id; mret (Ok tt)
      else _ ←? require_channel_access channel_id user_id; mret (Ok tt)
  | None =>
      _ ←? require_workspace_member (List.workspace_id l) user_id;
      if bool_decide (List.created_by l = user_id) then mret (Ok tt) else mret (Err list_not_found)
  end.

(** A query of the tables of lists. *)
Definition list_query {A} (q : ListTables -> A) : Api A := query (fun t => q (list_tables t)).

Definition service_find (list_id : Uuid) : Api List.t :=
  l ←? list_query (find_list list_id);
  require list_not_found l.

Definition readable (user_id list_id : Uuid) : Api List.t :=
  l ←? service_find list_id;
  _ ←? authorize user_id l false;
  mret (Ok l).

Definition writable (user_id list_id : Uuid) : Api List.t :=
  l ←? service_find list_id;
  _ ←? authorize user_id l true;
  mret (Ok l).

(** ** Statements of a transaction *)

Definition list_read {A} (q : ListTables -> A) : Tx ApiDb A := read (fun t => q (list_tables t)).
Definition list_run (f : ListTables -> ListTables) : Tx ApiDb unit := run (set_list_tables f).

(** A primary key that is taken refuses the insertion. *)
Definition insert_drawn {A B} (table : ListTables -> gmap Uuid A) (row : Uuid -> ListTables -> B)
    (insert : B -> ListTables -> ListTables) : Tx ApiDb B :=
  id ← drawn draw;
  taken ← list_read (fun t => bool_decide (is_Some (table t !! id)));
  if taken : bool then tx_fail (Database ($"duplicate key value violates unique constraint"))
  else
    b ← list_read (row id);
    _ ← list_run (insert b);
    mret b.

Definition person_exists (u : Uuid) : Tx ApiDb unit :=
  there ← read (fun t => bool_decide (is_Some (users t !! u)));
  if there : bool then mret tt else foreign_key.

Definition lock (list_id : Uuid) : Tx ApiDb List.t :=
  l ← list_read (find_list list_id);
  tx_require list_not_found l.
Definition share_lock (list_id : Uuid) : Tx ApiDb unit :=
  l ← list_read (find_list list_id);
  match l with Some _ => mret tt | None => tx_fail list_not_found end.

(** [stage]: the fields of the event over those of every event of a list. *)
Definition extend (m n : Datatypes.list (str * json)) : Datatypes.list (str * json) :=
  foldl (fun m p => assoc_insert p.1 p.2 m) m n.
Definition list_fields (l : List.t) : Datatypes.list (str * json) := [
  uuid_field "list_id" (List.id l); uuid_field "workspace_id" (List.workspace_id l);
  ($"channel_id", uuid_opt (List.channel_id l)); uuid_field "owner_id" (List.created_by l)].
Definition stage_list (l : List.t) (event_type : string) (fields : Datatypes.list (str * json)) : Tx ApiDb Staged :=
  stage_in draw now event_type (List.workspace_id l) (JObject (extend (list_fields l) fields)).

(** ** Lists *)

Fixpoint resolve_columns_from (n : nat) (cs : Datatypes.list NewColumn.t)
    : AppResult (Datatypes.list (str * (ColumnKind * ColumnOptions))) :=
  match cs with
  | [] => Ok []
  | c :: cs =>
      name ← clean_column_name (NewColumn.name c);
      options ← resolve_options (fresh n) (NewColumn.options c) (NewColumn.kind c);
      rest ← resolve_columns_from (S n) cs;
      Ok ((name, (NewColumn.kind c, options)) :: rest)
  end.
Definition resolve_columns (cs : Datatypes.list NewColumn.t) : AppResult (Datatypes.list (str * (ColumnKind * ColumnOptions))) :=
  if (MAX_COLUMNS <? length cs)%nat then invalid ($"A list can have at most 30 columns") else resolve_columns_from 0 cs.

Definition insert_column_in (list_id : Uuid) (name : str) (kind : ColumnKind) (options : ColumnOptions) : Tx ApiDb ListColumn.t :=
  insert_drawn list_columns (fun id => new_column list_id id name kind options) insert_column.

Definition insert_view_in (list_id : Uuid) (name : str) (kind : ViewKind) (config : ViewConfig.t) (user_id : Uuid)
    : Tx ApiDb ListView.t :=
  _ ← person_exists user_id;
  insert_drawn list_views (fun id => new_view now list_id id name kind config user_id) insert_view.

Definition insert_list_in (ws : Uuid) (channel_id : option Uuid) (title description : str) (user_id : Uuid) : Tx ApiDb List.t :=
  there ← read (fun t => bool_decide (is_Some (workspaces t !! ws)) &&
                         match channel_id with Some ch => bool_decide (is_Some (channels t !! ch)) | None => true end);
  if negb there then foreign_key
  else
    _ ← person_exists user_id;
    insert_drawn lists (fun id _ =>
      {| List.id := id; List.workspace_id := ws; List.channel_id := channel_id; List.title := title;
         List.description := description; List.created_by := user_id; List.created_at := now; List.updated_at := now |})
      insert_list.

(** The transaction of [create]. *)
Definition create_tx (user_id ws : Uuid) (channel_id : option Uuid) (title description : str)
    (cs : Datatypes.list (str * (ColumnKind * ColumnOptions))) : Tx ApiDb (ListDetail * Staged) :=
  l ← insert_list_in ws channel_id title description user_id;
  _ ← tx_each (fun c => insert_column_in (List.id l) c.1 c.2.1 c.2.2) cs;
  columns ← list_read (columns_of (List.id l));
  view ← insert_view_in (List.id l) ($"Table") Table ViewConfig.default_ user_id;
  staged ← stage_list l "list.upserted" [($"list", list_json l)];
  mret ({| list := l; columns := columns; views := [view] |}, staged).

Definition create (user_id ws : Uuid) (req : CreateListRequest.t) : Api ListDetail :=
  title ←? mret (clean_title (CreateListRequest.title req));
  description ←? mret (clean_description (CreateListRequest.description req));
  cs ←? mret (resolve_columns (CreateListRequest.columns req));
  _ ←? match CreateListRequest.channel_id req with
       | Some channel_id =>
           access ←? require_channel_post channel_id user_id;
           if bool_decide (Channel.workspace_id (ChannelAccess.channel access) = ws) then mret (Ok tt)
           else mret (Err (NotFound ($"Channel not found")))
       | None => _ ←? require_workspace_member ws user_id; mret (Ok tt)
       end;
  done_ ←? transaction (create_tx user_id ws (CreateListRequest.channel_id req) title description cs);
  _ ← dispatch entry_id now done_.2;
  mret (Ok done_.1).

Definition update_tx (list_id : Uuid) (req : UpdateListRequest.t) : Tx ApiDb (List.t * Staged) :=
  current ← lock list_id;
  title ← tx_of match UpdateListRequest.title req with Some t => clean_title t | None => Ok (List.title current) end;
  description ← tx_of match UpdateListRequest.description req with
                      | Some d => clean_description d | None => Ok (List.description current) end;
  _ ← list_run (update_list_row now list_id title description);
  l ← lock list_id;
  staged ← stage_list l "list.upserted" [($"list", list_json l)];
  mret (l, staged).

Definition update (user_id list_id : Uuid) (req : UpdateListRequest.t) : Api List.t :=
  _ ←? writable user_id list_id;
  done_ ←? transaction (update_tx list_id req);
  _ ← dispatch entry_id now done_.2;
  mret (Ok done_.1).

Definition delete_tx (list_id : Uuid) : Tx ApiDb Staged :=
  l ← lock list_id;
  _ ← list_run (soft_delete_list now list_id);
  stage_list l "list.deleted" [].

Definition delete_list (user_id list_id : Uuid) : Api unit :=
  l ←? readable user_id list_id;
  _ ←? match List.channel_id l with
       | Some channel_id =>
           if bool_decide (List.created_by l = user_id) then _ ←? require_channel_post channel_id user_id; mret (Ok tt)
           else channel ←? find_channel channel_id; require_channel_moderator channel user_id
       | None => mret (Ok tt)
       end;
  staged ←? transaction (delete_tx list_id);
  _ ← dispatch entry_id now staged;
  mret (Ok tt).

Definition detail (user_id list_id : Uuid) : Api ListDetail :=
  l ←? readable user_id list_id;
  columns ←? list_query (columns_of (List.id l));
  views ←? list_query (views_of (List.id l));
  mret (Ok {| list := l; columns := columns; views := views |}).

Definition items (user_id list_id : Uuid) : Api (Datatypes.list ListItem.t) :=
  _ ←? readable user_id list_id;
  list_query (items_of list_id).

(** ** Columns *)

Definition columns_changed (l : List.t) (items_rewritten : bool) : Tx ApiDb (Datatypes.list ListColumn.t * Staged) :=
  columns ← list_read (columns_of (List.id l));
  staged ← stage_list l "list.columns_changed"
    [($"columns", JArray (column_json <$> columns)); ($"items_rewritten", JBool items_rewritten)];
  mret (columns, staged).

Definition views_changed (l : List.t) : Tx ApiDb (Datatypes.list ListView.t * Staged) :=
  views ← list_read (views_of (List.id l));
  staged ← stage_list l "list.views_changed" [($"views", JArray (view_json <$> views))];
  mret (views, staged).

(** The loop of [prune_views] over the views: whether it changed one. *)
Fixpoint prune_each (columns : Datatypes.list ListColumn.t) (views : Datatypes.list ListView.t) (pruned_ : bool) : Tx ApiDb bool :=
  match views with
  | [] => mret pruned_
  | v :: views =>
      let config := pruned (ListView.config v) (ListView.kind v) columns in
      if ViewConfig.eqb config (ListView.config v) then prune_each columns views pruned_
      else
        _ ← list_run (update_view_in now (ListView.id v) (ListView.name v) (ListView.kind v) config);
        prune_each columns views true
  end.
Definition prune_views (l : List.t) (columns : Datatypes.list ListColumn.t) : Tx ApiDb (option Staged) :=
  views ← list_read (views_of (List.id l));
  pruned_ ← prune_each columns views false;
  if pruned_ : bool then changed ← views_changed l; mret (Some changed.2) else mret None.

(** Identifiers given each once, and exactly those there are: both lists sorted
    and compared. *)
Definition names_each_once (order existing : Datatypes.list Uuid) : bool :=
  let given := dedup (merge_sort N.le order) in
  bool_decide (length given = length order) && bool_decide (given = merge_sort N.le existing).

Definition column_place (column_id : Uuid) : Api Uuid :=
  l ←? list_query (column_list column_id);
  require (NotFound ($"Column not found")) l.
Definition column_of (columns : Datatypes.list ListColumn.t) (column_id : Uuid) : AppResult ListColumn.t :=
  ok_or (NotFound ($"Column not found")) (find_column columns column_id).

Definition add_column_tx (list_id : Uuid) (name : str) (kind : ColumnKind) (options : ColumnOptions)
    : Tx ApiDb (ListColumn.t * Staged) :=
  l ← lock list_id;
  there ← list_read (columns_of list_id);
  if (MAX_COLUMNS <=? length there)%nat then tx_fail (Validation ($"A list can have at most 30 columns"))
  else
    column ← insert_column_in list_id name kind options;
    changed ← columns_changed l false;
    mret (column, changed.2).

Definition add_column (user_id list_id : Uuid) (req : NewColumn.t) : Api ListColumn.t :=
  _ ←? writable user_id list_id;
  name ←? mret (clean_column_name (NewColumn.name req));
  options ←? mret (resolve_options (fresh 0) (NewColumn.options req) (NewColumn.kind req));
  done_ ←? transaction (add_column_tx list_id name (NewColumn.kind req) options);
  _ ← dispatch entry_id now done_.2;
  mret (Ok done_.1).

Record Conversion := { conversion_cells : Datatypes.list (str * json); converted : Z; cleared : Z }.
Definition no_conversion : Conversion := {| conversion_cells := []; converted := 0; cleared := 0 |}.

(** One cell of the loop of [convert_cells]. *)
Definition convert_cell (from to : ColumnKind * ColumnOptions) (c : Conversion) (cell : Uuid * json) : Conversion :=
  match convert from to cell.2 with
  | Some next =>
      {| conversion_cells := if json_eqb next cell.2 then conversion_cells c
                             else assoc_insert (uuid_to_string cell.1) next (conversion_cells c);
         converted := converted c + 1; cleared := cleared c |}
  | None => {| conversion_cells := assoc_insert (uuid_to_string cell.1) JNull (conversion_cells c);
               converted := converted c; cleared := cleared c + 1 |}
  end.

Definition convert_cells (column : ListColumn.t) (kind : ColumnKind) (options : ColumnOptions) (t : ListTables) : Conversion :=
  if bool_decide (kind = ListColumn.kind column) && bool_decide (options = ListColumn.options column) then no_conversion
  else foldl (convert_cell (ListColumn.kind column, ListColumn.options column) (kind, options)) no_conversion
         (cells_in (ListColumn.list_id column) (ListColumn.id column) t).

Definition preview_column (user_id column_id : Uuid) (req : ColumnChangePreview.t) : Api ConversionCounts :=
  list_id ←? column_place column_id;
  _ ←? writable user_id list_id;
  options ←? mret (resolve_options (fresh 0) (ColumnChangePreview.options req) (ColumnChangePreview.kind req));
  columns ←? list_query (columns_of list_id);
  column ←? mret (column_of columns column_id);
  conversion ←? list_query (convert_cells column (ColumnChangePreview.kind req) options);
  mret (Ok {| counted_converted := converted conversion; counted_cleared := cleared conversion |}).

Definition clears_message (n : Z) : str :=
  $"This change clears " ++ show_Z n ++ $" " ++ (if n =? 1 then $"cell" else $"cells").

(** What an update makes of the kind, the options and the due mark of a column. *)
Definition updated_kind (column : ListColumn.t) (req : UpdateColumnRequest.t) : ColumnKind :=
  default (ListColumn.kind column) (UpdateColumnRequest.kind req).
Definition updated_options (column : ListColumn.t) (req : UpdateColumnRequest.t) : AppResult ColumnOptions :=
  resolve_options (fresh 0)
    (default (options_input (ListColumn.options column)) (UpdateColumnRequest.options req)) (updated_kind column req).
Definition updated_due (column : ListColumn.t) (req : UpdateColumnRequest.t) : AppResult bool :=
  let kind := updated_kind column req in
  match UpdateColumnRequest.due req with
  | Some true => if bool_decide (kind = Date) then Ok true else invalid ($"Only a date column can be the due date")
  | Some false => Ok false
  | None => Ok (ListColumn.due column && bool_decide (kind = Date))
  end.

Definition update_column_tx (list_id column_id : Uuid) (req : UpdateColumnRequest.t)
    : Tx ApiDb (Datatypes.list ListColumn.t * Staged * option Staged) :=
  l ← lock list_id;
  columns ← list_read (columns_of list_id);
  column ← tx_of (column_of columns column_id);
  name ← tx_of match UpdateColumnRequest.name req with
               | Some name => clean_column_name name | None => Ok (ListColumn.name column) end;
  options ← tx_of (updated_options column req);
  due ← tx_of (updated_due column req);
  conversion ← list_read (convert_cells column (updated_kind column req) options);
  if (0 <? cleared conversion) && negb (bool_decide (UpdateColumnRequest.confirm_cleared req = Some (cleared conversion)))
  then tx_fail (Conflict (clears_message (cleared conversion)))
  else
    _ ← list_run (update_column_in column_id name (updated_kind column req) options
                    (default (ListColumn.hidden column) (UpdateColumnRequest.hidden req)) due);
    let rewritten := negb (bool_decide (conversion_cells conversion = [])) in
    _ ← (if rewritten then list_run (rewrite_cells_in list_id column_id (conversion_cells conversion)) else mret tt);
    changed ← columns_changed l rewritten;
    pruned_ ← prune_views l changed.1;
    mret (changed, pruned_).

Definition dispatch_opt (s : option Staged) : Svc ApiDb unit :=
  match s with Some s => dispatch entry_id now s | None => mret tt end.

Definition update_column (user_id column_id : Uuid) (req : UpdateColumnRequest.t) : Api ListColumn.t :=
  list_id ←? column_place column_id;
  _ ←? writable user_id list_id;
  done_ ←? transaction (update_column_tx list_id column_id req);
  _ ← dispatch entry_id now done_.1.2;
  _ ← dispatch_opt done_.2;
  _ ← sync_due (Some list_id);
  mret (column_of done_.1.1 column_id).

Definition delete_column_tx (list_id column_id : Uuid) : Tx ApiDb (Staged * option Staged) :=
  l ← lock list_id;
  _ ← list_run (delete_column_in list_id column_id);
  changed ← columns_changed l true;
  pruned_ ← prune_views l changed.1;
  mret (changed.2, pruned_).

Definition delete_column (user_id column_id : Uuid) : Api unit :=
  list_id ←? column_place column_id;
  _ ←? writable user_id list_id;
  done_ ←? transaction (delete_column_tx list_id column_id);
  _ ← dispatch entry_id now done_.1;
  _ ← dispatch_opt done_.2;
  _ ← sync_due (Some list_id);
  mret (Ok tt).

Definition reorder_columns_tx (list_id : Uuid) (order : Datatypes.list Uuid) : Tx ApiDb (Datatypes.list ListColumn.t * Staged) :=
  l ← lock list_id;
  current ← list_read (columns_of list_id);
  if negb (names_each_once order (ListColumn.id <$> current))
  then tx_fail (Validation ($"Name every column of the list exactly once"))
  else
    _ ← list_run (reorder_columns_in list_id order);
    columns_changed l false.

Definition reorder_columns (user_id list_id : Uuid) (order : Datatypes.list Uuid) : Api (Datatypes.list ListColumn.t) :=
  _ ←? writable user_id list_id;
  done_ ←? transaction (reorder_columns_tx list_id order);
  _ ← dispatch entry_id now done_.2;
  mret (Ok done_.1).

(** ** Views *)

Definition view_place (view_id : Uuid) : Api Uuid :=
  l ←? list_query (view_list view_id);
  require (NotFound ($"View not found")) l.
Definition view_of (views : Datatypes.list ListView.t) (view_id : Uuid) : AppResult ListView.t :=
  ok_or (NotFound ($"View not found")) (find (fun v => bool_decide (ListView.id v = view_id)) views).

Definition create_view_tx (user_id list_id : Uuid) (name : str) (req : CreateViewRequest.t) : Tx ApiDb (ListView.t * Staged) :=
  l ← lock list_id;
  there ← list_read (views_of list_id);
  if (MAX_VIEWS <=? length there)%nat then tx_fail (Validation ($"A list can have at most 20 views"))
  else
    columns ← list_read (columns_of list_id);
    config ← tx_of (check_config (CreateViewRequest.config req) (CreateViewRequest.kind req) columns);
    view ← insert_view_in list_id name (CreateViewRequest.kind req) config user_id;
    changed ← views_changed l;
    mret (view, changed.2).

Definition create_view (user_id list_id : Uuid) (req : CreateViewRequest.t) : Api ListView.t :=
  _ ←? writable user_id list_id;
  name ←? mret (clean_view_name (CreateViewRequest.name req));
  done_ ←? transaction (create_view_tx user_id list_id name req);
  _ ← dispatch entry_id now done_.2;
  mret (Ok done_.1).

Definition update_view_tx (list_id view_id : Uuid) (req : UpdateViewRequest.t) : Tx ApiDb (Datatypes.list ListView.t * Staged) :=
  l ← lock list_id;
  views ← list_read (views_of list_id);
  view ← tx_of (view_of views view_id);
  name ← tx_of match UpdateViewRequest.name req with Some name => clean_view_name name | None => Ok (ListView.name view) end;
  let kind := default (ListView.kind view) (UpdateViewRequest.kind req) in
  columns ← list_read (columns_of list_id);
  config ← tx_of match UpdateViewRequest.config req with
                 | Some config => check_config config kind columns
                 | None => Ok (pruned (ListView.config view) kind columns)
                 end;
  _ ← list_run (update_view_in now view_id name kind config);
  views_changed l.

Definition update_view (user_id view_id : Uuid) (req : UpdateViewRequest.t) : Api ListView.t :=
  list_id ←? view_place view_id;
  _ ←? writable user_id list_id;
  done_ ←? transaction (update_view_tx list_id view_id req);
  _ ← dispatch entry_id now done_.2;
  mret (view_of done_.1 view_id).

Definition delete_view_tx (list_id view_id : Uuid) : Tx ApiDb Staged :=
  l ← lock list_id;
  views ← list_read (views_of list_id);
  _ ← tx_of (view_of views view_id);
  if bool_decide (length views = 1%nat) then tx_fail (Validation ($"A list keeps at least one view"))
  else
    _ ← list_run (delete_view_in view_id);
    changed ← views_changed l;
    mret changed.2.

Definition delete_view (user_id view_id : Uuid) : Api unit :=
  list_id ←? view_place view_id;
  _ ←? writable user_id list_id;
  staged ←? transaction (delete_view_tx list_id view_id);
  _ ← dispatch entry_id now staged;
  mret (Ok tt).

Definition reorder_views_tx (list_id : Uuid) (order : Datatypes.list Uuid) : Tx ApiDb (Datatypes.list ListView.t * Staged) :=
  l ← lock list_id;
  current ← list_read (views_of list_id);
  if negb (names_each_once order (ListView.id <$> current))
  then tx_fail (Validation ($"Name every view of the list exactly once"))
  else
    _ ← list_run (reorder_views_in list_id order);
    views_changed l.

Definition reorder_views (user_id list_id : Uuid) (order : Datatypes.list Uuid) : Api (Datatypes.list ListView.t) :=
  _ ←? writable user_id list_id;
  done_ ←? transaction (reorder_views_tx list_id order);
  _ ← dispatch entry_id now done_.2;
  mret (Ok done_.1).

(** ** Items *)

Record Edit := { edit_set : Datatypes.list (str * json); edit_clear : Datatypes.list str; edit_people : Datatypes.list Uuid }.

(** What a request writes into an item: the cells it sets and those it clears. *)
Fixpoint validate_from (columns : Datatypes.list ListColumn.t) (values : Datatypes.list (str * json)) (e : Edit) : AppResult Edit :=
  match values with
  | [] => Ok e
  | (key, value) :: values =>
      match uuid_parse key ≫= find_column columns with
      | None => invalid ($"That column is not in this list")
      | Some column =>
          let k := uuid_to_string (ListColumn.id column) in
          match normalize (ListColumn.kind column) (ListColumn.options column) value with
          | Ok (Set_ value) =>
              validate_from columns values
                {| edit_set := assoc_insert k value (edit_set e); edit_clear := edit_clear e;
                   edit_people := edit_people e ++ match person_of (ListColumn.kind column) value with
                                                    | Some person => [person] | None => [] end |}
          | Ok Clear =>
              validate_from columns values
                {| edit_set := edit_set e; edit_clear := edit_clear e ++ [k]; edit_people := edit_people e |}
          | Err problem => invalid (ListColumn.name column ++ $" " ++ problem)
          end
      end
  end.
Definition validate (columns : Datatypes.list ListColumn.t) (values : Datatypes.list (str * json)) : AppResult Edit :=
  validate_from columns values {| edit_set := []; edit_clear := []; edit_people := [] |}.

Definition item_title (columns : Datatypes.list ListColumn.t) (values : json) : str :=
  let title :=
    column ← head (filter (fun c => ListColumn.kind c = Text) columns);
    text ← get_str (uuid_to_string (ListColumn.id column)) values;
    if bool_decide (trim text = []) then None else Some (trim text) in
  default ($"Untitled") title.

(** The people an edit newly gives an item to. *)
Fixpoint assignees_from (columns : Datatypes.list ListColumn.t) (before : json) (set_ : Datatypes.list (str * json)) (actor : Uuid)
    (people : Datatypes.list Uuid) : Datatypes.list Uuid :=
  match columns with
  | [] => people
  | column :: columns =>
      let key := uuid_to_string (ListColumn.id column) in
      let people :=
        match assoc key set_ with
        | None => people
        | Some value =>
            if match get key before with Some old => json_eqb old value | None => false end then people
            else match person_of (ListColumn.kind column) value with
                 | Some person =>
                     if bool_decide (person = actor) || bool_decide (person ∈ people) then people else people ++ [person]
                 | None => people
                 end
        end in
      assignees_from columns before set_ actor people
  end.
Definition assignees (columns : Datatypes.list ListColumn.t) (before : json) (set_ : Datatypes.list (str * json)) (actor : Uuid)
    : Datatypes.list Uuid :=
  assignees_from (filter (fun c => ListColumn.kind c = Person) columns) before set_ actor [].

Definition stage_assigned (l : List.t) (columns : Datatypes.list ListColumn.t) (item : ListItem.t)
    (people : Datatypes.list Uuid) (actor : Uuid) : Tx ApiDb (Datatypes.list Staged) :=
  match people with
  | [] => mret []
  | _ =>
      s ← stage_list l "list.assigned"
        [uuid_field "item_id" (ListItem.id item);
         ($"assignee_ids", JArray (uuid_string <$> people)); uuid_field "actor_id" actor;
         ($"item_title", JString (item_title columns (ListItem.values item))); ($"list_title", JString (List.title l))];
      mret [s]
  end.

(** Everybody named sits in the channel of the list, or in its workspace. *)
Definition check_people (l : List.t) (people : Datatypes.list Uuid) : Tx ApiDb unit :=
  match people with
  | [] => mret tt
  | _ =>
      there ← read (fun t => match List.channel_id l with
        | Some ch => forallb (fun u => bool_decide (is_Some (channel_members t !! (ch, u)))) people
        | None => forallb (fun u => bool_decide (is_Some (workspace_members t !! (List.workspace_id l, u)))) people
        end);
      if there : bool then mret tt
      else tx_fail (Validation ($"A person must be a member of the list's conversation"))
  end.

Record ItemWrite := { written : ListItem.t; item_staged : Datatypes.list Staged; due_changed : bool }.

Definition announce (w : ItemWrite) : Svc ApiDb unit :=
  _ ← dispatch_all entry_id now (item_staged w);
  if due_changed w then sync_due (Some (ListItem.list_id (written w))) else mret tt.

Definition item_upserted (l : List.t) (item : ListItem.t) : Tx ApiDb Staged :=
  stage_list l "list.item_upserted" [($"item", item_json item)].

(** The rank of a new item: after the given one, or last. *)
Definition new_rank (list_id : Uuid) (after_id : option Uuid) : Tx ApiDb str :=
  match after_id with
  | Some after =>
      found ← list_read (neighbours_in list_id (Some after) None);
      neighbours ← tx_require (Validation ($"That item is not in this list")) found;
      mret (between neighbours.1 neighbours.2)
  | None =>
      last ← list_read (last_rank_in list_id);
      mret (between last None)
  end.

Definition create_item_in (user_id list_id : Uuid) (values : Datatypes.list (str * json)) (after_id : option Uuid) : Tx ApiDb ItemWrite :=
  l ← lock list_id;
  columns ← list_read (columns_of list_id);
  edit ← tx_of (validate columns values);
  _ ← check_people l (edit_people edit);
  count ← list_read (item_count_in list_id);
  if MAX_ITEMS <=? count then tx_fail (Validation ($"A list can hold at most 10000 items"))
  else
    rank ← new_rank list_id after_id;
    let people := assignees columns JNull (edit_set edit) user_id in
    _ ← person_exists user_id;
    item ← insert_drawn list_items (fun id _ => new_item now list_id id rank (JObject (edit_set edit)) user_id) insert_item;
    upserted ← item_upserted l item;
    assigned ← stage_assigned l columns item people user_id;
    mret {| written := item; item_staged := upserted :: assigned; due_changed := existsb ListColumn.due columns |}.

Definition create_item (user_id list_id : Uuid) (req : CreateItemRequest.t) : Api ListItem.t :=
  _ ←? writable user_id list_id;
  write ←? transaction (create_item_in user_id list_id (CreateItemRequest.values req) (CreateItemRequest.after_id req));
  _ ← announce write;
  mret (Ok (written write)).

Definition item_not_found : AppError := NotFound ($"Item not found").
Definition item_place (item_id : Uuid) : Api Uuid :=
  l ←? list_query (item_list item_id);
  require item_not_found l.

(** [UPDATE .. WHERE id = $1 AND deleted_at IS NULL RETURNING ..] *)
Definition update_live_item (item_id : Uuid) (f : ListItem.t -> ListItem.t) : Tx ApiDb (option ListItem.t) :=
  there ← list_read (find_item item_id);
  match there with
  | Some i => _ ← list_run (update_item_row item_id f); mret (Some (f i))
  | None => mret None
  end.

Definition update_item_in (user_id : Uuid) (l : List.t) (item_id : Uuid) (values : Datatypes.list (str * json)) : Tx ApiDb ItemWrite :=
  _ ← share_lock (List.id l);
  columns ← list_read (columns_of (List.id l));
  edit ← tx_of (validate columns values);
  _ ← check_people l (edit_people edit);
  found ← list_read (find_item item_id);
  before ← tx_require item_not_found found;
  let people := assignees columns (ListItem.values before) (edit_set edit) user_id in
  merged ← update_live_item item_id (merge_item now (JObject (edit_set edit)) (edit_clear edit));
  item ← tx_require item_not_found merged;
  upserted ← item_upserted l item;
  assigned ← stage_assigned l columns item people user_id;
  mret {| written := item; item_staged := upserted :: assigned; due_changed := existsb ListColumn.due columns |}.

Definition update_item (user_id item_id : Uuid) (values : Datatypes.list (str * json)) : Api ListItem.t :=
  list_id ←? item_place item_id;
  l ←? writable user_id list_id;
  write ←? transaction (update_item_in user_id l item_id values);
  _ ← announce write;
  mret (Ok (written write)).

(** The row is moved whether it was deleted meanwhile or not. *)
Definition move_item_in (item_id : Uuid) (rank : str) : Tx ApiDb ListItem.t :=
  row ← list_read (fun t => list_items t !! item_id);
  match row with
  | Some (i, _) => _ ← list_run (update_item_row item_id (Item.set_rank rank now)); mret (Item.set_rank rank now i)
  | None => tx_fail row_not_found
  end.

Definition move_item_tx (list_id item_id : Uuid) (after_id : option Uuid) : Tx ApiDb (ListItem.t * Staged) :=
  l ← lock list_id;
  found ← list_read (neighbours_in list_id after_id (Some item_id));
  neighbours ← tx_require (Validation ($"That item is not in this list")) found;
  item ← move_item_in item_id (between neighbours.1 neighbours.2);
  staged ← item_upserted l item;
  mret (item, staged).

Definition move_item (user_id item_id : Uuid) (after_id : option Uuid) : Api ListItem.t :=
  if bool_decide (after_id = Some item_id) then mret (invalid ($"An item cannot follow itself"))
  else
    list_id ←? item_place item_id;
    _ ←? writable user_id list_id;
    done_ ←? transaction (move_item_tx list_id item_id after_id);
    _ ← dispatch entry_id now done_.2;
    mret (Ok done_.1).

Definition delete_item_tx (l : List.t) (item_id : Uuid) : Tx ApiDb Staged :=
  _ ← share_lock (List.id l);
  there ← list_read (find_item item_id);
  match there with
  | None => tx_fail item_not_found
  | Some _ =>
      _ ← list_run (delete_item_row now item_id);
      stage_list l "list.item_deleted" [uuid_field "item_id" item_id]
  end.

Definition delete_item (user_id item_id : Uuid) : Api unit :=
  list_id ←? item_place item_id;
  l ←? writable user_id list_id;
  staged ←? transaction (delete_item_tx l item_id);
  _ ← dispatch entry_id now staged;
  _ ← sync_due (Some list_id);
  mret (Ok tt).

Definition check_off (user_id item_id : Uuid) : Api unit :=
  found ←? list_query (item_list item_id);
  match found with
  | None => mret (Ok tt)
  | Some list_id =>
      access ← writable user_id list_id;
      match access with
      | Err (Forbidden _ | NotFound _) => mret (Ok tt)
      | Err e => mret (Err e)
      | Ok _ =>
          columns ←? list_query (columns_of list_id);
          match head (filter (fun c => ListColumn.kind c = Checkbox) columns) with
          | None => mret (Ok tt)
          | Some box =>
              _ ←? update_item user_id item_id [(uuid_to_string (ListColumn.id box), JBool true)];
              mret (Ok tt)
          end
      end
  end.

(** ** Comments *)

Definition comment_not_found : AppError := NotFound ($"Comment not found").
Definition service_find_comment (comment_id : Uuid) : Api ListComment.t :=
  c ←? list_query (find_comment comment_id);
  require comment_not_found c.

Definition comments (user_id item_id : Uuid) : Api (Datatypes.list ListComment.t) :=
  list_id ←? item_place item_id;
  _ ←? readable user_id list_id;
  list_query (comments_of item_id).

Definition comment_counted (l : List.t) (item_id : Uuid) (delta : Z) : Tx ApiDb (ListItem.t * Staged) :=
  counted ← update_live_item item_id (count_comments delta);
  item ← tx_require item_not_found counted;
  staged ← item_upserted l item;
  mret (item, staged).

Definition insert_comment_in (item : ListItem.t) (user_id : Uuid) (content : str) : Tx ApiDb ListComment.t :=
  _ ← person_exists user_id;
  insert_drawn list_item_comments (fun id _ =>
    {| ListComment.id := id; ListComment.item_id := ListItem.id item; ListComment.list_id := ListItem.list_id item;
       ListComment.user_id := user_id; ListComment.content := content; ListComment.created_at := now;
       ListComment.edited_at := None |}) insert_comment.

Definition add_comment_tx (user_id : Uuid) (l : List.t) (item_id : Uuid) (content : str) : Tx ApiDb (ListComment.t * Staged * Staged) :=
  _ ← share_lock (List.id l);
  counted ← comment_counted l item_id 1;
  comment ← insert_comment_in counted.1 user_id content;
  columns ← list_read (columns_of (List.id l));
  staged ← stage_list l "list.comment_upserted"
    [uuid_field "item_id" item_id; ($"comment", comment_json comment); uuid_field "author_id" user_id;
     ($"mentioned_user_ids", JArray (uuid_string <$> extract_mentioned_user_ids content));
     ($"item_title", JString (item_title columns (ListItem.values counted.1))); ($"list_title", JString (List.title l))];
  mret (comment, staged, counted.2).

Definition add_comment (user_id item_id : Uuid) (content : str) : Api ListComment.t :=
  content ←? mret (clean_comment content);
  list_id ←? item_place item_id;
  l ←? writable user_id list_id;
  done_ ←? transaction (add_comment_tx user_id l item_id content);
  _ ← dispatch entry_id now done_.1.2;
  _ ← dispatch entry_id now done_.2;
  mret (Ok done_.1.1).

Definition edit_comment_tx (l : List.t) (comment_id : Uuid) (content : str) : Tx ApiDb (ListComment.t * Staged) :=
  _ ← share_lock (List.id l);
  _ ← list_run (edit_comment_row now comment_id content);
  edited ← list_read (find_comment comment_id);
  comment ← tx_require comment_not_found edited;
  staged ← stage_list l "list.comment_upserted" [uuid_field "item_id" (ListComment.item_id comment); ($"comment", comment_json comment)];
  mret (comment, staged).

Definition edit_comment (user_id comment_id : Uuid) (content : str) : Api ListComment.t :=
  content ←? mret (clean_comment content);
  current ←? service_find_comment comment_id;
  l ←? writable user_id (ListComment.list_id current);
  if negb (bool_decide (ListComment.user_id current = user_id)) then refuse ($"Only the author can edit a comment")
  else
    done_ ←? transaction (edit_comment_tx l comment_id content);
    _ ← dispatch entry_id now done_.2;
    mret (Ok done_.1).

Definition delete_comment_tx (l : List.t) (comment : ListComment.t) (comment_id : Uuid) : Tx ApiDb (Staged * option Staged) :=
  _ ← share_lock (List.id l);
  there ← list_read (find_comment comment_id);
  match there with
  | None => tx_fail comment_not_found
  | Some _ =>
      _ ← list_run (delete_comment_row comment_id);
      staged ← stage_list l "list.comment_deleted"
        [uuid_field "item_id" (ListComment.item_id comment); uuid_field "comment_id" comment_id];
      counted ← update_live_item (ListComment.item_id comment) (count_comments (-1));
      match counted with
      | Some item => s ← item_upserted l item; mret (staged, Some s)
      | None => mret (staged, None)
      end
  end.

Definition delete_comment (user_id comment_id : Uuid) : Api unit :=
  comment ←? service_find_comment comment_id;
  l ←? readable user_id (ListComment.list_id comment);
  _ ←? match List.channel_id l with
       | Some channel_id =>
           if bool_decide (ListComment.user_id comment = user_id) then _ ←? writable user_id (List.id l); mret (Ok tt)
           else channel ←? find_channel channel_id; require_channel_moderator channel user_id
       | None => _ ←? writable user_id (List.id l); mret (Ok tt)
       end;
  done_ ←? transaction (delete_comment_tx l comment comment_id);
  _ ← dispatch entry_id now done_.1;
  _ ← dispatch_opt done_.2;
  mret (Ok tt).
End service.
