(* ===== verification/Later.v ===== *)
(** * Later: saved messages and reminders
    ([backend/api/src/later/{routes,reminders,models,repo}.rs])

    The requests of a person over their own rows, and the checker that delivers
    reminders whose time has come.  The checker also closes polls, which are
    not modelled. *)

From stdpp Require Import base tactics option numbers list gmap sorting.
From Stdlib Require Import ZArith Lia String Ascii.
From S2P Require Import Prelude RustStr Json Errors Frames Publisher Lists ListForms ListViews ListStore LaterStore MessageStore ApiState Outbox Tables Authz Membership LaterSync ListService.

Module LaterMessage.
Record t := { id : Uuid; channel_id : Uuid; author_id : Uuid; content : str; attachments : json; sent_at : Z }.
End LaterMessage.
Module LaterListItem.
Record t := { list_id : Uuid; item_id : Uuid; list_title : str }.
End LaterListItem.
Module LaterItem.
Record t := {
  id : Uuid; workspace_id : Uuid; created_by : Uuid; channel_id : option Uuid; status : LaterStatus; text : option str;
  note : option str; remind_at : option Z; reminded_at : option Z; completed_at : option Z; created_at : Z;
  message : option LaterMessage.t; list_item : option LaterListItem.t;
}.
End LaterItem.

Module CreateLaterRequest.
Record t := {
  message_id : option Uuid; text : option str; remind_at : option Z; channel_id : option Uuid; for_user_id : option Uuid;
}.
End CreateLaterRequest.
Module UpdateLaterRequest.
Record t := { status : option LaterStatus; remind_at : option Z; clear_reminder : bool; note : option str }.
End UpdateLaterRequest.

Definition SYNC_DUE_EVERY : Z := 20.
Definition LIST_LIMIT : nat := 500.
#[global] Arguments LIST_LIMIT : simpl never.

Section later.
Context `{UuidText} `{JsonText} `{CalendarDate} `{CaseFolding} `{FloatText} `{PgText}.
Context (entry_id : str -> Datatypes.list (str * str * Frames.Event) -> str) (draw : ApiDb -> Uuid) (now : Z) (show_time : Z -> str).
Implicit Types (t : AppTables) (r : LaterRow.t).

(** ** Queries *)

(** [LaterItem::from] of a row and what is joined to it. *)
Definition later_item t r : LaterItem.t :=
  {| LaterItem.id := LaterRow.id r; LaterItem.workspace_id := LaterRow.workspace_id r; LaterItem.created_by := LaterRow.created_by r;
     LaterItem.channel_id := LaterRow.channel_id r; LaterItem.status := status_parse (LaterRow.status r);
     LaterItem.text := LaterRow.text r; LaterItem.note := LaterRow.note r; LaterItem.remind_at := LaterRow.remind_at r;
     LaterItem.reminded_at := LaterRow.reminded_at r; LaterItem.completed_at := LaterRow.completed_at r;
     LaterItem.created_at := LaterRow.created_at r;
     LaterItem.message :=
       id ← LaterRow.message_id r; channel_id ← LaterRow.channel_id r; m ← messages (message_tables t) !! id;
       Some {| LaterMessage.id := id; LaterMessage.channel_id := channel_id; LaterMessage.author_id := Message.user_id m;
               LaterMessage.content := Message.content m; LaterMessage.attachments := default (JArray []) (get ($"attachments") (Message.metadata m));
               LaterMessage.sent_at := Message.created_at m |};
     LaterItem.list_item :=
       item_id ← LaterRow.list_item_id r; i ← list_items (list_tables t) !! item_id;
       l ← lists (list_tables t) !! ListItem.list_id i.1;
       Some {| LaterListItem.list_id := List.id l.1; LaterListItem.item_id := item_id; LaterListItem.list_title := List.title l.1 |} |}.

(** Neither the message nor the item of the list was deleted. *)
Definition shown_later t r : bool :=
  match LaterRow.message_id r with
  | Some m => match messages (message_tables t) !! m with Some m => bool_decide (Message.deleted_at m = None) | None => true end
  | None => true
  end &&
  match LaterRow.list_item_id r with Some i => bool_decide (is_Some (item_list i (list_tables t))) | None => true end.

(** [CASE WHEN .. THEN remind_at END ASC NULLS LAST, updated_at DESC] *)
Definition later_le (in_progress : bool) r s : Prop :=
  match (if in_progress then LaterRow.remind_at r else None), (if in_progress then LaterRow.remind_at s else None) with
  | Some a, Some b => a < b \/ (a = b /\ LaterRow.updated_at s <= LaterRow.updated_at r)
  | Some _, None => True
  | None, Some _ => False
  | None, None => LaterRow.updated_at s <= LaterRow.updated_at r
  end.
#[global] Instance later_le_dec b r s : Decision (later_le b r s).
Proof. unfold later_le. repeat case_match; apply _. Defined.

Definition later_of (u ws : Uuid) (status : str) t : Datatypes.list LaterItem.t :=
  later_item t <$> take LIST_LIMIT (merge_sort (later_le (str_eqb status ($"in_progress")))
    (filter (fun r => LaterRow.user_id r = u /\ LaterRow.workspace_id r = ws /\ LaterRow.status r = status /\ shown_later t r = true)
       (map_to_list (later_items t)).*2)).

(** [ON CONFLICT (user_id, message_id) DO UPDATE]: the row that is there is taken up again. *)
Definition save_message_tx (ws u message channel : Uuid) (remind_at : option Z) : Tx ApiDb Uuid :=
  there ← read (fun t => saved_as u message (later_items t));
  match there with
  | Some r => _ ← run (set_later_items (alter (save_again now remind_at) (LaterRow.id r))); mret (LaterRow.id r)
  | None =>
      r ← insert_later draw (fun id => new_row now id ws u u (Some message) (Some channel) None None remind_at);
      mret (LaterRow.id r)
  end.

Definition create_reminder_tx (n : NewReminder.t) : Tx ApiDb Uuid :=
  r ← insert_later draw (fun id => new_row now id (NewReminder.workspace_id n) (NewReminder.user_id n) (NewReminder.created_by n)
                               None (NewReminder.channel_id n) None (Some (NewReminder.text n)) (Some (NewReminder.remind_at n)));
  mret (LaterRow.id r).

(** A statement that changes the rows of Later. *)
Definition later_run (f : LaterTable -> LaterTable) : Api unit := sql (fun d => (with_app (set_later_items f) d, tt)).

(** ** Requests *)

Definition list_later (auth : AuthUser.t) (ws : Uuid) (status : option LaterStatus) : Api (Datatypes.list LaterItem.t) :=
  _ ←? require_workspace_member ws (AuthUser.user_id auth);
  query (later_of (AuthUser.user_id auth) ws (status_str (default InProgress status))).

(** [validate_reminder_content] *)
Definition valid_reminder (text : str) : AppResult unit :=
  if bool_decide (trim text = []) then invalid ($"Reminder content cannot be empty")
  else if 4000 <? str_len text then invalid ($"Reminder content must be at most 4000 characters")
  else Ok tt.

Definition in_the_future (remind_at : option Z) : AppResult unit :=
  match remind_at with
  | Some at_ => if at_ <=? now then invalid ($"A reminder has to be in the future") else Ok tt
  | None => Ok tt
  end.

Definition message_not_found : AppError := NotFound ($"Message not found").

Definition save_for_later (auth : AuthUser.t) (ws : Uuid) (req : CreateLaterRequest.t) (message_id : Uuid) : Api (Uuid * Uuid) :=
  let user := AuthUser.user_id auth in
  if match CreateLaterRequest.for_user_id req with Some u => negb (bool_decide (u = user)) | None => false end
  then mret (invalid ($"Only your own messages can be saved for later"))
  else
    found ←? query (fun t => messages (message_tables t) !! message_id);
    message ←? require message_not_found (m ← found; if bool_decide (Message.deleted_at m = None) then Some m else None);
    access ←? require_channel_access (Message.channel_id message) user;
    if negb (bool_decide (Channel.workspace_id (ChannelAccess.channel access) = ws)) then mret (Err message_not_found)
    else
      id ←? transaction (save_message_tx ws user message_id (Message.channel_id message) (CreateLaterRequest.remind_at req));
      mret (Ok (id, user)).

Definition remind (auth : AuthUser.t) (ws : Uuid) (member : WorkspaceMember.t) (req : CreateLaterRequest.t) (text : str)
    : Api (Uuid * Uuid) :=
  remind_at ←? mret (ok_or (Validation ($"A reminder needs a time")) (CreateLaterRequest.remind_at req));
  let target := default (AuthUser.user_id auth) (CreateLaterRequest.for_user_id req) in
  _ ←? (if bool_decide (target = AuthUser.user_id auth) then mret (Ok tt)
        else if negb (has_at_least (WorkspaceMember.role member) Admin)
        then refuse ($"Only an admin can set a reminder for somebody else")
        else r ← require_workspace_member ws target;
             match r with Ok _ => mret (Ok tt) | Err _ => refuse ($"That person is not in this workspace") end);
  _ ←? match CreateLaterRequest.channel_id req with
       | Some channel_id =>
           access ←? require_channel_access channel_id target;
           if bool_decide (Channel.workspace_id (ChannelAccess.channel access) = ws) then mret (Ok tt)
           else mret (Err (NotFound ($"Channel not found")))
       | None => mret (Ok tt)
       end;
  id ←? transaction (create_reminder_tx
    {| NewReminder.workspace_id := ws; NewReminder.user_id := target; NewReminder.created_by := AuthUser.user_id auth;
       NewReminder.channel_id := CreateLaterRequest.channel_id req; NewReminder.text := text; NewReminder.remind_at := remind_at |});
  mret (Ok (id, target)).

Definition create_later (auth : AuthUser.t) (ws : Uuid) (req : CreateLaterRequest.t) : Api Uuid :=
  _ ←? mret match CreateLaterRequest.text req with Some text => valid_reminder text | None => Ok tt end;
  member ←? require_workspace_member ws (AuthUser.user_id auth);
  _ ←? mret (in_the_future (CreateLaterRequest.remind_at req));
  made ←? match CreateLaterRequest.message_id req, trim <$> CreateLaterRequest.text req with
          | Some message_id, None => save_for_later auth ws req message_id
          | None, Some (c :: text) => remind auth ws member req (c :: text)
          | _, _ => mret (invalid ($"Save a message, or write what to be reminded of"))
          end;
  _ ← announce_later entry_id draw now made.2 ws;
  mret (Ok made.1).

(** A row of the caller's own. *)
Definition owned (id user_id : Uuid) : Api LaterRow.t :=
  found ←? query (fun t => later_items t !! id);
  require (NotFound ($"Not found")) (r ← found; if bool_decide (LaterRow.user_id r = user_id) then Some r else None).

Definition later_change (req : UpdateLaterRequest.t) : LaterChange.t :=
  let note := trim <$> UpdateLaterRequest.note req in
  {| LaterChange.status := status_str <$> UpdateLaterRequest.status req;
     LaterChange.set_reminder := bool_decide (is_Some (UpdateLaterRequest.remind_at req)) || UpdateLaterRequest.clear_reminder req;
     LaterChange.remind_at := if UpdateLaterRequest.clear_reminder req then None else UpdateLaterRequest.remind_at req;
     LaterChange.set_note := bool_decide (is_Some note);
     LaterChange.note := match note with Some [] => None | note => note end |}.

Definition update_later (auth : AuthUser.t) (id : Uuid) (req : UpdateLaterRequest.t) : Api unit :=
  _ ←? mret match UpdateLaterRequest.note req with
            | Some note => if 1000 <? str_len note then invalid ($"length is greater than 1000") else Ok tt
            | None => Ok tt
            end;
  item ←? owned id (AuthUser.user_id auth);
  _ ←? mret (in_the_future (UpdateLaterRequest.remind_at req));
  _ ←? later_run (alter (update_later_row now (later_change req)) id);
  _ ←? match UpdateLaterRequest.status req, LaterRow.list_item_id item with
       | Some Completed, Some list_item_id => check_off entry_id draw now show_time (AuthUser.user_id auth) list_item_id
       | _, _ => mret (Ok tt)
       end;
  _ ← announce_later entry_id draw now (AuthUser.user_id auth) (LaterRow.workspace_id item);
  mret (Ok tt).

Definition delete_later (auth : AuthUser.t) (id : Uuid) : Api unit :=
  item ←? owned id (AuthUser.user_id auth);
  _ ←? later_run (delete id);
  _ ← announce_later entry_id draw now (AuthUser.user_id auth) (LaterRow.workspace_id item);
  mret (Ok tt).

(** ** The checker *)

Definition is_deliverable r : Svc ApiDb bool :=
  match LaterRow.channel_id r with
  | None => mret true
  | Some channel_id => access ← require_channel_access channel_id (LaterRow.user_id r); mret (is_ok access)
  end.

Definition reminder_payload r : json := JObject [
  uuid_field "user_id" (LaterRow.user_id r); uuid_field "workspace_id" (LaterRow.workspace_id r);
  ($"channel_id", uuid_opt (LaterRow.channel_id r)); ($"message_id", uuid_opt (LaterRow.message_id r));
  uuid_field "later_id" (LaterRow.id r); ($"title", JString ($"Reminder"));
  ($"body", JString (default ($"A message you saved for later") (LaterRow.text r))); ($"kind", JString ($"reminder"))].

Definition deliver r : Svc ApiDb unit :=
  deliverable ← is_deliverable r;
  if negb deliverable then mret tt
  else
    id ← svc_gets draw;
    sent ← publish entry_id now id ($"notification.push") (reminder_payload r);
    match sent with
    | Err _ => _ ← later_run (release (LaterRow.id r)); mret tt
    | Ok _ => announce_later entry_id draw now (LaterRow.user_id r) (LaterRow.workspace_id r)
    end.

(** One turn of the loop of [start_checker]; [locked] are the rows other
    replicas hold. *)
Definition check_round (tick : Z) (locked : gset Uuid) : Svc ApiDb unit :=
  _ ← (if tick mod SYNC_DUE_EVERY =? 0 then sync_list_due entry_id draw now None else mret tt);
  due ← sql (fun d => let '(m, claimed) := claim_due now locked (later_items (app d)) in
                      (with_app (set_later_items (fun _ => m)) d, claimed));
  match due with
  | Ok due => svc_each due deliver
  | Err _ => mret tt
  end.
End later.
