(* ===== verification/MembershipLaws.v ===== *)
(** * What the membership operations guarantee

    The theorems about [Membership]: what an invite can and cannot do, changes
    of role, leaving and coming back, and what leaving tells the gateway. *)

From stdpp Require Import base tactics option numbers list gmap sorting.
From Stdlib Require Import ZArith Lia String Ascii.
From S2P Require Import Prelude RustStr Json Errors Frames Publisher ApiState Outbox AuditLog LaterStore MessageStore Tables Authz Membership ApiLaws.

(** ** Invites *)

Section invites.
#[local] Set Default Proof Using "Type".
Context `{UuidText} (entry_id : str -> list (str * str * Event) -> str) (draw : ApiDb -> Uuid) (now : Z).
Context (show_time : Z -> str) (by_name : list Channel.t -> list Channel.t) (ip : option str).

Lemma get_member_row ws u t m :
  get_member ws u t = Some m ->
  workspace_members t !! (ws, u) = Some (WorkspaceMember.role m, WorkspaceMember.joined_at m) /\ is_Some (users t !! u).
Proof.
  unfold get_member. destruct (workspace_members t !! (ws, u)) as [[r j]|]; [|done].
  destruct (users t !! u); cbn; [|done]. intros [= <-]. eauto.
Qed.

(** What settling in leaves alone. *)
Lemma settle_in_leaves {A} (part : AppTables -> A) ws u :
  (forall f t, part (set_channel_members f t) = part t) -> (forall f t, part (set_conversation_departures f t) = part t) ->
  tx_follows (leaves part) (settle_in draw now by_name ws u).
Proof.
  intros Hcm Hcd.
  assert (Hadd : forall ch r, tx_follows (leaves part) (add_channel_member_tx now ch u r)).
  { intros ch r. unfold add_channel_member_tx, foreign_key. solve_tx_follows. by apply run_leaves. }
  unfold settle_in, stage_workspace_member_joined, join_default_channels, stage_channel_member_joined,
    list_default_channels_tx, restore_conversations_in.
  solve_tx_follows; try (apply run_leaves; auto); apply stage_each_leaves; solve_tx_follows; apply Hadd.
Qed.

Lemma claim_Ok id d i d' :
  claim_invite_use_tx id d = (Ok (Some i), d') ->
  exists old, workspace_invites (app d) !! id = Some old /\ claimable_use old = true /\ i = use_once old /\
    d' = with_app (set_workspace_invites (<[id := use_once old]>)) d.
Proof.
  unfold claim_invite_use_tx. intros Hc. inv_tx.
  destruct (workspace_invites (app d) !! id) as [old|] eqn:E; inv_tx; simplify_eq. eauto.
Qed.

Lemma add_member_Ok ws u role d m d' :
  add_member_tx now ws u role d = (Ok m, d') ->
  d' = with_app (put_member now ws u role) d /\ WorkspaceMember.role m = role.
Proof.
  clear -now. unfold add_member_tx. intros Hc. inv_tx. destruct (get_member ws u _) as [m'|] eqn:E; inv_tx.
  split; [done|]. apply get_member_row in E as [E _]. revert E.
  unfold put_member, set_workspace_members. cbn. destruct (app d). cbn. rewrite lookup_insert_eq. naive_solver.
Qed.

(** What a committed acceptance did to memberships and invites. *)
Lemma accept_tx_Ok invite u d m staged d' :
  accept_tx draw now by_name invite u d = (Ok (m, staged), d') ->
  let ws := WorkspaceInvite.workspace_id invite in
  WorkspaceMember.role m = WorkspaceInvite.role invite /\
  (exists joined, workspace_members (app d') =
     <[(ws, u) := (WorkspaceInvite.role invite, joined)]> (workspace_members (app d)) /\
     forall r j, workspace_members (app d) !! (ws, u) = Some (r, j) -> joined = j) /\
  exists old, workspace_invites (app d) !! WorkspaceInvite.id invite = Some old /\ claimable_use old = true /\
    workspace_invites (app d') = <[WorkspaceInvite.id invite := use_once old]> (workspace_invites (app d)).
Proof.
  unfold accept_tx. intros Ha. apply tx_bind_Ok in Ha as (c & d1 & Hc & Ha). destruct c as [i|]; inv_tx. simplify_eq. cbv zeta.
  apply claim_Ok in Hc as (old & Hold & Hcl & -> & ->).
  match goal with H : add_member_tx _ _ _ _ _ = _ |- _ => apply add_member_Ok in H as [-> Hrole] end.
  match goal with H : settle_in _ _ _ _ _ _ = _ |- _ => rename H into Hs end.
  pose proof (settle_in_leaves workspace_members (WorkspaceInvite.workspace_id invite) u
    ltac:(by intros ? []) ltac:(by intros ? [])
    (with_app (put_member now (WorkspaceInvite.workspace_id invite) u (WorkspaceInvite.role invite))
      (with_app (set_workspace_invites (<[WorkspaceInvite.id invite := use_once old]>)) d))) as Hm.
  pose proof (settle_in_leaves workspace_invites (WorkspaceInvite.workspace_id invite) u
    ltac:(by intros ? []) ltac:(by intros ? [])
    (with_app (put_member now (WorkspaceInvite.workspace_id invite) u (WorkspaceInvite.role invite))
      (with_app (set_workspace_invites (<[WorkspaceInvite.id invite := use_once old]>)) d))) as Hi.
  unfold leaves in Hm, Hi. rewrite Hs in Hm, Hi. cbn in Hm, Hi. split; [done|].
  unfold put_member, set_workspace_members, set_workspace_invites in *. destruct (app d) eqn:E. cbn in *.
  split.
  - eexists. split; [exact Hm|]. intros r j Hj. by rewrite Hj.
  - exists old. split_and!; done.
Qed.

(** ** How often an invite is used *)

(** The invite [k] is the only one with the token, and has been used between
    [n] and [max] times. *)
Definition used (k : Uuid) (token : str) (max n : Z) (d : ApiDb) : Prop :=
  exists i, workspace_invites (app d) !! k = Some i /\ WorkspaceInvite.id i = k /\
    WorkspaceInvite.token i = token /\ WorkspaceInvite.max_uses i = Some max /\
    n <= WorkspaceInvite.use_count i <= max /\
    forall k' j, workspace_invites (app d) !! k' = Some j -> WorkspaceInvite.token j = token -> k' = k.

(** Steps that keep it so: they neither take uses back nor exceed the limit. *)
Definition spends (k : Uuid) (token : str) (max : Z) : relation ApiDb :=
  fun d d' => forall n, used k token max n d -> used k token max n d'.
#[export] Instance spends_preorder k token max : PreOrder (spends k token max).
Proof. unfold spends. split; [by intros d n|]. intros d1 d2 d3 H12 H23 n Hn. auto. Qed.

Lemma spends_app k token max (d d' : ApiDb) : app d' = app d -> spends k token max d d'.
Proof. unfold spends, used. by intros ->. Qed.

Lemma used_weaken k token max n n' d : n' <= n -> used k token max n d -> used k token max n' d.
Proof. intros Hn (i & ? & ? & ? & ? & ? & ?). exists i. split_and!; auto; lia. Qed.

Lemma used_find k token max n d :
  used k token max n d -> exists i, find_invite_by_token token (app d) = Some i /\ WorkspaceInvite.id i = k.
Proof.
  intros (i & Hi & Hid & Ht & _ & _ & Hu). unfold find_invite_by_token.
  set (l := filter _ _). assert (Hin : (k, i) ∈ l).
  { apply list_elem_of_filter. split; [done|]. by apply elem_of_map_to_list. }
  assert (Hall : forall p, p ∈ l -> p = (k, i)).
  { intros [k' j] [Htok Hj]%list_elem_of_filter. apply elem_of_map_to_list in Hj. cbn in Htok.
    pose proof (Hu k' j Hj Htok) as ->. congruence. }
  destruct l as [|p l']; [by apply not_elem_of_nil in Hin|]. exists i. cbn. by rewrite (Hall p (list_elem_of_here _ _)).
Qed.

Lemma accept_tx_used k token max n invite u d m d' :
  WorkspaceInvite.id invite = k -> accept_tx draw now by_name invite u d = (Ok m, d') ->
  used k token max n d -> used k token max (n + 1) d'.
Proof.
  intros Hk Ha (i & Hi & Hid & Ht & Hm & Hn & Hu). destruct m as [m staged].
  apply accept_tx_Ok in Ha as (_ & _ & old & Hold & Hcl & Hd'). unfold used. rewrite Hd'. rewrite Hk in *. simplify_eq.
  unfold claimable_use in Hcl. rewrite Hm in Hcl. apply Z.ltb_lt in Hcl.
  exists (use_once old). rewrite lookup_insert_eq. cbn. split_and!; try done; [lia..|].
  intros k' j. rewrite lookup_insert. case_decide; [done|]. apply Hu.
Qed.

Lemma accept_tx_spends k token max invite u d :
  WorkspaceInvite.id invite = k ->
  spends k token max d (match accept_tx draw now by_name invite u d with (Ok _, d') => d' | (Err _, _) => d end).
Proof.
  intros Hk n Hn. destruct (accept_tx _ _ _ _ _ _) as [[m|e] d'] eqn:E; [|done].
  apply (used_weaken k token max (n + 1)); [lia|]. by eapply accept_tx_used.
Qed.

Definition one_if {B} (r : AppResult B) : Z := if is_ok r then 1 else 0.

Lemma used_stable k token max n : stable (spends k token max) (used k token max n).
Proof. intros d d' Hs. apply Hs. Qed.

Lemma service_accept_triple k token max n u email :
  triple (spends k token max) (used k token max n) (service_accept_invite draw now by_name token u email)
    (fun r d => used k token max (n + one_if r) d).
Proof.
  assert (Hrefl : forall d, used k token max n d -> used k token max (n + 0) d).
  { intros d. rewrite Z.add_0_r. done. }
  unfold service_accept_invite.
  eapply (triple_then _ _ _ _ (fun o d => used k token max n d /\ exists i, o = Some i /\ WorkspaceInvite.id i = k));
    [|intros o|intros e d Hd; by apply Hrefl].
  { unfold query, sql_read, sql. eapply (triple_bind _ _ _ _ (fun r d => match r with
      | Ok o => used k token max n d /\ exists i, o = Some i /\ WorkspaceInvite.id i = k
      | Err _ => used k token max n d end)).
    - apply (triple_call _); [apply used_stable|intros d _; reflexivity| |done].
      intros d Hd. split; [exact Hd|]. exact (used_find k token max n d Hd).
    - intros [o|f]; apply (triple_ret _); intros d Hd; exact Hd. }
  eapply (triple_then _ _ _ _ (fun i d => used k token max n d /\ WorkspaceInvite.id i = k));
    [|intros i|intros e d Hd; exact (Hrefl d (proj1 Hd))].
  { apply (triple_ret _). intros d [Hd (i & -> & Hi)]. by split. }
  destruct (negb (not_expired now i)); [apply (triple_ret _); intros d [Hd _]; by apply Hrefl|].
  destruct (match WorkspaceInvite.email i with Some _ => _ | None => _ end);
    [apply (triple_ret _); intros d [Hd _]; by apply Hrefl|].
  apply (transaction_triple _).
  - intros d d' Hs [Hd Hi]. split; [by apply Hs|done].
  - intros d a d' [Hd Hi] E. split.
    + pose proof (accept_tx_spends k token max i u d Hi) as Hs. by rewrite E in Hs.
    + pose proof (accept_tx_used k token max n i u d a d' Hi E Hd) as Hu. split; [exact Hu|].
      intros e. apply (used_weaken _ _ _ (n + 1)); [cbn; lia|done].
  - intros d e [Hd _]. by apply Hrefl.
Qed.

Lemma accept_triple k token max n auth :
  triple (spends k token max) (used k token max n) (accept_invite entry_id draw now by_name auth token)
    (fun r d => used k token max (n + one_if r) d).
Proof.
  assert (Hrefl : forall e d, used k token max n d -> used k token max (n + one_if (Err e : AppResult WorkspaceMember.t)) d).
  { intros e d. cbn. rewrite Z.add_0_r. done. }
  unfold accept_invite.
  eapply (triple_then _ _ _ _ (fun _ d => used k token max n d));
    [apply (triple_query _), used_stable|intros o|intros; by apply Hrefl].
  eapply (triple_then _ _ _ _ (fun _ d => used k token max n d));
    [apply (triple_ret _); intros d Hd; by destruct o|intros x|intros; by apply Hrefl].
  unfold and_then. eapply (triple_bind _); [apply service_accept_triple|].
  intros [a|e]; [|by apply (triple_ret _)].
  eapply (triple_bind _ _ _ _ (fun _ d => used k token max (n + 1) d)); [|intros []; by apply (triple_ret _)].
  apply (triple_of_follows _); [apply used_stable|]. apply dispatch_all_follows; [apply _|]. apply spends_app.
Qed.

(** Accepting an invite one after another; how many were let in. *)
Fixpoint accept_all (token : str) (l : list AuthUser.t) : Svc ApiDb Z :=
  match l with
  | [] => mret 0
  | auth :: l => r ← accept_invite entry_id draw now by_name auth token;
                 n ← accept_all token l; mret (one_if r + n)
  end.

Lemma accept_all_triple k token max l n :
  triple (spends k token max) (used k token max n) (accept_all token l) (fun r d => used k token max (n + r) d).
Proof.
  revert n. induction l as [|auth l IH]; intros n; cbn.
  { apply (triple_ret _). intros d. by rewrite Z.add_0_r. }
  eapply (triple_bind _); [apply accept_triple|]. intros r.
  eapply (triple_bind _); [apply IH|]. intros m. apply (triple_ret _). intros d. by rewrite Z.add_assoc.
Qed.

(** C18: an invite lets in no more people than it says.  However many people
    accept it, while others accept it too and calls fail, the uses it had when
    the first of them began and those who were let in never add up to more than
    its limit, and every one of them was counted. *)
Theorem invite_uses_are_bounded (k : Uuid) (token : str) (max n : Z) (l : list AuthUser.t) (w : SvcWorld ApiDb) :
  rely (spends k token max) w -> used k token max n (shared w) ->
  let r := accept_all token l w in
  n + r.1 <= max /\ used k token max (n + r.1) (shared r.2).
Proof.
  intros Hw Hn. cbv zeta. destruct (accept_all_triple k token max l n w Hw Hn) as (_ & _ & Hu).
  split; [|exact Hu]. destruct Hu as (i & _ & _ & _ & _ & Hc & _). lia.
Qed.

(** ** The role an invite carries *)

Lemma same_app_preorder : PreOrder (fun d d' : ApiDb => app d' = app d).
Proof. split; [done|]. intros d1 d2 d3 H12 H23. congruence. Qed.

Lemma alone_rely {D} (R : relation D) (w : SvcWorld D) : agenda w = [] -> rely R w.
Proof. intros Hq. unfold rely. rewrite Hq. by apply Forall_nil. Qed.

Lemma service_accept_Ok token u email w a w' :
  agenda w = [] -> service_accept_invite draw now by_name token u email w = (Ok a, w') ->
  exists invite, find_invite_by_token token (app (shared w)) = Some invite /\
    accept_tx draw now by_name invite u (shared w) = (Ok a, shared w') /\ agenda w' = [].
Proof.
  intros Hq. unfold service_accept_invite. rewrite and_then_eq, query_quiet by done. cbn [fst snd].
  rewrite and_then_eq. unfold require. destruct (find_invite_by_token _ _) as [i|] eqn:Ei; [|done].
  cbn [ok_or fst snd mret Svc_ret]. destruct (negb (not_expired now i)); [done|].
  destruct (match WorkspaceInvite.email i with Some _ => _ | None => _ end); [done|].
  rewrite transaction_quiet by done. intros E. exists i. split; [done|].
  destruct (accept_tx _ _ _ i _ (shared w)) as [[a'|e] d'] eqn:Ea; by simplify_eq.
Qed.

(** An acceptance nothing interferes with is its transaction. *)
Lemma accept_invite_Ok auth token w m :
  agenda w = [] -> (accept_invite entry_id draw now by_name auth token w).1 = Ok m ->
  exists invite staged d', find_invite_by_token token (app (shared w)) = Some invite /\
    accept_tx draw now by_name invite (AuthUser.user_id auth) (shared w) = (Ok (m, staged), d') /\
    app (shared (accept_invite entry_id draw now by_name auth token w).2) = app d'.
Proof.
  intros Hq. unfold accept_invite. rewrite and_then_eq, query_quiet by done. cbn [fst snd].
  rewrite and_then_eq. unfold require. destruct (find_by_id _ _) as [user|]; [|done]. cbn [ok_or fst snd mret Svc_ret].
  rewrite and_then_eq. destruct (service_accept_invite _ _ _ _ _ _ w) as [[[m' staged]|e] w'] eqn:E; [|done].
  apply service_accept_Ok in E as (i & Hf & Ha & Hq'); [|done]. cbn [fst snd]. rewrite svc_bind_eq. cbn [fst snd mret Svc_ret].
  intros [= ->]. exists i, staged, (shared w'). split_and!; [done..|].
  pose proof same_app_preorder as HR.
  exact (proj1 (dispatch_all_follows entry_id now (fun d d' => app d' = app d) (fun _ _ E => E) staged w'
    (alone_rely _ _ Hq'))).
Qed.

(** Accepting an invite sets the role of whoever accepts, also down, and
    also of an owner: the memberships are as they were but for the accepter's,
    which has the role of the invite and the old time of joining. *)
Theorem accepting_overwrites_the_role (auth : AuthUser.t) (token : str) (w : SvcWorld ApiDb) (m : WorkspaceMember.t) :
  agenda w = [] ->
  let r := accept_invite entry_id draw now by_name auth token w in
  r.1 = Ok m ->
  exists invite joined, find_invite_by_token token (app (shared w)) = Some invite /\
    workspace_members (app (shared r.2)) =
      <[(WorkspaceInvite.workspace_id invite, AuthUser.user_id auth) := (WorkspaceInvite.role invite, joined)]>
        (workspace_members (app (shared w))) /\
    forall role j, workspace_members (app (shared w)) !! (WorkspaceInvite.workspace_id invite, AuthUser.user_id auth)
      = Some (role, j) -> joined = j.
Proof.
  intros Hq. cbv zeta. intros Hm. destruct (accept_invite_Ok auth token w m Hq Hm) as (i & staged & d' & Hf & Ha & Hd').
  apply accept_tx_Ok in Ha as (_ & (joined & Hrow & Hj) & _). exists i, joined. rewrite Hd'. done.
Qed.

(** Creating a link invite alone: the administrator gets the row asked for. *)
Lemma create_invite_quiet auth ws req id token w m lifetime :
  agenda w = [] -> get_member ws (AuthUser.user_id auth) (app (shared w)) = Some m ->
  has_at_least (WorkspaceMember.role m) Admin = true -> InviteLifetime.resolve req = Ok lifetime ->
  let invite :=
    {| WorkspaceInvite.id := id; WorkspaceInvite.workspace_id := ws; WorkspaceInvite.created_by := AuthUser.user_id auth;
       WorkspaceInvite.email := None; WorkspaceInvite.role := default Member (CreateInviteRequest.role req);
       WorkspaceInvite.token := token; WorkspaceInvite.max_uses := Some (InviteLifetime.max_uses lifetime);
       WorkspaceInvite.use_count := 0;
       WorkspaceInvite.expires_at := Some (now + 3600 * SECOND * InviteLifetime.expires_in_hours lifetime);
       WorkspaceInvite.created_at := now |} in
  exists log', create_invite now show_time ip auth ws req id token w =
    (Ok invite, {| shared := with_app (set_audit_log (fun l => l ++ [log']))
                     (with_app (set_workspace_invites (<[id := invite]>)) (shared w)); agenda := [] |}).
Proof.
  intros Hq Hm Hr Hl invite. unfold create_invite. rewrite and_then_eq.
  rewrite (answers_quiet _ _ _ w (require_workspace_role_answers _ _ _) Hq). unfold role_rule, member_rule. cbn [fst snd].
  rewrite Hm. cbn [ok_or]. cbn. rewrite Hr. cbn. rewrite and_then_eq, Hl. cbn [fst snd mret Svc_ret].
  rewrite and_then_eq. unfold create_link_invite, sql. rewrite svc_bind_eq, svc_call_quiet by done. cbn [fst snd mret Svc_ret].
  unfold record, svc_ignore. rewrite !svc_bind_eq, change_quiet by done. cbn [fst snd mret Svc_ret]. by eexists.
Qed.

(** An administrator can become the owner.  The endpoint that changes roles
    refuses to grant a role above one's own; an invite is not checked, so an
    administrator who creates a link invite for an owner and accepts it is one. *)
Theorem an_admin_can_become_owner (auth : AuthUser.t) (ws id : Uuid) (token : str) (joined : Z) (u : User.t)
    (w : SvcWorld ApiDb) (m : WorkspaceMember.t) :
  let me := AuthUser.user_id auth in
  let req := {| CreateInviteRequest.email := None; CreateInviteRequest.role := Some Owner;
                CreateInviteRequest.expires_in_hours := None; CreateInviteRequest.max_uses := Some 1 |} in
  agenda w = [] -> users (app (shared w)) !! me = Some u ->
  workspace_members (app (shared w)) !! (ws, me) = Some (Admin, joined) ->
  (forall k i, workspace_invites (app (shared w)) !! k = Some i -> WorkspaceInvite.token i <> token) ->
  let created := (create_invite now show_time ip auth ws req id token w).2 in
  let accepted := accept_invite entry_id draw now by_name auth token created in
  accepted.1 = Ok m ->
  WorkspaceMember.role m = Owner /\ workspace_members (app (shared accepted.2)) !! (ws, me) = Some (Owner, joined).
Proof.
  cbv zeta. intros Hq Hu Hrow Hfresh.
  assert (Hm : exists m0, get_member ws (AuthUser.user_id auth) (app (shared w)) = Some m0 /\ WorkspaceMember.role m0 = Admin).
  { unfold get_member. rewrite Hrow. cbn. rewrite Hu. eexists. split; reflexivity. }
  destruct Hm as (m0 & Hm0 & Hrole).
  destruct (create_invite_quiet auth ws {| CreateInviteRequest.email := None; CreateInviteRequest.role := Some Owner;
      CreateInviteRequest.expires_in_hours := None; CreateInviteRequest.max_uses := Some 1 |} id token w m0
      {| InviteLifetime.max_uses := 1; InviteLifetime.expires_in_hours := 168 |} Hq Hm0
      ltac:(by rewrite Hrole) eq_refl) as (entry & ->).
  cbn [snd]. set (w1 := {| shared := _; agenda := [] |}). intros Ha.
  destruct (accept_invite_Ok auth token w1 m eq_refl Ha) as (i & staged & d' & Hf & Htx & Happ).
  rewrite Happ. apply accept_tx_Ok in Htx as (Hr & (j & Hrows & Hj) & _).
  unfold find_invite_by_token in Hf. apply fmap_Some in Hf as ((k & i') & Hhead & ->). cbn in Hr, Hrows, Hj |- *.
  assert (Hin : (k, i') ∈ filter (fun p : Uuid * WorkspaceInvite.t => WorkspaceInvite.token p.2 = token)
                  (map_to_list (workspace_invites (app (shared w1))))).
  { destruct (filter _ _); simplify_eq/=. left. }
  apply list_elem_of_filter in Hin as [Htok Hin%elem_of_map_to_list]. cbn in Htok.
  assert (Hw1 : workspace_invites (app (shared w1)) !! k = Some i' /\
            workspace_members (app (shared w1)) = workspace_members (app (shared w))).
  { split; [exact Hin|]. subst w1. cbn. by destruct (app (shared w)). }
  destruct Hw1 as [Hk Hmem]. revert Hk. subst w1. cbn. destruct (app (shared w)) eqn:Eapp. cbn in *.
  rewrite lookup_insert. case_decide as Hid; [intros [= <-]|intros Hk; by apply Hfresh in Hk].
  cbn in *. rewrite Hrows. cbn. rewrite lookup_insert_eq, (Hj _ _ Hrow). done.
Qed.

(** ** Changes of role *)

Lemma rely_mono {D} (R S : relation D) w : (forall d d', R d d' -> S d d') -> rely R w -> rely S w.
Proof. intros HRS. unfold rely. intros Hw. eapply Forall_impl; [exact Hw|]. intros t Ht d. by apply HRS. Qed.

(** What a step leaves of the row of a member. *)
Definition member_row (ws u : Uuid) (t : AppTables) : option (WorkspaceRole * Z) := workspace_members t !! (ws, u).

Lemma record_leaves {A} (part : AppTables -> A) e :
  (forall f t, part (set_audit_log f t) = part t) -> follows (leaves part) (record now e).
Proof. intros Hp. unfold record, svc_ignore, change. solve_follows. apply Hp. Qed.

(** The others leave what concerns two people. *)
Definition same_for_both (a b : Uuid) : relation ApiDb := fun d d' => same_for a d d' /\ same_for b d d'.
#[export] Instance same_for_both_preorder a b : PreOrder (same_for_both a b).
Proof.
  unfold same_for_both. split; [intros d; split; reflexivity|]. intros d1 d2 d3 [A1 B1] [A2 B2]. split; by etransitivity.
Qed.

Lemma outranks_spec a b : outranks a b = true <-> level b < level a.
Proof. unfold outranks. apply Z.ltb_lt. Qed.

Lemma member_rule_Ok ws u t m :
  member_rule ws u t = Ok m -> member_row ws u t = Some (WorkspaceMember.role m, WorkspaceMember.joined_at m).
Proof. unfold member_rule. intros Hm. inv_ok. by apply get_member_row in Hm as [? _]. Qed.

Lemma role_rule_Ok ws u r t m :
  role_rule ws u r t = Ok m ->
  member_row ws u t = Some (WorkspaceMember.role m, WorkspaceMember.joined_at m) /\ level r <= level (WorkspaceMember.role m).
Proof.
  unfold role_rule. intros Hm. apply bind_Ok in Hm as (m' & Hm & Hr). apply member_rule_Ok in Hm.
  apply guard_Ok in Hr as [Hr [= ->]]. apply negb_false_iff, Z.leb_le in Hr. done.
Qed.

(** A check of a handler: what it saw, and that it moved nothing. *)
Lemma checked {B} (R : relation ApiDb) u (m : Api B) q w :
  answers (same_for u) m q -> follows R m -> (forall d d', R d d' -> same_for u d d') -> rely R w ->
  R (shared w) (shared (m w).2) /\ rely R (m w).2 /\ forall a, (m w).1 = Ok a -> q (shared w) = Ok a.
Proof.
  intros Hm Hf Hs Hw. destruct (Hf w Hw) as [H1 H2]. split_and!; [done..|]. intros a.
  apply (answers_Ok _ m q w a Hm). exact (rely_mono R _ w Hs Hw).
Qed.

(** The row of a member stays, or takes the role. *)
Definition may_become (ws u : Uuid) (role : WorkspaceRole) : relation ApiDb := fun d d' =>
  member_row ws u (app d') = member_row ws u (app d) \/
  exists old since, member_row ws u (app d) = Some (old, since) /\ member_row ws u (app d') = Some (role, since).
#[export] Instance may_become_preorder ws u role : PreOrder (may_become ws u role).
Proof.
  unfold may_become. split; [by left|]. intros d1 d2 d3 [E1|(r & j & A1 & B1)] [E2|(r' & j' & A2 & B2)].
  - left. congruence.
  - right. exists r', j'. split; congruence.
  - right. exists r, j. split; congruence.
  - right. exists r, j. split; congruence.
Qed.

Lemma may_become_set ws u role (d : ApiDb) : may_become ws u role d (with_app (set_role ws u role) d).
Proof.
  unfold may_become, member_row, set_role, set_workspace_members. cbn. destruct (app d). cbn.
  rewrite lookup_alter_eq. destruct (_ !! _) as [[r j]|]; [right; eauto|by left].
Qed.

Lemma record_may_become ws u role e : follows (may_become ws u role) (record now e).
Proof. unfold record, svc_ignore, change. solve_follows.
  left. unfold member_row, set_audit_log. cbn. by destruct (app _).
Qed.

(** The endpoint that changes roles respects ranks.  While nobody else
    changes the rows of the two people, the target's row afterwards is as it
    was, or it was changed by an administrator of higher rank than the target
    to a role no higher than the administrator's own: an owner is never touched,
    and nobody changes their own role. *)
Theorem role_changes_respect_ranks (auth : AuthUser.t) (ws target : Uuid) (role : WorkspaceRole) (w : SvcWorld ApiDb) :
  let me := AuthUser.user_id auth in
  rely (same_for_both me target) w ->
  let before := member_row ws target (app (shared w)) in
  let after := member_row ws target (app (shared (update_member_role now ip auth ws target role w).2)) in
  after = before \/
  exists mine joined old since, member_row ws me (app (shared w)) = Some (mine, joined) /\ before = Some (old, since) /\
    after = Some (role, since) /\ level Admin <= level mine /\ level old < level mine /\ level role <= level mine /\
    old <> Owner /\ me <> target.
Proof.
  cbv zeta. intros Hw. unfold update_member_role. rewrite and_then_eq. set (me := AuthUser.user_id auth) in *.
  set (R := same_for_both me target) in *.
  assert (Hkeep : forall d d', R d d' -> member_row ws target (app d') = member_row ws target (app d)).
  { intros d d' [_ (_ & B & _)]. symmetry. apply B. }
  destruct (checked R me _ _ w (require_workspace_role_answers ws me Admin)
    (require_workspace_role_follows R ws me Admin) ltac:(by intros ? ? []) Hw) as (H1 & Hw1 & Hactor).
  destruct (require_workspace_role ws me Admin w) as [[actor|e] w1]; cbn [fst snd] in *; [|left; by apply Hkeep].
  destruct (role_rule_Ok _ _ _ _ _ (Hactor _ eq_refl)) as [Hme Hadmin]. rewrite and_then_eq.
  destruct (checked R target _ _ w1 (require_workspace_member_answers ws target)
    (require_workspace_member_follows R ws target) ltac:(by intros ? ? []) Hw1) as (H2 & Hw2 & Htgt).
  destruct (require_workspace_member ws target w1) as [[tgt|e] w2]; cbn [fst snd] in *;
    [|left; apply Hkeep; by etransitivity].
  pose proof (member_rule_Ok _ _ _ _ (Htgt _ eq_refl)) as Hrow. assert (H12 : R (shared w) (shared w2)) by (by etransitivity).
  destruct (outranks _ _) eqn:Hout; cbn [negb]; [|left; by apply Hkeep].
  destruct (has_at_least _ role) eqn:Hgrant; cbn [negb]; [|left; by apply Hkeep].
  destruct (bool_decide _ && negb _); [left; by apply Hkeep|].
  apply outranks_spec in Hout. apply Z.leb_le in Hgrant. rewrite (Hkeep _ _ H1) in Hrow.
  set (tail := and_then (repo_update_member_role ws target role) _).
  assert (Htail : follows (may_become ws target role) tail).
  { subst tail. unfold repo_update_member_role, require. solve_follows; [apply may_become_set|].
    apply record_may_become. }
  destruct (Htail w2) as [Hq _].
  { apply (rely_mono R); [|done]. intros d d' Hd. left. by apply Hkeep. }
  rewrite <-(Hkeep _ _ H12). destruct Hq as [Hq|(old & since & Hold & Hnew)]; [by left|right].
  rewrite (Hkeep _ _ H12), Hrow in Hold. injection Hold as <- <-.
  exists (WorkspaceMember.role actor), (WorkspaceMember.joined_at actor), (WorkspaceMember.role tgt), (WorkspaceMember.joined_at tgt).
  rewrite (Hkeep _ _ H12). split_and!; try done.
  - intros E. rewrite E in Hout. destruct (WorkspaceMember.role actor); cbn in Hout; lia.
  - intros E. subst target. rewrite Hme in Hrow. injection Hrow as E _. rewrite E in Hout. lia.
Qed.

(** ** Leaving a workspace *)

(** The tables after the statements of [remove_member_in]. *)
Definition after_removal (ws u : Uuid) (t : AppTables) : AppTables :=
  set_message_tables (kept_follows ws u) (set_later_items (kept_later ws u) (set_workspace_members (delete (ws, u)) (set_channel_members (fun m => m ∖ seats_in ws u t)
    (set_conversation_departures (fun _ => departures now ws u t) t)))).

Lemma remove_member_in_eq ws u d :
  remove_member_in now ws u d =
    (Ok (map_to_list (seats_in ws u (app d))).*1.*1, with_app (after_removal ws u) d).
Proof.
  unfold remove_member_in, after_removal, run, read, tx_read, tx_query, mbind, Tx_bind, mret, Tx_ret. cbn.
  unfold with_app. cbn. by destruct (app d).
Qed.

Lemma lookup_seats_in ws u t ch x m :
  seats_in ws u t !! (ch, x) = Some m <-> channel_members t !! (ch, x) = Some m /\ x = u /\ in_workspace t ws ch.
Proof. clear. unfold seats_in. rewrite map_lookup_filter_Some. cbn. tauto. Qed.

Lemma after_removal_seat ws u t ch x :
  channel_members (after_removal ws u t) !! (ch, x) =
    if decide (x = u /\ in_workspace t ws ch) then None else channel_members t !! (ch, x).
Proof.
  assert (E : channel_members (after_removal ws u t) = channel_members t ∖ seats_in ws u t) by (by destruct t).
  rewrite E. clear E. destruct (channel_members t !! (ch, x)) as [m|] eqn:Em.
  - case_decide as Hd.
    + apply lookup_difference_None. right. exists m. by apply lookup_seats_in.
    + apply lookup_difference_Some. split; [done|].
      destruct (seats_in ws u t !! (ch, x)) as [m'|] eqn:E; [|done]. apply lookup_seats_in in E as [_ E]. done.
  - assert ((channel_members t ∖ seats_in ws u t) !! (ch, x) = None) as -> by (apply lookup_difference_None; by left).
    by case_decide.
Qed.

Lemma after_removal_member ws u t k :
  workspace_members (after_removal ws u t) !! k = if decide (k = (ws, u)) then None else workspace_members t !! k.
Proof.
  assert (workspace_members (after_removal ws u t) = delete (ws, u) (workspace_members t)) as -> by by destruct t.
  case_decide as E; [subst; apply lookup_delete_eq|by rewrite lookup_delete_ne].
Qed.

Lemma after_removal_later ws u t id r :
  later_items (after_removal ws u t) !! id = Some r <->
  later_items t !! id = Some r /\ (LaterRow.workspace_id r, LaterRow.user_id r) <> (ws, u).
Proof.
  assert (E : later_items (after_removal ws u t) = kept_later ws u (later_items t)) by by destruct t.
  rewrite E. unfold kept_later. by rewrite map_lookup_filter_Some.
Qed.

Lemma after_removal_follow ws u t k f :
  thread_follows (message_tables (after_removal ws u t)) !! k = Some f <->
  thread_follows (message_tables t) !! k = Some f /\ (ThreadFollow.workspace_id f, k.1) <> (ws, u).
Proof.
  assert (E : thread_follows (message_tables (after_removal ws u t)) = thread_follows (kept_follows ws u (message_tables t)))
    by by destruct t.
  rewrite E. unfold kept_follows, set_thread_follows. destruct (message_tables t). cbn. by rewrite map_lookup_filter_Some.
Qed.

Lemma after_removal_messages ws u t : messages (message_tables (after_removal ws u t)) = messages (message_tables t).
Proof. destruct t as [????????????? [] []]. reflexivity. Qed.

(** An unpublished row of the outbox with an event. *)
Definition staged_row (ty : string) (ws : Uuid) (p : json) (d : ApiDb) : Prop :=
  exists id r, outbox d !! id = Some r /\ published_at r = None /\ row_workspace r = ws /\
    event_type (row_event r) = lit ty /\ payload (row_event r) = p.

Definition fresh_ids (d : ApiDb) : Prop := forall id r, outbox d !! id = Some r -> id < next_row d.

(** Staging adds a row and touches nothing else. *)
Lemma stage_in_adds ty ws p d :
  fresh_ids d -> exists s d', stage_in draw now ty ws p d = (Ok s, d') /\ app d' = app d /\ fresh_ids d' /\
    outbox d ⊆ outbox d' /\ staged_row ty ws p d'.
Proof.
  intros Hf. unfold stage_in, tx_query. cbn. eexists _, _. split; [reflexivity|]. cbn. split; [done|].
  assert (Hnone : outbox d !! next_row d = None).
  { destruct (outbox d !! next_row d) as [r|] eqn:E; [|done]. apply Hf in E. lia. }
  split_and!.
  - intros id r. cbn. rewrite lookup_insert. case_decide; [lia|]. intros Hr%Hf. lia.
  - by apply insert_subseteq.
  - exists (next_row d). cbn. rewrite lookup_insert_eq. eexists. by split_and!.
Qed.

Lemma staged_row_mono ty ws p (d d' : ApiDb) : outbox d ⊆ outbox d' -> staged_row ty ws p d -> staged_row ty ws p d'.
Proof. intros Hs (id & r & Hr & ?). exists id, r. split; [by eapply lookup_weaken|done]. Qed.

Lemma stage_each_adds {A} ty ws (pay : A -> json) (l : list A) d :
  fresh_ids d -> exists staged d',
    stage_each (fun x => s ← stage_in draw now ty ws (pay x); mret (Some s)) l d = (Ok staged, d') /\
    app d' = app d /\ fresh_ids d' /\ outbox d ⊆ outbox d' /\ forall x, x ∈ l -> staged_row ty ws (pay x) d'.
Proof.
  revert d. induction l as [|x l IH]; intros d Hf.
  { exists [], d. split_and!; try done. intros x []%not_elem_of_nil. }
  destruct (stage_in_adds ty ws (pay x) d Hf) as (s & d1 & E1 & A1 & F1 & S1 & R1).
  destruct (IH d1 F1) as (staged & d2 & E2 & A2 & F2 & S2 & R2).
  exists (s :: staged), d2. split; [|split_and!; [by rewrite A2|done|by etransitivity|]].
  - cbn [stage_each]. rewrite tx_bind_Ok. exists (Some s), d1. rewrite tx_bind_Ok. split; [by exists s, d1|].
    rewrite tx_bind_Ok. by exists staged, d2.
  - intros y [->|Hy]%elem_of_cons; [by eapply staged_row_mono|by apply R2].
Qed.

Definition seat_payload (ch ws u : Uuid) : json :=
  JObject [uuid_field "channel_id" ch; uuid_field "workspace_id" ws; uuid_field "user_id" u].

(** What the transaction of leaving does. *)
Lemma detach_tx_eq ws u d :
  fresh_ids d ->
  exists staged d', detach_tx draw now ws u d = (Ok ((map_to_list (seats_in ws u (app d))).*1.*1, staged), d') /\
    app d' = after_removal ws u (app d) /\
    (forall ch, ch ∈ (map_to_list (seats_in ws u (app d))).*1.*1 ->
       staged_row "channel.member_removed" ws (seat_payload ch ws u) d') /\
    staged_row "workspace.member_removed" ws (JObject [uuid_field "workspace_id" ws; uuid_field "user_id" u]) d'.
Proof.
  intros Hf. set (dropped := (map_to_list (seats_in ws u (app d))).*1.*1).
  set (d0 := with_app (after_removal ws u) d).
  destruct (stage_each_adds "channel.member_removed" ws (fun ch => seat_payload ch ws u) dropped d0 Hf)
    as (staged & d1 & E1 & A1 & F1 & _ & R1).
  destruct (stage_in_adds "workspace.member_removed" ws (JObject [uuid_field "workspace_id" ws; uuid_field "user_id" u]) d1 F1)
    as (last & d2 & E2 & A2 & _ & S2 & R2).
  exists (staged ++ [last]), d2. split_and!; [|by rewrite A2, A1| |exact R2].
  - unfold detach_tx. rewrite tx_bind_Ok. exists dropped, d0. split; [apply remove_member_in_eq|].
    rewrite tx_bind_Ok. exists staged, d1. split; [exact E1|]. rewrite tx_bind_Ok. by exists last, d2.
  - intros ch Hch. eapply staged_row_mono; [exact S2|]. by apply R1.
Qed.

Lemma elem_of_dropped ws u t ch :
  ch ∈ (map_to_list (seats_in ws u t)).*1.*1 <-> in_workspace t ws ch /\ is_Some (channel_members t !! (ch, u)).
Proof.
  clear. split.
  - intros ([ch' x] & -> & ([[? ?] m] & -> & Hm%elem_of_map_to_list)%list_elem_of_fmap)%list_elem_of_fmap.
    apply lookup_seats_in in Hm as (Hm & -> & Hin). split; [done|]. by exists m.
  - intros [Hin [m Hm]]. apply list_elem_of_fmap. exists (ch, u). split; [done|].
    apply list_elem_of_fmap. exists ((ch, u), m). split; [done|]. apply elem_of_map_to_list. by apply lookup_seats_in.
Qed.

(** All that is neither a place of somebody in a workspace or a channel, nor in
    Later, nor a followed thread, nor written down of a conversation left. *)
Definition besides_places (t : AppTables) : AppTables :=
  set_message_tables (set_thread_follows (fun _ => ∅)) (set_later_items (fun _ => ∅) (set_workspace_members (fun _ => ∅)
    (set_channel_members (fun _ => ∅) (set_conversation_departures (fun _ => ∅) t)))).
Lemma after_removal_besides ws u t : besides_places (after_removal ws u t) = besides_places t.
Proof. destruct t as [????????????? [] []]. reflexivity. Qed.

Lemma after_removal_departure ws u t ch x :
  conversation_departures (after_removal ws u t) !! (ch, x) =
    match channel_members t !! (ch, x), conversation_departures t !! (ch, x) with
    | Some m, there =>
        if decide ((x = u /\ in_workspace t ws ch) /\ is_conversation t ch) then Some (match there with Some p => depart_again now p | None => depart now m end) else there
    | None, there => there
    end.
Proof.
  assert (E : conversation_departures (after_removal ws u t) = departures now ws u t) by (by destruct t). rewrite E. clear E.
  unfold departures. rewrite lookup_merge. unfold diag_None.
  destruct (filter (fun p : Uuid * Uuid * ChannelMember.t => is_conversation t p.1.1) (seats_in ws u t) !! (ch, x)) as [m|] eqn:Es.
  - apply map_lookup_filter_Some in Es as [(Hm & -> & Hin)%lookup_seats_in Hc]. rewrite Hm, decide_True by done. by destruct (conversation_departures t !! (ch, u)).
  - destruct (channel_members t !! (ch, x)) as [m|] eqn:Em; [|by destruct (conversation_departures t !! (ch, x))].
    rewrite decide_False; [by destruct (conversation_departures t !! (ch, x))|]. intros [[-> Hin] Hc].
    assert (Hs : filter (fun p : Uuid * Uuid * ChannelMember.t => is_conversation t p.1.1) (seats_in ws u t) !! (ch, u) = Some m); [|congruence].
    apply map_lookup_filter_Some. split; [by apply lookup_seats_in|done].
Qed.


(** ** Coming back *)

(** Rows carry their keys. *)
Definition keyed (t : AppTables) : Prop :=
  (forall k c, channels t !! k = Some c -> Channel.id c = k) /\
  (forall k m, channel_members t !! k = Some m -> ChannelMember.channel_id m = k.1 /\ ChannelMember.user_id m = k.2).

Lemma stage_each_leaves_in {A B} (part : AppTables -> A) (f : B -> Tx ApiDb (option Staged)) l :
  (forall x, x ∈ l -> tx_follows (leaves part) (f x)) -> tx_follows (leaves part) (stage_each f l).
Proof.
  induction l as [|x l IH]; intros Hf; cbn; [solve_tx_follows|].
  apply tx_follows_bind; [apply _|apply Hf; left|]. intros s.
  apply tx_follows_bind; [apply _|apply IH; intros y Hy; apply Hf; by right|]. intros rest. solve_tx_follows.
Qed.

(** The default channels a newcomer is seated in are the only seats that change. *)
Lemma join_default_channels_leaves ws u ch d r d' :
  (forall l, Permutation (by_name l) l) ->
  (forall k c, channels (app d) !! k = Some c -> Channel.id c = k) ->
  (forall c, channels (app d) !! ch = Some c -> Channel.is_default c = false) ->
  join_default_channels draw now by_name ws u d = (Ok r, d') ->
  leaves (fun t => (channel_members t !! (ch, u), conversation_departures t, channels t, messages (message_tables t))) d d'.
Proof.
  intros Hperm Hkey Hch. unfold join_default_channels, list_default_channels_tx. intros Hj. inv_tx.
  set (defaults := by_name _) in *.
  assert (Hne : forall c, c ∈ defaults -> Channel.id c <> ch).
  { intros c Hc E. subst defaults. rewrite (Hperm _) in Hc. apply list_elem_of_filter in Hc as [(_ & _ & Hdef) Hc].
    apply list_elem_of_fmap in Hc as ([k c'] & -> & Hc%elem_of_map_to_list). cbn in *.
    rewrite (Hkey _ _ Hc) in E. subst k. by rewrite (Hch _ Hc) in Hdef. }
  assert (Hfol : forall c, c ∈ defaults -> tx_follows (leaves (fun t => (channel_members t !! (ch, u), conversation_departures t, channels t, messages (message_tables t))))
    (added ← add_channel_member_tx now (Channel.id c) u ChannelRole.Member;
       match added with
       | Some _ => s ← stage_channel_member_joined draw now (Channel.id c) ws u; mret (Some s)
       | None => mret None
       end)).
  { intros c Hc%Hne. unfold add_channel_member_tx, foreign_key, stage_channel_member_joined. solve_tx_follows.
    apply run_leaves. intros t. unfold set_channel_members. destruct t. cbn. by rewrite lookup_insert_ne by congruence. }
  pose proof (stage_each_leaves_in _ _ defaults Hfol d) as Hd. by rewrite Hj in Hd.
Qed.

Lemma lookup_restored (t : AppTables) (m : gmap (Uuid * Uuid) Departure.t) k : restored t m !! k = restore t k <$> m !! k.
Proof. unfold restored. rewrite map_lookup_imap. by destruct (m !! k). Qed.

Lemma restore_conversations_in_eq ws u d :
  exists l, restore_conversations_in ws u d =
    (Ok l, with_app (fun t => set_channel_members (fun m => m ∪ restored t (back ws u t))
                       (set_conversation_departures (fun m => m ∖ back ws u t) t)) d).
Proof.
  unfold restore_conversations_in, run, read, tx_read, tx_query, mbind, Tx_bind, mret, Tx_ret. cbn. eexists.
  refine (f_equal2 pair eq_refl _). unfold with_app. cbn. by destruct (app d).
Qed.

(** A seat with what is unread in it counted again. *)
Definition recounted (t : AppTables) (m : ChannelMember.t) : ChannelMember.t :=
  {| ChannelMember.channel_id := ChannelMember.channel_id m; ChannelMember.user_id := ChannelMember.user_id m;
     ChannelMember.role := ChannelMember.role m; ChannelMember.joined_at := ChannelMember.joined_at m;
     ChannelMember.unread_count := unread_truth (ChannelMember.channel_id m) (ChannelMember.user_id m)
       (Reading.last_read_at (ChannelMember.reading m)) (message_tables t);
     ChannelMember.reading := ChannelMember.reading m |}.

Lemma restore_depart t t' ch u m :
  messages (message_tables t') = messages (message_tables t) ->
  ChannelMember.channel_id m = ch -> ChannelMember.user_id m = u -> restore t' (ch, u) (depart now m) = recounted t m.
Proof. intros E <- <-. unfold restore, recounted, unread_truth, count_if, all_messages. cbn. by rewrite E. Qed.

(** The written down seat of a conversation somebody left. *)
Lemma departures_seat ws u t ch m :
  channel_members t !! (ch, u) = Some m -> in_workspace t ws ch -> is_conversation t ch ->
  conversation_departures t !! (ch, u) = None -> departures now ws u t !! (ch, u) = Some (depart now m).
Proof.
  intros Hm Hin Hconv Hnone. unfold departures. rewrite lookup_merge, Hnone. unfold diag_None.
  assert (E : filter (fun p : Uuid * Uuid * ChannelMember.t => is_conversation t p.1.1) (seats_in ws u t) !! (ch, u) = Some m).
  { apply map_lookup_filter_Some. split; [|done]. by apply lookup_seats_in. }
  by rewrite E.
Qed.

Lemma detach_tx_tables ws u d r d' : detach_tx draw now ws u d = (Ok r, d') -> app d' = after_removal ws u (app d).
Proof.
  unfold detach_tx. rewrite tx_bind_Ok. intros (dropped & d0 & Hrem & Hrest).
  rewrite remove_member_in_eq in Hrem. injection Hrem as _ <-.
  assert (Hl : tx_follows (leaves (fun t => t))
    (staged ← stage_each (fun ch => s ← stage_channel_member_removed draw now ch ws u; mret (Some s)) dropped;
     last ← stage_workspace_member_removed draw now ws u; mret (dropped, staged ++ [last]))).
  { unfold stage_channel_member_removed, stage_workspace_member_removed. solve_tx_follows. }
  specialize (Hl (with_app (after_removal ws u) d)). rewrite Hrest in Hl. exact Hl.
Qed.

Lemma add_member_if_absent_leaves {A} (part : AppTables -> A) ws u role :
  (forall f t, part (set_workspace_members f t) = part t) ->
  tx_follows (leaves part) (add_member_if_absent_tx now ws u role).
Proof.
  intros Hp. unfold add_member_if_absent_tx, add_member_tx, foreign_key. solve_tx_follows; apply run_leaves; intros t; apply Hp.
Qed.

Lemma announce_leaves {A} (part : AppTables -> A) ws u j ds l :
  tx_follows (leaves part)
    (conversations ← stage_each (fun ch => s ← stage_channel_member_joined draw now ch ws u; mret (Some s)) l;
     mret (j :: ds ++ conversations)).
Proof. unfold stage_channel_member_joined. solve_tx_follows. Qed.

(** Coming back restores the conversations.  Somebody who left a workspace
    and joins it again, by whatever transaction settles them in, sits again in
    every direct and group conversation they sat in, with the role, the time of
    joining and the reading position they had and what is unread counted again,
    and nothing is kept as left. *)
Theorem coming_back_restores_conversations (ws u ch : Uuid) (role : WorkspaceRole) (m : ChannelMember.t)
    (d d1 d2 : ApiDb) (left_with : list Uuid * list Staged) (staged : list Staged) :
  (forall l, Permutation (by_name l) l) -> keyed (app d) ->
  channel_members (app d) !! (ch, u) = Some m -> in_workspace (app d) ws ch -> is_conversation (app d) ch ->
  (forall c, channels (app d) !! ch = Some c -> Channel.is_default c = false) ->
  conversation_departures (app d) !! (ch, u) = None ->
  detach_tx draw now ws u d = (Ok left_with, d1) ->
  (_ ← add_member_if_absent_tx now ws u role; settle_in draw now by_name ws u) d1 = (Ok staged, d2) ->
  channel_members (app d1) !! (ch, u) = None /\ channel_members (app d2) !! (ch, u) = Some (recounted (app d) m) /\
  conversation_departures (app d2) !! (ch, u) = None.
Proof.
  intros Hperm [Hkc Hkm] Hm Hin Hconv Hdef Hnone Hleave Hjoin. destruct (Hkm _ _ Hm) as [Hmch Hmu].
  set (part := fun t : AppTables => (channel_members t !! (ch, u), conversation_departures t, channels t, messages (message_tables t))).
  pose proof (detach_tx_tables ws u d _ d1 Hleave) as Happ1.
  assert (H1 : part (app d1) = (None, departures now ws u (app d), channels (app d), messages (message_tables (app d)))).
  { unfold part. rewrite Happ1, after_removal_seat, decide_True, after_removal_messages by done. by destruct (app d). }
  split; [by injection H1|]. rewrite tx_bind_Ok in Hjoin. destruct Hjoin as (x & d3 & Hadd & Hset).
  assert (H3 : part (app d3) = part (app d1)).
  { pose proof (add_member_if_absent_leaves part ws u role ltac:(by intros ? []) d1) as Hl. by rewrite Hadd in Hl. }
  unfold settle_in in Hset. rewrite tx_bind_Ok in Hset. destruct Hset as (j & d4 & Hj & Hset).
  assert (H4 : part (app d4) = part (app d3)).
  { pose proof (stage_in_leaves draw now part "workspace.member_joined" ws
      (JObject [uuid_field "workspace_id" ws; uuid_field "user_id" u]) d3) as Hl.
    unfold stage_workspace_member_joined in Hj. by rewrite Hj in Hl. }
  rewrite tx_bind_Ok in Hset. destruct Hset as (ds & d5 & Hds & Hset).
  assert (Hch4 : channels (app d4) = channels (app d)) by (rewrite H3, H1 in H4; by injection H4).
  apply (join_default_channels_leaves ws u ch) in Hds; [|done|by rewrite Hch4|by rewrite Hch4].
  fold part in Hds. unfold leaves in Hds. rewrite H4, H3, H1 in Hds.
  rewrite tx_bind_Ok in Hset. destruct Hset as (rs & d6 & Hrs & Hset).
  destruct (restore_conversations_in_eq ws u d5) as (l & El). rewrite El in Hrs. injection Hrs as <- <-.
  assert (H6 : app d2 = app (with_app (fun t => set_channel_members (fun m => m ∪ restored t (back ws u t))
      (set_conversation_departures (fun m => m ∖ back ws u t) t)) d5)).
  { pose proof (announce_leaves (fun t => t) ws u j ds l (with_app (fun t => set_channel_members
      (fun m => m ∪ restored t (back ws u t)) (set_conversation_departures (fun m => m ∖ back ws u t) t)) d5)) as Hl.
    by rewrite Hset in Hl. }
  rewrite H6. cbn. injection Hds as Hseat Hdep Hchan Hmsg.
  assert (Hback : back ws u (app d5) !! (ch, u) = Some (depart now m)).
  { unfold back. apply map_lookup_filter_Some. rewrite Hdep. split; [by apply departures_seat|].
    cbn. split; [done|]. unfold in_workspace. by rewrite Hchan. }
  set (t5 := app d5) in *. assert (E5 : forall f g, channel_members (set_channel_members f (set_conversation_departures g t5)) =
      f (channel_members t5) /\ conversation_departures (set_channel_members f (set_conversation_departures g t5)) =
      g (conversation_departures t5)) by by destruct t5.
  rewrite !(proj1 (E5 _ _)), !(proj2 (E5 _ _)). split.
  - rewrite lookup_union_r by done. rewrite lookup_restored, Hback. cbn. f_equal. by apply restore_depart.
  - apply lookup_difference_None. right. by eexists.
Qed.
End invites.

(** Workspace 20 of [SampleTables], where 2 is an administrator, 33 is a direct
    conversation of 1 and 2, and the link of invite 50 is good for two guests. *)
Module SampleMembership.
Definition dm : Channel.t :=
  {| Channel.id := 33%N; Channel.workspace_id := 20%N; Channel.name := None; Channel.channel_type := Dm;
     Channel.created_by := None; Channel.is_default := false; Channel.is_archived := false; Channel.settings := JObject []; Channel.created_at := 0 |}.
Definition invite : WorkspaceInvite.t :=
  {| WorkspaceInvite.id := 50%N; WorkspaceInvite.workspace_id := 20%N; WorkspaceInvite.created_by := 2%N;
     WorkspaceInvite.email := None; WorkspaceInvite.role := Guest; WorkspaceInvite.token := $"g";
     WorkspaceInvite.max_uses := Some 2; WorkspaceInvite.use_count := 0; WorkspaceInvite.expires_at := Some 1000;
     WorkspaceInvite.created_at := 0 |}.
Definition seat2 : ChannelMember.t := SampleTables.membership 33%N 2%N ChannelRole.Admin.
Definition tables : AppTables := {|
  users := users SampleTables.tables; workspaces := workspaces SampleTables.tables;
  workspace_members := <[(20%N, 2%N) := (Admin, 7)]> (workspace_members SampleTables.tables);
  channels := {[33%N := dm]};
  channel_members := <[(33%N, 1%N) := SampleTables.membership 33%N 1%N ChannelRole.Member]> {[(33%N, 2%N) := seat2]};
  conversation_departures := ∅; workspace_invites := {[50%N := invite]};
  scheduled_messages := ∅; hooks := ∅; workflows := ∅; audit_log := []; list_tables := ListStore.no_lists; later_items := ∅; message_tables := MessageStore.no_messages; poll_tables := PollStore.no_polls; notice_tables := NoticeStore.no_notices; retention_tables := no_retention; auth_tables := AuthStore.no_sign_ins;
|}.
Definition db : ApiDb := {| outbox := ∅; next_row := 1; stream_index := ∅; log := []; out := []; app := tables |}.
Definition world : SvcWorld ApiDb := {| shared := db; agenda := [] |}.
Definition draw (_ : ApiDb) : Uuid := 9%N.
Definition accept (u : Uuid) := accept_invite SampleOutbox.entry_id draw 100 id (SampleTables.caller u) ($"g") world.
Definition leave := detach_tx draw 100 20%N 2%N db.
Definition rejoin := (_ ← add_member_if_absent_tx 100 20%N 2%N Member; settle_in draw 100 id 20%N 2%N) leave.2.

Lemma tables_keyed : keyed tables.
Proof.
  split; intros k v; cbn.
  - by intros [<- <-]%lookup_singleton_Some.
  - rewrite lookup_insert_Some. intros [[<- <-]|[_ [<- <-]%lookup_singleton_Some]]; done.
Qed.
End SampleMembership.

(** An owner who follows a guest link is a guest. *)
Lemma accepting_overwrites_the_role_witness :
  member_row 20%N 1%N SampleMembership.tables = Some (Owner, 0) /\
  member_row 20%N 1%N (app (shared (SampleMembership.accept 1%N).2)) = Some (Guest, 0).
Proof.
  split; [reflexivity|]. destruct (SampleMembership.accept 1%N).1 as [m|e] eqn:E; [|vm_compute in E; discriminate].
  destruct (accepting_overwrites_the_role SampleOutbox.entry_id SampleMembership.draw 100 id (SampleTables.caller 1%N)
    ($"g") SampleMembership.world m eq_refl E) as (i & j & Hi & Hrow & Hj).
  assert (Ei : i = SampleMembership.invite) by (vm_compute in Hi; injection Hi as <-; reflexivity). subst i.
  specialize (Hj Owner 0 eq_refl). subst j. unfold member_row, SampleMembership.accept. rewrite Hrow. reflexivity.
Defined.

Lemma an_admin_can_become_owner_witness :
  let created := (create_invite 100 (fun _ => []) None (SampleTables.caller 2%N) 20%N
    {| CreateInviteRequest.email := None; CreateInviteRequest.role := Some Owner;
       CreateInviteRequest.expires_in_hours := None; CreateInviteRequest.max_uses := Some 1 |} 51%N ($"o")
    SampleMembership.world).2 in
  member_row 20%N 2%N SampleMembership.tables = Some (Admin, 7) /\
  member_row 20%N 2%N (app (shared (accept_invite SampleOutbox.entry_id SampleMembership.draw 100 id
    (SampleTables.caller 2%N) ($"o") created).2)) = Some (Owner, 7).
Proof.
  intros created. split; [reflexivity|].
  destruct (accept_invite SampleOutbox.entry_id SampleMembership.draw 100 id (SampleTables.caller 2%N) ($"o") created).1
    as [m|e] eqn:E; [|vm_compute in E; discriminate].
  refine (proj2 (an_admin_can_become_owner SampleOutbox.entry_id SampleMembership.draw 100 (fun _ => []) id None
    (SampleTables.caller 2%N) 20%N 51%N ($"o") 7 SampleTables.user SampleMembership.world m eq_refl eq_refl eq_refl _ E)).
  intros k i. cbn. intros [<- <-]%lookup_singleton_Some. discriminate.
Defined.

Lemma invite_uses_are_bounded_witness :
  let r := accept_all SampleOutbox.entry_id SampleMembership.draw 100 id ($"g")
    (SampleTables.caller <$> [2%N; 3%N; 1%N; 4%N]) SampleMembership.world in
  r.1 = 2 /\ 0 + r.1 <= 2.
Proof.
  split; [vm_compute; reflexivity|].
  refine (proj1 (invite_uses_are_bounded SampleOutbox.entry_id SampleMembership.draw 100 id 50%N ($"g") 2 0 _
    SampleMembership.world _ _)); [by apply Forall_nil|].
  exists SampleMembership.invite. split_and!; try reflexivity; try (cbn; lia).
  intros k j. cbn. by intros [<- _]%lookup_singleton_Some.
Defined.

(** An administrator makes the guest a member. *)
Lemma role_changes_respect_ranks_witness :
  let after := member_row 20%N 3%N (app (shared (update_member_role 100 None (SampleTables.caller 2%N) 20%N 3%N Member
                 SampleMembership.world).2)) in
  after = Some (Member, 0) /\ exists mine joined, member_row 20%N 2%N SampleMembership.tables = Some (mine, joined) /\
    level Guest < level mine.
Proof.
  split; [vm_compute; reflexivity|].
  destruct (role_changes_respect_ranks 100 None (SampleTables.caller 2%N) 20%N 3%N Member SampleMembership.world)
    as [E|(mine & j & old & since & Hm & Hb & _ & _ & Hl & _)]; [by apply Forall_nil|vm_compute in E; discriminate|].
  exists mine, j. split; [exact Hm|]. vm_compute in Hb. by injection Hb as <- _.
Defined.


Lemma coming_back_restores_conversations_witness :
  channel_members (app SampleMembership.leave.2) !! (33%N, 2%N) = None /\
  channel_members (app SampleMembership.rejoin.2) !! (33%N, 2%N) = Some SampleMembership.seat2.
Proof.
  destruct SampleMembership.leave as [[l|e] d1] eqn:E1; [|vm_compute in E1; discriminate].
  destruct SampleMembership.rejoin as [[s|e] d2] eqn:E2; [|vm_compute in E2; discriminate].
  unfold SampleMembership.rejoin in E2. rewrite E1 in E2.
  destruct (coming_back_restores_conversations SampleMembership.draw 100 id 20%N 2%N 33%N Member SampleMembership.seat2
    SampleMembership.db d1 d2 l s) as (H1 & H2 & _); try done.
  - exact SampleMembership.tables_keyed.
  - by left.
  - intros c. cbn. by intros [_ <-]%lookup_singleton_Some.
Defined.
