(* ===== verification/ListTx.v ===== *)
(** * The statements of a transaction over lists

    What a transaction of [ListService] that committed ran, statement by
    statement, and the statements that leave the tables of lists as they are. *)

From stdpp Require Import base tactics option numbers list gmap sorting.
From Stdlib Require Import ZArith Lia String Ascii.
From S2P Require Import Prelude RustStr Json Errors Rank Lists ListForms ListViews ListStore ListInvariant Mentions LaterStore MessageStore ApiState Outbox Tables Authz Membership ApiLaws LaterSync ListService.

(** The tables of lists of a state. *)
Abbreviation T d := (list_tables (app d)).

Lemma list_read_Ok {A} (q : ListTables -> A) (d : ApiDb) a d' : list_read q d = (Ok a, d') <-> a = q (T d) /\ d' = d.
Proof. apply read_Ok. Qed.
Lemma list_run_Ok f (d : ApiDb) a d' : list_run f d = (Ok a, d') -> d' = with_app (set_list_tables f) d /\ T d' = f (T d).
Proof. intros ->%run_Ok. split; [done|]. cbn. by destruct (app d). Qed.
Lemma stage_list_Ok `{UuidText} (draw : ApiDb -> Uuid) now l ty fields d s d' :
  stage_list draw now l ty fields d = (Ok s, d') -> app d' = app d.
Proof. unfold stage_list, stage_in, tx_query, insert_row. by intros [= _ <-]. Qed.

(** Opens the statements that ran, tables of lists included. *)
Ltac inv_list :=
  repeat (progress inv_tx || match goal with
  | E : list_read _ _ = (Ok _, _) |- _ => apply list_read_Ok in E as [? ?]; subst
  | E : list_run _ _ = (Ok _, _) |- _ => apply list_run_Ok in E as [? ?]; subst
  | E : tx_of _ _ = (Ok _, _) |- _ => apply tx_of_Ok in E as [? ?]; subst
  | E : tx_require _ _ _ = (Ok _, _) |- _ => apply tx_require_Ok in E as [? ?]; subst
  | E : drawn _ _ = (Ok _, _) |- _ => apply drawn_Ok in E as [? ?]; subst
  | E : stage_list _ _ _ _ _ _ = (Ok _, _) |- _ => apply stage_list_Ok in E
  end).

(** A transaction that leaves the lists as they are. *)
Definition quiet {A} (m : Tx ApiDb A) : Prop := forall d a d', m d = (Ok a, d') -> T d' = T d.

Section quiet.
#[local] Set Default Proof Using "Type".
Context `{UuidText} `{JsonText} `{CalendarDate} `{CaseFolding} `{FloatText} `{PgText}.
Context (draw : ApiDb -> Uuid) (now : Z) (show_time : Z -> str).
Implicit Types (d : ApiDb) (t : ListTables).

Lemma lock_Ok list_id d l d' : lock list_id d = (Ok l, d') -> find_list list_id (T d) = Some l /\ d' = d.
Proof. unfold lock. intros E. inv_list. done. Qed.
Lemma share_lock_quiet list_id : quiet (share_lock list_id).
Proof. unfold share_lock. intros d a d' E. inv_list. destruct (find_list _ _); inv_list; done. Qed.
Lemma person_exists_quiet u : quiet (person_exists u).
Proof. unfold person_exists. intros d a d' E. by inv_list. Qed.
Lemma columns_changed_Ok l b d a d' :
  columns_changed draw now l b d = (Ok a, d') -> T d' = T d /\ a.1 = columns_of (List.id l) (T d).
Proof. unfold columns_changed. intros E. inv_list. split; [congruence|done]. Qed.
Lemma views_changed_quiet l : quiet (views_changed draw now show_time l).
Proof. unfold views_changed. intros d a d' E. inv_list. congruence. Qed.
Lemma check_people_quiet l people : quiet (check_people l people).
Proof. unfold check_people. intros d a d' E. destruct people; inv_list; done. Qed.
Lemma item_upserted_quiet l i : quiet (item_upserted draw now show_time l i).
Proof. unfold item_upserted. intros d a d' E. inv_list. congruence. Qed.
Lemma stage_assigned_quiet l cs i people u : quiet (stage_assigned draw now l cs i people u).
Proof. unfold stage_assigned. intros d a d' E. destruct people; inv_list; congruence. Qed.

Lemma insert_drawn_Ok {A B} (table : ListTables -> gmap Uuid A) row (insert : B -> ListTables -> ListTables) d b d' :
  insert_drawn draw table row insert d = (Ok b, d') ->
  exists id, id = draw d /\ table (T d) !! id = None /\ b = row id (T d) /\ T d' = insert b (T d).
Proof.
  unfold insert_drawn. intros E. inv_list. exists (draw d).
  match goal with E : false = bool_decide _ |- _ => apply eq_sym, bool_decide_eq_false in E end.
  split_and!; try done. by destruct (table (T d) !! draw d) eqn:Et'; [exfalso; eauto|].
Qed.
End quiet.

(** Rewrites the tables as the statements left them. *)
Ltac tables :=
  repeat match goal with
  | E : app ?x = _ |- context [app ?x] => rewrite E; clear E
  | E : list_tables (app ?x) = _ |- context [list_tables (app ?x)] => rewrite E; clear E
  end.

(** Opens the statements that leave the lists alone. *)
Ltac quiets :=
  repeat match goal with
  | E : person_exists _ _ = (Ok _, _) |- _ => apply person_exists_quiet in E
  | E : share_lock _ _ = (Ok _, _) |- _ => apply share_lock_quiet in E
  | E : check_people _ _ _ = (Ok _, _) |- _ => apply check_people_quiet in E
  | E : item_upserted _ _ _ _ _ _ = (Ok _, _) |- _ => apply item_upserted_quiet in E
  | E : stage_assigned _ _ _ _ _ _ _ _ = (Ok _, _) |- _ => apply stage_assigned_quiet in E
  end;
  repeat match goal with
  | E : list_tables (app ?x) = list_tables (app ?y), E' : context [list_tables (app ?x)] |- _ =>
      lazymatch type of E' with list_tables (app x) = list_tables (app y) => fail | _ => rewrite E in E' end
  end.
