(* ===== verification/ListLaws.v ===== *)
(** * Lists stay well formed ([backend/api/src/lists/service.rs])

    Whatever is asked of lists, by however many people at once and whichever
    calls fail, the tables keep the invariant of [ListInvariant]: each
    transaction keeps it, and between transactions a request only reads. *)

From stdpp Require Import base tactics option numbers list gmap sorting.
From Stdlib Require Import ZArith Lia String Ascii.
From S2P Require Import Prelude RustStr Json Errors Rank Lists ListForms ListViews ListStore ListInvariant Mentions LaterStore MessageStore ApiState Outbox Tables Authz Membership ApiLaws LaterSync ListService ListTx.

Section laws.
Context `{UuidTextLaws} `{JsonText} {C : CalendarDate} `{!CalendarDateLaws C} `{CaseFolding} `{FloatText} `{PgText}.
Context (entry_id : str -> Datatypes.list (str * str * Frames.Event) -> str) (draw : ApiDb -> Uuid) (now : Z).
Context (fresh : nat -> nat -> Uuid) (show_time : Z -> str).
Implicit Types (d : ApiDb) (t : ListTables).


(** ** What each transaction does to well-formed tables *)

Lemma wf_of_lists t id l : well_formed t -> find_list id t = Some l -> List.id l = id /\ is_Some (lists t !! id).
Proof. intros Hwf Hl%find_list_Some. split; [exact (wf_keyed _ _ _ Hwf _ _ Hl)|by eexists]. Qed.

(** A new column, when there is room. *)
Lemma insert_column_in_wf new l name kind options d c d' :
  is_Some (lists (T d) !! l) -> (length (columns_of l (T d)) < MAX_COLUMNS)%nat -> well_formed_but new None (T d) ->
  insert_column_in draw l name kind options d = (Ok c, d') ->
  well_formed_but new None (T d') /\ lists (T d') = lists (T d) /\ list_views (T d') = list_views (T d) /\
  (length (columns_of l (T d')) <= S (length (columns_of l (T d))))%nat.
Proof.
  intros Hl Hn Hwf (id & _ & Hid & -> & E)%insert_drawn_Ok. rewrite E. split_and!; [|by destruct (T d)..|].
  - by apply wf_insert_column.
  - rewrite !length_columns. destruct (T d) as [ls cs vs is_ ms]. cbn. apply (rows_le_S _ _ _ _ id).
    intros k x [[<- _]|[_ Hk]]%lookup_insert_Some; eauto.
Qed.

Lemma insert_columns_wf new l (cs : Datatypes.list (str * (ColumnKind * ColumnOptions))) d a d' :
  is_Some (lists (T d) !! l) -> (length (columns_of l (T d)) + length cs <= MAX_COLUMNS)%nat -> well_formed_but new None (T d) ->
  tx_each (fun c => insert_column_in draw l c.1 c.2.1 c.2.2) cs d = (Ok a, d') ->
  well_formed_but new None (T d') /\ lists (T d') = lists (T d) /\ list_views (T d') = list_views (T d).
Proof.
  revert d a. induction cs as [|c cs IH]; intros d a Hl Hn Hwf E; cbn in E; inv_list; [done|].
  match goal with E1 : insert_column_in _ _ _ _ _ _ = _ |- _ =>
    apply (insert_column_in_wf new) in E1 as (W1 & L1 & V1 & N1); [|done|cbn in Hn; lia|done] end.
  match goal with E2 : tx_each _ _ _ = _ |- _ => apply IH in E2 as (W2 & L2 & V2); [|by rewrite L1|cbn in Hn; lia|done] end.
  split_and!; congruence.
Qed.

Lemma insert_view_in_wf new l name kind config u d v d' :
  is_Some (lists (T d) !! l) -> (length (views_of l (T d)) < MAX_VIEWS)%nat -> fits config kind (columns_of l (T d)) ->
  (new = None \/ new = Some l) -> well_formed_but new None (T d) ->
  insert_view_in draw now l name kind config u d = (Ok v, d') -> well_formed (T d').
Proof.
  intros Hl Hn Hf Hnew Hwf E. unfold insert_view_in in E. inv_list.
  match goal with E1 : person_exists _ _ = _ |- _ => apply person_exists_quiet in E1; rewrite <-E1 in * end.
  match goal with E2 : insert_drawn _ _ _ _ _ = _ |- _ => apply insert_drawn_Ok in E2 as (id & _ & Hid & -> & ->) end.
  eapply wf_insert_view; eauto.
Qed.

(** A list that is not there has no columns and no views. *)
Lemma new_list_empty t l : well_formed t -> lists t !! l = None -> columns_of l t = [] /\ views_of l t = [].
Proof.
  intros Hwf Hl. split.
  - destruct (columns_of l t) as [|c cs] eqn:E; [done|]. assert (Hc : c ∈ columns_of l t) by (rewrite E; left).
    apply elem_of_columns in Hc as [<- [k Hc]]. destruct (cw_list _ (wf_columns _ _ _ Hwf) _ _ Hc). congruence.
  - destruct (views_of l t) as [|v vs] eqn:E; [done|]. assert (Hv : v ∈ views_of l t) by (rewrite E; left).
    apply elem_of_views in Hv as [<- [k Hv]]. destruct (vw_list _ _ _ (wf_views _ _ _ Hwf) _ _ Hv). congruence.
Qed.

Lemma create_tx_wf u ws channel title description cs d a d' :
  (length cs <= MAX_COLUMNS)%nat -> well_formed (T d) ->
  create_tx draw now show_time u ws channel title description cs d = (Ok a, d') -> well_formed (T d').
Proof.
  intros Hcs Hwf E. unfold create_tx, insert_list_in in E. inv_list.
  match goal with E1 : person_exists _ _ = _ |- _ => apply person_exists_quiet in E1 as Eq end.
  match goal with E2 : insert_drawn _ lists _ _ _ = _ |- _ => apply insert_drawn_Ok in E2 as (id & _ & Hid & -> & E2); cbn in E2 end.
  rewrite Eq in *. destruct (new_list_empty _ id Hwf Hid) as [Hc Hv].
  match goal with E3 : tx_each _ _ _ = _ |- _ => rename E3 into Ecols end.
  match goal with E4 : insert_view_in _ _ _ _ _ _ _ _ = _ |- _ => rename E4 into Eview end.
  match goal with E5 : T ?x = insert_list ?y _ |- _ => rename x into d1; rename E5 into E1; set (l := y) in * end.
  assert (W1 : well_formed_but (Some id) None (T d1)) by (rewrite E1; by apply (wf_insert_list _ l)).
  assert (H1' : is_Some (lists (T d1) !! id) /\ columns_of id (T d1) = [] /\ views_of id (T d1) = []).
  { rewrite E1. split; [|by destruct (T d)]. destruct (T d). cbn. rewrite lookup_insert_eq. by eexists. }
  destruct H1' as (Hin & Hc1 & Hv1). change (List.id l) with id in *.
  apply (insert_columns_wf (Some id)) in Ecols as (W2 & L2 & V2); [|done|by rewrite Hc1|done].
  apply (insert_view_in_wf (Some id)) in Eview; [|by rewrite L2|unfold views_of in *; by rewrite V2, Hv1; cbn; unfold MAX_VIEWS; lia|apply default_fits|by right|done].
  unfold well_formed in *. congruence.
Qed.

Lemma update_tx_wf id req d a d' : well_formed (T d) -> update_tx draw now show_time id req d = (Ok a, d') -> well_formed (T d').
Proof. intros Hwf E. unfold update_tx, lock in E. inv_list. tables. by apply wf_alter_list. Qed.

Lemma delete_tx_wf id d a d' : well_formed (T d) -> delete_tx draw now id d = (Ok a, d') -> well_formed (T d').
Proof. intros Hwf E. unfold delete_tx, lock in E. inv_list. tables. by apply wf_alter_list. Qed.

Lemma add_column_tx_wf l name kind options d a d' :
  well_formed (T d) -> add_column_tx draw now l name kind options d = (Ok a, d') -> well_formed (T d').
Proof.
  intros Hwf E. unfold add_column_tx, lock in E. inv_list.
  match goal with E : (_ <=? _)%nat = false |- _ => apply Nat.leb_gt in E end.
  match goal with E : find_list _ _ = Some _ |- _ => apply (wf_of_lists _ _ _ Hwf) in E as [_ Hl] end.
  match goal with E : columns_changed _ _ _ _ _ = _ |- _ => apply columns_changed_Ok in E as [E _]; rewrite E end.
  match goal with E : insert_column_in _ _ _ _ _ _ = _ |- _ => by apply (insert_column_in_wf None) in E as [? _] end.
Qed.

Lemma reorder_columns_tx_wf l order d a d' :
  well_formed (T d) -> reorder_columns_tx draw now l order d = (Ok a, d') -> well_formed (T d').
Proof.
  intros Hwf E. unfold reorder_columns_tx, lock in E. inv_list.
  match goal with E : columns_changed _ _ _ _ _ = _ |- _ => apply columns_changed_Ok in E as [E _]; rewrite E end.
  tables. by apply wf_reorder_columns.
Qed.

(** *** Views *)

Lemma create_view_tx_wf u l name req d a d' :
  well_formed (T d) -> create_view_tx draw now show_time u l name req d = (Ok a, d') -> well_formed (T d').
Proof.
  intros Hwf E. unfold create_view_tx, lock in E. inv_list.
  match goal with E : (_ <=? _)%nat = false |- _ => apply Nat.leb_gt in E end.
  match goal with E : find_list _ _ = Some _ |- _ => apply (wf_of_lists _ _ _ Hwf) in E as [_ Hl] end.
  match goal with E : check_config _ _ _ = Ok _ |- _ => apply check_config_fits in E end.
  match goal with E : views_changed _ _ _ _ _ = _ |- _ => apply views_changed_quiet in E; rewrite E end.
  match goal with E : insert_view_in _ _ _ _ _ _ _ _ = _ |- _ => apply (insert_view_in_wf None) in E; auto end.
Qed.

Lemma view_of_Some t l id v : well_formed t -> view_of (views_of l t) id = Ok v -> list_views t !! id = Some v /\ ListView.list_id v = l.
Proof.
  intros Hwf Hv. unfold view_of in Hv. destruct (find _ _) as [w|] eqn:Hf; [|done]. injection Hv as ->.
  apply find_some in Hf as [Hin Hid]. apply bool_decide_eq_true in Hid.
  apply list_elem_of_In, elem_of_views in Hin as [Hl [k Hk]]. rewrite <-Hid, (vw_keyed _ _ _ (wf_views _ _ _ Hwf) _ _ Hk). done.
Qed.

Lemma update_view_tx_wf l id req d a d' :
  well_formed (T d) -> update_view_tx draw now show_time l id req d = (Ok a, d') -> well_formed (T d').
Proof.
  intros Hwf E. unfold update_view_tx, lock in E. inv_list.
  match goal with E : view_of _ _ = Ok _ |- _ => apply (view_of_Some _ _ _ _ Hwf) in E as [Hv Hl] end.
  match goal with E : views_changed _ _ _ _ _ = _ |- _ => apply views_changed_quiet in E; rewrite E end.
  tables. apply wf_alter_view; [done| |done]. intros v Hv' _. simplify_eq. cbn.
  destruct (UpdateViewRequest.config req); simplify_eq; [by eapply check_config_fits|apply pruned_fits].
Qed.

Lemma delete_view_tx_wf l id d a d' :
  well_formed (T d) -> delete_view_tx draw now show_time l id d = (Ok a, d') -> well_formed (T d').
Proof.
  intros Hwf E. unfold delete_view_tx, lock in E. inv_list.
  match goal with E : view_of _ _ = Ok _ |- _ => apply (view_of_Some _ _ _ _ Hwf) in E as [Hv Hl] end.
  match goal with E : bool_decide _ = false |- _ => apply bool_decide_eq_false in E end.
  match goal with E : views_changed _ _ _ _ _ = _ |- _ => apply views_changed_quiet in E; rewrite E end.
  tables. by eapply wf_delete_view.
Qed.

Lemma reorder_views_tx_wf l order d a d' :
  well_formed (T d) -> reorder_views_tx draw now show_time l order d = (Ok a, d') -> well_formed (T d').
Proof.
  intros Hwf E. unfold reorder_views_tx, lock in E. inv_list.
  match goal with E : views_changed _ _ _ _ _ = _ |- _ => apply views_changed_quiet in E; rewrite E end.
  tables. by apply wf_reorder_views.
Qed.

(** *** Pruning *)

(** Once every view of the list fits, nothing is left to prune. *)
Lemma wf_pruned new l t :
  (forall k v, list_views t !! k = Some v -> ListView.list_id v = l ->
     fits (ListView.config v) (ListView.kind v) (columns_of l t)) ->
  well_formed_but new (Some l) t -> well_formed_but new None t.
Proof.
  intros Hf [W1 W2 W3 W4 [V1 V2 V3 V4 V5]]. constructor; try done. constructor; try done.
  intros k v Hv _. destruct (decide (ListView.list_id v = l)) as [<-|Hne]; [by eapply Hf|eapply V3; [done|congruence]].
Qed.

Lemma prune_each_wf l views pruned_ d a d' :
  well_formed_but None (Some l) (T d) ->
  (forall v, v ∈ views -> exists w, list_views (T d) !! ListView.id v = Some w /\ ListView.list_id w = l) ->
  (forall k v, list_views (T d) !! k = Some v -> ListView.list_id v = l ->
     fits (ListView.config v) (ListView.kind v) (columns_of l (T d)) \/ v ∈ views) ->
  prune_each now (columns_of l (T d)) views pruned_ d = (Ok a, d') -> well_formed (T d').
Proof.
  revert pruned_ d. induction views as [|v views IH]; intros pruned_ d Hwf Hrows Hfit E; cbn in E.
  { inv_list. apply (wf_pruned _ l); [|done]. intros k v Hv Hl. destruct (Hfit k v Hv Hl) as [?|?%not_elem_of_nil]; done. }
  pose proof (pruned_fits (ListView.config v) (ListView.kind v) (columns_of l (T d))) as Hp. inv_list.
  - eapply IH; [done| | |done].
    + intros w Hw. apply Hrows. by right.
    + intros k w Hw Hl. destruct (Hfit k w Hw Hl) as [?|[->|?]%elem_of_cons]; [by left|left|by right]. by eapply fits_eqb.
  - match goal with E1 : list_tables (app ?x) = _, E2 : prune_each _ _ _ _ _ = _ |- _ =>
      set (d1 := x) in *; rename E1 into Ed; rename E2 into Er end.
    assert (Hc : columns_of l (T d1) = columns_of l (T d)) by (rewrite Ed; by destruct (T d)). rewrite <-Hc in Er.
    destruct (Hrows v) as (v0 & Hv0 & Hl0); [left|].
    assert (Hlook : forall k w, list_views (T d1) !! k = Some w -> exists x, list_views (T d) !! k = Some x /\
        w = if bool_decide (k = ListView.id v) then View.set (ListView.name v) (ListView.kind v)
              (pruned (ListView.config v) (ListView.kind v) (columns_of l (T d))) now x else x).
    { intros k w Hw. rewrite Ed in Hw. unfold update_view_in in Hw. destruct (T d) in *. by apply lookup_alter_inv. }
    eapply IH; [| | |exact Er].
    + rewrite Ed. apply wf_alter_view; [done| |done]. intros w Hw Hne. cbn. rewrite Hv0 in Hw. injection Hw as <-. by rewrite Hl0 in Hne.
    + intros w Hw. destruct (Hrows w) as (w0 & Hw0 & Hlw); [by right|]. rewrite Ed. unfold update_view_in.
      destruct (decide (ListView.id w = ListView.id v)) as [Ew|Ew].
      * rewrite Ew in *. exists (View.set (ListView.name v) (ListView.kind v)
          (pruned (ListView.config v) (ListView.kind v) (columns_of l (T d))) now w0). split; [|done].
        destruct (T d). cbn in *. by rewrite lookup_alter_eq, Hw0.
      * exists w0. split; [|done]. destruct (T d). cbn in *. by rewrite lookup_alter_ne by congruence.
    + intros k w Hw Hl. rewrite Hc. destruct (Hlook k w Hw) as (y & Hy & ->). case_bool_decide as Hk; [by left|].
      destruct (Hfit k y Hy Hl) as [?|[->|?]%elem_of_cons]; [by left|exfalso|by right].
      apply Hk. by rewrite <-(vw_keyed _ _ _ (wf_views _ _ _ Hwf) _ _ Hy).
Qed.

Lemma prune_views_wf l d a d' :
  well_formed_but None (Some (List.id l)) (T d) ->
  prune_views draw now show_time l (columns_of (List.id l) (T d)) d = (Ok a, d') -> well_formed (T d').
Proof.
  intros Hwf E. unfold prune_views in E. inv_list;
    match goal with E1 : prune_each _ _ _ _ _ = _ |- _ => apply (prune_each_wf (List.id l)) in E1; [|done|..] end;
    try (match goal with E : views_changed _ _ _ _ _ = _ |- _ => apply views_changed_quiet in E; by rewrite E end); try done.
  all: try (intros v [Hl [k Hk]]%elem_of_views; exists v; by rewrite (vw_keyed _ _ _ (wf_views _ _ _ Hwf) _ _ Hk)).
  all: intros k v Hv Hl; right; apply elem_of_views; eauto.
Qed.

(** *** Columns *)

(** The rewriting names the item. *)
Definition named (i : Uuid) (cells : Datatypes.list (str * json)) : Prop := exists p, p ∈ cells /\ uuid_parse p.1 = Some i.

Lemma named_find i cells : find (fun p : str * json => bool_decide (uuid_parse p.1 = Some i)) cells = None -> ~ named i cells.
Proof. intros Hf (p & Hp & Hi). apply list_elem_of_In in Hp. apply (find_none _ _ Hf) in Hp. by rewrite bool_decide_eq_true_2 in Hp. Qed.

Lemma named_insert i j v cells : named i (assoc_insert (uuid_to_string j) v cells) <-> i = j \/ named i cells.
Proof.
  unfold named. split.
  - intros (p & [->|Hp]%elem_of_assoc_insert & Hi); [|eauto]. cbn in Hi. rewrite uuid_parse_to_string in Hi. left. congruence.
  - intros [->|(p & Hp & Hi)].
    + exists (uuid_to_string j, v). split; [|by rewrite <-uuid_parse_to_string]. apply list_elem_of_In, assoc_In, assoc_insert_eq.
    + destruct (decide (p.1 = uuid_to_string j)) as [E|E].
      * exists (uuid_to_string j, v). split; [|cbn; congruence]. apply list_elem_of_In, assoc_In, assoc_insert_eq.
      * exists p. split; [by apply elem_of_assoc_insert_old|done].
Qed.

Section conversion.
Context (from to : ColumnKind * ColumnOptions).

(** What the loop keeps of the cells it has seen. *)
Definition converted_so_far (seen : Datatypes.list (Uuid * json)) (c : Conversion) : Prop :=
  (forall p, p ∈ conversion_cells c -> p.2 = JNull \/ well_typed to.1 to.2 p.2) /\
  forall i v, (i, v) ∈ seen -> named i (conversion_cells c) \/ well_typed to.1 to.2 v.

Lemma convert_cell_ok seen c cell :
  converted_so_far seen c -> converted_so_far (seen ++ [cell]) (convert_cell from to c cell).
Proof.
  intros [H1' H2']. destruct cell as [i v]. unfold convert_cell. cbn [fst snd].
  destruct (convert from to v) as [next|] eqn:Ec; [apply convert_well_typed in Ec|].
  - destruct (json_eqb next v) eqn:Ee; cbn [conversion_cells]; (split; [|intros j w [Hin|[= -> ->]%list_elem_of_singleton]%elem_of_app]).
    + done.
    + by apply H2'.
    + right. by eapply well_typed_eqb.
    + intros p [->|Hp]%elem_of_assoc_insert; [by right|by apply H1'].
    + destruct (H2' j w Hin) as [?|?]; [left; apply named_insert|]; auto.
    + left. apply named_insert. by left.
  - split; cbn [conversion_cells]; [|intros j w [Hin|[= -> ->]%list_elem_of_singleton]%elem_of_app].
    + intros p [->|Hp]%elem_of_assoc_insert; [by left|by apply H1'].
    + destruct (H2' j w Hin) as [?|?]; [left; apply named_insert|]; auto.
    + left. apply named_insert. by left.
Qed.

Lemma convert_all_ok cells c seen :
  converted_so_far seen c -> converted_so_far (seen ++ cells) (foldl (convert_cell from to) c cells).
Proof.
  revert c seen. induction cells as [|cell cells IH]; intros c seen Hc; cbn; [by rewrite app_nil_r|].
  replace (seen ++ cell :: cells) with ((seen ++ [cell]) ++ cells) by by rewrite <-app_assoc. by apply IH, convert_cell_ok.
Qed.
End conversion.

Lemma convert_cells_ok l id kind options t c :
  well_formed t -> column_at l id t = Some c -> rewriting_ok l id kind options (conversion_cells (convert_cells c kind options t)) t.
Proof.
  intros Hwf Hc. apply column_at_Some in Hc as Hc'. destruct Hc' as [Hrow Hl].
  pose proof (cw_keyed _ (wf_columns _ _ _ Hwf) _ _ Hrow) as Hid. unfold convert_cells.
  destruct (bool_decide (kind = ListColumn.kind c) && bool_decide (options = ListColumn.options c)) eqn:Hsame.
  - split; [by intros p ?%not_elem_of_nil|]. intros k i w Hi Hil Hw _. apply andb_true_iff in Hsame as [->%bool_decide_eq_true ->%bool_decide_eq_true].
    destruct (wf_cells _ _ _ Hwf _ _ Hi) as (m & Em & Hm). rewrite Em in Hw.
    destruct (Hm _ _ Hw) as (id' & c' & Eid & Hc' & Ht). apply uuid_to_string_inj in Eid as <-. rewrite Hil, Hc in Hc'. by injection Hc' as ->.
  - rewrite Hl, Hid. destruct (convert_all_ok (ListColumn.kind c, ListColumn.options c) (kind, options) (cells_in l id t) no_conversion [])
      as [H1' H2']; [split; [by intros p ?%not_elem_of_nil|by intros i v ?%not_elem_of_nil]|]. split; [exact H1'|].
    intros k i w Hi Hil Hw Hnone. destruct (H2' (ListItem.id i) w) as [Hn|Ht]; [|by apply named_find in Hnone|done].
    unfold cells_in. apply list_elem_of_omap. exists i. split; [apply elem_of_live_items; eauto|]. by rewrite Hw.
Qed.

Lemma rewrite_cells_nil l id t : rewrite_cells_in l id [] t = t.
Proof.
  unfold rewrite_cells_in, update_items. destruct t as [ls cs vs is_ ms]. cbn. f_equal.
  rewrite <-(map_fmap_id is_) at 2. apply map_fmap_ext. intros k [i o] _. cbn. by case_bool_decide.
Qed.

Lemma column_of_Some t l id c : well_formed t -> column_of (columns_of l t) id = Ok c -> column_at l id t = Some c.
Proof.
  intros Hwf Hc. rewrite <-find_column_at by apply (wf_columns _ _ _ Hwf). unfold column_of in Hc.
  destruct (find_column _ _); cbn in Hc; congruence.
Qed.

Lemma updated_due_date c req due : updated_due c req = Ok due -> due = true -> updated_kind c req = Date.
Proof.
  unfold updated_due, invalid. destruct (UpdateColumnRequest.due req) as [[]|]; intros E ->; [|done|].
  - case_bool_decide; [done|by simplify_eq].
  - injection E as E. apply andb_true_iff in E as [_ E]. by apply bool_decide_eq_true in E.
Qed.

Lemma update_column_tx_wf l id req d a d' :
  well_formed (T d) -> update_column_tx draw now fresh show_time l id req d = (Ok a, d') -> well_formed (T d').
Proof.
  intros Hwf E. unfold update_column_tx in E. apply tx_bind_Ok in E as (x & d0 & [Hx ->]%lock_Ok & E).
  apply (wf_of_lists _ _ _ Hwf) in Hx as [<- _]. inv_list.
  all: match goal with E : column_of _ _ = Ok ?y |- _ => apply (column_of_Some _ _ _ _ Hwf) in E as Hc; clear E; rename y into c end.
  all: match goal with E : updated_due _ _ = Ok _ |- _ => pose proof (updated_due_date _ _ _ E) as Hdue end.
  all: match goal with E : columns_changed _ _ _ _ _ = _ |- _ => apply columns_changed_Ok in E as [Ht Hcs] end.
  all: match goal with E : prune_views _ _ _ _ _ _ = _ |- _ => rewrite Hcs, <-Ht in E; eapply prune_views_wf, E end.
  all: rewrite Ht; clear Ht Hcs.
  all: match goal with E : updated_options _ _ _ = Ok ?o |- _ =>
    pose proof (convert_cells_ok _ _ (updated_kind c req) o _ _ Hwf Hc) as Hok; set (conv := convert_cells _ _ o _) in * end.
  - tables. by eapply wf_update_column.
  - match goal with E : negb _ = false |- _ => apply negb_false_iff, bool_decide_eq_true in E; rewrite E in Hok end.
    tables. rewrite <-(rewrite_cells_nil (List.id x) id). by eapply wf_update_column.
Qed.

Lemma delete_column_tx_wf l id d a d' :
  (forall c, list_columns (T d) !! id = Some c -> ListColumn.list_id c = l) ->
  well_formed (T d) -> delete_column_tx draw now show_time l id d = (Ok a, d') -> well_formed (T d').
Proof.
  intros Hc Hwf E. unfold delete_column_tx in E. apply tx_bind_Ok in E as (x & d0 & [Hx ->]%lock_Ok & E).
  apply (wf_of_lists _ _ _ Hwf) in Hx as [<- _]. inv_list.
  match goal with E : columns_changed _ _ _ _ _ = _ |- _ => apply columns_changed_Ok in E as [Ht Hcs] end.
  match goal with E : prune_views _ _ _ _ _ _ = _ |- _ => rewrite Hcs, <-Ht in E; eapply prune_views_wf, E end.
  rewrite Ht. tables. by apply wf_delete_column.
Qed.

(** *** Items *)

(** Cells of columns of the list, with their types. *)
Definition typed_cells l t (cells : Datatypes.list (str * json)) : Prop := forall p, p ∈ cells ->
  exists id c, p.1 = uuid_to_string id /\ column_at l id t = Some c /\ well_typed (ListColumn.kind c) (ListColumn.options c) p.2.

Lemma typed_values l t cells : typed_cells l t cells -> values_ok l t (JObject cells).
Proof.
  intros Hc. exists cells. split; [done|]. intros key w Hw%assoc_In%list_elem_of_In. exact (Hc _ Hw).
Qed.

Lemma validate_typed l t values e : well_formed t -> validate (columns_of l t) values = Ok e -> typed_cells l t (edit_set e).
Proof.
  intros Hwf. unfold validate. set (e0 := {| edit_set := [] |}).
  assert (H0' : typed_cells l t (edit_set e0)) by by intros p ?%not_elem_of_nil. clearbody e0. revert e0 H0'.
  induction values as [|[key v] values IH]; intros e0 H0' E; cbn in E; [by injection E as <-|].
  destruct (uuid_parse key) as [id|]; cbn in E; [|discriminate].
  rewrite find_column_at in E by apply (wf_columns _ _ _ Hwf).
  destruct (column_at l id t) as [c|] eqn:Hc; [|discriminate].
  destruct (normalize _ _ v) as [[|w]|] eqn:Hn; [..|discriminate].
  - by eapply IH in E.
  - eapply IH in E; [done|]. intros p [->|Hp]%elem_of_assoc_insert; [|by apply H0'].
    apply column_at_Some in Hc as Hc'. destruct Hc' as [Hk _].
    exists id, c. rewrite (cw_keyed _ (wf_columns _ _ _ Hwf) _ _ Hk). split_and!; [done..|]. by eapply normalize_well_typed.
Qed.

Lemma concat_ok l t v cells : values_ok l t v -> typed_cells l t cells -> values_ok l t (jsonb_concat v (JObject cells)).
Proof.
  intros (m & -> & Hm) Hc. eexists. split; [reflexivity|]. clear -Hm Hc. revert m Hm.
  induction cells as [|p cells IH]; intros m Hm; cbn; [done|]. apply IH; [intros q Hq; apply Hc; by right|].
  intros key w Hw. destruct (decide (key = p.1)) as [->|Hne].
  - rewrite assoc_insert_eq in Hw. injection Hw as <-. apply Hc. left.
  - rewrite assoc_insert_ne in Hw by done. by apply Hm.
Qed.

Lemma remove_all_ok l t v keys : values_ok l t v -> values_ok l t (jsonb_remove_all keys v).
Proof.
  revert v. induction keys as [|k keys IH]; intros v Hv; cbn; [done|]. apply IH. destruct Hv as (m & -> & Hm).
  eexists. split; [reflexivity|]. intros key w Hw. apply Hm. destruct (decide (key = k)) as [->|Hne].
  - by rewrite assoc_remove_eq in Hw.
  - by rewrite assoc_remove_ne in Hw.
Qed.

Lemma new_rank_free l after d r d' id :
  well_formed (T d) -> new_rank l after d = (Ok r, d') -> d' = d /\ is_rank r /\ rank_free (T d) l id r.
Proof.
  intros Hwf E. unfold new_rank in E. destruct after as [a|]; inv_list; (split; [done|]).
  - match goal with E : neighbours_in _ _ _ _ = Some ?ns |- _ => destruct ns as [low high]; eapply between_free in E; eauto end.
  - by apply last_free.
Qed.

Lemma create_item_in_wf u l values after d a d' :
  well_formed (T d) -> create_item_in draw now show_time u l values after d = (Ok a, d') -> well_formed (T d').
Proof.
  intros Hwf E. unfold create_item_in, lock in E. inv_list. 
  match goal with E : new_rank _ _ _ = (Ok _, _) |- _ => rename E into Er end.
  match goal with E : insert_drawn _ _ _ _ _ = (Ok _, _) |- _ => apply insert_drawn_Ok in E as (id & _ & Hid & -> & E); rename E into Ei end.
  quiets. 
  match goal with E : (_ <=? _) = false |- _ => apply Z.leb_gt in E; rename E into Hn end.
  match goal with E : validate _ _ = Ok _ |- _ => apply (validate_typed _ _ _ _ Hwf), typed_values in E; rename E into Hv end.
  match goal with E : list_tables (app ?x) = T d |- _ => rewrite <-E in Hwf, Hn, Hv; clear E end.
  destruct (new_rank_free l after _ _ _ id Hwf Er) as (-> & Hr & Hf). tables. by apply wf_insert_item.
Qed.

Lemma update_live_item_wf id (f : ListItem.t -> ListItem.t) d a d' :
  (forall i, ListItem.id (f i) = ListItem.id i /\ ListItem.list_id (f i) = ListItem.list_id i /\ ListItem.rank (f i) = ListItem.rank i) ->
  (forall i, find_item id (T d) = Some i -> values_ok (ListItem.list_id i) (T d) (ListItem.values (f i))) ->
  well_formed (T d) -> update_live_item id f d = (Ok a, d') -> well_formed (T d').
Proof.
  intros Hf Hv Hwf E. unfold update_live_item in E. inv_list. destruct (find_item id (T d)) as [i|] eqn:Hi; inv_list; [|done].
  tables. apply wf_update_item_row; [intros j; split; apply Hf| |done]. intros j Hj. rewrite Hi in Hj; injection Hj as <-. split; [|split; [|by apply Hv]].
  - destruct (Hf i) as (_ & _ & ->). by eapply (iw_ranks _ (wf_items _ _ _ Hwf)).
  - destruct (Hf i) as (_ & _ & ->). by apply rank_kept_free.
Qed.

(** The item is of the list, if it is there at all. *)
Definition item_home id l t : Prop := forall r, list_items t !! id = Some r -> ListItem.list_id r.1 = l.
Definition column_home id l t : Prop := forall c, list_columns t !! id = Some c -> ListColumn.list_id c = l.

Lemma home_of_item id l t i : item_home id l t -> find_item id t = Some i -> ListItem.list_id i = l.
Proof. intros Hh Hi%find_item_Some. by apply (Hh _ Hi). Qed.

Lemma update_item_in_wf u l id values d a d' :
  well_formed (T d) -> item_home id (List.id l) (T d) ->
  update_item_in draw now show_time u l id values d = (Ok a, d') -> well_formed (T d').
Proof.
  intros Hwf Hh E. unfold update_item_in in E. inv_list.
  match goal with E : update_live_item _ _ _ = (Ok _, _) |- _ => rename E into Eu end. quiets. tables.
  match goal with E : validate _ _ = Ok _ |- _ => apply (validate_typed _ _ _ _ Hwf) in E; rename E into Hv end.
  repeat match goal with E : list_tables (app ?x) = T d |- _ => rewrite <-E in * end.
  eapply update_live_item_wf in Eu; [done|done| |done]. intros i Hi. cbn.
  pose proof (wf_cells _ _ _ Hwf _ _ Hi) as Hc. rewrite (home_of_item _ _ _ _ Hh Hi) in *. by apply remove_all_ok, concat_ok.
Qed.

Lemma move_item_tx_wf l id after d a d' :
  well_formed (T d) -> item_home id l (T d) -> move_item_tx draw now show_time l id after d = (Ok a, d') -> well_formed (T d').
Proof.
  intros Hwf Hh E. unfold move_item_tx, lock in E. inv_list.
  match goal with E : move_item_in _ _ _ _ = (Ok _, _) |- _ => unfold move_item_in in E; rename E into Em end.
  quiets. tables. inv_list. destruct (list_items (T d) !! id) as [[i o]|] eqn:Hi; inv_list. tables.
  apply wf_update_item_row; [done| |done]. intros j Hj. pose proof (home_of_item _ _ _ _ Hh Hj) as Hl. cbn.
  match goal with E : neighbours_in _ _ _ _ = Some ?ns |- _ =>
    destruct ns as [low high]; destruct (between_free _ _ _ id _ _ _ Hwf E (or_intror eq_refl)) as [Hr Hf] end.
  split; [done|split; [by rewrite Hl|by apply (wf_cells _ _ _ Hwf id)]].
Qed.

Lemma delete_item_tx_wf l id d a d' : well_formed (T d) -> delete_item_tx draw now l id d = (Ok a, d') -> well_formed (T d').
Proof.
  intros Hwf E. unfold delete_item_tx in E. inv_list. quiets. 
  match goal with E : _ = find_item _ _ |- _ => idtac | _ => destruct (find_item _ _) eqn:Hi; inv_list end.
  tables. by apply wf_delete_item.
Qed.

(** *** Comments *)

(** Comments are no part of it. *)
Lemma wf_set_comments t f : well_formed t -> well_formed (set_list_item_comments f t).
Proof.
  intros [W1 W2 W3 W4 W5]. assert (Hk : columns_kept t (set_list_item_comments f t)) by (apply columns_kept_refl; by destruct t).
  constructor.
  - by destruct t.
  - apply (columns_wf_same t); [by destruct t|by destruct t|done].
  - apply (items_wf_same t); [by destruct t|done].
  - apply (cells_kept t); [by destruct t|done|done].
  - apply (views_fit_kept t); [apply W2|destruct t; apply W2|by destruct t|by destruct t|done|done].
Qed.

Lemma comment_counted_wf l id delta d a d' :
  well_formed (T d) -> comment_counted draw now show_time l id delta d = (Ok a, d') -> well_formed (T d').
Proof.
  intros Hwf E. unfold comment_counted in E. inv_list. quiets. tables.
  match goal with E : update_live_item _ _ _ = (Ok _, _) |- _ => eapply update_live_item_wf in E; [done..| |done] end.
  intros i Hi. exact (wf_cells _ _ _ Hwf _ _ Hi).
Qed.

Lemma add_comment_tx_wf u l id content d a d' :
  well_formed (T d) -> add_comment_tx draw now show_time u l id content d = (Ok a, d') -> well_formed (T d').
Proof.
  intros Hwf E. unfold add_comment_tx, insert_comment_in in E. inv_list. 
  match goal with E : comment_counted _ _ _ _ _ _ _ = (Ok _, _) |- _ => rename E into Ec end.
  match goal with E : insert_drawn _ _ _ _ _ = (Ok _, _) |- _ => apply insert_drawn_Ok in E as (? & _ & _ & _ & E) end.
  quiets. tables. apply wf_set_comments. eapply comment_counted_wf, Ec.
  match goal with E : list_tables (app ?x) = T d |- _ => by rewrite E end.
Qed.

Lemma edit_comment_tx_wf l id content d a d' :
  well_formed (T d) -> edit_comment_tx draw now show_time l id content d = (Ok a, d') -> well_formed (T d').
Proof. intros Hwf E. unfold edit_comment_tx in E. inv_list. quiets. tables. by apply wf_set_comments. Qed.

Lemma delete_comment_tx_wf l c id d a d' :
  well_formed (T d) -> delete_comment_tx draw now show_time l c id d = (Ok a, d') -> well_formed (T d').
Proof.
  intros Hwf E. unfold delete_comment_tx in E. inv_list. destruct (find_comment _ _); inv_list; [|discriminate].
  match goal with E : update_live_item _ _ ?x = (Ok ?o, ?y) |- _ =>
    assert (Hy : well_formed (T y)); [|clear E; destruct o; inv_list; quiets; tables; done] end.
  match goal with E : update_live_item _ _ ?x = (Ok ?o, ?y) |- _ =>
    assert (Hx : well_formed (T x)); [|eapply update_live_item_wf in E; [done..| |done]; intros i Hi; exact (wf_cells _ _ _ Hx _ _ Hi)] end.
  quiets. tables. by apply wf_set_comments.
Qed.

(** ** Requests *)

(** The row a request names, whose list it asks for before it changes it. *)
Inductive Subject := NoRow | ColumnRow (id : Uuid) | ItemRow (id : Uuid).

(** Identifiers are never given again: the row is one that was there, in the
    same list. *)
Definition not_reused (s : Subject) : relation ApiDb := fun d d' =>
  match s with
  | NoRow => True
  | ColumnRow id => forall c', list_columns (T d') !! id = Some c' ->
      exists c, list_columns (T d) !! id = Some c /\ ListColumn.list_id c' = ListColumn.list_id c
  | ItemRow id => forall r', list_items (T d') !! id = Some r' ->
      exists r, list_items (T d) !! id = Some r /\ ListItem.list_id r'.1 = ListItem.list_id r.1
  end.

(** A step that keeps lists well formed. *)
Definition keeps_lists : relation ApiDb := fun d d' => well_formed (T d) -> well_formed (T d').
Definition keeps_for (s : Subject) : relation ApiDb := fun d d' => keeps_lists d d' /\ not_reused s d d'.

#[local] Instance keeps_for_preorder s : PreOrder (keeps_for s).
Proof.
  split.
  - intros d. split; [by intros ?|]. destruct s; cbn; eauto.
  - intros d1 d2 d3 [K1 N1] [K2 N2]. split; [intros Hwf; by apply K2, K1|].
    destruct s; cbn in *; [done|..]; intros x Hx; destruct (N2 x Hx) as (y & Hy & E); destruct (N1 y Hy) as (z & Hz & E');
      exists z; split; congruence.
Qed.

#[local] Hint Resolve keeps_for_preorder : follows.

Lemma keeps_quiet s d d' : T d' = T d -> keeps_for s d d'.
Proof. intros E. unfold keeps_for, keeps_lists, not_reused. rewrite E. split; [done|]. destruct s; eauto. Qed.
Lemma keeps_app s d d' : app d' = app d -> keeps_for s d d'.
Proof. intros E. apply keeps_quiet. by rewrite E. Qed.

Lemma wf_stable s : stable (keeps_for s) (fun d => well_formed (T d)).
Proof. intros d d' [K _]. exact K. Qed.

(** A transaction of a request that names no row beforehand. *)
Lemma tx_keeps {A} (m : Tx ApiDb A) :
  (forall d a d', well_formed (T d) -> m d = (Ok a, d') -> well_formed (T d')) -> follows (keeps_for NoRow) (transaction m).
Proof. intros Hm. apply transaction_Ok_follows; [apply _|]. intros d a d' E. split; [intros Hwf; by eapply Hm|done]. Qed.

Lemma list_query_follows R {A} (q : ListTables -> A) : PreOrder R -> follows R (list_query q).
Proof. intros HR. apply query_follows, _. Qed.
Lemma authorize_follows R u l b : PreOrder R -> follows R (authorize u l b).
Proof. intros HR. unfold authorize. solve_follows. Qed.
#[local] Hint Resolve list_query_follows authorize_follows : follows.
Lemma service_find_follows R id : PreOrder R -> follows R (service_find id).
Proof. intros HR. unfold service_find, require. solve_follows. Qed.
#[local] Hint Resolve service_find_follows : follows.
Lemma readable_follows R u id : PreOrder R -> follows R (readable u id).
Proof. intros HR. unfold readable. solve_follows. Qed.
Lemma writable_follows R u id : PreOrder R -> follows R (writable u id).
Proof. intros HR. unfold writable. solve_follows. Qed.
#[local] Hint Resolve readable_follows writable_follows : follows.

(** Publishing, and bringing Later in step, leave lists alone. *)
Lemma dispatch_keeps s x : follows (keeps_for s) (dispatch entry_id now x).
Proof. apply dispatch_follows; [apply _|apply keeps_app]. Qed.
Lemma dispatch_all_keeps s l : follows (keeps_for s) (dispatch_all entry_id now l).
Proof. apply dispatch_all_follows; [apply _|apply keeps_app]. Qed.
#[local] Hint Resolve dispatch_keeps dispatch_all_keeps : follows.
Lemma dispatch_opt_keeps s o : follows (keeps_for s) (dispatch_opt entry_id now o).
Proof. unfold dispatch_opt. solve_follows. Qed.
#[local] Hint Resolve dispatch_opt_keeps : follows.

Lemma add_due_quiet a : quiet (add_due draw now a).
Proof.
  unfold add_due, insert_later. intros d x d' E. inv_list. destruct (row_for _ _ _); inv_list; try done.
  cbn. by destruct (app d).
Qed.
Lemma tx_each_quiet {A B} (f : A -> Tx ApiDb B) l : (forall x, quiet (f x)) -> quiet (tx_each f l).
Proof.
  intros Hf. induction l as [|x l IH]; intros d bs d' E; cbn in E; inv_list; [done|].
  etransitivity; [eapply IH; eassumption|by eapply Hf].
Qed.
Lemma sync_list_due_tx_quiet o : quiet (sync_list_due_tx draw now o).
Proof.
  unfold sync_list_due_tx. intros d x d' E. inv_list.
  match goal with E : tx_each _ _ _ = (Ok _, ?y) |- _ => apply tx_each_quiet in E; [rewrite <-E; cbn; by destruct (app y)|apply add_due_quiet] end.
Qed.
Lemma announce_later_keeps s u ws : follows (keeps_for s) (announce_later entry_id draw now u ws).
Proof. unfold announce_later, publish. apply follows_bind; [apply _|solve_follows|intros ?]. 
  apply follows_bind; [apply _|apply emit_follows; [apply _|apply keeps_app]|intros ?; solve_follows].
Qed.
#[local] Hint Resolve announce_later_keeps : follows.
Lemma sync_due_keeps s o : follows (keeps_for s) (sync_due entry_id draw now o).
Proof.
  unfold sync_due, sync_list_due. apply follows_bind; [apply _| |intros ?; solve_follows].
  apply transaction_Ok_follows; [apply _|]. intros d a d' E. by eapply keeps_quiet, sync_list_due_tx_quiet.
Qed.
#[local] Hint Resolve sync_due_keeps : follows.
Lemma announce_keeps s x : follows (keeps_for s) (announce entry_id draw now x).
Proof. unfold announce. solve_follows. Qed.
#[local] Hint Resolve announce_keeps : follows.

Lemma resolve_columns_from_length n cs r : resolve_columns_from fresh n cs = Ok r -> length r = length cs.
Proof.
  revert n r. induction cs as [|c cs IH]; intros n r E; cbn in E; [by injection E as <-|].
  destruct (clean_column_name _); [|discriminate]. cbn in E. destruct (resolve_options _ _ _); [|discriminate]. cbn in E.
  destruct (resolve_columns_from _ _ cs) eqn:Er; [|discriminate]. cbn in E. injection E as <-. cbn. f_equal. by eapply IH.
Qed.
Lemma resolve_columns_length cs r : resolve_columns fresh cs = Ok r -> (length r <= MAX_COLUMNS)%nat.
Proof.
  unfold resolve_columns. destruct (MAX_COLUMNS <? length cs)%nat eqn:El; [done|]. apply Nat.ltb_ge in El.
  by intros ->%resolve_columns_from_length.
Qed.

(** Walks a request: what was computed, and the transactions. *)
Ltac wf_tx :=
  lazymatch goal with
  | E : ?m _ = (Ok _, _) |- _ =>
      lazymatch m with
      | context [create_tx] => eapply create_tx_wf; [..|exact E]
      | context [update_tx] => eapply update_tx_wf; [..|exact E]
      | context [delete_tx] => eapply delete_tx_wf; [..|exact E]
      | context [add_column_tx] => eapply add_column_tx_wf; [..|exact E]
      | context [update_column_tx] => eapply update_column_tx_wf; [..|exact E]
      | context [reorder_columns_tx] => eapply reorder_columns_tx_wf; [..|exact E]
      | context [create_view_tx] => eapply create_view_tx_wf; [..|exact E]
      | context [update_view_tx] => eapply update_view_tx_wf; [..|exact E]
      | context [delete_view_tx] => eapply delete_view_tx_wf; [..|exact E]
      | context [reorder_views_tx] => eapply reorder_views_tx_wf; [..|exact E]
      | context [create_item_in] => eapply create_item_in_wf; [..|exact E]
      | context [delete_item_tx] => eapply delete_item_tx_wf; [..|exact E]
      | context [add_comment_tx] => eapply add_comment_tx_wf; [..|exact E]
      | context [edit_comment_tx] => eapply edit_comment_tx_wf; [..|exact E]
      | context [delete_comment_tx] => eapply delete_comment_tx_wf; [..|exact E]
      end
  end.
#[local] Hint Opaque transaction dispatch dispatch_all dispatch_opt sync_due announce announce_later query list_query
  service_find authorize readable writable require_channel_post require_channel_access require_workspace_member find_channel
  require_channel_moderator keeps_for : follows.
Ltac list_step :=
  match goal with
  | |- follows _ (transaction _) => apply tx_keeps; intros; wf_tx; eauto using resolve_columns_length
  | |- follows _ (and_then (mret _) _) => apply then_pure_follows; [apply _|intros ? ?]
  | |- _ => follows_step
  end.
Ltac solve_request := intros; repeat list_step.

(** ** Every request *)

Inductive ListOp :=
| OpCreate (ws : Uuid) (req : CreateListRequest.t)
| OpUpdate (list_id : Uuid) (req : UpdateListRequest.t)
| OpDelete (list_id : Uuid)
| OpDetail (list_id : Uuid)
| OpItems (list_id : Uuid)
| OpAddColumn (list_id : Uuid) (req : NewColumn.t)
| OpPreviewColumn (column_id : Uuid) (req : ColumnChangePreview.t)
| OpUpdateColumn (column_id : Uuid) (req : UpdateColumnRequest.t)
| OpDeleteColumn (column_id : Uuid)
| OpReorderColumns (list_id : Uuid) (order : Datatypes.list Uuid)
| OpCreateView (list_id : Uuid) (req : CreateViewRequest.t)
| OpUpdateView (view_id : Uuid) (req : UpdateViewRequest.t)
| OpDeleteView (view_id : Uuid)
| OpReorderViews (list_id : Uuid) (order : Datatypes.list Uuid)
| OpCreateItem (list_id : Uuid) (req : CreateItemRequest.t)
| OpUpdateItem (item_id : Uuid) (values : Datatypes.list (str * json))
| OpMoveItem (item_id : Uuid) (after_id : option Uuid)
| OpDeleteItem (item_id : Uuid)
| OpCheckOff (item_id : Uuid)
| OpComments (item_id : Uuid)
| OpAddComment (item_id : Uuid) (content : str)
| OpEditComment (comment_id : Uuid) (content : str)
| OpDeleteComment (comment_id : Uuid)
| OpSyncDue (only_list : option Uuid).

Definition handle_op (u : Uuid) (op : ListOp) : Svc ApiDb unit :=
  match op with
  | OpCreate ws req => _ ← create entry_id draw now fresh show_time u ws req; mret tt
  | OpUpdate l req => _ ← update entry_id draw now show_time u l req; mret tt
  | OpDelete l => _ ← delete_list entry_id draw now u l; mret tt
  | OpDetail l => _ ← detail u l; mret tt
  | OpItems l => _ ← items u l; mret tt
  | OpAddColumn l req => _ ← add_column entry_id draw now fresh u l req; mret tt
  | OpPreviewColumn c req => _ ← preview_column fresh u c req; mret tt
  | OpUpdateColumn c req => _ ← update_column entry_id draw now fresh show_time u c req; mret tt
  | OpDeleteColumn c => _ ← delete_column entry_id draw now show_time u c; mret tt
  | OpReorderColumns l order => _ ← reorder_columns entry_id draw now u l order; mret tt
  | OpCreateView l req => _ ← create_view entry_id draw now show_time u l req; mret tt
  | OpUpdateView v req => _ ← update_view entry_id draw now show_time u v req; mret tt
  | OpDeleteView v => _ ← delete_view entry_id draw now show_time u v; mret tt
  | OpReorderViews l order => _ ← reorder_views entry_id draw now show_time u l order; mret tt
  | OpCreateItem l req => _ ← create_item entry_id draw now show_time u l req; mret tt
  | OpUpdateItem i values => _ ← update_item entry_id draw now show_time u i values; mret tt
  | OpMoveItem i after => _ ← move_item entry_id draw now show_time u i after; mret tt
  | OpDeleteItem i => _ ← delete_item entry_id draw now u i; mret tt
  | OpCheckOff i => _ ← check_off entry_id draw now show_time u i; mret tt
  | OpComments i => _ ← comments u i; mret tt
  | OpAddComment i content => _ ← add_comment entry_id draw now show_time u i content; mret tt
  | OpEditComment c content => _ ← edit_comment entry_id draw now show_time u c content; mret tt
  | OpDeleteComment c => _ ← delete_comment entry_id draw now show_time u c; mret tt
  | OpSyncDue l => sync_due entry_id draw now l
  end.

Definition subject (op : ListOp) : Subject :=
  match op with
  | OpDeleteColumn c => ColumnRow c
  | OpUpdateItem i _ | OpMoveItem i _ | OpCheckOff i => ItemRow i
  | _ => NoRow
  end.

Lemma handle_keeps u op : subject op = NoRow -> follows (keeps_for NoRow) (handle_op u op).
Proof.
  intros Hs. destruct op; try discriminate Hs; clear Hs; cbn [handle_op];
    unfold create, update, delete_list, detail, items, add_column, preview_column, update_column, reorder_columns,
      create_view, update_view, delete_view, reorder_views, create_item, delete_item, comments, add_comment, edit_comment,
      delete_comment, item_place, column_place, view_place, service_find_comment, require, refuse;
    solve_request.
Qed.

(** *** Requests that ask for the list of a row first *)

(** From well-formed tables to well-formed tables. *)
Definition safe {A} (s : Subject) (m : Svc ApiDb A) : Prop :=
  triple (keeps_for s) (fun d => well_formed (T d)) m (fun _ d => well_formed (T d)).

Definition home (s : Subject) l d : Prop :=
  match s with NoRow => True | ColumnRow id => column_home id l (T d) | ItemRow id => item_home id l (T d) end.
Definition settled (s : Subject) l d : Prop := well_formed (T d) /\ home s l d.

Lemma settled_stable s l : stable (keeps_for s) (settled s l).
Proof.
  intros d d' [K N] [Hwf Hh]. split; [by apply K|]. destruct s as [|id|id]; cbn in *; [done|..];
    intros x Hx; destruct (N x Hx) as (y & Hy & ->); by apply Hh.
Qed.

Lemma safe_follows {A} s (P : ApiDb -> Prop) (m : Svc ApiDb A) :
  stable (keeps_for s) P -> follows (keeps_for s) m -> triple (keeps_for s) P m (fun _ d => P d).
Proof. apply triple_of_follows. Qed.

(** A query answers what the tables say when it is made. *)
Lemma list_query_triple {A} s (P : ApiDb -> Prop) (q : ListTables -> A) :
  stable (keeps_for s) P ->
  triple (keeps_for s) P (list_query q) (fun r d => match r with Ok a => a = q (T d) /\ P d | Err _ => P d end).
Proof.
  intros Hst. unfold list_query, query, sql_read, sql.
  eapply (triple_bind _ _ _ _ (fun r d => match r with Ok a => a = q (T d) /\ P d | Err _ => P d end)).
  - apply (triple_call _); auto. intros d _. reflexivity.
  - intros [a|f]; apply (triple_ret _); done.
Qed.

(** The answer is the list the row is in. *)
Lemma place_triple s (q : ListTables -> option Uuid) e :
  (forall d l, well_formed (T d) -> q (T d) = Some l -> home s l d) ->
  triple (keeps_for s) (fun d => well_formed (T d)) (l ←? list_query q; require e l)
    (fun r d => match r with Ok l => settled s l d | Err _ => well_formed (T d) end).
Proof.
  intros Hq. eapply (triple_then _ _ _ _ (fun l d => l = q (T d) /\ well_formed (T d))).
  - apply (list_query_triple s (fun d => well_formed (T d))), wf_stable.
  - intros o. unfold require. apply (triple_ret _). intros d [-> Hwf]. destruct (q (T d)) as [l|] eqn:E; cbn; [|done].
    split; [done|by apply Hq].
  - done.
Qed.

Lemma in_live_list_Some t o l : in_live_list t o = Some l -> o = Some l.
Proof. unfold in_live_list. destruct o; cbn; [|done]. destruct (find_list _ _); [by intros [= ->]|done]. Qed.

Lemma item_place_triple id :
  triple (keeps_for (ItemRow id)) (fun d => well_formed (T d)) (item_place id)
    (fun r d => match r with Ok l => settled (ItemRow id) l d | Err _ => well_formed (T d) end).
Proof.
  apply place_triple. intros d l _ Hl%in_live_list_Some r Hr. apply fmap_Some in Hl as (i & Hi%find_item_Some & ->). rewrite Hr in Hi. by injection Hi as ->.
Qed.
Lemma column_place_triple id :
  triple (keeps_for (ColumnRow id)) (fun d => well_formed (T d)) (column_place id)
    (fun r d => match r with Ok l => settled (ColumnRow id) l d | Err _ => well_formed (T d) end).
Proof.
  apply place_triple. intros d l _ Hl%in_live_list_Some c Hc. apply fmap_Some in Hl as (c' & Hc' & ->). rewrite Hc in Hc'. by injection Hc' as ->.
Qed.

(** The list a request may write is the one it asked for. *)
Lemma writable_triple s u l0 l :
  triple (keeps_for s) (settled s l0) (writable u l)
    (fun r d => match r with Ok x => List.id x = l /\ settled s l0 d | Err _ => settled s l0 d end).
Proof.
  unfold writable, service_find.
  eapply (triple_then _ _ _ _ (fun x d => List.id x = l /\ settled s l0 d)); [..|done].
  - eapply (triple_then _ _ _ _ (fun o d => o = find_list l (T d) /\ settled s l0 d)); [..|done].
    + apply (list_query_triple s), settled_stable.
    + intros o. unfold require. apply (triple_ret _). intros d [-> Hs]. destruct (find_list l (T d)) as [x|] eqn:E; cbn; [|done].
      split; [|done]. by apply (wf_of_lists _ _ _ (proj1 Hs)) in E as [? _].
  - intros x. eapply (triple_then _ _ _ _ (fun _ d => List.id x = l /\ settled s l0 d)); [| |by intros e d [_ ?]].
    + eapply triple_post; [|apply safe_follows; [|apply authorize_follows, _]].
      * by intros [?|?] d Hd.
      * intros d d' K [? Hs]. split; [done|]. by eapply settled_stable.
    + intros y. by apply (triple_ret _).
Qed.

(** The transactions of these requests create no rows. *)
Lemma not_reused_item_row s id f d d' :
  (forall i, ListItem.list_id (f i) = ListItem.list_id i) -> T d' = update_item_row id f (T d) -> not_reused s d d'.
Proof.
  intros Hf E. destruct s as [|k|k]; cbn; [done|..]; rewrite E; intros r' Hr.
  - exists r'. split; [|done]. by destruct (T d).
  - destruct (T d). cbn in *. apply lookup_alter_inv in Hr as (r & Hr & ->). exists r. split; [done|].
    case_bool_decide; [apply Hf|done].
Qed.

Lemma update_item_in_reuses s u l id values d a d' :
  update_item_in draw now show_time u l id values d = (Ok a, d') -> not_reused s d d'.
Proof.
  intros E. unfold update_item_in, update_live_item in E. inv_list.
  match goal with E : context [match find_item ?i ?t with _ => _ end] |- _ => destruct (find_item i t); inv_list; try discriminate end.
  quiets. eapply (not_reused_item_row _ id (merge_item _ _ _)); [|tables; done]. done.
Qed.
Lemma move_item_tx_reuses s l id after d a d' : move_item_tx draw now show_time l id after d = (Ok a, d') -> not_reused s d d'.
Proof.
  intros E. unfold move_item_tx, lock, move_item_in in E. inv_list. quiets.
  destruct (list_items (T d) !! id) as [[i o]|] eqn:Hi; inv_list.
  eapply (not_reused_item_row _ id (Item.set_rank _ _)); [|tables; done]. done.
Qed.

(** Pruning touches views alone. *)
Lemma prune_views_rows l cs d a d' :
  prune_views draw now show_time l cs d = (Ok a, d') -> list_columns (T d') = list_columns (T d) /\ list_items (T d') = list_items (T d).
Proof.
  assert (Heach : forall vs b d b' d', prune_each now cs vs b d = (Ok b', d') ->
    list_columns (T d') = list_columns (T d) /\ list_items (T d') = list_items (T d)).
  { induction vs as [|v vs IH]; intros b d0 b' d1 E; cbn in E; inv_list; [done|by eapply IH|].
    match goal with E : prune_each _ _ _ _ _ = _ |- _ => apply IH in E as [-> ->] end. tables. by destruct (T d0). }
  intros E. unfold prune_views in E. inv_list;
    match goal with E : prune_each _ _ _ _ _ = _ |- _ => apply Heach in E as [<- <-] end; [|done].
  match goal with E : views_changed _ _ _ _ _ = _ |- _ => apply views_changed_quiet in E; by rewrite E end.
Qed.

Lemma delete_column_tx_reuses s l id d a d' : delete_column_tx draw now show_time l id d = (Ok a, d') -> not_reused s d d'.
Proof.
  intros E. unfold delete_column_tx, lock in E. inv_list.
  match goal with E : columns_changed _ _ _ _ _ = _ |- _ => apply columns_changed_Ok in E as [Ht _] end.
  match goal with E : prune_views _ _ _ _ _ _ = _ |- _ => apply prune_views_rows in E as [Ec Ei] end.
  rewrite Ht in Ec, Ei.
  match goal with E : T (with_app _ _) = _ |- _ => rewrite E in Ec, Ei end.
  destruct s as [|k|k]; cbn; [done|rewrite Ec|rewrite Ei]; intros r' Hr; destruct (T d); cbn in *.
  - apply lookup_delete_Some in Hr as [_ Hr]. eauto.
  - apply lookup_fmap_inv in Hr as (r & Hr & ->). exists r. split; [done|]. by case_bool_decide.
Qed.

(** A transaction that finds the row where it was. *)
Lemma tx_safe {A} s (P : ApiDb -> Prop) (m : Tx ApiDb A) :
  stable (keeps_for s) P -> (forall d, P d -> well_formed (T d)) ->
  (forall d a d', P d -> m d = (Ok a, d') -> well_formed (T d') /\ not_reused s d d') ->
  triple (keeps_for s) P (transaction m) (fun _ d => well_formed (T d)).
Proof.
  intros Hst Hwf Hm. apply (transaction_triple _); [done| |auto].
  intros d a d' HP E. destruct (Hm d a d' HP E) as [W N]. split; [by split; [intros _|]|done].
Qed.

(** Ends a request after its transaction. *)
Lemma safe_done {A} s (m : Svc ApiDb A) : follows (keeps_for s) m -> triple (keeps_for s) (fun d => well_formed (T d)) m (fun _ d => well_formed (T d)).
Proof. apply safe_follows, wf_stable. Qed.

(** A request on a row: its list is asked for, then whether it may be written. *)
Lemma row_request_safe {A B} s (place : Api Uuid) u (f : Uuid -> List.t -> Tx ApiDb A) (k : Uuid -> A -> Api B) :
  triple (keeps_for s) (fun d => well_formed (T d)) place
    (fun r d => match r with Ok l => settled s l d | Err _ => well_formed (T d) end) ->
  (forall l x d a d', List.id x = l -> settled s l d -> f l x d = (Ok a, d') -> well_formed (T d') /\ not_reused s d d') ->
  (forall l a, follows (keeps_for s) (k l a)) ->
  safe s (l ←? place; x ←? writable u l; a ←? transaction (f l x); k l a).
Proof.
  intros Hp Hf Hk. unfold safe. eapply (triple_try _ _ _ _ (fun l d => settled s l d)); [exact Hp|].
  intros l. eapply (triple_try _ _ _ _ (fun x d => List.id x = l /\ settled s l d)).
  { eapply triple_post; [|apply writable_triple]. intros [x|e] d; [done|by intros [? _]]. }
  intros x. eapply (triple_try _ _ _ _ (fun _ d => well_formed (T d))); [|intros a; by apply safe_done].
  eapply triple_post; [|eapply (tx_safe s (fun d => List.id x = l /\ settled s l d))].
  - by intros [a|e] d.
  - intros d d' K [E Hs]. split; [done|]. by eapply settled_stable.
  - by intros d [_ [? _]].
  - intros d a d' [E Hs] Ef. by eapply Hf.
Qed.

Lemma update_item_safe u id values : safe (ItemRow id) (update_item entry_id draw now show_time u id values).
Proof.
  unfold update_item. apply (row_request_safe (ItemRow id) _ u (fun _ l => update_item_in draw now show_time u l id values)
    (fun _ write => _ ← announce entry_id draw now write; mret (Ok (written write)))); [apply item_place_triple| |].
  - intros l x d a d' <- [Hwf Hh] E. split; [by eapply update_item_in_wf|by eapply update_item_in_reuses].
  - intros l a. solve_request.
Qed.

Lemma move_item_safe u id after : safe (ItemRow id) (move_item entry_id draw now show_time u id after).
Proof.
  unfold move_item. case_bool_decide; [apply safe_done; solve_request|].
  apply (row_request_safe (ItemRow id) _ u (fun l _ => move_item_tx draw now show_time l id after)
    (fun _ done_ => _ ← dispatch entry_id now done_.2; mret (Ok done_.1))); [apply item_place_triple| |].
  - intros l x d a d' _ [Hwf Hh] E. split; [by eapply move_item_tx_wf|by eapply move_item_tx_reuses].
  - intros l a. solve_request.
Qed.

Lemma delete_column_safe u id : safe (ColumnRow id) (delete_column entry_id draw now show_time u id).
Proof.
  unfold delete_column.
  apply (row_request_safe (ColumnRow id) _ u (fun l _ => delete_column_tx draw now show_time l id)
    (fun l done_ => _ ← dispatch entry_id now done_.1; _ ← dispatch_opt entry_id now done_.2; _ ← sync_due entry_id draw now (Some l);
                    mret (Ok tt))); [apply column_place_triple| |].
  - intros l x d a d' _ [Hwf Hh] E. split; [by eapply delete_column_tx_wf|by eapply delete_column_tx_reuses].
  - intros l a. solve_request.
Qed.

Lemma check_off_safe u id : safe (ItemRow id) (check_off entry_id draw now show_time u id).
Proof.
  unfold safe, check_off. eapply (triple_try _ _ _ _ (fun _ d => well_formed (T d))).
  { eapply triple_post; [|apply safe_done, list_query_follows, _]. by intros [?|?] d. }
  intros [l|]; [|by apply (triple_ret _)].
  eapply (triple_bind _ _ _ _ (fun _ d => well_formed (T d))); [apply safe_done, writable_follows, _|].
  intros [x|e]; [|destruct e; by apply (triple_ret _)].
  eapply (triple_try _ _ _ _ (fun _ d => well_formed (T d))).
  { eapply triple_post; [|apply safe_done, list_query_follows, _]. by intros [?|?] d. }
  intros columns. destruct (head _) as [box|]; [|by apply (triple_ret _)].
  eapply (triple_try _ _ _ _ (fun _ d => well_formed (T d))); [|by intros a; apply (triple_ret _)].
  eapply triple_post; [|apply update_item_safe]. by intros [?|?] d.
Qed.

(** C6: lists stay well formed.  Whatever is asked of lists (creating, editing
    and deleting lists, columns, views, items and comments, moving items,
    checking them off, bringing Later in step with them), by anybody, while
    others change the tables as well and whichever calls fail or lose their
    answers: from tables where every cell has the type of a column of its list,
    ranks are well formed and no two items of a list share one, views fit the
    columns, a list has one due column at most and it is a date, and nothing
    exceeds its limit, the request leads to such tables again. *)
Theorem lists_stay_well_formed (u : Uuid) (op : ListOp) (w : SvcWorld ApiDb) :
  rely (keeps_for (subject op)) w -> well_formed (T (shared w)) -> well_formed (T (shared (handle_op u op w).2)).
Proof.
  intros Hrely Hwf.
  assert (Hsafe : safe (subject op) (handle_op u op)).
  { assert (Hthen : forall A s (m : Api A), safe s m -> safe s (_ ← m; mret tt)).
    { intros A s m Hm. unfold safe. eapply (triple_bind _); [exact Hm|]. intros r. by apply (triple_ret _). }
    destruct op; try (apply safe_done, handle_keeps; reflexivity); apply Hthen;
      [apply delete_column_safe|apply update_item_safe|apply move_item_safe|apply check_off_safe]. }
  by apply (Hsafe w Hrely Hwf).
Qed.
End laws.

(** ** Examples *)

(** User 3 makes a list in channel 32 of [SampleTables]: 100, with the columns
    101 (title), 102 (owner), 103 (due date) and 104 (done) and the view 105,
    and then the items 106 and 107. *)
Module SampleBoard.
#[global] Existing Instances SampleLists.uuid SampleLists.text.
#[global] Instance folding : CaseFolding := { to_lowercase s := s }.
#[global] Instance floats : FloatText := { f64_to_string _ := $"1"; f64_parse _ := None }.
#[global] Instance pg : PgText := {
  cast_date s := match s with [z] => Some z | _ => None end;
  cast_uuid := uuid_parse;
  local_day _ _ := Some 20000;
  nine_on day _ := day * 86400 + 32400;
}.
Definition entry_id : str -> Datatypes.list (str * str * Frames.Event) -> str := fun _ _ => $"0-1".
Definition draw (d : ApiDb) : Uuid :=
  let t := list_tables (app d) in
  N.of_nat (100 + size (lists t) + size (list_columns t) + size (list_views t) + size (list_items t) +
            size (list_item_comments t) + size (later_items (app d))).
Definition fresh (n k : nat) : Uuid := N.of_nat (2000 + 100 * n + k).
Definition show_time (z : Z) : str := [z].
Definition now : Z := 20000 * 86400.
Definition plain : ColumnOptions := {| choices := []; number := None |}.
Definition columns := [($"Title", (Text, plain)); ($"Owner", (Person, plain)); ($"Due", (Date, plain)); ($"Done", (Checkbox, plain))].
Definition made : ApiDb := (create_tx draw now show_time 3%N 20%N (Some 32%N) ($"Launch") [] columns SampleTables.db).2.
Definition mark_due : UpdateColumnRequest.t :=
  {| UpdateColumnRequest.name := None; UpdateColumnRequest.kind := None; UpdateColumnRequest.options := None;
     UpdateColumnRequest.hidden := None; UpdateColumnRequest.due := Some true; UpdateColumnRequest.confirm_cleared := None |}.
Definition marked : ApiDb := (update_column_tx draw now fresh show_time 100%N 103%N mark_due made).2.
Definition values (title : string) (day : Z) : Datatypes.list (str * json) :=
  [([101], JString (lit title)); ([102], JString [3]); ([103], JString [day])].
Definition first : ApiDb := (create_item_in draw now show_time 3%N 100%N (values "Fix login" 20001) None marked).2.
Definition db : ApiDb := (create_item_in draw now show_time 3%N 100%N (values "Write docs" 20005) None first).2.

Lemma no_lists_wf : well_formed ListStore.no_lists.
Proof.
  constructor; [done|..].
  - constructor; try done. intros l. vm_compute. lia.
  - constructor; done.
  - done.
  - constructor; try done. intros l. vm_compute. lia.
Qed.

(** The tables a transaction that commits on well-formed tables leaves. *)
Ltac wf_step lemma :=
  match goal with
  | |- well_formed (T (?m ?d).2) =>
      destruct (m d) as [[a|e] d'] eqn:E; [cbn [snd]; eapply lemma; [..|exact E]|vm_compute in E; discriminate E]
  end.

Lemma made_wf : well_formed (T made).
Proof. unfold made. wf_step create_tx_wf; [vm_compute; lia|apply no_lists_wf]. Qed.
Lemma marked_wf : well_formed (T marked).
Proof. unfold marked. wf_step update_column_tx_wf. apply made_wf. Qed.
Lemma first_wf : well_formed (T first).
Proof. unfold first. wf_step create_item_in_wf. apply marked_wf. Qed.
Lemma db_wf : well_formed (T db).
Proof. unfold db. wf_step create_item_in_wf. apply first_wf. Qed.

(** Before every call somebody deletes the first item, if it is still there;
    the second call fails. *)
Definition commit {A} (m : Tx ApiDb A) (d : ApiDb) : ApiDb := match m d with (Ok _, d') => d' | (Err _, _) => d end.
Definition deleting (d : ApiDb) : ApiDb :=
  match find_list 100%N (T d) with Some l => commit (delete_item_tx draw now l 106%N) d | None => d end.
Definition tick (fault : option svc_fault) : SvcTick ApiDb := {| others := deleting; call_fault := fault |}.
Definition busy : SvcWorld ApiDb := {| shared := db; agenda := [tick None; tick None; tick None; tick None; tick (Some (ReplyLost ($"down")))] |}.

Lemma busy_rely : rely (keeps_for NoRow) busy.
Proof.
  assert (Hd : forall d, keeps_for NoRow d (deleting d)).
  { intros d. split; [|done]. intros Hwf. unfold deleting, commit. destruct (find_list _ _); [|done].
    destruct (delete_item_tx _ _ _ _ d) as [[a|e] d'] eqn:E; [by eapply delete_item_tx_wf|done]. }
  unfold rely, busy. cbn [agenda]. repeat (apply Forall_cons; split; [exact Hd|]). by apply Forall_nil.
Qed.
Definition add_item : ListOp := OpCreateItem 100%N {| CreateItemRequest.values := values "Test" 20003; CreateItemRequest.after_id := Some 107%N |}.
Definition after : ApiDb := (handle_op entry_id draw now fresh show_time 3%N add_item busy).2.(shared).
End SampleBoard.

(** An item is added while another one goes. *)
Lemma lists_stay_well_formed_witness :
  well_formed (T SampleBoard.after) /\ ListItem.id <$> items_of 100%N (T SampleBoard.after) = [107%N; 108%N].
Proof.
  split; [|vm_compute; reflexivity].
  unfold SampleBoard.after.
  exact (lists_stay_well_formed SampleBoard.entry_id SampleBoard.draw SampleBoard.now SampleBoard.fresh SampleBoard.show_time 3%N
    SampleBoard.add_item SampleBoard.busy SampleBoard.busy_rely SampleBoard.db_wf).
Defined.
