(* ===== verification/LaterLaws.v ===== *)
(** * Due dates settle, reminders are claimed
    ([backend/api/src/later/{repo,reminders}.rs])

    What a synchronisation that succeeds leaves in Later, what stops it, and
    what the checker claims and delivers. *)

From stdpp Require Import base tactics option numbers list gmap sorting.
From Stdlib Require Import ZArith Lia String Ascii.
From S2P Require Import Prelude RustStr Json Errors Frames Publisher Lists ListForms ListViews ListStore ListInvariant LaterStore MessageStore ApiState Outbox Tables Authz Membership ApiLaws LaterSync ListService Later MembershipLaws ListTx ListLaws.

(** The rows of Later of a state. *)
Abbreviation later d := (later_items (app d)).

(** One row for a person and an item, each under its identifier: the primary
    key and the unique index. *)
Record one_each (m : LaterTable) : Prop := {
  one_keyed : forall k r, m !! k = Some r -> LaterRow.id r = k;
  one_unique : forall k1 k2 r1 r2 i, m !! k1 = Some r1 -> m !! k2 = Some r2 ->
    LaterRow.user_id r1 = LaterRow.user_id r2 -> LaterRow.list_item_id r1 = Some i -> LaterRow.list_item_id r2 = Some i -> k1 = k2;
}.

(** The assignment is about the person and the item of the row. *)
Definition named (a : DueAssignment.t) (r : LaterRow.t) : Prop :=
  LaterRow.user_id r = DueAssignment.user_id a /\ LaterRow.list_item_id r = Some (DueAssignment.item_id a).

Section due.
Context `{UuidText} `{JsonText} `{PgText} (draw : ApiDb -> Uuid) (now : Z).
Implicit Types (d : ApiDb) (t : AppTables) (a : DueAssignment.t) (r : LaterRow.t).

(** Only the rows of Later differ. *)
Definition only_later d d' : Prop := app d' = set_later_items (fun _ => later d') (app d).
#[local] Instance only_later_preorder : PreOrder only_later.
Proof.
  split; [intros d; unfold only_later; by destruct (app d)|].
  unfold only_later. intros x y z -> ->. by destruct (app x).
Qed.

Lemma only_later_change d f : only_later d (with_app (set_later_items f) d) /\ later (with_app (set_later_items f) d) = f (later d).
Proof. unfold only_later. cbn. by destruct (app d). Qed.

(** The assignments do not depend on the rows of Later. *)
Lemma assignments_only_later d d' only : only_later d d' -> list_due_assignments now only (app d') = list_due_assignments now only (app d).
Proof. unfold only_later. intros ->. by destruct (app d). Qed.

Lemma row_for_None u i t : row_for u i t = None <-> forall k r, later_items t !! k = Some r -> LaterRow.user_id r = u -> LaterRow.list_item_id r <> Some i.
Proof.
  pose proof (elem_of_rows (fun r => LaterRow.user_id r = u /\ LaterRow.list_item_id r = Some i) (later_items t)) as Hrows.
  unfold row_for. fold (rows (fun r => LaterRow.user_id r = u /\ LaterRow.list_item_id r = Some i) (later_items t)).
  destruct (rows _ _) as [|r l]; cbn; split; try done.
  - intros _ k r Hk Hu Hi. apply (not_elem_of_nil r), Hrows. eauto.
  - intros Hno. destruct (proj1 (Hrows r)) as [[Hu Hi] [k Hk]]; [left|]. by destruct (Hno k r).
Qed.

Lemma row_for_Some u i t r : row_for u i t = Some r ->
  exists k, later_items t !! k = Some r /\ LaterRow.user_id r = u /\ LaterRow.list_item_id r = Some i.
Proof.
  unfold row_for. intros Hr%head_Some_elem_of.
  apply (elem_of_rows (fun r => LaterRow.user_id r = u /\ LaterRow.list_item_id r = Some i)) in Hr as [[Hu Hi] [k Hk]]. eauto.
Qed.

Lemma insert_later_Ok row d r d' : insert_later draw row d = (Ok r, d') ->
  r = row (draw d) /\ later d !! LaterRow.id r = None /\ refers r (app d) = true /\
  only_later d d' /\ later d' = <[LaterRow.id r := r]> (later d).
Proof.
  unfold insert_later. intros E. inv_tx. destruct (only_later_change d (<[LaterRow.id (row (draw d)) := row (draw d)]>)).
  repeat match goal with E : false = _ |- _ => symmetry in E | E : negb _ = false |- _ => apply negb_false_iff in E end.
  match goal with E : bool_decide _ = false |- _ => apply bool_decide_eq_false, eq_None_not_Some in E end. done.
Qed.

(** The person is in the workspace of the list. *)
Definition belongs a t : Prop := is_Some (workspace_members t !! (DueAssignment.workspace_id a, DueAssignment.user_id a)).

Lemma refers_belongs a k t : refers (due_row now a k) t = true -> belongs a t.
Proof. unfold refers, belongs. intros Hr. repeat (apply andb_true_iff in Hr as [Hr _]). by apply bool_decide_eq_true in Hr. Qed.

Lemma add_due_Ok a d o d' : add_due draw now a d = (Ok o, d') ->
  match row_for (DueAssignment.user_id a) (DueAssignment.item_id a) (app d) with
  | Some _ => o = None /\ d' = d
  | None => let r := due_row now a (draw d) in
      o = Some (audience r) /\ belongs a (app d) /\ later d !! draw d = None /\ only_later d d' /\ later d' = <[draw d := r]> (later d)
  end.
Proof.
  unfold add_due. intros E. inv_tx; destruct (row_for _ _ _); try done.
  match goal with E : insert_later _ _ _ = _ |- _ => apply insert_later_Ok in E as (-> & ? & ?%refers_belongs & ? & ?) end. done.
Qed.

Lemma row_for_mono u i d d' : later d ⊆ later d' -> row_for u i (app d') = None -> row_for u i (app d) = None.
Proof. rewrite !row_for_None. intros Hs Hno k r Hk. apply (Hno k). by eapply lookup_weaken. Qed.

Lemma one_each_insert m k a : (forall k r, m !! k = Some r -> LaterRow.user_id r = DueAssignment.user_id a ->
    LaterRow.list_item_id r <> Some (DueAssignment.item_id a)) ->
  one_each m -> one_each (<[k := due_row now a k]> m).
Proof.
  intros Hno [Hk Hu]. constructor.
  - intros k' r [[<- <-]|[_ Hr]]%lookup_insert_Some; [done|eauto].
  - intros k1 k2 r1 r2 i [[<- <-]|[N1 H1']]%lookup_insert_Some [[<- <-]|[N2 H2']]%lookup_insert_Some Hus Hi1 Hi2; [done| | |by eapply Hu].
    + cbn in *. simplify_eq. by destruct (Hno k2 r2).
    + cbn in *. simplify_eq. by destruct (Hno k1 r1).
Qed.

(** What the insertions leave: the rows that were there, and a row for every
    assignment that had none. *)
Lemma add_dues_Ok l d added d' : tx_each (add_due draw now) l d = (Ok added, d') ->
  only_later d d' /\ later d ⊆ later d' /\
  (forall a, a ∈ l -> row_for (DueAssignment.user_id a) (DueAssignment.item_id a) (app d') <> None) /\
  (forall k r, later d' !! k = Some r -> later d !! k = None ->
     exists a, a ∈ l /\ r = due_row now a k /\ belongs a (app d) /\ row_for (DueAssignment.user_id a) (DueAssignment.item_id a) (app d) = None) /\
  (one_each (later d) -> one_each (later d')) /\
  (forall x, x ∈ omap id added -> exists k r, later d' !! k = Some r /\ later d !! k = None /\ x = audience r) /\
  (forall k r, later d' !! k = Some r -> later d !! k = None -> audience r ∈ omap id added).
Proof.
  revert d added. induction l as [|a l IH]; intros d added E; cbn in E; inv_tx.
  { split_and!; [reflexivity|done|intros a Ha; by apply not_elem_of_nil in Ha|naive_solver|done|intros x Hx; by apply not_elem_of_nil in Hx|naive_solver]. }
  match goal with E1 : add_due _ _ _ _ = (_, ?y), E2 : tx_each _ _ ?y = (_, ?z) |- _ => rename y into d1, z into d';
    rename E1 into A1; apply add_due_Ok in A1; apply IH in E2 as (O2 & S2 & N2 & F2 & U2 & A2 & B2); destruct (row_for _ _ (app d)) as [r0|] eqn:Er end.
  - destruct A1 as [-> ->]. cbn. split_and!; [done..| | |done|done|done].
    + intros a' [->|Ha]%elem_of_cons; [|auto]. intros Hno. by rewrite (row_for_mono _ _ _ _ S2 Hno) in Er.
    + intros k r Hr Hk. destruct (F2 k r Hr Hk) as (a' & ? & ?). exists a'. split; [by right|done].
  - destruct A1 as (-> & Hin & Hfree & O1 & E1).
    assert (S1 : later d ⊆ later d1) by (rewrite E1; by apply insert_subseteq).
    assert (Hnew : later d' !! draw d = Some (due_row now a (draw d))) by (eapply lookup_weaken; [|done]; by rewrite E1, lookup_insert_eq).
    assert (Hold : forall k r, later d' !! k = Some r -> later d !! k = None -> k = draw d \/ later d1 !! k = None).
    { intros k r Hr Hk. destruct (decide (k = draw d)) as [|Hn]; [by left|right]. by rewrite E1, lookup_insert_ne. }
    split_and!.
    + by transitivity d1.
    + by transitivity (later d1).
    + intros a' [->|Ha]%elem_of_cons; [|auto]. rewrite row_for_None. intros Hno. by destruct (Hno _ _ Hnew).
    + intros k r Hr Hk. destruct (Hold k r Hr Hk) as [->|Hk1].
      * exists a. split; [by left|]. by simplify_eq.
      * destruct (F2 k r Hr Hk1) as (a' & ? & ? & Hin' & Hno). exists a'.
        split_and!; [by right|done| |by eapply row_for_mono]. revert Hin'. unfold belongs. rewrite O1. by destruct (app d).
    + intros Hone. apply U2. rewrite E1. apply one_each_insert; [|done]. by apply row_for_None.
    + intros x [->|Hx]%elem_of_cons; [eauto 6|]. destruct (A2 x Hx) as (k & r & Hr & Hk & ->). exists k, r. split_and!; [done| |done].
      by eapply lookup_weaken_None.
    + intros k r Hr Hk. cbn. destruct (Hold k r Hr Hk) as [->|Hk1]; [simplify_eq; left|right; by eapply B2].
Qed.

(** ** The whole statement *)

(** The items of the list asked for. *)
Definition in_scope (only : option Uuid) (item : Uuid) t : Prop :=
  only = None \/ only = (fun i : ListItem.t * option Z => ListItem.list_id i.1) <$> list_items (list_tables t) !! item.

(** A row in progress, within the list asked for, that no assignment is about. *)
Definition orphan (only : option Uuid) (ds : Datatypes.list DueAssignment.t) t r : Prop :=
  exists i, LaterRow.list_item_id r = Some i /\ LaterRow.status r = $"in_progress" /\ in_scope only i t /\ forall a, a ∈ ds -> ~ named a r.

Lemma no_longer_due_spec only ds t r : no_longer_due only ds t r <-> orphan only ds t r.
Proof.
  unfold no_longer_due, orphan, named. destruct (LaterRow.list_item_id r) as [i|]; [|naive_solver].
  assert (Hex : existsb (fun a => names a (LaterRow.user_id r) i) ds = false <->
    forall a, a ∈ ds -> ~ (LaterRow.user_id r = DueAssignment.user_id a /\ Some i = Some (DueAssignment.item_id a))).
  { rewrite existsb_false_Forall, Forall_forall. unfold names. split.
    - intros Hf a Ha [Hu [= Hi]]. specialize (Hf a Ha). rewrite Hu, Hi, !bool_decide_eq_true_2 in Hf by done. done.
    - intros Hf a Ha. apply andb_false_iff. destruct (decide (DueAssignment.user_id a = LaterRow.user_id r)) as [Hu|]; [right|left; by apply bool_decide_eq_false_2].
      apply bool_decide_eq_false_2. intros Hi. apply (Hf a Ha). by subst. }
  rewrite Hex. unfold in_scope. split; [intros (? & ? & ?); by exists i|intros (i' & [= <-] & ? & ? & ?); done].
Qed.

(** The statement, in the order it runs. *)
Lemma sync_Ok only d changed d' : sync_list_due_tx draw now only d = (Ok changed, d') ->
  exists ds added d1, let gone := filter (fun p => no_longer_due only ds (app d) p.2) (later d) in
    list_due_assignments now only (app d) = Ok ds /\
    tx_each (add_due draw now) (filter (fun a => DueAssignment.today a <= DueAssignment.due a) ds) d = (Ok added, d1) /\
    d' = with_app (set_later_items (fun m => m ∖ gone)) d1 /\
    changed = remove_dups (omap id added ++ (audience <$> (map_to_list gone).*2)).
Proof. unfold sync_list_due_tx. intros E. inv_list. match goal with E : list_due_assignments _ _ _ = Ok ?ds |- _ => exists ds end. eauto 10. Qed.

Lemma add_dues_idle l d : (forall a, a ∈ l -> row_for (DueAssignment.user_id a) (DueAssignment.item_id a) (app d) <> None) ->
  exists added, tx_each (add_due draw now) l d = (Ok added, d) /\ omap id added = [].
Proof.
  induction l as [|a l IH]; intros Hl; [by exists []|]. destruct IH as (added & E & Ha); [intros b Hb; apply Hl; by right|].
  exists (None :: added). split; [|done]. cbn. unfold mbind at 1, Tx_bind at 1.
  assert (add_due draw now a d = (Ok None, d)) as ->.
  { unfold add_due, read, mbind, Tx_bind, tx_read. destruct (row_for _ _ _) eqn:Er; [done|]. exfalso. eapply Hl; [left|done]. }
  unfold mbind, Tx_bind. by rewrite E.
Qed.

(** The state after the statement, row by row. *)
Record settled (only : option Uuid) (ds : Datatypes.list DueAssignment.t) d d' : Prop := {
  settled_only : only_later d d';
  settled_one : one_each (later d');
  settled_due : forall a, a ∈ ds -> DueAssignment.today a <= DueAssignment.due a -> exists k r, later d' !! k = Some r /\ named a r;
  settled_open : forall k r, later d' !! k = Some r -> ~ orphan only ds (app d) r;
  settled_old : forall k r, later d !! k = Some r ->
    (orphan only ds (app d) r /\ later d' !! k = None) \/ (~ orphan only ds (app d) r /\ later d' !! k = Some r);
  settled_new : forall k r, later d' !! k = Some r -> later d !! k = None ->
    exists a, a ∈ ds /\ DueAssignment.today a <= DueAssignment.due a /\ r = due_row now a k;
}.

Lemma due_row_named a k : named a (due_row now a k).
Proof. done. Qed.

Lemma sync_settles only d changed d' : one_each (later d) -> sync_list_due_tx draw now only d = (Ok changed, d') ->
  exists ds, list_due_assignments now only (app d) = Ok ds /\ settled only ds d d' /\
  forall x, x ∈ changed <-> exists k r, x = audience r /\
    ((later d !! k = Some r /\ later d' !! k = None) \/ (later d !! k = None /\ later d' !! k = Some r)).
Proof.
  intros Hone (ds & added & d1 & Hds & (O1 & S1 & N1 & F1 & U1 & A1 & B1)%add_dues_Ok & -> & ->)%sync_Ok.
  match goal with |- context [filter ?P (later d)] => set (gone := filter P (later d)) end. exists ds. split; [done|].
  destruct (only_later_change d1 (fun m => m ∖ gone)) as [O2 E2].
  set (d' := with_app _ d1) in *.
  assert (Hgone : forall k r, gone !! k = Some r <-> later d !! k = Some r /\ no_longer_due only ds (app d) r)
    by (intros k r; apply map_lookup_filter_Some).
  assert (Hd' : forall k r, later d' !! k = Some r <-> later d1 !! k = Some r /\ gone !! k = None)
    by (intros k r; rewrite E2; apply lookup_difference_Some).
  assert (Hnew : forall k r, later d' !! k = Some r -> later d !! k = None ->
    exists a, a ∈ ds /\ DueAssignment.today a <= DueAssignment.due a /\ r = due_row now a k).
  { intros k r [Hr _]%Hd' Hk. destruct (F1 k r Hr Hk) as (a & [Hle Ha]%list_elem_of_filter & -> & _ & _). eauto. }
  assert (Hopen : forall k r, later d1 !! k = Some r -> gone !! k = None -> ~ no_longer_due only ds (app d) r).
  { intros k r Hr Hg Hno. destruct (later d !! k) as [r0|] eqn:E.
    - pose proof (lookup_weaken _ _ _ _ E S1). simplify_eq. by rewrite (proj2 (Hgone k _) (conj E Hno)) in Hg.
    - destruct (F1 k r Hr E) as (a & [_ Ha]%list_elem_of_filter & -> & _).
      apply no_longer_due_spec in Hno as (i & _ & _ & _ & Hno). by apply (Hno a Ha), due_row_named. }
  assert (Hold : forall k r, later d !! k = Some r ->
    (no_longer_due only ds (app d) r /\ later d' !! k = None) \/ (~ no_longer_due only ds (app d) r /\ later d' !! k = Some r)).
  { intros k r Hk. destruct (gone !! k) as [r0|] eqn:E.
    - left. pose proof E as [Hk0 Hno]%Hgone. simplify_eq. split; [done|]. rewrite E2. apply lookup_difference_None. right. eauto.
    - right. assert (later d1 !! k = Some r) as H1k by (by eapply lookup_weaken). split; [by eapply Hopen|by apply Hd']. }
  split; [constructor|].
  - by transitivity d1.
  - destruct (U1 Hone) as [Hk Hu]. constructor; [intros k r [Hr _]%Hd'; by apply Hk|].
    intros k1 k2 r1 r2 i [H1r _]%Hd' [H2r _]%Hd'. by eapply Hu.
  - intros a Ha Hle. destruct (row_for (DueAssignment.user_id a) (DueAssignment.item_id a) (app d1)) as [r|] eqn:E.
    + apply row_for_Some in E as (k & Hk & Hu & Hi). exists k, r. split; [|done]. apply Hd'. split; [done|].
      destruct (gone !! k) as [r0|] eqn:Eg; [|done]. exfalso. apply Hgone in Eg as [Hk0 Hno].
      pose proof (lookup_weaken _ _ _ _ Hk0 S1). simplify_eq. apply no_longer_due_spec in Hno as (j & _ & _ & _ & Hno). by apply (Hno a Ha).
    + exfalso. eapply (N1 a); [by apply list_elem_of_filter|done].
  - intros k r [Hr Hg]%Hd'. rewrite <-no_longer_due_spec. by eapply Hopen.
  - intros k r Hk. rewrite <-no_longer_due_spec. by apply Hold.
  - done.
  - intros x. rewrite elem_of_remove_dups, elem_of_app. split.
    + intros [Hx|Hx].
      * destruct (A1 x Hx) as (k & r & Hr & Hk & ->). exists k, r. split; [done|]. right. split; [done|]. apply Hd'. split; [done|].
        destruct (gone !! k) eqn:Eg; [|done]. apply Hgone in Eg as [? _]. congruence.
      * apply list_elem_of_fmap in Hx as (r & -> & ([k r'] & -> & Hk%elem_of_map_to_list)%list_elem_of_fmap).
        exists k, r'. split; [done|]. left. pose proof Hk as [Hd Hno]%Hgone. destruct (Hold k r' Hd) as [[]|[]]; done.
    + intros (k & r & -> & [[Hk Hn]|[Hn Hk]]).
      * right. destruct (Hold k r Hk) as [[Hno _]|[_ ?]]; [|congruence].
        apply list_elem_of_fmap_2, list_elem_of_fmap. exists (k, r). split; [done|]. by apply elem_of_map_to_list, Hgone.
      * left. apply Hd' in Hk as [Hk _]. by eapply B1.
Qed.

Lemma with_app_same (d : ApiDb) f : f (later d) = later d -> with_app (set_later_items f) d = d.
Proof. destruct d as [? ? ? ? ? []]. unfold with_app, set_later_items. cbn. intros E. by rewrite E. Qed.

(** A settled state is at rest. *)
Lemma settled_idle only ds d d' : list_due_assignments now only (app d) = Ok ds -> settled only ds d d' ->
  sync_list_due_tx draw now only d' = (Ok [], d').
Proof.
  intros Hds Hs. unfold sync_list_due_tx, read, run, tx_of, mbind, Tx_bind, tx_read, tx_query, mret, Tx_ret.
  rewrite (assignments_only_later _ _ _ (settled_only _ _ _ _ Hs)), Hds.
  match goal with |- context [filter ?P (later d')] => assert (filter P (later d') = ∅) as -> end.
  { apply map_empty. intros k. apply eq_None_not_Some. intros [r [Hr Hno%no_longer_due_spec]%map_lookup_filter_Some].
    apply (settled_open _ _ _ _ Hs k r Hr).
    destruct Hno as (i & Hi & Hst & Hsc & Hno). exists i. split_and!; [done..| |done].
    revert Hsc. unfold in_scope. rewrite (settled_only _ _ _ _ Hs). by destruct (app d). }
  match goal with |- context [tx_each _ ?l d'] => destruct (add_dues_idle l d') as (added & -> & ->) end.
  { intros a [Hle Ha]%list_elem_of_filter. rewrite row_for_None. intros Hno.
    destruct (settled_due _ _ _ _ Hs a Ha Hle) as (k & r & Hr & Hu & Hi). by apply (Hno k r). }
  cbn. rewrite map_to_list_empty, with_app_same by apply map_difference_empty. done.
Qed.

(** C11: Due dates settle.  After a synchronisation that succeeds every
    assignment whose day has not passed waits in Later, no row in progress is
    left, within the list asked for, whose person the item is not due for any
    more; every other row is as it was, whatever its status, with the reminder
    it had even if the date moved ([moved_due_dates_keep_their_reminder]), and a
    new row is the one the assignment describes.  The answer names the people whose rows
    came or went, each once.  There is one row for a person and an item still,
    nothing but Later changes, and synchronising again changes nothing. *)
Theorem due_dates_settle : forall only d changed d', one_each (later d) ->
  sync_list_due_tx draw now only d = (Ok changed, d') ->
  exists ds, list_due_assignments now only (app d) = Ok ds /\ settled only ds d d' /\
    NoDup changed /\
    (forall x, x ∈ changed <-> exists k r, x = audience r /\
      ((later d !! k = Some r /\ later d' !! k = None) \/ (later d !! k = None /\ later d' !! k = Some r))) /\
    sync_list_due_tx draw now only d' = (Ok [], d').
Proof.
  intros only d changed d' Hone Hs. pose proof Hs as (ds & Hds & Hset & Hch)%sync_settles; [|done].
  exists ds. split_and!; [done..| |done|by eapply settled_idle].
  apply sync_Ok in Hs as (? & ? & ? & _ & _ & _ & ->). apply NoDup_remove_dups.
Qed.

(** ** What stops it *)

(** Assignments of one item are within one workspace. *)
Lemma assignment_list only ds d a : list_due_assignments now only (app d) = Ok ds -> a ∈ ds ->
  exists k l i, find_list k (T d) = Some l /\ i ∈ items_of (List.id l) (T d) /\
    ListItem.id i = DueAssignment.item_id a /\ List.workspace_id l = DueAssignment.workspace_id a.
Proof.
  intros Hds Ha. unfold list_due_assignments in Hds. rewrite (elem_of_collect _ _ _ _ Hds) in Ha.
  destruct Ha as (dc & as1 & _ & Hdc & Ha). unfold due_of_column in Hdc.
  destruct (find_list (ListColumn.list_id dc) (T d)) as [l|] eqn:El; [|by injection Hdc as <-; apply not_elem_of_nil in Ha].
  rewrite (elem_of_collect _ _ _ _ Hdc) in Ha. destruct Ha as (i & as2 & Hi & Hitem & Ha). unfold due_of_item in Hitem.
  apply bind_Ok in Hitem as ([due|] & _ & Hitem); [|by injection Hitem as <-; apply not_elem_of_nil in Ha].
  rewrite (elem_of_collect _ _ _ _ Hitem) in Ha. destruct Ha as (p & as3 & _ & Hp & Ha). unfold due_by in Hp.
  apply bind_Ok in Hp as ([u|] & _ & Hp); [|by injection Hp as <-; apply not_elem_of_nil in Ha].
  destruct (users (app d) !! u); [|by injection Hp as <-; apply not_elem_of_nil in Ha].
  apply bind_Ok in Hp as (today & _ & [= <-]). destruct (_ && _ && _); [|by apply not_elem_of_nil in Ha].
  apply list_elem_of_singleton in Ha as ->. by exists (ListColumn.list_id dc), l, i.
Qed.

Lemma assignments_one_workspace only ds d a b : well_formed (T d) -> list_due_assignments now only (app d) = Ok ds ->
  a ∈ ds -> b ∈ ds -> DueAssignment.item_id a = DueAssignment.item_id b -> DueAssignment.workspace_id a = DueAssignment.workspace_id b.
Proof.
  intros Hwf Hds Ha Hb Hab.
  destruct (assignment_list _ _ _ _ Hds Ha) as (k & l & i & Hl & [Hi [x Hx%find_item_Some]]%elem_of_items & Hia & <-).
  destruct (assignment_list _ _ _ _ Hds Hb) as (k' & l' & i' & Hl' & [Hi' [x' Hx'%find_item_Some]]%elem_of_items & Hib & <-).
  pose proof (iw_keyed _ (wf_items _ _ _ Hwf) _ _ Hx) as Hk. pose proof (iw_keyed _ (wf_items _ _ _ Hwf) _ _ Hx') as Hk'. cbn in *.
  assert (i = i') as <- by congruence. destruct (wf_of_lists _ _ _ Hwf Hl) as [? _]. destruct (wf_of_lists _ _ _ Hwf Hl') as [? _]. congruence.
Qed.

(** One assignment to somebody who is not in the workspace of the list
    stops the due dates of everybody.  Such an assignment is made when the
    owner of a personal list leaves the workspace: the list stays, its items
    stay assigned, and the row of Later refers to a membership that is gone.
    The statement is refused as a whole; the checker reports nothing to anybody
    and changes nothing, whoever else something is due for. *)
Theorem one_assignment_stops_the_sync : forall entry_id only d ds a, well_formed (T d) ->
  list_due_assignments now only (app d) = Ok ds -> a ∈ ds -> DueAssignment.today a <= DueAssignment.due a ->
  row_for (DueAssignment.user_id a) (DueAssignment.item_id a) (app d) = None -> ~ belongs a (app d) ->
  (exists e, (sync_list_due_tx draw now only d).1 = Err e) /\
  forall w, shared w = d -> agenda w = [] -> sync_list_due entry_id draw now only w = (tt, w).
Proof.
  intros entry_id only d ds a Hwf Hds Ha Hle Hnone Hout.
  assert (He : exists e d', sync_list_due_tx draw now only d = (Err e, d')).
  { destruct (sync_list_due_tx draw now only d) as [[changed|e] d'] eqn:E; [|eauto]. exfalso.
    apply sync_Ok in E as (ds' & added & d1 & Hds' & (_ & S1 & N1 & F1 & _)%add_dues_Ok & _). rewrite Hds in Hds'. injection Hds' as <-.
    destruct (row_for (DueAssignment.user_id a) (DueAssignment.item_id a) (app d1)) as [r|] eqn:E;
      [|by eapply (N1 a); [apply list_elem_of_filter|]].
    apply row_for_Some in E as (k & Hk & Hu & Hi). rewrite row_for_None in Hnone.
    destruct (F1 k r Hk) as (b & [_ Hb]%list_elem_of_filter & -> & Hin & _).
    { destruct (later d !! k) as [r0|] eqn:E0; [|done]. pose proof (lookup_weaken _ _ _ _ E0 S1). simplify_eq.
      by destruct (Hnone _ _ E0 Hu). }
    cbn in Hu, Hi. simplify_eq. apply Hout. unfold belongs. rewrite <-Hu.
    rewrite (assignments_one_workspace _ _ _ a b Hwf Hds); auto. }
  destruct He as (e & d' & He). split; [exists e; by rewrite He|]. intros w <- Hq.
  unfold sync_list_due. rewrite svc_bind_eq, transaction_quiet, He by done. cbn. destruct w as [x s]. cbn in *. by subst.
Qed.

(** The reminder of an item follows its due date only once.  A row that
    waits for the person and the item of an assignment is left as it is, its
    text and the time it reminds at included, whatever the assignment says they
    are now. *)
Theorem moved_due_dates_keep_their_reminder : forall only d changed d' ds a k r, one_each (later d) ->
  sync_list_due_tx draw now only d = (Ok changed, d') -> list_due_assignments now only (app d) = Ok ds -> a ∈ ds ->
  later d !! k = Some r -> named a r -> later d' !! k = Some r.
Proof.
  intros only d changed d' ds a k r Hone (ds' & Hds' & Hset & _)%sync_settles Hds Ha Hk Hn; [|done].
  rewrite Hds in Hds'. injection Hds' as <-.
  destruct (settled_old _ _ _ _ Hset k r Hk) as [[(i & _ & _ & _ & Hno) _]|[_ ?]]; [by destruct (Hno a Ha)|done].
Qed.
End due.

(** ** Reminders *)

Section claims.
Context (now : Z).
Implicit Types (m : LaterTable) (r : LaterRow.t).

Definition keyed_rows m : Prop := forall k r, m !! k = Some r -> LaterRow.id r = k.
Definition stamp m (claimed : Datatypes.list LaterRow.t) : LaterTable :=
  foldr (fun r => alter (set_reminded (Some now)) (LaterRow.id r)) m claimed.

Lemma stamp_lookup m claimed k : NoDup (LaterRow.id <$> claimed) ->
  stamp m claimed !! k = if decide (k ∈ LaterRow.id <$> claimed) then set_reminded (Some now) <$> m !! k else m !! k.
Proof.
  induction claimed as [|r claimed IH]; [done|]. rewrite fmap_cons. intros [Hr Hn]%NoDup_cons.
  cbn [stamp foldr]. fold (stamp m claimed).
  destruct (decide (k = LaterRow.id r)) as [->|Hk].
  - rewrite lookup_alter_eq, IH by done. rewrite decide_False by done. by rewrite decide_True by left.
  - rewrite lookup_alter_ne, IH by done. destruct (decide (k ∈ LaterRow.id <$> claimed)) as [Hin|Hin].
    + by rewrite decide_True by (by right).
    + rewrite decide_False; [done|]. by intros [?|?]%elem_of_cons.
Qed.

Lemma stamped_rest r at_ : waiting at_ (set_reminded (Some now) r) = false.
Proof. unfold waiting. cbn. by rewrite andb_false_r. Qed.

Definition rows_to_claim (locked : gset Uuid) m : Datatypes.list LaterRow.t :=
  merge_sort earlier (filter (fun r => waiting now r = true /\ LaterRow.id r ∉ locked) (map_to_list m).*2).

Lemma elem_of_rows_to_claim (locked : gset Uuid) m r : r ∈ rows_to_claim locked m <->
  (waiting now r = true /\ LaterRow.id r ∉ locked) /\ exists k, m !! k = Some r.
Proof. unfold rows_to_claim. rewrite merge_sort_Permutation. apply (elem_of_rows (fun r => waiting now r = true /\ LaterRow.id r ∉ locked)). Qed.

Lemma rows_to_claim_NoDup (locked : gset Uuid) m : keyed_rows m -> NoDup (LaterRow.id <$> rows_to_claim locked m).
Proof.
  intros Hm. unfold rows_to_claim. rewrite merge_sort_Permutation. eapply sublist_NoDup; [|apply fmap_sublist, sublist_filter].
  assert (LaterRow.id <$> (map_to_list m).*2 = (map_to_list m).*1) as ->; [|apply NoDup_fst_map_to_list].
  rewrite <-list_fmap_compose. apply list_fmap_ext. intros i [k r] Hi. cbn. apply Hm, elem_of_map_to_list. by eapply list_elem_of_lookup_2.
Qed.

#[local] Instance earlier_trans : Transitive earlier.
Proof. unfold earlier. intros x y z. lia. Qed.
#[local] Instance earlier_total : Total earlier.
Proof. unfold earlier. intros x y. lia. Qed.

Lemma claimed_first (locked : gset Uuid) m r s : r ∈ to_claim now locked m -> s ∈ rows_to_claim locked m -> s ∉ to_claim now locked m -> earlier r s.
Proof.
  unfold to_claim. fold (rows_to_claim locked m). intros Hr Hs Hn.
  rewrite <-(take_drop CLAIM_LIMIT (rows_to_claim locked m)) in Hs. apply elem_of_app in Hs as [?|Hs]; [done|].
  assert (Hsort : StronglySorted earlier (take CLAIM_LIMIT (rows_to_claim locked m) ++ drop CLAIM_LIMIT (rows_to_claim locked m)))
    by (rewrite take_drop; apply StronglySorted_merge_sort; apply _).
  by eapply StronglySorted_app_1_elem_of.
Qed.

(** Claims are exclusive.  A claim takes no more than a hundred rows, each
    once: rows in progress whose time has come, that were not delivered before
    and that nobody else holds.  What it returns is what is now stored: rows
    stamped with the time of the claim, which no later claim takes while the
    stamp is there; the other rows are as they were.  It takes the earliest,
    and when it takes fewer than a hundred it leaves none that waits. *)
Theorem claims_are_exclusive : forall (locked : gset Uuid) m, keyed_rows m ->
  let '(m', claimed) := claim_due now locked m in
  (length claimed <= 100)%nat /\ NoDup (LaterRow.id <$> claimed) /\
  (forall r', r' ∈ claimed -> exists r, m !! LaterRow.id r' = Some r /\ waiting now r = true /\ (LaterRow.id r' ∉ locked) /\
     r' = set_reminded (Some now) r /\ m' !! LaterRow.id r' = Some r' /\ (forall at_, waiting at_ r' = false)) /\
  (forall k, k ∉ LaterRow.id <$> claimed -> m' !! k = m !! k) /\
  (forall k s, m' !! k = Some s -> waiting now s = true -> k ∉ locked ->
     length claimed = 100%nat /\ forall r', r' ∈ claimed -> earlier r' s).
Proof.
  intros locked m Hm. unfold claim_due. fold (stamp m (to_claim now locked m)).
  set (claimed := to_claim now locked m).
  assert (Hids : LaterRow.id <$> (set_reminded (Some now) <$> claimed) = LaterRow.id <$> claimed)
    by (rewrite <-list_fmap_compose; by apply list_fmap_ext).
  assert (Hsub : forall r, r ∈ claimed -> r ∈ rows_to_claim locked m)
    by (intros r Hr; rewrite <-(take_drop CLAIM_LIMIT (rows_to_claim locked m)); apply elem_of_app; by left).
  assert (Hn : NoDup (LaterRow.id <$> claimed)).
  { eapply sublist_NoDup; [apply (rows_to_claim_NoDup locked), Hm|]. apply fmap_sublist, sublist_take. }
  assert (Hm' := fun k => stamp_lookup m claimed k Hn).
  rewrite Hids, length_fmap. split_and!.
  - unfold claimed, to_claim. rewrite length_take. unfold CLAIM_LIMIT. lia.
  - done.
  - intros r' (r & -> & Hr)%list_elem_of_fmap. cbn [set_reminded LaterRow.id].
    pose proof (Hsub r Hr) as [[Hw Hl] [k Hk]]%elem_of_rows_to_claim. assert (LaterRow.id r = k) as <- by (by apply Hm).
    exists r. split_and!; [done..| |intros at_; apply stamped_rest].
    rewrite Hm', decide_True by (by apply list_elem_of_fmap_2). by rewrite Hk.
  - intros k Hk. by rewrite Hm', decide_False.
  - intros k s Hs Hw Hl. rewrite Hm' in Hs. destruct (decide (k ∈ _)) as [Hin|Hin].
    { apply fmap_Some in Hs as (r & _ & ->). by rewrite stamped_rest in Hw. }
    assert (LaterRow.id s = k) as <- by (by apply Hm).
    assert (Hc : s ∈ rows_to_claim locked m) by (apply elem_of_rows_to_claim; eauto).
    assert (Hnot : s ∉ claimed) by (intros ?; apply Hin; by apply list_elem_of_fmap_2).
    split.
    + unfold claimed, to_claim in *. fold (rows_to_claim locked m) in *. rewrite length_take.
      destruct (decide (length (rows_to_claim locked m) <= CLAIM_LIMIT)%nat); [by rewrite take_ge in Hnot|]. unfold CLAIM_LIMIT in *. lia.
    + intros r' (r & -> & Hr)%list_elem_of_fmap. change (earlier r s). by eapply claimed_first.
Qed.
End claims.

(** The row is not delivered at any time. *)
Definition never_due (r : LaterRow.t) : Prop := forall at_, waiting at_ r = false.

Lemma query_faulty {A} (q : AppTables -> A) (w : SvcWorld ApiDb) t rest f : agenda w = t :: rest -> call_fault t = Some f ->
  query q w = (Err (Database (fault_text f)), {| shared := others t (shared w); agenda := rest |}).
Proof.
  intros Hw Hf. unfold query, sql_read, sql. rewrite svc_bind_eq. unfold svc_call. rewrite Hw, Hf. by destruct f.
Qed.

(** A reminder is lost when the database fails as it is about to be
    delivered.  The check of the channel takes any failure for a channel that
    is out of reach: nothing is published and the claim is not released, so the
    row, stamped by the claim, is not due at any time to come. *)
Theorem a_failed_lookup_loses_the_reminder : forall `{UuidText} `{JsonText} entry_id draw now (locked : gset Uuid) m r ch w t rest f,
  r ∈ (claim_due now locked m).2 -> LaterRow.channel_id r = Some ch -> agenda w = t :: rest -> call_fault t = Some f ->
  deliver entry_id draw now r w = (tt, {| shared := others t (shared w); agenda := rest |}) /\ never_due r.
Proof.
  intros Hu Hj entry_id draw now locked m r ch w t rest f Hr Hch Hw Hf. split.
  - unfold deliver, is_deliverable. rewrite Hch, !svc_bind_eq. unfold require_channel_access, channel_access.
    rewrite and_then_eq. unfold find_channel. rewrite and_then_eq, (query_faulty _ _ _ _ _ Hw Hf). done.
  - unfold claim_due in Hr. cbn in Hr. apply list_elem_of_fmap in Hr as (r0 & -> & _). intros at_. apply stamped_rest.
Qed.

(** ** Samples *)

Module SampleLater.
#[export] Existing Instances SampleLists.uuid SampleLists.text SampleBoard.folding SampleBoard.floats SampleBoard.pg.
Abbreviation sync := (sync_list_due_tx SampleBoard.draw SampleBoard.now None).
Definition synced : ApiDb := (sync SampleBoard.db).2.
Definition who : LaterAudience.t := {| LaterAudience.user_id := 3%N; LaterAudience.workspace_id := 20%N |}.
Definition key : Uuid := Eval vm_compute in SampleBoard.draw SampleBoard.db.
Definition row : LaterRow.t := Eval vm_compute in default (new_row 0 0%N 0%N 0%N 0%N None None None None None) (later synced !! key).

(** The item moves to today: the row that waits for it stays as it is. *)
Definition board : List.t := Eval vm_compute in default {| List.id := 0%N; List.workspace_id := 0%N; List.channel_id := None; List.title := []; List.description := []; List.created_by := 0%N; List.created_at := 0; List.updated_at := 0 |} (find_list 100%N (T SampleBoard.db)).
Definition moved : ApiDb := (update_item_in SampleBoard.draw SampleBoard.now SampleBoard.show_time 3%N board 106%N (SampleBoard.values "Fix login" 20000) synced).2.
Definition due_of (d : ApiDb) : Datatypes.list DueAssignment.t :=
  match list_due_assignments SampleBoard.now None (app d) with Ok ds => ds | Err _ => [] end.
Definition today : DueAssignment.t := Eval vm_compute in hd {| DueAssignment.workspace_id := 0%N; DueAssignment.channel_id := None; DueAssignment.item_id := 0%N;
  DueAssignment.user_id := 0%N; DueAssignment.title := []; DueAssignment.due := 0; DueAssignment.today := 0; DueAssignment.remind_at := 0 |} (due_of moved).

(** Another person has an item due in the channel; the owner of a personal list
    with an item due leaves the workspace. *)
Definition joined : ApiDb := with_app (set_channel_members (<[(32%N, 2%N) := SampleTables.membership 32%N 2%N ChannelRole.Member]>)) SampleBoard.db.
Definition given : ApiDb := (create_item_in SampleBoard.draw SampleBoard.now SampleBoard.show_time 2%N 100%N
  [([101], JString (lit "Review")); ([102], JString [2]); ([103], JString [20001])] None joined).2.
Definition own : ApiDb := (create_tx SampleBoard.draw SampleBoard.now SampleBoard.show_time 3%N 20%N None ($"Mine") [] SampleBoard.columns given).2.
Definition own_due : ApiDb := (update_column_tx SampleBoard.draw SampleBoard.now SampleBoard.fresh SampleBoard.show_time 109%N 112%N SampleBoard.mark_due own).2.
Definition own_item : ApiDb := (create_item_in SampleBoard.draw SampleBoard.now SampleBoard.show_time 3%N 109%N
  [([110], JString (lit "Read")); ([111], JString [3]); ([112], JString [20001])] None own_due).2.
Definition departed : ApiDb := (detach_tx SampleBoard.draw SampleBoard.now 20%N 3%N own_item).2.
Definition left_behind : DueAssignment.t := Eval vm_compute in hd today (due_of departed).
Definition others_due : DueAssignment.t := Eval vm_compute in hd today (tl (due_of departed)).

Lemma given_wf : well_formed (T given).
Proof. unfold given. SampleBoard.wf_step create_item_in_wf. replace (T joined) with (T SampleBoard.db) by (vm_compute; reflexivity). apply SampleBoard.db_wf. Qed.
Lemma own_wf : well_formed (T own).
Proof. unfold own. SampleBoard.wf_step create_tx_wf; [vm_compute; lia|apply given_wf]. Qed.
Lemma own_due_wf : well_formed (T own_due).
Proof. unfold own_due. SampleBoard.wf_step update_column_tx_wf. apply own_wf. Qed.
Lemma own_item_wf : well_formed (T own_item).
Proof. unfold own_item. SampleBoard.wf_step create_item_in_wf. apply own_due_wf. Qed.
Lemma departed_wf : well_formed (T departed).
Proof. replace (T departed) with (T own_item) by (vm_compute; reflexivity). apply own_item_wf. Qed.

(** Nine o'clock of the day, with a queue of one. *)
Definition nine : Z := 20001 * 86400 + 32400.
Definition stamped : LaterRow.t := set_reminded (Some nine) row.
End SampleLater.

Lemma no_rows_one_each : one_each ∅.
Proof. constructor; intros *; rewrite lookup_empty; done. Qed.
Lemma one_row_one_each k r : LaterRow.id r = k -> one_each {[k := r]}.
Proof.
  intros Hk. constructor; [by intros k' r' [<- <-]%lookup_singleton_Some|].
  by intros k1 k2 r1 r2 i [<- _]%lookup_singleton_Some [<- _]%lookup_singleton_Some.
Qed.

(** The item due tomorrow waits for its person. *)
Lemma due_dates_settle_witness :
  SampleLater.sync SampleBoard.db = (Ok [SampleLater.who], SampleLater.synced) /\
  LaterRow.list_item_id <$> (later SampleLater.synced !! 108%N) = Some (Some 106%N) /\
  SampleLater.sync SampleLater.synced = (Ok [], SampleLater.synced).
Proof.
  assert (E : SampleLater.sync SampleBoard.db = (Ok [SampleLater.who], SampleLater.synced)).
  { unfold SampleLater.synced. assert ((SampleLater.sync SampleBoard.db).1 = Ok [SampleLater.who]) as <- by (vm_compute; reflexivity).
    apply surjective_pairing. }
  split; [exact E|]. split; [vm_compute; reflexivity|].
  assert (H0 : later SampleBoard.db = ∅) by (vm_compute; reflexivity).
  assert (H1 : one_each (later SampleBoard.db)) by (rewrite H0; exact no_rows_one_each).
  destruct (due_dates_settle SampleBoard.draw SampleBoard.now None SampleBoard.db [SampleLater.who] SampleLater.synced H1 E)
    as (ds & _ & _ & _ & _ & Hagain). exact Hagain.
Defined.

(** The item is due today: the row reminds tomorrow. *)
Lemma moved_due_dates_keep_their_reminder_witness :
  DueAssignment.remind_at <$> SampleLater.due_of SampleLater.moved = [20000 * 86400 + 32400] /\
  later (SampleLater.sync SampleLater.moved).2 !! 108%N = Some SampleLater.row /\
  LaterRow.remind_at SampleLater.row = Some (20001 * 86400 + 32400).
Proof.
  split; [vm_compute; reflexivity|]. split; [|vm_compute; reflexivity].
  assert (Hm : later SampleLater.moved = {[108%N := SampleLater.row]}) by (vm_compute; reflexivity).
  assert (Hs : (SampleLater.sync SampleLater.moved).1 = Ok []) by (vm_compute; reflexivity).
  assert (Hds : list_due_assignments SampleBoard.now None (app SampleLater.moved) = Ok [SampleLater.today]) by (vm_compute; reflexivity).
  assert (H1 : one_each (later SampleLater.moved)) by (rewrite Hm; exact (one_row_one_each 108%N SampleLater.row eq_refl)).
  assert (H2 : later SampleLater.moved !! 108%N = Some SampleLater.row) by (rewrite Hm; apply lookup_singleton_eq).
  assert (H3 : SampleLater.sync SampleLater.moved = (Ok [], (SampleLater.sync SampleLater.moved).2))
    by (rewrite <-Hs; apply surjective_pairing).
  exact (moved_due_dates_keep_their_reminder SampleBoard.draw SampleBoard.now None SampleLater.moved [] (SampleLater.sync SampleLater.moved).2
    [SampleLater.today] SampleLater.today 108%N SampleLater.row H1 H3 Hds (list_elem_of_here SampleLater.today []) H2 (conj eq_refl eq_refl)).
Defined.

(** The item of another person is due as well and does not reach Later. *)
Lemma one_assignment_stops_the_sync_witness :
  list_due_assignments SampleBoard.now None (app SampleLater.departed) = Ok [SampleLater.left_behind; SampleLater.others_due] /\
  DueAssignment.user_id SampleLater.left_behind = 3%N /\ DueAssignment.user_id SampleLater.others_due = 2%N /\
  let w := {| shared := SampleLater.departed; agenda := [] |} in
  sync_list_due SampleBoard.entry_id SampleBoard.draw SampleBoard.now None w = (tt, w).
Proof.
  assert (Hds : list_due_assignments SampleBoard.now None (app SampleLater.departed) = Ok [SampleLater.left_behind; SampleLater.others_due])
    by (vm_compute; reflexivity).
  assert (Hle : DueAssignment.today SampleLater.left_behind <= DueAssignment.due SampleLater.left_behind) by (vm_compute; discriminate).
  assert (Hno : row_for (DueAssignment.user_id SampleLater.left_behind) (DueAssignment.item_id SampleLater.left_behind) (app SampleLater.departed) = None)
    by (vm_compute; reflexivity).
  assert (Hout : ~ belongs SampleLater.left_behind (app SampleLater.departed)) by (vm_compute; intros [? [=]]).
  split; [exact Hds|]. split; [reflexivity|]. split; [reflexivity|]. intros w.
  exact (proj2 (one_assignment_stops_the_sync SampleBoard.draw SampleBoard.now SampleBoard.entry_id None SampleLater.departed
    [SampleLater.left_behind; SampleLater.others_due] SampleLater.left_behind SampleLater.departed_wf Hds
    (list_elem_of_here SampleLater.left_behind [SampleLater.others_due]) Hle Hno Hout) w eq_refl eq_refl).
Defined.

Lemma claims_are_exclusive_witness :
  claim_due SampleLater.nine ∅ {[108%N := SampleLater.row]} = ({[108%N := SampleLater.stamped]}, [SampleLater.stamped]) /\
  waiting SampleLater.nine SampleLater.row = true /\ waiting (SampleLater.nine + 30) SampleLater.stamped = false.
Proof.
  assert (E : claim_due SampleLater.nine ∅ {[108%N := SampleLater.row]} = ({[108%N := SampleLater.stamped]}, [SampleLater.stamped]))
    by (vm_compute; reflexivity).
  assert (Hm : keyed_rows {[108%N := SampleLater.row]}) by (intros k r [<- <-]%lookup_singleton_Some; reflexivity).
  pose proof (claims_are_exclusive SampleLater.nine ∅ _ Hm) as H. rewrite E in H.
  destruct H as (_ & _ & Hc & _). destruct (Hc SampleLater.stamped (list_elem_of_here _ _)) as (r & Hr & Hw & _ & _ & _ & Hlater).
  split; [exact E|]. split; [|apply Hlater].
  assert (LaterRow.id SampleLater.stamped = 108%N) as Hid by (vm_compute; reflexivity).
  rewrite Hid, lookup_singleton_eq in Hr. injection Hr as <-. exact Hw.
Defined.

(** The row of the sample names a channel. *)
Lemma a_failed_lookup_loses_the_reminder_witness :
  let t := {| others := fun d => d; call_fault := Some (CallRefused ($"down")) |} in
  deliver SampleBoard.entry_id SampleBoard.draw SampleLater.nine SampleLater.stamped {| shared := SampleLater.synced; agenda := [t] |} =
  (tt, {| shared := SampleLater.synced; agenda := [] |}).
Proof.
  intros t.
  assert (Hr : SampleLater.stamped ∈ (claim_due SampleLater.nine ∅ {[108%N := SampleLater.row]}).2).
  { assert ((claim_due SampleLater.nine ∅ {[108%N := SampleLater.row]}).2 = [SampleLater.stamped]) as -> by (vm_compute; reflexivity). left. }
  exact (proj1 (a_failed_lookup_loses_the_reminder SampleBoard.entry_id SampleBoard.draw SampleLater.nine ∅ {[108%N := SampleLater.row]}
    SampleLater.stamped 32%N {| shared := SampleLater.synced; agenda := [t] |} t [] (CallRefused ($"down")) Hr eq_refl eq_refl eq_refl)).
Defined.
