(* ===== verification/ListOrder.v ===== *)
(** * Items land where they are put ([backend/api/src/lists/{service,repo}.rs])

    The ranks of items are an implementation: to a reader a list is a sequence,
    and creating or moving an item inserts it into the sequence at one place,
    leaving the order of all others. *)

From stdpp Require Import base tactics option numbers list gmap sorting.
From Stdlib Require Import ZArith Lia String Ascii.
From S2P Require Import Prelude RustStr Json Errors Frames Rank Lists ListForms ListViews ListStore ListInvariant Mentions LaterStore MessageStore ApiState Outbox Tables Authz Membership ApiLaws LaterSync ListService ListTx ListLaws.

(** [x] directly after the item [a]; nowhere when it is not there. *)
Fixpoint put_after (a : Uuid) (x : ListItem.t) (l : Datatypes.list ListItem.t) : Datatypes.list ListItem.t :=
  match l with
  | [] => []
  | i :: l => if bool_decide (ListItem.id i = a) then i :: x :: l else i :: put_after a x l
  end.

(** [x] directly after the given item, or first. *)
Definition put (after : option Uuid) (x : ListItem.t) (l : Datatypes.list ListItem.t) : Datatypes.list ListItem.t :=
  match after with Some a => put_after a x l | None => x :: l end.

Definition without (id : Uuid) (l : Datatypes.list ListItem.t) : Datatypes.list ListItem.t :=
  filter (fun i => ListItem.id i <> id) l.

Lemma put_after_split a x l : (exists i, i ∈ l /\ ListItem.id i = a) ->
  exists before i rest, l = before ++ i :: rest /\ ListItem.id i = a /\ put_after a x l = before ++ i :: x :: rest.
Proof.
  intros (i & Hi & Ha). induction l as [|j l IH]; [by apply not_elem_of_nil in Hi|]. cbn. case_bool_decide as Hj.
  - by exists [], j, l.
  - apply elem_of_cons in Hi as [->|Hi]; [done|]. destruct (IH Hi) as (before & k & rest & -> & Hk & ->).
    by exists (j :: before), k, rest.
Qed.

Lemma put_Permutation after x l : (forall a, after = Some a -> exists i, i ∈ l /\ ListItem.id i = a) -> put after x l ≡ₚ x :: l.
Proof.
  intros Ha. destruct after as [a|]; [|done]. cbn.
  destruct (put_after_split a x l (Ha a eq_refl)) as (before & i & rest & -> & _ & ->).
  rewrite (Permutation_app_comm before (i :: x :: rest)). cbn. rewrite (Permutation_app_comm before (i :: rest)). cbn. apply Permutation_swap.
Qed.

Section order.
Context `{UuidText} `{CalendarDate}.
Implicit Types (t : ListTables) (i x : ListItem.t).

(** ** The live items as a table changes *)

Lemma live_items_delete l id t :
  keyed (fun r => ListItem.id r.1) (list_items t) ->
  live_items l (set_list_items (delete id) t) ≡ₚ without id (live_items l t).
Proof.
  intros Hk. unfold live_items, without. destruct t as [ls cs vs m ms]. cbn in *. clear ls cs vs ms.
  destruct (m !! id) as [r|] eqn:Hr.
  - rewrite <-(map_to_list_delete m id r Hr). rewrite fmap_cons. cbn [snd omap list_omap].
    assert (E : filter (fun i => ListItem.list_id i = l) (omap live (map_to_list (delete id m)).*2) =
      filter (fun i => ListItem.id i <> id) (filter (fun i => ListItem.list_id i = l) (omap live (map_to_list (delete id m)).*2))).
    { symmetry. apply filter_all. intros i Hi. apply list_elem_of_filter in Hi as [_ Hi].
      apply list_elem_of_omap in Hi as (jo & Hj & Hlive). apply list_elem_of_fmap in Hj as ([k [j o]] & -> & Hj%elem_of_map_to_list).
      apply lookup_delete_Some in Hj as [Hne Hj]. pose proof (Hk _ _ Hj) as Hid. unfold live in Hlive. cbn in *.
      destruct o; [done|]. injection Hlive as <-. congruence. }
    destruct (live r) as [i|] eqn:Hlive; [|by rewrite <-E].
    assert (Hid : ListItem.id i = id).
    { pose proof (Hk _ _ Hr). unfold live in Hlive. destruct r as [j [?|]]; cbn in *; by simplify_eq. }
    rewrite filter_cons. case_decide; [|by rewrite <-E]. rewrite filter_cons. rewrite decide_False by (by intros ?). by rewrite <-E.
  - rewrite delete_id by done. rewrite (filter_all (fun i => ListItem.id i <> id)); [done|]. intros i [_ Hi]%list_elem_of_filter Hid.
    apply list_elem_of_omap in Hi as (jo & Hj & Hlive). apply list_elem_of_fmap in Hj as ([k [j o]] & -> & Hj%elem_of_map_to_list).
    pose proof (Hk _ _ Hj) as Hid'. unfold live in Hlive. cbn in *. destruct o; [done|]. injection Hlive as <-. congruence.
Qed.

(** A live row under a key joins the other live items of its list. *)
Lemma live_items_put l x t :
  keyed (fun r => ListItem.id r.1) (list_items t) ->
  live_items l (insert_item x t) ≡ₚ
    (if bool_decide (ListItem.list_id x = l) then [x] else []) ++ without (ListItem.id x) (live_items l t).
Proof.
  intros Hk. rewrite <-live_items_delete by done. unfold live_items, insert_item. destruct t as [ls cs vs m ms]. cbn.
  rewrite <-(insert_delete_eq m (ListItem.id x) (x, None)).
  rewrite map_to_list_insert by apply lookup_delete_eq. cbn. by case_bool_decide; case_decide.
Qed.

(** Updating a live row puts it again. *)
Lemma update_item_row_put id f t i :
  find_item id t = Some i -> ListItem.id (f i) = id -> update_item_row id f t = insert_item (f i) t.
Proof.
  intros Hi%find_item_Some Hid. unfold update_item_row, insert_item. destruct t as [ls cs vs m ms]. cbn in *. f_equal.
  apply map_eq. intros k. destruct (decide (k = id)) as [->|Hne].
  - rewrite lookup_alter_eq, Hi, Hid. cbn. by rewrite lookup_insert_eq.
  - rewrite lookup_alter_ne by done. by rewrite Hid, lookup_insert_ne.
Qed.

Lemma item_le_antisymm i j : item_le i j -> item_le j i -> ListItem.id i = ListItem.id j.
Proof.
  intros [Hij|[Er Hij]] [Hji|[Er' Hji]].
  - exfalso. by apply (bytes_lt_irrefl (ListItem.rank i)), (bytes_lt_trans _ _ _ Hij).
  - exfalso. rewrite Er' in Hij. by apply bytes_lt_irrefl in Hij.
  - exfalso. rewrite Er in Hji. by apply bytes_lt_irrefl in Hji.
  - lia.
Qed.

Lemma elem_of_items_of l t i : well_formed t -> i ∈ items_of l t <-> ListItem.list_id i = l /\ find_item (ListItem.id i) t = Some i.
Proof.
  intros Hwf. rewrite elem_of_items. split; [|naive_solver]. intros (Hl & k & Hk). split; [done|].
  apply find_item_Some in Hk as Hrow. pose proof (iw_keyed _ (wf_items _ _ _ Hwf) _ _ Hrow) as Hid. cbn in Hid. by rewrite Hid.
Qed.

Lemma NoDup_live_items l t : keyed (fun r => ListItem.id r.1) (list_items t) -> NoDup (live_items l t).
Proof.
  intros Hk. rewrite live_items_rows. apply NoDup_fmap_2_strong.
  - intros [i o] [j o'] [[Ho _] _]%elem_of_rows [[Ho' _] _]%elem_of_rows E. cbn in *. congruence.
  - unfold rows. apply NoDup_filter, NoDup_fmap_2_strong; [|apply NoDup_map_to_list].
    intros [k r] [k' r'] Hr%elem_of_map_to_list Hr'%elem_of_map_to_list E. cbn in *. subst r'.
    by rewrite <-(Hk _ _ Hr), <-(Hk _ _ Hr').
Qed.

Lemma sorted_without id l : StronglySorted item_le l -> StronglySorted item_le (without id l).
Proof.
  unfold without. induction 1 as [|i l Hs IH Hi]; [constructor|]. rewrite filter_cons. case_decide; [|done].
  constructor; [done|]. rewrite Forall_forall in Hi |- *. intros j [_ Hj]%list_elem_of_filter. by apply Hi.
Qed.

(** ** An item with a rank between two neighbours is put between them *)

Section put.
Context (l : Uuid) (after moving : option Uuid) (x : ListItem.t) (t : ListTables) (low high : option str).
Context (Hwf : well_formed t) (Hn : neighbours_in l after moving t = Some (low, high)).
Context (Hrank : ListItem.rank x = between low high) (Hself : after <> Some (ListItem.id x)).
Context (Hmoving : moving = None /\ find_item (ListItem.id x) t = None \/ moving = Some (ListItem.id x)).

Abbreviation others := (without (ListItem.id x) (items_of l t)).

Lemma elem_of_others i : i ∈ others <-> ListItem.list_id i = l /\ find_item (ListItem.id i) t = Some i /\ ListItem.id i <> ListItem.id x.
Proof. unfold without. rewrite list_elem_of_filter, elem_of_items_of by done. tauto. Qed.

(** Every other item sorts on one side of the new one. *)
Lemma other_side i : i ∈ others ->
  (exists a, low = Some a /\ at_or_below (ListItem.rank i) a /\ bytes_lt (ListItem.rank i) (ListItem.rank x)) \/
  (exists b, high = Some b /\ at_or_below b (ListItem.rank i) /\ bytes_lt (ListItem.rank x) (ListItem.rank i)).
Proof.
  intros (Hl & Hi & Hne)%elem_of_others. destruct (neighbours_spec _ _ _ _ _ _ Hwf Hn) as (Hnb & Hgap & _ & _).
  destruct (between_separates _ _ Hnb) as (_ & Hlo & Hhi). rewrite Hrank.
  destruct (Hgap _ i Hi Hl) as [(a & -> & Ha)|(b & -> & Hb)].
  - destruct Hmoving as [[-> _]| ->]; congruence.
  - left. exists a. split; [done|]. split; [done|]. change (default [] (Some a)) with a in Hlo.
    destruct Ha as [Ha| ->]; [by eapply bytes_lt_trans|done].
  - right. exists b. split; [done|]. split; [done|]. specialize (Hhi b eq_refl).
    destruct Hb as [Hb|<-]; [by eapply bytes_lt_trans|done].
Qed.

Lemma after_there a : after = Some a -> exists i, i ∈ others /\ ListItem.id i = a /\ low = Some (ListItem.rank i).
Proof.
  intros Ea. destruct (neighbours_spec _ _ _ _ _ _ Hwf Hn) as (_ & _ & Hlow & Hsome).
  destruct (Hsome a Ea) as [r Er]. rewrite Ea in Hlow. cbn in Hlow. rewrite Er in Hlow. symmetry in Hlow. apply fmap_Some in Hlow as (i & Hi & ->).
  apply find_item_Some in Hi as Hrow. pose proof (iw_keyed _ (wf_items _ _ _ Hwf) _ _ Hrow) as Hid. cbn in Hid.
  exists i. split; [|done]. apply elem_of_others. rewrite Hid. split_and!; [|done|congruence].
  unfold neighbours_in in Hn. rewrite Ea in Hn. cbn in Hn. rewrite Hi in Hn. cbn in Hn. by case_bool_decide.
Qed.

Lemma put_first_sorted : after = None -> StronglySorted item_le (x :: others).
Proof.
  intros Ea. constructor; [apply sorted_without, items_of_sorted|]. rewrite Forall_forall. intros i Hi.
  destruct (neighbours_spec _ _ _ _ _ _ Hwf Hn) as (_ & _ & Hlow & _). rewrite Ea in Hlow. cbn in Hlow.
  destruct (other_side i Hi) as [(a & Ha & _)|(b & _ & _ & ?)]; [congruence|by left].
Qed.

Lemma put_after_sorted a : after = Some a -> StronglySorted item_le (put_after a x others).
Proof.
  intros Ea. pose proof (sorted_without (ListItem.id x) _ (items_of_sorted l t)) as Hs.
  destruct (after_there a Ea) as (i0 & Hi0 & Ha0 & Hlow).
  destruct (put_after_split a x others) as (before & i & rest & E & Ha & ->); [eauto|].
  assert (Hnd : NoDup others).
  { apply NoDup_filter. unfold items_of. rewrite merge_sort_Permutation. apply NoDup_live_items, (wf_items _ _ _ Hwf). }
  assert (Hin : forall j, j ∈ before ++ i :: rest -> j ∈ others) by (by rewrite E).
  assert (Hii : i = i0).
  { assert (Hi : i ∈ others) by (apply Hin, elem_of_app; right; left).
    apply elem_of_others in Hi as (_ & Hi & _), Hi0 as (_ & Hi0 & _). congruence. }
  subst i0. rewrite E in Hs, Hnd. apply StronglySorted_app in Hs as (Hcross & Hs1 & Hs2).
  apply NoDup_app in Hnd as (_ & _ & Hnd). apply NoDup_cons in Hnd as [Hnin _]. apply StronglySorted_inv in Hs2 as [Hs3 Hi].
  destruct (neighbours_spec _ _ _ _ _ _ Hwf Hn) as (Hnb & _). destruct (between_separates _ _ Hnb) as (_ & Hlo & _).
  rewrite <-Hrank, Hlow in Hlo. change (default [] (Some (ListItem.rank i))) with (ListItem.rank i) in Hlo.
  assert (Hix : item_le i x) by by left.
  assert (Hxr : forall j, j ∈ rest -> item_le x j).
  { intros j Hj. assert (Hjo : j ∈ others) by (apply Hin, elem_of_app; right; by right).
    destruct (other_side j Hjo) as [(b & Hb & Hjb & _)|(b & _ & _ & ?)]; [exfalso|by left]. rewrite Hlow in Hb. injection Hb as <-.
    rewrite Forall_forall in Hi. specialize (Hi j Hj). apply elem_of_others in Hjo as (Hjl & Hjf & _).
    assert (Er : ListItem.rank i = ListItem.rank j).
    { destruct Hjb as [Hjb|]; [|done]. destruct Hi as [Hi|[Hi _]]; [|done]. exfalso.
      by apply (bytes_lt_irrefl (ListItem.rank i)), (bytes_lt_trans _ _ _ Hi). }
    apply elem_of_others in Hi0 as (Hil & Hif & _).
    pose proof (iw_distinct _ (wf_items _ _ _ Hwf) _ _ _ _ Hif Hjf ltac:(congruence) Er) as Eid. rewrite <-Eid in Hjf.
    apply Hnin. congruence. }
  apply StronglySorted_app. split_and!; [|done|].
  - intros j k Hj [->|[->|Hk]%elem_of_cons]%elem_of_cons.
    + apply Hcross; [done|left].
    + transitivity i; [apply Hcross; [done|left]|done].
    + apply Hcross; [done|by right].
  - constructor; [constructor; [done|by apply Forall_forall]|]. constructor; [done|done].
Qed.

Lemma items_of_put t' :
  live_items l t' ≡ₚ x :: without (ListItem.id x) (live_items l t) -> items_of l t' = put after x (without (ListItem.id x) (items_of l t)).
Proof.
  intros Hp.
  assert (Hperm : put after x others ≡ₚ x :: without (ListItem.id x) (live_items l t)).
  { rewrite put_Permutation; [|intros a Ea; destruct (after_there a Ea) as (i & ? & ? & _); eauto].
    apply perm_skip. unfold without, items_of. by rewrite (merge_sort_Permutation item_le (live_items l t)). }
  apply (StronglySorted_unique_strong item_le).
  - intros i j Hi Hj Hij Hji. unfold items_of in Hi. rewrite merge_sort_Permutation, Hp in Hi. rewrite Hperm in Hj.
    assert (Eid : ListItem.id i = ListItem.id j) by by apply item_le_antisymm.
    apply elem_of_cons in Hi as [->|Hi], Hj as [->|Hj]; [done| | |].
    + apply list_elem_of_filter in Hj as [Hj _]. congruence.
    + apply list_elem_of_filter in Hi as [Hi _]. congruence.
    + apply list_elem_of_filter in Hi as [_ Hi], Hj as [_ Hj].
      assert (Hi' : i ∈ items_of l t) by (unfold items_of; by rewrite merge_sort_Permutation).
      assert (Hj' : j ∈ items_of l t) by (unfold items_of; by rewrite merge_sort_Permutation).
      apply elem_of_items_of in Hi' as [_ Hi'], Hj' as [_ Hj']; [|done..]. congruence.
  - apply items_of_sorted.
  - unfold put. case_eq after; [apply put_after_sorted|apply put_first_sorted].
  - unfold items_of. rewrite merge_sort_Permutation, Hp. symmetry. exact Hperm.
Qed.
End put.

(** ** What others see *)

(** The same live items are the same sequence. *)
Lemma items_of_same l t t' : well_formed t -> live_items l t' ≡ₚ live_items l t -> items_of l t' = items_of l t.
Proof.
  intros Hwf Hp. apply (StronglySorted_unique_strong item_le); [|apply items_of_sorted..|].
  - intros i j Hi Hj Hij Hji. unfold items_of in Hi. rewrite merge_sort_Permutation, Hp in Hi.
    assert (Hi' : i ∈ items_of l t) by (unfold items_of; by rewrite merge_sort_Permutation).
    apply elem_of_items_of in Hi' as [_ Hi'], Hj as [_ Hj]; [|done..].
    rewrite (item_le_antisymm _ _ Hij Hji) in Hi'. congruence.
  - unfold items_of. by rewrite !merge_sort_Permutation.
Qed.

(** Putting an item of one list leaves the others as they were. *)
Lemma items_of_other l x t :
  well_formed t -> ListItem.list_id x <> l -> (forall i, find_item (ListItem.id x) t = Some i -> ListItem.list_id i <> l) ->
  items_of l (insert_item x t) = items_of l t.
Proof.
  intros Hwf Hl Hid. apply items_of_same; [done|]. rewrite live_items_put by apply (wf_items _ _ _ Hwf).
  rewrite bool_decide_eq_false_2 by done. cbn. unfold without. rewrite filter_all; [done|].
  intros i Hi. assert (Hi' : i ∈ items_of l t) by (unfold items_of; by rewrite merge_sort_Permutation).
  apply elem_of_items_of in Hi' as [Hil Hi']; [|done]. intros E. rewrite E in Hi'. by apply (Hid i).
Qed.

Lemma without_fresh l id t : well_formed t -> find_item id t = None -> without id (items_of l t) = items_of l t.
Proof.
  intros Hwf Hn. apply filter_all. intros i Hi E. apply elem_of_items_of in Hi as [_ Hi]; [|done]. congruence.
Qed.

(** A new item after the last one. *)
Lemma items_of_append l x t :
  well_formed t -> ListItem.list_id x = l -> find_item (ListItem.id x) t = None -> ListItem.rank x = between (last_rank_in l t) None ->
  items_of l (insert_item x t) = items_of l t ++ [x].
Proof.
  intros Hwf Hl Hn Hr.
  assert (Hp : live_items l (insert_item x t) ≡ₚ items_of l t ++ [x]).
  { rewrite live_items_put by apply (wf_items _ _ _ Hwf). rewrite bool_decide_eq_true_2 by done.
    rewrite (Permutation_app_comm (items_of l t)). apply perm_skip. rewrite <-(without_fresh l _ t Hwf Hn).
    unfold without, items_of. by rewrite merge_sort_Permutation. }
  apply (StronglySorted_unique_strong item_le).
  - intros i j Hi Hj Hij Hji. unfold items_of in Hi. rewrite merge_sort_Permutation, Hp in Hi.
    pose proof (item_le_antisymm _ _ Hij Hji) as Eid.
    assert (Hcase : forall k, k ∈ items_of l t ++ [x] -> k = x \/ find_item (ListItem.id k) t = Some k).
    { intros k [Hk|Hk]%elem_of_app; [right; by apply elem_of_items_of in Hk as [_ ?]|left; by apply list_elem_of_singleton in Hk]. }
    destruct (Hcase i Hi) as [->|Hfi], (Hcase j Hj) as [->|Hfj]; congruence.
  - apply items_of_sorted.
  - apply StronglySorted_app. split_and!; [|apply items_of_sorted|by repeat constructor].
    intros i j Hi ->%list_elem_of_singleton. left. apply elem_of_items_of in Hi as [Hil Hi]; [|done].
    destruct (last_rank_greatest _ _ _ _ Hi Hil) as (r & Er & Hle). rewrite Hr.
    destruct (between_above (last_rank_in l t)) as [_ Hlo].
    { unfold last_rank_in. intros b (k & Hk & ->)%fmap_Some. apply last_Some_elem_of, elem_of_items_of in Hk as [_ Hk]; [|done].
      by eapply (iw_ranks _ (wf_items _ _ _ Hwf)). }
    specialize (Hlo r Er). destruct Hle as [Hle| ->]; [by eapply bytes_lt_trans|done].
  - unfold items_of at 1. by rewrite merge_sort_Permutation.
Qed.
End order.

Section landing.
Context `{UuidTextLaws} `{JsonText} {C : CalendarDate} `{!CalendarDateLaws C} `{CaseFolding} `{FloatText} `{PgText}.
Context (draw : ApiDb -> Uuid) (now : Z) (show_time : Z -> str).
Implicit Types (d : ApiDb).

Lemma create_item_in_rows u l values after d w d' :
  create_item_in draw now show_time u l values after d = (Ok w, d') ->
  exists rank values', let x := new_item now l (ListItem.id (written w)) rank values' u in
    written w = x /\ T d' = insert_item x (T d) /\ list_items (T d) !! ListItem.id x = None /\
    match after with
    | Some a => exists low high, neighbours_in l (Some a) None (T d) = Some (low, high) /\ rank = between low high
    | None => rank = between (last_rank_in l (T d)) None
    end.
Proof.
  intros E. unfold create_item_in, lock, new_rank in E. inv_list.
  match goal with E : insert_drawn _ _ _ _ _ = (Ok _, _) |- _ => apply insert_drawn_Ok in E as (id & _ & Hid & -> & E); rename E into Ei end.
  match goal with E : (match after with Some _ => _ | None => _ end) _ = _ |- _ => rename E into Er end.
  cbn. eexists _, _. split; [reflexivity|]. destruct after as [a|]; inv_list; quiets.
  - tables. split_and!; [done|done|]. match goal with E : neighbours_in _ _ _ _ = Some ?ns |- _ => destruct ns as [low high] end. eauto.
  - tables. done.
Qed.

Lemma move_item_tx_rows l id after d i s d' i0 :
  move_item_tx draw now show_time l id after d = (Ok (i, s), d') -> find_item id (T d) = Some i0 ->
  exists low high, neighbours_in l after (Some id) (T d) = Some (low, high) /\
    i = Item.set_rank (between low high) now i0 /\ T d' = update_item_row id (Item.set_rank (between low high) now) (T d).
Proof.
  intros E Hi%find_item_Some. unfold move_item_tx, lock, move_item_in in E. inv_list. rewrite Hi in *. inv_list. quiets. tables.
  match goal with E : neighbours_in _ _ _ _ = Some ?ns |- _ => destruct ns as [low high] end. exists low, high. split; [done|]. simplify_eq. done.
Qed.

(** C17: items land where they are put.  A created item comes directly after the
    one it was to follow, or last; a moved item directly after the one it was
    to follow, or first.  All other items of the list, and the items of every
    other list, stay in their order: however ranks come about, to a reader
    creating and moving insert one element into a sequence. *)
Theorem items_land_where_asked (u l : Uuid) (after : option Uuid) (d d' : ApiDb) :
  well_formed (T d) ->
  (forall values w, create_item_in draw now show_time u l values after d = (Ok w, d') ->
     items_of l (T d') = match after with
                         | Some a => put_after a (written w) (items_of l (T d))
                         | None => items_of l (T d) ++ [written w]
                         end /\
     forall l', l' <> l -> items_of l' (T d') = items_of l' (T d)) /\
  (forall id i0 i s, find_item id (T d) = Some i0 -> ListItem.list_id i0 = l -> after <> Some id ->
     move_item_tx draw now show_time l id after d = (Ok (i, s), d') ->
     items_of l (T d') = put after i (without id (items_of l (T d))) /\
     forall l', l' <> l -> items_of l' (T d') = items_of l' (T d)).
Proof.
  intros Hwf. split.
  - intros values w E. apply create_item_in_rows in E as (rank & values' & Ex & Et & Hid & Hrank). revert Ex Et Hid.
    generalize (ListItem.id (written w)) as id. intros id -> Et Hid. rewrite Et.
    set (x := new_item _ _ _ _ _ _) in *.
    assert (Hnone : find_item (ListItem.id x) (T d) = None) by (unfold find_item; by rewrite Hid).
    split; [|intros l' Hl'; apply items_of_other; [done|cbn; congruence|congruence]].
    destruct after as [a|]; [|by apply items_of_append].
    destruct Hrank as (low & high & Hn & Hr). rewrite <-(without_fresh l _ _ Hwf Hnone).
    apply (items_of_put l (Some a) None x (T d) low high Hwf Hn Hr).
    + intros [= ->]. unfold neighbours_in in Hn. cbn in Hn. change id with (ListItem.id x) in Hn. by rewrite Hnone in Hn.
    + by left.
    + rewrite live_items_put by apply (wf_items _ _ _ Hwf). by rewrite bool_decide_eq_true_2.
  - intros id i0 i s Hi Hl Hself E. destruct (move_item_tx_rows _ _ _ _ _ _ _ _ E Hi) as (low & high & Hn & -> & Et).
    apply find_item_Some in Hi as Hrow. pose proof (iw_keyed _ (wf_items _ _ _ Hwf) _ _ Hrow) as Hid. cbn in Hid.
    rewrite Et, (update_item_row_put id _ _ i0) by done. set (x := Item.set_rank _ _ i0) in *.
    split; [|intros l' Hl'; apply items_of_other; [done|cbn; congruence|]].
    + rewrite <-Hid. apply (items_of_put l after (Some id) x (T d) low high Hwf Hn eq_refl).
      * cbn. by rewrite Hid.
      * right. cbn. by rewrite Hid.
      * rewrite live_items_put by apply (wf_items _ _ _ Hwf). by rewrite bool_decide_eq_true_2.
    + cbn. rewrite Hid, Hi. intros j [= <-]. congruence.
Qed.

(** The event tells every reader of the list that the item is there. *)
Definition tells_present (i : ListItem.t) (e : Frames.Event) : Prop :=
  event_type e = $"list.item_upserted" /\ get ($"item") (payload e) = Some (item_json show_time i).

(** An item that was deleted while it was being moved is announced again.
    Between the request's look-up of the item and its transaction somebody may
    delete the item; the move changes the rank of the deleted row all the same
    and commits, staging the event that tells every reader of the list that the
    item is there, although it stays deleted. *)
Theorem moving_a_deleted_item_announces_it (l id : Uuid) (after : option Uuid) (d : ApiDb) (x : List.t) (i : ListItem.t) (at_ : Z) :
  find_list l (T d) = Some x -> list_items (T d) !! id = Some (i, Some at_) ->
  is_Some (neighbours_in l after (Some id) (T d)) ->
  exists moved s d', move_item_tx draw now show_time l id after d = (Ok (moved, s), d') /\
    tells_present moved (event s) /\ find_item id (T d') = None.
Proof.
  intros Hx Hi [[low high] Hn].
  assert (Hrow : list_items (T (with_app (set_list_tables (update_item_row id (Item.set_rank (between low high) now))) d)) !! id =
    Some (Item.set_rank (between low high) now i, Some at_)).
  { destruct d as [o nr si lg ou [us ws wm cs cm cd wi sm hs wf al lt li ms]]. cbn in *. unfold update_item_row.
    destruct lt. cbn in *. by rewrite lookup_alter_eq, Hi. }
  unfold move_item_tx, move_item_in, item_upserted, stage_list, stage_in, lock, list_read, list_run, read, run, tx_require, tx_of, tx_read,
    tx_query, mbind, Tx_bind, mret, Tx_ret. cbn. rewrite Hx. cbn. rewrite Hn. cbn. rewrite Hi. cbn.
  eexists _, _, _. split; [reflexivity|]. split; [done|].
  exact (f_equal (fun o => o ≫= live) Hrow).
Qed.
End landing.

(** The second item is moved before the first. *)
Lemma items_land_where_asked_witness :
  ListItem.id <$> items_of 100%N (T SampleBoard.db) = [106%N; 107%N] /\
  exists i d', move_item_tx SampleBoard.draw SampleBoard.now SampleBoard.show_time 100%N 107%N None SampleBoard.db = (Ok i, d') /\
    items_of 100%N (T d') = i.1 :: without 107%N (items_of 100%N (T SampleBoard.db)) /\
    ListItem.id <$> items_of 100%N (T d') = [107%N; 106%N].
Proof.
  split; [vm_compute; reflexivity|].
  destruct (move_item_tx SampleBoard.draw SampleBoard.now SampleBoard.show_time 100%N 107%N None SampleBoard.db)
    as [[[i s]|e] d'] eqn:E; [|vm_compute in E; discriminate E].
  exists (i, s), d'. split; [reflexivity|].
  destruct (items_land_where_asked SampleBoard.draw SampleBoard.now SampleBoard.show_time 3%N 100%N None SampleBoard.db d'
    SampleBoard.db_wf) as [_ Hmove].
  assert (Hp : items_of 100%N (T d') = i :: without 107%N (items_of 100%N (T SampleBoard.db))).
  { destruct (find_item 107%N (T SampleBoard.db)) as [i0|] eqn:Hi; [|vm_compute in Hi; discriminate Hi].
    refine (proj1 (Hmove 107%N i0 i s Hi _ _ E)); [|discriminate]. vm_compute in Hi. injection Hi as <-. reflexivity. }
  split; [exact Hp|]. assert (Ed : d' = (move_item_tx SampleBoard.draw SampleBoard.now SampleBoard.show_time 100%N 107%N None SampleBoard.db).2) by by rewrite E.
  rewrite Ed. vm_compute. reflexivity.
Defined.

(** The first item goes while the second is being moved before it. *)
Lemma moving_a_deleted_item_announces_it_witness :
  exists moved s d', move_item_tx SampleBoard.draw SampleBoard.now SampleBoard.show_time 100%N 106%N (Some 107%N)
      (SampleBoard.deleting SampleBoard.db) = (Ok (moved, s), d') /\
    event_type (event s) = $"list.item_upserted" /\ find_item 106%N (T d') = None.
Proof.
  destruct (find_list 100%N (T (SampleBoard.deleting SampleBoard.db))) as [x|] eqn:Hx; [|vm_compute in Hx; discriminate Hx].
  destruct (list_items (T (SampleBoard.deleting SampleBoard.db)) !! 106%N) as [[i [z|]]|] eqn:Hi;
    [|vm_compute in Hi; discriminate Hi..].
  destruct (moving_a_deleted_item_announces_it SampleBoard.draw SampleBoard.now SampleBoard.show_time 100%N 106%N (Some 107%N)
    (SampleBoard.deleting SampleBoard.db) x i z Hx Hi) as (moved & s & d' & E & [H1 _] & H2).
  { vm_compute. by eexists. }
  exists moved, s, d'. split; [exact E|split; [exact H1|exact H2]].
Defined.
