(* ===== verification/ListConvert.v ===== *)
(** * A change of a column destroys what its author agreed to
    ([backend/api/src/lists/{service,repo}.rs], [convert_cells],
    [rewrite_cells_in]) *)

From stdpp Require Import base tactics option numbers list gmap sorting.
From Stdlib Require Import ZArith Lia String Ascii.
From S2P Require Import Prelude RustStr Json Errors Rank Lists ListForms ListViews ListStore ListInvariant Mentions LaterStore MessageStore ApiState Outbox Tables Authz Membership ApiLaws LaterSync ListService ListTx ListLaws ListOrder.

Section convert.
Context `{UuidTextLaws} `{JsonText} {C : CalendarDate} `{!CalendarDateLaws C} `{CaseFolding} `{FloatText} `{PgText}.
Context (draw : ApiDb -> Uuid) (now : Z) (fresh : nat -> nat -> Uuid) (show_time : Z -> str).
Implicit Types (t : ListTables) (c : Conversion).

(** ** What a conversion carries over *)

(** What the value of a cell means in a column of another kind, or of the same
    kind with other options. *)
Definition carries (from to : ColumnKind * ColumnOptions) (v w : json) : Prop :=
  match from.1, to.1 with
  | MultiSelect, MultiSelect => exists us ws : Datatypes.list Uuid,
      v = JArray (uuid_string <$> us) /\ w = JArray (uuid_string <$> ws) /\ forall u, u ∈ ws <-> u ∈ us
  | Number, Text => exists s, number_text v = Some s /\ w = JString s
  | Text, Number => exists s f, v = JString s /\ f64_parse (trim s) = Some f /\ w = JNumber (Float f)
  | Select, Text => exists u ch, v = uuid_string u /\ choice_by_id from.2 u = Some ch /\ w = JString (Choice.label ch)
  | Text, Select => exists s ch, v = JString s /\ ch ∈ choices to.2 /\ to_lowercase (Choice.label ch) = to_lowercase (trim s) /\ w = uuid_string (Choice.id ch)
  | k, k' => k = k' /\ w = v
  end.

Lemma uuid_string_inj u v : uuid_string u = uuid_string v -> u = v.
Proof. intros [= E]. by apply uuid_to_string_inj. Qed.
#[local] Instance uuid_string_Inj : Inj (=) (=) uuid_string := uuid_string_inj.
Lemma normalize_text_Ok o s w : normalize Text o (JString s) = Ok (Set_ w) -> w = JString s.
Proof. unfold normalize. cbn. case_bool_decide; [done|]. case_match; [done|]. by intros [= <-]. Qed.

Lemma chosen_ids_sub o us chosen r : chosen_ids o (uuid_string <$> us) chosen = Ok r -> us ⊆ Choice.id <$> choices o.
Proof.
  revert chosen. induction us as [|u us IH]; intros chosen; [by intros _ x ?%not_elem_of_nil|]. cbn. unfold choice, expects.
  rewrite uuid_parse_to_string. cbn. destruct (choice_by_id o u) as [ch|] eqn:E; [|done]. cbn. intros Hr%IH x [->|Hx]%elem_of_cons; [|by apply Hr].
  apply choice_by_id_Some in E as [Hin <-]. by apply list_elem_of_fmap_2.
Qed.

(** The choices of a cell of several are kept all or not at all. *)
Lemma convert_multi o o' (us : Datatypes.list Uuid) : us <> [] ->
  match convert (MultiSelect, o) (MultiSelect, o') (JArray (uuid_string <$> us)) with
  | Some w => exists ws : Datatypes.list Uuid, w = JArray (uuid_string <$> ws) /\ forall u, u ∈ ws <-> u ∈ us
  | None => ~ us ⊆ Choice.id <$> choices o'
  end.
Proof.
  intros Hne. unfold convert, carried, normalize. cbn [fst snd]. rewrite bool_decide_eq_true_2 by done. cbn. destruct (chosen_ids o' (uuid_string <$> us) []) as [r|e] eqn:Er; cbn.
  - pose proof (chosen_ids_sub _ _ _ _ Er) as Hsub. destruct (chosen_ids_of_ids o' us [] Hsub) as (r' & Er' & Hr).
    rewrite Er in Er'. injection Er' as <-. rewrite bool_decide_eq_false_2.
    2: { intros Hnil. destruct us as [|u us]; [done|]. apply (not_elem_of_nil u). rewrite <- Hnil. apply Hr. right. left. }
    cbn.
    exists (Choice.id <$> filter (fun ch => Choice.id ch ∈ r) (choices o')). split; [by rewrite <- list_fmap_compose|].
    intros u. rewrite list_elem_of_fmap. split.
    + intros (ch & -> & [Hin _]%list_elem_of_filter). apply Hr in Hin as [[]%not_elem_of_nil|]; done.
    + intros Hu. destruct (proj1 (list_elem_of_fmap Choice.id (choices o') u)) as (ch & -> & Hch); [by apply Hsub|].
      exists ch. split; [done|]. apply list_elem_of_filter. split; [|done]. apply Hr. by right.
  - intros Hsub. destruct (chosen_ids_of_ids o' us [] Hsub) as (r' & Er' & _). congruence.
Qed.

Lemma same_kind_carries k o o' v : k <> Select -> k <> MultiSelect -> well_typed k o v -> convert (k, o) (k, o') v = Some v.
Proof.
  intros Hs Hm Hv. unfold convert, carried. cbn [fst snd]. rewrite bool_decide_eq_true_2 by done. cbn.
  assert (Hv' : well_typed k o' v) by (by destruct k). by rewrite (well_typed_normalize _ _ _ Hv').
Qed.

(** A conversion carries a value over if what it means there is of the kind. *)
Lemma convert_spec from to v : well_typed from.1 from.2 v ->
  match convert from to v with
  | Some w => carries from to v w /\ well_typed to.1 to.2 w
  | None => forall w, carries from to v w -> ~ well_typed to.1 to.2 w
  end.
Proof.
  destruct from as [k o], to as [k' o']. cbn [fst snd]. intros Hv.
  assert (Hdone : match convert (k, o) (k', o') v with Some w => carries (k, o) (k', o') v w | None => forall w, carries (k, o) (k', o') v w -> ~ well_typed k' o' w end ->
    match convert (k, o) (k', o') v with
    | Some w => carries (k, o) (k', o') v w /\ well_typed k' o' w | None => forall w, carries (k, o) (k', o') v w -> ~ well_typed k' o' w end).
  { destruct (convert _ _ v) as [w|] eqn:E; [|done]. intros Hc. split; [done|]. by apply convert_well_typed in E. }
  apply Hdone. clear Hdone. destruct (decide (k = k')) as [<-|Hne].
  - destruct (decide (k = MultiSelect)) as [->|Hm]; [|destruct (decide (k = Select)) as [->|Hs]].
    + destruct Hv as (chosen & Hne & Hsub & ->). set (us := filter _ _). assert (Hus : us <> []).
      { destruct chosen as [|u l]; [done|]. intros E. apply (not_elem_of_nil u). rewrite <- E. apply list_elem_of_filter. split; [left|]. apply Hsub. left. }
      pose proof (convert_multi o o' us Hus) as Hc. destruct (convert _ _ _) as [w|]; cbn.
      * destruct Hc as (ws & -> & Hws). by exists us, ws.
      * intros w (us' & ws & [= E] & -> & Hws) (l & _ & Hl & [= E']). apply Hc. intros u Hu. 
        apply (inj (fmap uuid_string)) in E, E'. subst us' ws. apply Hws, list_elem_of_filter in Hu. by destruct Hu.
    + destruct Hv as (ch & Hch & ->). unfold convert, carried, normalize. cbn [fst snd]. rewrite bool_decide_eq_true_2 by done. cbn. unfold choice. rewrite uuid_parse_to_string. cbn.
      destruct (choice_by_id o' (Choice.id ch)) as [ch'|] eqn:E; cbn.
      * apply choice_by_id_Some in E as [_ ->]. done.
      * intros w [_ ->] (c2 & Hc2 & Hid). apply uuid_string_inj in Hid. rewrite Hid in E. destruct (choice_by_id_is_Some _ _ Hc2) as (? & ? & _). congruence.
    + rewrite (same_kind_carries k o o' v Hs Hm Hv). by destruct k.
  - unfold convert, carried. cbn [fst snd]. rewrite bool_decide_eq_false_2 by done.
    destruct k, k'; try done; cbn [mbind option_bind]; try (intros w [? _]; done).
    + destruct Hv as (t & -> & _). cbn -[finite]. destruct (f64_parse (trim t)) as [f|] eqn:Ef; cbn -[finite].
      2: { intros w (s & g & [= <-] & Hg & _). congruence. }
      destruct (finite (Float f)) eqn:Efin; cbn -[finite].
      * unfold normalize. cbn -[finite]. rewrite Efin. by exists t, f.
      * intros w (s & g & [= <-] & Hg & ->) (n & [= <-] & Hn). congruence.
    + destruct Hv as (t & -> & _). cbn. unfold choice_labelled. destruct (find _ (choices o')) as [ch|] eqn:Ef; cbn.
      * apply find_some in Ef as [Hin Hl]. apply list_elem_of_In in Hin. apply bool_decide_eq_true in Hl. unfold normalize. cbn. unfold choice.
        rewrite uuid_parse_to_string. cbn. destruct (choice_by_id_is_Some _ _ Hin) as (ch' & Hch' & Hid). rewrite Hch'. cbn. rewrite Hid. by exists t, ch.
      * intros w (s & ch & [= <-] & Hin & Hl & _) _. apply list_elem_of_In in Hin. apply (find_none _ _ Ef) in Hin. unfold str_eqb in Hin.
        by rewrite Hl, bool_decide_eq_true_2 in Hin.
    + destruct (number_text v) as [s|] eqn:En; cbn -[normalize well_typed].
      * destruct (normalize Text o' (JString s)) as [[|w]|e] eqn:E; [| |].
        -- intros w (s' & Hs' & ->) Hw%well_typed_normalize. rewrite En in Hs'. injection Hs' as <-. congruence.
        -- apply normalize_text_Ok in E as ->. by exists s.
        -- intros w (s' & Hs' & ->) Hw%well_typed_normalize. rewrite En in Hs'. injection Hs' as <-. congruence.
      * intros w (s' & Hs' & _). congruence.
    + destruct Hv as (ch & Hch & ->). cbn -[normalize well_typed]. unfold choice. rewrite uuid_parse_to_string. cbn -[normalize well_typed].
      destruct (choice_by_id_is_Some _ _ Hch) as (c1 & Hc1 & Hid). rewrite Hc1. cbn -[normalize well_typed].
      destruct (normalize Text o' (JString (Choice.label c1))) as [[|w]|e] eqn:E.
      2: { apply normalize_text_Ok in E as ->. by exists (Choice.id ch), c1. }
      all: intros w (u & c2 & Hu & Hc2 & ->) Hw%well_typed_normalize; apply uuid_string_inj in Hu; subst u; congruence.
Qed.

(** A value that equals its conversion for the database is its conversion. *)
Lemma convert_eqb from to v w : well_typed from.1 from.2 v -> convert from to v = Some w -> json_eqb w v = true -> w = v.
Proof.
  intros Hv Hc. pose proof (convert_spec from to v Hv) as Hs. rewrite Hc in Hs. destruct Hs as [Hs Hw]. revert Hs.
  destruct from as [k o], to as [k' o']. unfold carries. cbn [fst snd] in *. destruct k, k'; cbn; try by intros [? ->].
  - intros (s & f & -> & _ & ->). done.
  - intros (s & ch & -> & _ & _ & ->). by intros ->%json_eqb_str.
  - intros (s & _ & ->). by intros ->%json_eqb_str.
  - intros (u & ch & -> & _ & ->). by intros ->%json_eqb_str.
  - intros (us & ws & -> & -> & _). intros E.
    assert (E1 : uuid_string <$> ws = JString <$> (uuid_to_string <$> ws)) by apply (list_fmap_compose uuid_to_string JString ws).
    rewrite E1 in E |- *. by apply json_eqb_strings in E as ->.
Qed.

(** ** What the rewriting holds for an item *)

Definition by_item (cells : Datatypes.list (str * json)) : Prop := forall p, p ∈ cells -> exists i, p.1 = uuid_to_string i.

Lemma by_item_insert i v cells : by_item cells -> by_item (assoc_insert (uuid_to_string i) v cells).
Proof. intros Hc p [->|Hp]%elem_of_assoc_insert; [by exists i|by apply Hc]. Qed.

Lemma find_by_item i cells : by_item cells ->
  (fun p : str * json => p.2) <$> find (fun p => bool_decide (uuid_parse p.1 = Some i)) cells = assoc (uuid_to_string i) cells.
Proof.
  intros Hc. induction cells as [|[k v] cells IH]; [done|]. cbn. destruct (Hc (k, v)) as [j Ej]; [left|]. cbn in Ej. subst k.
  rewrite uuid_parse_to_string. unfold str_eqb.
  destruct (decide (i = j)) as [->|Hne].
  - rewrite !bool_decide_eq_true_2 by done. done.
  - rewrite !bool_decide_eq_false_2 by (by intros ?%uuid_to_string_inj || congruence). apply IH. intros p Hp. apply Hc. by right.
Qed.

Section loop.
Context (from to : ColumnKind * ColumnOptions).

(** What becomes of a cell, in the rewriting and in the table. *)
Definition entry (v : json) : option json :=
  match convert from to v with
  | Some next => if json_eqb next v then None else Some next
  | None => Some JNull
  end.

Lemma convert_cell_entry c cell i :
  assoc (uuid_to_string i) (conversion_cells (convert_cell from to c cell)) =
    if bool_decide (i = cell.1) then
      match entry cell.2 with Some v => Some v | None => assoc (uuid_to_string i) (conversion_cells c) end
    else assoc (uuid_to_string i) (conversion_cells c).
Proof.
  unfold convert_cell, entry. destruct cell as [j v]. cbn [fst snd].
  case_bool_decide as Hij; [subst j|]; destruct (convert from to v); cbn [conversion_cells]; try destruct (json_eqb _ _);
    rewrite ?assoc_insert_eq; try done; by rewrite assoc_insert_ne by (by intros ?%uuid_to_string_inj).
Qed.

Lemma convert_all_entry cells c i :
  NoDup cells.*1 ->
  assoc (uuid_to_string i) (conversion_cells (foldl (convert_cell from to) c cells)) =
    match (p ← find (fun p : Uuid * json => bool_decide (p.1 = i)) cells; entry p.2) with
    | Some v => Some v
    | None => assoc (uuid_to_string i) (conversion_cells c)
    end.
Proof.
  revert c. induction cells as [|[j v] cells IH]; intros c; cbn; [done|]. intros [Hj Hnd]%NoDup_cons.
  rewrite IH, convert_cell_entry by done. cbn. destruct (decide (j = i)) as [->|Hne].
  - rewrite !bool_decide_eq_true_2 by done. cbn. destruct (find _ cells) as [p|] eqn:Hf; [|done]. exfalso.
    apply find_some in Hf as [Hp Hi]. apply bool_decide_eq_true in Hi. apply Hj. rewrite <-Hi.
    apply list_elem_of_fmap. exists p. split; [done|by apply list_elem_of_In].
  - by rewrite (bool_decide_eq_false_2 (j = i)), (bool_decide_eq_false_2 (i = j)).
Qed.

Lemma convert_all_by_item cells c : by_item (conversion_cells c) -> by_item (conversion_cells (foldl (convert_cell from to) c cells)).
Proof.
  revert c. induction cells as [|[j v] cells IH]; intros c Hc; cbn; [done|]. apply IH. unfold convert_cell. cbn [fst snd].
  destruct (convert from to v); cbn [conversion_cells]; [destruct (json_eqb _ _)|]; try done; by apply by_item_insert.
Qed.

(** The counts: the cells that are cleared are those that cannot be converted. *)
Lemma convert_all_counts cells c :
  let c' := foldl (convert_cell from to) c cells in
  cleared c' = cleared c + Z.of_nat (length (filter (fun p : Uuid * json => convert from to p.2 = None) cells)) /\
  converted c' + cleared c' = converted c + cleared c + Z.of_nat (length cells).
Proof.
  revert c. induction cells as [|[j v] cells IH]; intros c; [cbn; lia|]. cbn [foldl]. destruct (IH (convert_cell from to c (j, v))) as [E1 E2].
  cbv zeta. rewrite E2, E1, filter_cons. clear E1 E2. unfold convert_cell. cbn [fst snd].
  destruct (convert from to v); cbn [cleared converted]; case_decide; try done; cbn [length]; lia.
Qed.
End loop.

(** ** What it does to the table *)

(** A cell as an item has it. *)
Definition cell (id : Uuid) (i : ListItem.t) : option json := get (uuid_to_string id) (ListItem.values i).

Lemma omap_cons {A B} (f : A -> option B) x xs :
  omap f (x :: xs) = match f x with Some y => y :: omap f xs | None => omap f xs end.
Proof. reflexivity. Qed.

(** The live items of a list after an update of the items of another, or the same. *)
Lemma live_items_update l l' f t :
  values_only f -> live_items l' (update_items l f t) = (if bool_decide (l' = l) then f <$> live_items l' t else live_items l' t).
Proof.
  intros Hf. unfold live_items, update_items. destruct t as [ls cs vs m ms]. cbn [set_list_items list_items].
  rewrite map_to_list_fmap, <-list_fmap_compose.
  generalize (map_to_list m). intros rows. induction rows as [|[k [i o]] rows IH]; [by case_bool_decide|].
  rewrite !fmap_cons, !omap_cons. cbn [compose prod_map snd fst]. destruct (Hf i) as (_ & E & _).
  destruct (bool_decide (ListItem.list_id i = l)) eqn:Hil, o as [o|]; cbn [live snd fst]; try exact IH;
    rewrite !filter_cons, IH, ?E;
    [apply bool_decide_eq_true in Hil|apply bool_decide_eq_false in Hil]; repeat case_decide; repeat case_bool_decide; try congruence; done.
Qed.

Lemma rewrite_cell_values_only id cells : values_only (rewrite_cell id cells).
Proof. intros i. unfold rewrite_cell. destruct (find _ cells) as [[k []]|]; done. Qed.

(** The cells of the column, and the others, of an item that is rewritten. *)
Lemma rewrite_cell_get id cells i :
  by_item cells -> (exists m, ListItem.values i = JObject m) ->
  (forall id', id' <> id -> cell id' (rewrite_cell id cells i) = cell id' i) /\
  cell id (rewrite_cell id cells i) =
    match assoc (uuid_to_string (ListItem.id i)) cells with
    | Some JNull => None
    | Some v => Some v
    | None => cell id i
    end.
Proof.
  intros Hc [m Em]. rewrite <-(find_by_item _ cells Hc). unfold rewrite_cell, cell.
  destruct (find _ cells) as [[k v]|]; cbn [fmap option_fmap option_map]; [|done].
  assert (Hne : forall id', id' <> id -> uuid_to_string id' <> uuid_to_string id) by (intros id' Hid ?%uuid_to_string_inj; done).
  destruct v; cbn [Item.set_values ListItem.values]; rewrite Em; cbn; (split; [intros id' Hid; specialize (Hne id' Hid)|]);
    rewrite ?assoc_insert_ne, ?assoc_remove_ne, ?assoc_insert_eq, ?assoc_remove_eq by done; done.
Qed.

(** The cells of a column, item by item. *)
Lemma cells_in_eq l id t : cells_in l id t = omap (fun i => (fun v => (ListItem.id i, v)) <$> cell id i) (live_items l t).
Proof. reflexivity. Qed.

Lemma find_cell id (is_ : Datatypes.list ListItem.t) i :
  NoDup (ListItem.id <$> is_) -> i ∈ is_ ->
  find (fun p : Uuid * json => bool_decide (p.1 = ListItem.id i)) (omap (fun i => (fun v => (ListItem.id i, v)) <$> cell id i) is_) =
    (fun v => (ListItem.id i, v)) <$> cell id i.
Proof.
  intros Hnd Hi. induction is_ as [|j is_ IH]; [by apply not_elem_of_nil in Hi|].
  rewrite fmap_cons in Hnd. apply NoDup_cons in Hnd as [Hj Hnd]. rewrite omap_cons.
  assert (Hnone : forall k, k ∉ ListItem.id <$> is_ ->
    find (fun p : Uuid * json => bool_decide (p.1 = k)) (omap (fun i => (fun v => (ListItem.id i, v)) <$> cell id i) is_) = None).
  { clear IH. intros k Hk. destruct (find _ _) as [p|] eqn:Hf; [|done]. exfalso. apply find_some in Hf as [Hp Hpk].
    apply bool_decide_eq_true in Hpk. apply list_elem_of_In, list_elem_of_omap in Hp as (x & Hx & Hp).
    apply fmap_Some in Hp as (v & _ & ->). apply Hk. cbn in Hpk. rewrite <-Hpk. by apply list_elem_of_fmap_2. }
  apply elem_of_cons in Hi as [->|Hi].
  - destruct (cell id j) as [v|]; cbn; [by rewrite bool_decide_eq_true_2|by apply Hnone].
  - assert (Hne : ListItem.id j <> ListItem.id i) by (intros E; apply Hj; rewrite E; by apply list_elem_of_fmap_2).
    destruct (cell id j) as [v|]; cbn; [rewrite bool_decide_eq_false_2 by done|]; by apply IH.
Qed.

Lemma NoDup_cells id (is_ : Datatypes.list ListItem.t) :
  NoDup (ListItem.id <$> is_) -> NoDup (omap (fun i => (fun v => (ListItem.id i, v)) <$> cell id i) is_).*1.
Proof.
  induction is_ as [|j is_ IH]; [constructor|]. rewrite fmap_cons. intros [Hj Hnd]%NoDup_cons. rewrite omap_cons.
  destruct (cell id j) as [v|]; cbn; [|by apply IH]. constructor; [|by apply IH].
  intros (p & E & Hp)%list_elem_of_fmap. apply list_elem_of_omap in Hp as (x & Hx & Hp). apply fmap_Some in Hp as (w & _ & ->).
  cbn in E. apply Hj. rewrite E. by apply list_elem_of_fmap_2.
Qed.

Lemma length_filter_cells (P : json -> Prop) `{!forall p : Uuid * json, Decision (P p.2)} id (Q : ListItem.t -> Prop) `{!forall i, Decision (Q i)} is_ :
  (forall i, i ∈ is_ -> Q i <-> exists v, cell id i = Some v /\ P v) ->
  length (filter (fun p : Uuid * json => P p.2) (omap (fun i => (fun v => (ListItem.id i, v)) <$> cell id i) is_)) = length (filter Q is_).
Proof.
  induction is_ as [|i is_ IH]; [done|]. intros HQ. rewrite omap_cons, (filter_cons Q).
  specialize (HQ i (list_elem_of_here _ _)) as HQi.
  assert (IH' := IH (fun j Hj => HQ j (list_elem_of_further _ _ _ Hj))). clear IH HQ.
  destruct (cell id i) as [v|]; cbn [fmap option_fmap option_map].
  - rewrite filter_cons. cbn [snd]. repeat case_decide; cbn [length]; rewrite ?IH'; try done; exfalso; naive_solver.
  - rewrite IH'. case_decide; [|done]. exfalso. naive_solver.
Qed.

Lemma NoDup_item_ids l t : well_formed t -> NoDup (ListItem.id <$> live_items l t).
Proof.
  intros Hwf. apply NoDup_fmap_2_strong; [|apply NoDup_live_items, (wf_items _ _ _ Hwf)].
  intros i j Hi Hj E. assert (Hi' : i ∈ items_of l t) by (unfold items_of; by rewrite merge_sort_Permutation).
  assert (Hj' : j ∈ items_of l t) by (unfold items_of; by rewrite merge_sort_Permutation).
  apply elem_of_items_of in Hi' as [_ Hi'], Hj' as [_ Hj']; [|done..]. congruence.
Qed.

Lemma convert_not_null from to v next : convert from to v = Some next -> next <> JNull.
Proof. intros Hc ->. apply convert_well_typed in Hc. destruct to.1; cbn in Hc; naive_solver. Qed.

Lemma update_column_items id name kind o hidden due t : list_items (update_column_in id name kind o hidden due t) = list_items t.
Proof. unfold update_column_in, clear_due. destruct due, t; cbn; [|done]. by case_match. Qed.
Lemma rewrite_items l id cells t t' : list_items t' = list_items t -> list_items (rewrite_cells_in l id cells t') = list_items (rewrite_cells_in l id cells t).
Proof. unfold rewrite_cells_in, update_items. destruct t, t'; cbn. by intros ->. Qed.

Lemma rewrite_columns l id cells t : list_columns (rewrite_cells_in l id cells t) = list_columns t.
Proof. by destruct t. Qed.
(** The column changes; of the others of its list at most the mark of the due
    column goes. *)
Lemma update_column_row_at l id name kind o hidden due t col : column_at l id t = Some col ->
  column_at l id (update_column_in id name kind o hidden due t) = Some (update_column_row id name kind o hidden due col).
Proof.
  intros [Hrow Hl]%column_at_Some. apply column_at_Some. split; [|done]. unfold update_column_in, clear_due.
  destruct due; [rewrite Hrow|]; destruct t as [ls cs vs m ms]; cbn in *; rewrite lookup_alter_eq, ?lookup_fmap, Hrow; [|done].
  cbn. by case_match.
Qed.
Lemma update_column_others l id name kind o hidden due t col l' id' (c : ListColumn.t) :
  column_at l id t = Some col -> id' <> id -> column_at l' id' t = Some c ->
  let c' := column_at l' id' (update_column_in id name kind o hidden due t) in
  c' = Some c \/ c' = Some (Column.set_due false c) /\ l' = l /\ due = true.
Proof.
  intros [Hrow Hl]%column_at_Some Hne [Hc Hl']%column_at_Some. unfold update_column_in, clear_due.
  destruct due; [rewrite Hrow|left; apply column_at_Some; split; [|done]; destruct t; cbn in *; by rewrite lookup_alter_ne].
  destruct (bool_decide (ListColumn.list_id c = ListColumn.list_id col) && negb (bool_decide (ListColumn.id c = id))) eqn:E; [right|left].
  - split; [|split; [|done]].
    + apply column_at_Some. split; [|done]. destruct t; cbn in *. rewrite lookup_alter_ne, lookup_fmap, Hc by done. cbn. by rewrite E.
    + apply andb_true_iff in E as [E _]. apply bool_decide_eq_true in E. congruence.
  - apply column_at_Some. split; [|done]. destruct t; cbn in *. rewrite lookup_alter_ne, lookup_fmap, Hc by done. cbn. by rewrite E.
Qed.

Lemma update_column_tx_Ok l id req d a d' :
  update_column_tx draw now fresh show_time l id req d = (Ok a, d') -> well_formed (T d) ->
  exists col o, column_at l id (T d) = Some col /\ updated_options fresh col req = Ok o /\
    let conv := convert_cells col (updated_kind col req) o (T d) in
    (cleared conv <= 0 \/ UpdateColumnRequest.confirm_cleared req = Some (cleared conv)) /\
    list_items (T d') = list_items (rewrite_cells_in l id (conversion_cells conv) (T d)) /\
    exists name hidden due, updated_due col req = Ok due /\
      list_columns (T d') = list_columns (update_column_in id name (updated_kind col req) o hidden due (T d)).
Proof.
  intros E Hwf. unfold update_column_tx in E. apply tx_bind_Ok in E as (x & d0 & [Hx ->]%lock_Ok & E). inv_list.
  all: match goal with E : column_of _ _ = Ok ?y |- _ => apply (column_of_Some _ _ _ _ Hwf) in E as Hc; exists y end.
  all: match goal with E : updated_options _ _ _ = Ok ?o |- _ => exists o end.
  all: split; [done|]; split; [done|]; cbv zeta.
  all: match goal with E : columns_changed _ _ _ _ _ = _ |- _ => apply columns_changed_Ok in E as [Ht _] end.
  all: match goal with E : prune_views _ _ _ _ _ _ = _ |- _ => apply prune_views_rows in E as [-> ->] end.
  all: match goal with E : _ && _ = false |- _ => rename E into Hag end.
  all: split; [apply andb_false_iff in Hag as [Hag|Hag]; [left; by apply Z.ltb_ge in Hag|right];
               apply negb_false_iff in Hag; by apply bool_decide_eq_true in Hag|].
  all: rewrite Ht; tables.
  all: split; [|do 3 eexists; split; [eassumption|]; by rewrite ?rewrite_columns].
  - apply rewrite_items, update_column_items.
  - match goal with E : negb _ = false |- _ => apply negb_false_iff, bool_decide_eq_true in E; rewrite E end.
    rewrite rewrite_cells_nil. apply update_column_items.
Qed.

Lemma convert_cells_by_item col kind o t : by_item (conversion_cells (convert_cells col kind o t)).
Proof. unfold convert_cells. case_match; [by intros p ?%not_elem_of_nil|]. apply convert_all_by_item. by intros p ?%not_elem_of_nil. Qed.

Lemma live_items_same_rows l t t' : list_items t' = list_items t -> live_items l t' = live_items l t.
Proof. unfold live_items. by intros ->. Qed.

(** What the rewriting makes of each item, and how many cells it clears. *)
Section spec.
Context (l id : Uuid) (col : ListColumn.t) (kind : ColumnKind) (o : ColumnOptions) (t : ListTables).
Context (Hwf : well_formed t) (Hcol : column_at l id t = Some col).
Abbreviation conv := (convert_cells col kind o t).
Abbreviation change := (rewrite_cell id (conversion_cells conv)).
Abbreviation unchanged := (bool_decide (kind = ListColumn.kind col) && bool_decide (o = ListColumn.options col)).

Lemma change_get i : i ∈ live_items l t ->
  (forall id', id' <> id -> cell id' (change i) = cell id' i) /\
  cell id (change i) = match assoc (uuid_to_string (ListItem.id i)) (conversion_cells conv) with
                       | Some JNull => None | Some v => Some v | None => cell id i end.
Proof.
  intros [Hil [k Hi]]%elem_of_live_items. apply rewrite_cell_get; [apply convert_cells_by_item|].
  destruct (wf_cells _ _ _ Hwf _ _ Hi) as (m & Em & _). eauto.
Qed.

Lemma change_entry i : i ∈ live_items l t ->
  unchanged = false ->
  assoc (uuid_to_string (ListItem.id i)) (conversion_cells conv) =
    (v ← cell id i; entry (ListColumn.kind col, ListColumn.options col) (kind, o) v).
Proof.
  intros Hi Hsame. apply column_at_Some in Hcol as [Hrow Hl].
  pose proof (cw_keyed _ (wf_columns _ _ _ Hwf) _ _ Hrow) as Hid.
  unfold convert_cells. rewrite Hsame, Hl, Hid, cells_in_eq, convert_all_entry by apply NoDup_cells, NoDup_item_ids, Hwf.
  rewrite find_cell by (done || apply NoDup_item_ids, Hwf). cbn. destruct (cell id i) as [v|]; cbn; [|done].
  by destruct (entry _ _ v).
Qed.

Lemma change_unchanged i : i ∈ live_items l t -> unchanged = true -> cell id (change i) = cell id i.
Proof. intros Hi Hsame. destruct (change_get i Hi) as [_ ->]. unfold convert_cells. by rewrite Hsame. Qed.

Lemma cell_typed i v : i ∈ live_items l t -> cell id i = Some v -> well_typed (ListColumn.kind col) (ListColumn.options col) v.
Proof.
  intros [Hil [k Hi]]%elem_of_live_items Hv. destruct (wf_cells _ _ _ Hwf _ _ Hi) as (m & Em & Hm). unfold cell in Hv. rewrite Em in Hv. cbn in Hv.
  destruct (Hm _ _ Hv) as (id' & c & Eid & Hc & Ht). apply uuid_to_string_inj in Eid as <-. rewrite Hil, Hcol in Hc. by injection Hc as ->.
Qed.
(** A cell goes when it cannot be converted. *)
Lemma change_cell i : i ∈ live_items l t -> unchanged = false ->
  cell id (change i) = None <->
    match cell id i with
    | Some v => convert (ListColumn.kind col, ListColumn.options col) (kind, o) v = None
    | None => True
    end.
Proof.
  intros Hi Hsame. destruct (change_get i Hi) as [_ ->]. rewrite change_entry by done.
  destruct (cell id i) as [v|]; cbn; [|done]. unfold entry. destruct (convert _ _ v) as [next|] eqn:Hc; [|done].
  pose proof (convert_not_null _ _ _ _ Hc). destruct (json_eqb next v); [done|]. by destruct next.
Qed.

(** And is what the conversion makes of it when it can. *)
Lemma change_value i v : i ∈ live_items l t -> unchanged = false -> cell id i = Some v ->
  cell id (change i) = convert (ListColumn.kind col, ListColumn.options col) (kind, o) v.
Proof.
  intros Hi Hsame Hv. destruct (change_get i Hi) as [_ ->]. rewrite change_entry by done. rewrite Hv. cbn. unfold entry.
  destruct (convert _ _ v) as [w|] eqn:Hc; [|done]. pose proof (convert_not_null _ _ _ _ Hc) as Hnull.
  destruct (json_eqb w v) eqn:E; [|by destruct w]. f_equal. symmetry. eapply convert_eqb; [|exact Hc|exact E]. by apply (cell_typed i).
Qed.

Lemma change_none i : i ∈ live_items l t -> cell id i = None -> cell id (change i) = None.
Proof.
  intros Hi Hn. destruct unchanged eqn:Hsame; [by rewrite change_unchanged|]. apply change_cell; [done..|]. by rewrite Hn.
Qed.

Lemma change_spec i : i ∈ live_items l t ->
  let from := (ListColumn.kind col, ListColumn.options col) in
  match cell id i, cell id (change i) with
  | None, w => w = None
  | Some v, Some w => if bool_decide (from = (kind, o)) then w = v else carries from (kind, o) v w /\ well_typed kind o w
  | Some v, None => from <> (kind, o) /\ forall w, carries from (kind, o) v w -> ~ well_typed kind o w
  end.
Proof.
  intros Hi from. destruct (cell id i) as [v|] eqn:Hv; [|by apply change_none]. destruct unchanged eqn:Hsame.
  - rewrite change_unchanged, Hv by done. apply andb_true_iff in Hsame as [->%bool_decide_eq_true ->%bool_decide_eq_true]. by rewrite bool_decide_eq_true_2.
  - assert (Hne : from <> (kind, o)).
    { intros [= Ek Eo]. rewrite !bool_decide_eq_true_2 in Hsame by done. done. }
    rewrite (change_value i v Hi Hsame Hv). pose proof (convert_spec from (kind, o) v (cell_typed i v Hi Hv)) as Hs. subst from.
    destruct (convert _ _ v) as [w|]; [|by split]. by rewrite bool_decide_eq_false_2.
Qed.

Lemma change_lost :
  cleared conv = Z.of_nat (length (filter (fun i => is_Some (cell id i) /\ cell id (change i) = None) (live_items l t))).
Proof.
  destruct unchanged eqn:Hsame.
  - destruct (filter _ _) as [|i is_] eqn:Hf; [by unfold convert_cells; rewrite Hsame|]. exfalso.
    assert (Hi : i ∈ i :: is_) by left. rewrite <-Hf in Hi. apply list_elem_of_filter in Hi as [[[v Hv] Hn] Hi].
    rewrite change_unchanged in Hn by done. congruence.
  - apply column_at_Some in Hcol as Hcol'. destruct Hcol' as [Hrow Hl]. pose proof (cw_keyed _ (wf_columns _ _ _ Hwf) _ _ Hrow) as Hid.
    transitivity (Z.of_nat (length (filter (fun p : Uuid * json =>
      convert (ListColumn.kind col, ListColumn.options col) (kind, o) p.2 = None) (cells_in l id t)))).
    + unfold convert_cells. rewrite Hsame, Hl, Hid.
      by destruct (convert_all_counts (ListColumn.kind col, ListColumn.options col) (kind, o) (cells_in l id t) no_conversion) as [-> _].
    + f_equal. rewrite cells_in_eq.
      apply (length_filter_cells (fun v => convert (ListColumn.kind col, ListColumn.options col) (kind, o) v = None)).
      intros i Hi. rewrite change_cell by done. destruct (cell id i) as [v|].
      * split; [intros [_ Hv]; eauto|]. intros (w & [= <-] & Hv). split; [by eexists|done].
      * split; [intros [[v Hv] _]; discriminate|naive_solver].
Qed.
End spec.

(** C12: A change of a column destroys what its author agreed to.  When the kind
    or the options of a column change, the change commits only if no cell of it
    has to go, or exactly as many as the author confirmed having been told;
    that many items of the list then have lost the cell of the column.  A cell
    goes only if what it holds means nothing of the new kind; every other holds
    what it means there, and has its type; none is gained.  Every item keeps its
    place and its cells in the other columns, and the items of other lists stay
    as they are; other columns stay as they are, but that the due column of the
    list ceases to be it when this one is made so. *)
Theorem column_change_is_agreed_to (l id : Uuid) (req : UpdateColumnRequest.t) (d d' : ApiDb) a :
  well_formed (T d) -> update_column_tx draw now fresh show_time l id req d = (Ok a, d') ->
  exists (col col' : ListColumn.t) (lost : Z) (change : ListItem.t -> ListItem.t),
    column_at l id (T d) = Some col /\ column_at l id (T d') = Some col' /\
    ListColumn.kind col' = updated_kind col req /\ updated_options fresh col req = Ok (ListColumn.options col') /\
    (lost = 0 \/ UpdateColumnRequest.confirm_cleared req = Some lost) /\
    live_items l (T d') = change <$> live_items l (T d) /\
    lost = Z.of_nat (length (filter (fun i => is_Some (cell id i) /\ cell id (change i) = None) (live_items l (T d)))) /\
    (forall i, i ∈ live_items l (T d) ->
       ListItem.id (change i) = ListItem.id i /\ ListItem.rank (change i) = ListItem.rank i /\
       (forall id', id' <> id -> cell id' (change i) = cell id' i) /\
       let from := (ListColumn.kind col, ListColumn.options col) in
       let to := (ListColumn.kind col', ListColumn.options col') in
       match cell id i, cell id (change i) with
       | None, w => w = None
       | Some v, Some w => if bool_decide (from = to) then w = v else carries from to v w /\ well_typed to.1 to.2 w
       | Some v, None => from <> to /\ forall w, carries from to v w -> ~ well_typed to.1 to.2 w
       end) /\
    (forall l', l' <> l -> live_items l' (T d') = live_items l' (T d)) /\
    (forall l' id' (c : ListColumn.t), id' <> id -> column_at l' id' (T d) = Some c ->
       column_at l' id' (T d') = Some c \/
       column_at l' id' (T d') = Some (Column.set_due false c) /\ l' = l /\ updated_due col req = Ok true).
Proof.
  intros Hwf E. destruct (update_column_tx_Ok _ _ _ _ _ _ E Hwf) as (col & o & Hc & Ho & Hag & Hitems & name & hidden & due & Hdue & Hcols).
  assert (Hat : forall l' id', column_at l' id' (T d') = column_at l' id' (update_column_in id name (updated_kind col req) o hidden due (T d))).
  { intros l' id'. unfold column_at. by rewrite Hcols. }
  exists col, (update_column_row id name (updated_kind col req) o hidden due col),
    (cleared (convert_cells col (updated_kind col req) o (T d))),
    (rewrite_cell id (conversion_cells (convert_cells col (updated_kind col req) o (T d)))).
  pose proof (change_lost l id col (updated_kind col req) o (T d) Hwf Hc) as Hlost.
  pose proof (rewrite_cell_values_only id (conversion_cells (convert_cells col (updated_kind col req) o (T d)))) as Hval.
  split_and!; [done|rewrite Hat; by apply update_column_row_at|done|done|destruct Hag; [left; lia|by right]| |exact Hlost| | |].
  - rewrite (live_items_same_rows _ _ _ Hitems). unfold rewrite_cells_in. rewrite live_items_update by done. by rewrite bool_decide_eq_true_2.
  - intros i Hi. destruct (Hval i) as (? & _ & ?). split_and!; [done|done|by apply (change_get l)|].
    exact (change_spec l id col (updated_kind col req) o (T d) Hwf Hc i Hi).
  - intros l' Hl'. rewrite (live_items_same_rows _ _ _ Hitems). unfold rewrite_cells_in. rewrite live_items_update by done.
    by rewrite bool_decide_eq_false_2.
  - intros l' id' c Hne Hc'. rewrite Hat. destruct (update_column_others l id name (updated_kind col req) o hidden due _ _ _ _ _ Hc Hne Hc') as [->|(-> & -> & ->)]; auto.
Qed.
End convert.

(** The titles of both items cannot become numbers: the change waits until
    both have been agreed to. *)
Module SampleChange.
Definition to_number (confirmed : option Z) : UpdateColumnRequest.t :=
  {| UpdateColumnRequest.name := None; UpdateColumnRequest.kind := Some Number; UpdateColumnRequest.options := None;
     UpdateColumnRequest.hidden := None; UpdateColumnRequest.due := None; UpdateColumnRequest.confirm_cleared := confirmed |}.
Definition change (confirmed : option Z) :=
  update_column_tx SampleBoard.draw SampleBoard.now SampleBoard.fresh SampleBoard.show_time 100%N 101%N (to_number confirmed) SampleBoard.db.
End SampleChange.

Lemma column_change_is_agreed_to_witness :
  is_ok (SampleChange.change (Some 1)).1 = false /\
  exists a d' change, SampleChange.change (Some 2) = (Ok a, d') /\
    live_items 100%N (T d') = change <$> live_items 100%N (T SampleBoard.db) /\
    (cell 101%N <$> live_items 100%N (T d')) = [None; None] /\ (cell 103%N <$> live_items 100%N (T d')) <> [None; None].
Proof.
  split; [vm_compute; reflexivity|].
  destruct (SampleChange.change (Some 2)) as [[a|e] d'] eqn:E; [|vm_compute in E; discriminate E].
  assert (Ed : d' = (SampleChange.change (Some 2)).2) by by rewrite E.
  unfold SampleChange.change in E.
  destruct (column_change_is_agreed_to SampleBoard.draw SampleBoard.now SampleBoard.fresh SampleBoard.show_time 100%N 101%N
    (SampleChange.to_number (Some 2)) SampleBoard.db d' a SampleBoard.db_wf E) as (col & col' & lost & change & _ & _ & _ & _ & _ & Hlive & _).
  exists a, d', change. split; [reflexivity|]. split; [exact Hlive|]. rewrite Ed. split; vm_compute; [reflexivity|discriminate].
Defined.
