(* ===== verification/EndToEnd.v ===== *)
(** * From the API to the sockets

    What the API stages in its outbox, read by the gateway: the two sides agree
    on the names and fields of an event. *)

From stdpp Require Import base tactics option numbers list gmap.
From Stdlib Require Import ZArith Lia String Ascii.
From S2P Require Import Prelude RustStr Json Errors Frames Redis GatewayState ConnectionManager.
From S2P Require Import Presence EventConsumer Publisher MessageStore ApiState Outbox AuditLog Tables Authz Membership MembershipLaws.

(** None of the person's connections is subscribed to the channel. *)
Definition withdrawn {R} (u ch : Uuid) (g : World R) : Prop :=
  forall c conn, connections g !! c = Some conn -> user_id conn = u -> ch ∉ subscribed_channels conn.

Section end_to_end.
Context `{UuidTextLaws}.

Lemma seat_payload_user ch ws u : get_uuid ($"user_id") (seat_payload ch ws u) = Some u.
Proof. unfold get_uuid, seat_payload, uuid_field. cbn. apply uuid_parse_to_string. Qed.

Lemma seat_payload_channel ch ws u : get_uuid ($"channel_id") (seat_payload ch ws u) = Some ch.
Proof. unfold get_uuid, seat_payload, uuid_field. cbn. apply uuid_parse_to_string. Qed.

(** C8: leaving reaches the sockets.  When the transaction that removes a person
    from a workspace has committed, then for every channel of the workspace the
    person sat in an event waits in the outbox that, handled by any gateway in
    any coherent state, leaves none of the person's connections subscribed to
    the channel. *)
Theorem removal_reaches_the_sockets {R} `{Redis R} `{JsonText} `{FrameSerde} `{RedisArgs}
    (draw : ApiDb -> Uuid) (now : Z) (ws u ch : Uuid) (d d' : ApiDb) (gone : list Uuid * list Staged) :
  fresh_ids d -> detach_tx draw now ws u d = (Ok gone, d') ->
  in_workspace (app d) ws ch -> is_Some (channel_members (app d) !! (ch, u)) ->
  exists row r, outbox d' !! row = Some r /\ published_at r = None /\
    forall g : World R, coherent g ->
      withdrawn u ch (handle_event_for ConnectionManager.Everyone (event_type (row_event r)) (payload (row_event r)) None g).2.
Proof.
  intros Hf Hgone Hin Hseat. destruct (detach_tx_eq draw now ws u d Hf) as (staged & d2 & E & _ & Hrows & _).
  rewrite Hgone in E. injection E as -> ->. destruct (Hrows ch) as (id & r & Hr & Hp & _ & Hty & Hpay).
  { by apply elem_of_dropped. }
  exists id, r. split; [done|]. split; [done|]. intros g Hg. rewrite Hty, Hpay. intros c conn Hc Hu.
  exact (proj1 (proj1 (channel_member_removed_effect (seat_payload ch ws u) None u ch g Hg
    (seat_payload_user ch ws u) (seat_payload_channel ch ws u)) c conn Hc Hu)).
Qed.
End end_to_end.

(** User 7 sits in channel 30 of workspace 20; [Sample.world] is a gateway with
    a connection of user 7 subscribed to it. *)
Module SampleRemoval.
#[global] Instance uuid_laws : UuidTextLaws SampleCodec.uuid.
Proof. constructor. intros u. cbn. by rewrite N2Z.id. Qed.
Definition db : ApiDb := {| outbox := ∅; next_row := 1; stream_index := ∅; log := []; out := [];
  app := {| users := ∅; workspaces := ∅; workspace_members := ∅;
    channels := {[30%N := SampleTables.channel 30%N Public (JObject [])]};
    channel_members := {[(30%N, 7%N) := SampleTables.membership 30%N 7%N ChannelRole.Member]};
    conversation_departures := ∅; workspace_invites := ∅; scheduled_messages := ∅; hooks := ∅; workflows := ∅;
    audit_log := []; list_tables := ListStore.no_lists; later_items := ∅; message_tables := MessageStore.no_messages; poll_tables := PollStore.no_polls; notice_tables := NoticeStore.no_notices; retention_tables := no_retention; auth_tables := AuthStore.no_sign_ins |} |}.
Definition leave := detach_tx (H := SampleCodec.uuid) (fun _ => 9%N) 100 20%N 7%N db.
End SampleRemoval.

Lemma removal_reaches_the_sockets_witness :
  exists row r, outbox SampleRemoval.leave.2 !! row = Some r /\
    forall conn, connections (handle_event_for ConnectionManager.Everyone (event_type (row_event r))
                   (payload (row_event r)) None Sample.world).2 !! 1%N = Some conn ->
      user_id conn = 7%N -> 30%N ∉ subscribed_channels conn.
Proof.
  destruct SampleRemoval.leave as [[gone|e] d'] eqn:E; [|vm_compute in E; discriminate].
  destruct (removal_reaches_the_sockets (fun _ => 9%N) 100 20%N 7%N 30%N SampleRemoval.db d' gone)
    as (row & r & Hr & _ & Hg).
  - intros id r. cbn. by rewrite lookup_empty.
  - exact E.
  - reflexivity.
  - by eexists.
  - exists row, r. split; [exact Hr|]. intros conn. exact (Hg Sample.world Sample.world_coherent 1%N conn).
Defined.
